(* ===== verification/_CoqProject ===== *)
-Q . S2P
Prelude.v
CInt.v
CMem.v
CString.v
Pattern.v
DataGen.v
Bitmask.v
BitmaskText.v
Splitstr.v
Zoo.v
PanColl.v
Pan.v
PanMain.v
Symbol.v
RandomRange.v
Names.v
TstRes.v
ParseOpts.v
WriteLog.v
Kver.v
Timer.v
Checkpoint.v
TstTest.v
TstLogic.v
TstTimeout.v
TstMesg.v
Fsx.v
FsxProof.v
FsxOpts.v
CpusetPath.v
Cpuset.v
CpusetTasks.v
CpusetText.v
CpusetProof.v
CpusetTasksProof.v
OpenFlags.v
BytesPrefix.v
CProg.v
IoReq.v
Iogen.v
IogenProof.v
Doio.v
DoioMain.v
DoioPosix.v
DoioProof.v
DoioRun.v
IogenDoio.v
GetPath.v
Forker.v
RmObj.v
