(* ===== verification/Prelude.v ===== *)
(** * A verification development of the Linux Test Project

    The Linux Test Project (LTP) is a collection of tests for the Linux kernel with
    the programs that run them.  This development models the parts of it that other
    parts rely on: the driver that runs the tests (pan), the libraries with which tests
    are written (lib, include), and of the tests themselves those that are programs
    with a specification of their own: the exerciser of file systems fsx-linux, the pair
    of iogen and doio, and the library of the cpuset tests.  Definitions are translations of the C code and carry
    its names; theorems say what the code does.

    ** How C is modelled

    - CInt: integers of C are [Z]; wrap-around of unsigned types and of conversions is
      written out ([u32], [s32], ...); overflow of signed arithmetic is undefined where
      the code can reach it ([ck32], [ck64]).
    - CMem: arrays are lists; accesses are checked, outside of the array they are
      undefined.  CString: strings are lists of characters without the final zero, with
      the functions of libc that the code uses.
    - A function that may have undefined behaviour or may not return has a result in
      [res] (this file): [Ret], [Undef] or [NoFuel].  Loops that are not structural take
      fuel; the theorems about them prove that the fuel which the definitions give is
      enough (or, where the code does loop forever, that no fuel is).
    - Global and static variables are records that are passed along, in small monads of
      their own where there are many of them (Pan, Symbol, TstRes, TstTest, Fsx, Cpuset).
      CProg: the monad of programs with global variables that make system calls and may
      exit, and a logic of total correctness for them, used for iogen and doio.
    - The kernel, the environment, the clock, the random numbers, and what the test
      functions of a user do are not part of the code: they are arguments of the
      definitions (lists of answers, functions, or a class of systems) and the theorems
      hold for all of them, or for those with the properties named in the theorem.

    ** The files

    pan, the test driver:
    - PanColl (pan/ltp-pan.c: slurp, get_collection, subst_pcnt_f): the collection of
      commands.  PanMain: options of pan and what main does before the loop.  Pan: the
      loop of main, run_child, check_pids, check_orphans, the signal handler; the
      scheduler as a transition system over the answers of fork, wait and kill and the
      signals that arrive, at any point, also between two kills.  Shown: as long as no
      undefined behaviour is met (there is some: empty_output_undefined, read_interrupted)
      the table of running tests and the active file stay well formed and no error of the
      active file ends pan (pan_run_safe); without signals and failing starts pan ends
      (pan_terminates; else failing_starts_spin); its exit status counts the bad ends that
      the code counts (pan_exit_count), with -S commands run in order (pan_sequential),
      signals are passed on and orphans killed.
    - Zoo (pan/zoolib.c): the file of active tests, as bytes, against a list of lines.
    - Splitstr (pan/splitstr.c, lib/string_to_tokens.c).  Symbol (pan/symbol.c): the
      hierarchical tables on a heap, refined to trees.
    The library with the old interface:
    - Names, TstRes (lib/tst_res.c): every function that reports a result, with the
      buffers and the state between calls; test_report and test_broken give the output
      and the exit status of whole tests.  ParseOpts (lib/parse_opts.c): options,
      environment and the loop of iterations.
    - RandomRange (lib/random_range.c), Pattern (lib/pattern.c), DataGen
      (lib/dataascii.c, lib/databin.c), WriteLog (lib/write_log.c), Kver
      (lib/tst_kvercmp.c), OpenFlags (lib/open_flags.c), BytesPrefix
      (lib/bytes_by_prefix.c, with binary floating point), Timer (include/tst_timer.h,
      lib/tst_timer.c), Checkpoint (lib/tst_checkpoint.c: processes that wait and wake, in
      every interleaving, on futexes as Linux documents them), GetPath (lib/get_path.c), Forker (lib/forker.c: the processes
      in which a call returns), RmObj (lib/rmobj.c: over a class of file systems whose
      calls may fail, nothing but the object is removed; rmobj_removes).
    The library with the new interface (lib/tst_test.c):
    - TstTest: the processes of a test as programs over their system calls and the
      interleaving of them as a step relation.  TstLogic: a program logic for the shared
      counters of results, sound for every interleaving; an exit status of 0 means that
      all results passed, and the status is exactly the union of the results.
      TstTimeout: an invariant of the program of the library (handlers, timer, fork,
      setpgid and wait come in this order in every run), from which a test that sends no
      heartbeat is killed with its group when the timeout is over.  TstMesg: the line of a
      result and the option string in their buffers.
    Tests:
    - Fsx, FsxProof, FsxOpts (testcases/kernel/fs/fsx-linux/fsx-linux.c): on a system
      that behaves like a file every run succeeds, with -L on a file that is not empty;
      when a run without -L succeeds on any system, all that the system answered about the
      file was right.
    - iogen and doio (testcases/kernel/fs/doio), as they are compiled for Linux: iogen
      makes up I/O requests and writes them to a pipe, doio reads them, carries them out
      and checks what it has written.  IoReq (doio.h): the requests, byte by byte.  Iogen
      (iogen.c): options, files, the choice of requests.  IogenProof: every request that
      is written is well formed and inside of its file (requests_in_file), and is placed
      as the options say (request_follows).  Doio (doio.c, the operations), DoioMain (its
      options, the child and the parent): memory that pointers reach belongs to the
      system, so that buffers, mappings and signals for wrong accesses are answers to
      calls.  DoioPosix: the class [Posix] of systems on which doio is verified, that is
      what POSIX says of the calls for regular files, where a [faulty] system may leave
      anything in a file that it was told to write; and an implementation of it.
      DoioProof: the operations, one after the other, against the class: the cache of
      descriptors, the buffers, the check of the contents, the log, reads and writes.
      DoioRun: a child from its start to its exit: on a system that is not faulty all
      requests are carried out (requests_carried_out); on one that is, -v finds it
      (corruption_detected); the log can be read back (writes_logged); the parent's
      status (children_reported); runs, and defects as examples.  IogenDoio: the pipe.
    - Bitmask, BitmaskText (testcases/kernel/controllers/cpuset/cpuset_lib/libbitmask.c):
      operations on a heap of masks as operations on sets of bits, and the text forms
      with their round trips.
    - CpusetPath, Cpuset, CpusetTasks, CpusetText (cpuset_lib/libcpuset.c, whole): paths
      and lines; settings, masks and maps of a cpuset and their files; tasks, trees of
      cpusets, moving and killing; export and import.  The functions are programs over
      a typed system call interface ([call], answered by an instance of [Kernel]) and
      the static variables of the library.  Shown: pathcomp gives the canonical path
      (pathcomp_spec); on a cpuset file system, stated as the class [CpusetFs] and
      implemented by a small one in memory, modify and create make all settings or
      write back what was there as far as the system, which decides on every write from the
      state of all files, accepts it (CpusetProof); what cpuset_export writes cpuset_import reads
      back; on every kernel cpuset_nuke ends and sleeps no longer than it was asked,
      and lists of tasks are sorted and complete (CpusetTasksProof).

    ** Bounds and fuel

    - rmobj recurses as deep as a name of PATH_MAX characters can go, forker takes a turn
      for each copy.
    - Loops over text take its length as fuel, loops over masks their number of bits,
      loops over tables their size: the specifications give the value, so that the
      fuel is enough.  The loop of pan takes one turn for each element of a list of
      events; pan_terminates bounds the number of turns.  cpuset_nuke takes one round for
      each second (nuke_loop_fuel).  The loops of iogen and doio take one turn for each
      request; their theorems are of total correctness, so that the fuel is enough.
    - Buffers have the sizes of the source; text that does not fit is undefined or cut
      off as it is there.

    ** Not modelled

    - The tests under testcases/ other than those above: each is a sequence of system
      calls whose meaning is that of the kernel under test; their own logic is a
      comparison of an answer with an expected one.  The shell scripts, the Makefiles,
      the lists of tests under runtest/ and scenario_groups/, and the programs that
      other projects maintain (utils/, tools/, testcases/open_posix_testsuite).
    - Of pan: ltp-bump (sends one signal), ltp-scanner with scan.l, tag_report and
      reporter (a generated scanner and the printing of reports), debug output.
    - Of lib: wrappers that make one call and end the test when it fails (safe_*.c),
      and files that only talk to the kernel or run other programs (tst_tmpdir,
      tst_device, tst_mkfs, tst_module, tst_net, tst_run_cmd, tst_fs_*, tst_sig,
      cloner, self_exec, file_lock, mount flags); tlibio.c,
      which issues the same transfer through many system calls; datapid.c, which is
      compiled only for Cray systems.
    - Of iogen and doio: the branches for CRAY and sgi, the functions that only format
      messages (a message is a value that carries their arguments), asynchronous
      requests, which Linux does not have there, and signals that arrive in the middle
      of an operation (the handlers are modelled).  growfiles, the third program there.
    - What is printed for debugging, and memory that runs out where the code only
      reports that. *)

From stdpp Require Export prelude gmap strings list.
From Stdlib Require Export ZArith Lia Ascii.

(** ** Results of C code

    A C function that may run into undefined behaviour, or loop, returns a
    [res]: [Ret a] is a normal return, [Undef] undefined behaviour (an access
    out of range, a division by zero, overlapping [memcpy]), [NoFuel] that the
    fuel given for a loop ran out. *)
Inductive res (A : Type) : Type :=
| Ret (a : A)
| Undef
| NoFuel.
Arguments Ret {A} _.
Arguments Undef {A}.
Arguments NoFuel {A}.

#[global] Instance res_ret : MRet res := λ A a, Ret a.
#[global] Instance res_bind : MBind res := λ A B f m,
  match m with
  | Ret a => f a
  | Undef => Undef
  | NoFuel => NoFuel
  end.

#[global] Instance res_eq_dec `{EqDecision A} : EqDecision (res A).
Proof. solve_decision. Defined.

Lemma res_bind_ret {A B} (a : A) (f : A → res B) : (Ret a ≫= f) = f a.
Proof. reflexivity. Qed.

Lemma res_bind_assoc {A B C} (m : res A) (f : A → res B) (g : B → res C) :
  ((m ≫= f) ≫= g) = (m ≫= λ a, f a ≫= g).
Proof. by destruct m. Qed.

Lemma res_bind_inv {A B} (m : res A) (f : A → res B) b :
  (m ≫= f) = Ret b → ∃ a, m = Ret a ∧ f a = Ret b.
Proof. destruct m; naive_solver. Qed.

(** ** Notations *)

Declare Scope ltp_scope.
Delimit Scope ltp_scope with ltp.
(** C's truncating division and remainder. *)
Infix "%/" := Z.quot (at level 40, left associativity) : ltp_scope.
Infix "%%" := Z.rem (at level 40, left associativity) : ltp_scope.
(** A C truth value. *)
Notation "'b2z' b" := (if b : bool then 1%Z else 0%Z) (at level 9) : ltp_scope.
Open Scope ltp_scope.

(** ** Tactics *)

(** Case analysis on boolean tests, their meaning put in the context. *)
Ltac bool_hyps :=
  repeat match goal with
  | H : andb _ _ = true |- _ => apply andb_prop in H as [? ?]
  | H : andb _ _ = false |- _ => apply andb_false_iff in H
  | H : orb _ _ = false |- _ => apply orb_false_iff in H as [? ?]
  | H : orb _ _ = true |- _ => apply orb_prop in H
  | H : negb _ = true |- _ => apply negb_true_iff in H
  | H : negb _ = false |- _ => apply negb_false_iff in H
  | H : Z.eqb _ _ = true |- _ => apply Z.eqb_eq in H
  | H : Z.eqb _ _ = false |- _ => apply Z.eqb_neq in H
  | H : Z.leb _ _ = true |- _ => apply Z.leb_le in H
  | H : Z.leb _ _ = false |- _ => apply Z.leb_gt in H
  | H : Z.ltb _ _ = true |- _ => apply Z.ltb_lt in H
  | H : Z.ltb _ _ = false |- _ => apply Z.ltb_ge in H
  | H : bool_decide _ = true |- _ => apply bool_decide_eq_true in H
  | H : bool_decide _ = false |- _ => apply bool_decide_eq_false in H
  end.

(** Destruct the scrutinee of an [if] in the goal and interpret it. *)
Ltac case_if :=
  match goal with
  | |- context [if ?b then _ else _] =>
      let E := fresh "E" in
      lazymatch type of b with
      | bool => destruct b eqn:E; bool_hyps
      | _ => destruct b as [E|E]
      end
  end.

Ltac case_if_in H :=
  match type of H with
  | context [if ?b then _ else _] =>
      let E := fresh "E" in
      lazymatch type of b with
      | bool => destruct b eqn:E; bool_hyps
      | _ => destruct b as [E|E]
      end
  end.

(** [lia] after replacing divisions and remainders by their equations. *)
Ltac zlia := Z.to_euclidean_division_equations; lia.
Ltac znia := Z.to_euclidean_division_equations; nia.
