(* ===== verification/CInt.v ===== *)
(** * Machine integers

    Fixed-width C integers as [Z] with the wrap-around written out: [wrap_u w]
    reduces to an unsigned [w]-bit value, [wrap_s w] to a two's complement one. *)

From S2P Require Import Prelude.
Local Open Scope Z_scope.

Definition wrap_u (w z : Z) : Z := z mod 2 ^ w.
Definition wrap_s (w z : Z) : Z := (z + 2 ^ (w - 1)) mod 2 ^ w - 2 ^ (w - 1).

(** The C types the code uses, on the LP64 model of Linux. *)
Definition u8 := wrap_u 8.
Definition u32 := wrap_u 32.
Definition u64 := wrap_u 64.
Definition s8 := wrap_s 8.
Definition s32 := wrap_s 32.
Definition s64 := wrap_s 64.

Definition INT_MAX : Z := 2147483647.
Definition INT_MIN : Z := -2147483648.
Definition ULONG_MAX : Z := 18446744073709551615.

Definition in_u (w z : Z) : Prop := 0 ≤ z < 2 ^ w.
Definition in_s (w z : Z) : Prop := - 2 ^ (w - 1) ≤ z < 2 ^ (w - 1).

Create Rewrite HintDb cint.

Lemma pow2_split w : 0 < w → 2 ^ w = 2 * 2 ^ (w - 1).
Proof. intros. rewrite <- Z.pow_succ_r by lia. f_equal. lia. Qed.

Lemma wrap_u_id w z : in_u w z → wrap_u w z = z.
Proof. apply Z.mod_small. Qed.

Lemma wrap_s_id w z : 0 < w → in_s w z → wrap_s w z = z.
Proof.
  unfold wrap_s, in_s. intros Hw Hz. pose proof (pow2_split w Hw).
  rewrite Z.mod_small; lia.
Qed.

Lemma wrap_u_range w z : 0 ≤ w → in_u w (wrap_u w z).
Proof. intros. apply Z.mod_pos_bound, Z.pow_pos_nonneg; lia. Qed.

Lemma wrap_s_range w z : 0 < w → in_s w (wrap_s w z).
Proof.
  unfold wrap_s, in_s. intros Hw. pose proof (pow2_split w Hw).
  pose proof (Z.mod_pos_bound (z + 2 ^ (w - 1)) (2 ^ w) ltac:(apply Z.pow_pos_nonneg; lia)).
  lia.
Qed.

(** Wrapping only looks at the residue modulo [2 ^ w]. *)
Lemma wrap_s_mod w z : 0 < w → (wrap_s w z) mod 2 ^ w = z mod 2 ^ w.
Proof.
  intros Hw. unfold wrap_s. rewrite Zminus_mod_idemp_l. f_equal. lia.
Qed.

Lemma u8_id z : 0 ≤ z < 256 → u8 z = z.
Proof. apply (wrap_u_id 8). Qed.
Lemma u32_id z : 0 ≤ z < 4294967296 → u32 z = z.
Proof. apply (wrap_u_id 32). Qed.
Lemma u64_id z : 0 ≤ z < 18446744073709551616 → u64 z = z.
Proof. apply (wrap_u_id 64). Qed.
Lemma s8_id z : -128 ≤ z < 128 → s8 z = z.
Proof. by apply (wrap_s_id 8). Qed.
Lemma s32_id z : -2147483648 ≤ z < 2147483648 → s32 z = z.
Proof. by apply (wrap_s_id 32). Qed.
Lemma s64_id z : -9223372036854775808 ≤ z < 9223372036854775808 → s64 z = z.
Proof. by apply (wrap_s_id 64). Qed.

Lemma u8_range z : 0 ≤ u8 z < 256.
Proof. apply (wrap_u_range 8). lia. Qed.
Lemma u32_range z : 0 ≤ u32 z < 4294967296.
Proof. apply (wrap_u_range 32). lia. Qed.
Lemma u64_range z : 0 ≤ u64 z < 18446744073709551616.
Proof. apply (wrap_u_range 64). lia. Qed.
Lemma s32_range z : -2147483648 ≤ s32 z < 2147483648.
Proof. apply (wrap_s_range 32). lia. Qed.

#[export] Hint Rewrite u8_id u32_id u64_id s8_id s32_id s64_id using lia : cint.

(** Reading back as [unsigned char] what was stored through a [char]. *)
Lemma u8_s8 z : u8 (s8 z) = u8 z.
Proof. apply (wrap_s_mod 8). lia. Qed.

(** Signed arithmetic that must not overflow: outside [int] it is undefined. *)
Definition ck32 (z : Z) : res Z :=
  if (INT_MIN <=? z) && (z <=? INT_MAX) then Ret z else Undef.

Lemma ck32_ok z : INT_MIN ≤ z ≤ INT_MAX → ck32 z = Ret z.
Proof. intros [? ?]. unfold ck32. by rewrite !(proj2 (Z.leb_le _ _)) by done. Qed.

Lemma ck32_inv z r : ck32 z = Ret r → r = z ∧ INT_MIN ≤ z ≤ INT_MAX.
Proof. unfold ck32. case_if; [|done]. intros [= <-]. done. Qed.

(** The same for [long]. *)
Definition ck64 (z : Z) : res Z := if (-9223372036854775808 <=? z) && (z <=? 9223372036854775807) then Ret z else Undef.

Lemma ck64_ok z : -9223372036854775808 ≤ z ≤ 9223372036854775807 → ck64 z = Ret z.
Proof. intros [? ?]. unfold ck64. by rewrite !(proj2 (Z.leb_le _ _)) by done. Qed.

(** C's [a % b] on [int]: division by zero is undefined. *)
Definition crem (a b : Z) : res Z := if b =? 0 then Undef else Ret (a %% b).

Lemma crem_ok a b : 0 ≤ a → 0 < b → crem a b = Ret (a mod b).
Proof.
  intros. unfold crem. rewrite (proj2 (Z.eqb_neq _ _)) by lia.
  by rewrite Z.rem_mod_nonneg by lia.
Qed.
