(* ===== verification/CMem.v ===== *)
(** * C arrays

    A C array is a list, a pointer into it an offset.  Every access is checked:
    outside the array it is [Undef].  [memcpy], [memcmp] and [memset] follow
    their C contracts ([memcpy] of overlapping regions is undefined). *)

From S2P Require Import Prelude.
Local Open Scope Z_scope.

(** The length of an array as a C integer. *)
Abbreviation zlength l := (Z.of_nat (length l)).

Section cmem.
Context {A : Type}.
Implicit Types m d : list A.

Definition in_bounds m (off n : Z) : bool :=
  (0 <=? off) && (0 <=? n) && (off + n <=? zlength m).

(** The [n] cells of [m] from [off] on. *)
Definition slice m (off n : Z) : list A :=
  take (Z.to_nat n) (drop (Z.to_nat off) m).

Definition mem_read m (off n : Z) : res (list A) :=
  if in_bounds m off n then Ret (slice m off n) else Undef.

(** [m\[off\]]. *)
Definition mem_get m (off : Z) : res A :=
  if 0 <=? off then
    match m !! Z.to_nat off with Some a => Ret a | None => Undef end
  else Undef.

(** [m] with [d] stored from [off] on. *)
Definition store m (off : Z) d : list A :=
  take (Z.to_nat off) m ++ d ++ drop (Z.to_nat off + length d) m.

Definition mem_write m (off : Z) d : res (list A) :=
  if in_bounds m off (zlength d) then Ret (store m off d) else Undef.

(** [memcpy(dst + doff, src + soff, n)] between two distinct arrays. *)
Definition memcpy (dst : list A) (doff : Z) (src : list A) (soff n : Z) : res (list A) :=
  d ← mem_read src soff n; mem_write dst doff d.

(** [memcpy(m + doff, m + soff, n)] inside one array. *)
Definition memcpy_self m (doff soff n : Z) : res (list A) :=
  if (doff + n <=? soff) || (soff + n <=? doff) then memcpy m doff m soff n else Undef.

Definition memset m (off : Z) (a : A) (n : Z) : res (list A) :=
  if 0 <=? n then mem_write m off (replicate (Z.to_nat n) a) else Undef.

(** *** Facts *)

Lemma in_bounds_true m off n :
  in_bounds m off n = true ↔ 0 ≤ off ∧ 0 ≤ n ∧ off + n ≤ zlength m.
Proof. unfold in_bounds. rewrite !andb_true_iff, !Z.leb_le. tauto. Qed.

Lemma slice_length m off n :
  0 ≤ off → 0 ≤ n → off + n ≤ zlength m → length (slice m off n) = Z.to_nat n.
Proof. intros. unfold slice. rewrite length_take, length_drop. lia. Qed.

Lemma slice_lookup m off n (i : nat) :
  0 ≤ off → Z.of_nat i < n → slice m off n !! i = m !! (Z.to_nat off + i)%nat.
Proof. intros. unfold slice. rewrite lookup_take_lt by lia. apply lookup_drop. Qed.

Lemma slice_all m n : n = zlength m → slice m 0 n = m.
Proof. intros ->. unfold slice. rewrite Nat2Z.id. simpl. by rewrite drop_0, firstn_all. Qed.

Lemma mem_read_ok m off n :
  0 ≤ off → 0 ≤ n → off + n ≤ zlength m → mem_read m off n = Ret (slice m off n).
Proof. intros. unfold mem_read. rewrite (proj2 (in_bounds_true m off n)); [done|lia]. Qed.

Lemma mem_get_lookup m off a :
  0 ≤ off → m !! Z.to_nat off = Some a → mem_get m off = Ret a.
Proof. intros ? E. unfold mem_get. rewrite (proj2 (Z.leb_le _ _)), E by lia. done. Qed.

Lemma mem_write_ok m off d :
  0 ≤ off → off + zlength d ≤ zlength m → mem_write m off d = Ret (store m off d).
Proof. intros. unfold mem_write. rewrite (proj2 (in_bounds_true _ _ _)); [done|lia]. Qed.

Lemma store_length m off d :
  0 ≤ off → off + zlength d ≤ zlength m → length (store m off d) = length m.
Proof. intros. unfold store. rewrite !length_app, length_take, length_drop. lia. Qed.

(** Lookup in an array after a store. *)
Lemma store_lookup m off d (i : nat) :
  0 ≤ off → off + zlength d ≤ zlength m →
  store m off d !! i =
    if decide (off ≤ Z.of_nat i < off + zlength d)
    then d !! (i - Z.to_nat off)%nat else m !! i.
Proof.
  intros. unfold store. case_decide.
  - rewrite lookup_app_r by (rewrite length_take; lia).
    rewrite length_take, lookup_app_l by lia. f_equal. lia.
  - destruct (decide (Z.of_nat i < off)).
    + rewrite lookup_app_l by (rewrite length_take; lia). by rewrite lookup_take_lt by lia.
    + rewrite lookup_app_r by (rewrite length_take; lia).
      rewrite length_take, lookup_app_r by lia. rewrite lookup_drop. f_equal. lia.
Qed.

Lemma memcpy_ok (dst src : list A) doff soff n :
  0 ≤ doff → 0 ≤ soff → 0 ≤ n → doff + n ≤ zlength dst → soff + n ≤ zlength src →
  memcpy dst doff src soff n = Ret (store dst doff (slice src soff n)).
Proof.
  intros. unfold memcpy. rewrite mem_read_ok by lia. rewrite res_bind_ret.
  apply mem_write_ok; [lia|]. rewrite slice_length; lia.
Qed.

Lemma memcpy_self_ok m doff soff n :
  0 ≤ doff → 0 ≤ soff → 0 ≤ n → doff + n ≤ zlength m → soff + n ≤ zlength m →
  doff + n ≤ soff ∨ soff + n ≤ doff →
  memcpy_self m doff soff n = Ret (store m doff (slice m soff n)).
Proof.
  intros. unfold memcpy_self.
  replace ((doff + n <=? soff) || (soff + n <=? doff)) with true
    by (symmetry; apply orb_true_iff; rewrite !Z.leb_le; lia).
  apply memcpy_ok; lia.
Qed.

Lemma memset_ok m off a n :
  0 ≤ off → 0 ≤ n → off + n ≤ zlength m →
  memset m off a n = Ret (store m off (replicate (Z.to_nat n) a)).
Proof.
  intros. unfold memset. rewrite (proj2 (Z.leb_le _ _)) by lia.
  apply mem_write_ok; rewrite ?length_replicate; lia.
Qed.

Lemma store_nil m off : store m off [] = m.
Proof. unfold store. simpl. rewrite Nat.add_0_r. apply take_drop. Qed.

(** Storing cell by cell. *)
Lemma store_cons m off x d :
  0 ≤ off → off + 1 + zlength d ≤ zlength m →
  store (store m off [x]) (off + 1) d = store m off (x :: d).
Proof.
  intros. apply list_eq. intros i.
  assert (length (store m off [x]) = length m) by (apply store_length; simpl; lia).
  rewrite !store_lookup by (simpl; lia). simpl.
  repeat case_decide; try lia; try done.
  - replace (i - Z.to_nat off)%nat with (S (i - Z.to_nat (off + 1))) by lia. done.
  - replace (i - Z.to_nat off)%nat with 0%nat by lia. done.
Qed.

Lemma mem_get_slice m off a :
  mem_get m off = Ret a ↔ 0 ≤ off ∧ m !! Z.to_nat off = Some a.
Proof.
  unfold mem_get. case_if; [|split; [done|lia]].
  destruct (m !! Z.to_nat off); naive_solver.
Qed.

Lemma slice_replicate (a : A) k off n :
  0 ≤ off → 0 ≤ n → off + n ≤ Z.of_nat k →
  slice (replicate k a) off n = replicate (Z.to_nat n) a.
Proof. intros. unfold slice. rewrite drop_replicate, take_replicate. f_equal. lia. Qed.

(** An array that starts with [t], and storing behind it. *)
Definition starts m (t : list A) : Prop := take (length t) m = t.

Lemma starts_store m t x : starts m t → (length t + length x ≤ length m)%nat → starts (store m (zlength t) x) (t ++ x).
Proof.
  unfold starts, store. intros Ht Hl. rewrite Nat2Z.id, Ht, app_assoc. apply take_app_length'. by rewrite length_app.
Qed.

Lemma starts_write m t x : starts m t → (length t + length x ≤ length m)%nat →
  ∃ m', mem_write m (zlength t) x = Ret m' ∧ starts m' (t ++ x) ∧ length m' = length m.
Proof.
  intros Ht Hl. exists (store m (zlength t) x). rewrite mem_write_ok by lia. split; [done|].
  split; [by apply starts_store|]. rewrite store_length; lia.
Qed.

Lemma starts_read m t : starts m t → (length t ≤ length m)%nat → mem_read m 0 (zlength t) = Ret t.
Proof.
  unfold starts. intros Ht Hl. rewrite mem_read_ok by lia. f_equal. unfold slice. rewrite Nat2Z.id. simpl. by rewrite drop_0.
Qed.

End cmem.

(** [memcmp(a + aoff, b + boff, n) != 0]. *)
Definition memcmp_ne `{EqDecision A} (a : list A) (aoff : Z) (b : list A) (boff n : Z) : res bool :=
  x ← mem_read a aoff n; y ← mem_read b boff n;
  Ret (negb (bool_decide (x = y))).

Lemma memcmp_ne_ok `{EqDecision A} (a b : list A) aoff boff n :
  0 ≤ aoff → 0 ≤ boff → 0 ≤ n → aoff + n ≤ zlength a → boff + n ≤ zlength b →
  memcmp_ne a aoff b boff n = Ret (negb (bool_decide (slice a aoff n = slice b boff n))).
Proof. intros. unfold memcmp_ne. by rewrite !mem_read_ok by lia. Qed.

Lemma slice_store_same {A} (m d : list A) off n : n = zlength d → 0 ≤ off → off + n ≤ zlength m → slice (store m off d) off n = d.
Proof.
  intros -> Ho Hl. unfold slice, store. rewrite drop_app_length' by (rewrite length_take; lia).
  rewrite take_app_length' by lia. done.
Qed.

Lemma slice_store_other {A} (m d : list A) off off' n : 0 ≤ off → 0 ≤ off' → 0 ≤ n → off + zlength d ≤ zlength m →
  off' + n ≤ off ∨ off + zlength d ≤ off' → slice (store m off d) off' n = slice m off' n.
Proof.
  intros Ho Ho' Hn Hl Hd. apply list_eq. intros i. unfold slice. rewrite !lookup_take, !lookup_drop.
  destruct (decide (i < Z.to_nat n)%nat); [|done]. rewrite store_lookup by lia.
  rewrite decide_False by lia. done.
Qed.

Lemma slice_take {A} (l : list A) m i n : 0 ≤ i → 0 ≤ n → i + n ≤ m → slice (take (Z.to_nat m) l) i n = slice l i n.
Proof. intros. unfold slice. rewrite skipn_firstn_comm, take_take. f_equal. lia. Qed.

Create HintDb cmem.
#[export] Hint Resolve mem_read_ok mem_write_ok memcpy_ok memcpy_self_ok memset_ok memcmp_ne_ok : cmem.
