(* ===== verification/CString.v ===== *)
(** * C strings

    A C string is the list of its characters without the terminating zero; a
    pointer into it is the suffix it points to.  The libc functions the code
    uses on strings are defined here: [strchr], [strtok], [strstr], [strtoul],
    [atoi], the [sscanf] conversions and the [snprintf] ones. *)

From S2P Require Import Prelude CInt CMem.
Local Open Scope Z_scope.

Abbreviation cstr := (list ascii).

(** A literal. *)
Definition str (s : string) : cstr := String.list_ascii_of_string s.

Definition NUL : ascii := Ascii.zero.
Definition code (c : ascii) : Z := Z.of_N (Ascii.N_of_ascii c).
Definition chr (z : Z) : ascii := Ascii.ascii_of_N (Z.to_N z).
Infix "=c" := Ascii.eqb (at level 70) : ltp_scope.

Lemma eqc_spec (a b : ascii) : reflect (a = b) (a =c b).
Proof. apply Ascii.eqb_spec. Qed.

Lemma eqc_refl (a : ascii) : (a =c a) = true.
Proof. apply Ascii.eqb_refl. Qed.

(** ** Character classes *)

Definition isspace (c : ascii) : bool :=
  (c =c " "%char) || ((9 <=? code c) && (code c <=? 13)).
Definition isdigit (c : ascii) : bool := (48 <=? code c) && (code c <=? 57).

(** The value of a digit in bases up to 36, 99 for other characters. *)
Definition digit (c : ascii) : Z :=
  let z := code c in
  if (48 <=? z) && (z <=? 57) then z - 48
  else if (97 <=? z) && (z <=? 122) then z - 87
  else if (65 <=? z) && (z <=? 90) then z - 55
  else 99.
Definition is_base (base : Z) (c : ascii) : bool := digit c <? base.

(** The digit character of [0 <= d < 16], as [printf] writes it. *)
Definition digit_char (d : Z) : ascii := chr (if d <? 10 then 48 + d else 87 + d).

(** ** Splitting *)

(** The longest prefix on which [p] holds, and what follows it. *)
Fixpoint span {A} (p : A → bool) (l : list A) : list A * list A :=
  match l with
  | [] => ([], [])
  | x :: l' => if p x then let '(a, b) := span p l' in (x :: a, b) else ([], l)
  end.

(** The string a buffer holds, up to its first zero. *)
Definition as_string (buf : cstr) : cstr := (span (λ c, negb (c =c NUL)) buf).1.

(** [strchr(s, c)] for [c <> 0]: the suffix that starts at the first [c]. *)
Fixpoint strchr (s : cstr) (c : ascii) : option cstr :=
  match s with
  | [] => None
  | x :: s' => if x =c c then Some s else strchr s' c
  end.

Definition mem (c : ascii) (l : cstr) : bool := existsb (Ascii.eqb c) l.

Fixpoint is_prefix (p s : cstr) : bool :=
  match p, s with
  | [], _ => true
  | x :: p', y :: s' => (x =c y) && is_prefix p' s'
  | _, _ => false
  end.

(** [strstr(s, p) != NULL]. *)
Fixpoint strstr (s p : cstr) : bool :=
  is_prefix p s || match s with [] => false | _ :: s' => strstr s' p end.

(** [strtok] called until it returns NULL: the maximal runs of characters not in
    [sep]. *)
Fixpoint strtok_go (sep : cstr) (cur : cstr) (s : cstr) : list cstr :=
  match s with
  | [] => match cur with [] => [] | _ => [reverse cur] end
  | c :: s' =>
      if mem c sep then
        match cur with [] => strtok_go sep [] s' | _ => reverse cur :: strtok_go sep [] s' end
      else strtok_go sep (c :: cur) s'
  end.
Definition strtok_all (s sep : cstr) : list cstr := strtok_go sep [] s.

(** ** Numbers *)

(** The value of a string of digits. *)
Definition dval (base : Z) (ds : cstr) : Z := fold_left (λ a c, a * base + digit c) ds 0.

Definition skip_space (s : cstr) : cstr := (span isspace s).2.

Definition scan_sign (s : cstr) : bool * cstr :=
  match s with
  | c :: s' => if c =c "-"%char then (true, s') else if c =c "+"%char then (false, s') else (false, s)
  | [] => (false, [])
  end.

(** The optional [0x] of base 16. *)
Definition skip_0x (base : Z) (s : cstr) : cstr :=
  match s with
  | c :: x :: h :: _ =>
      if (base =? 16) && (c =c "0"%char) && ((x =c "x"%char) || (x =c "X"%char)) && is_base 16 h
      then drop 2 s else s
  | _ => s
  end.

(** White space, sign and digits: the sign, the digits and the rest. *)
Definition scan_number (base : Z) (s : cstr) : bool * cstr * cstr :=
  let '(neg, s2) := scan_sign (skip_space s) in
  let '(ds, rest) := span (is_base base) (skip_0x base s2) in
  (neg, ds, rest).

(** [strtoul(s, &end, base)]: the value and [end]. *)
Definition strtoul (base : Z) (s : cstr) : Z * cstr :=
  let '(neg, ds, rest) := scan_number base s in
  match ds with
  | [] => (0, s)
  | _ =>
      let v := dval base ds in
      (if ULONG_MAX <? v then ULONG_MAX else if neg then u64 (- v) else v, rest)
  end.

Definition LONG_MAX : Z := 9223372036854775807.
Definition LONG_MIN : Z := -9223372036854775808.

(** The value [strtol(s, NULL, 10)]. *)
Definition strtol (s : cstr) : Z :=
  let '(neg, ds, _) := scan_number 10 s in
  let v := if neg then - dval 10 ds else dval 10 ds in
  Z.max LONG_MIN (Z.min LONG_MAX v).

Definition atoi (s : cstr) : Z := s32 (strtol s).

(** The result of [sscanf(s, "%u%c", &a, &c)]: [-1] (input ended before a
    number), [0] (no number), or one or two assignments. *)
Inductive scan_uc : Type :=
| ScanEOF
| ScanFail
| Scan1 (a : Z)
| Scan2 (a : Z) (c : ascii).

Definition sscanf_uc (s : cstr) : scan_uc :=
  match skip_space s with
  | [] => ScanEOF
  | _ =>
      let '(neg, ds, rest) := scan_number 10 s in
      match ds with
      | [] => ScanFail
      | _ =>
          let v := dval 10 ds in
          let a := u32 (if ULONG_MAX <? v then ULONG_MAX else if neg then - v else v) in
          match rest with [] => Scan1 a | c :: _ => Scan2 a c end
      end
  end.

(** Digits of [n >= 0], most significant first. *)
Fixpoint digits_go (fuel : nat) (base n : Z) (acc : cstr) : cstr :=
  match fuel with
  | O => acc
  | S fuel =>
      if n <? base then digit_char n :: acc
      else digits_go fuel base (n / base) (digit_char (n mod base) :: acc)
  end.
Definition digits (base n : Z) : cstr := digits_go (S (Z.to_nat (Z.log2 n))) base n [].

(** [%d]. *)
Definition fmt_d (n : Z) : cstr :=
  if n <? 0 then "-"%char :: digits 10 (- n) else digits 10 n.

(** [%0wx]: at least [w] hexadecimal digits. *)
Definition fmt_0x (w : nat) (n : Z) : cstr :=
  let ds := digits 16 n in replicate (w - length ds) "0"%char ++ ds.

(** [%-w.ps] on a string: at most [p] characters, padded on the right to [w]. *)
Definition fmt_ljust (w p : nat) (s : cstr) : cstr :=
  let t := take p s in t ++ replicate (w - length t) " "%char.

(** [snprintf(buf, size, ...)] of the text [t]: what it leaves in a buffer (the
    text cut to [size - 1] characters). *)
Definition snprintf_cut (size : Z) (t : cstr) : cstr := take (Z.to_nat (size - 1)) t.

(** ** Facts *)

Lemma span_app {A} (p : A → bool) l rest :
  Forall (λ x, p x = true) l → match rest with [] => True | x :: _ => p x = false end →
  span p (l ++ rest) = (l, rest).
Proof.
  intros Hl Hr. induction Hl as [|x l Hx Hl IH]; simpl.
  - destruct rest as [|y rest]; simpl; [done|]. by rewrite Hr.
  - by rewrite Hx, IH.
Qed.

Lemma span_eq {A} (p : A → bool) l : (span p l).1 ++ (span p l).2 = l.
Proof. induction l as [|x l IH]; simpl; [done|]. destruct (p x); [|done]. destruct (span p l). simpl in *. by f_equal. Qed.

Lemma span_all {A} (p : A → bool) l : Forall (λ x, p x = true) (span p l).1.
Proof.
  induction l as [|x l IH]; simpl; [constructor|]. destruct (p x) eqn:E; [|constructor].
  destruct (span p l). simpl in *. by constructor.
Qed.

Lemma span_stop {A} (p : A → bool) l :
  match (span p l).2 with [] => True | x :: _ => p x = false end.
Proof.
  induction l as [|x l IH]; simpl; [done|]. destruct (p x) eqn:E; [|done].
  destruct (span p l). done.
Qed.

Lemma digit_char_digit d : 0 ≤ d < 16 → digit (digit_char d) = d.
Proof.
  intros H. assert (Hall : forallb (λ n, digit (digit_char (Z.of_nat n)) =? Z.of_nat n) (seq 0 16) = true)
    by (vm_compute; reflexivity).
  rewrite forallb_forall in Hall. specialize (Hall (Z.to_nat d)).
  rewrite Z2Nat.id in Hall by lia. apply Z.eqb_eq, Hall, in_seq. lia.
Qed.

Lemma digit_char_base base d : base ≤ 16 → 0 ≤ d < base → is_base base (digit_char d) = true.
Proof. intros. unfold is_base. rewrite digit_char_digit by lia. apply Z.ltb_lt. lia. Qed.

Lemma dval_app base a b :
  dval base (a ++ b) = dval base a * base ^ (zlength b) + dval base b.
Proof.
  unfold dval. rewrite fold_left_app. generalize (fold_left (λ a c, a * base + digit c) a 0).
  assert (Hg : ∀ x y, fold_left (λ a c, a * base + digit c) b (x + y) =
                      x * base ^ zlength b + fold_left (λ a c, a * base + digit c) b y).
  { induction b as [|c b IH]; intros x y; simpl; [lia|].
    replace ((x + y) * base + digit c) with (x * base + (y * base + digit c)) by lia.
    rewrite IH. rewrite Nat2Z.inj_succ, Z.pow_succ_r by lia. lia. }
  intros z. rewrite <- (Z.add_0_r z) at 1. apply Hg.
Qed.

Lemma dval_snoc base a c : dval base (a ++ [c]) = dval base a * base + digit c.
Proof. unfold dval. by rewrite fold_left_app. Qed.

Lemma dval_zeros base k ds : dval base (replicate k "0"%char ++ ds) = dval base ds.
Proof. induction k as [|k IH]; simpl; [done|]. exact IH. Qed.

(** The digits printed for [n] are digits of the base and have value [n]. *)
Lemma digits_go_spec fuel base n acc :
  2 ≤ base ≤ 16 → 0 ≤ n < base ^ Z.of_nat fuel → (0 < fuel)%nat →
  ∃ ds, digits_go fuel base n acc = ds ++ acc ∧ ds ≠ [] ∧
    Forall (λ c, is_base base c = true) ds ∧ dval base ds = n ∧ (length ds ≤ fuel)%nat.
Proof.
  intros Hb. revert n acc. induction fuel as [|fuel IH]; intros n acc Hn Hf; [lia|].
  cbn [digits_go]. case_if.
  - exists [digit_char n]. split_and!; [done|done| |simpl; unfold dval; simpl|simpl; lia].
    + constructor; [|constructor]. apply digit_char_base; lia.
    + rewrite digit_char_digit; lia.
  - rewrite Nat2Z.inj_succ, Z.pow_succ_r in Hn by lia.
    assert (Hf0 : (0 < fuel)%nat). { destruct fuel; [|lia]. simpl in Hn. lia. }
    destruct (IH (n / base) (digit_char (n mod base) :: acc)) as (ds & -> & Hne & Hall & Hv & Hl); [|done|].
    { split; [apply Z.div_pos; lia|]. apply Z.div_lt_upper_bound; lia. }
    pose proof (Z.mod_pos_bound n base ltac:(lia)).
    exists (ds ++ [digit_char (n mod base)]). split_and!.
    + by rewrite <- app_assoc.
    + by destruct ds.
    + apply Forall_app. split; [done|]. constructor; [|constructor]. apply digit_char_base; lia.
    + rewrite dval_snoc, Hv, digit_char_digit by lia. rewrite (Z.div_mod n base) at 3 by lia. lia.
    + rewrite length_app. simpl. lia.
Qed.

Lemma digits_fuel base n :
  2 ≤ base → 0 ≤ n → n < base ^ Z.of_nat (S (Z.to_nat (Z.log2 n))).
Proof.
  intros. pose proof (Z.log2_nonneg n). rewrite Nat2Z.inj_succ, Z2Nat.id by lia.
  apply Z.lt_le_trans with (2 ^ Z.succ (Z.log2 n)); [|apply Z.pow_le_mono_l; lia].
  destruct (decide (n = 0)) as [->|]; [done|]. apply Z.log2_spec. lia.
Qed.

Lemma digits_spec base n :
  2 ≤ base ≤ 16 → 0 ≤ n →
  digits base n ≠ [] ∧ Forall (λ c, is_base base c = true) (digits base n) ∧
  dval base (digits base n) = n.
Proof.
  intros. unfold digits. pose proof (digits_fuel base n).
  destruct (digits_go_spec (S (Z.to_nat (Z.log2 n))) base n []) as (ds & -> & ? & ? & ? & _); [done|lia|lia|].
  by rewrite app_nil_r.
Qed.

(** Extra fuel changes nothing. *)
Lemma digits_go_more f1 f2 base n acc :
  2 ≤ base → 0 ≤ n < base ^ Z.of_nat f1 → (0 < f1 ≤ f2)%nat →
  digits_go f2 base n acc = digits_go f1 base n acc.
Proof.
  intros Hb. revert f2 n acc. induction f1 as [|f1 IH]; intros f2 n acc Hn Hf; [lia|].
  destruct f2 as [|f2]; [lia|]. cbn [digits_go]. case_if; [done|].
  rewrite Nat2Z.inj_succ, Z.pow_succ_r in Hn by lia.
  apply IH; [split; [apply Z.div_pos; lia|apply Z.div_lt_upper_bound; lia]|].
  split; [|lia]. destruct f1; [|lia]. simpl in Hn. lia.
Qed.

Lemma digits_length base n k :
  2 ≤ base ≤ 16 → 0 ≤ n < base ^ Z.of_nat k → (0 < k)%nat → (length (digits base n) ≤ k)%nat.
Proof.
  intros Hb Hn Hk. unfold digits. pose proof (digits_fuel base n ltac:(lia) ltac:(lia)).
  set (f := S (Z.to_nat (Z.log2 n))) in *.
  destruct (decide (f ≤ k)%nat).
  - destruct (digits_go_spec f base n []) as (ds & -> & _ & _ & _ & ?); [lia|lia|lia|].
    rewrite app_nil_r. lia.
  - rewrite (digits_go_more k f) by lia.
    destruct (digits_go_spec k base n []) as (ds & -> & _ & _ & _ & ?); [lia|lia|lia|].
    rewrite app_nil_r. lia.
Qed.

(** A text without a zero is its own string. *)
Lemma as_string_id t : Forall (λ x, (x =c NUL) = false) t → as_string t = t.
Proof.
  intros Ht. unfold as_string. rewrite <- (app_nil_r t) at 1. rewrite span_app; [done| |done].
  eapply Forall_impl; [exact Ht|]. simpl. by intros x ->.
Qed.

Lemma strchr_skip (a b : cstr) c :
  Forall (λ x, (x =c c) = false) a → strchr (a ++ b) c = strchr b c.
Proof. induction 1 as [|x a Hx Ha IH]; simpl; [done|]. by rewrite Hx. Qed.

(** No character that is not a digit of the base occurs in a string of digits. *)
Lemma digits_no base (c : ascii) (l : cstr) :
  is_base base c = false → Forall (λ x, is_base base x = true) l → Forall (λ x, (x =c c) = false) l.
Proof.
  intros Hc Hl. eapply Forall_impl; [exact Hl|]. simpl. intros x Hx.
  destruct (eqc_spec x c) as [->|]; congruence.
Qed.

(** ** Scanning digits *)

Lemma is_base_digit base c : base ≤ 16 → is_base base c = true →
  isspace c = false ∧ (c =c "-"%char) = false ∧ (c =c "+"%char) = false ∧
  (c =c "x"%char) = false ∧ (c =c "X"%char) = false.
Proof.
  intros Hb Hc. assert (H16 : is_base 16 c = true) by (unfold is_base in *; bool_hyps; apply Z.ltb_lt; lia).
  clear Hc Hb base. by destruct c as [[] [] [] [] [] [] [] []].
Qed.

(** Scanning digits that something other than a digit follows. *)
Lemma scan_number_digits base ds rest :
  base ≤ 16 → ds ≠ [] → Forall (λ x, is_base base x = true) ds →
  match rest with [] => True | x :: _ => is_base base x = false ∧ (x =c "x"%char) = false ∧ (x =c "X"%char) = false end →
  scan_number base (ds ++ rest) = (false, ds, rest).
Proof.
  intros Hb Hne Hds Hrest. destruct ds as [|d ds]; [done|].
  apply Forall_cons in Hds as [Hd Hds].
  destruct (is_base_digit base d Hb Hd) as (Hsp & Hm & Hp & _).
  unfold scan_number, skip_space. cbn [span app]. rewrite Hsp. cbn [snd scan_sign]. rewrite Hm, Hp.
  replace (skip_0x base (d :: ds ++ rest)) with (d :: ds ++ rest).
  - change (d :: ds ++ rest) with ((d :: ds) ++ rest). rewrite span_app; [done|by constructor|].
    destruct rest; [done|]. apply Hrest.
  - unfold skip_0x. assert (Hx : ∀ x y, ds ++ rest = x :: y → (x =c "x"%char) = false ∧ (x =c "X"%char) = false).
    { intros x y Hxy. destruct ds as [|d' ds]; simpl in Hxy.
      - subst. apply Hrest.
      - simplify_eq. apply Forall_cons in Hds as [Hd' _].
        by destruct (is_base_digit base x Hb Hd') as (_ & _ & _ & ? & ?). }
    destruct (ds ++ rest) as [|x [|y z]]; [done|done|].
    destruct (Hx x (y :: z) eq_refl) as [-> ->]. by rewrite andb_false_r.
Qed.

Lemma skip_0x_10 s : skip_0x 10 s = s.
Proof. by destruct s as [|a [|b [|c s]]]. Qed.

Lemma scan_number_10 s :
  (scan_number 10 s).1 =
  ((scan_sign (skip_space s)).1, (span (is_base 10) (scan_sign (skip_space s)).2).1).
Proof.
  unfold scan_number. destruct (scan_sign _) as [neg t]. rewrite skip_0x_10. simpl.
  by destruct (span _ t).
Qed.

Lemma atoi_digits p rest :
  0 ≤ p ≤ INT_MAX → match rest with [] => True | x :: _ => is_base 10 x = false end →
  atoi (digits 10 p ++ rest) = p.
Proof.
  intros Hp Hr. destruct (digits_spec 10 p ltac:(lia) ltac:(lia)) as (Hne & Hd & Hv).
  unfold atoi, strtol. destruct (scan_number 10 (digits 10 p ++ rest)) as [[neg ds] r] eqn:Hs.
  assert (Hn : (neg, ds) = (false, digits 10 p)).
  { replace (neg, ds) with (scan_number 10 (digits 10 p ++ rest)).1 by (by rewrite Hs).
    rewrite scan_number_10. destruct (digits 10 p) as [|d l] eqn:E; [done|].
    pose proof Hd as [Hd1 _]%Forall_cons.
    assert (Hc : isspace d = false ∧ (d =c "-"%char) = false ∧ (d =c "+"%char) = false)
      by (clear -Hd1; by destruct d as [[] [] [] [] [] [] [] []]).
    destruct Hc as (H1 & H2 & H3). unfold skip_space. cbn [app span]. rewrite H1. cbn [snd scan_sign].
    rewrite H2, H3. cbn [fst snd]. change (d :: l ++ rest) with ((d :: l) ++ rest).
    rewrite span_app; done. }
  simplify_eq. rewrite Hv. unfold LONG_MIN, LONG_MAX, INT_MAX in *. rewrite s32_id; lia.
Qed.

(** ** Texts without a zero *)

Definition nonul (t : cstr) : Prop := Forall (λ c, (c =c NUL) = false) t.

Lemma nonul_app a b : nonul a → nonul b → nonul (a ++ b).
Proof. intros. by apply Forall_app. Qed.

Lemma nonul_str s : forallb (λ c, negb (c =c NUL)) (str s) = true → nonul (str s).
Proof.
  intros H. apply Forall_forall. intros c Hc.
  apply forallb_forall with (x := c) in H; [by apply negb_true_iff|by apply list_elem_of_In].
Qed.

Lemma nonul_replicate n c : (c =c NUL) = false → nonul (replicate n c).
Proof. intros. by apply Forall_replicate. Qed.

Lemma nonul_take n t : nonul t → nonul (take n t).
Proof. apply Forall_take. Qed.

Lemma nonul_digits base n : 2 ≤ base ≤ 16 → 0 ≤ n → nonul (digits base n).
Proof.
  intros. eapply digits_no; [|apply digits_spec; lia]. unfold is_base. apply Z.ltb_ge.
  change (digit NUL) with 99. lia.
Qed.

Lemma nonul_fmt_d n : nonul (fmt_d n).
Proof. unfold fmt_d. case_if; [constructor; [done|]|]; apply nonul_digits; lia. Qed.

Lemma fmt_d_length n : INT_MIN ≤ n ≤ INT_MAX → (1 ≤ length (fmt_d n) ≤ 11)%nat.
Proof.
  intros Hn. unfold fmt_d, INT_MIN, INT_MAX in *. destruct (Z.ltb_spec n 0).
  - cbn [length]. pose proof (digits_length 10 (- n) 10 ltac:(lia) ltac:(lia) ltac:(lia)). lia.
  - pose proof (digits_length 10 n 10 ltac:(lia) ltac:(lia) ltac:(lia)).
    destruct (digits_spec 10 n ltac:(lia) ltac:(lia)) as [Hne _]. destruct (digits 10 n); simpl in *; [done|lia].
Qed.

Create HintDb nonul.
#[export] Hint Resolve nonul_app nonul_fmt_d nonul_take : nonul.
#[export] Hint Extern 1 (nonul (str _)) => apply nonul_str; reflexivity : nonul.
#[export] Hint Extern 1 (nonul (replicate _ _)) => apply nonul_replicate; reflexivity : nonul.
