(* ===== verification/Pattern.v ===== *)
(** * Data patterns: lib/pattern.c

    [pattern_fill] fills a buffer with repeated copies of a rotated pattern and
    [pattern_check] validates one, both by doubling: the part already done is
    copied to (compared with) the part that follows it.  The reference is the
    byte-by-byte definition [pattern_at]. *)

From S2P Require Import Prelude CInt CMem.
Local Open Scope Z_scope.

Section pattern.
Context `{EqDecision A}.
Implicit Types buf pat : list A.

(** The [while (ncmp < buflen)] loop of [pattern_check]. *)
Fixpoint pattern_check_loop (fuel : nat) buf (buflen cp ncmp nleft : Z) : res Z :=
  match fuel with
  | O => NoFuel
  | S fuel =>
      if ncmp <? buflen then
        let nb := if ncmp <? nleft then ncmp else nleft in
        ne ← memcmp_ne buf 0 buf cp nb;
        if ne : bool then Ret (-1)
        else pattern_check_loop fuel buf buflen (cp + nb) (ncmp + nb) (nleft - nb)
      else Ret 0
  end.

Definition pattern_check (fuel : nat) buf (buflen : Z) pat (patlen patshift : Z) : res Z :=
  let patshift := if patlen =? 0 then patshift else patshift %% patlen in
  let cp := 0 in
  let nleft := buflen in
  let nb := patlen - patshift in
  if nleft <? nb then
    ne ← memcmp_ne buf cp pat patshift nleft; Ret (if ne : bool then -1 else 0)
  else
    ne ← memcmp_ne buf cp pat patshift nb;
    if ne : bool then Ret (-1) else
    let nleft := nleft - nb in
    let cp := cp + nb in
    if 0 <? patshift then
      let nb := patshift in
      if nleft <? nb then
        ne ← memcmp_ne buf cp pat 0 nleft; Ret (if ne : bool then -1 else 0)
      else
        ne ← memcmp_ne buf cp pat 0 nb;
        if ne : bool then Ret (-1) else
        let nleft := nleft - nb in
        let cp := cp + nb in
        pattern_check_loop fuel buf buflen cp cp nleft
    else pattern_check_loop fuel buf buflen cp cp nleft.

(** The [while (ncopied < buflen)] loop of [pattern_fill]. *)
Fixpoint pattern_fill_loop (fuel : nat) buf (buflen cp ncopied nleft : Z) : res (Z * list A) :=
  match fuel with
  | O => NoFuel
  | S fuel =>
      if ncopied <? buflen then
        let trans := if ncopied <? nleft then ncopied else nleft in
        buf ← memcpy_self buf cp 0 trans;
        pattern_fill_loop fuel buf buflen (cp + trans) (ncopied + trans) (nleft - trans)
      else Ret (0, buf)
  end.

Definition pattern_fill (fuel : nat) buf (buflen : Z) pat (patlen patshift : Z)
    : res (Z * list A) :=
  let patshift := if patlen =? 0 then patshift else patshift %% patlen in
  let cp := 0 in
  let nleft := buflen in
  let trans := patlen - patshift in
  if nleft <? trans then
    buf ← memcpy buf cp pat patshift nleft; Ret (0, buf)
  else
    buf ← memcpy buf cp pat patshift trans;
    let nleft := nleft - trans in
    let cp := cp + trans in
    if 0 <? patshift then
      let trans := patshift in
      if nleft <? trans then
        buf ← memcpy buf cp pat 0 nleft; Ret (0, buf)
      else
        buf ← memcpy buf cp pat 0 trans;
        let nleft := nleft - trans in
        let cp := cp + trans in
        pattern_fill_loop fuel buf buflen cp cp nleft
    else pattern_fill_loop fuel buf buflen cp cp nleft.

(** ** Reference definition *)

(** The byte at offset [i] of the infinite repetition of [pat] rotated left by
    [shift]. *)
Definition pattern_at pat (shift i : Z) : option A :=
  pat !! Z.to_nat ((shift + i) mod zlength pat).

(** The first [n] bytes of [buf] are those of the repeated pattern. *)
Definition matches buf pat (shift n : Z) : Prop :=
  ∀ i, 0 ≤ i < n → buf !! Z.to_nat i = pattern_at pat shift i.

(** ** Lemmas *)

Lemma slice_eq_iff (a b : list A) ao bo n :
  0 ≤ ao → 0 ≤ bo → 0 ≤ n → ao + n ≤ zlength a → bo + n ≤ zlength b →
  slice a ao n = slice b bo n ↔
  ∀ i, 0 ≤ i < n → a !! Z.to_nat (ao + i) = b !! Z.to_nat (bo + i).
Proof.
  intros. split.
  - intros Heq i Hi. apply (f_equal (.!! Z.to_nat i)) in Heq.
    rewrite !slice_lookup in Heq by lia. rewrite !Z2Nat.inj_add by lia. done.
  - intros Heq. apply list_eq. intros i.
    destruct (decide (Z.of_nat i < n)) as [Hi|Hi].
    + rewrite !slice_lookup by lia.
      specialize (Heq (Z.of_nat i)). rewrite !Z2Nat.inj_add, Nat2Z.id in Heq by lia.
      apply Heq. lia.
    + rewrite !lookup_ge_None_2 by (rewrite slice_length; lia). done.
Qed.

Lemma matches_le buf pat shift n m :
  matches buf pat shift m → n ≤ m → matches buf pat shift n.
Proof. intros H ? i ?. apply H. lia. Qed.

Lemma matches_app buf pat shift n m :
  0 ≤ n → matches buf pat shift n →
  (∀ i, 0 ≤ i < m → buf !! Z.to_nat (n + i) = pattern_at pat shift (n + i)) →
  matches buf pat shift (n + m).
Proof.
  intros ? H1 H2 i Hi. destruct (decide (i < n)); [apply H1; lia|].
  replace i with (n + (i - n)) by lia. apply H2. lia.
Qed.

Lemma pattern_at_period pat shift n i :
  (zlength pat | n) → pattern_at pat shift (n + i) = pattern_at pat shift i.
Proof.
  intros [k ->]. unfold pattern_at.
  replace (shift + (k * zlength pat + i)) with (shift + i + k * zlength pat) by lia.
  by rewrite Z_mod_plus_full.
Qed.

(** The rotated pattern starts with the tail of [pat] ... *)
Lemma pattern_at_tail pat shift i :
  0 < zlength pat → 0 ≤ i < zlength pat - shift mod zlength pat →
  pattern_at pat shift i = pat !! Z.to_nat (shift mod zlength pat + i).
Proof.
  intros ? Hi. unfold pattern_at. f_equal. f_equal.
  pose proof (Z.mod_pos_bound shift (zlength pat) ltac:(lia)).
  rewrite <- Zplus_mod_idemp_l. apply Z.mod_small. lia.
Qed.

(** ... and goes on with its head. *)
Lemma pattern_at_head pat shift i :
  0 < zlength pat → 0 ≤ i < shift mod zlength pat →
  pattern_at pat shift (zlength pat - shift mod zlength pat + i) = pat !! Z.to_nat i.
Proof.
  intros ? Hi. unfold pattern_at. f_equal. f_equal.
  pose proof (Z.mod_pos_bound shift (zlength pat) ltac:(lia)).
  rewrite <- Zplus_mod_idemp_l.
  replace (shift mod zlength pat + (zlength pat - shift mod zlength pat + i))
    with (i + 1 * zlength pat) by lia.
  rewrite Z_mod_plus_full. apply Z.mod_small. lia.
Qed.

(** A block copied from (or equal to) the start of a matching prefix extends it. *)
Lemma matches_double buf pat shift n nb :
  0 ≤ nb ≤ n → n + nb ≤ zlength buf → (zlength pat | n) → matches buf pat shift n →
  slice buf 0 nb = slice buf n nb ↔ matches buf pat shift (n + nb).
Proof.
  intros ?? Hdiv Hm. rewrite slice_eq_iff by lia. split.
  - intros Heq. apply matches_app; [lia|done|]. intros i Hi.
    rewrite pattern_at_period, <- (Heq i) by (done || lia). apply (Hm i). lia.
  - intros Hall i Hi. rewrite (Hall (n + i)), (Hall (0 + i)) by lia.
    rewrite (pattern_at_period _ _ n) by done. done.
Qed.

(** [m] returns [0] when [P] holds and [-1] when it does not. *)
Definition verdict (P : Prop) (m : res Z) : Prop :=
  ∃ r, m = Ret r ∧ (r = 0 ∧ P ∨ r = -1 ∧ ¬ P).

(** A last comparison decides [P]. *)
Lemma verdict_last (a b : list A) ao bo n (P : Prop) :
  0 ≤ ao → 0 ≤ bo → 0 ≤ n → ao + n ≤ zlength a → bo + n ≤ zlength b →
  (slice a ao n = slice b bo n ↔ P) →
  verdict P (ne ← memcmp_ne a ao b bo n; Ret (if ne : bool then -1 else 0)).
Proof.
  intros ????? HP. rewrite memcmp_ne_ok, res_bind_ret by lia.
  destruct (bool_decide _) eqn:E; bool_hyps; eexists; split; try done; tauto.
Qed.

(** A comparison of a part decides [P] when it fails and goes on when it holds. *)
Lemma verdict_part (a b : list A) ao bo n (P Q : Prop) k :
  0 ≤ ao → 0 ≤ bo → 0 ≤ n → ao + n ≤ zlength a → bo + n ≤ zlength b →
  (slice a ao n = slice b bo n ↔ Q) → (P → Q) → (Q → verdict P k) →
  verdict P (ne ← memcmp_ne a ao b bo n; if ne : bool then Ret (-1) else k).
Proof.
  intros ????? HQ HPQ Hk. rewrite memcmp_ne_ok, res_bind_ret by lia.
  destruct (bool_decide _) eqn:E; bool_hyps; simpl; [tauto|].
  eexists; split; [done|]. tauto.
Qed.

Lemma pattern_check_loop_spec fuel buf pat shift buflen ncmp :
  0 < zlength pat → (zlength pat | ncmp) → 0 < ncmp ≤ buflen → buflen ≤ zlength buf →
  buflen - ncmp < Z.of_nat fuel → matches buf pat shift ncmp →
  verdict (matches buf pat shift buflen)
    (pattern_check_loop fuel buf buflen ncmp ncmp (buflen - ncmp)).
Proof.
  intros Hp. revert ncmp. induction fuel as [|fuel IH]; intros ncmp Hdiv Hn Hb Hf Hm; [lia|].
  simpl. case_if; [|exists 0; split; [done|]; left; split; [done|]; eapply matches_le; [done|lia]].
  assert (Hnb : (if ncmp <? buflen - ncmp then ncmp else buflen - ncmp)
                = Z.min ncmp (buflen - ncmp)) by (case_if; lia).
  rewrite Hnb. set (nb := Z.min ncmp (buflen - ncmp)).
  apply (verdict_part _ _ _ _ _ _ (matches buf pat shift (ncmp + nb))); try lia.
  - apply matches_double; (done || lia).
  - intros Hall. eapply matches_le; [done|lia].
  - intros Hm'. replace (buflen - ncmp - nb) with (buflen - (ncmp + nb)) by lia.
    destruct (decide (ncmp + nb = buflen)) as [He|He].
    + rewrite He in *. exists 0. split; [|by left].
      destruct fuel; [lia|]. simpl. rewrite (proj2 (Z.ltb_ge _ _)) by lia. done.
    + apply IH; try lia; [|done]. apply Z.divide_add_r; [done|].
      replace nb with ncmp by lia. done.
Qed.

(** [buf'] is [buf] with its first [n] bytes filled with the pattern, and
    nothing changed from [lim] on. *)
Definition filled buf buf' pat (shift n lim : Z) : Prop :=
  length buf' = length buf ∧ matches buf' pat shift n ∧
  ∀ i, lim ≤ Z.of_nat i → buf' !! i = buf !! i.

(** Storing the next bytes of the pattern extends the filled part. *)
Lemma filled_store buf buf1 pat shift n k lim (d : list A) :
  zlength d = k → filled buf buf1 pat shift n lim → 0 ≤ n → n + k ≤ lim ≤ zlength buf →
  (∀ i, 0 ≤ i < k → d !! Z.to_nat i = pattern_at pat shift (n + i)) →
  filled buf (store buf1 n d) pat shift (n + k) lim.
Proof.
  intros <- (Hl & Hm & Ho) ?? Hd. split_and!.
  - rewrite store_length; lia.
  - apply matches_app; [done| |].
    + intros i Hi. rewrite store_lookup, decide_False by lia. apply Hm. done.
    + intros i Hi. rewrite store_lookup, decide_True by lia.
      rewrite <- (Hd i Hi). f_equal. lia.
  - intros i Hi. rewrite store_lookup, decide_False by lia. apply Ho. done.
Qed.

Lemma filled_refl buf pat shift lim : filled buf buf pat shift 0 lim.
Proof. split_and!; [done| |done]. intros i Hi. lia. Qed.

Lemma filled_tail buf pat shift n lim :
  0 < zlength pat → 0 ≤ n ≤ zlength pat - shift mod zlength pat → n ≤ lim ≤ zlength buf →
  filled buf (store buf 0 (slice pat (shift mod zlength pat) n)) pat shift n lim.
Proof.
  intros ???. pose proof (Z.mod_pos_bound shift (zlength pat) ltac:(lia)).
  assert (Hl : zlength (slice pat (shift mod zlength pat) n) = n) by (rewrite slice_length; lia).
  apply (filled_store _ _ _ _ 0 n); [done|apply filled_refl|lia..|].
  intros i Hi. rewrite slice_lookup, pattern_at_tail by lia. f_equal. lia.
Qed.

Lemma filled_head buf buf1 pat shift n lim :
  let nb := zlength pat - shift mod zlength pat in
  0 < zlength pat → 0 ≤ n ≤ shift mod zlength pat → nb + n ≤ lim ≤ zlength buf →
  filled buf buf1 pat shift nb lim →
  filled buf (store buf1 nb (slice pat 0 n)) pat shift (nb + n) lim.
Proof.
  intros nb ??? Hf. pose proof (Z.mod_pos_bound shift (zlength pat) ltac:(lia)).
  assert (Hl : zlength (slice pat 0 n) = n) by (rewrite slice_length; lia).
  apply filled_store; [done|done|lia..|].
  intros i Hi. unfold nb. rewrite slice_lookup, pattern_at_head by lia. done.
Qed.

Lemma pattern_fill_loop_spec fuel buf buf1 pat shift buflen n :
  0 < zlength pat → (zlength pat | n) → 0 < n ≤ buflen → buflen ≤ zlength buf →
  buflen - n < Z.of_nat fuel → filled buf buf1 pat shift n buflen →
  ∃ buf', pattern_fill_loop fuel buf1 buflen n n (buflen - n) = Ret (0, buf') ∧
    filled buf buf' pat shift buflen buflen.
Proof.
  intros Hp. revert buf1 n. induction fuel as [|fuel IH]; intros buf1 n Hdiv Hn Hb Hf Hfl; [lia|].
  pose proof Hfl as (Hl & Hm & Ho).
  simpl. case_if; [|exists buf1; split; [done|]; by replace buflen with n at 1 by lia].
  assert (Hnb : (if n <? buflen - n then n else buflen - n) = Z.min n (buflen - n))
    by (case_if; lia).
  rewrite Hnb. set (nb := Z.min n (buflen - n)).
  rewrite memcpy_self_ok, res_bind_ret by lia.
  assert (Hsl : zlength (slice buf1 0 nb) = nb) by (rewrite slice_length; lia).
  assert (Hfl1 : filled buf (store buf1 n (slice buf1 0 nb)) pat shift (n + nb) buflen).
  { apply filled_store; [done|done|lia..|]. intros i Hi.
    rewrite slice_lookup, pattern_at_period by (done || lia). rewrite <- Hm by lia. done. }
  replace (buflen - n - nb) with (buflen - (n + nb)) by lia.
  destruct (decide (n + nb = buflen)) as [He|He].
  - rewrite He in *. eexists. split; [|done].
    destruct fuel; [lia|]. simpl. rewrite (proj2 (Z.ltb_ge _ _)) by lia. done.
  - apply IH; try lia; [|done].
    apply Z.divide_add_r; [done|]. replace nb with n by lia. done.
Qed.

(** The reduced shift of the code is the residue of the shift. *)
Lemma reduced_shift (patlen shift : Z) :
  0 < patlen → 0 ≤ shift →
  (if patlen =? 0 then shift else shift %% patlen) = shift mod patlen.
Proof.
  intros. rewrite (proj2 (Z.eqb_neq _ _)) by lia. apply Z.rem_mod_nonneg; lia.
Qed.

(** What remains to be done once the first [patlen] bytes are treated. *)
Lemma matches_tail_iff buf pat shift n :
  0 < zlength pat → 0 ≤ n ≤ zlength pat - shift mod zlength pat → n ≤ zlength buf →
  slice buf 0 n = slice pat (shift mod zlength pat) n ↔ matches buf pat shift n.
Proof.
  intros ? Hn ?. pose proof (Z.mod_pos_bound shift (zlength pat) ltac:(lia)).
  rewrite slice_eq_iff by lia. unfold matches.
  split; intros Heq i Hi; specialize (Heq i Hi);
    rewrite pattern_at_tail in * by lia; exact Heq.
Qed.

Lemma matches_head_iff buf pat shift n :
  let nb := zlength pat - shift mod zlength pat in
  0 < zlength pat → 0 ≤ n ≤ shift mod zlength pat → nb + n ≤ zlength buf →
  matches buf pat shift nb →
  slice buf nb n = slice pat 0 n ↔ matches buf pat shift (nb + n).
Proof.
  intros nb ? Hn ? Hm. pose proof (Z.mod_pos_bound shift (zlength pat) ltac:(lia)).
  rewrite slice_eq_iff by lia. split.
  - intros Heq. apply matches_app; [lia|done|]. intros i Hi. rewrite (Heq i Hi).
    unfold nb. rewrite pattern_at_head by lia. done.
  - intros Hall i Hi. rewrite (Hall (nb + i)) by lia. unfold nb.
    rewrite pattern_at_head by lia. done.
Qed.

Lemma pattern_check_verdict fuel buf pat shift buflen :
  0 < zlength pat → 0 ≤ shift → 0 ≤ buflen ≤ zlength buf → buflen < Z.of_nat fuel →
  verdict (matches buf pat shift buflen)
    (pattern_check fuel buf buflen pat (zlength pat) shift).
Proof.
  intros Hp Hs Hb Hf. unfold pattern_check. rewrite reduced_shift by lia.
  pose proof (Z.mod_pos_bound shift (zlength pat) ltac:(lia)).
  pose proof (matches_tail_iff buf pat shift) as Ht.
  pose proof (matches_head_iff buf pat shift) as Hh. simpl in Hh.
  set (r := shift mod zlength pat) in *.
  case_if; [apply verdict_last; try lia; apply Ht; lia|].
  apply (verdict_part _ _ _ _ _ _ (matches buf pat shift (zlength pat - r))); try lia;
    [apply Ht; lia|intros; eapply matches_le; [done|lia]|intros Hm].
  assert (Hr : 0 + (zlength pat - r) = zlength pat - r) by lia. rewrite Hr.
  case_if.
  - case_if.
    { apply verdict_last; try lia. specialize (Hh (buflen - (zlength pat - r))).
      rewrite Zplus_minus in Hh. apply Hh; (done || lia). }
    apply (verdict_part _ _ _ _ _ _ (matches buf pat shift (zlength pat - r + r))); try lia;
      [apply Hh; (done || lia)|intros; eapply matches_le; [done|lia]|].
    replace (zlength pat - r + r) with (zlength pat) by lia. intros.
    replace (buflen - (zlength pat - r) - r) with (buflen - zlength pat) by lia.
    apply pattern_check_loop_spec; (done || lia).
  - replace r with 0 in * by lia. rewrite Z.sub_0_r in *.
    apply pattern_check_loop_spec; (done || lia).
Qed.

Lemma pattern_fill_ok fuel buf pat shift buflen :
  0 < zlength pat → 0 ≤ shift → 0 ≤ buflen ≤ zlength buf → buflen < Z.of_nat fuel →
  ∃ buf', pattern_fill fuel buf buflen pat (zlength pat) shift = Ret (0, buf') ∧
    filled buf buf' pat shift buflen buflen.
Proof.
  intros Hp Hs Hb Hf. unfold pattern_fill. rewrite reduced_shift by lia.
  pose proof (Z.mod_pos_bound shift (zlength pat) ltac:(lia)).
  pose proof (λ n, filled_tail buf pat shift n buflen) as Ht.
  pose proof (λ b n, filled_head buf b pat shift n buflen) as Hh. simpl in Hh.
  set (r := shift mod zlength pat) in *.
  case_if; rewrite memcpy_ok, res_bind_ret by lia; [eexists; split; [done|]; apply Ht; lia|].
  specialize (Ht (zlength pat - r) ltac:(lia) ltac:(lia) ltac:(lia)).
  set (buf1 := store buf 0 (slice pat r (zlength pat - r))) in *.
  assert (Hl1 : length buf1 = length buf) by apply Ht.
  assert (Hr : 0 + (zlength pat - r) = zlength pat - r) by lia. rewrite Hr.
  case_if.
  - case_if; rewrite memcpy_ok, res_bind_ret by lia.
    { eexists. split; [done|]. specialize (Hh buf1 (buflen - (zlength pat - r))).
      rewrite Zplus_minus in Hh. apply Hh; (done || lia). }
    replace (buflen - (zlength pat - r) - r) with (buflen - (zlength pat - r + r)) by lia.
    apply (pattern_fill_loop_spec _ buf _ pat shift); try lia;
      [replace (zlength pat - r + r) with (zlength pat) by lia; done|apply Hh; (done || lia)].
  - replace r with 0 in * by lia. rewrite Z.sub_0_r in *.
    apply (pattern_fill_loop_spec _ buf _ pat shift); (done || lia).
Qed.

(** With an empty pattern the loop does not advance. *)
Lemma pattern_fill_loop_stuck fuel buf buflen nleft :
  0 < buflen ≤ zlength buf → 0 ≤ nleft → pattern_fill_loop fuel buf buflen 0 0 nleft = NoFuel.
Proof.
  intros Hb Hn. induction fuel as [|fuel IH]; [done|]. simpl.
  rewrite (proj2 (Z.ltb_lt _ _)) by lia.
  replace (if 0 <? nleft then 0 else nleft) with 0 by (case_if; lia).
  rewrite memcpy_self_ok, res_bind_ret by lia. rewrite Z.sub_0_r. exact IH.
Qed.

(** ** Properties *)

(** [pattern_check] on a buffer of [buflen] bytes and a non-empty pattern
    always returns; it returns [0] exactly when the buffer is the pattern
    repeated and rotated by [shift], and [-1] otherwise: the doubling comparison
    is equivalent to the byte-by-byte one. *)
Theorem pattern_check_spec fuel buf pat shift buflen :
  0 < zlength pat → 0 ≤ shift → 0 ≤ buflen ≤ zlength buf → buflen < Z.of_nat fuel →
  let r := pattern_check fuel buf buflen pat (zlength pat) shift in
  (r = Ret 0 ↔ matches buf pat shift buflen) ∧ (r = Ret (-1) ↔ ¬ matches buf pat shift buflen).
Proof.
  intros. destruct (pattern_check_verdict fuel buf pat shift buflen)
    as (v & Hv & [[-> ?]|[-> ?]]); try done; unfold r; rewrite Hv; naive_solver.
Qed.

(** [pattern_fill] with a non-empty pattern always returns [0], fills the
    first [buflen] bytes with the repeated rotated pattern, touches nothing
    after them, and the result passes [pattern_check] with the same arguments. *)
Theorem pattern_fill_check fuel buf pat shift buflen :
  0 < zlength pat → 0 ≤ shift → 0 ≤ buflen ≤ zlength buf → buflen < Z.of_nat fuel →
  ∃ buf', pattern_fill fuel buf buflen pat (zlength pat) shift = Ret (0, buf') ∧
    filled buf buf' pat shift buflen buflen ∧
    pattern_check fuel buf' buflen pat (zlength pat) shift = Ret 0.
Proof.
  intros Hp Hs Hb Hf. destruct (pattern_fill_ok fuel buf pat shift buflen)
    as (b & Hfill & Hl & Hm & Ho); try done.
  exists b. split; [done|]. split; [done|].
  destruct (pattern_check_verdict fuel b pat shift buflen) as (v & Hv & [[-> ?]|[-> ?]]);
    (done || lia).
Qed.

(** with an empty pattern [pattern_fill] of a non-empty buffer never
    returns, whatever the fuel, although pattern.h says it always returns 0. *)
Theorem pattern_fill_empty_diverges fuel buf pat buflen :
  0 < buflen ≤ zlength buf → pattern_fill fuel buf buflen pat 0 0 = NoFuel.
Proof.
  intros Hb. unfold pattern_fill. simpl. rewrite (proj2 (Z.ltb_ge _ _)) by lia.
  rewrite memcpy_ok, res_bind_ret by lia.
  apply pattern_fill_loop_stuck; [|lia]. rewrite store_length; simpl; lia.
Qed.

End pattern.

Lemma pattern_check_spec_witness :
  pattern_check 8 [3; 1; 2; 3; 1; 2; 3] 7 [1; 2; 3] 3 2 = Ret 0 ∧
  matches [3; 1; 2; 3; 1; 2; 3] [1; 2; 3] 2 7.
Proof.
  assert (H : pattern_check 8 [3; 1; 2; 3; 1; 2; 3] 7 [1; 2; 3] 3 2 = Ret 0) by reflexivity.
  split; [exact H|].
  apply (pattern_check_spec 8 [3; 1; 2; 3; 1; 2; 3] [1; 2; 3] 2 7); [reflexivity|lia|simpl; lia|lia|exact H].
Defined.

Lemma pattern_fill_check_witness :
  ∃ buf', pattern_fill 8 (replicate 8 0) 7 [1; 2; 3] 3 2 = Ret (0, buf') ∧
    filled (replicate 8 0) buf' [1; 2; 3] 2 7 7 ∧
    pattern_check 8 buf' 7 [1; 2; 3] 3 2 = Ret 0.
Proof. apply (pattern_fill_check 8 (replicate 8 0) [1; 2; 3] 2 7); simpl; lia. Defined.

Lemma pattern_fill_empty_diverges_witness :
  pattern_fill 100 [7; 7; 7] 3 ([] : list Z) 0 0 = NoFuel.
Proof. apply (pattern_fill_empty_diverges 100 [7; 7; 7] [] 3). simpl; lia. Defined.
