(* ===== verification/DataGen.v ===== *)
(** * Offset-based data: lib/dataascii.c and lib/databin.c

    Generators that fill a buffer with data depending only on the file offset
    of each byte, and checkers that report the offset of the first wrong byte.
    A [char] is a [Z] in the signed 8-bit range, the address arithmetic is on
    [int] (overflow is undefined). *)

From S2P Require Import Prelude CInt CMem.
Local Open Scope Z_scope.

(** The text left in the static [Errmsg] buffer. *)
Inductive errmsg : Type :=
| Mismatch (offset exp act : Z)
| AllMatch (bsize : Z).

(** ** First differences

    Both checkers look for the first offset at which the buffer differs from the
    expected data. *)

(** [r] is the first [i] of [lo..hi-1] with [act i ≠ exp i], if there is one. *)
Definition first_bad (exp act : Z → Z) (lo hi : Z) (r : option Z) : Prop :=
  match r with
  | None => ∀ i, lo ≤ i < hi → act i = exp i
  | Some k => lo ≤ k < hi ∧ act k ≠ exp k ∧ ∀ i, lo ≤ i < k → act i = exp i
  end.

Lemma first_bad_ok exp act lo hi r :
  first_bad exp act lo hi r → (∀ i, lo ≤ i < hi → act i = exp i) → r = None.
Proof. destruct r as [k|]; [|done]. intros (? & Hk & _) Hall. by destruct Hk; apply Hall. Qed.

Lemma first_bad_here exp act lo hi : lo < hi → act lo ≠ exp lo → first_bad exp act lo hi (Some lo).
Proof. intros. split; [lia|]. split; [done|]. lia. Qed.

Lemma first_bad_next exp act lo hi r :
  act lo = exp lo → first_bad exp act (lo + 1) hi r → first_bad exp act lo hi r.
Proof.
  intros H0 Hr. destruct r as [k|]; simpl in *.
  - destruct Hr as (? & Hk & Hlt). split; [lia|]. split; [done|].
    intros i Hi. destruct (decide (i = lo)) as [->|]; [done|]. apply Hlt. lia.
  - intros i Hi. destruct (decide (i = lo)) as [->|]; [done|]. apply Hr. lia.
Qed.

(** The value of a cell, a default outside the array. *)
Abbreviation cell m i := ((m : list Z) !!! Z.to_nat i).

Lemma mem_get_cell (m : list Z) i : 0 ≤ i < zlength m → mem_get m i = Ret (cell m i).
Proof.
  intros. apply mem_get_lookup; [lia|]. apply list_lookup_lookup_total_lt. lia.
Qed.

Lemma cell_drop (m : list Z) d i : 0 ≤ d → 0 ≤ i → cell (drop (Z.to_nat d) m) i = cell m (d + i).
Proof. intros. rewrite lookup_total_drop. f_equal. lia. Qed.

(** Cells of a buffer into which computed bytes were stored. *)
Lemma cell_store_map (m : list Z) (f : nat → Z) n i :
  Z.of_nat n ≤ zlength m → 0 ≤ i < Z.of_nat n →
  cell (store m 0 (map f (seq 0 n))) i = f (Z.to_nat i).
Proof.
  intros. apply list_lookup_total_correct.
  rewrite store_lookup by (rewrite ?length_map, ?length_seq; lia).
  rewrite decide_True by (rewrite length_map, length_seq; lia).
  change (Z.to_nat 0) with 0%nat. rewrite Nat.sub_0_r, list_lookup_fmap.
  rewrite lookup_seq_lt by lia. done.
Qed.

(** ** dataascii.c *)
Module DataAscii.

Definition bytes (s : string) : list Z :=
  map (λ c, Z.of_N (Ascii.N_of_ascii c)) (String.list_ascii_of_string s).

(** [CHARS] with its terminating zero, and [CHARS_SIZE], which counts it. *)
Definition CHARS : list Z :=
  bytes "ABCDEFGHIJKLMNOPQRSTUVWXYZabcdefghjiklmnopqrstuvwxyz" ++ [10; 0].
Definition CHARS_SIZE : Z := zlength CHARS.

(** The array of characters and the size to cycle through. *)
Definition charset (listofchars : option (list Z)) : list Z * Z :=
  match listofchars with
  | None => (CHARS, CHARS_SIZE)
  | Some l => (l ++ [0], zlength l)
  end.

(** The loop of [dataasciigen], [n] iterations left. *)
Fixpoint gen_loop (n : nat) (charlist : list Z) (chars_size : Z) (buffer : list Z) (chr cnt : Z)
    : res (list Z) :=
  match n with
  | O => Ret buffer
  | S n =>
      ind ← crem cnt chars_size;
      c ← mem_get charlist ind;
      buffer ← mem_write buffer chr [c];
      gen_loop n charlist chars_size buffer (chr + 1) (cnt + 1)
  end.

Definition dataasciigen (listofchars : option (list Z)) (buffer : list Z) (bsize offset : Z)
    : res (Z * list Z) :=
  total ← ck32 (offset + bsize);
  let '(charlist, chars_size) := charset listofchars in
  buffer ← gen_loop (Z.to_nat (total - offset)) charlist chars_size buffer 0 offset;
  Ret (bsize, buffer).

(** The loop of [dataasciichk]: the first mismatch, if any. *)
Fixpoint chk_loop (n : nat) (charlist : list Z) (chars_size : Z) (buffer : list Z) (chr cnt : Z)
    : res (option (Z * errmsg)) :=
  match n with
  | O => Ret None
  | S n =>
      ind ← crem cnt chars_size;
      c ← mem_get charlist ind;
      b ← mem_get buffer chr;
      if negb (b =? c) then Ret (Some (cnt, Mismatch cnt c b))
      else chk_loop n charlist chars_size buffer (chr + 1) (cnt + 1)
  end.

Definition dataasciichk (listofchars : option (list Z)) (buffer : list Z) (bsize offset : Z)
    : res (Z * errmsg) :=
  total ← ck32 (offset + bsize);
  let '(charlist, chars_size) := charset listofchars in
  r ← chk_loop (Z.to_nat (total - offset)) charlist chars_size buffer 0 offset;
  match r with
  | Some v => Ret v
  | None => Ret (-1, AllMatch bsize)
  end.

(** *** Reference: the byte at file offset [o]. *)
Definition ascii_byte (listofchars : option (list Z)) (o : Z) : Z :=
  let '(charlist, chars_size) := charset listofchars in cell charlist (o mod chars_size).

Lemma charset_size l : 0 ≤ (charset l).2 ≤ zlength (charset l).1.
Proof. destruct l; [simpl; rewrite length_app; simpl; lia|vm_compute; split; discriminate]. Qed.

(** The two lookups of an iteration. *)
Lemma charlist_get charlist sz cnt :
  0 < sz ≤ zlength charlist → 0 ≤ cnt →
  (ind ← crem cnt sz; mem_get charlist ind) = Ret (cell charlist (cnt mod sz)).
Proof.
  intros. rewrite crem_ok, res_bind_ret by lia. apply mem_get_cell.
  pose proof (Z.mod_pos_bound cnt sz). lia.
Qed.

Lemma gen_loop_ok n charlist sz buffer chr cnt :
  0 < sz ≤ zlength charlist → 0 ≤ cnt → 0 ≤ chr → chr + Z.of_nat n ≤ zlength buffer →
  gen_loop n charlist sz buffer chr cnt =
    Ret (store buffer chr (map (λ i, cell charlist ((cnt + Z.of_nat i) mod sz)) (seq 0 n))).
Proof.
  intros Hsz. revert buffer chr cnt. induction n as [|n IH]; intros buffer chr cnt ???.
  { simpl. by rewrite store_nil. }
  cbn [gen_loop]. rewrite <- res_bind_assoc, charlist_get, res_bind_ret by lia.
  rewrite mem_write_ok, res_bind_ret by (simpl; lia).
  rewrite IH by (rewrite ?store_length; simpl; lia). f_equal.
  rewrite store_cons by (rewrite ?length_map, ?length_seq; lia). f_equal. simpl.
  rewrite Z.add_0_r, <- seq_shift, map_map. f_equal. apply map_ext. intros i.
  by replace (cnt + 1 + Z.of_nat i) with (cnt + Z.of_nat (S i)) by lia.
Qed.

Lemma chk_loop_ok n charlist sz buffer offset k :
  0 < sz ≤ zlength charlist → 0 ≤ offset → 0 ≤ k → k + Z.of_nat n ≤ zlength buffer →
  let exp i := cell charlist ((offset + i) mod sz) in
  let act i := cell buffer i in
  ∃ r, first_bad exp act k (k + Z.of_nat n) r ∧
    chk_loop n charlist sz buffer k (offset + k) =
      Ret ((λ i, (offset + i, Mismatch (offset + i) (exp i) (act i))) <$> r).
Proof.
  intros Hsz. revert k. induction n as [|n IH]; intros k ??? exp act.
  { exists None. split; [intros i; lia|done]. }
  cbn [chk_loop]. rewrite <- res_bind_assoc, charlist_get, res_bind_ret by lia.
  rewrite mem_get_cell, res_bind_ret by lia. case_if.
  - exists (Some k). split; [apply first_bad_here; [lia|done]|done].
  - destruct (IH (k + 1)) as (r & Hr & He); try lia.
    rewrite Z.add_assoc in He. exists r. split; [|done].
    apply first_bad_next; [done|]. by replace (k + 1 + Z.of_nat n) with (k + Z.of_nat (S n)) in Hr by lia.
Qed.

(** The check as a whole: the verdict on the first [bsize] bytes. *)
Lemma dataasciichk_ok l buffer bsize offset :
  0 < (charset l).2 → 0 ≤ offset → 0 ≤ bsize ≤ zlength buffer → offset + bsize ≤ INT_MAX →
  ∃ r, first_bad (λ i, ascii_byte l (offset + i)) (λ i, cell buffer i) 0 bsize r ∧
    dataasciichk l buffer bsize offset =
      Ret (match r with
           | None => (-1, AllMatch bsize)
           | Some i => (offset + i, Mismatch (offset + i) (ascii_byte l (offset + i)) (cell buffer i))
           end).
Proof.
  intros Hsz ???. pose proof (charset_size l). unfold dataasciichk, ascii_byte.
  rewrite ck32_ok, res_bind_ret by (unfold INT_MIN in *; lia).
  destruct (charset l) as [charlist sz]. simpl in *.
  destruct (chk_loop_ok (Z.to_nat (offset + bsize - offset)) charlist sz buffer offset 0)
    as (r & Hr & He); try lia.
  replace (0 + Z.of_nat (Z.to_nat (offset + bsize - offset))) with bsize in Hr by lia.
  rewrite Z.add_0_r in He. exists r. split; [done|]. rewrite He. by destruct r.
Qed.

Lemma dataasciigen_ok l buffer bsize offset :
  0 < (charset l).2 → 0 ≤ offset → 0 ≤ bsize ≤ zlength buffer → offset + bsize ≤ INT_MAX →
  dataasciigen l buffer bsize offset =
    Ret (bsize, store buffer 0 (map (λ i, ascii_byte l (offset + Z.of_nat i)) (seq 0 (Z.to_nat bsize)))).
Proof.
  intros Hsz ???. pose proof (charset_size l). unfold dataasciigen, ascii_byte.
  rewrite ck32_ok, res_bind_ret by (unfold INT_MIN in *; lia).
  destruct (charset l) as [charlist sz]. simpl in *.
  rewrite gen_loop_ok, res_bind_ret by lia. by replace (offset + bsize - offset) with bsize by lia.
Qed.

(** data generated by [dataasciigen] for a file range passes [dataasciichk]
    for every sub-range [\[offset+d, offset+bsize)] of it: the data depend on the
    file offset only, not on where the buffer starts. *)
Theorem dataascii_gen_chk l buffer bsize offset d :
  0 < (charset l).2 → 0 ≤ offset → 0 ≤ d ≤ bsize → bsize ≤ zlength buffer →
  offset + bsize ≤ INT_MAX →
  ∃ buf', dataasciigen l buffer bsize offset = Ret (bsize, buf') ∧
    dataasciichk l (drop (Z.to_nat d) buf') (bsize - d) (offset + d) = Ret (-1, AllMatch (bsize - d)).
Proof.
  intros Hsz ????. rewrite dataasciigen_ok by lia. eexists. split; [done|].
  set (buf' := store _ _ _).
  assert (Hl : length buf' = length buffer)
    by (apply store_length; rewrite ?length_map, ?length_seq; lia).
  destruct (dataasciichk_ok l (drop (Z.to_nat d) buf') (bsize - d) (offset + d))
    as (r & Hr & ->); try done; try (rewrite ?length_drop; lia).
  apply first_bad_ok in Hr as ->; [done|]. intros i Hi.
  rewrite cell_drop by lia. unfold buf'. rewrite cell_store_map by lia. f_equal. lia.
Qed.

End DataAscii.

(** ** databin.c *)
Module DataBin.

(** The [mode] characters. *)
Definition mode_a : Z := 97.
Definition mode_c : Z := 99.
Definition mode_C : Z := 67.
Definition mode_o : Z := 111.
Definition mode_z : Z := 122.
Definition mode_r : Z := 114.

(** The byte of the counting pattern at offset [o]. *)
Definition count_byte (o : Z) : Z := Z.land (o %% 8) 127.

Fixpoint gen_count (n : nat) (buffer : list Z) (ind offset : Z) : res (list Z) :=
  match n with
  | O => Ret buffer
  | S n =>
      o ← ck32 (offset + ind);
      buffer ← mem_write buffer ind [s8 (count_byte o)];
      gen_count n buffer (ind + 1) offset
  end.

(** [rand] is the sequence of results of [rand(3)]. *)
Fixpoint gen_random (rand : nat → Z) (n k : nat) (buffer : list Z) (ind : Z) : res (list Z) :=
  match n with
  | O => Ret buffer
  | S n =>
      buffer ← mem_write buffer ind [s8 (Z.lor (Z.land (rand k) 127) 64)];
      gen_random rand n (S k) buffer (ind + 1)
  end.

Definition databingen (rand : nat → Z) (mode : Z) (buffer : list Z) (bsize offset : Z)
    : res (list Z) :=
  if mode =? mode_c then memset buffer 0 (s8 240) bsize
  else if mode =? mode_C then gen_count (Z.to_nat bsize) buffer 0 offset
  else if mode =? mode_o then memset buffer 0 (s8 255) bsize
  else if mode =? mode_z then memset buffer 0 (s8 0) bsize
  else if mode =? mode_r then gen_random rand (Z.to_nat bsize) 0 buffer 0
  else (* 'a' and default *) memset buffer 0 (s8 85) bsize.

(** The loop of mode 'C', which compares the signed [buffer\[cnt\]]. *)
Fixpoint chk_count (n : nat) (buffer : list Z) (cnt offset : Z) : res (option (Z * errmsg)) :=
  match n with
  | O => Ret None
  | S n =>
      o ← ck32 (offset + cnt);
      b ← mem_get buffer cnt;
      if negb (b =? count_byte o) then Ret (Some (o, Mismatch o (count_byte o) b))
      else chk_count n buffer (cnt + 1) offset
  end.

(** The loop of the constant modes, which compares [unsigned char]s. *)
Fixpoint chk_const (n : nat) (expbits : Z) (buffer : list Z) (cnt offset : Z)
    : res (option (Z * errmsg)) :=
  match n with
  | O => Ret None
  | S n =>
      b ← mem_get buffer cnt;
      if negb (u8 b =? expbits) then
        o ← ck32 (offset + cnt); Ret (Some (o, Mismatch o expbits (u8 b)))
      else chk_const n expbits buffer (cnt + 1) offset
  end.

Definition finish (bsize : Z) (r : option (Z * errmsg)) : Z * option errmsg :=
  match r with
  | Some (o, m) => (o, Some m)
  | None => (-1, Some (AllMatch bsize))
  end.

(** The returned message is [None] in mode 'r', which leaves [Errmsg] alone. *)
Definition databinchk (mode : Z) (buffer : list Z) (bsize offset : Z) : res (Z * option errmsg) :=
  if mode =? mode_C then
    r ← chk_count (Z.to_nat bsize) buffer 0 offset; Ret (finish bsize r)
  else if mode =? mode_r then Ret (-1, None)
  else
    let expbits := if mode =? mode_c then 240
                   else if mode =? mode_o then 255
                   else if mode =? mode_z then 0
                   else (* 'a' and default *) 85 in
    r ← chk_const (Z.to_nat bsize) expbits buffer 0 offset; Ret (finish bsize r).

(** *** Reference: the [unsigned char] at file offset [o]. *)
Definition const_byte (mode : Z) : Z :=
  if mode =? mode_c then 240 else if mode =? mode_o then 255
  else if mode =? mode_z then 0 else 85.

Definition bin_byte (mode o : Z) : Z :=
  if mode =? mode_C then count_byte o else const_byte mode.

Lemma count_byte_range o : 0 ≤ count_byte o < 128.
Proof.
  unfold count_byte. change 127 with (Z.ones 7). rewrite Z.land_ones by lia.
  apply Z.mod_pos_bound. done.
Qed.

Lemma gen_count_ok n buffer ind offset :
  0 ≤ ind → ind + Z.of_nat n ≤ zlength buffer →
  INT_MIN ≤ offset → offset + ind + Z.of_nat n ≤ INT_MAX →
  gen_count n buffer ind offset =
    Ret (store buffer ind (map (λ i, count_byte (offset + ind + Z.of_nat i)) (seq 0 n))).
Proof.
  revert buffer ind. induction n as [|n IH]; intros buffer ind ????.
  { simpl. by rewrite store_nil. }
  cbn [gen_count]. rewrite ck32_ok, res_bind_ret by lia.
  pose proof (count_byte_range (offset + ind)). rewrite s8_id by lia.
  rewrite mem_write_ok, res_bind_ret by (simpl; lia).
  rewrite IH by (rewrite ?store_length; simpl; lia). f_equal.
  rewrite store_cons by (rewrite ?length_map, ?length_seq; lia). f_equal. simpl.
  rewrite Z.add_0_r, <- seq_shift, map_map. f_equal. apply map_ext. intros i.
  by replace (offset + (ind + 1) + Z.of_nat i) with (offset + ind + Z.of_nat (S i)) by lia.
Qed.

Lemma gen_random_ok rand n k buffer ind :
  0 ≤ ind → ind + Z.of_nat n ≤ zlength buffer →
  ∃ buf', gen_random rand n k buffer ind = Ret buf' ∧ length buf' = length buffer.
Proof.
  revert k buffer ind. induction n as [|n IH]; intros k buffer ind ??; [by exists buffer|].
  cbn [gen_random]. rewrite mem_write_ok, res_bind_ret by (simpl; lia).
  destruct (IH (S k) (store buffer ind [s8 (Z.lor (Z.land (rand k) 127) 64)]) (ind + 1))
    as (b & -> & Hl); rewrite ?store_length; simpl; try lia.
  exists b. split; [done|]. rewrite Hl, store_length; simpl; lia.
Qed.

Lemma chk_count_ok n buffer k offset :
  0 ≤ k → k + Z.of_nat n ≤ zlength buffer →
  INT_MIN ≤ offset → offset + k + Z.of_nat n ≤ INT_MAX →
  ∃ r, first_bad (λ i, count_byte (offset + i)) (λ i, cell buffer i) k (k + Z.of_nat n) r ∧
    chk_count n buffer k offset =
      Ret ((λ i, (offset + i, Mismatch (offset + i) (count_byte (offset + i)) (cell buffer i))) <$> r).
Proof.
  revert k. induction n as [|n IH]; intros k ????.
  { exists None. split; [intros i; lia|done]. }
  cbn [chk_count]. rewrite ck32_ok, res_bind_ret by lia.
  rewrite mem_get_cell, res_bind_ret by lia. case_if.
  - exists (Some k). split; [apply first_bad_here; [lia|done]|done].
  - destruct (IH (k + 1)) as (r & Hr & He); try lia. exists r. split; [|done].
    apply first_bad_next; [done|]. by replace (k + 1 + Z.of_nat n) with (k + Z.of_nat (S n)) in Hr by lia.
Qed.

Lemma chk_const_ok n e buffer k offset :
  0 ≤ k → k + Z.of_nat n ≤ zlength buffer →
  INT_MIN ≤ offset → offset + k + Z.of_nat n ≤ INT_MAX →
  ∃ r, first_bad (λ _, e) (λ i, u8 (cell buffer i)) k (k + Z.of_nat n) r ∧
    chk_const n e buffer k offset =
      Ret ((λ i, (offset + i, Mismatch (offset + i) e (u8 (cell buffer i)))) <$> r).
Proof.
  revert k. induction n as [|n IH]; intros k ????.
  { exists None. split; [intros i; lia|done]. }
  cbn [chk_const]. rewrite mem_get_cell, res_bind_ret by lia. case_if.
  - rewrite ck32_ok, res_bind_ret by lia.
    exists (Some k). split; [apply first_bad_here; [lia|done]|done].
  - destruct (IH (k + 1)) as (r & Hr & He); try lia. exists r. split; [|done].
    apply first_bad_next; [done|]. by replace (k + 1 + Z.of_nat n) with (k + Z.of_nat (S n)) in Hr by lia.
Qed.

(** What [databinchk] reads in a cell: mode 'C' looks at the signed [char]. *)
Definition seen (mode b : Z) : Z := if mode =? mode_C then b else u8 b.

Lemma databinchk_ok mode buffer bsize offset :
  mode ≠ mode_r → 0 ≤ bsize ≤ zlength buffer → INT_MIN ≤ offset → offset + bsize ≤ INT_MAX →
  ∃ r, first_bad (λ i, bin_byte mode (offset + i)) (λ i, seen mode (cell buffer i)) 0 bsize r ∧
    databinchk mode buffer bsize offset =
      Ret (match r with
           | None => (-1, Some (AllMatch bsize))
           | Some i => (offset + i, Some (Mismatch (offset + i) (bin_byte mode (offset + i))
                                                   (seen mode (cell buffer i))))
           end).
Proof.
  intros Hm ???. unfold databinchk, bin_byte, seen. rewrite (proj2 (Z.eqb_neq mode mode_r)) by done.
  destruct (mode =? mode_C) eqn:E.
  - destruct (chk_count_ok (Z.to_nat bsize) buffer 0 offset) as (r & Hr & ->); try lia.
    replace (0 + Z.of_nat (Z.to_nat bsize)) with bsize in Hr by lia.
    exists r. split; [done|]. by destruct r.
  - fold (const_byte mode).
    destruct (chk_const_ok (Z.to_nat bsize) (const_byte mode) buffer 0 offset) as (r & Hr & ->); try lia.
    replace (0 + Z.of_nat (Z.to_nat bsize)) with bsize in Hr by lia.
    exists r. split; [done|]. by destruct r.
Qed.

Lemma databingen_ok rand mode buffer bsize offset :
  0 ≤ bsize ≤ zlength buffer → INT_MIN ≤ offset → offset + bsize ≤ INT_MAX →
  ∃ buf', databingen rand mode buffer bsize offset = Ret buf' ∧ length buf' = length buffer ∧
    (mode ≠ mode_r → ∀ i, 0 ≤ i < bsize → seen mode (cell buf' i) = bin_byte mode (offset + i)).
Proof.
  intros. assert (Hset : ∀ c, ∃ buf', memset buffer 0 (s8 c) bsize = Ret buf' ∧ length buf' = length buffer ∧
    ∀ i, 0 ≤ i < bsize → u8 (cell buf' i) = u8 c).
  { intros c. rewrite memset_ok by lia. eexists. split; [done|]. split.
    - apply store_length; rewrite ?length_replicate; lia.
    - intros i Hi. rewrite <- (u8_s8 c). f_equal. apply list_lookup_total_correct.
      rewrite store_lookup, decide_True by (rewrite ?length_replicate; lia).
      apply lookup_replicate. split; [done|lia]. }
  unfold databingen, seen, bin_byte, const_byte.
  destruct (mode =? mode_C) eqn:EC; bool_hyps; [subst mode|].
  { simpl. rewrite gen_count_ok by lia. eexists. split; [done|]. split.
    - apply store_length; rewrite ?length_map, ?length_seq; lia.
    - intros _ i Hi. rewrite cell_store_map by lia. f_equal. lia. }
  destruct (mode =? mode_c); [destruct (Hset 240) as (b & -> & ? & Hb); by exists b|].
  destruct (mode =? mode_o); [destruct (Hset 255) as (b & -> & ? & Hb); by exists b|].
  destruct (mode =? mode_z); [destruct (Hset 0) as (b & -> & ? & Hb); by exists b|].
  destruct (mode =? mode_r) eqn:Er; bool_hyps.
  - destruct (gen_random_ok rand (Z.to_nat bsize) 0 buffer 0) as (b & -> & ?); try lia. by exists b.
  - destruct (Hset 85) as (b & -> & ? & Hb). by exists b.
Qed.

(** in every mode, data generated by [databingen] for a file range passes
    [databinchk] in the same mode for every sub-range of it (in mode 'r' because
    nothing is checked). *)
Theorem databin_gen_chk rand mode buffer bsize offset d :
  0 ≤ d ≤ bsize → bsize ≤ zlength buffer → INT_MIN ≤ offset → offset + bsize ≤ INT_MAX →
  ∃ buf' msg, databingen rand mode buffer bsize offset = Ret buf' ∧
    databinchk mode (drop (Z.to_nat d) buf') (bsize - d) (offset + d) = Ret (-1, msg).
Proof.
  intros. destruct (databingen_ok rand mode buffer bsize offset) as (b & Hb & Hl & Hcell); try lia.
  exists b. destruct (decide (mode = mode_r)) as [->|Hm]; [by exists None|].
  destruct (databinchk_ok mode (drop (Z.to_nat d) b) (bsize - d) (offset + d))
    as (r & Hr & Hc); try done; try (rewrite ?length_drop; lia).
  apply first_bad_ok in Hr as ->; [eauto|]. intros i Hi.
  rewrite cell_drop, Hcell by (done || lia). f_equal. lia.
Qed.

(** outside mode 'r', [databinchk] reports exactly the first offset whose
    byte differs from the expected one, with both bytes in the message, and [-1]
    when there is none. *)
Theorem databinchk_first_mismatch mode buffer bsize offset :
  mode ≠ mode_r → 0 ≤ bsize ≤ zlength buffer → INT_MIN ≤ offset → offset + bsize ≤ INT_MAX →
  ∃ r, first_bad (λ i, bin_byte mode (offset + i)) (λ i, seen mode (cell buffer i)) 0 bsize r ∧
    databinchk mode buffer bsize offset =
      Ret (match r with
           | None => (-1, Some (AllMatch bsize))
           | Some i => (offset + i, Some (Mismatch (offset + i) (bin_byte mode (offset + i))
                                                   (seen mode (cell buffer i))))
           end).
Proof. apply databinchk_ok. Qed.

End DataBin.

(** ** Witnesses *)

Lemma dataascii_gen_chk_witness :
  ∃ buf', DataAscii.dataasciigen None (replicate 60 7) 60 5 = Ret (60, buf') ∧
    DataAscii.dataasciichk None (drop (Z.to_nat 13) buf') (60 - 13) (5 + 13) = Ret (-1, AllMatch (60 - 13)).
Proof.
  apply (DataAscii.dataascii_gen_chk None (replicate 60 7) 60 5 13); vm_compute; intuition discriminate.
Defined.

Lemma databin_gen_chk_witness :
  ∃ buf' msg, DataBin.databingen (λ _, 0) DataBin.mode_C (replicate 20 7) 20 (-3) = Ret buf' ∧
    DataBin.databinchk DataBin.mode_C (drop (Z.to_nat 6) buf') (20 - 6) (-3 + 6) = Ret (-1, msg).
Proof.
  apply (DataBin.databin_gen_chk (λ _, 0) DataBin.mode_C (replicate 20 7) 20 (-3) 6);
    vm_compute; intuition discriminate.
Defined.

Lemma databinchk_first_mismatch_witness :
  ∃ r, first_bad (λ i, DataBin.bin_byte DataBin.mode_o (9 + i))
                 (λ i, DataBin.seen DataBin.mode_o (cell [-1; -1; 3] i)) 0 3 r ∧
    DataBin.databinchk DataBin.mode_o [-1; -1; 3] 3 9 =
      Ret (match r with
           | None => (-1, Some (AllMatch 3))
           | Some i => (9 + i, Some (Mismatch (9 + i) (DataBin.bin_byte DataBin.mode_o (9 + i))
                                              (DataBin.seen DataBin.mode_o (cell [-1; -1; 3] i))))
           end).
Proof.
  apply (DataBin.databinchk_first_mismatch DataBin.mode_o [-1; -1; 3] 3 9); vm_compute; intuition discriminate.
Defined.
