(* ===== verification/Bitmask.v ===== *)
(** * Bit masks: cpuset_lib/libbitmask.c

    A [struct bitmask] is its size in bits and its array of [unsigned long]s.
    The operations take pointers, and two arguments may be the same mask
    ([bitmask_shiftleft(a, a, 2)]), so they act on a heap of masks indexed by
    pointers.  The abstract view of a mask is the set of its bits, [getb]. *)

From S2P Require Import Prelude CInt CMem.
Local Open Scope Z_scope.

Record bitmask : Type := Bitmask { size : Z; maskp : list Z }.

#[global] Instance bitmask_inhabited : Inhabited bitmask := populate (Bitmask 0 []).
#[global] Instance bitmask_eq_dec : EqDecision bitmask.
Proof. solve_decision. Defined.

Definition bitsperlong : Z := 64.
Definition howmany (x y : Z) : Z := (x + (y - 1)) / y.
(** Computed in [unsigned long], so without wrap-around. *)
Definition longsperbits (n : Z) : Z := howmany n bitsperlong.

(** ** Single bits *)

Definition _getbit (bmp : bitmask) (n : Z) : Z :=
  if n <? size bmp then
    Z.land (Z.shiftr (maskp bmp !!! Z.to_nat (n / bitsperlong)) (n mod bitsperlong)) 1
  else 0.

Definition _setbit (bmp : bitmask) (n v : Z) : bitmask :=
  if n <? size bmp then
    let k := Z.to_nat (n / bitsperlong) in
    let w := maskp bmp !!! k in
    let bit := u64 (Z.shiftl 1 (n mod bitsperlong)) in
    Bitmask (size bmp)
      (<[k := if v =? 0 then Z.land w (u64 (Z.lnot bit)) else Z.lor w bit]> (maskp bmp))
  else bmp.

(** [bitmask_alloc]; the arguments say whether [malloc] and [calloc] succeed. *)
Definition bitmask_alloc (malloc_ok calloc_ok : bool) (n : Z) : option bitmask :=
  if malloc_ok then
    if calloc_ok then Some (Bitmask n (replicate (Z.to_nat (longsperbits n)) 0)) else None
  else None.

(** ** The heap *)

Abbreviation loc := positive.
Abbreviation heap := (gmap loc bitmask).

Definition h_setbit (h : heap) (p : loc) (n v : Z) : heap := <[p := _setbit (h !!! p) n v]> h.
Definition h_getbit (h : heap) (p : loc) (n : Z) : Z := _getbit (h !!! p) n.
Definition h_size (h : heap) (p : loc) : Z := size (h !!! p).

(** [for (i = lo; i < hi; i++) _setbit(p, i, f i)], [f] reading the heap. *)
Definition set_each (h : heap) (p : loc) (f : heap → Z → Z) (l : list Z) : heap :=
  foldl (λ h i, h_setbit h p i (f h i)) h l.

Definition upto (lo hi : Z) : list Z := seqZ lo (hi - lo).
Definition downfrom (hi : Z) : list Z := reverse (seqZ 0 (hi + 1)).

(** ** Assignment *)

Definition bitmask_copy (h : heap) (p1 p2 : loc) : heap :=
  set_each h p1 (λ h i, h_getbit h p2 i) (upto 0 (h_size h p1)).
Definition bitmask_setall (h : heap) (p : loc) : heap :=
  set_each h p (λ _ _, 1) (upto 0 (h_size h p)).
Definition bitmask_clearall (h : heap) (p : loc) : heap :=
  set_each h p (λ _ _, 0) (upto 0 (h_size h p)).

(** ** Queries *)

Definition bitmask_nbytes (bmp : bitmask) : Z := u32 (longsperbits (size bmp) * 8).
Definition bitmask_mask (bmp : bitmask) : list Z := maskp bmp.
Definition bitmask_nbits (bmp : bitmask) : Z := size bmp.
Definition bitmask_weight (bmp : bitmask) : Z :=
  foldl (λ w i, if _getbit bmp i =? 0 then w else u32 (w + 1)) 0 (upto 0 (size bmp)).
Definition bitmask_isbitset (bmp : bitmask) (i : Z) : Z := _getbit bmp i.
Definition bitmask_isbitclear (bmp : bitmask) (i : Z) : Z := b2z (_getbit bmp i =? 0).
Definition bitmask_isallset (bmp : bitmask) : Z :=
  b2z (forallb (λ i, negb (_getbit bmp i =? 0)) (upto 0 (size bmp))).
Definition bitmask_isallclear (bmp : bitmask) : Z :=
  b2z (forallb (λ i, _getbit bmp i =? 0) (upto 0 (size bmp))).

(** ** Single bit operations *)

Definition bitmask_setbit (h : heap) (p : loc) (i : Z) : heap := h_setbit h p i 1.
Definition bitmask_clearbit (h : heap) (p : loc) (i : Z) : heap := h_setbit h p i 0.

(** ** Comparisons *)

(** The loop of [bitmask_equal] runs to the larger of the two sizes. *)
Definition bitmask_equal (b1 b2 : bitmask) : Z :=
  b2z (forallb (λ i, _getbit b1 i =? _getbit b2 i) (upto 0 (Z.max (size b1) (size b2)))).
Definition bitmask_subset (b1 b2 : bitmask) : Z :=
  b2z (forallb (λ i, negb (_getbit b2 i <? _getbit b1 i)) (upto 0 (size b1))).
Definition bitmask_disjoint (b1 b2 : bitmask) : Z :=
  b2z (forallb (λ i, Z.land (_getbit b1 i) (_getbit b2 i) =? 0) (upto 0 (size b1))).
Definition bitmask_intersects (b1 b2 : bitmask) : Z :=
  b2z (existsb (λ i, negb (Z.land (_getbit b1 i) (_getbit b2 i) =? 0)) (upto 0 (size b1))).

(** ** Ranges *)

Definition bitmask_setrange (h : heap) (p : loc) (i j : Z) : heap :=
  set_each h p (λ _ _, 1) (upto i j).
Definition bitmask_clearrange (h : heap) (p : loc) (i j : Z) : heap :=
  set_each h p (λ _ _, 0) (upto i j).
Definition bitmask_keeprange (h : heap) (p : loc) (i j : Z) : heap :=
  let h := bitmask_clearrange h p 0 i in bitmask_clearrange h p j (h_size h p).

(** ** Unary and binary operations *)

Definition bitmask_complement (h : heap) (p1 p2 : loc) : heap :=
  set_each h p1 (λ h i, b2z (h_getbit h p2 i =? 0)) (upto 0 (h_size h p1)).
Definition bitmask_shiftright (h : heap) (p1 p2 : loc) (n : Z) : heap :=
  set_each h p1 (λ h i, h_getbit h p2 (u32 (i + n))) (upto 0 (h_size h p1)).
(** The loop index is an [int], the argument [i - n] an [unsigned int]. *)
Definition bitmask_shiftleft (h : heap) (p1 p2 : loc) (n : Z) : heap :=
  set_each h p1 (λ h i, h_getbit h p2 (u32 (i - n))) (downfrom (s32 (h_size h p1 - 1))).
Definition bitmask_and (h : heap) (p1 p2 p3 : loc) : heap :=
  set_each h p1 (λ h i, Z.land (h_getbit h p2 i) (h_getbit h p3 i)) (upto 0 (h_size h p1)).
Definition bitmask_andnot (h : heap) (p1 p2 p3 : loc) : heap :=
  set_each h p1 (λ h i, Z.land (h_getbit h p2 i) (u32 (Z.lnot (h_getbit h p3 i))))
    (upto 0 (h_size h p1)).
Definition bitmask_or (h : heap) (p1 p2 p3 : loc) : heap :=
  set_each h p1 (λ h i, Z.lor (h_getbit h p2 i) (h_getbit h p3 i)) (upto 0 (h_size h p1)).
Definition bitmask_eor (h : heap) (p1 p2 p3 : loc) : heap :=
  set_each h p1 (λ h i, Z.lxor (h_getbit h p2 i) (h_getbit h p3 i)) (upto 0 (h_size h p1)).

(** ** Iteration *)

(** The search of [bitmask_next], [k] bits left to look at. *)
Fixpoint next_loop (k : nat) (bmp : bitmask) (n : Z) : Z :=
  match k with
  | O => n
  | S k => if _getbit bmp n =? 0 then next_loop k bmp (n + 1) else n
  end.
Definition bitmask_next (bmp : bitmask) (i : Z) : Z := next_loop (Z.to_nat (size bmp - i)) bmp i.
Definition bitmask_first (bmp : bitmask) : Z := bitmask_next bmp 0.

Fixpoint rel_to_abs_loop (k : nat) (bmp : bitmask) (i n : Z) : Z :=
  match k with
  | O => i
  | S k =>
      if _getbit bmp i =? 0 then rel_to_abs_loop k bmp (i + 1) n
      else if n =? 0 then i else rel_to_abs_loop k bmp (i + 1) (u32 (n - 1))
  end.
Definition bitmask_rel_to_abs_pos (bmp : bitmask) (n : Z) : Z :=
  rel_to_abs_loop (Z.to_nat (size bmp)) bmp 0 n.

Definition bitmask_abs_to_rel_pos (bmp : bitmask) (n : Z) : Z :=
  if _getbit bmp n =? 0 then size bmp
  else foldl (λ w i, if _getbit bmp i =? 0 then w else u32 (w + 1)) 0 (upto 0 n).

Definition bitmask_last (bmp : bitmask) : Z :=
  foldl (λ m i, if _getbit bmp i =? 0 then m else i) (size bmp) (upto 0 (size bmp)).

(** ** Invariant and abstract view *)

(** The representation invariant of a mask. *)
Definition wf (b : bitmask) : Prop :=
  0 ≤ size b < 2 ^ 32 ∧ zlength (maskp b) = longsperbits (size b) ∧
  Forall (λ w, 0 ≤ w < 2 ^ 64) (maskp b).

(** Bit [i] of a mask as a truth value. *)
Definition getb (b : bitmask) (i : Z) : bool := negb (_getbit b i =? 0).

(** *** Bits of machine words *)

Lemma land1_b2z a : Z.land a 1 = Z.b2z (Z.testbit a 0).
Proof. change 1 with (Z.ones 1) at 1. rewrite Z.land_ones by lia. symmetry. apply Z.bit0_mod. Qed.

Lemma u64_pow2 k : 0 ≤ k < 64 → u64 (Z.shiftl 1 k) = 2 ^ k.
Proof.
  intros. rewrite Z.shiftl_1_l. apply wrap_u_id. split; [apply Z.pow_nonneg; lia|].
  apply Z.pow_lt_mono_r; lia.
Qed.

Lemma u64_testbit z j : 0 ≤ j < 64 → Z.testbit (u64 z) j = Z.testbit z j.
Proof. intros. apply Z.mod_pow2_bits_low. lia. Qed.

Lemma u64_land_bound a b : 0 ≤ a < 2 ^ 64 → 0 ≤ Z.land a (u64 b) < 2 ^ 64.
Proof.
  intros. pose proof (u64_range b).
  assert (0 ≤ Z.land a (u64 b)) by (apply Z.land_nonneg; lia). split; [done|].
  apply Z.le_lt_trans with a; [|lia].
  apply Z.ldiff_le; [lia|]. apply Z.bits_inj'. intros n Hn.
  rewrite Z.ldiff_spec, Z.land_spec, Z.bits_0. by destruct (Z.testbit a n), (Z.testbit (u64 b) n).
Qed.

Lemma lor_bound a b k : 0 ≤ k → 0 ≤ a < 2 ^ k → 0 ≤ b < 2 ^ k → 0 ≤ Z.lor a b < 2 ^ k.
Proof.
  intros Hk Ha Hb. split; [apply Z.lor_nonneg; lia|].
  destruct (decide (Z.lor a b = 0)) as [->|]; [lia|].
  assert (0 ≤ Z.lor a b) by (apply Z.lor_nonneg; lia).
  apply Z.log2_lt_pow2; [lia|]. rewrite Z.log2_lor by lia.
  apply Z.max_lub_lt.
  - destruct (decide (a = 0)) as [->|]; [destruct (decide (k = 0)) as [->|]; [|simpl; lia]|apply Z.log2_lt_pow2; lia].
    assert (b = 0) by lia. by subst.
  - destruct (decide (b = 0)) as [->|]; [destruct (decide (k = 0)) as [->|]; [|simpl; lia]|apply Z.log2_lt_pow2; lia].
    assert (a = 0) by lia. by subst.
Qed.

(** *** Reading and writing one bit *)

(** No access of a well-formed mask is outside its array. *)
Lemma word_in_range b n : wf b → 0 ≤ n < size b → (Z.to_nat (n / bitsperlong) < length (maskp b))%nat.
Proof. intros (? & Hl & _) ?. unfold longsperbits, howmany, bitsperlong in *. zlia. Qed.

Lemma _getbit_testbit b n :
  _getbit b n = Z.b2z ((n <? size b) && Z.testbit (maskp b !!! Z.to_nat (n / 64)) (n mod 64)).
Proof.
  unfold _getbit, bitsperlong. destruct (n <? size b); [|done].
  rewrite land1_b2z, Z.shiftr_spec by lia. done.
Qed.

Lemma getb_testbit b n :
  getb b n = (n <? size b) && Z.testbit (maskp b !!! Z.to_nat (n / 64)) (n mod 64).
Proof. unfold getb. rewrite _getbit_testbit. by destruct (_ && _). Qed.

Lemma _getbit_getb b n : _getbit b n = Z.b2z (getb b n).
Proof. by rewrite getb_testbit, _getbit_testbit. Qed.

Lemma getb_ge b n : size b ≤ n → getb b n = false.
Proof. intros. rewrite getb_testbit, (proj2 (Z.ltb_ge _ _)) by lia. done. Qed.

Lemma size_setbit b n v : size (_setbit b n v) = size b.
Proof. unfold _setbit. by case_if. Qed.

Lemma wf_setbit b n v : wf b → 0 ≤ n → wf (_setbit b n v).
Proof.
  intros Hwf Hn. pose proof Hwf as (Hs & Hl & Hw). unfold _setbit. case_if; [|done].
  pose proof (word_in_range b n Hwf ltac:(lia)) as Hr.
  assert (0 ≤ maskp b !!! Z.to_nat (n / bitsperlong) < 2 ^ 64).
  { rewrite Forall_forall in Hw. apply Hw. by apply list_elem_of_lookup_total_2. }
  split; [done|]. simpl. split; [by rewrite length_insert|].
  apply Forall_insert; [done|]. case_if; [by apply u64_land_bound|].
  apply lor_bound; [lia|done|]. apply u64_range.
Qed.

(** [_setbit] changes the bit it names and no other. *)
Lemma getb_setbit b n v i :
  wf b → 0 ≤ n → 0 ≤ i →
  getb (_setbit b n v) i = if decide (i = n ∧ n < size b) then negb (v =? 0) else getb b i.
Proof.
  intros Hwf Hn Hi. rewrite !getb_testbit, size_setbit. unfold _setbit.
  destruct (n <? size b) eqn:En; bool_hyps; [|rewrite decide_False by lia; done].
  pose proof (word_in_range b n Hwf ltac:(lia)) as Hr. unfold bitsperlong in *. simpl.
  pose proof (Z.mod_pos_bound n 64 ltac:(lia)). pose proof (Z.mod_pos_bound i 64 ltac:(lia)).
  rewrite u64_pow2 by lia.
  destruct (decide (i / 64 = n / 64)) as [Hd|Hd].
  - rewrite Hd, list_lookup_total_insert_eq by done.
    assert (Hin : i = n ↔ i mod 64 = n mod 64) by zlia.
    assert (Hbit : Z.testbit (2 ^ (n mod 64)) (i mod 64) = bool_decide (i = n)).
    { rewrite Z.pow2_bits_eqb by lia. rewrite (bool_decide_ext _ _ Hin).
      case_bool_decide as Hx; [rewrite Hx; by apply Z.eqb_refl|by apply Z.eqb_neq]. }
    destruct (v =? 0); [rewrite Z.land_spec, u64_testbit, Z.lnot_spec, Hbit by lia|rewrite Z.lor_spec, Hbit].
    all: case_bool_decide as Hc; [rewrite decide_True by lia|rewrite decide_False by lia]; subst.
    all: rewrite ?andb_true_r, ?orb_true_r, ?orb_false_r, ?andb_false_r; try done.
    by rewrite (proj2 (Z.ltb_lt _ _)) by lia.
  - rewrite decide_False by (intros [-> _]; done).
    rewrite list_lookup_total_insert_ne; [done|]. zlia.
Qed.

Lemma wf_alloc n : 0 ≤ n < 2 ^ 32 → wf (Bitmask n (replicate (Z.to_nat (longsperbits n)) 0)).
Proof.
  intros. split; [done|]. simpl. split.
  - rewrite length_replicate. unfold longsperbits, howmany, bitsperlong. zlia.
  - apply Forall_replicate. lia.
Qed.

(** Two well-formed masks of one size with the same bits are equal as far as
    every query can tell. *)
Definition same_bits (b1 b2 : bitmask) : Prop := ∀ i, 0 ≤ i → getb b1 i = getb b2 i.
#[global] Instance same_bits_equiv : Equivalence same_bits.
Proof. split; red; unfold same_bits; intros; [done|symmetry; auto|etrans; eauto]. Qed.

(** *** Loops of [_setbit] *)

Definition hwf (h : heap) : Prop := ∀ p : loc, wf (h !!! p).

(** [h'] is [h] with the bits of [p] selected by [sel] replaced by those of
    [g]; everything else is as in [h]. *)
Record updated (h h' : heap) (p : loc) (sel : Z → Prop) (g : Z → bool) : Prop := {
  upd_wf : hwf h';
  upd_other q : q ≠ p → h' !!! q = h !!! q;
  upd_size : h_size h' p = h_size h p;
  upd_in i : 0 ≤ i < h_size h p → sel i → getb (h' !!! p) i = g i;
  upd_out i : 0 ≤ i → ¬ sel i → getb (h' !!! p) i = getb (h !!! p) i
}.

Lemma hwf_setbit h p n v : hwf h → 0 ≤ n → hwf (h_setbit h p n v).
Proof.
  intros Hh Hn q. unfold h_setbit. destruct (decide (p = q)) as [->|].
  - rewrite lookup_total_insert_eq. apply wf_setbit; [apply Hh|done].
  - rewrite lookup_total_insert_ne by done. apply Hh.
Qed.

Lemma size_all h h' p sel g q : updated h h' p sel g → h_size h' q = h_size h q.
Proof.
  intros Hu. destruct (decide (q = p)) as [->|]; [by apply (upd_size _ _ _ _ _ Hu)|].
  unfold h_size. by rewrite (upd_other _ _ _ _ _ Hu).
Qed.

(** A bit not selected reads as before, in any mask. *)
Lemma updated_get h h' p sel g q i :
  updated h h' p sel g → 0 ≤ i → ¬ sel i → getb (h' !!! q) i = getb (h !!! q) i.
Proof.
  intros Hu Hi Hs. destruct (decide (q = p)) as [->|]; [by apply (upd_out _ _ _ _ _ Hu)|].
  by rewrite (upd_other _ _ _ _ _ Hu).
Qed.

(** The loop rule: when at each index the stored value is [g i], whatever the
    bits already stored, the loop stores [g] at all its indices. *)
Lemma set_each_spec h p f l g :
  hwf h → NoDup l → (∀ i, i ∈ l → 0 ≤ i) →
  (∀ h' l1 i l2, l = l1 ++ i :: l2 → updated h h' p (.∈ l1) g → negb (f h' i =? 0) = g i) →
  updated h (set_each h p f l) p (.∈ l) g.
Proof.
  intros Hh. induction l as [|i l IH] using rev_ind; intros Hnd Hpos Hf.
  - split; simpl; try done. intros i ? Hin. by apply not_elem_of_nil in Hin.
  - apply NoDup_app in Hnd as (Hnd & Hdis & _).
    assert (Hu : updated h (set_each h p f l) p (.∈ l) g).
    { apply IH; [done|intros j Hj; apply Hpos; set_solver|].
      intros h' l1 j l2 -> Hu. apply (Hf _ l1 j (l2 ++ [i])); [|done]. by rewrite <- app_assoc. }
    pose proof (Hf _ l i [] eq_refl Hu) as Hfi. unfold set_each in *. rewrite foldl_snoc.
    set (h' := foldl _ h l) in *.
    assert (Hi : 0 ≤ i) by (apply Hpos; set_solver).
    assert (Hget : ∀ j, 0 ≤ j → getb (h_setbit h' p i (f h' i) !!! p) j =
              if decide (j = i ∧ i < size (h' !!! p)) then g i else getb (h' !!! p) j).
    { intros j Hj. unfold h_setbit. rewrite lookup_total_insert_eq, getb_setbit, Hfi; [done| |done|done].
      apply (upd_wf _ _ _ _ _ Hu). }
    pose proof (upd_size _ _ _ _ _ Hu) as Hs. unfold h_size in *.
    split.
    + apply hwf_setbit; [apply (upd_wf _ _ _ _ _ Hu)|done].
    + intros q Hq. unfold h_setbit. rewrite lookup_total_insert_ne by done. by apply (upd_other _ _ _ _ _ Hu).
    + unfold h_size, h_setbit. by rewrite lookup_total_insert_eq, size_setbit.
    + intros j Hj Hin. unfold h_size in Hj. rewrite Hget by lia.
      destruct (decide (j = i)) as [->|Hne]; [rewrite decide_True by lia; done|].
      rewrite decide_False by tauto. apply (upd_in _ _ _ _ _ Hu); [done|set_solver].
    + intros j Hj Hin. rewrite Hget by lia. rewrite decide_False by set_solver.
      apply (upd_out _ _ _ _ _ Hu); [done|set_solver].
Qed.

(** Indices before [i] in an upward loop are smaller, in a downward one larger. *)
Lemma seqZ_before m n l1 (i : Z) l2 : seqZ m n = l1 ++ i :: l2 →
  (∀ j, j ∈ l1 → j < i) ∧ (∀ j, j ∈ l2 → i < j).
Proof.
  intros Heq. assert (Hlk : ∀ k j, (l1 ++ i :: l2) !! k = Some j → j = m + Z.of_nat k).
  { intros k j. rewrite <- Heq. intros Hk%lookup_seqZ. lia. }
  pose proof (Hlk (length l1) i (list_lookup_middle _ _ _ _ eq_refl)) as Hi. split.
  - intros j [k Hk]%list_elem_of_lookup. pose proof (lookup_lt_Some _ _ _ Hk).
    specialize (Hlk k j). rewrite lookup_app_l in Hlk by done. specialize (Hlk Hk). lia.
  - intros j [k Hk]%list_elem_of_lookup. specialize (Hlk (length l1 + S k)%nat j).
    rewrite lookup_app_r in Hlk by lia.
    replace (length l1 + S k - length l1)%nat with (S k) in Hlk by lia. specialize (Hlk Hk). lia.
Qed.

Lemma elem_of_upto lo hi i : i ∈ upto lo hi ↔ lo ≤ i < hi.
Proof. unfold upto. rewrite elem_of_seqZ. lia. Qed.

Lemma elem_of_downfrom hi i : i ∈ downfrom hi ↔ 0 ≤ i ≤ hi.
Proof. unfold downfrom. rewrite elem_of_reverse, elem_of_seqZ. lia. Qed.

Lemma upto_nodup lo hi : NoDup (upto lo hi).
Proof. apply NoDup_seqZ. Qed.

Lemma downfrom_nodup hi : NoDup (downfrom hi).
Proof. unfold downfrom. rewrite reverse_Permutation. apply NoDup_seqZ. Qed.

Lemma upto_before lo hi l1 i l2 : upto lo hi = l1 ++ i :: l2 → ∀ j, j ∈ l1 → j < i.
Proof. intros H%seqZ_before. apply H. Qed.

Lemma downfrom_before hi l1 i l2 : downfrom hi = l1 ++ i :: l2 → ∀ j, j ∈ l1 → i < j.
Proof.
  unfold downfrom. intros H j Hj. apply (f_equal reverse) in H.
  rewrite reverse_involutive, reverse_app, reverse_cons, <- app_assoc in H.
  apply seqZ_before in H as [_ H]. apply H. by rewrite elem_of_reverse.
Qed.

(** [p1] gets the bits of [g] below its size; all other masks are untouched. *)
Definition assigned (h h' : heap) (p : loc) (g : Z → bool) : Prop :=
  hwf h' ∧ (∀ q, q ≠ p → h' !!! q = h !!! q) ∧ h_size h' p = h_size h p ∧
  ∀ i, 0 ≤ i → getb (h' !!! p) i = (i <? h_size h p) && g i.

Lemma updated_assigned h h' p (l : list Z) g :
  updated h h' p (.∈ l) g → (∀ i, 0 ≤ i < h_size h p → i ∈ l) → assigned h h' p g.
Proof.
  intros Hu Hl. split; [apply (upd_wf _ _ _ _ _ Hu)|].
  split; [apply (upd_other _ _ _ _ _ Hu)|]. split; [apply (upd_size _ _ _ _ _ Hu)|].
  intros i Hi. destruct (i <? h_size h p) eqn:E; bool_hyps; simpl.
  - apply (upd_in _ _ _ _ _ Hu); [lia|]. apply Hl. lia.
  - apply getb_ge. pose proof (upd_size _ _ _ _ _ Hu). unfold h_size in *. lia.
Qed.

(** The rule for [for (i = 0; i < size; i++) _setbit(p, i, f(i))] where [f] reads
    bits at [i] or above. *)
Lemma assign_up h p f g :
  hwf h →
  (∀ h' i, 0 ≤ i < h_size h p → updated h h' p (λ j, j < i) g → negb (f h' i =? 0) = g i) →
  assigned h (set_each h p f (upto 0 (h_size h p))) p g.
Proof.
  intros Hh Hf. apply (updated_assigned _ _ _ (upto 0 (h_size h p))).
  - apply set_each_spec; [done|apply upto_nodup|intros i; rewrite elem_of_upto; lia|].
    intros h' l1 i l2 Heq Hu.
    assert (Hin : 0 ≤ i < h_size h p).
    { rewrite <- elem_of_upto, Heq. set_solver. }
    assert (Hl1 : ∀ j, 0 ≤ j → j ∈ l1 ↔ j < i).
    { intros j Hj. split; [by eapply upto_before|]. intros Hlt.
      assert (Hj' : j ∈ upto 0 (h_size h p)) by (apply elem_of_upto; lia).
      rewrite Heq in Hj'. apply elem_of_app in Hj' as [?|[->|Hj']%elem_of_cons]; [done|lia|].
      apply seqZ_before in Heq as [_ Heq]. specialize (Heq j Hj'). lia. }
    apply Hf; [done|]. destruct Hu as [H1 H2 H3 H4 H5]. split; try done.
    + intros j ? ?. apply H4; [done|]. apply Hl1; [lia|done].
    + intros j ? Hn. apply H5; [done|]. rewrite Hl1 by done. done.
  - intros i. by rewrite elem_of_upto.
Qed.

(** The rule for the downward loop of [bitmask_shiftleft], whose [f] reads bits
    at [i] or below. *)
Lemma assign_down h p f g :
  hwf h → h_size h p ≤ 2 ^ 31 →
  (∀ h' i, 0 ≤ i < h_size h p → updated h h' p (λ j, i < j < h_size h p) g →
     negb (f h' i =? 0) = g i) →
  assigned h (set_each h p f (downfrom (s32 (h_size h p - 1)))) p g.
Proof.
  intros Hh Hsz Hf. pose proof (Hh p) as (Hs & _). fold (h_size h p) in Hs.
  rewrite s32_id by lia.
  apply (updated_assigned _ _ _ (downfrom (h_size h p - 1))).
  - apply set_each_spec; [done|apply downfrom_nodup|intros i; rewrite elem_of_downfrom; lia|].
    intros h' l1 i l2 Heq Hu.
    assert (Hin : 0 ≤ i ≤ h_size h p - 1).
    { rewrite <- elem_of_downfrom, Heq. set_solver. }
    assert (Hl1 : ∀ j, j ∈ l1 ↔ i < j < h_size h p).
    { intros j. split.
      - intros Hj. split; [by eapply downfrom_before|].
        assert (Hj' : j ∈ downfrom (h_size h p - 1)) by (rewrite Heq; set_solver).
        apply elem_of_downfrom in Hj'. lia.
      - intros Hj. assert (Hj' : j ∈ downfrom (h_size h p - 1)) by (apply elem_of_downfrom; lia).
        rewrite Heq in Hj'. apply elem_of_app in Hj' as [?|[->|Hj']%elem_of_cons]; [done|lia|].
        apply (f_equal reverse) in Heq. unfold downfrom in Heq.
        rewrite reverse_involutive, reverse_app, reverse_cons, <- app_assoc in Heq.
        apply seqZ_before in Heq as [Heq _]. specialize (Heq j). rewrite elem_of_reverse in Heq.
        specialize (Heq Hj'). lia. }
    apply Hf; [lia|]. destruct Hu as [H1 H2 H3 H4 H5]. split; try done.
    + intros j ? ?. apply H4; [done|]. by apply Hl1.
    + intros j ? Hn. apply H5; [done|]. by rewrite Hl1.
  - intros i. rewrite elem_of_downfrom. lia.
Qed.

(** *** The operations *)

(** A bit computed from the bits [i] of two masks. *)
Lemma assign_pointwise h p1 p2 p3 (op : Z → Z → Z) (bop : bool → bool → bool) :
  hwf h → (∀ x y, negb (op (Z.b2z x) (Z.b2z y) =? 0) = bop x y) →
  assigned h (set_each h p1 (λ h i, op (h_getbit h p2 i) (h_getbit h p3 i)) (upto 0 (h_size h p1)))
    p1 (λ i, bop (getb (h !!! p2) i) (getb (h !!! p3) i)).
Proof.
  intros Hh Hop. apply assign_up; [done|]. intros h' i Hi Hu. unfold h_getbit.
  rewrite !_getbit_getb, Hop.
  rewrite !(updated_get _ _ _ _ _ _ _ Hu) by lia. done.
Qed.

(** Shifting right reads at or above the bit written, so it may be done in
    place. *)
Lemma shiftright_assigned h p1 p2 n :
  hwf h → 0 ≤ n → n + h_size h p1 ≤ 2 ^ 32 →
  assigned h (bitmask_shiftright h p1 p2 n) p1 (λ i, getb (h !!! p2) (i + n)).
Proof.
  intros Hh Hn Hb. apply assign_up; [done|]. intros h' i Hi Hu. unfold h_getbit.
  rewrite u32_id by lia. rewrite _getbit_getb.
  rewrite (updated_get _ _ _ _ _ _ _ Hu) by lia. by destruct (getb _ _).
Qed.

(** Shifting left goes downwards and reads at or below the bit written. *)
Lemma shiftleft_assigned h p1 p2 n :
  hwf h → 0 ≤ n → h_size h p1 ≤ 2 ^ 31 → n + h_size h p2 ≤ 2 ^ 32 →
  assigned h (bitmask_shiftleft h p1 p2 n) p1 (λ i, (n <=? i) && getb (h !!! p2) (i - n)).
Proof.
  intros Hh Hn Hs1 Hs2. apply assign_down; [done|done|]. intros h' i Hi Hu. unfold h_getbit.
  rewrite _getbit_getb. destruct (n <=? i) eqn:E; bool_hyps; simpl.
  - rewrite u32_id by lia. rewrite (updated_get _ _ _ _ _ _ _ Hu) by lia. by destruct (getb _ _).
  - replace (u32 (i - n)) with (2 ^ 32 + i - n).
    + rewrite getb_ge; [done|]. pose proof (size_all _ _ _ _ _ p2 Hu). unfold h_size in *. lia.
    + pose proof (Hh p2) as ((Hp & _) & _). fold (h_size h p2) in Hp. unfold u32, wrap_u.
      rewrite <- (Z_mod_plus_full (i - n) 1), Z.mod_small; lia.
Qed.

Lemma complement_assigned h p1 p2 :
  hwf h → assigned h (bitmask_complement h p1 p2) p1 (λ i, negb (getb (h !!! p2) i)).
Proof.
  intros Hh. apply (assign_pointwise h p1 p2 p2 (λ x _, b2z (x =? 0)) (λ x _, negb x)); [done|].
  by intros [] [].
Qed.

Lemma and_assigned h p1 p2 p3 :
  hwf h → assigned h (bitmask_and h p1 p2 p3) p1 (λ i, getb (h !!! p2) i && getb (h !!! p3) i).
Proof. intros Hh. apply (assign_pointwise h p1 p2 p3 Z.land andb); [done|]. by intros [] []. Qed.

Lemma or_assigned h p1 p2 p3 :
  hwf h → assigned h (bitmask_or h p1 p2 p3) p1 (λ i, getb (h !!! p2) i || getb (h !!! p3) i).
Proof. intros Hh. apply (assign_pointwise h p1 p2 p3 Z.lor orb); [done|]. by intros [] []. Qed.

Lemma andnot_assigned h p1 p2 p3 :
  hwf h →
  assigned h (bitmask_andnot h p1 p2 p3) p1 (λ i, getb (h !!! p2) i && negb (getb (h !!! p3) i)).
Proof.
  intros Hh. apply (assign_pointwise h p1 p2 p3 (λ x y, Z.land x (u32 (Z.lnot y))) (λ x y, x && negb y));
    [done|]. by intros [] [].
Qed.

Lemma eor_assigned h p1 p2 p3 :
  hwf h → assigned h (bitmask_eor h p1 p2 p3) p1 (λ i, xorb (getb (h !!! p2) i) (getb (h !!! p3) i)).
Proof. intros Hh. apply (assign_pointwise h p1 p2 p3 Z.lxor xorb); [done|]. by intros [] []. Qed.

Lemma copy_assigned h p1 p2 :
  hwf h → assigned h (bitmask_copy h p1 p2) p1 (λ i, getb (h !!! p2) i).
Proof.
  intros Hh. apply (assign_pointwise h p1 p2 p2 (λ x _, x) (λ x _, x)); [done|]. by intros [] [].
Qed.

Lemma clearall_assigned h p : hwf h → assigned h (bitmask_clearall h p) p (λ _, false).
Proof. intros Hh. by apply assign_up. Qed.

Lemma setall_assigned h p : hwf h → assigned h (bitmask_setall h p) p (λ _, true).
Proof. intros Hh. by apply assign_up. Qed.

Lemma range_updated h p i j (v : bool) :
  hwf h → 0 ≤ i →
  updated h (set_each h p (λ _ _, b2z v) (upto i j)) p (λ k, i ≤ k < j) (λ _, v).
Proof.
  intros Hh Hi. assert (Hu : updated h (set_each h p (λ _ _, b2z v) (upto i j)) p (.∈ upto i j) (λ _, v)).
  { apply set_each_spec; [done|apply upto_nodup|intros k; rewrite elem_of_upto; lia|]. by destruct v. }
  destruct Hu as [H1 H2 H3 H4 H5]. split; try done.
  - intros k ? ?. apply H4; [done|]. by apply elem_of_upto.
  - intros k ? Hn. apply H5; [done|]. by rewrite elem_of_upto.
Qed.

Lemma hwf_empty : hwf ∅.
Proof. intros p. rewrite lookup_total_empty. split; simpl; [lia|]. split; [done|constructor]. Qed.

Lemma hwf_insert h p b : hwf h → wf b → hwf (<[p := b]> h).
Proof.
  intros Hh Hb q. destruct (decide (p = q)) as [->|].
  - by rewrite lookup_total_insert_eq.
  - by rewrite lookup_total_insert_ne.
Qed.

(** *** Counting bits *)

(** The number of bits set below [i]. *)
Definition rank (b : bitmask) (i : Z) : Z := zlength (filter (λ j, getb b j) (upto 0 i)).

Lemma upto_succ i : 0 ≤ i → upto 0 (i + 1) = upto 0 i ++ [i].
Proof.
  intros. unfold upto. rewrite !Z.sub_0_r. rewrite seqZ_app by lia. done.
Qed.

Lemma upto_nil lo : upto lo lo = [].
Proof. unfold upto. by rewrite Z.sub_diag. Qed.

Lemma rank_succ b i : 0 ≤ i → rank b (i + 1) = rank b i + Z.b2z (getb b i).
Proof.
  intros. unfold rank. rewrite upto_succ, filter_app, length_app by done.
  rewrite filter_cons, filter_nil.
  destruct (getb b i); [rewrite decide_True by done|rewrite decide_False by auto]; simpl; lia.
Qed.

Lemma rank_bounds b i : 0 ≤ i → 0 ≤ rank b i ≤ i.
Proof.
  intros. unfold rank. pose proof (length_filter (λ j, getb b j) (upto 0 i)).
  unfold upto in *. rewrite length_seqZ in H0. lia.
Qed.

Lemma rank_mono b i j : 0 ≤ i → i ≤ j → rank b i ≤ rank b j.
Proof.
  intros Hi. revert j. apply (Zlt_lower_bound_ind _ i). intros j IH Hj.
  destruct (decide (i = j)) as [->|]; [lia|]. specialize (IH (j - 1) ltac:(lia)).
  pose proof (rank_succ b (j - 1) ltac:(lia)) as Hr. rewrite Z.sub_add in Hr.
  destruct (getb b (j - 1)); simpl in Hr; lia.
Qed.

Lemma rank_lt b i j : 0 ≤ i < j → getb b i → rank b i < rank b j.
Proof.
  intros Hi Hb. pose proof (rank_mono b (i + 1) j ltac:(lia) ltac:(lia)).
  rewrite rank_succ in H by lia. destruct (getb b i); [simpl in H; lia|done].
Qed.

(** The counting loops of [bitmask_weight] and [bitmask_abs_to_rel_pos]. *)
Lemma count_loop b i :
  0 ≤ i < 2 ^ 32 →
  foldl (λ w i, if _getbit b i =? 0 then w else u32 (w + 1)) 0 (upto 0 i) = rank b i.
Proof.
  intros Hi. assert (Hle : i < 2 ^ 32) by lia. revert Hle. destruct Hi as [Hi _].
  pattern i. revert i Hi. apply natlike_ind.
  - intros _. unfold rank. by rewrite upto_nil.
  - intros i Hi IH Hle. rewrite <- Z.add_1_r, upto_succ, foldl_snoc, rank_succ by done.
    rewrite IH by lia. pose proof (rank_bounds b i Hi). rewrite _getbit_getb.
    destruct (getb b i); simpl; [|lia]. apply u32_id. lia.
Qed.

Lemma weight_rank b : wf b → bitmask_weight b = rank b (size b).
Proof. intros (? & _). apply count_loop. lia. Qed.

Lemma abs_to_rel_rank b i :
  wf b → 0 ≤ i < size b → getb b i → bitmask_abs_to_rel_pos b i = rank b i.
Proof.
  intros (? & _) Hi Hb. unfold bitmask_abs_to_rel_pos. rewrite _getbit_getb.
  destruct (getb b i); [|done]. apply count_loop. lia.
Qed.

(** From [i] with [n] set bits to skip, the loop of [bitmask_rel_to_abs_pos] ends
    at the bit whose rank is [n] more, or at the end. *)
Lemma rel_to_abs_loop_spec b k i n :
  0 ≤ i → 0 ≤ n < 2 ^ 32 → i + Z.of_nat k = size b →
  let r := rel_to_abs_loop k b i n in
  if decide (n < rank b (size b) - rank b i)
  then i ≤ r < size b ∧ getb b r ∧ rank b r = rank b i + n
  else r = size b.
Proof.
  revert i n. induction k as [|k IH]; intros i n Hi Hn Hs; simpl.
  - replace (size b) with i by lia. rewrite Z.sub_diag, decide_False by lia. done.
  - pose proof (rank_succ b i Hi) as Hr. rewrite _getbit_getb.
    pose proof (rank_mono b (i + 1) (size b) ltac:(lia) ltac:(lia)) as Hm.
    destruct (getb b i) eqn:E; simpl in *.
    + destruct (n =? 0) eqn:E0; bool_hyps.
      * rewrite decide_True by lia. subst n. rewrite E. split_and!; try done; lia.
      * rewrite (u32_id (n - 1)) by lia. specialize (IH (i + 1) (n - 1) ltac:(lia) ltac:(lia) ltac:(lia)).
        simpl in IH. destruct (decide (n < rank b (size b) - rank b i)).
        -- rewrite decide_True in IH by lia. destruct IH as (? & ? & ?). split_and!; try done; lia.
        -- by rewrite decide_False in IH by lia.
    + specialize (IH (i + 1) n ltac:(lia) ltac:(lia) ltac:(lia)). simpl in IH.
      rewrite Hr, Z.add_0_r in IH. destruct (decide _); [|done].
      destruct IH as (? & ? & ?). split_and!; try done; lia.
Qed.

Lemma rel_to_abs_spec b n :
  wf b → 0 ≤ n < 2 ^ 32 →
  let r := bitmask_rel_to_abs_pos b n in
  if decide (n < bitmask_weight b) then 0 ≤ r < size b ∧ getb b r ∧ rank b r = n
  else r = size b.
Proof.
  intros Hwf Hn. rewrite weight_rank by done. destruct Hwf as ((? & _) & _).
  pose proof (rel_to_abs_loop_spec b (Z.to_nat (size b)) 0 n ltac:(lia) Hn ltac:(lia)) as Hl.
  assert (Hr0 : rank b 0 = 0) by (unfold rank; by rewrite upto_nil).
  rewrite Hr0, Z.sub_0_r in Hl. exact Hl.
Qed.

(** *** Comparisons as statements about bits *)

Lemma forallb_upto f n : forallb f (upto 0 n) ↔ ∀ i, 0 ≤ i < n → f i.
Proof.
  rewrite Is_true_true, forallb_forall. split.
  - intros H i Hi. apply Is_true_true, H, list_elem_of_In, elem_of_upto. lia.
  - intros H i Hi. apply Is_true_true, H. by apply list_elem_of_In, elem_of_upto in Hi.
Qed.

Lemma equal_spec b1 b2 : 0 ≤ size b1 → 0 ≤ size b2 → bitmask_equal b1 b2 = 1 ↔ same_bits b1 b2.
Proof.
  intros. unfold bitmask_equal. trans (Is_true (forallb (λ i, _getbit b1 i =? _getbit b2 i)
    (upto 0 (Z.max (size b1) (size b2))))); [by destruct (forallb _ _)|].
  rewrite forallb_upto. split; intros Hb i Hi.
  - destruct (decide (i < Z.max (size b1) (size b2))).
    + specialize (Hb i ltac:(lia)). rewrite !_getbit_getb in Hb.
      by destruct (getb b1 i), (getb b2 i).
    + by rewrite !getb_ge by lia.
  - rewrite !_getbit_getb, Hb by lia. by rewrite Z.eqb_refl.
Qed.

Lemma subset_spec b1 b2 : bitmask_subset b1 b2 = 1 ↔ ∀ i, 0 ≤ i → getb b1 i → getb b2 i.
Proof.
  unfold bitmask_subset. trans (Is_true (forallb (λ i, negb (_getbit b2 i <? _getbit b1 i))
    (upto 0 (size b1)))); [by destruct (forallb _ _)|].
  rewrite forallb_upto. split; intros Hb i Hi.
  - destruct (decide (i < size b1)); [|by rewrite getb_ge by lia].
    specialize (Hb i ltac:(lia)). rewrite !_getbit_getb in Hb. by destruct (getb b1 i), (getb b2 i).
  - specialize (Hb i ltac:(lia)). rewrite !_getbit_getb. destruct (getb b1 i), (getb b2 i); naive_solver.
Qed.

Lemma disjoint_spec b1 b2 :
  bitmask_disjoint b1 b2 = 1 ↔ ∀ i, 0 ≤ i → ¬ (getb b1 i ∧ getb b2 i).
Proof.
  unfold bitmask_disjoint. trans (Is_true (forallb (λ i, Z.land (_getbit b1 i) (_getbit b2 i) =? 0)
    (upto 0 (size b1)))); [by destruct (forallb _ _)|].
  rewrite forallb_upto. split; intros Hb i Hi.
  - destruct (decide (i < size b1)); [|by rewrite getb_ge by lia; intros []].
    specialize (Hb i ltac:(lia)). rewrite !_getbit_getb in Hb.
    destruct (getb b1 i), (getb b2 i); naive_solver.
  - specialize (Hb i ltac:(lia)). rewrite !_getbit_getb. destruct (getb b1 i), (getb b2 i); naive_solver.
Qed.

Lemma existsb_negb {A} (f : A → bool) l : existsb (λ x, negb (f x)) l = negb (forallb f l).
Proof. induction l as [|x l IH]; simpl; [done|]. rewrite IH. by destruct (f x). Qed.

Lemma intersects_disjoint b1 b2 : bitmask_intersects b1 b2 = 1 - bitmask_disjoint b1 b2.
Proof.
  unfold bitmask_intersects, bitmask_disjoint. rewrite existsb_negb. by destruct (forallb _ _).
Qed.

(** ** Properties *)

(** C37: The binary and unary operations of the library compute the Boolean
    operation bit by bit into the first mask, truncated to its size, and leave
    every other mask alone, for every choice of the three pointers: the result
    may be one of the operands, and the operands may have different sizes. *)
Theorem bitmask_ops_spec h p1 p2 p3 (Hh : hwf h) :
  assigned h (bitmask_and h p1 p2 p3) p1 (λ i, getb (h !!! p2) i && getb (h !!! p3) i) ∧
  assigned h (bitmask_or h p1 p2 p3) p1 (λ i, getb (h !!! p2) i || getb (h !!! p3) i) ∧
  assigned h (bitmask_andnot h p1 p2 p3) p1 (λ i, getb (h !!! p2) i && negb (getb (h !!! p3) i)) ∧
  assigned h (bitmask_eor h p1 p2 p3) p1 (λ i, xorb (getb (h !!! p2) i) (getb (h !!! p3) i)) ∧
  assigned h (bitmask_complement h p1 p2) p1 (λ i, negb (getb (h !!! p2) i)) ∧
  assigned h (bitmask_copy h p1 p2) p1 (getb (h !!! p2)).
Proof.
  split_and!; auto using and_assigned, or_assigned, andnot_assigned, eor_assigned,
    complement_assigned, copy_assigned.
Qed.

(** Both shifts are correct in place as well as between two masks: the
    right shift stores bit [i + n] at [i], the left shift bit [i - n], with
    zeros moving in at either end. *)
Theorem bitmask_shift_spec h p1 p2 n (Hh : hwf h) (Hn : 0 ≤ n)
  (Hs1 : h_size h p1 ≤ 2 ^ 31) (Hs2 : h_size h p2 ≤ 2 ^ 31) (Hn' : n ≤ 2 ^ 31) :
  assigned h (bitmask_shiftright h p1 p2 n) p1 (λ i, getb (h !!! p2) (i + n)) ∧
  assigned h (bitmask_shiftleft h p1 p2 n) p1 (λ i, (n <=? i) && getb (h !!! p2) (i - n)).
Proof. split; [apply shiftright_assigned|apply shiftleft_assigned]; auto; lia. Qed.

(** The comparisons decide the relations of sets of bits, for masks of any
    two sizes. *)
Theorem bitmask_compare_spec b1 b2 (H1 : wf b1) (H2 : wf b2) :
  (bitmask_equal b1 b2 = 1 ↔ same_bits b1 b2) ∧
  (bitmask_subset b1 b2 = 1 ↔ ∀ i, 0 ≤ i → getb b1 i → getb b2 i) ∧
  (bitmask_disjoint b1 b2 = 1 ↔ ∀ i, 0 ≤ i → ¬ (getb b1 i ∧ getb b2 i)) ∧
  bitmask_intersects b1 b2 = 1 - bitmask_disjoint b1 b2.
Proof.
  destruct H1 as (? & _), H2 as (? & _). split_and!.
  - apply equal_spec; lia.
  - apply subset_spec.
  - apply disjoint_spec.
  - apply intersects_disjoint.
Qed.

(** [bitmask_rel_to_abs_pos] and [bitmask_abs_to_rel_pos] are inverse to
    each other: they number the set bits of a mask from 0 to its weight, and a
    relative position past the last one gives the size of the mask. *)
Theorem bitmask_rel_abs_inverse b n (Hb : wf b) (Hn : 0 ≤ n < 2 ^ 32) :
  (n < bitmask_weight b →
     bitmask_abs_to_rel_pos b (bitmask_rel_to_abs_pos b n) = n) ∧
  (bitmask_weight b ≤ n → bitmask_rel_to_abs_pos b n = size b) ∧
  (n < size b → bitmask_isbitset b n = 1 →
     bitmask_rel_to_abs_pos b (bitmask_abs_to_rel_pos b n) = n).
Proof.
  pose proof (rel_to_abs_spec b n Hb Hn) as Hr. simpl in Hr. split_and!.
  - intros Hw. rewrite decide_True in Hr by done. destruct Hr as (? & ? & ?).
    by rewrite abs_to_rel_rank.
  - intros Hw. by rewrite decide_False in Hr by lia.
  - intros Hs Hset. unfold bitmask_isbitset in Hset. rewrite _getbit_getb in Hset.
    assert (Hg : getb b n) by (by destruct (getb b n)). clear Hr Hset.
    rewrite abs_to_rel_rank by (try done; lia).
    pose proof (rank_bounds b n ltac:(lia)). pose proof (rank_lt b n (size b) ltac:(lia) Hg).
    pose proof (rel_to_abs_spec b (rank b n) Hb ltac:(lia)) as Hr. simpl in Hr.
    rewrite weight_rank, decide_True in Hr by done. destruct Hr as (? & Hg' & Heq).
    destruct (Z.lt_trichotomy (bitmask_rel_to_abs_pos b (rank b n)) n) as [?|[?|?]]; [|done|].
    + pose proof (rank_lt b (bitmask_rel_to_abs_pos b (rank b n)) n ltac:(lia) Hg'). lia.
    + pose proof (rank_lt b n (bitmask_rel_to_abs_pos b (rank b n)) ltac:(lia) Hg). lia.
Qed.

(** ** Witnesses *)

(** Masks of 10 and 70 bits, used by the witnesses. *)
Definition ex10 : bitmask := _setbit (_setbit (Bitmask 10 [0]) 1 1) 9 1.
Definition ex70 : bitmask := _setbit (_setbit (_setbit (Bitmask 70 [0; 0]) 1 1) 4 1) 69 1.
Definition ex_heap : heap := <[1%positive := ex10]> (<[2%positive := ex70]> ∅).

Lemma ex10_wf : wf ex10.
Proof. repeat (apply wf_setbit; [|lia]). apply (wf_alloc 10). lia. Qed.

Lemma ex70_wf : wf ex70.
Proof. repeat (apply wf_setbit; [|lia]). apply (wf_alloc 70). lia. Qed.

Lemma ex_heap_wf : hwf ex_heap.
Proof. apply hwf_insert, ex10_wf. apply hwf_insert, ex70_wf. apply hwf_empty. Qed.

Lemma bitmask_ops_spec_witness :
  getb (bitmask_eor ex_heap 2%positive 2%positive 1%positive !!! 2%positive) 69 = true ∧
  getb (bitmask_and ex_heap 2%positive 2%positive 1%positive !!! 2%positive) 1 = true.
Proof.
  pose proof (bitmask_ops_spec ex_heap 2%positive 2%positive 1%positive ex_heap_wf)
    as ((_ & _ & _ & Ha) & _ & _ & (_ & _ & _ & He) & _).
  split; [rewrite (He 69) by lia|rewrite (Ha 1) by lia]; vm_compute; reflexivity.
Defined.

Lemma bitmask_shift_spec_witness :
  getb (bitmask_shiftleft ex_heap 2%positive 2%positive 3 !!! 2%positive) 7 = true.
Proof.
  pose proof (bitmask_shift_spec ex_heap 2%positive 2%positive 3 ex_heap_wf
    ltac:(lia) ltac:(vm_compute; congruence) ltac:(vm_compute; congruence) ltac:(lia))
    as (_ & _ & _ & _ & H).
  rewrite (H 7) by lia. vm_compute. reflexivity.
Defined.

Lemma bitmask_compare_spec_witness : ¬ same_bits ex10 ex70.
Proof.
  pose proof (bitmask_compare_spec ex10 ex70 ex10_wf ex70_wf) as (H & _).
  intros Hs. apply H in Hs. vm_compute in Hs. discriminate.
Defined.

Lemma bitmask_rel_abs_inverse_witness :
  bitmask_rel_to_abs_pos ex70 (bitmask_abs_to_rel_pos ex70 69) = 69 ∧
  bitmask_weight ex70 = 3.
Proof.
  pose proof (bitmask_rel_abs_inverse ex70 69 ex70_wf ltac:(lia)) as (_ & _ & H).
  split; [apply H|]; vm_compute; reflexivity.
Defined.
