(* ===== verification/BitmaskText.v ===== *)
(** * Bit masks as text: the display and parse functions of libbitmask.c

    The hexadecimal form ("00000001,0000000f") and the list form ("1,3,5-7"),
    with the character buffer they are written to, and the two parsers.  The
    round trips show that each parser reads back what its printer wrote. *)

From S2P Require Import Prelude CInt CMem CString Bitmask.
Local Open Scope Z_scope.

(** ** Writing *)

(** [snprintf(buf + off, n, ...)] of the text [t]: the buffer afterwards (the
    value returned is the length of [t]). *)
Definition snprintf_at (buf : cstr) (off n : Z) (t : cstr) : cstr :=
  if n =? 0 then buf else store buf off (snprintf_cut n t ++ [NUL]).

Definition HEXCHUNKSZ : Z := 32.
Definition HEXCHARSZ : Z := 8.

(** The inner loop of [bitmask_displayhex]. *)
Definition chunk_val (bmp : bitmask) (chunk : Z) : Z :=
  foldl (λ val bit, Z.lor (u32 (Z.shiftl val 1)) (_getbit bmp (u32 (chunk * HEXCHUNKSZ + bit))))
    0 (downfrom (HEXCHUNKSZ - 1)).

(** One turn of its outer loop, on the buffer, [cnt] and [sep]. *)
Definition displayhex_step (buflen : Z) (bmp : bitmask) (st : cstr * Z * cstr) (chunk : Z)
  : cstr * Z * cstr :=
  let '(buf, cnt, sep) := st in
  let t := sep ++ fmt_0x (Z.to_nat HEXCHARSZ) (chunk_val bmp chunk) in
  (snprintf_at buf cnt (Z.max (buflen - cnt) 0) t, cnt + zlength t, [","%char]).

(** Returns the buffer and the length.  [howmany] is in [unsigned int] here. *)
Definition bitmask_displayhex (buf : cstr) (buflen : Z) (bmp : bitmask) : cstr * Z :=
  if buflen <? 1 then (buf, 0)
  else
    let top := s32 (u32 (u32 (size bmp + (HEXCHUNKSZ - 1)) / HEXCHUNKSZ - 1)) in
    (foldl (displayhex_step buflen bmp) (store buf 0 [NUL], 0, []) (downfrom top)).1.

Definition emit (buf : cstr) (buflen rbot rtop len : Z) : cstr * Z :=
  let '(buf, len) :=
    if 0 <? len then (snprintf_at buf len (Z.max (buflen - len) 0) [","%char], len + 1)
    else (buf, len) in
  let t := if rbot =? rtop then fmt_d rbot else fmt_d rbot ++ ["-"%char] ++ fmt_d rtop in
  (snprintf_at buf len (Z.max (buflen - len) 0) t, len + zlength t).

(** The loop of [bitmask_displaylist]; the bounds are passed to [emit] as
    [int]s. *)
Fixpoint displaylist_loop (fuel : nat) (buf : cstr) (buflen : Z) (bmp : bitmask)
  (rbot cur len : Z) : res (cstr * Z) :=
  match fuel with
  | O => NoFuel
  | S fuel =>
      if cur <? size bmp then
        let rtop := cur in
        let cur := bitmask_next bmp (u32 (cur + 1)) in
        if (size bmp <=? cur) || (u32 (rtop + 1) <? cur) then
          let '(buf, len) := emit buf buflen (s32 rbot) (s32 rtop) len in
          displaylist_loop fuel buf buflen bmp cur cur len
        else displaylist_loop fuel buf buflen bmp rbot cur len
      else Ret (buf, len)
  end.

Definition bitmask_displaylist (fuel : nat) (buf : cstr) (buflen : Z) (bmp : bitmask)
  : res (cstr * Z) :=
  let buf := if 0 <? buflen then store buf 0 [NUL] else buf in
  let cur := bitmask_first bmp in
  displaylist_loop fuel buf buflen bmp cur cur 0.

(** ** Reading *)

(** [None] is the null pointer. *)
Definition nexttoken (q : option cstr) (sep : ascii) : option cstr :=
  match q with
  | Some s => match strchr s sep with Some t => Some (tail t) | None => None end
  | None => None
  end.

(** The number of tokens: the counting loop of [bitmask_parsehex]. *)
Fixpoint count_tokens (fuel : nat) (q : option cstr) (nchunks : Z) : res Z :=
  match fuel with
  | O => NoFuel
  | S fuel =>
      match q with
      | None => Ret nchunks
      | Some _ => count_tokens fuel (nexttoken q ",") (nchunks + 1)
      end
  end.

(** The bits of one word, stored from [chunk * 32] on; the boolean is [false]
    after [goto err]. *)
Definition parsehex_bits (h : heap) (p : loc) (size chunk val : Z) : bool * heap :=
  foldl (λ st bit, let '(ok, h) := st in
    if (ok : bool) then
      let n := u32 (chunk * HEXCHUNKSZ + bit) in
      if size <=? n then (false, h) else (true, h_setbit h p n (Z.land (Z.shiftr val bit) 1))
    else (false, h)) (true, h) (downfrom (HEXCHUNKSZ - 1)).

Fixpoint parsehex_loop (fuel : nat) (h : heap) (p : loc) (size chunk : Z) (q : option cstr)
  : res (bool * heap) :=
  match fuel with
  | O => NoFuel
  | S fuel =>
      match q with
      | None => Ret (true, h)
      | Some s =>
          let q := nexttoken (Some s) "," in
          let '(v, endptr) := strtoul 16 s in
          let val := u32 v in
          let nchars_read := zlength s - zlength endptr in
          if (nchars_read <? 1) || (HEXCHARSZ <? nchars_read) then Ret (false, h)
          else if match q with
                  | Some q => negb (zlength endptr - zlength q =? 1)
                  | None => false
                  end then Ret (false, h)
          else
            let '(ok, h) := parsehex_bits h p size chunk val in
            if (ok : bool) then parsehex_loop fuel h p size (chunk - 1) q else Ret (false, h)
      end
  end.

Definition bitmask_parsehex (h : heap) (p : loc) (buf : cstr) : res (Z * heap) :=
  let h := bitmask_clearall h p in
  let size := u32 (longsperbits (h_size h p) * 8 * 8) in
  let fuel := S (S (length buf)) in
  nchunks ← count_tokens fuel (Some buf) 0;
  r ← parsehex_loop fuel h p size (nchunks - 1) (Some buf);
  let '(ok, h) := r in
  Ret (if (ok : bool) then (0, h) else (-1, bitmask_clearall h p)).

Definition scan_was_ok (r : scan_uc) (ok_next_chars : cstr) : bool :=
  match r with
  | Scan1 _ => true
  | Scan2 _ nextc => mem nextc ok_next_chars
  | _ => false
  end.

(** The number a scan that succeeded stored. *)
Definition scan_val (r : scan_uc) : Z :=
  match r with Scan1 a => a | Scan2 a _ => a | _ => 0 end.

(** [c1 != NULL && (c2 == NULL || c1 < c2)]: of two suffixes of one string the
    longer one has the smaller address. *)
Definition before (c1 c2 : option cstr) : bool :=
  match c1, c2 with
  | None, _ => false
  | Some _, None => true
  | Some c1, Some c2 => zlength c2 <? zlength c1
  end.

(** [while (a <= b) { _setbit(bmp, a, 1); a += s; }] *)
Fixpoint stride_loop (fuel : nat) (h : heap) (p : loc) (a b s : Z) : res heap :=
  match fuel with
  | O => NoFuel
  | S fuel => if a <=? b then stride_loop fuel (h_setbit h p a 1) p (u32 (a + s)) b s else Ret h
  end.

(** The scan of one term: its bounds and stride, or [None] for [goto err]. *)
Definition scan_term (s : cstr) : option (Z * Z * Z) :=
  let r := sscanf_uc s in
  if negb (scan_was_ok r (str ",-")) then None
  else
    let a := scan_val r in
    let c1 := nexttoken (Some s) "-" in
    let c2 := nexttoken (Some s) "," in
    if before c1 c2 then
      let r := sscanf_uc (default [] c1) in
      if negb (scan_was_ok r (str ",:")) then None
      else
        let b := scan_val r in
        let c1 := nexttoken c1 ":" in
        if before c1 c2 then
          let r := sscanf_uc (default [] c1) in
          if negb (scan_was_ok r (str ",")) then None else Some (a, b, scan_val r)
        else Some (a, b, 1)
    else Some (a, a, 1).

Fixpoint parselist_loop (fuel sfuel : nat) (h : heap) (p : loc) (q : option cstr)
  : res (bool * heap) :=
  match fuel with
  | O => NoFuel
  | S fuel =>
      match q with
      | None => Ret (true, h)
      | Some s =>
          let q := nexttoken (Some s) "," in
          match scan_term s with
          | None => Ret (false, h)
          | Some (a, b, st) =>
              if negb (a <=? b) then Ret (false, h)
              else if h_size h p <=? b then Ret (false, h)
              else h ← stride_loop sfuel h p a b st; parselist_loop fuel sfuel h p q
          end
      end
  end.

(** [sfuel] bounds the turns of each stride loop. *)
Definition bitmask_parselist (sfuel : nat) (h : heap) (p : loc) (buf : cstr) : res (Z * heap) :=
  let h := bitmask_clearall h p in
  r ← parselist_loop (S (S (length buf))) sfuel h p (Some buf);
  let '(ok, h) := r in
  Ret (if (ok : bool) then (0, h) else (-1, bitmask_clearall h p)).

(** ** Texts *)

(** Words separated by commas. *)
Fixpoint join (ws : list cstr) : cstr :=
  match ws with
  | [] => []
  | [w] => w
  | w :: ws' => w ++ ","%char :: join ws'
  end.

Lemma join_snoc ws w :
  join (ws ++ [w]) = join ws ++ (if decide (ws = []) then [] else [","%char]) ++ w.
Proof.
  induction ws as [|x ws IH]; [done|]. rewrite decide_False by done.
  destruct ws as [|y ws]; [done|]. rewrite decide_False in IH by done.
  change (join ((x :: y :: ws) ++ [w])) with (x ++ ","%char :: join ((y :: ws) ++ [w])).
  rewrite IH. simpl. by rewrite <- !app_assoc.
Qed.

(** A buffer that holds the text [t], cut to [n - 1] characters. *)
Definition hold (buf : cstr) (n : Z) (t : cstr) : cstr := store buf 0 (snprintf_cut n t ++ [NUL]).

(** Writing on from the end of the text, wherever the buffer ends. *)
Lemma hold_app buf n t t' :
  1 ≤ n ≤ zlength buf →
  snprintf_at (hold buf n t) (zlength t) (Z.max (n - zlength t) 0) t' = hold buf n (t ++ t').
Proof.
  intros Hn. unfold snprintf_at. case_if.
  - unfold hold, snprintf_cut. by rewrite take_app_le by lia.
  - unfold hold, snprintf_cut. rewrite (take_ge t) by lia.
    rewrite take_app_ge by lia. rewrite Z.max_l by lia.
    replace (Z.to_nat (n - 1) - length t)%nat with (Z.to_nat (n - zlength t - 1)) by lia.
    set (d := take _ t'). unfold store at 1. rewrite Nat2Z.id.
    unfold store. rewrite Z2Nat.inj_0. cbn [take]. rewrite !app_nil_l, !Nat.add_0_l.
    rewrite <- !app_assoc, take_app_le, firstn_all by lia.
    rewrite drop_app_ge by lia. rewrite !length_app. cbn [length].
    replace (length t + (length d + 1) - length t)%nat with (S (length d)) by lia.
    cbn [drop app]. rewrite drop_drop. do 4 f_equal. lia.
Qed.

Lemma hold_nil buf n : store buf 0 [NUL] = hold buf n [].
Proof. unfold hold, snprintf_cut. by rewrite take_nil. Qed.

(** The text of a mask in hexadecimal. *)
Definition hex_words (b : bitmask) (k : Z) : list cstr :=
  map (λ c, fmt_0x (Z.to_nat HEXCHARSZ) (chunk_val b c)) (downfrom (k - 1)).

Lemma displayhex_loop buf n b l pre :
  1 ≤ n ≤ zlength buf →
  foldl (displayhex_step n b)
    (hold buf n (join pre), zlength (join pre), if decide (pre = []) then [] else [","%char]) l =
  (hold buf n (join (pre ++ map (λ c, fmt_0x (Z.to_nat HEXCHARSZ) (chunk_val b c)) l)),
   zlength (join (pre ++ map (λ c, fmt_0x (Z.to_nat HEXCHARSZ) (chunk_val b c)) l)),
   if decide (pre ++ map (λ c, fmt_0x (Z.to_nat HEXCHARSZ) (chunk_val b c)) l = [])
   then [] else [","%char]).
Proof.
  intros Hn. revert pre. induction l as [|c l IH]; intros pre; cbn [foldl map].
  - by rewrite app_nil_r.
  - set (w := fmt_0x _ (chunk_val b c)).
    specialize (IH (pre ++ [w])). rewrite <- app_assoc in IH. cbn [app] in IH. rewrite <- IH. f_equal.
    unfold displayhex_step. fold w. rewrite hold_app by done. rewrite join_snoc.
    rewrite (decide_False (P := pre ++ [w] = [])) by (by destruct pre).
    f_equal. f_equal. rewrite (length_app (join pre)). lia.
Qed.

Lemma displayhex_text buf n b :
  wf b → size b < 2 ^ 31 → 1 ≤ n ≤ zlength buf →
  let t := join (hex_words b (howmany (size b) 32)) in
  bitmask_displayhex buf n b = (hold buf n t, zlength t).
Proof.
  intros (Hs & _) Hs' Hn. unfold bitmask_displayhex. rewrite (proj2 (Z.ltb_ge _ _)) by lia.
  unfold HEXCHUNKSZ. change (32 - 1) with 31. rewrite (u32_id (size b + 31)) by lia.
  assert (0 ≤ (size b + 31) / 32 < 2 ^ 27) by zlia.
  rewrite (hold_nil buf n). pose proof (displayhex_loop buf n b (downfrom (howmany (size b) 32 - 1)) [] Hn) as Hl.
  simpl in Hl. change (Z.of_nat 0) with 0 in Hl. unfold howmany in *. change (32 - 1) with 31 in *.
  replace (s32 (u32 ((size b + 31) / 32 - 1))) with ((size b + 31) / 32 - 1); [by rewrite Hl|].
  destruct (decide ((size b + 31) / 32 = 0)) as [->|]; [done|].
  rewrite u32_id, s32_id by lia. done.
Qed.

(** The text of one term of a list: "a", "a-b" or "a-b:s". *)
Definition term_text (t : Z * Z * Z) : cstr :=
  let '(a, b, s) := t in
  if s =? 1 then
    if a =? b then digits 10 a else digits 10 a ++ "-"%char :: digits 10 b
  else digits 10 a ++ "-"%char :: digits 10 b ++ ":"%char :: digits 10 s.

(** The runs of set bits of a mask, in the order of [bitmask_displaylist]'s
    loop. *)
Fixpoint ranges (fuel : nat) (b : bitmask) (rbot cur : Z) : list (Z * Z * Z) :=
  match fuel with
  | O => []
  | S fuel =>
      if cur <? size b then
        let next := bitmask_next b (cur + 1) in
        if (size b <=? next) || (cur + 1 <? next)
        then (rbot, cur, 1) :: ranges fuel b next next
        else ranges fuel b rbot next
      else []
  end.

(** The first set bit at or after [i], or the end of the mask. *)
Lemma next_spec b i :
  0 ≤ i ≤ size b →
  let r := bitmask_next b i in
  i ≤ r ≤ size b ∧ (∀ j, i ≤ j < r → ¬ getb b j) ∧ (r < size b → getb b r).
Proof.
  intros Hi. unfold bitmask_next. remember (Z.to_nat (size b - i)) as k eqn:Hk. revert i Hi Hk.
  induction k as [|k IH]; intros i Hi Hk; simpl.
  - split_and!; [lia|lia|intros; lia|lia].
  - rewrite _getbit_getb. destruct (getb b i) eqn:E; simpl.
    + rewrite E. split_and!; [lia|lia|intros; lia|done].
    + destruct (IH (i + 1)) as (? & Hn & ?); [lia|lia|]. split_and!; [lia|lia| |done].
      intros j Hj. destruct (decide (j = i)) as [->|]; [rewrite E; auto|]. apply Hn. lia.
Qed.

Lemma first_spec b : wf b →
  let r := bitmask_first b in
  0 ≤ r ≤ size b ∧ (∀ j, 0 ≤ j < r → ¬ getb b j) ∧ (r < size b → getb b r).
Proof. intros (? & _). apply next_spec. lia. Qed.

Lemma length_digits_pos base n : 2 ≤ base ≤ 16 → 0 ≤ n → (0 < length (digits base n))%nat.
Proof. intros Hb Hn. destruct (digits_spec base n Hb Hn) as (? & _). destruct (digits base n); [done|simpl; lia]. Qed.

(** [emit] appends a term and, when it is not the first one, a comma. *)
Lemma emit_text buf n pre (a b : Z) :
  1 ≤ n ≤ zlength buf → 0 ≤ a ≤ b → (pre = [] ∨ join pre ≠ []) →
  emit (hold buf n (join pre)) n a b (zlength (join pre)) =
  (hold buf n (join (pre ++ [term_text (a, b, 1)])), zlength (join (pre ++ [term_text (a, b, 1)]))).
Proof.
  intros Hn Hab Hpre. unfold emit. rewrite join_snoc.
  replace (if a =? b then fmt_d a else fmt_d a ++ ["-"%char] ++ fmt_d b) with (term_text (a, b, 1)).
  2:{ unfold term_text, fmt_d. rewrite !(proj2 (Z.ltb_ge _ _)) by lia. by case_if. }
  set (t := term_text _). destruct (decide (pre = [])) as [->|Hne].
  - pose proof (hold_app buf n [] t Hn) as Ht. simpl in *. by rewrite Ht.
  - destruct Hpre as [?|Hj]; [done|]. rewrite (proj2 (Z.ltb_lt _ _)).
    2:{ destruct (join pre); [done|simpl; lia]. }
    rewrite hold_app by done. replace (zlength (join pre) + 1) with (zlength (join pre ++ [","%char])).
    2:{ rewrite length_app. simpl. lia. }
    rewrite hold_app by done. rewrite <- app_assoc. f_equal.
    rewrite !length_app. simpl. lia.
Qed.

Lemma join_nonempty (ws : list cstr) w : w ≠ [] → join (ws ++ [w]) ≠ [].
Proof. rewrite join_snoc. destruct w; [done|]. intros _. by destruct (join ws), (decide (ws = [])). Qed.

Lemma term_text_nonempty a b s : 0 ≤ a → term_text (a, b, s) ≠ [].
Proof.
  intros Ha. destruct (digits_spec 10 a ltac:(lia) Ha) as (? & _).
  unfold term_text. repeat case_if; destruct (digits 10 a); done.
Qed.

Lemma displaylist_loop_text fuel buf n b rbot cur pre :
  wf b → size b ≤ 2 ^ 31 → 1 ≤ n ≤ zlength buf → 0 ≤ rbot ≤ cur → cur ≤ size b →
  size b - cur < Z.of_nat fuel → (pre = [] ∨ join pre ≠ []) →
  let t := join (pre ++ map term_text (ranges fuel b rbot cur)) in
  displaylist_loop fuel (hold buf n (join pre)) n b rbot cur (zlength (join pre)) =
  Ret (hold buf n t, zlength t).
Proof.
  intros Hwf Hs Hn. revert rbot cur pre. induction fuel as [|fuel IH]; intros rbot cur pre Hr Hc Hf Hpre; [lia|].
  cbn [displaylist_loop ranges]. destruct (cur <? size b) eqn:E; bool_hyps.
  - rewrite (u32_id (cur + 1)) by lia.
    destruct (next_spec b (cur + 1) ltac:(lia)) as (Hnx & _).
    destruct ((size b <=? _) || _) eqn:E2.
    + rewrite !s32_id by lia. rewrite emit_text by (try done; lia).
      rewrite IH; [|lia|lia|lia|right; by apply join_nonempty, term_text_nonempty; lia].
      cbn [map]. by rewrite <- app_assoc.
    + apply IH; [lia|lia|lia|done].
  - cbn [map]. by rewrite app_nil_r.
Qed.

(** Which bits a list of terms names. *)
Definition term_bits (t : Z * Z * Z) (i : Z) : Prop :=
  let '(a, b, s) := t in a ≤ i ≤ b ∧ (i - a) mod s = 0.
Definition terms_bits (l : list (Z * Z * Z)) (i : Z) : Prop := Exists (λ t, term_bits t i) l.

#[global] Instance term_bits_dec t i : Decision (term_bits t i).
Proof. destruct t as [[a b] s]. simpl. solve_decision. Defined.
#[global] Instance terms_bits_dec l i : Decision (terms_bits l i).
Proof. unfold terms_bits. apply _. Defined.

(** A term [bitmask_parselist] accepts for a mask of [n] bits. *)
Definition term_ok (n : Z) (t : Z * Z * Z) : Prop :=
  let '(a, b, s) := t in 0 ≤ a ≤ b ∧ b < n ∧ 1 ≤ s ∧ b + s < 2 ^ 32.

Lemma terms_bits_cons t l i : terms_bits (t :: l) i ↔ term_bits t i ∨ terms_bits l i.
Proof. apply Exists_cons. Qed.

Lemma terms_bits_nil i : ¬ terms_bits [] i.
Proof. intros H. inversion H. Qed.

(** The runs name the set bits, exactly. *)
Lemma ranges_spec fuel b rbot cur :
  wf b → 0 ≤ rbot ≤ cur → cur ≤ size b → size b - cur < Z.of_nat fuel →
  (cur = size b → rbot = cur) → (cur < size b → ∀ i, rbot ≤ i ≤ cur → getb b i) →
  Forall (term_ok (size b)) (ranges fuel b rbot cur) ∧
  ∀ i, terms_bits (ranges fuel b rbot cur) i ↔ rbot ≤ i ∧ getb b i.
Proof.
  intros Hwf. pose proof Hwf as (Hs & _). revert rbot cur.
  induction fuel as [|fuel IH]; intros rbot cur Hr Hc Hf He Hset; [lia|].
  cbn [ranges]. destruct (cur <? size b) eqn:E; bool_hyps.
  2:{ split; [constructor|]. intros i. split; [intros []%terms_bits_nil|].
      intros [? Hg]. by rewrite getb_ge in Hg by lia. }
  specialize (Hset E). destruct (next_spec b (cur + 1) ltac:(lia)) as (Hnx & Hgap & Hnb).
  set (nx := bitmask_next b (cur + 1)) in *. destruct ((size b <=? nx) || _) eqn:E2.
  - destruct (IH nx nx) as [IH1 IH2]; [lia|lia|lia|done|intros ? i ?; replace i with nx by lia; auto|].
    split; [constructor; [|done]; simpl; lia|]. intros i. rewrite terms_bits_cons, IH2. simpl. rewrite Z.mod_1_r.
    split; [intros [[? _]|[? ?]]; (split; [lia|]); [by apply Hset|done]|].
    intros [? Hg]. destruct (decide (i ≤ cur)); [left; lia|]. right. split; [|done].
    destruct (decide (nx ≤ i)); [done|]. destruct (Hgap i); [lia|done].
  - apply orb_false_iff in E2 as [? ?]; bool_hyps. assert (nx = cur + 1) by lia.
    apply IH; [lia|lia|lia|lia|].
    intros ? i ?. destruct (decide (i = nx)) as [->|]; [auto|apply Hset; lia].
Qed.

(** *** Scanning *)

Lemma sscanf_uc_digits n rest :
  0 ≤ n < 2 ^ 32 → match rest with [] => True | x :: _ => is_base 10 x = false ∧ (x =c "x"%char) = false ∧ (x =c "X"%char) = false end →
  sscanf_uc (digits 10 n ++ rest) = match rest with [] => Scan1 n | c :: _ => Scan2 n c end.
Proof.
  intros Hn Hr. destruct (digits_spec 10 n ltac:(lia) ltac:(lia)) as (Hne & Hds & Hv).
  unfold sscanf_uc. rewrite scan_number_digits by (try done; lia). rewrite Hv.
  destruct (digits 10 n) as [|d ds]; [done|]. apply Forall_cons in Hds as [Hd _].
  destruct (is_base_digit 10 d ltac:(lia) Hd) as (Hsp & _).
  unfold skip_space. cbn [app span]. rewrite Hsp. cbn [snd].
  rewrite (proj2 (Z.ltb_ge _ _)) by (unfold ULONG_MAX; lia). by rewrite u32_id by lia.
Qed.

Lemma nexttoken_skip (a b : cstr) c :
  Forall (λ x, (x =c c) = false) a → nexttoken (Some (a ++ b)) c = nexttoken (Some b) c.
Proof. intros. unfold nexttoken. by rewrite strchr_skip. Qed.

Lemma nexttoken_here (b : cstr) c : nexttoken (Some (c :: b)) c = Some b.
Proof. unfold nexttoken. simpl. by rewrite eqc_refl. Qed.

Lemma nexttoken_shorter (s : cstr) c t : nexttoken (Some s) c = Some t → zlength t < zlength s.
Proof.
  unfold nexttoken. induction s as [|x s IH]; simpl; [done|]. destruct (x =c c).
  - intros [= <-]. lia.
  - intros H. specialize (IH H). lia.
Qed.

Lemma nexttoken_other (x c : ascii) rest :
  (x =c c) = false → nexttoken (Some (x :: rest)) c = nexttoken (Some rest) c.
Proof. intros Hx. unfold nexttoken. simpl. by rewrite Hx. Qed.

(** What may follow a term: nothing, or a comma and more terms. *)
Definition term_rest (rest : cstr) : Prop := rest = [] ∨ ∃ r, rest = ","%char :: r.

Lemma before_rest (rest : cstr) c :
  term_rest rest → (","%char =c c) = false →
  before (nexttoken (Some rest) c) (nexttoken (Some rest) ",") = false.
Proof.
  intros [->|[r ->]] Hc; [done|]. rewrite nexttoken_here, nexttoken_other by done.
  destruct (nexttoken (Some r) c) as [t|] eqn:E; [|done]. apply nexttoken_shorter in E.
  simpl. apply Z.ltb_ge. lia.
Qed.

Lemma before_tail (s : cstr) c : before (Some s) (nexttoken (Some s) c) = true.
Proof.
  destruct (nexttoken (Some s) c) as [t|] eqn:E; [|done]. apply nexttoken_shorter in E.
  simpl. apply Z.ltb_lt. lia.
Qed.

(** A number at the end of a term. *)
Lemma scan_last m rest ok :
  0 ≤ m < 2 ^ 32 → term_rest rest → mem "," ok = true →
  let r := sscanf_uc (digits 10 m ++ rest) in scan_was_ok r ok = true ∧ scan_val r = m.
Proof.
  intros Hm [->|[r ->]] Hok; rewrite sscanf_uc_digits by done; simpl; by rewrite ?Hok.
Qed.

(** A number inside a term. *)
Lemma scan_inner m c rest ok :
  0 ≤ m < 2 ^ 32 → is_base 36 c = false → mem c ok = true →
  let r := sscanf_uc (digits 10 m ++ c :: rest) in scan_was_ok r ok = true ∧ scan_val r = m.
Proof.
  intros Hm Hc Hok. rewrite sscanf_uc_digits; simpl; [by rewrite Hok|done|].
  clear Hok. by destruct c as [[] [] [] [] [] [] [] []].
Qed.

Lemma nexttoken_digits m c rest :
  0 ≤ m → is_base 10 c = false →
  nexttoken (Some (digits 10 m ++ rest)) c = nexttoken (Some rest) c.
Proof.
  intros Hm Hc. apply nexttoken_skip, (digits_no 10); [done|]. by apply digits_spec.
Qed.

Lemma scan_term_text n t rest :
  n < 2 ^ 32 → term_ok n t → term_rest rest → scan_term (term_text t ++ rest) = Some t.
Proof.
  intros Hn. destruct t as [[a b] s]. intros (Ha & Hb & Hs & Hbs) Hrest.
  unfold term_text, scan_term. destruct (s =? 1) eqn:Es; bool_hyps; [subst s; destruct (a =? b) eqn:Eb; bool_hyps|].
  - subst b. destruct (scan_last a rest (str ",-")) as [-> ->]; [lia|done|done|].
    rewrite !nexttoken_digits by (try done; lia). by rewrite before_rest.
  - rewrite <- app_assoc. cbn [app].
    destruct (scan_inner a "-" (digits 10 b ++ rest) (str ",-")) as [-> ->]; [lia|done|done|].
    rewrite !(nexttoken_digits a) by (try done; lia).
    rewrite nexttoken_here, nexttoken_other, before_tail by done. cbn [negb from_option id].
    destruct (scan_last b rest (str ",:")) as [-> ->]; [lia|done|done|]. cbn [negb].
    rewrite !nexttoken_digits by (try done; lia). by rewrite before_rest.
  - rewrite <- app_assoc. cbn [app]. rewrite <- app_assoc. cbn [app].
    destruct (scan_inner a "-" (digits 10 b ++ ":"%char :: digits 10 s ++ rest) (str ",-")) as [-> ->]; [lia|done|done|].
    rewrite !(nexttoken_digits a) by (try done; lia).
    rewrite nexttoken_here, nexttoken_other, before_tail by done. cbn [negb from_option id].
    destruct (scan_inner b ":" (digits 10 s ++ rest) (str ",:")) as [-> ->]; [lia|done|done|].
    cbn [negb]. rewrite !nexttoken_digits by (try done; lia).
    rewrite nexttoken_here, nexttoken_other, before_tail by done. cbn [from_option id].
    by destruct (scan_last s rest (str ",")) as [-> ->]; [lia|done|done|].
Qed.

(** *** The list parser *)

(** [h'] is [h] with the bits of [sel] added to [p]. *)
Abbreviation added h h' p sel := (updated h h' p sel (λ _, true)).

Lemma added_refl h p : hwf h → added h h p (λ _, False).
Proof. by split. Qed.

Lemma added_trans h1 h2 h3 p (s1 s2 s : Z → Prop) :
  added h1 h2 p s1 → added h2 h3 p s2 → (∀ i, s i ↔ s1 i ∨ s2 i) → added h1 h3 p s.
Proof.
  intros [A1 A2 A3 A4 A5] [B1 B2 B3 B4 B5] Hs. split; [done|intros; rewrite B2 by done; auto|congruence| |].
  - intros i Hi Hi'. destruct (getb (h3 !!! p) i) eqn:E; [done|]. apply Hs in Hi'.
    rewrite <- E. destruct Hi' as [H1|H2]; [|apply B4; [lia|done]].
    destruct (getb (h2 !!! p) i) eqn:E2; [|rewrite A4 in E2 by done; done].
    (* the bit is set in h2 and [h3] only adds bits *)
    assert (¬ s2 i) by (intros Hs2; rewrite B4 in E by (try done; lia); done).
    by rewrite B5, E2 by (try done; lia).
  - intros i Hi Hn. rewrite Hs in Hn. rewrite B5, A5 by tauto. done.
Qed.

Lemma added_setbit h p n : hwf h → 0 ≤ n → added h (h_setbit h p n 1) p (λ i, i = n).
Proof.
  intros Hh Hn. assert (Hu : updated h (set_each h p (λ _ _, 1) [n]) p (.∈ [n]) (λ _, true)).
  { apply set_each_spec; [done|apply NoDup_singleton|set_solver|done]. }
  destruct Hu as [A1 A2 A3 A4 A5]. split; try done.
  - intros i ? ->. apply A4; [done|set_solver].
  - intros i ? ?. apply A5; [done|set_solver].
Qed.

Lemma term_bits_step a b s i :
  1 ≤ s → a ≤ b → term_bits (a, b, s) i ↔ i = a ∨ term_bits (a + s, b, s) i.
Proof.
  intros Hs Hab. simpl. replace (i - (a + s)) with (i - a + (-1) * s) by lia.
  rewrite Z_mod_plus_full. split.
  - intros [Hi Hm]. destruct (decide (i < a + s)); [|right; lia].
    rewrite Z.mod_small in Hm by lia. left. lia.
  - intros [->|?]; [|lia]. rewrite Z.sub_diag, Zmod_0_l. lia.
Qed.

Lemma stride_loop_spec fuel h p a b s :
  hwf h → 0 ≤ a → 1 ≤ s → b + s < 2 ^ 32 → Z.max 0 (b + 1 - a) < Z.of_nat fuel →
  ∃ h', stride_loop fuel h p a b s = Ret h' ∧ added h h' p (term_bits (a, b, s)).
Proof.
  revert h a. induction fuel as [|fuel IH]; intros h a Hh Ha Hs Hb Hf; [lia|].
  cbn [stride_loop]. case_if.
  - rewrite u32_id by lia. pose proof (added_setbit h p a Hh Ha) as H1.
    destruct (IH (h_setbit h p a 1) (a + s)) as (h' & -> & H2); [apply H1|lia|lia|lia|lia|].
    exists h'. split; [done|]. eapply added_trans; [exact H1|exact H2|].
    intros i. by apply term_bits_step.
  - exists h. split; [done|]. split; try done. intros i _ Ht. simpl in Ht. lia.
Qed.

(** What follows the first word. *)
Definition more (ws : list cstr) : cstr := match ws with [] => [] | _ => ","%char :: join ws end.

Lemma more_term_rest ws : term_rest (more ws).
Proof. destruct ws; [by left|right; eauto]. Qed.

Lemma join_cons w ws : join (w :: ws) = w ++ more ws.
Proof. destruct ws; simpl; [by rewrite app_nil_r|done]. Qed.

Lemma nexttoken_join w ws :
  Forall (λ x, (x =c ","%char) = false) w →
  nexttoken (Some (join (w :: ws))) "," = match ws with [] => None | _ => Some (join ws) end.
Proof.
  intros Hw. rewrite join_cons, nexttoken_skip by done. destruct ws; [done|]. apply nexttoken_here.
Qed.

Lemma term_text_no n t c :
  term_ok n t → is_base 10 c = false → ("-"%char =c c) = false → (":"%char =c c) = false →
  Forall (λ x, (x =c c) = false) (term_text t).
Proof.
  destruct t as [[a b] s]. intros (Ha & Hb & Hs & _) Hc Hm Hcol.
  assert (Hd : ∀ m, 0 ≤ m → Forall (λ x, (x =c c) = false) (digits 10 m)).
  { intros m ?. apply (digits_no 10); [done|]. by apply digits_spec. }
  unfold term_text. repeat case_if; rewrite ?Forall_app, ?Forall_cons, ?Forall_app, ?Forall_cons;
    repeat split; try done; apply Hd; lia.
Qed.

Lemma join_no ws c :
  (","%char =c c) = false → Forall (Forall (λ x, (x =c c) = false)) ws →
  Forall (λ x, (x =c c) = false) (join ws).
Proof.
  intros Hc. induction 1 as [|w ws Hw Hws IH]; [constructor|]. rewrite join_cons. apply Forall_app.
  split; [done|]. destruct ws; [constructor|]. by constructor.
Qed.

(** The loop of the parser on the text of a list of terms. *)
Lemma parselist_loop_spec fuel sfuel h p t l :
  hwf h → Forall (term_ok (h_size h p)) (t :: l) → h_size h p < Z.of_nat sfuel →
  (S (length l) < fuel)%nat →
  ∃ h', parselist_loop fuel sfuel h p (Some (join (map term_text (t :: l)))) = Ret (true, h') ∧
    added h h' p (terms_bits (t :: l)).
Proof.
  revert fuel h t. induction l as [|t' l IH]; intros fuel h t Hh Hok Hsf Hf;
    (destruct fuel as [|fuel]; [lia|]); apply Forall_cons in Hok as [Ht Hl].
  all: pose proof (Hh p) as ((_ & Hsz) & _); fold (h_size h p) in Hsz.
  all: cbn [parselist_loop map]; rewrite nexttoken_join by (by eapply term_text_no); rewrite join_cons.
  all: rewrite (scan_term_text (h_size h p)) by (try done; apply more_term_rest).
  all: destruct t as [[a b] s]; pose proof Ht as (Ha & Hb & Hs & Hbs).
  all: rewrite (proj2 (Z.leb_le a b)), (proj2 (Z.leb_gt _ _)) by lia; cbn [negb].
  all: destruct (stride_loop_spec sfuel h p a b s) as (h1 & -> & H1); [done|lia..|]; rewrite res_bind_ret.
  - exists h1. destruct fuel as [|fuel]; [simpl in *; lia|]. split; [done|].
    eapply added_trans; [exact H1|apply added_refl, H1|]. intros i. rewrite terms_bits_cons.
    pose proof (terms_bits_nil i). tauto.
  - pose proof (size_all _ _ _ _ _ p H1) as Hs1.
    destruct (IH fuel h1 t') as (h' & Heq & H2); [apply H1|by rewrite Hs1|lia|simpl in *; lia|].
    exists h'. split; [exact Heq|]. eapply added_trans; [exact H1|exact H2|].
    intros i. by rewrite terms_bits_cons.
Qed.

Lemma join_length (ws : list cstr) : (length ws ≤ S (length (join ws)))%nat.
Proof.
  induction ws as [|w ws IH]; [simpl; lia|]. rewrite join_cons, length_app. cbn [length].
  destruct ws; simpl in *; lia.
Qed.

(** Parsing the text of a list of terms sets exactly the bits it names. *)
Lemma parselist_text sfuel h p l :
  hwf h → l ≠ [] → Forall (term_ok (h_size h p)) l → h_size h p < Z.of_nat sfuel →
  ∃ h', bitmask_parselist sfuel h p (join (map term_text l)) = Ret (0, h') ∧ hwf h' ∧
    (∀ q, q ≠ p → h' !!! q = h !!! q) ∧ h_size h' p = h_size h p ∧
    ∀ i, 0 ≤ i → getb (h' !!! p) i ↔ terms_bits l i.
Proof.
  intros Hh Hne Hok Hsf. destruct l as [|t l]; [done|]. unfold bitmask_parselist.
  destruct (clearall_assigned h p Hh) as (C1 & C2 & C3 & C4).
  destruct (parselist_loop_spec (S (S (length (join (map term_text (t :: l)))))) sfuel
    (bitmask_clearall h p) p t l) as (h' & -> & Hu); [done|by rewrite C3|lia| |].
  { pose proof (join_length (map term_text (t :: l))) as Hj. rewrite length_map in Hj. simpl in *. lia. }
  rewrite res_bind_ret. exists h'. destruct Hu as [A1 A2 A3 A4 A5].
  split; [done|]. split; [done|]. split; [intros q Hq; by rewrite A2, C2|]. split; [congruence|].
  intros i Hi. destruct (decide (terms_bits (t :: l) i)) as [Ht|Hn].
  - rewrite A4; [done| |done]. rewrite C3. split; [done|].
    apply Exists_exists in Ht as ([[a b] s] & Hin & Ht). rewrite Forall_forall in Hok.
    specialize (Hok _ Hin). simpl in *. lia.
  - rewrite A5 by done. rewrite C4, andb_false_r by done. by split.
Qed.

Lemma as_string_hold_cut buf n t :
  Forall (λ x, (x =c NUL) = false) t → 1 ≤ n ≤ zlength buf → as_string (hold buf n t) = take (Z.to_nat (n - 1)) t.
Proof.
  intros Ht Hn. unfold as_string, hold, snprintf_cut, store.
  rewrite Z2Nat.inj_0. cbn [take]. rewrite app_nil_l, <- app_assoc.
  rewrite span_app; [done| |done].
  apply (Forall_impl (λ x, (x =c NUL) = false)); [by apply Forall_take|]. simpl. by intros x ->.
Qed.
Lemma as_string_hold buf n t :
  Forall (λ x, (x =c NUL) = false) t → zlength t < n ≤ zlength buf → as_string (hold buf n t) = t.
Proof. intros Ht Hn. rewrite as_string_hold_cut by (done || lia). by rewrite take_ge by lia. Qed.

Lemma displaylist_text fuel buf n b :
  wf b → size b ≤ 2 ^ 31 → 1 ≤ n ≤ zlength buf → size b < Z.of_nat fuel →
  let t := join (map term_text (ranges fuel b (bitmask_first b) (bitmask_first b))) in
  bitmask_displaylist fuel buf n b = Ret (hold buf n t, zlength t).
Proof.
  intros Hwf Hs Hn Hf. unfold bitmask_displaylist. rewrite (proj2 (Z.ltb_lt 0 n)) by lia.
  destruct (first_spec b Hwf) as (? & _). rewrite (hold_nil buf n).
  apply (displaylist_loop_text fuel buf n b _ _ []); try done; [lia..|by left].
Qed.

(** The terms printed for a mask name its bits. *)
Lemma displaylist_terms fuel b :
  wf b → size b < Z.of_nat fuel →
  let l := ranges fuel b (bitmask_first b) (bitmask_first b) in
  Forall (term_ok (size b)) l ∧ ∀ i, 0 ≤ i → terms_bits l i ↔ getb b i.
Proof.
  intros Hwf Hf. destruct (first_spec b Hwf) as (? & Hn & Hg).
  destruct (ranges_spec fuel b (bitmask_first b) (bitmask_first b)) as [H1 H2]; [done|lia|lia|lia|done| |].
  { intros ? i ?. replace i with (bitmask_first b) by lia. auto. }
  split; [done|]. intros i Hi. rewrite H2. split; [tauto|]. intros Hb. split; [|done].
  destruct (decide (bitmask_first b ≤ i)); [done|]. exfalso. apply (Hn i); [lia|done].
Qed.

Lemma terms_no_nul n l :
  Forall (term_ok n) l → Forall (λ x, (x =c NUL) = false) (join (map term_text l)).
Proof.
  intros Hl. apply join_no; [done|]. apply Forall_map. eapply Forall_impl; [exact Hl|].
  intros t Ht. by eapply term_text_no.
Qed.

Lemma term_ok_mono n m t : n ≤ m → term_ok n t → term_ok m t.
Proof. destruct t as [[a b] s]. simpl. lia. Qed.

(** *** The hexadecimal parser *)

Lemma downfrom_cons k : 0 ≤ k → downfrom k = k :: downfrom (k - 1).
Proof.
  intros Hk. pose proof (upto_succ k Hk) as Hu. unfold upto in Hu. rewrite !Z.sub_0_r in Hu.
  unfold downfrom. rewrite Hu, Z.sub_add, reverse_app. done.
Qed.

(** Packing the bits [g (k - 1), ..., g 0] into a word. *)
Lemma pack_bits (g : Z → bool) (k : nat) v :
  (k ≤ 32)%nat → 0 ≤ v < 2 ^ (32 - Z.of_nat k) →
  let r := foldl (λ val bit, Z.lor (u32 (Z.shiftl val 1)) (Z.b2z (g bit))) v
             (downfrom (Z.of_nat k - 1)) in
  0 ≤ r < 2 ^ 32 ∧
  ∀ j, 0 ≤ j → Z.testbit r j = if j <? Z.of_nat k then g j else Z.testbit v (j - Z.of_nat k).
Proof.
  revert v. induction k as [|k IH]; intros v Hk Hv.
  - simpl. split; [done|]. intros j Hj. rewrite (proj2 (Z.ltb_ge _ _)) by lia. f_equal. lia.
  - rewrite downfrom_cons by lia. cbn [foldl].
    replace (Z.of_nat (S k) - 1) with (Z.of_nat k) by lia.
    assert (Hv2 : 0 ≤ 2 * v + 1 < 2 ^ (32 - Z.of_nat k)).
    { replace (32 - Z.of_nat k) with (Z.succ (32 - Z.of_nat (S k))) by lia. rewrite Z.pow_succ_r; lia. }
    assert (2 ^ (32 - Z.of_nat k) ≤ 2 ^ 32) by (apply Z.pow_le_mono_r; lia).
    set (w := Z.lor _ _). assert (Hw : w = 2 * v + Z.b2z (g (Z.of_nat k))).
    { unfold w. rewrite Z.shiftl_mul_pow2, u32_id, Z.mul_comm by lia. change (2 ^ 1) with 2.
      destruct (g _); simpl Z.b2z; [|by rewrite Z.lor_0_r, Z.add_0_r].
      clear -Hv. destruct v; [done|done|lia]. }
    destruct (IH w) as [Hr Hb]; [lia|destruct (g (Z.of_nat k)); simpl in Hw; lia|].
    split; [done|]. intros j Hj. rewrite Hb by done. rewrite Hw.
    destruct (j <? Z.of_nat k) eqn:E; bool_hyps.
    + rewrite (proj2 (Z.ltb_lt _ _)) by lia. done.
    + destruct (decide (j = Z.of_nat k)) as [->|].
      * rewrite (proj2 (Z.ltb_lt _ _)) by lia. rewrite Z.sub_diag. rewrite Z.add_comm. apply Z.add_b2z_double_bit0.
      * rewrite (proj2 (Z.ltb_ge _ _)) by lia.
        replace (j - Z.of_nat k) with (Z.succ (j - Z.of_nat (S k))) by lia.
        by rewrite Z.testbit_succ_r by lia.
Qed.

Lemma foldl_ext' {A B} (f g : A → B → A) l a :
  (∀ a x, x ∈ l → f a x = g a x) → foldl f a l = foldl g a l.
Proof.
  revert a. induction l as [|x l IH]; intros a Hfg; simpl; [done|].
  rewrite Hfg by left. apply IH. intros. apply Hfg. by right.
Qed.

(** A chunk printed has the bits of the mask. *)
Lemma chunk_val_bits b c :
  0 ≤ c < 2 ^ 26 →
  0 ≤ chunk_val b c < 2 ^ 32 ∧
  ∀ j, 0 ≤ j < 32 → Z.testbit (chunk_val b c) j = getb b (c * 32 + j).
Proof.
  intros Hc. destruct (pack_bits (λ bit, getb b (c * 32 + bit)) 32 0) as [Hr Hb]; [lia|done|].
  replace (chunk_val b c) with (foldl (λ val bit, Z.lor (u32 (Z.shiftl val 1))
    (Z.b2z (getb b (c * 32 + bit)))) 0 (downfrom (Z.of_nat 32 - 1))).
  - split; [exact Hr|]. intros j Hj. rewrite Hb by lia. by rewrite (proj2 (Z.ltb_lt _ _)) by lia.
  - unfold chunk_val, HEXCHUNKSZ. apply foldl_ext'. intros v i Hi%elem_of_downfrom.
    rewrite (u32_id (c * 32 + i)) by lia. by rewrite <- _getbit_getb.
Qed.

Lemma fmt_0x_word v :
  0 ≤ v < 2 ^ 32 →
  let w := fmt_0x 8 v in
  length w = 8%nat ∧ Forall (λ x, is_base 16 x = true) w ∧ dval 16 w = v.
Proof.
  intros Hv. unfold fmt_0x. destruct (digits_spec 16 v ltac:(lia) ltac:(lia)) as (_ & Hd & Hval).
  pose proof (digits_length 16 v 8 ltac:(lia) Hv ltac:(lia)). split_and!.
  - rewrite length_app, length_replicate. lia.
  - apply Forall_app. split; [|done]. by apply Forall_replicate.
  - by rewrite dval_zeros.
Qed.

Lemma strtoul_word v rest :
  0 ≤ v < 2 ^ 32 → term_rest rest → strtoul 16 (fmt_0x 8 v ++ rest) = (v, rest).
Proof.
  intros Hv Hr. destruct (fmt_0x_word v Hv) as (Hl & Hw & Hval). unfold strtoul.
  assert (Hne : fmt_0x 8 v ≠ []) by (by destruct (fmt_0x 8 v)).
  rewrite scan_number_digits; [|lia|done|done|by destruct Hr as [->|[r ->]]].
  destruct (fmt_0x 8 v) as [|c w]; [done|]. rewrite Hval.
  by rewrite (proj2 (Z.ltb_ge _ _)) by (unfold ULONG_MAX; lia).
Qed.

(** One word stores its 32 bits. *)
Lemma parsehex_bits_spec h p sz c val :
  hwf h → 0 ≤ c < 2 ^ 26 → c * 32 + 32 ≤ sz →
  ∃ h', parsehex_bits h p sz c val = (true, h') ∧
    updated h h' p (λ i, c * 32 ≤ i < c * 32 + 32) (λ i, Z.testbit val (i - c * 32)).
Proof.
  intros Hh Hc Hsz.
  exists (set_each h p (λ _ n, Z.land (Z.shiftr val (n - c * 32)) 1)
            (map (λ bit, c * 32 + bit) (downfrom 31))). split.
  - unfold parsehex_bits, HEXCHUNKSZ. change (32 - 1) with 31.
    assert (Hl : ∀ i, i ∈ downfrom 31 → 0 ≤ i ≤ 31) by (intros i; by rewrite elem_of_downfrom).
    revert Hl. generalize (downfrom 31) as l. intros l. clear Hh. revert h.
    induction l as [|i l IH]; intros h Hl; [done|]. cbn [foldl map].
    pose proof (Hl i ltac:(left)). rewrite u32_id by lia. rewrite (proj2 (Z.leb_gt _ _)) by lia.
    rewrite IH by (intros; apply Hl; by right). unfold set_each. cbn [foldl].
    replace (c * 32 + i - c * 32) with i by lia. done.
  - assert (Hin : ∀ i, i ∈ map (λ bit, c * 32 + bit) (downfrom 31) ↔ c * 32 ≤ i < c * 32 + 32).
    { intros i. rewrite list_elem_of_fmap. setoid_rewrite elem_of_downfrom. split.
      - intros (j & -> & ?). lia.
      - intros. exists (i - c * 32). lia. }
    assert (Hu : updated h (set_each h p (λ _ n, Z.land (Z.shiftr val (n - c * 32)) 1)
      (map (λ bit, c * 32 + bit) (downfrom 31))) p (.∈ map (λ bit, c * 32 + bit) (downfrom 31))
      (λ i, Z.testbit val (i - c * 32))).
    { apply set_each_spec; [done| |intros i; rewrite Hin; lia|].
      - apply NoDup_fmap_2; [intros x y; lia|apply downfrom_nodup].
      - intros h' l1 i l2 Heq _. assert (c * 32 ≤ i < c * 32 + 32).
        { apply Hin. rewrite Heq. set_solver. }
        rewrite land1_b2z, Z.shiftr_spec by lia. rewrite Z.add_0_l. by destruct (Z.testbit _ _). }
    destruct Hu as [A1 A2 A3 A4 A5]. split; try done; intros i ?; [rewrite <- Hin|rewrite <- Hin]; auto.
Qed.

Lemma hex_word_no_comma v :
  0 ≤ v < 2 ^ 32 → Forall (λ x, (x =c ","%char) = false) (fmt_0x 8 v).
Proof. intros Hv. apply (digits_no 16); [done|]. by apply fmt_0x_word. Qed.

(** One turn of the parser's loop on a printed chunk. *)
Lemma parsehex_step fuel h p sz c b ws :
  hwf h → 0 ≤ c < 2 ^ 26 → c * 32 + 32 ≤ sz →
  ∃ h', parsehex_loop (S fuel) h p sz c (Some (join (fmt_0x 8 (chunk_val b c) :: ws))) =
        parsehex_loop fuel h' p sz (c - 1) (match ws with [] => None | _ => Some (join ws) end) ∧
    updated h h' p (λ i, c * 32 ≤ i < c * 32 + 32) (getb b).
Proof.
  intros Hh Hc Hsz. destruct (chunk_val_bits b c Hc) as [Hv Hb]. cbn [parsehex_loop].
  rewrite nexttoken_join, join_cons by (by apply hex_word_no_comma).
  rewrite strtoul_word by (try done; apply more_term_rest). rewrite length_app.
  destruct (fmt_0x_word _ Hv) as (Hl & _). rewrite Hl, u32_id by lia.
  replace (Z.of_nat (8 + length (more ws)) - zlength (more ws)) with 8 by lia.
  change ((8 <? 1) || (HEXCHARSZ <? 8)) with false. cbn [orb].
  destruct (parsehex_bits_spec h p sz c (chunk_val b c) Hh Hc Hsz) as (h' & -> & Hu).
  exists h'. split.
  - destruct ws as [|w ws]; [done|]. cbn [more length].
    rewrite Nat2Z.inj_succ. replace (Z.succ _ - _) with 1 by lia. done.
  - destruct Hu as [A1 A2 A3 A4 A5]. split; try done. intros i ? ?.
    rewrite A4, Hb by (try done; lia). f_equal. lia.
Qed.

Lemma hex_words_cons b k :
  1 ≤ k → hex_words b k = fmt_0x 8 (chunk_val b (k - 1)) :: hex_words b (k - 1).
Proof. intros. unfold hex_words. by rewrite downfrom_cons by lia. Qed.

(** From chunk [c] down, the parser stores the bits of the printed mask. *)
Lemma parsehex_loop_spec (c : nat) fuel h p sz b :
  hwf h → Z.of_nat c < 2 ^ 26 → Z.of_nat c * 32 + 32 ≤ sz → (S c < fuel)%nat →
  ∃ h', parsehex_loop fuel h p sz (Z.of_nat c) (Some (join (hex_words b (Z.of_nat c + 1)))) = Ret (true, h') ∧
    updated h h' p (λ i, i < Z.of_nat c * 32 + 32) (getb b).
Proof.
  revert fuel h. induction c as [|c IH]; intros fuel h Hh Hc Hsz Hf; (destruct fuel as [|fuel]; [lia|]);
    rewrite hex_words_cons, Z.add_simpl_r by lia.
  - destruct (parsehex_step fuel h p sz 0 b [] Hh) as (h1 & Heq & H1); [lia|lia|].
    exists h1. destruct fuel as [|fuel]; [lia|]. split; [exact Heq|].
    destruct H1 as [A1 A2 A3 A4 A5]. split; try done; intros i ? ?; [apply A4|apply A5]; lia.
  - destruct (parsehex_step fuel h p sz (Z.of_nat (S c)) b (hex_words b (Z.of_nat (S c))) Hh)
      as (h1 & -> & H1); [lia|lia|].
    replace (Z.of_nat (S c) - 1) with (Z.of_nat c) by lia.
    replace (Z.of_nat (S c)) with (Z.of_nat c + 1) by lia.
    destruct (IH fuel h1) as (h' & Heq & H2); [apply H1|lia|lia|lia|]. exists h'. split.
    + rewrite <- Heq. by rewrite (hex_words_cons b (Z.of_nat c + 1)) by lia.
    + destruct H1 as [A1 A2 A3 A4 A5], H2 as [B1 B2 B3 B4 B5].
      split; [done|intros; rewrite B2; auto|congruence| |].
      * intros i ? ?. destruct (decide (i < Z.of_nat c * 32 + 32)); [apply B4; [lia|done]|].
        rewrite B5 by lia. apply A4; [done|lia].
      * intros i ? ?. rewrite B5 by lia. apply A5; lia.
Qed.

Lemma count_tokens_spec fuel w ws n :
  Forall (Forall (λ x, (x =c ","%char) = false)) (w :: ws) → (S (length ws) < fuel)%nat →
  count_tokens fuel (Some (join (w :: ws))) n = Ret (n + 1 + zlength ws).
Proof.
  revert fuel w n. induction ws as [|w' ws IH]; intros fuel w n Hw Hf; (destruct fuel as [|fuel]; [lia|]);
    apply Forall_cons in Hw as [Hw Hws]; cbn [count_tokens]; rewrite nexttoken_join by done.
  - destruct fuel; [simpl in *; lia|]. simpl. f_equal. lia.
  - rewrite IH by (try done; simpl in *; lia). f_equal. simpl. lia.
Qed.

Lemma hex_words_length b k : 0 ≤ k → zlength (hex_words b k) = k.
Proof. intros. unfold hex_words, downfrom. rewrite length_map, length_reverse, length_seqZ. lia. Qed.

Lemma hex_words_no b k (c : ascii) :
  k ≤ 2 ^ 26 → is_base 16 c = false → Forall (Forall (λ x, (x =c c) = false)) (hex_words b k).
Proof.
  intros Hk Hc. apply Forall_map, Forall_forall. intros i Hi%elem_of_downfrom.
  apply (digits_no 16); [done|]. apply fmt_0x_word, chunk_val_bits. lia.
Qed.

(** Parsing the text of a mask stores its bits. *)
Lemma parsehex_text h p b :
  hwf h → wf b → 0 < size b < 2 ^ 31 → size b ≤ h_size h p < 2 ^ 31 →
  ∃ h', bitmask_parsehex h p (join (hex_words b (howmany (size b) 32))) = Ret (0, h') ∧
    hwf h' ∧ (∀ q, q ≠ p → h' !!! q = h !!! q) ∧ same_bits (h' !!! p) b.
Proof.
  intros Hh Hb Hs Hp. unfold bitmask_parsehex. set (k := howmany (size b) 32).
  assert (Hk : 1 ≤ k ≤ 2 ^ 26 ∧ size b ≤ k * 32 < size b + 32) by (unfold k, howmany; zlia).
  destruct (clearall_assigned h p Hh) as (C1 & C2 & C3 & C4). rewrite C3.
  pose proof (join_length (hex_words b k)) as Hlen.
  pose proof (hex_words_length b k ltac:(lia)) as Hk'.
  set (t := join (hex_words b k)) in *.
  assert (Hct : count_tokens (S (S (length t))) (Some t) 0 = Ret k).
  { unfold t in *. rewrite hex_words_cons in * by lia. rewrite count_tokens_spec.
    - cbn [length] in Hk'. f_equal. lia.
    - rewrite <- hex_words_cons by lia. apply hex_words_no; [lia|done].
    - cbn [length] in Hlen. lia. }
  rewrite Hct, res_bind_ret.
  destruct (parsehex_loop_spec (Z.to_nat (k - 1)) (S (S (length t))) (bitmask_clearall h p) p
    (u32 (longsperbits (h_size h p) * 8 * 8)) b) as (h' & Heq & Hu); [done|lia| |lia|].
  { unfold longsperbits, howmany, bitsperlong. rewrite u32_id; zlia. }
  rewrite !Z2Nat.id, Z.sub_add in Heq by lia. fold t in Heq. rewrite Heq, res_bind_ret. exists h'.
  rewrite Z2Nat.id in Hu by lia. destruct Hu as [A1 A2 A3 A4 A5].
  split; [done|]. split; [done|]. split; [intros q Hq; by rewrite A2, C2|].
  intros i Hi. destruct (decide (i < size b)); [apply A4; lia|]. rewrite (getb_ge b) by lia.
  destruct (decide (i < k * 32)).
  - destruct (decide (i < h_size h p)); [rewrite A4 by lia; by apply getb_ge; lia|].
    apply getb_ge. unfold h_size in *. lia.
  - rewrite A5 by lia. by rewrite C4, andb_false_r by lia.
Qed.

Lemma isallclear_exists b : bitmask_isallclear b = 0 → ∃ i, 0 ≤ i ∧ getb b i.
Proof.
  unfold bitmask_isallclear. destruct (forallb _ _) eqn:E; [done|]. intros _.
  apply (f_equal negb) in E. rewrite <- existsb_negb in E. apply existsb_exists in E as (i & Hi & Hg).
  apply list_elem_of_In, elem_of_upto in Hi. exists i. split; [lia|]. unfold getb. by rewrite Hg.
Qed.

(** ** Properties *)

(** C38: [bitmask_displaylist] and [bitmask_parselist] are inverse on masks with a bit set:
    there is one text of which the printer writes as much as fits into a buffer, however
    small, and returns the full length, and which the parser accepts, storing the same
    bits in a mask of the same or a larger size.  For a mask with no bit set the text is
    empty and not accepted ([empty_list_rejected]). *)
Theorem displaylist_parselist_roundtrip fuel h p b
  (Hh : hwf h) (Hb : wf b) (Hset : bitmask_isallclear b = 0)
  (Hs : size b ≤ h_size h p) (Hp : h_size h p ≤ 2 ^ 31) (Hf : h_size h p < Z.of_nat fuel) :
  ∃ text,
    (∀ buf n, 1 ≤ n ≤ zlength buf → ∃ buf', bitmask_displaylist fuel buf n b = Ret (buf', zlength text) ∧
       as_string buf' = take (Z.to_nat (n - 1)) text) ∧
    ∃ h', bitmask_parselist fuel h p text = Ret (0, h') ∧ hwf h' ∧ same_bits (h' !!! p) b.
Proof.
  destruct (displaylist_terms fuel b Hb ltac:(lia)) as [Hok Hbits].
  set (l := ranges fuel b _ _) in *. exists (join (map term_text l)). split.
  - intros buf n Hn. rewrite displaylist_text by (try done; lia). fold l. eexists. split; [done|].
    rewrite as_string_hold_cut by (try lia; by eapply terms_no_nul). done.
  - destruct (parselist_text fuel h p l) as (h' & Heq & Hwf & _ & _ & Hg); [done| | |done|].
    + intros Hl. destruct (isallclear_exists b Hset) as (i & Hi & Hg). apply Hbits in Hg; [|done].
      rewrite Hl in Hg. by apply terms_bits_nil in Hg.
    + eapply Forall_impl; [exact Hok|]. intros t. by apply term_ok_mono.
    + exists h'. split; [done|]. split; [done|]. intros i Hi. specialize (Hg i Hi). rewrite Hbits in Hg by done.
      destruct (getb b i), (getb (h' !!! p) i); naive_solver.
Qed.

(** [bitmask_displayhex] and [bitmask_parsehex] are inverse on masks of at
    least one bit, printed to a buffer that is large enough. *)
Theorem displayhex_parsehex_roundtrip buf n h p b
  (Hh : hwf h) (Hb : wf b) (Hs0 : 0 < size b) (Hs : size b ≤ h_size h p) (Hp : h_size h p < 2 ^ 31)
  (Hn : 1 ≤ n ≤ zlength buf) :
  let '(buf', len) := bitmask_displayhex buf n b in
  len < n → len = zlength (as_string buf') ∧
    ∃ h', bitmask_parsehex h p (as_string buf') = Ret (0, h') ∧ hwf h' ∧ same_bits (h' !!! p) b.
Proof.
  rewrite displayhex_text by (try done; lia). intros Hlen.
  rewrite as_string_hold; [|apply join_no; [done|]; apply hex_words_no; [|done]; unfold howmany; zlia|lia].
  split; [done|]. destruct (parsehex_text h p b) as (h' & Heq & ? & _ & ?); [done..|lia|lia|].
  by exists h'.
Qed.

(** [bitmask_parselist] accepts every comma separated list of numbers "a",
    ranges "a-b" and ranges with a stride "a-b:s" with [a <= b] below the size of
    the mask, and then exactly the bits the list names are set. *)
Theorem parselist_accepts fuel h p l
  (Hh : hwf h) (Hl : l ≠ []) (Hok : Forall (term_ok (h_size h p)) l) (Hf : h_size h p < Z.of_nat fuel) :
  ∃ h', bitmask_parselist fuel h p (join (map term_text l)) = Ret (0, h') ∧ hwf h' ∧
    (∀ q, q ≠ p → h' !!! q = h !!! q) ∧ ∀ i, 0 ≤ i → getb (h' !!! p) i ↔ terms_bits l i.
Proof.
  destruct (parselist_text fuel h p l) as (h' & ? & ? & ? & _ & ?); [done..|]. by exists h'.
Qed.

(** A stride of zero is accepted by the scanner and makes the parser loop
    for ever, whatever the fuel: "0-3:0". *)
Theorem parselist_stride0_diverges fuel h p (Hh : hwf h) (Hs : 3 < h_size h p) :
  bitmask_parselist fuel h p (str "0-3:0") = NoFuel.
Proof.
  destruct (clearall_assigned h p Hh) as (_ & _ & C3 & _).
  assert (Hdiv : ∀ fuel h, stride_loop fuel h p 0 3 0 = NoFuel).
  { clear. induction fuel as [|fuel IH]; intros h; [done|]. cbn [stride_loop]. apply IH. }
  unfold bitmask_parselist. change (S (S (length (str "0-3:0")))) with 7%nat.
  cbn [parselist_loop]. replace (scan_term (str "0-3:0")) with (Some (0, 3, 0)) by (vm_compute; reflexivity).
  change (negb (0 <=? 3)) with false. cbn iota. rewrite C3, (proj2 (Z.leb_gt _ _)), Hdiv by done. done.
Qed.

(** The text printed for a mask with no bit set, the empty string, is not
    accepted by the parser: it returns an error and leaves the mask cleared. *)
Theorem empty_list_rejected fuel h p (Hh : hwf h) :
  ∃ h', bitmask_parselist fuel h p [] = Ret (-1, h') ∧ bitmask_isallclear (h' !!! p) = 1.
Proof.
  exists (bitmask_clearall (bitmask_clearall h p) p). split; [done|].
  destruct (clearall_assigned h p Hh) as (C1 & _).
  destruct (clearall_assigned (bitmask_clearall h p) p C1) as (_ & _ & _ & C4).
  unfold bitmask_isallclear. rewrite (proj1 (Is_true_true _)); [done|].
  apply forallb_upto. intros i Hi. rewrite _getbit_getb, C4, andb_false_r by lia. done.
Qed.

(** ** Witnesses *)

Lemma displaylist_parselist_roundtrip_witness :
  (∃ buf', bitmask_displaylist 100 (replicate 4 NUL) 4 ex70 = Ret (buf', 6) ∧ as_string buf' = str "1,4") ∧
  ∃ h', bitmask_parselist 100 ex_heap 2 (str "1,4,69") = Ret (0, h') ∧ same_bits (h' !!! 2%positive) ex70.
Proof.
  assert (Hd : bitmask_displaylist 100 (replicate 40 NUL) 40 ex70 =
    Ret (str "1,4,69" ++ replicate 34 NUL, 6)) by (vm_compute; reflexivity).
  destruct (displaylist_parselist_roundtrip 100 ex_heap 2 ex70)
    as (text & Ht & h' & Hp & _ & Hsame); [exact ex_heap_wf|exact ex70_wf|vm_compute; reflexivity|
    vm_compute; congruence|vm_compute; congruence|vm_compute; reflexivity|].
  assert (text = str "1,4,69") as ->.
  { destruct (Ht (replicate 40 NUL) 40) as (buf' & Heq & Hs); [simpl; lia|]. rewrite Hd in Heq. injection Heq as <- Hlen.
    rewrite take_ge in Hs by lia. rewrite <- Hs. vm_compute. reflexivity. }
  split; [|exists h'; split; [exact Hp|exact Hsame]].
  destruct (Ht (replicate 4 NUL) 4) as (buf' & Heq & Hs); [simpl; lia|]. exists buf'. split; [exact Heq|exact Hs].
Defined.

Lemma displayhex_parsehex_roundtrip_witness :
  ∃ h', bitmask_parsehex ex_heap 2 (str "00000020,00000000,00000012") = Ret (0, h') ∧
    same_bits (h' !!! 2%positive) ex70.
Proof.
  pose proof (displayhex_parsehex_roundtrip (replicate 40 NUL) 40 ex_heap 2 ex70 ex_heap_wf ex70_wf
    ltac:(vm_compute; reflexivity) ltac:(vm_compute; congruence) ltac:(vm_compute; reflexivity)
    ltac:(simpl; lia)) as Hr.
  assert (Hd : bitmask_displayhex (replicate 40 NUL) 40 ex70 =
    (str "00000020,00000000,00000012" ++ replicate 14 NUL, 26)) by (vm_compute; reflexivity).
  rewrite Hd in Hr. destruct (Hr ltac:(lia)) as (_ & h' & Hp & _ & Hsame).
  exists h'. split; [exact Hp|exact Hsame].
Defined.

Lemma parselist_accepts_witness :
  ∃ h', bitmask_parselist 100 ex_heap 2 (str "0-3:2,8-15:4") = Ret (0, h') ∧
    ∀ i, 0 ≤ i → getb (h' !!! 2%positive) i ↔ terms_bits [(0, 3, 2); (8, 15, 4)] i.
Proof.
  destruct (parselist_accepts 100 ex_heap 2 [(0, 3, 2); (8, 15, 4)]) as (h' & Hp & _ & _ & Hb);
    [exact ex_heap_wf|discriminate| |vm_compute; reflexivity|].
  - change (h_size ex_heap 2) with 70. repeat constructor; lia.
  - exists h'. split; [exact Hp|exact Hb].
Defined.

(** A stride that wraps around the 32 bits of the counter steps backwards: bits below
    the range are set. *)
Example parselist_stride_wraps :
  (λ r, bitmask_isbitset (r.2 !!! 1%positive) <$> [0; 1; 2; 3; 4]) <$>
    (match bitmask_parselist 1000 ex_heap 1 (str "2-3:4294967295") with Ret r => Some r | _ => None end) =
  Some [1; 1; 1; 0; 0].
Proof. vm_compute. reflexivity. Qed.

Lemma parselist_stride0_diverges_witness :
  bitmask_parselist 1000 ex_heap 1 (str "0-3:0") = NoFuel.
Proof. apply parselist_stride0_diverges; [exact ex_heap_wf|vm_compute; reflexivity]. Defined.

Lemma empty_list_rejected_witness :
  ∃ h', bitmask_parselist 5 ex_heap 1 [] = Ret (-1, h') ∧ bitmask_isallclear (h' !!! 1%positive) = 1.
Proof. apply (empty_list_rejected 5 ex_heap 1 ex_heap_wf). Defined.
