(* ===== verification/Splitstr.v ===== *)
(** * Splitting strings: pan/splitstr.c and lib/string_to_tokens.c

    [splitstr] collects the tokens of [strtok] in an array it grows by twenty
    cells at a time; [string_to_tokens] stores them in the caller's array.  The
    arrays are memories with checked accesses, so a store past the end is
    undefined. *)

From S2P Require Import Prelude CInt CMem CString.
Local Open Scope Z_scope.

(** A cell of an array of [char *]. *)
Inductive cell : Type :=
| Uninit
| Null
| Tok (t : cstr).

#[global] Instance cell_eq_dec : EqDecision cell.
Proof. solve_decision. Defined.

(** ** splitstr *)

(** What a call of [splitstr] does: it returns an array and a count, it returns
    NULL with the count 0, or it leaves the program with [exit(1)]. *)
Inductive split_result : Type :=
| SplitArray (arr : list cell) (argcount : Z)
| SplitNull
| SplitExit.

(** The allocations: [strdup], the first [malloc], and the [realloc]s in order
    ([true] once the list is used up). *)
Record split_alloc : Type := SplitAlloc { strdup_ok : bool; malloc_ok : bool; realloc_ok : list bool }.
Definition alloc_ok : split_alloc := SplitAlloc true true [].

(** The loop over the tokens; [None] is the [exit(1)] after a failed
    [realloc]. *)
Fixpoint split_loop (toks : list cstr) (reallocs : list bool) (arr : list cell)
  (num_toks max_toks : Z) : res (option (list cell * Z * Z)) :=
  match toks with
  | [] => Ret (Some (arr, num_toks, max_toks))
  | t :: toks =>
      arr ← mem_write arr num_toks [Tok t];
      let num_toks := num_toks + 1 in
      if num_toks =? max_toks then
        let max_toks := max_toks + 20 in
        if default true (head reallocs)
        then split_loop toks (tail reallocs) (arr ++ replicate 20 Uninit) num_toks max_toks
        else Ret None
      else split_loop toks reallocs arr num_toks max_toks
  end.

(** [None] for a null pointer. *)
Definition splitstr (al : split_alloc) (s : option cstr) (separator : option cstr) : res split_result :=
  match s with
  | None => Ret SplitNull
  | Some s =>
      if negb (strdup_ok al) then Ret SplitNull
      else if negb (malloc_ok al) then Ret SplitNull
      else
        let max_toks := 20 in
        let sep := default (str " " ++ ["009"%char]) separator in
        r ← split_loop (strtok_all s sep) (realloc_ok al) (replicate 20 Uninit) 0 max_toks;
        match r with
        | None => Ret SplitExit
        | Some (arr, num_toks, max_toks) =>
            arr ← mem_write arr num_toks [Null];
            arr ← memset arr (num_toks + 1) Null (max_toks - (num_toks + 1));
            Ret (SplitArray arr num_toks)
        end
  end.

(** ** string_to_tokens *)

(** The [for] loop, with the tokens [strtok] still has. *)
Fixpoint tokens_loop (fuel : nat) (toks : list cstr) (arr : list cell) (num_toks array_size : Z)
  : res (list cell * Z) :=
  match fuel with
  | O => NoFuel
  | S fuel =>
      if num_toks <? array_size then
        match toks with
        | [] => arr ← mem_write arr num_toks [Null]; Ret (arr, num_toks)
        | t :: toks =>
            arr ← mem_write arr num_toks [Tok t];
            tokens_loop fuel toks arr (num_toks + 1) array_size
        end
      else Ret (arr, num_toks)
  end.

Definition string_to_tokens (arg_string : cstr) (arg_array : option (list cell)) (array_size : Z)
  (separator : option cstr) : res (list cell * Z) :=
  match arg_array, separator with
  | Some arr, Some sep =>
      if array_size <=? 1 then Ret (arr, -1)
      else
        match strtok_all arg_string sep with
        | [] => arr ← mem_write arr 0 [Null]; Ret (arr, 0)
        | t :: toks =>
            arr ← mem_write arr 0 [Tok t];
            r ← tokens_loop (Z.to_nat array_size) toks arr 1 array_size;
            let '(arr, num_toks) := r in
            if num_toks =? array_size then
              arr ← mem_write arr num_toks [Null]; Ret (arr, num_toks)
            else Ret (arr, num_toks)
        end
  | _, _ => Ret (default [] arg_array, -1)
  end.

(** ** Tokens *)

(** The tokens are the maximal runs of characters that are no separators. *)
Lemma strtok_go_tokens sep cur s :
  Forall (λ c, mem c sep = false) cur →
  Forall (λ t, t ≠ [] ∧ Forall (λ c, mem c sep = false) t) (strtok_go sep cur s).
Proof.
  revert cur. induction s as [|c s IH]; intros cur Hcur; simpl.
  - destruct cur as [|x cur]; constructor; [|constructor]. split.
    + intros Hn. apply (f_equal length) in Hn. rewrite length_reverse in Hn. done.
    + by apply Forall_reverse.
  - destruct (mem c sep) eqn:E.
    + destruct cur as [|x cur]; [by apply IH|]. constructor; [|by apply IH]. split.
      * intros Hn. apply (f_equal length) in Hn. rewrite length_reverse in Hn. done.
      * by apply Forall_reverse.
    + apply IH. by constructor.
Qed.

Lemma strtok_go_word sep cur w s :
  Forall (λ c, mem c sep = false) w →
  strtok_go sep cur (w ++ s) = strtok_go sep (reverse w ++ cur) s.
Proof.
  intros Hw. revert cur. induction Hw as [|c w Hc Hw IH]; intros cur; simpl; [done|].
  rewrite Hc, IH. by rewrite reverse_cons, <- app_assoc.
Qed.

Lemma strtok_go_seps sep ss s : Forall (λ c, mem c sep = true) ss → strtok_go sep [] (ss ++ s) = strtok_go sep [] s.
Proof. induction 1 as [|c ss Hc Hss IH]; simpl; [done|]. by rewrite Hc. Qed.

(** A word followed by separators is the next token. *)
Lemma strtok_word sep w c s :
  w ≠ [] → Forall (λ c, mem c sep = false) w → mem c sep = true →
  strtok_go sep [] (w ++ c :: s) = w :: strtok_go sep [] s.
Proof.
  intros Hne Hw Hc. rewrite strtok_go_word by done. rewrite app_nil_r. simpl. rewrite Hc.
  destruct (reverse w) eqn:E; [|by rewrite <- E, reverse_involutive].
  apply (f_equal length) in E. rewrite length_reverse in E. by destruct w.
Qed.

(** The words of a text with separators between them. *)
Definition text_of (pre : cstr) (ws : list (cstr * cstr)) : cstr :=
  pre ++ concat (map (λ '(w, ss), w ++ ss) ws).

Definition words_ok (sep : cstr) (ws : list (cstr * cstr)) : Prop :=
  Forall (λ '(w, ss), w ≠ [] ∧ Forall (λ c, mem c sep = false) w ∧
            ss ≠ [] ∧ Forall (λ c, mem c sep = true) ss) ws.

Lemma strtok_text sep pre ws :
  Forall (λ c, mem c sep = true) pre → words_ok sep ws → strtok_all (text_of pre ws) sep = map fst ws.
Proof.
  intros Hpre Hws. unfold strtok_all, text_of. rewrite strtok_go_seps by done. clear Hpre.
  induction Hws as [|[w ss] ws (Hw & Hws' & Hss & Hs) Hrest IH]; simpl; [done|].
  rewrite <- app_assoc. destruct ss as [|c ss]; [done|]. simpl. apply Forall_cons in Hs as [Hc Hs].
  rewrite strtok_word by done. by rewrite strtok_go_seps, IH.
Qed.

(** ** The arrays *)

Lemma store_snoc {A} (l : list A) k (a x : A) :
  store (l ++ replicate (S k) a) (zlength l) [x] = (l ++ [x]) ++ replicate k a.
Proof.
  unfold store. rewrite Nat2Z.id, take_app_le, firstn_all by lia. cbn [length].
  rewrite drop_app_ge by lia. replace (length l + 1 - length l)%nat with 1%nat by lia.
  simpl. rewrite drop_0. by rewrite <- app_assoc.
Qed.

Lemma mem_write_snoc {A} (l : list A) k (a x : A) :
  mem_write (l ++ replicate (S k) a) (zlength l) [x] = Ret ((l ++ [x]) ++ replicate k a).
Proof.
  rewrite mem_write_ok; [by rewrite store_snoc|lia|]. rewrite length_app, length_replicate. simpl. lia.
Qed.

(** The loop of [splitstr] stores every token and always leaves a free cell. *)
Lemma split_loop_spec toks pre k :
  ∃ k', split_loop toks [] (pre ++ replicate (S k) Uninit) (zlength pre) (zlength pre + Z.of_nat (S k)) =
    Ret (Some ((pre ++ map Tok toks) ++ replicate (S k') Uninit, zlength pre + zlength toks,
               zlength pre + zlength toks + Z.of_nat (S k'))).
Proof.
  revert pre k. induction toks as [|t toks IH]; intros pre k; cbn [split_loop map].
  - exists k. rewrite app_nil_r. simpl. by rewrite Z.add_0_r.
  - rewrite mem_write_snoc, res_bind_ret.
    replace (zlength pre + 1) with (zlength (pre ++ [Tok t])) by (rewrite length_app; simpl; lia).
    assert (Hl : zlength (pre ++ [Tok t]) = zlength pre + 1) by (rewrite length_app; simpl; lia).
    replace (pre ++ Tok t :: map Tok toks) with ((pre ++ [Tok t]) ++ map Tok toks) by (by rewrite <- app_assoc).
    case_if.
    + assert (k = 0)%nat as -> by lia. simpl replicate at 1. rewrite app_nil_r. cbn [head tail default from_option id].
      destruct (IH (pre ++ [Tok t]) 19%nat) as (k' & Heq).
      replace (zlength pre + Z.of_nat 1 + 20) with (zlength (pre ++ [Tok t]) + Z.of_nat 20) by lia.
      exists k'. rewrite Heq. rewrite Hl. cbn [length]. do 3 f_equal; [f_equal|]; lia.
    + destruct k as [|k]; [lia|]. destruct (IH (pre ++ [Tok t]) k) as (k' & Heq).
      replace (zlength pre + Z.of_nat (S (S k))) with (zlength (pre ++ [Tok t]) + Z.of_nat (S k)) by lia.
      exists k'. rewrite Heq. rewrite Hl. cbn [length]. do 3 f_equal; [f_equal|]; lia.
Qed.

Lemma memset_tail {A} (l : list A) k (a x : A) :
  memset (l ++ replicate k a) (zlength l) x (Z.of_nat k) = Ret (l ++ replicate k x).
Proof.
  rewrite memset_ok by (rewrite ?length_app, ?length_replicate; lia). f_equal.
  unfold store. rewrite !Nat2Z.id, length_replicate, take_app_le, firstn_all by lia.
  rewrite drop_app_ge, drop_replicate by lia.
  replace (k - (length l + k - length l))%nat with 0%nat by lia. by rewrite app_nil_r.
Qed.

(** The array [splitstr] returns when all allocations succeed. *)
Lemma splitstr_array s sep :
  ∃ k, splitstr alloc_ok (Some s) sep =
    let toks := strtok_all s (default (str " " ++ ["009"%char]) sep) in
    Ret (SplitArray (map Tok toks ++ replicate (S k) Null) (zlength toks)).
Proof.
  unfold splitstr. cbn [strdup_ok malloc_ok realloc_ok alloc_ok negb].
  set (toks := strtok_all s _). destruct (split_loop_spec toks [] 19) as (k & Heq).
  exists k. change (zlength []) with 0 in Heq. rewrite !Z.add_0_l in Heq. cbn [app] in Heq.
  change (Z.of_nat 20) with 20 in Heq. rewrite Heq, res_bind_ret.
  assert (Hl : zlength (map Tok toks) = zlength toks) by (by rewrite length_map).
  rewrite <- Hl at 1. rewrite mem_write_snoc, res_bind_ret.
  replace (zlength toks + 1) with (zlength (map Tok toks ++ [Null])) by (rewrite length_app, length_map; simpl; lia).
  replace (_ - _) with (Z.of_nat k) by (rewrite length_app, length_map; simpl; lia).
  rewrite memset_tail, res_bind_ret. by rewrite <- app_assoc.
Qed.

(** The loop of [string_to_tokens] on fewer tokens than cells. *)
Lemma tokens_loop_fits fuel toks pre rest n :
  zlength pre + zlength toks < n → zlength toks < Z.of_nat fuel →
  zlength toks < zlength rest →
  tokens_loop fuel toks (pre ++ rest) (zlength pre) n =
  Ret (pre ++ map Tok toks ++ Null :: drop (S (length toks)) rest, zlength pre + zlength toks).
Proof.
  revert fuel pre rest. induction toks as [|t toks IH]; intros fuel pre rest Hn Hf Hr;
    (destruct fuel as [|fuel]; [simpl in *; lia|]); cbn [tokens_loop];
    rewrite (proj2 (Z.ltb_lt _ _)) by (simpl in *; lia); (destruct rest as [|x rest]; [simpl in *; lia|]).
  - rewrite mem_write_ok by (rewrite ?length_app; simpl; lia). rewrite res_bind_ret.
    cbn [map app length drop]. rewrite drop_0, Z.add_0_r. do 2 f_equal.
    unfold store. rewrite Nat2Z.id, take_app_le, firstn_all by lia. cbn [length].
    rewrite drop_app_ge by lia. replace (length pre + 1 - length pre)%nat with 1%nat by lia.
    simpl. by rewrite drop_0.
  - rewrite mem_write_ok by (rewrite ?length_app; simpl; lia). rewrite res_bind_ret.
    replace (store (pre ++ x :: rest) (zlength pre) [Tok t]) with ((pre ++ [Tok t]) ++ rest).
    2:{ unfold store. rewrite Nat2Z.id, take_app_le, firstn_all by lia. cbn [length].
        rewrite drop_app_ge by lia. replace (length pre + 1 - length pre)%nat with 1%nat by lia.
        simpl. rewrite drop_0. by rewrite <- app_assoc. }
    replace (zlength pre + 1) with (zlength (pre ++ [Tok t])) by (rewrite length_app; simpl; lia).
    rewrite IH by (rewrite ?length_app; simpl in *; lia).
    cbn [map length drop]. rewrite <- app_assoc. do 2 f_equal. rewrite length_app. simpl. lia.
Qed.

(** With at least as many tokens as cells the loop fills the array. *)
Lemma tokens_loop_full fuel toks arr k n :
  0 ≤ k ≤ n → n = zlength arr → n - k ≤ zlength toks → n - k < Z.of_nat fuel →
  ∃ arr', tokens_loop fuel toks arr k n = Ret (arr', n) ∧ zlength arr' = n.
Proof.
  revert fuel arr k. induction toks as [|t toks IH]; intros fuel arr k Hk Hn Ht Hf;
    (destruct fuel as [|fuel]; [lia|]); cbn [tokens_loop]; case_if;
    try (exists arr; split; [do 2 f_equal; lia|done]); [simpl in *; lia|].
  rewrite mem_write_ok by (simpl; lia). rewrite res_bind_ret.
  apply IH; [lia|rewrite store_length; simpl; lia|simpl in *; lia|lia].
Qed.

(** ** Properties *)

(** When no allocation fails, [splitstr] stores all tokens of the string in
    order, never outside the array it grows, sets the count to their number and
    puts a NULL after the last one and in every cell left over. *)
Theorem splitstr_tokens pre ws sep (Hpre : Forall (λ c, mem c sep = true) pre) (Hws : words_ok sep ws) :
  ∃ k, splitstr alloc_ok (Some (text_of pre ws)) (Some sep) =
    Ret (SplitArray (map (λ w, Tok w.1) ws ++ replicate (S k) Null) (zlength ws)).
Proof.
  destruct (splitstr_array (text_of pre ws) (Some sep)) as (k & Heq). exists k. rewrite Heq. simpl.
  rewrite strtok_text by done. by rewrite length_map, map_map.
Qed.

(** [string_to_tokens] returns the number of tokens and stores them with a
    NULL behind the last one as long as there are fewer than [array_size]. *)
Theorem string_to_tokens_fits s arr sep
  (Hsz : 1 < zlength arr) (Hfit : zlength (strtok_all s sep) < zlength arr) :
  string_to_tokens s (Some arr) (zlength arr) (Some sep) =
    let toks := strtok_all s sep in
    Ret (map Tok toks ++ Null :: drop (S (length toks)) arr, zlength toks).
Proof.
  unfold string_to_tokens. rewrite (proj2 (Z.leb_gt _ _)) by lia. destruct (strtok_all s sep) as [|t toks].
  - rewrite mem_write_ok by (simpl; lia). rewrite res_bind_ret. unfold store. simpl. done.
  - rewrite mem_write_ok by (simpl; lia). rewrite res_bind_ret.
    destruct arr as [|x arr]; [simpl in *; lia|]. change (store (x :: arr) 0 [Tok t]) with (Tok t :: drop 0 arr).
    rewrite drop_0. pose proof (tokens_loop_fits (Z.to_nat (zlength (x :: arr))) toks [Tok t] arr (zlength (x :: arr))) as Hl.
    cbn [app] in Hl. change (zlength [Tok t]) with 1 in Hl. rewrite Hl by (simpl in *; lia).
    rewrite res_bind_ret. rewrite (proj2 (Z.eqb_neq _ _)) by (simpl in *; lia).
    cbn [map length drop app]. do 2 f_equal. lia.
Qed.

(** With [array_size] tokens or more [string_to_tokens] stores its final
    NULL at index [array_size], outside the array. *)
Theorem string_to_tokens_overflow s arr sep
  (Hsz : 1 < zlength arr) (Hmany : zlength arr ≤ zlength (strtok_all s sep)) :
  string_to_tokens s (Some arr) (zlength arr) (Some sep) = Undef.
Proof.
  unfold string_to_tokens. rewrite (proj2 (Z.leb_gt _ _)) by lia. destruct (strtok_all s sep) as [|t toks].
  - simpl in *. lia.
  - rewrite mem_write_ok by (simpl; lia). rewrite res_bind_ret.
    destruct (tokens_loop_full (Z.to_nat (zlength arr)) toks (store arr 0 [Tok t]) 1 (zlength arr))
      as (arr' & -> & Hl); [lia|rewrite store_length; simpl; lia|simpl in *; lia|lia|].
    rewrite res_bind_ret, Z.eqb_refl. unfold mem_write.
    destruct (in_bounds _ _ _) eqn:E; [|done]. apply in_bounds_true in E. simpl in E. lia.
Qed.

(** ** Witnesses *)

Lemma splitstr_tokens_witness :
  ∃ k, splitstr alloc_ok (Some (str " ls  -l /tmp ")) (Some (str " ")) =
    Ret (SplitArray ([Tok (str "ls"); Tok (str "-l"); Tok (str "/tmp")] ++ replicate (S k) Null) 3).
Proof.
  apply (splitstr_tokens (str " ") [(str "ls", str "  "); (str "-l", str " "); (str "/tmp", str " ")] (str " ")).
  - repeat constructor.
  - repeat constructor; discriminate.
Defined.

Lemma string_to_tokens_fits_witness :
  string_to_tokens (str "a b") (Some (replicate 4 Uninit)) 4 (Some (str " ")) =
    Ret ([Tok (str "a"); Tok (str "b"); Null; Uninit], 2).
Proof.
  apply (string_to_tokens_fits (str "a b") (replicate 4 Uninit) (str " ")); vm_compute; reflexivity.
Defined.

Lemma string_to_tokens_overflow_witness :
  string_to_tokens (str "a b c") (Some (replicate 2 Uninit)) 2 (Some (str " ")) = Undef.
Proof.
  apply (string_to_tokens_overflow (str "a b c") (replicate 2 Uninit) (str " ")); vm_compute; congruence.
Defined.
