(* ===== verification/Zoo.v ===== *)
(** * The active file: pan/zoolib.c

    The zoo file records which test tags are running, one line of 80 characters
    per entry, free lines starting with '#'.  The file is the string of its
    characters, read with [fgets] and overwritten in place; the results of
    [fcntl], [fseek], [fopen] and [malloc] are inputs.  The operations are shown
    to implement a list of lines, and that list the collection of active pids. *)

From S2P Require Import Prelude CInt CMem CString.
Local Open Scope Z_scope.

Definition BUFLEN : nat := 81.
Definition nl : ascii := "010"%char.

(** An open zoo: the contents of the file, and whether this process holds the
    lock. *)
Record zoo : Type := Zoo { content : cstr; locked : bool }.

(** What the system answers during one operation: the errno of each [fcntl] (0
    for success) while locking and while unlocking, and whether [fseek] works. *)
Record zoo_env : Type := ZooEnv { lock_errs : list Z; unlock_errs : list Z; seek_ok : bool }.
Definition env_ok : zoo_env := ZooEnv [0] [0] true.

Definition EINTR : Z := 4.
Definition ENOENT : Z := 2.

(** ** Files *)

(** [fgets(buf, n, fp)] at position [pos]: up to [n - 1] characters, a newline
    ending them; [None] at the end of the file. *)
Fixpoint take_line (k : nat) (s : cstr) : cstr :=
  match k, s with
  | O, _ | _, [] => []
  | S k, c :: s => if c =c nl then [c] else c :: take_line k s
  end.
Definition fgets (n : nat) (file : cstr) (pos : nat) : option cstr :=
  match take_line (n - 1) (drop pos file) with [] => None | l => Some l end.

(** Writing [t] at position [pos] of a file. *)
Definition fwrite_at (file : cstr) (pos : nat) (t : cstr) : cstr := store file (Z.of_nat pos) t.

(** [buf\[0\] == c] for a string that is not empty. *)
Definition starts_with (buf : cstr) (c : ascii) : bool :=
  match buf with x :: _ => x =c c | [] => false end.

(** ** Names and handles *)

Definition zoo_getname (env_ZOO : option cstr) : option cstr :=
  match env_ZOO with
  | Some zoo => Some (snprintf_cut 1024 (zoo ++ str "/" ++ str "active"))
  | None => None
  end.

(** [zoo_open]: [e1], [e2], [e3] are the errno of the three [fopen]s (0 for
    success); [fs] the file before, with its contents if it exists. *)
Definition zoo_open (fs : option cstr) (e1 e2 e3 : Z) : option zoo * option cstr :=
  if e1 =? 0 then (Some (Zoo (default [] fs) false), fs)
  else if e1 =? ENOENT then
    if negb (e2 =? 0) then (None, fs)
    else
      let fs := Some (default [] fs) in
      if e3 =? 0 then (Some (Zoo (default [] fs) false), fs) else (None, fs)
  else (None, fs).

(** ** Locking *)

(** [do ret = fcntl(...) while (ret == -1 && errno == EINTR)] *)
Fixpoint fcntl_loop (errs : list Z) : res Z :=
  match errs with
  | [] => NoFuel
  | e :: errs => if e =? 0 then Ret 0 else if e =? EINTR then fcntl_loop errs else Ret (-1)
  end.

Definition zoo_lock (env : zoo_env) (z : zoo) : res (Z * zoo) :=
  ret ← fcntl_loop (lock_errs env);
  Ret (if ret =? -1 then (-1, z) else (0, Zoo (content z) true)).
Definition zoo_unlock (env : zoo_env) (z : zoo) : res (Z * zoo) :=
  ret ← fcntl_loop (unlock_errs env);
  Ret (if ret =? -1 then (-1, z) else (0, Zoo (content z) false)).

(** ** Entries *)

(** What the search of [zoo_mark] ends with. *)
Inductive mark_search : Type :=
| MarkAt (pos : nat) (buf : cstr)
| MarkNone.

Fixpoint mark_loop (fuel : nat) (file : cstr) (pos : nat) : res mark_search :=
  match fuel with
  | O => NoFuel
  | S fuel =>
      match fgets BUFLEN file pos with
      | None => Ret MarkNone
      | Some buf =>
          if starts_with buf "#" then Ret (MarkAt pos buf)
          else mark_loop fuel file (pos + length buf)
      end
  end.

(** [fprintf(fp, "%-*.*s\n", w, w, entry)] *)
Definition entry_text (w : nat) (entry : cstr) : cstr := fmt_ljust w w entry ++ [nl].

Definition zoo_mark (env : zoo_env) (z : option zoo) (entry : cstr) : res (Z * option zoo) :=
  match z with
  | None => Ret (-1, z)
  | Some z =>
      r ← zoo_lock env z;
      let '(ret, z) := (r : Z * zoo) in
      if negb (ret =? 0) then Ret (-1, Some z)
      else
        found ← mark_loop (S (length (content z))) (content z) 0;
        if negb (seek_ok env) then Ret (-1, Some z)
        else
          let file :=
            match found with
            | MarkAt pos buf =>
                fwrite_at (content z) pos (entry_text (length (as_string buf) - 1) entry)
            | MarkNone => fwrite_at (content z) (length (content z)) (entry_text 79 entry)
            end in
          r ← zoo_unlock env (Zoo file (locked z));
          let '(ret, z) := (r : Z * zoo) in
          Ret (if negb (ret =? 0) then -1 else 0, Some z)
  end.

Definition zoo_mark_cmdline (env : zoo_env) (z : option zoo) (p : Z) (tag cmdline : cstr)
  : res (Z * option zoo) :=
  zoo_mark env z (snprintf_cut 80 (fmt_d p ++ str "," ++ tag ++ str "," ++ cmdline)).

(** [strcat] at the end of the [len] characters of a buffer. *)
Definition strcat (st : cstr * Z) (s : cstr) : res (cstr * Z) :=
  let '(buf, len) := st in
  buf ← mem_write buf len (s ++ [NUL]); Ret (buf, len + zlength s).

Fixpoint cat_loop (a : nat) (argv : list cstr) (st : cstr * Z) : res (cstr * Z) :=
  match argv with
  | [] => Ret st
  | arg :: argv =>
      st ← (match a with O => Ret st | S _ => strcat st (str " ") end);
      st ← strcat st arg;
      cat_loop (S a) argv st
  end.

Definition cat_args (malloc_ok : bool) (argv : list cstr) : res (option cstr) :=
  let size := foldl (λ size arg, size + zlength arg + 1) 0 argv in
  if negb malloc_ok then Ret None
  else
    cmd ← mem_write (replicate (Z.to_nat size) NUL) 0 [NUL];
    r ← cat_loop 0 argv (cmd, 0);
    Ret (Some (as_string r.1)).

(** A null command line is not a string [snprintf] may print. *)
Definition zoo_mark_args (env : zoo_env) (malloc_ok : bool) (z : option zoo) (p : Z) (tag : cstr)
  (av : list cstr) : res (Z * option zoo) :=
  cmdline ← cat_args malloc_ok av;
  match cmdline with
  | Some cmdline => zoo_mark_cmdline env z p tag cmdline
  | None => Undef
  end.

(** The search of [zoo_clear]: the position of the line of pid [p]. *)
Fixpoint clear_loop (fuel : nat) (file : cstr) (pos : nat) (p : Z) : res (option nat) :=
  match fuel with
  | O => NoFuel
  | S fuel =>
      match fgets BUFLEN file pos with
      | None => Ret None
      | Some buf =>
          if starts_with buf "#" then clear_loop fuel file (pos + length buf) p
          else if atoi (as_string buf) =? p then Ret (Some pos)
          else clear_loop fuel file (pos + length buf) p
      end
  end.

Definition zoo_clear (env : zoo_env) (z : option zoo) (p : Z) : res (Z * option zoo) :=
  match z with
  | None => Ret (-1, z)
  | Some z =>
      r ← zoo_lock env z;
      let '(ret, z) := (r : Z * zoo) in
      if negb (ret =? 0) then Ret (-1, Some z)
      else
        found ← clear_loop (S (length (content z))) (content z) 0 p;
        match found with
        | Some pos =>
            if negb (seek_ok env) then Ret (-1, Some z)
            else
              r ← zoo_unlock env (Zoo (fwrite_at (content z) pos (str "#")) (locked z));
              let '(ret, z) := (r : Z * zoo) in
              Ret (if negb (ret =? 0) then -1 else 0, Some z)
        | None =>
            r ← zoo_unlock env z;
            let '(ret, z) := (r : Z * zoo) in
            Ret (if negb (ret =? 0) then -1 else 1, Some z)
        end
  end.

(** [strncmp(s, tag, strlen(tag)) == 0] says that [tag] is a prefix of [s]. *)
Fixpoint getpid_loop (fuel : nat) (file : cstr) (pos : nat) (tag : cstr) : res Z :=
  match fuel with
  | O => NoFuel
  | S fuel =>
      match fgets BUFLEN file pos with
      | None => Ret (-1)
      | Some buf =>
          let next := getpid_loop fuel file (pos + length buf) tag in
          if starts_with buf "#" then next
          else
            match strchr (as_string buf) "," with
            | None => next
            | Some s => if is_prefix tag (tail s) then Ret (atoi (as_string buf)) else next
            end
      end
  end.

Definition zoo_getpid (env : zoo_env) (z : option zoo) (tag : cstr) : res (Z * option zoo) :=
  match z with
  | None => Ret (-1, z)
  | Some z =>
      r ← zoo_lock env z;
      let '(ret, z) := (r : Z * zoo) in
      if negb (ret =? 0) then Ret (-1, Some z)
      else
        this_pid ← getpid_loop (S (length (content z))) (content z) 0 tag;
        r ← zoo_unlock env z;
        let '(ret, z) := (r : Z * zoo) in
        Ret (if negb (ret =? 0) then -1 else this_pid, Some z)
  end.

(** ** The file as a list of lines *)

(** A line of a zoo file without its newline. *)
Definition line_ok (l : cstr) : Prop :=
  length l = 79%nat ∧ Forall (λ c, (c =c nl) = false ∧ (c =c NUL) = false) l.
Definition encode (ls : list cstr) : cstr := concat (map (λ l, l ++ [nl]) ls).
Definition is_free (l : cstr) : bool := starts_with l "#".

(** The abstract operations. *)
Fixpoint mark_lines (ls : list cstr) (e : cstr) : list cstr :=
  match ls with
  | [] => [fmt_ljust 79 79 e]
  | l :: ls => if is_free l then fmt_ljust 79 79 e :: ls else l :: mark_lines ls e
  end.
Definition free_line (l : cstr) : cstr := "#"%char :: tail l.
Fixpoint clear_lines (ls : list cstr) (p : Z) : option (list cstr) :=
  match ls with
  | [] => None
  | l :: ls =>
      if negb (is_free l) && (atoi l =? p) then Some (free_line l :: ls)
      else cons l <$> clear_lines ls p
  end.

(** The pids of the lines in use. *)
Definition actives (ls : list cstr) : list Z := map atoi (filter (λ l, is_free l = false) ls).

(** *** Reading and writing lines *)

Lemma store_middle {A} (a b c t : list A) :
  length t = length b → store (a ++ b ++ c) (zlength a) t = a ++ t ++ c.
Proof.
  intros Ht. unfold store. rewrite Nat2Z.id, take_app_le, firstn_all by lia.
  rewrite drop_app_ge by lia. replace (length a + length t - length a)%nat with (length b) by lia.
  by rewrite drop_app_length.
Qed.

Lemma store_end {A} (a t : list A) : store a (zlength a) t = a ++ t.
Proof. unfold store. rewrite Nat2Z.id, firstn_all, drop_ge by lia. by rewrite app_nil_r. Qed.

Lemma encode_app ls1 ls2 : encode (ls1 ++ ls2) = encode ls1 ++ encode ls2.
Proof. unfold encode. by rewrite map_app, concat_app. Qed.

Lemma encode_cons l ls : encode (l :: ls) = (l ++ [nl]) ++ encode ls.
Proof. done. Qed.

Lemma encode_middle pre l ls : encode (pre ++ l :: ls) = encode pre ++ (l ++ [nl]) ++ encode ls.
Proof. by rewrite encode_app, encode_cons. Qed.

Lemma take_line_nl l rest k :
  Forall (λ c, (c =c nl) = false) l → (length l < k)%nat → take_line k (l ++ nl :: rest) = l ++ [nl].
Proof.
  intros Hl. revert k. induction Hl as [|c l Hc Hl IH]; intros k Hk; (destruct k as [|k]; [simpl in *; lia|]); cbn [app take_line].
  - by rewrite eqc_refl.
  - rewrite Hc, IH by (simpl in *; lia). done.
Qed.

Lemma line_ok_nl l : line_ok l → Forall (λ c, (c =c nl) = false) l.
Proof. intros [_ H]. eapply Forall_impl; [exact H|]. by intros c []. Qed.

Lemma line_ok_nul l : line_ok l → Forall (λ c, (c =c NUL) = false) l.
Proof. intros [_ H]. eapply Forall_impl; [exact H|]. by intros c []. Qed.

Lemma line_as_string l : line_ok l → as_string (l ++ [nl]) = l ++ [nl].
Proof.
  intros Hl. apply as_string_id, Forall_app. split; [by apply line_ok_nul|]. by repeat constructor.
Qed.

Lemma fgets_line pre l ls :
  line_ok l → fgets BUFLEN (encode (pre ++ l :: ls)) (length (encode pre)) = Some (l ++ [nl]).
Proof.
  intros Hl. unfold fgets. rewrite encode_middle, drop_app_length, <- app_assoc. cbn [app].
  rewrite take_line_nl; [|by apply line_ok_nl|destruct Hl as [-> _]; simpl; lia].
  by destruct l.
Qed.

Lemma fgets_end ls : fgets BUFLEN (encode ls) (length (encode ls)) = None.
Proof. unfold fgets. rewrite drop_ge by lia. done. Qed.

Lemma line_starts l c : line_ok l → starts_with (l ++ [nl]) c = starts_with l c.
Proof. intros [Hl _]. by destruct l. Qed.

(** After a line the position is the start of the next one. *)
Lemma next_pos pre l : (length (encode pre) + length (l ++ [nl]))%nat = length (encode (pre ++ [l])).
Proof.
  rewrite encode_app, encode_cons. change (encode []) with (@nil ascii). by rewrite app_nil_r, !length_app.
Qed.

(** The file after the search of [zoo_mark] has ended. *)
Definition mark_write (file : cstr) (found : mark_search) (entry : cstr) : cstr :=
  match found with
  | MarkAt pos buf => fwrite_at file pos (entry_text (length (as_string buf) - 1) entry)
  | MarkNone => fwrite_at file (length file) (entry_text 79 entry)
  end.

Lemma entry_text_length e : length (entry_text 79 e) = 80%nat.
Proof.
  unfold entry_text, fmt_ljust. rewrite !length_app, length_replicate, length_take. cbn [length]. lia.
Qed.

Lemma mark_loop_spec fuel pre ls e :
  Forall line_ok ls → (length ls < fuel)%nat →
  ∃ found, mark_loop fuel (encode (pre ++ ls)) (length (encode pre)) = Ret found ∧
    mark_write (encode (pre ++ ls)) found e = encode (pre ++ mark_lines ls e).
Proof.
  revert fuel pre. induction ls as [|l ls IH]; intros fuel pre Hls Hf;
    (destruct fuel as [|fuel]; [simpl in *; lia|]); cbn [mark_loop mark_lines].
  - rewrite app_nil_r, fgets_end. exists MarkNone. split; [done|]. cbn [mark_write].
    unfold fwrite_at. rewrite store_end, encode_app. f_equal. unfold encode. simpl. by rewrite app_nil_r.
  - apply Forall_cons in Hls as [Hl Hls]. rewrite fgets_line, line_starts by done. fold (is_free l).
    destruct (is_free l) eqn:E.
    + eexists. split; [done|]. cbn [mark_write]. rewrite line_as_string, length_app by done.
      destruct Hl as [Hlen _]. rewrite Hlen. change (79 + length [nl] - 1)%nat with 79%nat.
      unfold fwrite_at. rewrite encode_middle, store_middle.
      * by rewrite encode_middle.
      * rewrite entry_text_length, length_app, Hlen. done.
    + destruct (IH fuel (pre ++ [l])) as (found & Heq & Hw); [done|simpl in *; lia|].
      rewrite <- !app_assoc in Heq, Hw. cbn [app] in Heq, Hw. exists found.
      rewrite next_pos. by rewrite <- !app_assoc in *.
Qed.

(** *** [atoi] on lines *)

Lemma skip_space_nl l : skip_space (l ++ [nl]) = match skip_space l with [] => [] | s => s ++ [nl] end.
Proof.
  unfold skip_space. induction l as [|c l IH]; [done|]. cbn [app span].
  destruct (isspace c) eqn:E; [|done]. destruct (span isspace l), (span isspace (l ++ [nl])). done.
Qed.

Lemma span_base_nl l : (span (is_base 10) (l ++ [nl])).1 = (span (is_base 10) l).1.
Proof.
  induction l as [|c l IH]; [done|]. cbn [app span]. destruct (is_base 10 c); [|done].
  destruct (span _ l), (span _ (l ++ [nl])). simpl in *. by rewrite IH.
Qed.

Lemma scan_sign_nl c s :
  scan_sign ((c :: s) ++ [nl]) = ((scan_sign (c :: s)).1, (scan_sign (c :: s)).2 ++ [nl]).
Proof. cbn [app scan_sign]. by repeat case_if. Qed.

Lemma atoi_nl l : atoi (l ++ [nl]) = atoi l.
Proof.
  assert (H : (scan_number 10 (l ++ [nl])).1 = (scan_number 10 l).1).
  { rewrite !scan_number_10, skip_space_nl. destruct (skip_space l) as [|c s]; [done|].
    rewrite scan_sign_nl. cbn [fst snd]. by rewrite span_base_nl. }
  unfold atoi, strtol. destruct (scan_number 10 (l ++ [nl])) as [[n1 d1] r1].
  destruct (scan_number 10 l) as [[n2 d2] r2]. simpl in H. by simplify_eq.
Qed.

Lemma free_line_ok l : line_ok l → line_ok (free_line l).
Proof.
  intros [Hl Hc]. unfold free_line. destruct l as [|x l]; [done|]. apply Forall_cons in Hc as [_ Hc].
  split; [done|]. by constructor.
Qed.

Lemma clear_loop_spec fuel pre ls p :
  Forall line_ok ls → (length ls < fuel)%nat →
  ∃ found, clear_loop fuel (encode (pre ++ ls)) (length (encode pre)) p = Ret found ∧
    match found, clear_lines ls p with
    | Some pos, Some ls' => fwrite_at (encode (pre ++ ls)) pos (str "#") = encode (pre ++ ls')
    | None, None => True
    | _, _ => False
    end.
Proof.
  revert fuel pre. induction ls as [|l ls IH]; intros fuel pre Hls Hf;
    (destruct fuel as [|fuel]; [simpl in *; lia|]); cbn [clear_loop clear_lines].
  - rewrite app_nil_r, fgets_end. by exists None.
  - apply Forall_cons in Hls as [Hl Hls]. rewrite fgets_line, line_starts, line_as_string, atoi_nl by done.
    fold (is_free l). rewrite next_pos.
    destruct (IH fuel (pre ++ [l])) as (found & Heq & Hw); [done|simpl in *; lia|].
    rewrite <- !app_assoc in Heq, Hw. cbn [app] in Heq, Hw.
    assert (Hnext : match found, cons l <$> clear_lines ls p with
      | Some pos, Some ls' => fwrite_at (encode (pre ++ l :: ls)) pos (str "#") = encode (pre ++ ls')
      | None, None => True | _, _ => False end).
    { destruct found, (clear_lines ls p); try done. by rewrite <- app_assoc in Hw. }
    destruct (is_free l) eqn:E; cbn [negb andb]; [by exists found|].
    destruct (atoi l =? p); [|by exists found]. eexists. split; [done|]. cbn beta iota.
    rewrite !encode_middle. destruct l as [|x l]; [by destruct Hl|]. unfold fwrite_at, free_line.
    apply (store_middle (encode pre) [x] ((l ++ [nl]) ++ encode ls) (str "#")). done.
Qed.

Lemma clear_lines_ok ls p ls' : Forall line_ok ls → clear_lines ls p = Some ls' → Forall line_ok ls'.
Proof.
  revert ls'. induction ls as [|l ls IH]; intros ls' Hls; simpl; [done|].
  apply Forall_cons in Hls as [Hl Hls]. case_if.
  - intros [= <-]. constructor; [by apply free_line_ok|done].
  - intros (ls0 & Heq & ->)%fmap_Some. constructor; [done|]. by apply IH.
Qed.

(** *** Active pids *)

Lemma actives_cons l ls : actives (l :: ls) = if is_free l then actives ls else atoi l :: actives ls.
Proof.
  unfold actives. rewrite filter_cons. destruct (is_free l); [by rewrite decide_False|by rewrite decide_True].
Qed.

Lemma actives_clear ls p :
  Forall line_ok ls →
  match clear_lines ls p with
  | Some ls' => actives ls ≡ₚ p :: actives ls' ∧ length ls' = length ls
  | None => p ∉ actives ls
  end.
Proof.
  induction 1 as [|l ls Hl Hls IH]; simpl; [by apply not_elem_of_nil|]. rewrite actives_cons.
  destruct (is_free l) eqn:E; cbn [negb andb].
  - destruct (clear_lines ls p) as [ls'|]; simpl; [|done]. rewrite actives_cons, E.
    destruct IH as [? ?]. split; [done|lia].
  - case_if.
    + simpl. split; [|done]. rewrite actives_cons. by subst p.
    + destruct (clear_lines ls p) as [ls'|]; simpl.
      * rewrite actives_cons, E. destruct IH as [-> ?]. split; [apply perm_swap|lia].
      * rewrite not_elem_of_cons. split; [congruence|done].
Qed.

Lemma actives_mark ls e :
  is_free (fmt_ljust 79 79 e) = false →
  actives (mark_lines ls e) ≡ₚ atoi (fmt_ljust 79 79 e) :: actives ls.
Proof.
  intros He. induction ls as [|l ls IH]; cbn [mark_lines].
  - by rewrite actives_cons, He.
  - rewrite (actives_cons l). destruct (is_free l) eqn:E; rewrite actives_cons.
    + by rewrite He.
    + rewrite E, IH. apply perm_swap.
Qed.

Lemma mark_lines_ok ls e :
  Forall line_ok ls → line_ok (fmt_ljust 79 79 e) → Forall line_ok (mark_lines ls e).
Proof.
  intros Hls He. induction Hls as [|l ls Hl Hls IH]; cbn [mark_lines]; [by constructor|].
  destruct (is_free l); by constructor.
Qed.

(** A new line is added only when no line is free. *)
Lemma mark_lines_length ls e :
  length (mark_lines ls e) = (length ls + if existsb is_free ls then 0 else 1)%nat.
Proof. induction ls as [|l ls IH]; simpl; [done|]. destruct (is_free l); simpl; lia. Qed.

(** *** The text of an entry *)

(** The line that changes: the first free one, or one more behind the last. *)
Lemma mark_lines_free l1 l l2 e : Forall (λ l, is_free l = false) l1 → is_free l = true → mark_lines (l1 ++ l :: l2) e = l1 ++ fmt_ljust 79 79 e :: l2.
Proof. induction 1 as [|x l1 Hx _ IH]; intros Hl; simpl; [by rewrite Hl|]. rewrite Hx. by f_equal; auto. Qed.
Lemma mark_lines_full ls e : Forall (λ l, is_free l = false) ls → mark_lines ls e = ls ++ [fmt_ljust 79 79 e].
Proof. induction 1 as [|x ls Hx _ IH]; simpl; [done|]. rewrite Hx. by f_equal. Qed.

Definition text_ok (s : cstr) : Prop := Forall (λ c, (c =c nl) = false ∧ (c =c NUL) = false) s.

(** The line written for a pid. *)
Definition entry_line (p : Z) (tag cmdline : cstr) : cstr :=
  fmt_ljust 79 79 (snprintf_cut 80 (fmt_d p ++ str "," ++ tag ++ str "," ++ cmdline)).

Lemma digits_text_ok p : 0 ≤ p → text_ok (digits 10 p).
Proof.
  intros Hp. destruct (digits_spec 10 p ltac:(lia) Hp) as (_ & Hd & _).
  eapply Forall_impl; [exact Hd|]. simpl. intros c Hc. by destruct c as [[] [] [] [] [] [] [] []].
Qed.

Lemma fmt_ljust_ok e : text_ok e → line_ok (fmt_ljust 79 79 e).
Proof.
  intros He. pose proof (entry_text_length e) as Hl. unfold entry_text in Hl. rewrite length_app in Hl.
  cbn [length] in Hl. split; [lia|]. unfold fmt_ljust. apply Forall_app. split; [by apply Forall_take|].
  apply Forall_replicate. done.
Qed.

(** The line starts with the pid and a comma. *)
Lemma entry_line_starts p tag cmdline :
  0 ≤ p ≤ INT_MAX → ∃ rest, entry_line p tag cmdline = digits 10 p ++ ","%char :: rest.
Proof.
  intros Hp. unfold entry_line, fmt_d, snprintf_cut, fmt_ljust. rewrite (proj2 (Z.ltb_ge _ _)) by lia.
  assert (Hl : (length (digits 10 p) ≤ 10)%nat) by (apply digits_length; unfold INT_MAX in *; lia).
  change (Z.to_nat (80 - 1)) with 79%nat. rewrite take_take, Nat.min_id.
  rewrite take_app_ge by lia. destruct (79 - length (digits 10 p))%nat as [|k] eqn:E; [lia|].
  cbn [str String.list_ascii_of_string app take]. rewrite <- app_assoc. cbn [app]. eauto.
Qed.

Lemma entry_line_tag p tag more cmdline :
  0 ≤ p ≤ INT_MAX → (length tag ≤ 60)%nat →
  ∃ rest, entry_line p (tag ++ more) cmdline = digits 10 p ++ ","%char :: tag ++ rest.
Proof.
  intros Hp Ht. unfold entry_line, fmt_d, snprintf_cut, fmt_ljust. rewrite (proj2 (Z.ltb_ge _ _)) by lia.
  assert (Hl : (length (digits 10 p) ≤ 10)%nat) by (apply digits_length; unfold INT_MAX in *; lia).
  change (Z.to_nat (80 - 1)) with 79%nat. rewrite take_take, Nat.min_id.
  rewrite take_app_ge by lia. destruct (79 - length (digits 10 p))%nat as [|k] eqn:E; [lia|].
  cbn [str String.list_ascii_of_string app take]. rewrite <- (app_assoc tag), take_app_ge by lia.
  rewrite <- app_assoc. cbn [app]. rewrite <- app_assoc. eauto.
Qed.

Lemma entry_line_pid p tag cmdline :
  0 ≤ p ≤ INT_MAX → is_free (entry_line p tag cmdline) = false ∧ atoi (entry_line p tag cmdline) = p.
Proof.
  intros Hp. destruct (entry_line_starts p tag cmdline Hp) as (rest & ->). split; [|by apply atoi_digits].
  destruct (digits_spec 10 p ltac:(lia) ltac:(lia)) as (Hne & Hd & _).
  destruct (digits 10 p) as [|d l]; [done|]. apply Forall_cons in Hd as [Hd _].
  clear -Hd. by destruct d as [[] [] [] [] [] [] [] []].
Qed.

Lemma entry_line_ok p tag cmdline :
  0 ≤ p → text_ok tag → text_ok cmdline → line_ok (entry_line p tag cmdline).
Proof.
  intros Hp Ht Hc. apply fmt_ljust_ok. unfold snprintf_cut, fmt_d. rewrite (proj2 (Z.ltb_ge _ _)) by lia.
  apply Forall_take, Forall_app. split; [by apply digits_text_ok|]. apply Forall_app. split; [by repeat constructor|].
  apply Forall_app. split; [done|]. apply Forall_app. split; [by repeat constructor|done].
Qed.

(** *** The operations on well-formed files *)

(** A file of complete lines, not locked. *)
Definition zoo_file (ls : list cstr) : zoo := Zoo (encode ls) false.

Lemma encode_length ls : Forall line_ok ls → (length ls ≤ length (encode ls))%nat.
Proof.
  induction 1 as [|l ls Hl Hls IH]; [done|]. rewrite encode_cons, !length_app. simpl. lia.
Qed.

Lemma zoo_mark_lines ls e :
  Forall line_ok ls → zoo_mark env_ok (Some (zoo_file ls)) e = Ret (0, Some (zoo_file (mark_lines ls e))).
Proof.
  intros Hls. destruct (mark_loop_spec (S (length (encode ls))) [] ls e Hls) as (found & Heq & Hw).
  { pose proof (encode_length ls Hls). lia. }
  cbn [app] in Heq, Hw. change (length (encode [])) with 0%nat in Heq.
  unfold zoo_mark, zoo_lock, zoo_file. cbn [fcntl_loop lock_errs env_ok].
  rewrite Z.eqb_refl, !res_bind_ret. cbn [content locked]. change (0 =? -1) with false. cbn iota.
  change (negb (0 =? 0)) with false. cbn iota. cbn [content]. rewrite Heq, res_bind_ret. cbn [seek_ok env_ok negb].
  fold (mark_write (encode ls) found e). rewrite Hw. done.
Qed.

Lemma zoo_clear_lines ls p :
  Forall line_ok ls →
  zoo_clear env_ok (Some (zoo_file ls)) p =
  Ret (match clear_lines ls p with
       | Some ls' => (0, Some (zoo_file ls'))
       | None => (1, Some (zoo_file ls))
       end).
Proof.
  intros Hls. destruct (clear_loop_spec (S (length (encode ls))) [] ls p Hls) as (found & Heq & Hw).
  { pose proof (encode_length ls Hls). lia. }
  cbn [app] in Heq, Hw. change (length (encode [])) with 0%nat in Heq.
  unfold zoo_clear, zoo_lock, zoo_file. cbn [fcntl_loop lock_errs env_ok].
  rewrite Z.eqb_refl, !res_bind_ret. cbn [content locked]. change (0 =? -1) with false. cbn iota.
  change (negb (0 =? 0)) with false. cbn iota. cbn [content]. rewrite Heq, res_bind_ret.
  destruct found as [pos|], (clear_lines ls p) as [ls'|]; try done.
  cbn [seek_ok env_ok negb]. rewrite Hw. done.
Qed.

(** ** The interface of the active file

    What the scheduler uses of it: entries are added and removed by pid. *)
Class ActiveFile (F : Type) : Type := {
  af_mark : F → Z → cstr → cstr → Z * F;
  af_clear : F → Z → Z * F
}.

(** What an active file promises: a bag of pids.  Both operations return 0,
    except that removing a pid that is not there gives 1. *)
Class ActiveFileLaws (F : Type) `{ActiveFile F} : Type := {
  af_ok : F → Prop;
  af_pids : F → list Z;
  af_mark_spec f p tag cmdline :
    af_ok f → 0 ≤ p ≤ INT_MAX → text_ok tag → text_ok cmdline →
    (af_mark f p tag cmdline).1 = 0 ∧ af_ok (af_mark f p tag cmdline).2 ∧
    af_pids (af_mark f p tag cmdline).2 ≡ₚ p :: af_pids f;
  af_clear_spec f p :
    af_ok f →
    af_ok (af_clear f p).2 ∧
    (p ∈ af_pids f → (af_clear f p).1 = 0 ∧ af_pids f ≡ₚ p :: af_pids (af_clear f p).2) ∧
    (p ∉ af_pids f → (af_clear f p).1 = 1 ∧ (af_clear f p).2 = f)
}.

(** [zoolib] as an active file, when no system call fails. *)
Definition run_zoo (m : res (Z * option zoo)) (z : zoo) : Z * zoo :=
  match m with Ret (r, Some z') => (r, z') | Ret (r, None) => (r, z) | _ => (-1, z) end.

#[export] Instance zoo_active_file : ActiveFile zoo := {
  af_mark z p tag cmdline := run_zoo (zoo_mark_cmdline env_ok (Some z) p tag cmdline) z;
  af_clear z p := run_zoo (zoo_clear env_ok (Some z) p) z
}.

(** The lines of a file, read back with [fgets]. *)
Fixpoint decode (k : nat) (file : cstr) : list cstr :=
  match k with
  | O => []
  | S k => if decide (file = []) then [] else take 79 file :: decode k (drop 80 file)
  end.
Definition zoo_lines (z : zoo) : list cstr := decode (length (content z)) (content z).

Lemma decode_encode ls k : Forall line_ok ls → (length ls ≤ k)%nat → decode k (encode ls) = ls.
Proof.
  intros Hls. revert k. induction Hls as [|l ls [Hl _] Hls IH]; intros k Hk.
  - by destruct k.
  - destruct k as [|k]; [simpl in *; lia|]. cbn [decode]. rewrite decide_False by (rewrite encode_cons; by destruct l).
    rewrite encode_cons, <- app_assoc. rewrite take_app_length' by done.
    replace 80%nat with (length l + 1)%nat by (by rewrite Hl).
    rewrite <- drop_drop, drop_app_length. cbn [app drop]. rewrite drop_0. f_equal. apply IH. simpl in *. lia.
Qed.

Lemma zoo_lines_file ls : Forall line_ok ls → zoo_lines (zoo_file ls) = ls.
Proof. intros Hls. apply decode_encode; [done|]. by apply encode_length. Qed.

#[export, refine] Instance zoo_active_file_laws : ActiveFileLaws zoo := {
  af_ok z := ∃ ls, Forall line_ok ls ∧ z = zoo_file ls;
  af_pids z := actives (zoo_lines z)
}.
Proof.
  - intros z p tag cmdline (ls & Hls & ->) Hp Ht Hc. cbn [af_mark zoo_active_file]. unfold zoo_mark_cmdline.
    rewrite zoo_mark_lines by done. cbn [run_zoo fst snd].
    assert (Hm : Forall line_ok (mark_lines ls (snprintf_cut 80 (fmt_d p ++ str "," ++ tag ++ str "," ++ cmdline))))
      by (apply mark_lines_ok; [done|by apply (entry_line_ok p tag cmdline); [lia|..]]).
    split; [done|]. split; [by eexists|]. rewrite !zoo_lines_file by done.
    destruct (entry_line_pid p tag cmdline Hp) as [Hf Hpid].
    rewrite actives_mark by exact Hf. fold (entry_line p tag cmdline). by rewrite Hpid.
  - intros z p (ls & Hls & ->). cbn [af_clear zoo_active_file]. rewrite zoo_clear_lines, zoo_lines_file by done.
    pose proof (actives_clear ls p Hls) as Ha. pose proof (clear_lines_ok ls p) as Hok.
    destruct (clear_lines ls p) as [ls'|]; cbn [run_zoo fst snd].
    + specialize (Hok ls' Hls eq_refl). destruct Ha as [Ha _]. split; [by eexists|].
      rewrite zoo_lines_file by done. split; [done|]. intros Hn. destruct Hn. rewrite Ha. left.
    + split; [by eexists|]. split; [done|]. done.
Defined.

(** *** Building the command line *)

(** Words separated by single spaces. *)
Fixpoint unwords (ws : list cstr) : cstr :=
  match ws with
  | [] => []
  | [w] => w
  | w :: ws' => w ++ " "%char :: unwords ws'
  end.

Lemma strcat_ok t rest s :
  (length s ≤ length rest)%nat →
  ∃ rest', strcat (t ++ NUL :: rest, zlength t) s = Ret ((t ++ s) ++ NUL :: rest', zlength (t ++ s)) ∧
    length rest' = (length rest - length s)%nat.
Proof.
  intros Hl. exists (drop (length s) rest). split; [|by rewrite length_drop]. unfold strcat.
  rewrite mem_write_ok; [|lia|rewrite !length_app; simpl; lia]. rewrite res_bind_ret. do 2 f_equal.
  - unfold store. rewrite Nat2Z.id, take_app_le, firstn_all by lia. rewrite drop_app_ge by lia.
    rewrite length_app. cbn [length]. replace (length t + (length s + 1) - length t)%nat with (S (length s)) by lia.
    cbn [drop]. by rewrite <- !app_assoc.
  - rewrite length_app. lia.
Qed.

(** The space the remaining arguments need. *)
Definition args_size (argv : list cstr) : nat := foldr (λ arg n, (length arg + 1 + n)%nat) 0%nat argv.

Lemma cat_loop_ok argv a t rest :
  (0 < a)%nat → (args_size argv ≤ length rest)%nat →
  ∃ rest', cat_loop a argv (t ++ NUL :: rest, zlength t) =
    Ret ((t ++ concat (map (cons " "%char) argv)) ++ NUL :: rest', zlength (t ++ concat (map (cons " "%char) argv))).
Proof.
  revert a t rest. induction argv as [|w argv IH]; intros a t rest Ha Hs; cbn [cat_loop map concat].
  - exists rest. by rewrite app_nil_r.
  - destruct a as [|a]; [lia|]. simpl in Hs.
    destruct (strcat_ok t rest (str " ")) as (r1 & -> & Hl1); [simpl; lia|]. rewrite res_bind_ret.
    destruct (strcat_ok (t ++ str " ") r1 w) as (r2 & -> & Hl2); [simpl in *; lia|]. rewrite res_bind_ret.
    destruct (IH (S (S a)) ((t ++ str " ") ++ w) r2) as (r3 & ->); [lia|simpl in *; lia|].
    exists r3. by rewrite <- !app_assoc.
Qed.

Lemma unwords_concat w ws : unwords (w :: ws) = w ++ concat (map (cons " "%char) ws).
Proof.
  revert w. induction ws as [|x ws IH]; intros w; [by rewrite app_nil_r|].
  change (unwords (w :: x :: ws)) with (w ++ " "%char :: unwords (x :: ws)). by rewrite IH.
Qed.

Lemma cat_size argv : foldl (λ size arg, size + zlength arg + 1) 0 argv = Z.of_nat (args_size argv).
Proof.
  assert (Hg : ∀ n, foldl (λ size arg, size + zlength arg + 1) n argv = n + Z.of_nat (args_size argv));
    [|by rewrite Hg].
  induction argv as [|w argv IH]; intros n; simpl; [lia|]. rewrite IH. lia.
Qed.

Lemma as_string_nul t rest : Forall (λ x, (x =c NUL) = false) t → as_string (t ++ NUL :: rest) = t.
Proof.
  intros Ht. unfold as_string. rewrite span_app; [done| |done].
  eapply Forall_impl; [exact Ht|]. simpl. by intros x ->.
Qed.

Lemma is_prefix_app (a b : cstr) : is_prefix a (a ++ b) = true.
Proof. induction a as [|x a IH]; simpl; [done|]. by rewrite eqc_refl. Qed.

(** ** Properties *)

(** C32: [zoo_mark_cmdline] on a well-formed active file succeeds, releases the lock, and
    puts the entry, cut or filled to 79 characters, into the first free line, or behind the
    last line when none is free; every other line is as it was.  So every line stays 80
    characters long, and the pid is added to the pids in use. *)
Theorem zoo_mark_cmdline_spec ls p tag cmdline
  (Hls : Forall line_ok ls) (Hp : 0 ≤ p ≤ INT_MAX) (Ht : text_ok tag) (Hc : text_ok cmdline) :
  ∃ ls', zoo_mark_cmdline env_ok (Some (zoo_file ls)) p tag cmdline = Ret (0, Some (zoo_file ls')) ∧
    (∀ l1 l l2, ls = l1 ++ l :: l2 → Forall (λ l, is_free l = false) l1 → is_free l = true →
       ls' = l1 ++ entry_line p tag cmdline :: l2) ∧
    (Forall (λ l, is_free l = false) ls → ls' = ls ++ [entry_line p tag cmdline]) ∧
    Forall line_ok ls' ∧ actives ls' ≡ₚ p :: actives ls ∧
    length ls' = (length ls + if existsb is_free ls then 0 else 1)%nat.
Proof.
  eexists. unfold zoo_mark_cmdline. rewrite zoo_mark_lines by done. split; [done|].
  destruct (entry_line_pid p tag cmdline Hp) as [Hf Hpid]. split_and!.
  - intros l1 l l2 -> H1 H2. by apply mark_lines_free.
  - apply mark_lines_full.
  - apply mark_lines_ok; [done|]. apply (entry_line_ok p tag cmdline); [lia|done|done].
  - rewrite actives_mark by exact Hf. fold (entry_line p tag cmdline). by rewrite Hpid.
  - apply mark_lines_length.
Qed.

(** [zoo_clear] removes one entry of the pid and returns 0 when the pid is in
    use, and otherwise returns 1 and leaves the file as it was. *)
Theorem zoo_clear_spec ls p (Hls : Forall line_ok ls) :
  (p ∈ actives ls →
     ∃ ls', zoo_clear env_ok (Some (zoo_file ls)) p = Ret (0, Some (zoo_file ls')) ∧
       Forall line_ok ls' ∧ actives ls ≡ₚ p :: actives ls' ∧ length ls' = length ls) ∧
  (p ∉ actives ls → zoo_clear env_ok (Some (zoo_file ls)) p = Ret (1, Some (zoo_file ls))).
Proof.
  rewrite zoo_clear_lines by done. pose proof (actives_clear ls p Hls) as Ha.
  pose proof (clear_lines_ok ls p) as Hok. destruct (clear_lines ls p) as [ls'|]; split; try done.
  - intros _. exists ls'. destruct Ha. split_and!; auto.
  - intros Hn. destruct Hn. destruct Ha as [-> _]. left.
Qed.

(** The line [zoo_getpid] finds may belong to another tag: it compares only
    as many characters as the tag asked for has, so the entry of a longer tag
    that starts with it is taken. *)
Theorem zoo_getpid_prefix p tag more cmdline
  (Hp : 0 ≤ p ≤ INT_MAX) (Hlen : (length tag ≤ 60)%nat)
  (Ht : text_ok tag) (Hm : text_ok more) (Hc : text_ok cmdline) :
  zoo_getpid env_ok (Some (zoo_file [entry_line p (tag ++ more) cmdline])) tag =
    Ret (p, Some (zoo_file [entry_line p (tag ++ more) cmdline])).
Proof.
  set (l := entry_line p (tag ++ more) cmdline).
  assert (Hl : line_ok l) by (apply entry_line_ok; [lia|by apply Forall_app|done]).
  destruct (entry_line_pid p (tag ++ more) cmdline Hp) as [Hf Hpid]. fold l in Hf, Hpid.
  assert (Hpre : ∃ s, strchr (l ++ [nl]) "," = Some (","%char :: s) ∧ is_prefix tag s = true).
  { destruct (entry_line_tag p tag more cmdline Hp Hlen) as (rest & Hrest). exists (tag ++ rest ++ [nl]).
    unfold l. rewrite Hrest, <- app_assoc. rewrite strchr_skip.
    - cbn [app strchr]. rewrite eqc_refl, <- app_assoc. split; [done|]. apply is_prefix_app.
    - apply (digits_no 10); [done|]. apply digits_spec; lia. }
  unfold zoo_getpid, zoo_lock, zoo_file. cbn [fcntl_loop lock_errs env_ok].
  rewrite Z.eqb_refl, !res_bind_ret. cbn [content locked]. change (0 =? -1) with false. cbn iota.
  change (negb (0 =? 0)) with false. cbn iota. cbn [content getpid_loop].
  pose proof (fgets_line [] l [] Hl) as Hg. cbn [app] in Hg. change (length (encode [])) with 0%nat in Hg.
  rewrite Hg, line_starts by done. fold (is_free l). rewrite Hf, line_as_string by done.
  destruct Hpre as (s & -> & Hs). cbn [tail]. rewrite Hs, atoi_nl, Hpid. done.
Qed.

Lemma cat_args_unwords argv :
  argv ≠ [] → Forall (Forall (λ x, (x =c NUL) = false)) argv → cat_args true argv = Ret (Some (unwords argv)).
Proof.
  intros Hne Hnul. destruct argv as [|w argv]; [done|]. apply Forall_cons in Hnul as [Hw Hargv].
  unfold cat_args. rewrite cat_size, Nat2Z.id. cbn [negb].
  rewrite mem_write_ok; [|lia|rewrite length_replicate; simpl; lia]. rewrite res_bind_ret.
  cbn [args_size foldr]. replace (length w + 1 + _)%nat with (S (length w + args_size argv)) by (unfold args_size; lia).
  change (store _ 0 [NUL]) with (NUL :: drop 0 (replicate (length w + args_size argv) NUL)).
  rewrite drop_0. cbn [cat_loop].
  destruct (strcat_ok [] (replicate (length w + args_size argv) NUL) w) as (r1 & Heq & Hl1); [rewrite length_replicate; lia|].
  cbn [app] in Heq. change (zlength []) with 0 in Heq. rewrite !res_bind_ret, Heq, res_bind_ret.
  rewrite length_replicate in Hl1.
  destruct (cat_loop_ok argv 1 w r1) as (r2 & ->); [lia|lia|]. rewrite res_bind_ret. cbn [fst].
  rewrite as_string_nul; [by rewrite unwords_concat|]. apply Forall_app. split; [done|].
  apply Forall_concat, Forall_map. eapply Forall_impl; [exact Hargv|]. intros x Hx. by constructor.
Qed.

(** [cat_args] joins the arguments with single spaces, inside the buffer it
    allocates. *)
Theorem cat_args_spec argv (Hne : argv ≠ []) (Hnul : Forall (Forall (λ x, (x =c NUL) = false)) argv) :
  cat_args true argv = Ret (Some (unwords argv)).
Proof. by apply cat_args_unwords. Qed.

(** ** Witnesses *)

Definition ex_lines : list cstr :=
  [entry_line 812 (str "pan") (str "ltp-pan -n test"); free_line (entry_line 0 (str "pan") []); entry_line 900 (str "fork13") (str "fork13 -i 100")].

Lemma ex_lines_ok : Forall line_ok ex_lines.
Proof.
  assert (Ht : ∀ s, forallb (λ c, negb (c =c nl) && negb (c =c NUL)) s = true → text_ok s).
  { intros s Hs. apply Forall_forall. intros c Hc. rewrite forallb_forall in Hs.
    apply list_elem_of_In, Hs in Hc. by destruct (c =c nl), (c =c NUL). }
  repeat constructor; try apply free_line_ok; apply entry_line_ok; try lia; apply Ht; vm_compute; reflexivity.
Qed.

Lemma zoo_mark_cmdline_spec_witness :
  zoo_mark_cmdline env_ok (Some (zoo_file ex_lines)) 901 (str "t1") (str "ls") =
    Ret (0, Some (zoo_file [entry_line 812 (str "pan") (str "ltp-pan -n test"); entry_line 901 (str "t1") (str "ls");
      entry_line 900 (str "fork13") (str "fork13 -i 100")])).
Proof.
  destruct (zoo_mark_cmdline_spec ex_lines 901 (str "t1") (str "ls")) as (ls' & H1 & H2 & _);
    [exact ex_lines_ok|unfold INT_MAX; lia|repeat constructor|repeat constructor|].
  rewrite H1. do 4 f_equal. unfold ex_lines in H2.
  apply (H2 [_] _ [_] eq_refl); [repeat constructor|reflexivity].
Defined.

Lemma zoo_clear_spec_witness :
  ∃ ls', zoo_clear env_ok (Some (zoo_file ex_lines)) 900 = Ret (0, Some (zoo_file ls')) ∧
    [812; 900] ≡ₚ 900 :: actives ls'.
Proof.
  destruct (zoo_clear_spec ex_lines 900 ex_lines_ok) as [H _].
  assert (Ha : actives ex_lines = [812; 900]) by (vm_compute; reflexivity). rewrite Ha in H.
  destruct H as (ls' & H1 & _ & H2 & _); [right; left|]. exists ls'. split; [exact H1|exact H2].
Defined.

Lemma zoo_getpid_prefix_witness :
  zoo_getpid env_ok (Some (zoo_file [entry_line 77 (str "fork" ++ str "13") (str "run")])) (str "fork") =
    Ret (77, Some (zoo_file [entry_line 77 (str "fork" ++ str "13") (str "run")])).
Proof.
  apply zoo_getpid_prefix; [unfold INT_MAX; lia|simpl; lia|repeat constructor..].
Defined.

Lemma cat_args_spec_witness :
  cat_args true [str "ltp-pan"; str "-n"; str "42"] = Ret (Some (str "ltp-pan -n 42")).
Proof. apply (cat_args_spec [str "ltp-pan"; str "-n"; str "42"]); [discriminate|repeat constructor]. Defined.
