(* ===== verification/PanColl.v ===== *)
(** * The command collection of pan: pan/ltp-pan.c

    [slurp] reads the command file, [get_collection] turns its lines and the
    words left on the command line into entries, [subst_pcnt_f] fills in the
    [%f] of a command. *)

From S2P Require Import Prelude CInt CMem CString.
Local Open Scope Z_scope.

(** One entry of the collection; [pcnt_f] is used as a flag only. *)
Record coll_entry : Type := CollEntry { name : cstr; cmdline : cstr; pcnt_f : bool }.
Record collection : Type := Collection { cnt : Z; ary : list coll_entry }.

#[global] Instance coll_entry_eq_dec : EqDecision coll_entry.
Proof. solve_decision. Defined.
#[global] Instance coll_entry_inhabited : Inhabited coll_entry := populate (CollEntry [] [] false).

(** What [open], [fstat] and [read] answer for a file. *)
Record slurp_env : Type := SlurpEnv { open_ok : bool; fstat_ok : bool; st_size : Z; data : cstr }.

Definition slurp (env : slurp_env) : option cstr :=
  if negb (open_ok env) then None
  else if negb (fstat_ok env) then None
  else if negb (zlength (data env) =? st_size env) then None
  else Some (data env).

Definition newline : ascii := "010"%char.
Definition tab : ascii := "009"%char.

(** The lines that [strchr(a, '\n')] cuts a string into. *)
Fixpoint split_lines (s : cstr) : list cstr :=
  match s with
  | [] => [[]]
  | c :: s' =>
      if c =c newline then [] :: split_lines s'
      else match split_lines s' with l :: ls => (c :: l) :: ls | [] => [[c]] end
  end.

(** [if ((n->pcnt_f = strstr(a, "%f"))) n->pcnt_f\[1\] = 's'] *)
Fixpoint set_pcnt (s : cstr) : cstr :=
  match s with
  | "%"%char :: "f"%char :: s' => "%"%char :: "s"%char :: s'
  | c :: s' => c :: set_pcnt s'
  | [] => []
  end.

(** [strsep(&a, " \t")]: the first word, and what follows its separator. *)
Definition strsep (a : cstr) : cstr * option cstr :=
  let '(w, rest) := span (λ c, negb (mem c [" "%char; tab])) a in
  (w, match rest with [] => None | _ :: r => Some r end).

(** One line of the file; [strdup] of a null pointer is undefined. *)
Definition parse_line (a : cstr) : res (option coll_entry) :=
  match a with
  | [] => Ret None
  | c :: _ =>
      if (c =c "#"%char) || (c =c " "%char) then Ret None
      else
        let pf := strstr a (str "%f") in
        let '(nm, rest) := strsep (set_pcnt a) in
        match rest with
        | Some rest => Ret (Some (CollEntry nm rest pf))
        | None => Undef
        end
  end.

Fixpoint parse_lines (ls : list cstr) : res (list coll_entry) :=
  match ls with
  | [] => Ret []
  | l :: ls =>
      e ← parse_line l;
      es ← parse_lines ls;
      Ret (match e with Some e => e :: es | None => es end)
  end.

(** [strncat(workstr, s, left)] into [char workstr\[1024\]], [left] converted to
    [size_t]. *)
Definition strncat1024 (w s : cstr) (left : Z) : res cstr :=
  let w := w ++ take (Z.to_nat (Z.min (u64 left) (zlength s))) s in
  if zlength w + 1 <=? 1024 then Ret w else Undef.

Fixpoint args_loop (w : cstr) (workstr_left : Z) (args : list cstr) : res cstr :=
  match args with
  | [] => Ret w
  | a :: args =>
      w ← strncat1024 w a workstr_left;
      let workstr_left := s32 (workstr_left - zlength a) in
      w ← strncat1024 w (str " ") workstr_left;
      args_loop w (s32 (workstr_left - 1)) args
  end.

(** [args] are [argv\[optind\]] and what follows; the string a buffer with an
    embedded zero holds ends there. *)
Definition get_collection (file : slurp_env) (args : list cstr) : res (option collection) :=
  match slurp file with
  | None => Ret None
  | Some buf =>
      es ← parse_lines (split_lines (as_string buf));
      es ← (match args with
            | [] => Ret es
            | _ =>
                w ← args_loop [] 1023 args;
                Ret (es ++ [CollEntry (str "cmdln") (set_pcnt w) (strstr w (str "%f"))])
            end);
      Ret (Some (Collection (zlength es) es))
  end.

(** [printf] with one string argument: another conversion than one [%s] is
    undefined. *)
Fixpoint format1 (fmt : cstr) (arg : option cstr) : res cstr :=
  match fmt with
  | [] => Ret []
  | c :: fmt =>
      if c =c "%"%char then
        match fmt with
        | d :: fmt =>
            if d =c "%"%char then r ← format1 fmt arg; Ret ("%"%char :: r)
            else if d =c "s"%char then
              match arg with
              | Some a => r ← format1 fmt None; Ret (a ++ r)
              | None => Undef
              end
            else Undef
        | [] => Undef
        end
      else r ← format1 fmt arg; Ret (c :: r)
  end.

(** The command line and the next value of the static counter. *)
Definition subst_pcnt_f (pid counter : Z) (colle : coll_entry) : res (cstr * Z) :=
  if negb (pcnt_f colle) then Ret (cmdline colle, counter)
  else
    next ← ck32 (counter + 1);
    new_cmdline ← format1 (cmdline colle) (Some (snprintf_cut 20 (fmt_d pid ++ str "_" ++ fmt_d counter)));
    Ret (snprintf_cut 1024 new_cmdline, next).

(** ** Command files *)

(** What a line of a command file holds. *)
Inductive item : Type :=
| Comment (text : cstr)
| Blank
| Entry (nm : cstr) (sep : ascii) (cmd : cstr).

Definition no_nl (s : cstr) : Prop := Forall (λ c, (c =c newline) = false ∧ (c =c NUL) = false) s.

Definition item_ok (i : item) : Prop :=
  match i with
  | Comment t => no_nl t
  | Blank => True
  | Entry nm sep cmd =>
      no_nl nm ∧ no_nl cmd ∧ mem sep [" "%char; tab] = true ∧ nm ≠ [] ∧
      Forall (λ c, mem c [" "%char; tab] = false ∧ (c =c "%"%char) = false) nm ∧
      match nm with c :: _ => (c =c "#"%char) = false | [] => False end
  end.
Definition item_line (i : item) : cstr :=
  match i with
  | Comment t => "#"%char :: t
  | Blank => []
  | Entry nm sep cmd => nm ++ sep :: cmd
  end.
(** The text of the file, and the entries it stands for. *)
Definition file_text (its : list item) : cstr := concat (map (λ i, item_line i ++ [newline]) its).
Definition file_entries (its : list item) : list coll_entry :=
  omap (λ i, match i with
             | Entry nm _ cmd => Some (CollEntry nm (set_pcnt cmd) (strstr cmd (str "%f")))
             | _ => None
             end) its.

Lemma split_lines_line l s :
  Forall (λ c, (c =c newline) = false) l → split_lines (l ++ newline :: s) = l :: split_lines s.
Proof. induction 1 as [|c l Hc Hl IH]; cbn [app split_lines]; [by rewrite eqc_refl|]. by rewrite Hc, IH. Qed.

Lemma no_nl_nl s : no_nl s → Forall (λ c, (c =c newline) = false) s.
Proof. intros H. eapply Forall_impl; [exact H|]. by intros c []. Qed.

Lemma item_line_no_nl i : item_ok i → no_nl (item_line i).
Proof.
  destruct i as [t| |nm sep cmd]; simpl.
  - intros Ht. by constructor.
  - constructor.
  - intros (Hn & Hc & Hs & _). apply Forall_app. split; [done|]. constructor; [|done].
    clear -Hs. by destruct sep as [[] [] [] [] [] [] [] []].
Qed.

Lemma split_file its : Forall item_ok its → split_lines (file_text its) = map item_line its ++ [[]].
Proof.
  unfold file_text. induction 1 as [|i its Hi His IH]; [done|]. cbn [map concat].
  rewrite <- app_assoc. cbn [app]. rewrite split_lines_line by (by apply no_nl_nl, item_line_no_nl).
  by rewrite IH.
Qed.

Lemma set_pcnt_word nm c s :
  Forall (λ c, mem c [" "%char; tab] = false ∧ (c =c "%"%char) = false) nm →
  (c =c "%"%char) = false → set_pcnt (nm ++ c :: s) = nm ++ c :: set_pcnt s.
Proof.
  intros Hn Hc. assert (Hcons : ∀ x t, (x =c "%"%char) = false → set_pcnt (x :: t) = x :: set_pcnt t).
  { intros x t Hx. clear -Hx. by destruct x as [[] [] [] [] [] [] [] []]. }
  induction Hn as [|x nm [_ Hx] Hn IH]; cbn [app]; rewrite Hcons by done; [done|]. by rewrite IH.
Qed.

Lemma strstr_word nm c s :
  Forall (λ c, mem c [" "%char; tab] = false ∧ (c =c "%"%char) = false) nm →
  (c =c "%"%char) = false → strstr (nm ++ c :: s) (str "%f") = strstr s (str "%f").
Proof.
  intros Hn Hc. assert (Hcons : ∀ x t, (x =c "%"%char) = false → strstr (x :: t) (str "%f") = strstr t (str "%f")).
  { intros x t Hx. clear -Hx. by destruct x as [[] [] [] [] [] [] [] []]. }
  induction Hn as [|x nm [_ Hx] Hn IH]; cbn [app]; rewrite Hcons by done; [done|]. by rewrite IH.
Qed.

Lemma sep_not_pcnt sep : mem sep [" "%char; tab] = true → (sep =c "%"%char) = false.
Proof. intros Hs. by destruct sep as [[] [] [] [] [] [] [] []]. Qed.

Lemma parse_line_item i :
  item_ok i →
  parse_line (item_line i) =
  Ret (match i with
       | Entry nm _ cmd => Some (CollEntry nm (set_pcnt cmd) (strstr cmd (str "%f")))
       | _ => None
       end).
Proof.
  destruct i as [t| |nm sep cmd]; try done. intros (Hn & Hc & Hs & Hne & Hw & Hh). cbn [item_line].
  pose proof (sep_not_pcnt sep Hs) as Hp. unfold parse_line.
  rewrite set_pcnt_word, strstr_word by done. unfold strsep. rewrite span_app.
  - destruct nm as [|c nm]; [done|]. cbn [app]. apply Forall_cons in Hw as [[Hsp _] _].
    assert (Hc' : (c =c " "%char) = false) by (clear -Hsp; by destruct c as [[] [] [] [] [] [] [] []]).
    by rewrite Hh, Hc'.
  - eapply Forall_impl; [exact Hw|]. simpl. intros c [-> _]. done.
  - by rewrite Hs.
Qed.

Lemma parse_items its :
  Forall item_ok its → parse_lines (map item_line its ++ [[]]) = Ret (file_entries its).
Proof.
  induction 1 as [|i its Hi His IH]; [done|]. cbn [map app parse_lines].
  rewrite parse_line_item by done. rewrite res_bind_ret, IH, res_bind_ret.
  unfold file_entries. by destruct i.
Qed.

Lemma file_text_string its : Forall item_ok its → as_string (file_text its) = file_text its.
Proof.
  intros Hits. apply as_string_id. unfold file_text. apply Forall_concat, Forall_map.
  eapply Forall_impl; [exact Hits|]. intros i Hi. apply Forall_app. split; [|by repeat constructor].
  eapply Forall_impl; [apply item_line_no_nl, Hi|]. by intros c [].
Qed.

(** *** Words of the command line *)

Lemma strncat1024_fits w s left :
  0 ≤ left < 2 ^ 64 → zlength s ≤ left → zlength w + zlength s + 1 ≤ 1024 →
  strncat1024 w s left = Ret (w ++ s).
Proof.
  intros Hl Hs Hw. unfold strncat1024. rewrite u64_id, Z.min_r, Nat2Z.id, take_ge by lia.
  by rewrite (proj2 (Z.leb_le _ _)) by (rewrite length_app; lia).
Qed.

Lemma args_loop_fits args w left :
  0 ≤ left ≤ 1023 → zlength w + left = 1023 →
  zlength (concat (map (λ a, a ++ str " ") args)) ≤ left →
  args_loop w left args = Ret (w ++ concat (map (λ a, a ++ str " ") args)).
Proof.
  revert w left. induction args as [|a args IH]; intros w left Hl Hw Hs; cbn [args_loop map concat] in *.
  - by rewrite app_nil_r.
  - rewrite !length_app in Hs. change (length (str " ")) with 1%nat in Hs.
    rewrite (strncat1024_fits w) by lia. rewrite res_bind_ret, (s32_id (left - zlength a)) by lia.
    rewrite strncat1024_fits by (rewrite ?length_app; change (length (str " ")) with 1%nat; lia).
    rewrite res_bind_ret, s32_id by lia.
    rewrite IH; [by rewrite <- !app_assoc|lia| |lia]. rewrite !length_app. change (length (str " ")) with 1%nat. lia.
Qed.

Lemma format1_plain s arg post :
  Forall (λ c, (c =c "%"%char) = false) s →
  format1 (s ++ post) arg = (r ← format1 post arg; Ret (s ++ r)).
Proof.
  induction 1 as [|c s Hc Hs IH]; cbn [app format1]; [by destruct (format1 post arg)|].
  rewrite Hc, IH, res_bind_assoc. by destruct (format1 post arg).
Qed.

(** ** Properties *)

(** Reading a command file gives one entry per line that is neither empty
    nor a comment, in order, with the tag, the command line behind its separator
    and the first [%f] of it turned into [%s]. *)
Theorem get_collection_file its (Hits : Forall item_ok its) :
  let text := file_text its in
  get_collection (SlurpEnv true true (zlength text) text) [] =
    Ret (Some (Collection (zlength (file_entries its)) (file_entries its))).
Proof.
  unfold get_collection, slurp. cbn [open_ok fstat_ok data st_size negb]. rewrite Z.eqb_refl. cbn [negb].
  rewrite file_text_string by done.
  rewrite split_file, parse_items by done. done.
Qed.

(** The words on the command line make one more entry, tagged "cmdln", with
    a space after each word, as long as they fit the buffer of 1024 bytes. *)
Theorem get_collection_cmdln its args
  (Hits : Forall item_ok its) (Hargs : args ≠ [])
  (Hfit : zlength (concat (map (λ a, a ++ str " ") args)) ≤ 1023) :
  let text := file_text its in
  let w := concat (map (λ a, a ++ str " ") args) in
  ∃ c, get_collection (SlurpEnv true true (zlength text) text) args = Ret (Some c) ∧
    cnt c = zlength (ary c) ∧
    ary c = file_entries its ++ [CollEntry (str "cmdln") (set_pcnt w) (strstr w (str "%f"))].
Proof.
  eexists. unfold get_collection, slurp. cbn [open_ok fstat_ok data st_size negb]. rewrite Z.eqb_refl. cbn [negb].
  rewrite file_text_string by done.
  rewrite split_file, parse_items by done. rewrite res_bind_ret.
    rewrite args_loop_fits by (try done; simpl; lia). destruct args; [done|]. split; [done|]. done.
Qed.

(** A word of more than 1023 characters on the command line makes
    [get_collection] write past the end of its buffer: the space left becomes
    negative and is passed on as a huge size. *)
Theorem get_collection_overflow its a args
  (Hits : Forall item_ok its) (Hlong : 1024 ≤ zlength a < 2 ^ 31) :
  let text := file_text its in
  get_collection (SlurpEnv true true (zlength text) text) (a :: args) = Undef.
Proof.
  unfold get_collection, slurp. cbn [open_ok fstat_ok data st_size negb]. rewrite Z.eqb_refl. cbn [negb].
  rewrite file_text_string by done.
  rewrite split_file, parse_items by done. rewrite res_bind_ret. cbn [args_loop].
  replace (strncat1024 [] a 1023) with (Ret (take 1023 a)).
  2:{ unfold strncat1024. rewrite u64_id, Z.min_l by lia. cbn [app].
      by rewrite (proj2 (Z.leb_le _ _)) by (rewrite length_take; lia). }
  rewrite res_bind_ret. unfold strncat1024. rewrite (s32_id (1023 - zlength a)) by lia.
  rewrite Z.min_r.
  - rewrite (proj2 (Z.leb_gt _ _)); [done|]. rewrite length_app, !length_take.
    change (length (str " ")) with 1%nat. lia.
  - change (zlength (str " ")) with 1. replace (u64 (1023 - zlength a)) with (2 ^ 64 + (1023 - zlength a)); [lia|].
    unfold u64, wrap_u. rewrite <- (Z_mod_plus_full _ 1), Z.mod_small; lia.
Qed.

(** A line of the command file that is a tag alone, with no command behind
    it, makes [get_collection] pass a null pointer to [strdup]. *)
Theorem get_collection_tag_only its nm rest
  (Hits : Forall item_ok its) (Hnm : no_nl nm) (Hne : nm ≠ [])
  (Hw : Forall (λ c, mem c [" "%char; tab] = false ∧ (c =c "%"%char) = false) nm)
  (Hc : match nm with c :: _ => (c =c "#"%char) = false | [] => False end) :
  let text := file_text its ++ nm ++ newline :: rest in
  as_string text = text →
  get_collection (SlurpEnv true true (zlength text) text) [] = Undef.
Proof.
  intros text Hs. unfold get_collection, slurp. cbn [open_ok fstat_ok data st_size negb]. rewrite Z.eqb_refl. cbn [negb].
  rewrite Hs. unfold text. clear Hs text.
  assert (Hline : parse_line nm = Undef).
  { unfold parse_line. destruct nm as [|c nm]; [done|]. pose proof Hw as [[Hsp Hp] _]%Forall_cons.
    assert (Hc' : (c =c " "%char) = false) by (clear -Hsp; by destruct c as [[] [] [] [] [] [] [] []]).
    rewrite Hc, Hc'. cbn [orb]. replace (set_pcnt (c :: nm)) with (c :: nm).
    - unfold strsep. pose proof (span_app (λ c, negb (mem c [" "%char; tab])) (c :: nm) []) as Hspan.
      rewrite app_nil_r in Hspan. rewrite Hspan; [done| |done].
      eapply Forall_impl; [exact Hw|]. simpl. intros x [-> _]. done.
    - clear -Hw. induction Hw as [|x l [_ Hx] Hl IH]; [done|]. rewrite IH at 1.
      by destruct x as [[] [] [] [] [] [] [] []]. }
  replace (parse_lines _) with (@Undef (list coll_entry)); [done|]. symmetry.
  induction Hits as [|i its Hi Hits IH].
  - cbn [file_text map concat app]. rewrite split_lines_line by (by apply no_nl_nl).
    cbn [parse_lines]. by rewrite Hline.
  - unfold file_text. cbn [map concat]. rewrite <- !app_assoc. cbn [app].
    rewrite split_lines_line by (by apply no_nl_nl, item_line_no_nl). cbn [parse_lines].
    rewrite parse_line_item by done. rewrite res_bind_ret. unfold file_text in IH. rewrite IH. done.
Qed.

(** [subst_pcnt_f] replaces the [%s] that stands for [%f] by the pid and the
    value of the counter, and counts up. *)
Theorem subst_pcnt_f_spec pid counter nm pre post
  (Hpre : Forall (λ c, (c =c "%"%char) = false) pre) (Hpost : Forall (λ c, (c =c "%"%char) = false) post)
  (Hc : 0 ≤ counter < INT_MAX) :
  subst_pcnt_f pid counter (CollEntry nm (pre ++ str "%s" ++ post) true) =
    Ret (snprintf_cut 1024 (pre ++ snprintf_cut 20 (fmt_d pid ++ str "_" ++ fmt_d counter) ++ post), counter + 1).
Proof.
  unfold subst_pcnt_f. cbn [pcnt_f negb cmdline]. rewrite ck32_ok by (unfold INT_MIN; lia). rewrite res_bind_ret.
  rewrite format1_plain by done. cbn [str String.list_ascii_of_string app format1]. rewrite eqc_refl.
  change ("s"%char =c "%"%char) with false. rewrite eqc_refl.
  rewrite <- (app_nil_r post) at 1. rewrite format1_plain by done. cbn [format1 mbind res_bind].
  by rewrite app_nil_r.
Qed.

(** ** Witnesses *)

Definition ex_items : list item :=
  [Comment (str " syscalls"); Entry (str "abort01") " " (str "abort01 -i 2"); Blank; Entry (str "pf") tab (str "cat %f")].

Lemma ex_items_ok : Forall item_ok ex_items.
Proof. repeat constructor; discriminate. Qed.

Lemma get_collection_file_witness :
  get_collection (SlurpEnv true true (zlength (file_text ex_items)) (file_text ex_items)) [] =
    Ret (Some (Collection 2 [CollEntry (str "abort01") (str "abort01 -i 2") false;
                             CollEntry (str "pf") (str "cat %s") true])).
Proof. apply (get_collection_file ex_items ex_items_ok). Defined.

Lemma get_collection_cmdln_witness :
  ∃ c, get_collection (SlurpEnv true true (zlength (file_text ex_items)) (file_text ex_items)) [str "ls"; str "-l"] = Ret (Some c) ∧
    cnt c = 3.
Proof.
  destruct (get_collection_cmdln ex_items [str "ls"; str "-l"]) as (c & H1 & H2 & H3);
    [exact ex_items_ok|discriminate|simpl; lia|].
  exists c. split; [exact H1|]. rewrite H2, H3. reflexivity.
Defined.

Lemma get_collection_overflow_witness :
  get_collection (SlurpEnv true true 0 []) [replicate 1024 "a"%char] = Undef.
Proof.
  apply (get_collection_overflow [] (replicate 1024 "a"%char) []); [constructor|].
  rewrite length_replicate. lia.
Defined.

Lemma get_collection_tag_only_witness :
  get_collection (SlurpEnv true true 5 (str "fork" ++ [newline])) [] = Undef.
Proof.
  apply (get_collection_tag_only [] (str "fork") []);
    [constructor|repeat constructor|discriminate|repeat constructor|reflexivity|reflexivity].
Defined.

Lemma subst_pcnt_f_spec_witness :
  subst_pcnt_f 812 1 (CollEntry (str "pf") (str "cat %s x") true) = Ret (str "cat 812_1 x", 2).
Proof.
  apply (subst_pcnt_f_spec 812 1 (str "pf") (str "cat ") (str " x")); [repeat constructor..|unfold INT_MAX; lia].
Defined.
