(* ===== verification/Pan.v ===== *)
(** * The test driver: pan/ltp-pan.c

    [pan] keeps a number of test programs running, collects their exit statuses,
    records them in the active file and in its logs, passes signals on and tracks
    orphaned process groups.  Each function of ltp-pan.c is a definition on the
    state of the driver; what the system answers ([fork], [wait], [kill], ...)
    and which signals arrive is an input.  The invariants and the refinement are
    proved for every sequence of answers that a system may give. *)

From S2P Require Import Prelude CInt CMem CString Splitstr Zoo PanColl.
Local Open Scope Z_scope.

(** ** Results *)

(** A step of the driver goes on with a value, leaves the program, runs into
    undefined behaviour, or needs more answers than it was given. *)
Inductive io (A : Type) : Type :=
| Go (a : A)
| Exit (code : Z)
| Crash
| More.
Arguments Go {A} _.
Arguments Exit {A} _.
Arguments Crash {A}.
Arguments More {A}.

#[global] Instance io_ret : MRet io := λ A a, Go a.
#[global] Instance io_bind : MBind io := λ A B f m,
  match m with Go a => f a | Exit c => Exit c | Crash => Crash | More => More end.

Definition of_res {A} (m : res A) : io A :=
  match m with Ret a => Go a | Undef => Crash | NoFuel => More end.

(** ** Constants *)

Definition SIGHUP : Z := 1.
Definition SIGINT : Z := 2.
Definition SIGKILL : Z := 9.
Definition SIGUSR1 : Z := 10.
Definition SIGUSR2 : Z := 12.
Definition SIGALRM : Z := 14.
Definition SIGTERM : Z := 15.
Definition ESRCH : Z := 3.
Definition EPERM : Z := 1.
Definition EEXIST : Z := 17.
Definition TCONF : Z := 32.

(** ** The signal ratchet *)

(** The globals [rec_signal] and [send_signal] and the static [lastsent]. *)
Record signals : Type := Signals { rec_signal : Z; send_signal : Z; lastsent : Z }.

Definition wait_handler (sig : Z) (s : signals) : signals :=
  if sig =? 0 then Signals (rec_signal s) (send_signal s) 0
  else
    let s := Signals sig (send_signal s) (lastsent s) in
    if sig =? SIGUSR2 then s
    else
      let send :=
        if lastsent s =? 0 then sig
        else if lastsent s =? SIGUSR1 then SIGINT
        else if lastsent s =? sig then SIGTERM
        else if lastsent s =? SIGTERM then SIGHUP
        else if lastsent s =? SIGHUP then SIGKILL
        else send_signal s in
      Signals (rec_signal s) send send.

(** Signals that arrive, in order. *)
Definition deliver (sigs : list Z) (s : signals) : signals :=
  foldl (λ s sig, wait_handler sig s) s sigs.

(** ** Wait statuses *)

Inductive term_type : Type := Signaled | Exited | Stopped | Unknown.

Definition WTERMSIG (st : Z) : Z := Z.land st 127.
Definition WEXITSTATUS (st : Z) : Z := Z.shiftr (Z.land st 65280) 8.
Definition WIFEXITED (st : Z) : bool := WTERMSIG st =? 0.
Definition WIFSIGNALED (st : Z) : bool := (0 <? WTERMSIG st) && (WTERMSIG st <? 127).
Definition WIFSTOPPED (st : Z) : bool := Z.land st 255 =? 127.

Definition term_status (st : Z) : term_type * Z :=
  if WIFSIGNALED st then (Signaled, WTERMSIG st)
  else if WIFEXITED st then (Exited, WEXITSTATUS st)
  else if WIFSTOPPED st then (Stopped, WEXITSTATUS st)
  else (Unknown, 0).

Definition term_name (t : term_type) : cstr :=
  match t with
  | Signaled => str "signaled"
  | Exited => str "exited"
  | Stopped => str "stopped"
  | Unknown => str "unknown"
  end.

(** ** Data *)

Record tag_pgrp : Type := TagPgrp {
  pgrp : Z; stopping : bool; mystime : Z; cmd : coll_entry; output : cstr }.
#[global] Instance tag_pgrp_inhabited : Inhabited tag_pgrp := populate (TagPgrp 0 false 0 inhabitant []).

(** The list of orphaned process groups; it always has a head. *)
Record orphan_list : Type := OrphanList { o_head : Z; o_rest : list Z }.
Definition all_orphans (o : orphan_list) : list Z := o_head o :: o_rest o.

(** What was decided on the command line. *)
Record config : Type := Config {
  keep_active : Z; sequential : bool; has_brakes : bool; track_exit_stats : bool;
  fmt_print : bool; quiet_mode : bool; test_out_dir : option cstr; rts : bool;
  has_logfile : bool; has_failcmdfile : bool; has_tconfcmdfile : bool;
  coll : collection; panname : cstr; panpid : Z }.

(** How a child runs its command line. *)
Inductive command : Type :=
| Shell (c : cstr)
| Direct (argv : list cell).

(** What was written: lines of the log and of the command files, pieces of
    standard output; the signals sent with [kill]; the tags started, with their
    pids and commands. *)
Record files : Type := Files {
  logfile : list cstr; failcmdfile : list cstr; tconfcmdfile : list cstr;
  stdout : list cstr; kills : list (Z * Z); execs : list (cstr * Z * command) }.

(** The counters of [main]. *)
Record sched : Type := Sched {
  c_idx : Z; starts : Z; stop : Z; go_idle : Z; exit_stat : Z; fork_in_road : bool }.

(** The system's answers during [run_child]: the errno of each [open] of the
    output file, whether [pipe] works, the pid from [fork] (-1 for failure),
    whether each redirection works and the errno of [exec] (0 when the program
    starts) in the child, whether a signal interrupts the [read] from the child
    or the [waitpid] for it (the handlers are installed without SA_RESTART), and
    the times. *)
Record child_env : Type := ChildEnv {
  open_errs : list Z; pipe_ok : bool; fork_pid : Z; dup_errs : list Z; exec_errno : Z;
  read_intr : bool; waitpid_intr : bool; start_time : Z; end_time : Z }.

(** Those during [check_pids]: the errno of [kill] on each orphan, the result of
    [wait] with the status, the time and the times used, the output file of the
    test, and the errno of [kill(-cpid, 0)]. *)
Record wait_env : Type := WaitEnv {
  orphan_kill : Z → Z; wait_pid : Z; stat_loc : Z; now : Z; cutime : Z; cstime : Z;
  out_file : slurp_env; child_kill : Z }.

Section pan.
Context {F : Type} `{ActiveFile F} (strerror : Z → cstr) (cfg : config).

(** The state of the driver: the table of running tests with the active file,
    and the rest of [main]'s and the functions' variables. *)
Record table : Type := Table {
  running : list tag_pgrp; num_active : Z; orphans : orphan_list; zoofile : F;
  failcnt : Z; tconfcnt : Z }.
Record pan : Type := Pan {
  tb : table; sg : signals; fl : files; sc : sched; cmdno : Z; counter : Z }.

(** Updates of one field. *)
Definition set_running r (t : table) := Table r (num_active t) (orphans t) (zoofile t) (failcnt t) (tconfcnt t).
Definition set_num_active n (t : table) := Table (running t) n (orphans t) (zoofile t) (failcnt t) (tconfcnt t).
Definition set_orphans o (t : table) := Table (running t) (num_active t) o (zoofile t) (failcnt t) (tconfcnt t).
Definition set_zoofile z (t : table) := Table (running t) (num_active t) (orphans t) z (failcnt t) (tconfcnt t).
Definition set_counts a b (t : table) := Table (running t) (num_active t) (orphans t) (zoofile t) a b.
Definition add_log l (f : files) := Files (logfile f ++ [l]) (failcmdfile f) (tconfcmdfile f) (stdout f) (kills f) (execs f).
Definition add_failcmd l (f : files) := Files (logfile f) (failcmdfile f ++ [l]) (tconfcmdfile f) (stdout f) (kills f) (execs f).
Definition add_tconfcmd l (f : files) := Files (logfile f) (failcmdfile f) (tconfcmdfile f ++ [l]) (stdout f) (kills f) (execs f).
Definition add_stdout l (f : files) := Files (logfile f) (failcmdfile f) (tconfcmdfile f) (stdout f ++ [l]) (kills f) (execs f).
Definition add_kill p s (f : files) := Files (logfile f) (failcmdfile f) (tconfcmdfile f) (stdout f) (kills f ++ [(p, s)]) (execs f).
Definition add_exec x (f : files) := Files (logfile f) (failcmdfile f) (tconfcmdfile f) (stdout f) (kills f) (execs f ++ [x]).
Definition set_tb t (p : pan) := Pan t (sg p) (fl p) (sc p) (cmdno p) (counter p).
Definition set_sg s (p : pan) := Pan (tb p) s (fl p) (sc p) (cmdno p) (counter p).
Definition set_fl f (p : pan) := Pan (tb p) (sg p) f (sc p) (cmdno p) (counter p).
Definition set_sc s (p : pan) := Pan (tb p) (sg p) (fl p) s (cmdno p) (counter p).

(** ** Orphaned process groups *)

(** One orphan of [check_orphans]: [errno] is that of [kill(-pgrp, sig)]. *)
Definition check_orphan (errno sig o : Z) (z : F) (f : files) : Z * F * files :=
  if o =? 0 then (0, z, f)
  else
    let f := add_kill (- o) sig f in
    if errno =? 0 then (o, z, f)
    else if errno =? ESRCH then (0, (af_clear z o).2, f)
    else (o, z, f).

Fixpoint check_orphans_loop (kill : Z → Z) (sig : Z) (os : list Z) (z : F) (f : files)
  : list Z * F * files :=
  match os with
  | [] => ([], z, f)
  | o :: os =>
      let '(o, z, f) := check_orphan (kill o) sig o z f in
      let '(os, z, f) := check_orphans_loop kill sig os z f in
      (o :: os, z, f)
  end.

Definition check_orphans (kill : Z → Z) (sig : Z) (t : table) (f : files) : table * files :=
  let '(os, z, f) := check_orphans_loop kill sig (all_orphans (orphans t)) (zoofile t) f in
  (set_zoofile z (set_orphans (OrphanList (hd 0 os) (tail os)) t), f).

(** The first free element is used, or a new one put behind the head. *)
Fixpoint fill_zero (os : list Z) (p : Z) : option (list Z) :=
  match os with
  | [] => None
  | o :: os => if o =? 0 then Some (p :: os) else cons o <$> fill_zero os p
  end.

Definition mark_orphan (o : orphan_list) (cpid : Z) : orphan_list :=
  if o_head o =? 0 then OrphanList cpid (o_rest o)
  else
    match fill_zero (o_rest o) cpid with
    | Some os => OrphanList (o_head o) os
    | None => OrphanList (o_head o) (cpid :: o_rest o)
    end.

(** ** Passing signals on *)

(** Signals that arrive while one is passed on: before [rec_signal] is looked at,
    before each [kill], before [check_orphans] is called, and before the globals are
    reset at the end. *)
Record late_env : Type := Late {
  l_first : list Z; l_kills : list (list Z); l_orphans : list Z; l_end : list Z }.
Definition no_late : late_env := Late [] [] [] [].

(** The loop over the running tests: each gets [send_signal], which is read anew
    for each of them, and is marked as stopping, whether [kill] worked or not. *)
Fixpoint propagate_loop (ls : list (list Z)) (s : signals) (rs : list tag_pgrp) (f : files)
  : signals * list tag_pgrp * files :=
  match rs with
  | [] => (s, [], f)
  | r :: rs =>
      if pgrp r =? 0 then let '(s, rs, f) := propagate_loop ls s rs f in (s, r :: rs, f)
      else
        let s := deliver (hd [] ls) s in
        let f := add_kill (- pgrp r) (send_signal s) f in
        let r := TagPgrp (pgrp r) true (mystime r) (cmd r) (output r) in
        let '(s, rs, f) := propagate_loop (tail ls) s rs f in (s, r :: rs, f)
  end.

Definition propagate_signal (kill : Z → Z) (late : late_env) (p : pan) : pan :=
  let s := deliver (l_first late) (sg p) in
  let '(s, f) :=
    if rec_signal s =? SIGALRM
    then (Signals SIGTERM (send_signal s) (lastsent s),
          add_stdout (str "PAN stop Alarm was received" ++ [nl]) (fl p))
    else (s, fl p) in
  let '(s, rs, f) := propagate_loop (l_kills late) s (running (tb p)) f in
  let s := deliver (l_orphans late) s in
  let '(t, f) := check_orphans kill (send_signal s) (set_running rs (tb p)) f in
  let s := deliver (l_end late) s in
  Pan t (Signals 0 0 (lastsent s)) f (sc p) (cmdno p) (counter p).

(** ** Reports *)

Definition core_flag (st : Z) : cstr := if Z.land st 128 =? 0 then str "no" else str "yes".

(** [%-wd] *)
Definition ljust (w : nat) (s : cstr) : cstr := s ++ replicate (w - length s) " "%char.

(** The line of the log without [-p]. *)
Definition log_line (nm : cstr) (stime dur : Z) (status : cstr) (w st cu cs : Z) : cstr :=
  str "tag=" ++ nm ++ str " stime=" ++ fmt_d (s32 stime) ++ str " dur=" ++ fmt_d (s32 dur) ++
  str " exit=" ++ status ++ str " stat=" ++ fmt_d w ++ str " core=" ++ core_flag st ++
  str " cu=" ++ fmt_d (s32 cu) ++ str " cs=" ++ fmt_d (s32 cs) ++ [nl].

(** The line with [-p]. *)
Definition fmt_line (nm result : cstr) (w : Z) : cstr :=
  fmt_ljust 30 30 nm ++ str " " ++ fmt_ljust 10 10 result ++ str " " ++ ljust 5 (fmt_d w) ++ [nl].

Definition cmd_line (e : coll_entry) : cstr := name e ++ str " " ++ cmdline e ++ [nl].

Definition dquote : ascii := "034"%char.

Definition write_test_start (r : tag_pgrp) (f : files) : files :=
  if rts cfg then
    add_stdout (str "<<<test_start>>>" ++ [nl] ++ str "tag=" ++ name (cmd r) ++ str " stime=" ++
      fmt_d (mystime r) ++ [nl] ++ str "cmdline=" ++ [dquote] ++ cmdline (cmd r) ++ [dquote; nl] ++
      str "contacts=" ++ [dquote; dquote; nl] ++ str "analysis=exit" ++ [nl] ++
      str "<<<test_output>>>" ++ [nl]) f
  else f.

Definition write_test_end (r : tag_pgrp) (init_status : cstr) (exit_time : Z) (term : cstr)
  (st term_id cu cs : Z) (f : files) : files :=
  if rts cfg then
    add_stdout (str "<<<execution_status>>>" ++ [nl] ++ str "initiation_status=" ++ [dquote] ++
      init_status ++ [dquote; nl] ++ str "duration=" ++ fmt_d (exit_time - mystime r) ++
      str " termination_type=" ++ term ++ str " termination_id=" ++ fmt_d term_id ++
      str " corefile=" ++ core_flag st ++ [nl] ++ str "cutime=" ++ fmt_d (s32 cu) ++
      str " cstime=" ++ fmt_d (s32 cs) ++ [nl] ++ str "<<<test_end>>>" ++ [nl]) f
  else f.

(** [tag_output\[strlen(tag_output) - 1\]] is outside an empty buffer. *)
Definition copy_buffered_output (file : slurp_env) (f : files) : io files :=
  match slurp file with
  | None => Go f
  | Some d =>
      match last (as_string d) with
      | None => Crash
      | Some c =>
          let f := add_stdout (as_string d) f in
          Go (if c =c nl then f else add_stdout [nl] f)
      end
  end.

(** ** Reaping a test *)

(** What the log gets for a finished test; the counters change with [-p]. *)
Definition log_result (r : tag_pgrp) (t : term_type) (w st : Z) (e : wait_env) (tbl : table) (f : files)
  : table * files :=
  if has_logfile cfg then
    if negb (fmt_print cfg) then
      (tbl, add_log (log_line (name (cmd r)) (mystime r) (now e - mystime r) (term_name t) w st
                       (cutime e) (cstime e)) f)
    else
      let '(tbl, result) :=
        if (match t with Exited => true | _ => false end) && (w =? TCONF)
        then (set_counts (failcnt tbl) (tconfcnt tbl + 1) tbl, str "CONF")
        else if negb (w =? 0) then (set_counts (failcnt tbl + 1) (tconfcnt tbl) tbl, str "FAIL")
        else (tbl, str "PASS") in
      (tbl, add_log (fmt_line (name (cmd r)) result w) f)
  else (tbl, f).

Definition log_command (r : tag_pgrp) (w : Z) (f : files) : files :=
  if negb (w =? 0) then
    if has_tconfcmdfile cfg && (w =? TCONF) then add_tconfcmd (cmd_line (cmd r)) f
    else if has_failcmdfile cfg then add_failcmd (cmd_line (cmd r)) f
    else f
  else f.

(** The body of the loop of [check_pids] for the slot [i] of the child: the
    value of [ret] and the new state. *)
Definition reap (e : wait_env) (i : nat) (r : tag_pgrp) (t : term_type) (w ret : Z) (p : pan)
  : io (Z * pan) :=
  let cpid := wait_pid e in
  let '(w, ret) :=
    if (w =? 130) && stopping r && (match t with Exited => true | _ => false end)
    then (0, ret - 1) else (w, ret) in
  let '(tbl, f) := log_result r t w (stat_loc e) e (tb p) (fl p) in
  let f := log_command r w f in
  let status := if stopping r then str "driver_interrupt" else term_name t in
  f ← (match test_out_dir cfg with
       | Some _ =>
           let f := if quiet_mode cfg then f else write_test_start r f in
           copy_buffered_output (out_file e) f
       | None => Go f
       end);
  let f := if quiet_mode cfg then f
           else write_test_end r (str "ok") (now e) status (stat_loc e) w (cutime e) (cstime e) f in
  let ret := if (match t with Signaled => true | _ => false end) && negb (stopping r)
             then ret + 1 else ret in
  let r := TagPgrp 0 (stopping r) (mystime r) (cmd r) (output r) in
  let tbl := set_running (<[i := r]> (running tbl)) tbl in
  let '(rc, z) := af_clear (zoofile tbl) cpid in
  if negb (rc =? 0) then Exit 1
  else
    let tbl := set_zoofile z tbl in
    if (child_kill e =? 0) || (child_kill e =? EPERM) then
      let '(rc, z) := af_mark (zoofile tbl) cpid (str "panorphan") (cmdline (cmd r)) in
      if negb (rc =? 0) then Exit 1
      else
        let tbl := set_orphans (mark_orphan (orphans tbl) cpid) (set_zoofile z tbl) in
        Go (ret, set_tb tbl (set_fl (add_kill (- cpid) SIGTERM (add_kill (- cpid) 0 f)) p))
    else Go (ret, set_tb tbl (set_fl (add_kill (- cpid) 0 f) p)).

(** The slot whose process group is [cpid]. *)
Fixpoint find_pgrp (cpid : Z) (rs : list tag_pgrp) : option nat :=
  match rs with
  | [] => None
  | r :: rs => if pgrp r =? cpid then Some 0%nat else S <$> find_pgrp cpid rs
  end.

Definition check_pids (e : wait_env) (p : pan) : io (Z * pan) :=
  let '(tbl, f) := check_orphans (orphan_kill e) 0 (tb p) (fl p) in
  let p := set_fl f (set_tb tbl p) in
  let cpid := wait_pid e in
  if cpid <? 0 then Go (0, p)
  else if 0 <? cpid then
    let '(t, w) := term_status (stat_loc e) in
    let '(tbl, ret) :=
      match t with
      | Signaled => (set_num_active (num_active tbl - 1) tbl, 0)
      | Exited =>
          (set_num_active (num_active tbl - 1) tbl, if negb (w =? 0) && negb (w =? TCONF) then 1 else 0)
      | Stopped => (tbl, 1)
      | Unknown => (tbl, 1)
      end in
    let p := set_tb tbl p in
    match find_pgrp cpid (running tbl) with
    | Some i => reap e i (running tbl !!! i) t w ret p
    | None => Go (ret, p)
    end
  else Go (0, p).

(** ** Starting a test *)

(** The loop that opens the output file: the name tried last, its errno and the
    next number. *)
Fixpoint open_loop (errs : list Z) (dir nm : cstr) (no : Z) : io (cstr * Z * Z) :=
  match errs with
  | [] => More
  | e :: errs =>
      let out := dir ++ str "/" ++ nm ++ str "." ++ fmt_d no in
      if 4096 <=? zlength out then Crash
      else if e =? EEXIST then open_loop errs dir nm (no + 1)
      else Go (out, e, no + 1)
  end.

(** [strpbrk(c_cmdline, "...") != NULL] *)
Definition shell_chars : cstr := [dquote; "'"%char; ";"%char; "|"%char; "<"%char; ">"%char; "$"%char; "\"%char].
Definition exec_command (c_cmdline : cstr) : command :=
  if existsb (λ c, mem c shell_chars) c_cmdline then Shell c_cmdline
  else
    match splitstr alloc_ok (Some c_cmdline) None with
    | Ret (SplitArray arr _) => Direct arr
    | _ => Direct []
    end.

(** [sprintf(errbuf, ...)] into [char errbuf\[1024\]]. *)
Definition errbuf_text (t : cstr) : io cstr := if 1024 <=? zlength t then Crash else Go t.

Definition redirect_text (what : cstr) (colle : coll_entry) (errno : Z) : cstr :=
  str "pan(" ++ panname cfg ++ str "): couldn't redirect " ++ what ++ str " for tag " ++ name colle ++
  str ".  errno:" ++ fmt_d errno ++ str "  " ++ strerror errno.

(** The child after [fork]: [None] when the program is started, otherwise the
    message it sends to its parent and its exit code. *)
Definition child_main (e : child_env) (colle : coll_entry) (c_cmdline : cstr)
  : io (option (cstr * Z)) :=
  let e1 := nth 0 (dup_errs e) 0 in
  let e2 := nth 1 (dup_errs e) 0 in
  let exec :=
    if exec_errno e =? 0 then Go None
    else
      msg ← (match exec_command c_cmdline with
             | Shell c =>
                 errbuf_text (str "pan(" ++ panname cfg ++ str "): execlp of '" ++ c ++ str "' (tag " ++
                   name colle ++ str ") failed.  errno:" ++ fmt_d (exec_errno e) ++ str " " ++
                   strerror (exec_errno e))
             | Direct (Tok a :: _) =>
                 errbuf_text (str "pan(" ++ panname cfg ++ str "): execvp of '" ++ a ++ str "' (tag " ++
                   name colle ++ str ") failed.  errno:" ++ fmt_d (exec_errno e) ++ str "  " ++
                   strerror (exec_errno e))
             | Direct _ => Crash
             end);
      Go (Some (msg, exec_errno e)) in
  match test_out_dir cfg with
  | Some _ =>
      if negb (e1 =? 0) then msg ← errbuf_text (redirect_text (str "stdout") colle e1); Go (Some (msg, 2))
      else if negb (e2 =? 0) then msg ← errbuf_text (redirect_text (str "stderr") colle e2); Go (Some (msg, 2))
      else exec
  | None =>
      if negb (e1 =? 0) then msg ← errbuf_text (redirect_text (str "stderr") colle e1); Go (Some (msg, 2))
      else exec
  end.

(** The report on a child that could not start its program. *)
Definition report_failed_start (e : child_env) (r : tag_pgrp) (msg : cstr) (status : Z) (p : pan) : pan :=
  let '(t, termid) := term_status status in
  let '(tbl, f) :=
    if has_logfile cfg then
      if negb (fmt_print cfg) then
        (tb p, add_log (log_line (name (cmd r)) (mystime r) (end_time e - mystime r) (term_name t) termid
                          status 0 0) (fl p))
      else
        ((if negb (termid =? 0) then set_counts (failcnt (tb p) + 1) (tconfcnt (tb p)) (tb p) else tb p),
         add_log (fmt_line (name (cmd r)) (if negb (termid =? 0) then str "FAIL" else str "PASS") termid) (fl p))
    else (tb p, fl p) in
  let f := if quiet_mode cfg then f
           else write_test_end r msg (end_time e) (term_name t) status termid 0 0 f in
  set_tb tbl (set_fl f p).

(** [run_child] for the slot [i]: the pid or -1, and the new state.  When [read] is
    interrupted its -1 is taken for a message and [errlen] is used without a value;
    after a [waitpid] that is interrupted [status] is. *)
Definition run_child (e : child_env) (colle : coll_entry) (i : nat) (p : pan) : io (Z * pan) :=
  let active := running (tb p) !!! i in
  let put r (p : pan) := set_tb (set_running (<[i := r]> (running (tb p))) (tb p)) p in
  o ← (match test_out_dir cfg with
       | Some dir => open_loop (open_errs e) dir (name colle) (cmdno p)
       | None => Go (output active, 0, cmdno p)
       end);
  let '(out, err, no) := o in
  let active := TagPgrp (pgrp active) (stopping active) (mystime active) (cmd active) out in
  let p := put active (Pan (tb p) (sg p) (fl p) (sc p) no (counter p)) in
  if negb (err =? 0) then Go (-1, p)
  else
    s ← (if pcnt_f colle then of_res (subst_pcnt_f (panpid cfg) (counter p) colle)
         else Go (cmdline colle, counter p));
    let '(c_cmdline, ctr) := (s : cstr * Z) in
    let p := Pan (tb p) (sg p) (fl p) (sc p) (cmdno p) ctr in
    if negb (pipe_ok e) then Go (-1, p)
    else
      let active := TagPgrp (pgrp active) (stopping active) (start_time e) colle out in
      let p := put active p in
      let p :=
        match test_out_dir cfg with
        | None => if quiet_mode cfg then p else set_fl (write_test_start active (fl p)) p
        | Some _ => p
        end in
      let cpid := fork_pid e in
      if cpid =? -1 then Go (-1, p)
      else
        r ← child_main e colle c_cmdline;
        if read_intr e then Crash
        else match r with
        | Some (msg, code) =>
            if waitpid_intr e then Crash
            else Go (-1, report_failed_start e active msg (Z.shiftl (Z.land code 255) 8) p)
        | None =>
            let active := TagPgrp cpid false (start_time e) colle out in
            let p := put active (set_fl (add_exec (name colle, cpid, exec_command c_cmdline) (fl p)) p) in
            let '(rc, z) := af_mark (zoofile (tb p)) cpid (name colle) (cmdline colle) in
            if negb (rc =? 0) then Exit 1
            else Go (cpid, set_tb (set_zoofile z (tb p)) p)
        end.

(** ** The scheduler *)

(** Before a start: the signals that arrive, the value of [lrand48], and the
    answers to the child. *)
Record start_env : Type := StartEnv { s_sigs : list Z; s_rand : Z; s_child : child_env }.

(** One turn of the main loop: the starts, whether the stop file is there, the
    signals that arrive before [rec_signal] is looked at, the errno of [kill] on
    the orphans while a signal is propagated, the signals that arrive meanwhile,
    and the answers in [check_pids] with the signals that arrive there. *)
Record turn_env : Type := TurnEnv {
  t_starts : list start_env; t_stop_file : bool; t_sigs : list Z; t_kill : Z → Z; t_late : late_env;
  t_wait : wait_env; t_wait_sigs : list Z }.

(** A free slot. *)
Fixpoint find_slot (rs : list tag_pgrp) : option nat :=
  match rs with
  | [] => None
  | r :: rs => if pgrp r =? 0 then Some 0%nat else S <$> find_slot rs
  end.

Definition deliver_all (sigs : list Z) (p : pan) : pan := set_sg (deliver sigs (sg p)) p.

Definition must_pause (p : pan) : bool :=
  negb (stop (sc p) =? 0) || negb (rec_signal (sg p) =? 0) || negb (go_idle (sc p) =? 0).

(** Choosing the command: in order with [-S], at random otherwise. *)
Definition choose (rnd c : Z) : Z := if sequential cfg then c else rnd %% cnt (coll cfg).

(** The body of the inner loop; the boolean is [false] after the [break]. *)
Definition start_one (e : start_env) (p : pan) : io (bool * pan) :=
  let s := sc p in
  let c := choose (s_rand e) (c_idx s) in
  match find_slot (running (tb p)) with
  | None =>
      Go (false, set_sc (Sched c (starts s) (stop s) (go_idle s) (exit_stat s + 1) (fork_in_road s))
                   (set_sg (wait_handler SIGINT (sg p)) p))
  | Some i =>
      r ← run_child (s_child e) (ary (coll cfg) !!! Z.to_nat c) i p;
      let '(cpid, p) := (r : Z * pan) in
      let p := if negb (cpid =? -1) then set_tb (set_num_active (num_active (tb p) + 1) (tb p)) p else p in
      let st := if (negb (cpid =? -1) || sequential cfg) && (0 <? starts s) then starts s - 1 else starts s in
      let c := if sequential cfg then if cnt (coll cfg) <=? c + 1 then 0 else c + 1 else c in
      Go (true, set_sc (Sched c st (stop s) (go_idle s) (exit_stat s) (fork_in_road s)) p)
  end.

Definition can_start (p : pan) : bool :=
  (num_active (tb p) <? keep_active cfg) && negb (starts (sc p) =? 0).

Fixpoint start_loop (es : list start_env) (p : pan) : io pan :=
  if negb (can_start p) then Go p
  else
    match es with
    | [] => if must_pause p then Go p else More
    | e :: es =>
        let p := deliver_all (s_sigs e) p in
        if must_pause p then Go p
        else
          r ← start_one e p;
          let '(more, p) := (r : bool * pan) in
          if (more : bool) then start_loop es p else Go p
    end.

(** The test of [starts] after the starts. *)
Definition check_starts (stop_file : bool) (p : pan) : pan :=
  let s := sc p in
  let inc (p : pan) := set_sc (Sched (c_idx s) (starts s) (stop s + 1) (go_idle s) (exit_stat s) (fork_in_road s)) p in
  if starts s =? 0 then
    inc (if quiet_mode cfg then p else set_fl (add_stdout (str "incrementing stop" ++ [nl]) (fl p)) p)
  else if starts s =? -1 then
    if stop_file then inc (set_fl (add_stdout (str "Got PAN_STOP_FILE Stopping!" ++ [nl]) (fl p)) p) else p
  else p.

(** A received signal. *)
Definition stop_or_idle (p : pan) : pan :=
  let s := sc p in
  set_sc (if fork_in_road s
          then Sched (c_idx s) (starts s) (stop s) (go_idle s + 1) (exit_stat s) (fork_in_road s)
          else Sched (c_idx s) (starts s) (stop s + 1) (go_idle s) (exit_stat s) (fork_in_road s)) p.
Definition handle_signal (kill : Z → Z) (late : late_env) (p : pan) : pan :=
  if rec_signal (sg p) =? 0 then p
  else if rec_signal (sg p) =? SIGUSR2 then
    set_sg (Signals 0 0 (lastsent (sg p))) (stop_or_idle p)
  else
    let s := sc p in
    let p := if rec_signal (sg p) =? SIGUSR1
             then set_sc (Sched (c_idx s) (starts s) (stop s) (go_idle s) (exit_stat s) false) p else p in
    stop_or_idle (propagate_signal kill late p).

(** The test of [err]. *)
Definition handle_err (err : Z) (p : pan) : pan :=
  if err =? 0 then p
  else
    let s := sc p in
    let s := Sched (c_idx s) (starts s) (stop s) (if fork_in_road s then go_idle s + 1 else go_idle s)
               (if track_exit_stats cfg then exit_stat s + 1 else exit_stat s) (fork_in_road s) in
    let p := set_sc s p in
    if has_brakes cfg then set_sg (wait_handler SIGINT (sg p)) p else p.

(** One turn of the main loop; the boolean is [true] after the [break]. *)
Definition turn (e : turn_env) (p : pan) : io (bool * pan) :=
  p ← start_loop (t_starts e) p;
  let p := check_starts (t_stop_file e) p in
  let p := handle_signal (t_kill e) (t_late e) (deliver_all (t_sigs e) p) in
  r ← check_pids (t_wait e) p;
  let '(err, p) := (r : Z * pan) in
  let p := handle_err err (deliver_all (t_wait_sigs e) p) in
  if negb (stop (sc p) =? 0) && (num_active (tb p) =? 0) then Go (true, p)
  else if negb (go_idle (sc p) =? 0) && (num_active (tb p) =? 0) then
    let s := sc p in
    Go (false, set_sg (wait_handler 0 (sg p))
                 (set_sc (Sched (c_idx s) (starts s) (stop s) 0 (exit_stat s) (fork_in_road s)) p))
  else Go (false, p).

(** One turn of the loop that waits for the orphans; [false] when it ends. *)
Definition orphan_turn (sigs : list Z) (kill : Z → Z) (late : late_env) (p : pan) : bool * pan :=
  if forallb (λ o, o =? 0) (all_orphans (orphans (tb p))) then (false, p)
  else
    let p := deliver_all sigs p in
    let p := if rec_signal (sg p) =? 0 then set_sg (wait_handler SIGINT (sg p)) p else p in
    (true, propagate_signal kill late p).

(** The end of [main]: the summary of the log, given [uname]'s strings, and the
    argument of [exit]. *)
Definition finish (release machine nodename : cstr) (p : pan) : pan * Z :=
  let '(rc, z) := af_clear (zoofile (tb p)) (panpid cfg) in
  let status := if negb (rc =? 0) then exit_stat (sc p) + 1 else exit_stat (sc p) in
  let p := set_tb (set_zoofile z (tb p)) p in
  let p :=
    if has_logfile cfg && fmt_print cfg then
      set_fl (add_log ([nl] ++ str "-----------------------------------------------" ++ [nl] ++
        str "Total Tests: " ++ fmt_d (cnt (coll cfg)) ++ [nl] ++
        str "Total Skipped Tests: " ++ fmt_d (tconfcnt (tb p)) ++ [nl] ++
        str "Total Failures: " ++ fmt_d (failcnt (tb p)) ++ [nl] ++
        str "Kernel Version: " ++ release ++ [nl] ++ str "Machine Architecture: " ++ machine ++ [nl] ++
        str "Hostname: " ++ nodename ++ [nl; nl]) (fl p)) p
    else p in
  (p, status).

(** The status the parent of pan sees: [exit] passes on the low eight bits. *)
Definition exit_status (code : Z) : Z := Z.land code 255.

(** ** Invariant *)

Definition nz (l : list Z) : list Z := filter (λ z, z ≠ 0) l.
Definition pgrps (t : table) : list Z := map pgrp (running t).
(** The tests that run, and the orphaned process groups. *)
Definition alive (t : table) : list Z := nz (pgrps t).
Definition orphaned (t : table) : list Z := nz (all_orphans (orphans t)).

(** The entries of other programs in the active file. *)
Context `{!ActiveFileLaws F} (others : list Z).

(** [k] is the difference between [num_active] and the number of tests that run:
    0 except inside [check_pids] and the inner loop. *)
Record tinv (k : Z) (t : table) : Prop := {
  inv_length : zlength (running t) = keep_active cfg;
  inv_active : num_active t = zlength (alive t) + k;
  inv_distinct : NoDup (panpid cfg :: alive t ++ orphaned t);
  inv_range : Forall (λ z, 0 ≤ z ≤ INT_MAX) (pgrps t);
  inv_zoo : af_ok (zoofile t);
  inv_pids : af_pids (zoofile t) ≡ₚ others ++ panpid cfg :: alive t ++ orphaned t;
  inv_text : Forall (λ r, text_ok (cmdline (cmd r))) (running t)
}.

Definition inv (p : pan) : Prop := tinv 0 (tb p) ∧ 0 ≤ c_idx (sc p) < cnt (coll cfg).

(** The configuration is one [main] can have made. *)
Record cfg_ok : Prop := {
  cfg_cnt : cnt (coll cfg) = zlength (ary (coll cfg));
  cfg_pos : 0 < cnt (coll cfg);
  cfg_text : Forall (λ e, text_ok (name e) ∧ text_ok (cmdline e)) (ary (coll cfg))
}.

(** What the system guarantees.  [fork] fails or gives a pid that is neither
    pan's nor that of a process group still in use. *)
Definition child_ok (e : child_env) (p : pan) : Prop :=
  fork_pid e = -1 ∨
  (0 < fork_pid e ≤ INT_MAX ∧ fork_pid e ∉ panpid cfg :: alive (tb p) ++ orphaned (tb p)).

Fixpoint starts_ok (es : list start_env) (p : pan) : Prop :=
  match es with
  | [] => True
  | e :: es =>
      0 ≤ s_rand e ∧ child_ok (s_child e) p ∧
      ∀ p', start_one e (deliver_all (s_sigs e) p) = Go (true, p') → starts_ok es p'
  end.

(** [wait] fails or returns a child that has ended. *)
Definition wait_ok (e : wait_env) (p : pan) : Prop :=
  wait_pid e < 0 ∨
  (wait_pid e ∈ alive (tb p) ∧ WIFSIGNALED (stat_loc e) || WIFEXITED (stat_loc e) = true).

Definition turn_ok (e : turn_env) (p : pan) : Prop :=
  starts_ok (t_starts e) p ∧ ∀ p', start_loop (t_starts e) p = Go p' → wait_ok (t_wait e) p'.

(** A computation that does not leave the program, and whose result, if it gets
    to one, satisfies [Q]. *)
Definition ok {A} (m : io A) (Q : A → Prop) : Prop :=
  match m with Go a => Q a | Exit _ => False | _ => True end.

Lemma ok_bind {A B} (m : io A) (f : A → io B) Q R :
  ok m Q → (∀ a, Q a → ok (f a) R) → ok (m ≫= f) R.
Proof. destruct m; simpl; auto. Qed.

Lemma ok_mono {A} (m : io A) (Q R : A → Prop) : ok m Q → (∀ a, Q a → R a) → ok m R.
Proof. destruct m; simpl; auto. Qed.

Lemma ok_any {A} (m : io A) : (∀ c, m ≠ Exit c) → ok m (λ _, True).
Proof. destruct m; simpl; auto. intros Hm. by destruct (Hm code). Qed.

(** *** Lists of pids *)

Lemma nz_app l1 l2 : nz (l1 ++ l2) = nz l1 ++ nz l2.
Proof. apply filter_app. Qed.

Lemma nz_cons z l : nz (z :: l) = if z =? 0 then nz l else z :: nz l.
Proof.
  unfold nz. rewrite filter_cons. destruct (z =? 0) eqn:E; bool_hyps.
  - rewrite decide_False; [done|]. auto.
  - by rewrite decide_True.
Qed.

Lemma elem_of_nz z l : z ∈ nz l ↔ z ≠ 0 ∧ z ∈ l.
Proof. unfold nz. by rewrite list_elem_of_filter. Qed.

Lemma nz_length_le l : (length (nz l) ≤ length l)%nat.
Proof. apply length_filter. Qed.

(** Filling a free place adds a pid, freeing one removes it. *)
Lemma nz_insert_zero l i z :
  l !! i = Some 0 → z ≠ 0 → nz (<[i := z]> l) ≡ₚ z :: nz l.
Proof.
  revert i. induction l as [|x l IH]; intros [|i] Hi Hz; simpl in *; try done.
  - injection Hi as ->. rewrite !nz_cons. simpl. by rewrite (proj2 (Z.eqb_neq _ _)).
  - rewrite !nz_cons. destruct (x =? 0); [by apply IH|]. rewrite IH by done. apply perm_swap.
Qed.

Lemma nz_free l i z : l !! i = Some z → z ≠ 0 → nz l ≡ₚ z :: nz (<[i := 0]> l).
Proof.
  revert i. induction l as [|x l IH]; intros [|i] Hi Hz; simpl in *; try done.
  - injection Hi as ->. rewrite !nz_cons. simpl. by rewrite (proj2 (Z.eqb_neq _ _)).
  - rewrite !nz_cons. destruct (x =? 0); [by apply IH|]. rewrite IH by done. apply perm_swap.
Qed.

Lemma find_slot_spec rs :
  match find_slot rs with
  | Some i => map pgrp rs !! i = Some 0
  | None => nz (map pgrp rs) = map pgrp rs
  end.
Proof.
  induction rs as [|r rs IH]; simpl; [done|]. rewrite nz_cons. destruct (pgrp r =? 0) eqn:E; bool_hyps.
  - simpl. by rewrite E.
  - destruct (find_slot rs); simpl; [done|by rewrite IH].
Qed.

Lemma find_pgrp_spec cpid rs :
  match find_pgrp cpid rs with
  | Some i => map pgrp rs !! i = Some cpid
  | None => cpid ∉ map pgrp rs
  end.
Proof.
  induction rs as [|r rs IH]; simpl; [by apply not_elem_of_nil|]. destruct (pgrp r =? cpid) eqn:E; bool_hyps.
  - simpl. by rewrite E.
  - destruct (find_pgrp cpid rs); simpl; [done|]. rewrite not_elem_of_cons. auto.
Qed.

(** *** Orphans *)

Lemma fill_zero_spec os q :
  q ≠ 0 → match fill_zero os q with Some os' => nz os' ≡ₚ q :: nz os | None => True end.
Proof.
  intros Hq. induction os as [|o os IH]; simpl; [done|]. destruct (o =? 0) eqn:E.
  - rewrite !nz_cons, E. by rewrite (proj2 (Z.eqb_neq _ _)).
  - destruct (fill_zero os q); simpl; [|done]. rewrite !nz_cons, E, IH. apply perm_swap.
Qed.

(** Marking an orphan adds it to the orphans. *)
Lemma mark_orphan_spec o q : q ≠ 0 → nz (all_orphans (mark_orphan o q)) ≡ₚ q :: nz (all_orphans o).
Proof.
  intros Hq. unfold mark_orphan, all_orphans. destruct (o_head o =? 0) eqn:E.
  - simpl. rewrite !nz_cons, E. by rewrite (proj2 (Z.eqb_neq _ _)).
  - pose proof (fill_zero_spec (o_rest o) q Hq) as Hf. destruct (fill_zero (o_rest o) q); simpl.
    + rewrite !nz_cons, E, Hf. apply perm_swap.
    + rewrite !nz_cons, E. rewrite (proj2 (Z.eqb_neq q 0)) by done. apply perm_swap.
Qed.

(** Looking after the orphans removes some of them, from the list and from the
    active file alike. *)
Lemma check_orphans_loop_spec kill sig os z f X Y :
  af_ok z → af_pids z ≡ₚ X ++ nz os → NoDup (Y ++ nz os) →
  let '(os', z', f') := check_orphans_loop kill sig os z f in
  af_ok z' ∧ af_pids z' ≡ₚ X ++ nz os' ∧ NoDup (Y ++ nz os') ∧ nz os' ⊆ nz os ∧ length os' = length os.
Proof.
  revert z f X Y. induction os as [|o os IH]; intros z f X Y Hz Hp Hnd; cbn [check_orphans_loop]; [done|].
  rewrite nz_cons in Hp, Hnd. unfold check_orphan. destruct (o =? 0) eqn:E.
  { specialize (IH z f X Y Hz Hp Hnd). destruct (check_orphans_loop kill sig os z f) as [[os' z'] f'].
    rewrite !nz_cons. simpl. rewrite E. destruct IH as (? & ? & ? & ? & ?). split_and!; try done. simpl. lia. }
  assert (Hkeep : let '(os', z', f') := check_orphans_loop kill sig os z (add_kill (- o) sig f) in
    af_ok z' ∧ af_pids z' ≡ₚ X ++ nz (o :: os') ∧ NoDup (Y ++ nz (o :: os')) ∧
    nz (o :: os') ⊆ nz (o :: os) ∧ length (o :: os') = length (o :: os)).
  { specialize (IH z (add_kill (- o) sig f) (X ++ [o]) (Y ++ [o]) Hz).
    rewrite <- !app_assoc in IH. specialize (IH Hp Hnd).
    destruct (check_orphans_loop kill sig os z _) as [[os' z'] f']. rewrite !nz_cons, E.
    rewrite <- !app_assoc in IH. destruct IH as (? & ? & ? & ? & ?). split_and!; try done; [|simpl; lia].
    set_solver. }
  case_if; [by destruct (check_orphans_loop kill sig os z _) as [[? ?] ?]|].
  destruct (kill o =? ESRCH) eqn:E3; [|by destruct (check_orphans_loop kill sig os z _) as [[? ?] ?]].
  clear Hkeep. destruct (af_clear_spec z o Hz) as (Hz' & Hc & _).
  destruct Hc as [_ Hc]; [rewrite Hp; set_solver|].
  assert (Hp' : af_pids (af_clear z o).2 ≡ₚ X ++ nz os).
  { apply (Permutation_cons_inv (a := o)). rewrite <- Hc, Hp. symmetry. apply Permutation_middle. }
  assert (Hnd' : NoDup (Y ++ nz os)).
  { rewrite <- Permutation_middle in Hnd. by apply NoDup_cons in Hnd as [_ ?]. }
  specialize (IH _ (add_kill (- o) sig f) X Y Hz' Hp' Hnd').
  destruct (check_orphans_loop kill sig os _ _) as [[os' z'] f']. rewrite !nz_cons. simpl.
  rewrite (proj2 (Z.eqb_neq o 0)) by done.
  destruct IH as (? & ? & ? & ? & ?). split_and!; try done; [set_solver|simpl; lia].
Qed.

Lemma all_orphans_eta (l : list Z) : l ≠ [] → all_orphans (OrphanList (hd 0 l) (tail l)) = l.
Proof. by destruct l. Qed.

(** [check_orphans] keeps the invariant and the running tests. *)
Lemma check_orphans_inv kill sig k t f :
  tinv k t →
  let '(t', f') := check_orphans kill sig t f in
  tinv k t' ∧ running t' = running t ∧ num_active t' = num_active t ∧ orphaned t' ⊆ orphaned t.
Proof.
  intros [I1 I2 I3 I4 I5 I6 I7]. unfold check_orphans.
  rewrite app_comm_cons, app_assoc in I6.
  pose proof (check_orphans_loop_spec kill sig (all_orphans (orphans t)) (zoofile t) f
    (others ++ panpid cfg :: alive t) (panpid cfg :: alive t) I5 I6 I3) as Hl.
  destruct (check_orphans_loop _ _ _ _ _) as [[os' z'] f']. destruct Hl as (? & ? & ? & ? & Hlen).
  assert (Ho : all_orphans (OrphanList (hd 0 os') (tail os')) = os').
  { apply all_orphans_eta. intros ->. done. }
  split_and!; try done; [|by unfold orphaned; simpl; rewrite Ho].
  split; unfold alive, orphaned, pgrps; simpl; rewrite ?Ho; try done.
  by rewrite app_comm_cons, app_assoc.
Qed.

(** [propagate_signal] changes no process group. *)
Lemma propagate_loop_same ls s rs f :
  let '(s', rs', f') := propagate_loop ls s rs f in
  map pgrp rs' = map pgrp rs ∧ map cmd rs' = map cmd rs ∧ execs f' = execs f.
Proof.
  revert ls s f. induction rs as [|r rs IH]; intros ls s f; simpl; [done|].
  destruct (pgrp r =? 0).
  - specialize (IH ls s f). destruct (propagate_loop ls s rs f) as [[s' rs'] f']. simpl. by destruct IH as (-> & -> & ->).
  - set (s1 := deliver _ _). specialize (IH (tail ls) s1 (add_kill (- pgrp r) (send_signal s1) f)).
    destruct (propagate_loop (tail ls) s1 rs _) as [[s' rs'] f']. simpl. by destruct IH as (-> & -> & ->).
Qed.

Lemma text_cmds rs rs' :
  map cmd rs' = map cmd rs → Forall (λ r, text_ok (cmdline (cmd r))) rs →
  Forall (λ r, text_ok (cmdline (cmd r))) rs'.
Proof.
  intros Heq Hf. apply (Forall_map cmd (λ c, text_ok (cmdline c))). rewrite Heq.
  by apply (Forall_map cmd (λ c, text_ok (cmdline c))).
Qed.

(** Changing slots without changing process groups or commands. *)
Lemma tinv_running k t rs' :
  tinv k t → map pgrp rs' = map pgrp (running t) →
  Forall (λ r, text_ok (cmdline (cmd r))) rs' → tinv k (set_running rs' t).
Proof.
  intros [I1 I2 I3 I4 I5 I6 I7] Hp Hc.
  assert (length rs' = length (running t)) by (rewrite <- (length_map pgrp rs'), Hp; apply length_map).
  split; unfold alive, pgrps in *; simpl; rewrite ?Hp; try done. lia.
Qed.

Lemma propagate_inv kill late k p :
  tinv k (tb p) →
  tinv k (tb (propagate_signal kill late p)) ∧
  pgrps (tb (propagate_signal kill late p)) = pgrps (tb p) ∧
  sc (propagate_signal kill late p) = sc p.
Proof.
  intros Hi. unfold propagate_signal.
  destruct (if rec_signal _ =? SIGALRM then _ else _) as [s f].
  pose proof (propagate_loop_same (l_kills late) s (running (tb p)) f) as Hl.
  destruct (propagate_loop _ _ _ f) as [[s1 rs] f1]. destruct Hl as (Hp & Hc & _).
  assert (Hi' : tinv k (set_running rs (tb p))).
  { apply tinv_running; [done|done|]. apply (text_cmds (running (tb p))); [done|apply Hi]. }
  pose proof (check_orphans_inv kill (send_signal (deliver (l_orphans late) s1)) k _ f1 Hi') as Ho.
  destruct (check_orphans _ _ _ f1) as [t' f2]. destruct Ho as (? & Hr & _).
  split_and!; [done| |done]. unfold pgrps. simpl. rewrite Hr. done.
Qed.

(** *** [run_child] *)

Lemma map_pgrp_insert rs i r : map pgrp (<[i := r]> rs) = <[i := pgrp r]> (map pgrp rs).
Proof. apply list_fmap_insert. Qed.

Lemma pgrp_lookup rs i z : map pgrp rs !! i = Some z → pgrp (rs !!! i) = z ∧ rs !! i = Some (rs !!! i).
Proof.
  intros Hi. apply list_lookup_fmap_Some in Hi as (r & -> & Hr). by rewrite (list_lookup_total_correct _ _ _ Hr).
Qed.

(** Rewriting a slot without changing its process group. *)
Lemma tinv_slot k t i r :
  tinv k t → pgrp r = pgrp (running t !!! i) → text_ok (cmdline (cmd r)) →
  tinv k (set_running (<[i := r]> (running t)) t).
Proof.
  intros Hi Hr Hc. apply tinv_running; [done| |].
  - rewrite map_pgrp_insert, Hr. destruct (decide (i < length (running t))%nat) as [Hlt|Hge].
    + apply list_insert_id. rewrite list_lookup_fmap. by rewrite (list_lookup_lookup_total_lt _ _ Hlt).
    + apply list_insert_ge. rewrite length_map. lia.
  - apply Forall_insert; [apply Hi|done].
Qed.

(** Putting a new process group into a free slot and marking it. *)
Lemma tinv_start k t i r nm cm :
  tinv k t → pgrps t !! i = Some 0 →
  0 < pgrp r ≤ INT_MAX → pgrp r ∉ panpid cfg :: alive t ++ orphaned t →
  text_ok nm → text_ok cm → text_ok (cmdline (cmd r)) →
  (af_mark (zoofile t) (pgrp r) nm cm).1 = 0 ∧
  tinv (k - 1) (set_zoofile (af_mark (zoofile t) (pgrp r) nm cm).2 (set_running (<[i := r]> (running t)) t)).
Proof.
  intros [I1 I2 I3 I4 I5 I6 I7] Hslot Hp Hfresh Hnm Hcm Hc.
  destruct (af_mark_spec (zoofile t) (pgrp r) nm cm I5 ltac:(lia) Hnm Hcm) as (Hrc & Hz & Hpids).
  split; [done|]. pose proof (nz_insert_zero (pgrps t) i (pgrp r) Hslot ltac:(lia)) as Hperm.
  split; unfold alive, orphaned, pgrps in *; simpl; rewrite ?map_pgrp_insert, ?Hperm; try done.
  - by rewrite length_insert.
  - simpl. lia.
  - rewrite <- app_comm_cons, Permutation_swap. by apply NoDup_cons.
  - apply Forall_insert; [done|lia].
  - rewrite <- app_comm_cons, Hpids, Permutation_swap, I6. apply Permutation_middle.
  - by apply Forall_insert.
Qed.

Lemma open_loop_ok errs dir nm no : ok (open_loop errs dir nm no) (λ _, True).
Proof. revert no. induction errs as [|e errs IH]; intros no; simpl; [done|]. repeat case_if; simpl; auto. Qed.

Lemma errbuf_text_ok t : ok (errbuf_text t) (λ _, True).
Proof. unfold errbuf_text. by case_if. Qed.

Lemma child_main_ok e colle c : ok (child_main e colle c) (λ _, True).
Proof.
  assert (Hm : ∀ t (n : Z), ok (msg ← errbuf_text t; Go (Some (msg, n))) (λ _, True)).
  { intros t n. eapply ok_bind; [apply errbuf_text_ok|done]. }
  unfold child_main.
  set (exec := if exec_errno e =? 0 then _ else _).
  assert (He : ok exec (λ _, True)).
  { unfold exec. case_if; [done|]. destruct (exec_command c) as [s|[|[| |a] l]]; try apply Hm; done. }
  destruct (test_out_dir cfg); repeat case_if; auto.
Qed.

Lemma of_res_ok {A} (m : res A) : ok (of_res m) (λ _, True).
Proof. by destruct m. Qed.

(** What [run_child] does: nothing but reports when the test does not start,
    otherwise the new process group takes the free slot and is recorded in the
    active file. *)
Definition child_result (e : child_env) (colle : coll_entry) (p : pan) (r : Z * pan) : Prop :=
  sc r.2 = sc p ∧ sg r.2 = sg p ∧ orphans (tb r.2) = orphans (tb p) ∧
  ((r.1 = -1 ∧ tinv 0 (tb r.2) ∧ pgrps (tb r.2) = pgrps (tb p) ∧ execs (fl r.2) = execs (fl p)) ∨
   (r.1 = fork_pid e ∧ 0 < r.1 ∧ tinv (-1) (tb r.2) ∧ alive (tb r.2) ≡ₚ r.1 :: alive (tb p) ∧
    ∃ c, execs (fl r.2) = execs (fl p) ++ [(name colle, r.1, c)])).

Lemma report_failed_start_same e r msg st p :
  tinv 0 (tb p) →
  sc (report_failed_start e r msg st p) = sc p ∧ sg (report_failed_start e r msg st p) = sg p ∧
  orphans (tb (report_failed_start e r msg st p)) = orphans (tb p) ∧
  tinv 0 (tb (report_failed_start e r msg st p)) ∧
  pgrps (tb (report_failed_start e r msg st p)) = pgrps (tb p) ∧
  execs (fl (report_failed_start e r msg st p)) = execs (fl p).
Proof.
  intros Hi. unfold report_failed_start, write_test_end. destruct (term_status st) as [t w].
  assert (Hc : ∀ a b, tinv 0 (set_counts a b (tb p))) by (by destruct Hi).
  destruct (has_logfile cfg), (fmt_print cfg), (negb (w =? 0)), (quiet_mode cfg), (rts cfg); simpl; auto 10.
Qed.

Lemma write_test_start_execs r f : execs (write_test_start r f) = execs f.
Proof. unfold write_test_start. by case_if. Qed.

Lemma run_child_inv e colle i p :
  tinv 0 (tb p) → pgrps (tb p) !! i = Some 0 → child_ok e p →
  text_ok (name colle) → text_ok (cmdline colle) →
  ok (run_child e colle i p) (child_result e colle p).
Proof.
  intros Hi Hslot Hch Hnm Hcm. unfold run_child. eapply ok_bind with (Q := λ _, True).
  { destruct (test_out_dir cfg); [apply open_loop_ok|done]. }
  intros [[out err] no] _. destruct (pgrp_lookup _ _ _ Hslot) as [Hp0 Hlk].
  set (r1 := TagPgrp (pgrp _) _ _ _ out).
  assert (H1 : tinv 0 (set_running (<[i := r1]> (running (tb p))) (tb p))).
  { apply tinv_slot; [done|done|]. simpl. pose proof (inv_text _ _ Hi) as Ht. rewrite Forall_forall in Ht.
    apply Ht. by eapply list_elem_of_lookup_2. }
  assert (Hpg1 : map pgrp (<[i := r1]> (running (tb p))) = pgrps (tb p)).
  { rewrite map_pgrp_insert. apply list_insert_id. simpl. by rewrite Hp0. }
  destruct (negb (err =? 0)); [simpl; unfold child_result; simpl; split_and!; try done; left; by split_and!|].
  eapply ok_bind with (Q := λ _, True).
  { destruct (pcnt_f colle); [apply of_res_ok|done]. }
  intros [c_cmdline ctr] _. cbn beta iota zeta.
  destruct (negb (pipe_ok e)); [simpl; unfold child_result; simpl; split_and!; try done; left; by split_and!|].
  set (r2 := TagPgrp (pgrp r1) _ _ colle out). cbn [tb set_tb running set_running sg fl sc cmdno counter].
  rewrite list_insert_insert_eq. set (t2 := set_running _ (set_running _ (tb p))).
  assert (H2 : tinv 0 t2) by (by apply (tinv_slot 0 (tb p) i r2)).
  assert (Hpg2 : pgrps t2 = pgrps (tb p)).
  { unfold pgrps, t2. simpl. rewrite map_pgrp_insert. apply list_insert_id. simpl. by rewrite Hp0. }
  set (p2 := match test_out_dir cfg with Some _ => _ | None => _ end).
  assert (Hp2 : tb p2 = t2 ∧ sc p2 = sc p ∧ sg p2 = sg p ∧ execs (fl p2) = execs (fl p)).
  { unfold p2. destruct (test_out_dir cfg), (quiet_mode cfg); simpl; rewrite ?write_test_start_execs; done. }
  clearbody p2. destruct Hp2 as (Htb & Hsc & Hsg & Hex).
  assert (Horph : orphans (tb p2) = orphans (tb p)) by (by rewrite Htb).
  assert (Hslot2 : pgrps (tb p2) !! i = Some 0) by (by rewrite Htb, Hpg2).
  rewrite <- Htb in H2, Hpg2. destruct (fork_pid e =? -1) eqn:Efork; bool_hyps.
  { simpl. unfold child_result. simpl. split_and!; try done. left. by split_and!. }
  eapply ok_bind; [apply child_main_ok|]. intros m _. destruct (read_intr e); [done|]. destruct m as [[msg code]|].
  { destruct (waitpid_intr e); [done|]. pose proof (report_failed_start_same e r2 msg (Z.shiftl (Z.land code 255) 8) p2 H2) as (R1 & R2 & R3 & R4 & R5 & R6).
    simpl. unfold child_result. cbn [fst snd]. split_and!; try congruence. left. split_and!; [done|done|congruence|congruence]. }
  cbn [tb set_tb fl set_fl running set_running zoofile].
  destruct Hch as [?|[Hr Hf]]; [done|].
  set (r3 := TagPgrp (fork_pid e) false _ colle out).
  destruct (tinv_start 0 (tb p2) i r3 (name colle) (cmdline colle)) as [Hrc Hi3]; try done.
  { unfold alive, orphaned. rewrite Hpg2, Horph. exact Hf. }
  simpl in Hrc. destruct (af_mark _ _ _ _) as [rc z] eqn:Em. simpl in Hrc, Hi3. rewrite Hrc. simpl.
  unfold child_result. cbn [fst snd]. split_and!; try done. right. split_and!; try done; [lia| |].
  - unfold alive, pgrps. simpl. rewrite map_pgrp_insert. rewrite nz_insert_zero; [by unfold pgrps in Hpg2; rewrite Hpg2|done|simpl; lia].
  - exists (exec_command c_cmdline). by rewrite <- Hex.
Qed.

(** *** The inner loop *)

Lemma deliver_all_same sigs p : tb (deliver_all sigs p) = tb p ∧ sc (deliver_all sigs p) = sc p ∧ fl (deliver_all sigs p) = fl p.
Proof. done. Qed.

Context (Hcfg : cfg_ok).

Lemma choose_range rnd c : 0 ≤ rnd → 0 ≤ c < cnt (coll cfg) → 0 ≤ choose rnd c < cnt (coll cfg).
Proof.
  intros Hr Hc. unfold choose. destruct (sequential cfg); [done|].
  rewrite Z.rem_mod_nonneg by (pose proof (cfg_pos Hcfg); lia). apply Z.mod_pos_bound, Hcfg.
Qed.

Lemma entry_text_ok c : 0 ≤ c < cnt (coll cfg) →
  text_ok (name (ary (coll cfg) !!! Z.to_nat c)) ∧ text_ok (cmdline (ary (coll cfg) !!! Z.to_nat c)).
Proof.
  intros Hc. pose proof (cfg_text Hcfg) as Ht. rewrite Forall_forall in Ht. apply Ht.
  apply list_elem_of_lookup_total_2. pose proof (cfg_cnt Hcfg). lia.
Qed.

(** While fewer tests run than may run there is a free slot. *)
Lemma free_slot t : tinv 0 t → num_active t < keep_active cfg → ∃ i, find_slot (running t) = Some i.
Proof.
  intros [I1 I2 _ _ _ _ _] Hlt. pose proof (find_slot_spec (running t)) as Hs.
  destruct (find_slot (running t)) as [i|]; [by exists i|]. unfold alive, pgrps in I2. rewrite Hs, length_map in I2. lia.
Qed.

Definition next_idx (c : Z) : Z := if cnt (coll cfg) <=? c + 1 then 0 else c + 1.

(** One start: the invariant is kept and the counters move as they should. *)
Definition start_result (e : start_env) (p : pan) (r : bool * pan) : Prop :=
  let c := choose (s_rand e) (c_idx (sc p)) in
  let nm := name (ary (coll cfg) !!! Z.to_nat c) in
  r.1 = true ∧ inv r.2 ∧ sg r.2 = sg p ∧ orphans (tb r.2) = orphans (tb p) ∧
  ((execs (fl r.2) = execs (fl p) ∧ alive (tb r.2) = alive (tb p) ∧
    sc r.2 = Sched (if sequential cfg then next_idx c else c)
               (if sequential cfg && (0 <? starts (sc p)) then starts (sc p) - 1 else starts (sc p))
               (stop (sc p)) (go_idle (sc p)) (exit_stat (sc p)) (fork_in_road (sc p))) ∨
   (∃ pid com, execs (fl r.2) = execs (fl p) ++ [(nm, pid, com)] ∧ alive (tb r.2) ≡ₚ pid :: alive (tb p) ∧
    sc r.2 = Sched (if sequential cfg then next_idx c else c)
               (if 0 <? starts (sc p) then starts (sc p) - 1 else starts (sc p))
               (stop (sc p)) (go_idle (sc p)) (exit_stat (sc p)) (fork_in_road (sc p)))).

Lemma start_one_inv e p :
  inv p → can_start p = true → 0 ≤ s_rand e → child_ok (s_child e) p →
  ok (start_one e p) (start_result e p).
Proof.
  intros [Hi Hidx] Hcan Hrand Hch. unfold start_one. apply andb_prop in Hcan as [Hlt _]. bool_hyps.
  pose proof (choose_range (s_rand e) (c_idx (sc p)) Hrand Hidx) as Hc.
  set (c := choose _ _) in *. destruct (free_slot _ Hi Hlt) as [i Hslot].
  pose proof (find_slot_spec (running (tb p))) as Hs. rewrite Hslot in *.
  destruct (entry_text_ok c Hc) as [Hnm Hcm].
  eapply ok_bind; [by apply run_child_inv|]. intros [cpid p1] (Hsc & Hsg & Ho & Hcase). simpl in Hsc, Hsg, Ho, Hcase.
  assert (Hn : 0 ≤ next_idx c < cnt (coll cfg)) by (unfold next_idx; pose proof (cfg_pos Hcfg); case_if; lia).
  fold (next_idx c). simpl. unfold start_result. fold c. cbn [fst snd].
  destruct Hcase as [(-> & Hi1 & Hpg & Hex)|(-> & Hpos & Hi1 & Hal & (com & Hex))]; simpl in *.
  - split_and!; try done; [split; [done|]; simpl; by case_if|].
    left. split_and!; try done. unfold alive. by rewrite Hpg.
  - rewrite (proj2 (Z.eqb_neq (fork_pid (s_child e)) (-1))) by lia. simpl. split_and!; try done.
    + split; simpl; [|by case_if]. destruct Hi1 as [J1 J2 J3 J4 J5 J6 J7]. split; simpl; try done.
      unfold alive, pgrps in *. simpl in *. lia.
    + right. exists (fork_pid (s_child e)), com. split_and!; done.
Qed.

Lemma start_loop_inv es p :
  inv p → starts_ok es p →
  ok (start_loop es p) (λ p', inv p' ∧ orphans (tb p') = orphans (tb p) ∧
    stop (sc p') = stop (sc p) ∧ go_idle (sc p') = go_idle (sc p) ∧ exit_stat (sc p') = exit_stat (sc p) ∧
    fork_in_road (sc p') = fork_in_road (sc p) ∧ (can_start p' = false ∨ must_pause p' = true)).
Proof.
  revert p. induction es as [|e es IH]; intros p Hi Hs; cbn [start_loop].
  - destruct (can_start p) eqn:Ec; simpl; [|by auto 10]. destruct (must_pause p) eqn:Em; simpl; [by auto 10|done].
  - destruct (can_start p) eqn:Ec; simpl; [|by auto 10]. destruct Hs as (Hr & Hch & Hs).
    destruct (must_pause (deliver_all (s_sigs e) p)) eqn:Em; simpl; [by auto 10|].
    pose proof (start_one_inv e (deliver_all (s_sigs e) p) Hi Ec Hr Hch) as Hone.
    destruct (start_one e (deliver_all (s_sigs e) p)) as [[b p1]| | |] eqn:E1; simpl in *; try done.
    destruct Hone as (Hb & Hi1 & Hsg & Ho & Hsc). simpl in *. subst b.
    eapply ok_mono; [apply IH; auto|]. intros p' (? & Ho' & H1 & H2 & H3 & H4 & ?).
    assert (Hsame : stop (sc p1) = stop (sc p) ∧ go_idle (sc p1) = go_idle (sc p) ∧
      exit_stat (sc p1) = exit_stat (sc p) ∧ fork_in_road (sc p1) = fork_in_road (sc p)).
    { destruct Hsc as [(_ & _ & ->)|(? & ? & _ & _ & ->)]; done. }
    destruct Hsame as (? & ? & ? & ?). split_and!; try done; congruence.
Qed.

(** *** [check_pids] *)

(** Taking a process group out of its slot and out of the active file. *)
Lemma tinv_reap k t i cpid r :
  tinv k t → pgrps t !! i = Some cpid → cpid ≠ 0 → pgrp r = 0 → text_ok (cmdline (cmd r)) →
  let t' := set_zoofile (af_clear (zoofile t) cpid).2 (set_running (<[i := r]> (running t)) t) in
  (af_clear (zoofile t) cpid).1 = 0 ∧ tinv (k + 1) t' ∧ alive t ≡ₚ cpid :: alive t' ∧
  cpid ∉ panpid cfg :: alive t' ++ orphaned t'.
Proof.
  intros [I1 I2 I3 I4 I5 I6 I7] Hslot Hc0 Hr Htx t'.
  assert (Hal : alive t ≡ₚ cpid :: alive t').
  { unfold alive, pgrps, t'. simpl. rewrite map_pgrp_insert, Hr. by apply nz_free. }
  assert (Hor : orphaned t' = orphaned t) by done.
  destruct (af_clear_spec (zoofile t) cpid I5) as (Hz & Hin & _).
  destruct Hin as [Hrc Hp]; [rewrite I6, Hal; set_solver|].
  assert (Hall : panpid cfg :: alive t ++ orphaned t ≡ₚ cpid :: panpid cfg :: alive t' ++ orphaned t').
  { rewrite Hal, Hor. simpl. apply perm_swap. }
  rewrite Hall in I3. apply NoDup_cons in I3 as [Hnin Hnd].
  split; [done|]. split; [|done]. split; try done.
  - unfold t'. simpl. by rewrite length_insert.
  - unfold t' at 1. simpl. rewrite I2, Hal. simpl. lia.
  - unfold pgrps, t'. simpl. rewrite map_pgrp_insert. apply Forall_insert; [done|]. rewrite Hr. unfold INT_MAX. lia.
  - apply (Permutation_cons_inv (a := cpid)). unfold t' at 1. simpl. rewrite <- Hp, I6, Hall.
    symmetry. apply Permutation_middle.
  - unfold t'. simpl. by apply Forall_insert.
Qed.

(** Recording an orphan in the list and in the active file. *)
Lemma tinv_orphan k t cpid cm :
  tinv k t → 0 < cpid ≤ INT_MAX → cpid ∉ panpid cfg :: alive t ++ orphaned t → text_ok cm →
  (af_mark (zoofile t) cpid (str "panorphan") cm).1 = 0 ∧
  tinv k (set_orphans (mark_orphan (orphans t) cpid)
           (set_zoofile (af_mark (zoofile t) cpid (str "panorphan") cm).2 t)).
Proof.
  intros [I1 I2 I3 I4 I5 I6 I7] Hc Hnin Hcm.
  destruct (af_mark_spec (zoofile t) cpid (str "panorphan") cm I5 ltac:(lia)) as (Hrc & Hz & Hp);
    [by repeat constructor|done|]. split; [done|].
  pose proof (mark_orphan_spec (orphans t) cpid ltac:(lia)) as Hm.
  split; unfold alive, orphaned, pgrps in *; simpl; try done.
  - rewrite Hm, <- Permutation_middle, Permutation_swap. by apply NoDup_cons.
  - rewrite Hm, Hp, I6, <- (Permutation_middle (nz (map pgrp (running t)))), Permutation_swap. apply Permutation_middle.
Qed.

(** The error count [check_pids] should give for a child that ended. *)
Definition reap_err (r : tag_pgrp) (st : Z) : Z :=
  match term_status st with
  | (Exited, w) => if (w =? 0) || (w =? TCONF) || ((w =? 130) && stopping r) then 0 else 1
  | (Signaled, _) => if stopping r then 0 else 1
  | _ => 1
  end.

Lemma log_result_same r t w st e tbl f :
  let '(tbl', f') := log_result r t w st e tbl f in
  running tbl' = running tbl ∧ num_active tbl' = num_active tbl ∧ orphans tbl' = orphans tbl ∧
  zoofile tbl' = zoofile tbl.
Proof. unfold log_result. repeat case_if; simpl; auto. all: destruct (_ && _); simpl; auto; destruct (negb _); simpl; auto. Qed.

Lemma copy_buffered_output_ok file f : ok (copy_buffered_output file f) (λ _, True).
Proof. unfold copy_buffered_output. destruct (slurp file); [|done]. by destruct (last _). Qed.

(** Reports do not start tests. *)
Lemma log_result_execs r t w st e tbl f : execs (log_result r t w st e tbl f).2 = execs f.
Proof. unfold log_result. repeat case_if; simpl; auto. all: destruct (_ && _); simpl; auto; destruct (negb _); simpl; auto. Qed.

Lemma log_command_execs r w f : execs (log_command r w f) = execs f.
Proof. unfold log_command. by repeat case_if. Qed.

Lemma copy_buffered_output_execs file f : ok (copy_buffered_output file f) (λ f', execs f' = execs f).
Proof. unfold copy_buffered_output. destruct (slurp file); [|done]. destruct (last _); [|done]. simpl. by case_if. Qed.

Lemma write_test_end_execs r i t term st id cu cs f : execs (write_test_end r i t term st id cu cs f) = execs f.
Proof. unfold write_test_end. by case_if. Qed.

Lemma term_ended st : WIFSIGNALED st || WIFEXITED st = true →
  (∃ w, term_status st = (Signaled, w)) ∨ (∃ w, term_status st = (Exited, w)).
Proof. unfold term_status. destruct (WIFSIGNALED st); [eauto|]. destruct (WIFEXITED st); [eauto|done]. Qed.

Lemma reap_inv e i r t w ret p :
  tinv (-1) (tb p) → running (tb p) !! i = Some r → pgrp r = wait_pid e → 0 < wait_pid e →
  ok (reap e i r t w ret p) (λ res,
    tinv 0 (tb res.2) ∧ sc res.2 = sc p ∧ sg res.2 = sg p ∧ execs (fl res.2) = execs (fl p) ∧
    alive (tb p) ≡ₚ wait_pid e :: alive (tb res.2) ∧
    res.1 = (let exited := match t with Exited => true | _ => false end in
             let signaled := match t with Signaled => true | _ => false end in
             ret - (if (w =? 130) && stopping r && exited then 1 else 0) +
             (if signaled && negb (stopping r) then 1 else 0))).
Proof.
  intros Hi Hlk Hpg Hpos. unfold reap.
  destruct (if (w =? 130) && stopping r && _ then _ else _) as [w1 ret1] eqn:Ew.
  pose proof (log_result_same r t w1 (stat_loc e) e (tb p) (fl p)) as Hlog.
  pose proof (log_result_execs r t w1 (stat_loc e) e (tb p) (fl p)) as Hlex.
  destruct (log_result r t w1 (stat_loc e) e (tb p) (fl p)) as [tbl f]. destruct Hlog as (L1 & L2 & L3 & L4).
  simpl in Hlex. eapply ok_bind with (Q := λ f', execs f' = execs (fl p)).
  { destruct (test_out_dir cfg); [|simpl; by rewrite log_command_execs].
    eapply ok_mono; [apply copy_buffered_output_execs|]. simpl. intros f' ->.
    destruct (quiet_mode cfg); by rewrite ?write_test_start_execs, ?log_command_execs. }
  intros f1 Hf1. assert (Hi' : tinv (-1) tbl).
  { destruct Hi as [I1 I2 I3 I4 I5 I6 I7]. unfold alive, orphaned, pgrps in *.
    split; unfold alive, orphaned, pgrps; rewrite ?L1, ?L2, ?L3, ?L4; done. }
  assert (Hal : alive tbl = alive (tb p)) by (unfold alive, pgrps; by rewrite L1).
  set (r0 := TagPgrp 0 _ _ _ _).
  assert (Htx : text_ok (cmdline (cmd r))).
  { pose proof (inv_text _ _ Hi) as Ht. rewrite Forall_forall in Ht. apply Ht. by eapply list_elem_of_lookup_2. }
  assert (Hslot : pgrps tbl !! i = Some (wait_pid e)).
  { unfold pgrps. rewrite L1, list_lookup_fmap, Hlk. simpl. by rewrite Hpg. }
  destruct (tinv_reap (-1) tbl i (wait_pid e) r0 Hi' Hslot ltac:(lia) eq_refl Htx) as (Hrc & Ht' & Hal' & Hnin).
  cbn [zoofile set_running]. destruct (af_clear (zoofile tbl) (wait_pid e)) as [rc z]. simpl in Hrc. subst rc.
  cbn [negb Z.eqb]. simpl in Ht', Hal', Hnin.
  set (f2 := if quiet_mode cfg then f1 else _).
  assert (Hf2 : execs f2 = execs (fl p)) by (unfold f2; destruct (quiet_mode cfg); by rewrite ?write_test_end_execs).
  set (ret2 := if _ && negb (stopping r) then _ else _).
  assert (Hret : ret2 = ret - (if (w =? 130) && stopping r && match t with Exited => true | _ => false end then 1 else 0) +
    (if match t with Signaled => true | _ => false end && negb (stopping r) then 1 else 0)).
  { unfold ret2. destruct ((w =? 130) && stopping r && _); injection Ew as <- <-;
      destruct (_ && negb (stopping r)); lia. }
  destruct ((child_kill e =? 0) || (child_kill e =? EPERM)).
  - assert (Hrange : wait_pid e ≤ INT_MAX).
    { pose proof (inv_range _ _ Hi') as Hr. rewrite Forall_forall in Hr.
      apply (Hr (wait_pid e)). by eapply list_elem_of_lookup_2. }
    destruct (tinv_orphan 0 _ (wait_pid e) (cmdline (cmd r)) Ht' ltac:(lia) Hnin Htx) as [Hmrc Hmi].
    cbn [zoofile set_zoofile set_running cmd orphans r0] in *.
    destruct (af_mark z (wait_pid e) (str "panorphan") (cmdline (cmd r))) as [rc z2]. cbn [fst] in Hmrc. subst rc.
    cbn [negb Z.eqb]. simpl. split_and!; try done. by rewrite <- Hal.
  - simpl. split_and!; try done. by rewrite <- Hal.
Qed.

Lemma check_orphans_loop_execs kill sig os z f : execs (check_orphans_loop kill sig os z f).2 = execs f.
Proof.
  revert z f. induction os as [|o os IH]; intros z f; [done|]. cbn [check_orphans_loop].
  destruct (check_orphan (kill o) sig o z f) as [[o' z'] f'] eqn:Eo.
  assert (Hf : execs f' = execs f).
  { unfold check_orphan in Eo. repeat case_if_in Eo; by injection Eo as <- <- <-. }
  specialize (IH z' f'). destruct (check_orphans_loop kill sig os z' f') as [[? ?] ?]. simpl in *. congruence.
Qed.

Lemma check_orphans_execs kill sig t f : execs (check_orphans kill sig t f).2 = execs f.
Proof.
  unfold check_orphans. pose proof (check_orphans_loop_execs kill sig (all_orphans (orphans t)) (zoofile t) f).
  by destruct (check_orphans_loop _ _ _ _ _) as [[? ?] ?].
Qed.

(** What [check_pids] does: nothing when [wait] fails, otherwise the child's slot
    is freed, [num_active] counted down, and an error reported as described by
    [reap_err]. *)
Definition check_result (e : wait_env) (p : pan) (res : Z * pan) : Prop :=
  tinv 0 (tb res.2) ∧ sc res.2 = sc p ∧ sg res.2 = sg p ∧ execs (fl res.2) = execs (fl p) ∧
  ((wait_pid e < 0 ∧ res.1 = 0 ∧ alive (tb res.2) = alive (tb p)) ∨
   (∃ i, 0 < wait_pid e ∧ find_pgrp (wait_pid e) (running (tb p)) = Some i ∧
      res.1 = reap_err (running (tb p) !!! i) (stat_loc e) ∧
      alive (tb p) ≡ₚ wait_pid e :: alive (tb res.2))).

Lemma check_pids_inv e p :
  tinv 0 (tb p) → wait_ok e p → ok (check_pids e p) (check_result e p).
Proof.
  intros Hi Hw. unfold check_pids.
  pose proof (check_orphans_inv (orphan_kill e) 0 0 (tb p) (fl p) Hi) as Ho.
  pose proof (check_orphans_execs (orphan_kill e) 0 (tb p) (fl p)) as Hex.
  destruct (check_orphans _ _ _ _) as [tbl f]. destruct Ho as (Hi1 & Hr & Hn & _). simpl in Hex.
  assert (Hal : alive tbl = alive (tb p)) by (unfold alive, pgrps; by rewrite Hr).
  destruct (wait_pid e <? 0) eqn:Ew; bool_hyps.
  { simpl. unfold check_result. simpl. split_and!; try done. left. split_and!; done. }
  destruct Hw as [?|[Hin Hend]]; [lia|].
  apply elem_of_nz in Hin as [Hne Hin]. assert (Hpos : 0 < wait_pid e) by lia.
  rewrite (proj2 (Z.ltb_lt 0 _)) by done.
  destruct (term_status (stat_loc e)) as [t w] eqn:Ets.
  set (upd := match t with Signaled => _ | _ => _ end).
  assert (Hupd : upd = (set_num_active (num_active tbl - 1) tbl,
    match t with Exited => if negb (w =? 0) && negb (w =? TCONF) then 1 else 0 | _ => 0 end) ∧ (t = Signaled ∨ t = Exited)).
  { destruct (term_ended _ Hend) as [[w' Hw']|[w' Hw']]; rewrite Ets in Hw'; injection Hw' as -> ->; auto. }
  clearbody upd. destruct Hupd as [-> Ht]. cbn [running set_num_active tb set_tb].
  pose proof (find_pgrp_spec (wait_pid e) (running tbl)) as Hf.
  destruct (find_pgrp (wait_pid e) (running tbl)) as [i|] eqn:Ef; [|by rewrite Hr in Hf].
  destruct (pgrp_lookup _ _ _ Hf) as [Hpg Hlk].
  eapply ok_mono; [apply (reap_inv e i (running tbl !!! i)); try done|].
  - destruct Hi1 as [I1 I2 I3 I4 I5 I6 I7]. split; unfold alive, orphaned, pgrps in *; simpl; try done. lia.
  - intros [err p'] (A1 & A2 & A3 & A4 & A5 & A6). simpl in A1, A2, A3, A4, A5, A6. unfold check_result. simpl.
    split_and!; try done; [by rewrite A4|]. right. exists i. rewrite <- Hr.
    split_and!; [done|done| |].
    + unfold reap_err. rewrite Ets, A6. destruct Ht as [->| ->]; simpl.
      * rewrite andb_false_r. by destruct (stopping _).
      * rewrite andb_true_r, Z.add_0_r. destruct (w =? 0) eqn:E0, (w =? TCONF) eqn:E1, (w =? 130) eqn:E2, (stopping _); simpl; try done.
        all: bool_hyps; unfold TCONF in *; lia.
    + unfold alive, pgrps in *. simpl in A5. by rewrite <- Hr.
Qed.

(** *** Turns of the main loop *)

Lemma check_starts_same b p :
  tb (check_starts b p) = tb p ∧ sg (check_starts b p) = sg p ∧ execs (fl (check_starts b p)) = execs (fl p) ∧
  c_idx (sc (check_starts b p)) = c_idx (sc p) ∧ starts (sc (check_starts b p)) = starts (sc p) ∧
  exit_stat (sc (check_starts b p)) = exit_stat (sc p).
Proof. unfold check_starts. repeat case_if; done. Qed.

Lemma propagate_execs kill late p : execs (fl (propagate_signal kill late p)) = execs (fl p).
Proof.
  unfold propagate_signal.
  destruct (if rec_signal _ =? SIGALRM then _ else _) as [s f] eqn:Es.
  assert (Hf : execs f = execs (fl p)) by (case_if_in Es; by injection Es as <- <-).
  pose proof (propagate_loop_same (l_kills late) s (running (tb p)) f) as H1.
  destruct (propagate_loop _ _ _ f) as [[s1 rs] f1].
  pose proof (check_orphans_execs kill (send_signal (deliver (l_orphans late) s1)) (set_running rs (tb p)) f1) as H2.
  destruct (check_orphans _ _ _ f1) as [t2 f2]. simpl in *. destruct H1 as (_ & _ & H1). congruence.
Qed.

Lemma stop_or_idle_same p :
  tb (stop_or_idle p) = tb p ∧ fl (stop_or_idle p) = fl p ∧ c_idx (sc (stop_or_idle p)) = c_idx (sc p) ∧
  starts (sc (stop_or_idle p)) = starts (sc p) ∧ exit_stat (sc (stop_or_idle p)) = exit_stat (sc p).
Proof. unfold stop_or_idle. by case_if. Qed.

(** What the parts of a turn that start no test leave alone. *)
Definition same_starts (p p' : pan) : Prop :=
  pgrps (tb p') = pgrps (tb p) ∧ execs (fl p') = execs (fl p) ∧ c_idx (sc p') = c_idx (sc p) ∧
  starts (sc p') = starts (sc p) ∧ exit_stat (sc p') = exit_stat (sc p).

Lemma handle_signal_inv kill late p :
  tinv 0 (tb p) → tinv 0 (tb (handle_signal kill late p)) ∧ same_starts p (handle_signal kill late p).
Proof.
  intros Hi. unfold handle_signal, same_starts. case_if; [done|]. case_if.
  - unfold stop_or_idle. by destruct (fork_in_road (sc p)).
  - set (q := if rec_signal (sg p) =? SIGUSR1 then _ else _).
    assert (Hq : tb q = tb p ∧ fl q = fl p ∧ c_idx (sc q) = c_idx (sc p) ∧ starts (sc q) = starts (sc p) ∧
      exit_stat (sc q) = exit_stat (sc p)) by (unfold q; by case_if).
    clearbody q. destruct Hq as (Q1 & Q2 & Q3 & Q4 & Q5). rewrite <- Q1 in Hi.
    destruct (propagate_inv kill late 0 q Hi) as (H1 & H2 & H3).
    pose proof (propagate_execs kill late q) as H4.
    destruct (stop_or_idle_same (propagate_signal kill late q)) as (-> & -> & -> & -> & ->).
    split_and!; try done; congruence.
Qed.

Lemma handle_err_same err p :
  tb (handle_err err p) = tb p ∧ fl (handle_err err p) = fl p ∧ c_idx (sc (handle_err err p)) = c_idx (sc p) ∧
  starts (sc (handle_err err p)) = starts (sc p) ∧
  exit_stat (sc (handle_err err p)) = exit_stat (sc p) + (if (err =? 0) || negb (track_exit_stats cfg) then 0 else 1).
Proof. unfold handle_err. repeat case_if; simpl in *; try done; split_and!; try done; lia. Qed.

(** The state in which [check_pids] is called, given the one in which the starts
    ended. *)
Definition before_wait (e : turn_env) (p1 : pan) : pan :=
  handle_signal (t_kill e) (t_late e) (deliver_all (t_sigs e) (check_starts (t_stop_file e) p1)).

(** The outcome of a turn, given the state in which the starts ended. *)
Definition turn_result (e : turn_env) (p1 : pan) (r : bool * pan) : Prop :=
  inv r.2 ∧ execs (fl r.2) = execs (fl p1) ∧ c_idx (sc r.2) = c_idx (sc p1) ∧ starts (sc r.2) = starts (sc p1) ∧
  (r.1 = true → alive (tb r.2) = []) ∧
  ∃ err, exit_stat (sc r.2) = exit_stat (sc p1) + (if (err =? 0) || negb (track_exit_stats cfg) then 0 else 1) ∧
    ((wait_pid (t_wait e) < 0 ∧ err = 0 ∧ alive (tb r.2) = alive (tb p1)) ∨
     ∃ i, 0 < wait_pid (t_wait e) ∧ find_pgrp (wait_pid (t_wait e)) (running (tb (before_wait e p1))) = Some i ∧
       err = reap_err (running (tb (before_wait e p1)) !!! i) (stat_loc (t_wait e)) ∧
       alive (tb p1) ≡ₚ wait_pid (t_wait e) :: alive (tb r.2)).

Lemma nz_nil_length (l : list Z) : zlength (nz l) = 0 → nz l = [].
Proof. destruct (nz l); [done|simpl; lia]. Qed.

Lemma turn_after_starts e p1 :
  inv p1 → wait_ok (t_wait e) p1 →
  ok (let p := check_starts (t_stop_file e) p1 in
      let p := handle_signal (t_kill e) (t_late e) (deliver_all (t_sigs e) p) in
      r ← check_pids (t_wait e) p;
      let '(err, p) := (r : Z * pan) in
      let p := handle_err err (deliver_all (t_wait_sigs e) p) in
      if negb (stop (sc p) =? 0) && (num_active (tb p) =? 0) then Go (true, p)
      else if negb (go_idle (sc p) =? 0) && (num_active (tb p) =? 0) then
        let s := sc p in
        Go (false, set_sg (wait_handler 0 (sg p))
                     (set_sc (Sched (c_idx s) (starts s) (stop s) 0 (exit_stat s) (fork_in_road s)) p))
      else Go (false, p)) (turn_result e p1).
Proof.
  intros [Hi Hidx] Hw. cbn zeta. unfold turn_result.
  destruct (check_starts_same (t_stop_file e) p1) as (C1 & C2 & C3 & C4 & C5 & C6).
  set (q := deliver_all (t_sigs e) (check_starts (t_stop_file e) p1)).
  assert (Hq : tinv 0 (tb q)) by (unfold q; simpl; by rewrite C1).
  destruct (handle_signal_inv (t_kill e) (t_late e) q Hq) as (H1 & S1 & S2 & S3 & S4 & S5).
  assert (Hpg : pgrps (tb q) = pgrps (tb p1)) by (unfold q; simpl; by rewrite C1).
  assert (Hw' : wait_ok (t_wait e) (handle_signal (t_kill e) (t_late e) q)).
  { unfold wait_ok, alive in *. by rewrite S1, Hpg. }
  eapply ok_bind; [by apply check_pids_inv|]. intros [err p2] (R1 & R2 & R3 & R4 & R5). simpl in R1, R2, R3, R4, R5.
  destruct (handle_err_same err (deliver_all (t_wait_sigs e) p2)) as (E1 & E2 & E3 & E4 & E5).
  set (p3 := handle_err err _) in *. simpl in E1, E2, E3, E4, E5.
  assert (Hinv : tinv 0 (tb p3)) by (by rewrite E1).
  assert (Hex : execs (fl p3) = execs (fl p1)) by (rewrite E2, R4, S2; exact C3).
  assert (Hc : c_idx (sc p3) = c_idx (sc p1)) by (rewrite E3, R2, S3; exact C4).
  assert (Hst : starts (sc p3) = starts (sc p1)) by (rewrite E4, R2, S4; exact C5).
  assert (Hes : exit_stat (sc p3) = exit_stat (sc p1) + (if (err =? 0) || negb (track_exit_stats cfg) then 0 else 1)).
  { rewrite E5, R2, S5. f_equal. exact C6. }
  assert (Hal : num_active (tb p3) = 0 → alive (tb p3) = []).
  { intros Hn. apply nz_nil_length. pose proof (inv_active _ _ Hinv). unfold alive in *. lia. }
  assert (Hlast : ∃ err, exit_stat (sc p3) = exit_stat (sc p1) + (if (err =? 0) || negb (track_exit_stats cfg) then 0 else 1) ∧
    ((wait_pid (t_wait e) < 0 ∧ err = 0 ∧ alive (tb p3) = alive (tb p1)) ∨
     ∃ i, 0 < wait_pid (t_wait e) ∧ find_pgrp (wait_pid (t_wait e)) (running (tb (before_wait e p1))) = Some i ∧
       err = reap_err (running (tb (before_wait e p1)) !!! i) (stat_loc (t_wait e)) ∧
       alive (tb p1) ≡ₚ wait_pid (t_wait e) :: alive (tb p3))).
  { exists err. split; [done|]. assert (Ha : alive (tb (handle_signal (t_kill e) (t_late e) q)) = alive (tb p1))
      by (unfold alive; by rewrite S1, Hpg). rewrite Ha in R5. rewrite E1. exact R5. }
  rewrite <- Hc in Hidx.
  destruct (negb (stop (sc p3) =? 0) && (num_active (tb p3) =? 0)) eqn:Eb.
  { simpl. apply andb_prop in Eb as [_ Eb]. bool_hyps. split_and!; try done; auto. }
  destruct (negb (go_idle (sc p3) =? 0) && _); simpl; split_and!; try done; auto.
Qed.

Lemma turn_inv e p :
  inv p → turn_ok e p → ok (turn e p) (λ r, ∃ p1, start_loop (t_starts e) p = Go p1 ∧ inv p1 ∧ turn_result e p1 r).
Proof.
  intros Hi [Hs Hw]. unfold turn. pose proof (start_loop_inv (t_starts e) p Hi Hs) as Hl.
  destruct (start_loop (t_starts e) p) as [p1| | |] eqn:E; simpl in Hl; try done.
  destruct Hl as (Hi1 & _). specialize (Hw p1 eq_refl). change (Go p1 ≫= ?f) with (f p1).
  eapply ok_mono; [apply (turn_after_starts e p1 Hi1 Hw)|]. intros r Hr. by exists p1.
Qed.

(** *** Runs *)

(** Turns of the main loop until it ends or the answers are used up. *)
Fixpoint run (es : list turn_env) (p : pan) : io (bool * pan) :=
  match es with
  | [] => Go (false, p)
  | e :: es => r ← turn e p; if (r.1 : bool) then Go r else run es r.2
  end.

Fixpoint run_ok (es : list turn_env) (p : pan) : Prop :=
  match es with
  | [] => True
  | e :: es => turn_ok e p ∧ ∀ p', turn e p = Go (false, p') → run_ok es p'
  end.




(** An invariant of the turns holds at the end of a run. *)
Lemma run_ind (P : pan → Prop) es p :
  (∀ e p, inv p → P p → turn_ok e p → ok (turn e p) (λ r, P r.2)) →
  inv p → P p → run_ok es p →
  ok (run es p) (λ r, inv r.2 ∧ P r.2 ∧ (r.1 = true → alive (tb r.2) = [])).
Proof.
  intros Hstep. revert p. induction es as [|e es IH]; intros p Hi HP Hok; cbn [run].
  - done.
  - destruct Hok as [Ht Hok]. pose proof (turn_inv e p Hi Ht) as Hturn. pose proof (Hstep e p Hi HP Ht) as HP'.
    destruct (turn e p) as [[b p']| | |] eqn:E; simpl in *; try done.
    destruct Hturn as (p1 & Hp1 & Hi1 & (Hi' & _ & _ & _ & Hend & _)). simpl in *.
    destruct b; simpl; [split_and!; auto|]. apply IH; auto.
Qed.


(** *** The order of the tests *)

(** The first [n] tags in sequential order, starting over at the end. *)
Definition cmd_seq (n : nat) : list cstr :=
  map (λ j, name (ary (coll cfg) !!! Z.to_nat (Z.of_nat j mod cnt (coll cfg)))) (seq 0 n).

Definition seq_inv (S0 : Z) (p : pan) : Prop :=
  0 ≤ starts (sc p) ≤ S0 ∧ c_idx (sc p) = (S0 - starts (sc p)) mod cnt (coll cfg) ∧
  sublist (map (λ x, x.1.1) (execs (fl p))) (cmd_seq (Z.to_nat (S0 - starts (sc p)))).

Lemma next_idx_mod k : 0 ≤ k → next_idx (k mod cnt (coll cfg)) = (k + 1) mod cnt (coll cfg).
Proof.
  intros Hk. pose proof (cfg_pos Hcfg) as Hp. pose proof (Z.mod_pos_bound k _ Hp). unfold next_idx.
  rewrite <- (Zplus_mod_idemp_l k 1). case_if.
  - replace (k mod cnt (coll cfg) + 1) with (cnt (coll cfg)) by lia. by rewrite Z.mod_same by lia.
  - by rewrite (Z.mod_small (k mod cnt (coll cfg) + 1)) by lia.
Qed.

Lemma cmd_seq_succ n :
  cmd_seq (S n) = cmd_seq n ++ [name (ary (coll cfg) !!! Z.to_nat (Z.of_nat n mod cnt (coll cfg)))].
Proof. unfold cmd_seq. rewrite seq_S, map_app. done. Qed.

(** A start moves on to the next command, started or not. *)
Lemma start_one_seq e p S0 r :
  sequential cfg = true → can_start p = true → seq_inv S0 p → start_result e p r → seq_inv S0 r.2.
Proof.
  intros Hseq Hcan (Hs & Hc & Hsub) (_ & _ & _ & _ & Hcase). apply andb_prop in Hcan as [_ Hst]. bool_hyps.
  assert (Hch : choose (s_rand e) (c_idx (sc p)) = c_idx (sc p)) by (unfold choose; by rewrite Hseq).
  rewrite Hch, Hseq in Hcase. rewrite (proj2 (Z.ltb_lt 0 (starts (sc p)))) in Hcase by lia. simpl in Hcase.
  assert (Hn : S0 - (starts (sc p) - 1) = S0 - starts (sc p) + 1) by lia.
  assert (Hidx : next_idx (c_idx (sc p)) = (S0 - (starts (sc p) - 1)) mod cnt (coll cfg)).
  { rewrite Hc, Hn. apply next_idx_mod. lia. }
  assert (Hnat : Z.to_nat (S0 - (starts (sc p) - 1)) = S (Z.to_nat (S0 - starts (sc p)))) by lia.
  unfold seq_inv.
  destruct Hcase as [(Hex & _ & Hsc)|(pid & com & Hex & _ & Hsc)]; rewrite Hsc, Hex; simpl; rewrite Hidx, Hnat, cmd_seq_succ.
  - split; [lia|]. split; [done|]. etrans; [exact Hsub|]. by apply sublist_inserts_r.
  - split; [lia|]. split; [done|]. rewrite map_app. apply sublist_app; [done|]. simpl.
    rewrite Z2Nat.id by lia. rewrite <- Hc. done.
Qed.

Lemma start_loop_seq es p S0 :
  sequential cfg = true → inv p → starts_ok es p → seq_inv S0 p → ok (start_loop es p) (seq_inv S0).
Proof.
  intros Hseq. revert p. induction es as [|e es IH]; intros p Hi Hs Hsi; cbn [start_loop].
  - destruct (can_start p); simpl; [|done]. by destruct (must_pause p).
  - destruct (can_start p) eqn:Ec; simpl; [|done]. destruct Hs as (Hr & Hch & Hs).
    destruct (must_pause (deliver_all (s_sigs e) p)); simpl; [done|].
    pose proof (start_one_inv e (deliver_all (s_sigs e) p) Hi Ec Hr Hch) as Hone.
    destruct (start_one e (deliver_all (s_sigs e) p)) as [[b p1]| | |] eqn:E1; simpl in *; try done.
    pose proof (start_one_seq e (deliver_all (s_sigs e) p) S0 _ Hseq Ec Hsi Hone) as Hsi1.
    destruct Hone as (Hb & Hi1 & _). simpl in *. subst b. apply IH; auto.
Qed.

Lemma turn_seq e p S0 :
  sequential cfg = true → inv p → turn_ok e p → seq_inv S0 p → ok (turn e p) (λ r, seq_inv S0 r.2).
Proof.
  intros Hseq Hi Ht Hsi. eapply ok_mono; [by apply turn_inv|].
  intros r (p1 & Hp1 & _ & (_ & Hex & Hc & Hst & _)).
  pose proof (start_loop_seq (t_starts e) p S0 Hseq Hi (proj1 Ht) Hsi) as Hl. rewrite Hp1 in Hl.
  unfold seq_inv in *. by rewrite Hex, Hc, Hst.
Qed.


(** *** Signals *)

Lemma deliver_app a b s : deliver (a ++ b) s = deliver b (deliver a s).
Proof. apply foldl_app. Qed.

(** The handler does not look at [rec_signal]. *)
Lemma deliver_send l x y a b :
  send_signal (deliver l (Signals x a b)) = send_signal (deliver l (Signals y a b)) ∧
  lastsent (deliver l (Signals x a b)) = lastsent (deliver l (Signals y a b)).
Proof.
  revert x y a b. induction l as [|sig l IH]; intros x y a b; [done|]. cbn [deliver foldl].
  assert (∃ x' y' a' b', wait_handler sig (Signals x a b) = Signals x' a' b' ∧ wait_handler sig (Signals y a b) = Signals y' a' b') as (x' & y' & a' & b' & -> & ->).
  { unfold wait_handler. cbn. repeat case_if; eauto 10. }
  apply IH.
Qed.

(** The signals that have arrived before the [kill] of number [i]. *)
Definition arrived (ls : list (list Z)) (i : nat) : list Z := concat (take (S i) ls).

Lemma arrived_S ls i : arrived ls (S i) = hd [] ls ++ arrived (tail ls) i.
Proof. unfold arrived. by destruct ls. Qed.

Lemma arrived_0 ls : arrived ls 0 = hd [] ls.
Proof. unfold arrived. destruct ls as [|l ls]; [done|]. cbn. by rewrite take_0, app_nil_r. Qed.

Lemma propagate_loop_kills ls s rs f :
  let '(s', rs', f') := propagate_loop ls s rs f in
  let gs := nz (map pgrp rs) in
  kills f' = kills f ++ imap (λ i g, (- g, send_signal (deliver (arrived ls i) s))) gs ∧
  s' = deliver (concat (take (length gs) ls)) s ∧ Forall (λ r, pgrp r ≠ 0 → stopping r = true) rs'.
Proof.
  revert ls s f. induction rs as [|r rs IH]; intros ls s f; simpl.
  - rewrite app_nil_r. split_and!; [done|done|constructor].
  - rewrite nz_cons. destruct (pgrp r =? 0) eqn:E; bool_hyps.
    + specialize (IH ls s f). destruct (propagate_loop ls s rs f) as [[s' rs'] f']. simpl in *. destruct IH as (-> & -> & ?).
      split_and!; [done|done|]. by constructor.
    + set (s1 := deliver _ _). specialize (IH (tail ls) s1 (add_kill (- pgrp r) (send_signal s1) f)).
      destruct (propagate_loop (tail ls) s1 rs _) as [[s' rs'] f']. simpl in *. destruct IH as (-> & -> & ?).
      split_and!; [|subst s1; rewrite <- deliver_app; by destruct ls; simpl; rewrite ?take_nil|by constructor].
      rewrite <- app_assoc. simpl. rewrite arrived_0. f_equal. f_equal. apply imap_ext. intros i g _. simpl.
      by rewrite arrived_S, deliver_app.
Qed.

Lemma check_orphans_loop_kills kill sig os z f :
  kills (check_orphans_loop kill sig os z f).2 = kills f ++ map (λ g, (- g, sig)) (nz os).
Proof.
  revert z f. induction os as [|o os IH]; intros z f; simpl; [by rewrite app_nil_r|].
  rewrite nz_cons. destruct (check_orphan (kill o) sig o z f) as [[o' z'] f'] eqn:Eo.
  assert (Hf : kills f' = kills f ++ (if o =? 0 then [] else [(- o, sig)])).
  { unfold check_orphan in Eo. destruct (o =? 0); [injection Eo as <- <- <-; by rewrite app_nil_r|].
    repeat case_if_in Eo; by injection Eo as <- <- <-. }
  specialize (IH z' f'). destruct (check_orphans_loop kill sig os z' f') as [[? ?] ?]. simpl in *.
  rewrite IH, Hf, <- app_assoc. by destruct (o =? 0).
Qed.

Lemma check_orphans_all_gone kill sig os z f :
  (∀ o, o ∈ nz os → kill o = ESRCH) → nz (check_orphans_loop kill sig os z f).1.1 = [].
Proof.
  revert z f. induction os as [|o os IH]; intros z f Hk; simpl; [done|]. rewrite nz_cons in Hk.
  unfold check_orphan. destruct (o =? 0) eqn:E.
  - specialize (IH z f Hk). destruct (check_orphans_loop kill sig os z f) as [[? ?] ?]. simpl in *. by rewrite nz_cons.
  - rewrite (Hk o ltac:(left)). simpl. specialize (IH (af_clear z o).2 (add_kill (- o) sig f)).
    destruct (check_orphans_loop kill sig os _ _) as [[? ?] ?]. simpl in *. rewrite nz_cons. simpl.
    apply IH. intros o' Ho'. apply Hk. by right.
Qed.

(** The globals when [propagate_signal] looks at them first; and the signals that
    have arrived when [check_orphans] is called. *)
Definition sg_first (late : late_env) (p : pan) : signals := deliver (l_first late) (sg p).
Definition arrived_all (late : late_env) (n : nat) : list Z := concat (take n (l_kills late)) ++ l_orphans late.

(** What [propagate_signal] does to the table and the list of signals sent. *)
Lemma propagate_signal_kills kill late p :
  let p' := propagate_signal kill late p in
  let s0 := sg_first late p in
  let last := arrived_all late (length (alive (tb p))) in
  kills (fl p') = kills (fl p) ++
    imap (λ i g, (- g, send_signal (deliver (arrived (l_kills late) i) s0))) (alive (tb p)) ++
    map (λ g, (- g, send_signal (deliver last s0))) (orphaned (tb p)) ∧
  Forall (λ r, pgrp r ≠ 0 → stopping r = true) (running (tb p')) ∧
  sg p' = Signals 0 0 (lastsent (deliver (last ++ l_end late) s0)).
Proof.
  unfold propagate_signal. fold (sg_first late p).
  destruct (if rec_signal _ =? SIGALRM then _ else _) as [s f] eqn:Es.
  assert (Hf : kills f = kills (fl p) ∧ ∀ l, send_signal (deliver l s) = send_signal (deliver l (sg_first late p)) ∧
    lastsent (deliver l s) = lastsent (deliver l (sg_first late p))).
  { case_if_in Es; injection Es as <- <-; [|done]. split; [done|]. intros l. destruct (sg_first late p). apply deliver_send. }
  destruct Hf as [Hf Hsend]. clear Es.
  pose proof (propagate_loop_kills (l_kills late) s (running (tb p)) f) as Hl.
  destruct (propagate_loop _ _ _ f) as [[s1 rs] f1]. destruct Hl as (H1 & -> & H2). unfold check_orphans. cbn [orphans zoofile set_running].
  rewrite <- deliver_app. change (concat _ ++ l_orphans late) with (arrived_all late (length (alive (tb p)))).
  pose proof (check_orphans_loop_kills kill (send_signal (deliver (arrived_all late (length (alive (tb p)))) s))
    (all_orphans (orphans (tb p))) (zoofile (tb p)) f1) as H3.
  destruct (check_orphans_loop _ _ _ _ f1) as [[os z] f2]. cbn [fst snd] in H3. cbn [fl tb sg running set_zoofile set_orphans set_running].
  split_and!; [|done|by rewrite <- deliver_app, (proj2 (Hsend _))].
  rewrite H3, H1, Hf, <- app_assoc. f_equal. f_equal; [|by rewrite (proj1 (Hsend _))].
  apply imap_ext. intros i g _. by rewrite (proj1 (Hsend _)).
Qed.

(** When nothing arrives in the meantime all get the same signal. *)
Lemma propagate_quiet kill p :
  kills (fl (propagate_signal kill no_late p)) =
    kills (fl p) ++ map (λ g, (- g, send_signal (sg p))) (alive (tb p) ++ orphaned (tb p)) ∧
  sg (propagate_signal kill no_late p) = Signals 0 0 (lastsent (sg p)).
Proof.
  destruct (propagate_signal_kills kill no_late p) as (-> & _ & ->). unfold arrived_all, sg_first. cbn [no_late l_first l_kills l_orphans l_end].
  rewrite take_nil. split; [|done]. rewrite map_app. f_equal. f_equal. rewrite <- imap_const. apply imap_ext.
  intros i g _. unfold arrived. by rewrite take_nil.
Qed.

(** Looking after the orphans adds none. *)
Lemma check_orphans_loop_sub kill sig os z f : nz (check_orphans_loop kill sig os z f).1.1 ⊆ nz os.
Proof using Type.
  clear Hcfg strerror. revert z f. induction os as [|o os IH]; intros z f; simpl; [done|].
  destruct (check_orphan (kill o) sig o z f) as [[o' z'] f'] eqn:Eo. specialize (IH z' f').
  destruct (check_orphans_loop kill sig os z' f') as [[? ?] ?]. simpl in *. rewrite !nz_cons.
  unfold check_orphan in Eo. destruct (o =? 0) eqn:E; [by injection Eo as <- <- <-|].
  repeat case_if_in Eo; injection Eo as <- <- <-; simpl; intros x; specialize (IH x); try destruct (o =? 0); rewrite ?elem_of_cons; tauto.
Qed.

Lemma propagate_orphans kill late p :
  orphaned (tb (propagate_signal kill late p)) ⊆ orphaned (tb p) ∧
  ((∀ g, g ∈ orphaned (tb p) → kill g = ESRCH) → orphaned (tb (propagate_signal kill late p)) = []).
Proof.
  unfold propagate_signal. destruct (if rec_signal _ =? SIGALRM then _ else _) as [s f].
  destruct (propagate_loop _ _ _ f) as [[s1 rs] f1]. unfold check_orphans. cbn [orphans zoofile set_running].
  set (sig := send_signal _).
  pose proof (check_orphans_loop_sub kill sig (all_orphans (orphans (tb p))) (zoofile (tb p)) f1) as Hs.
  pose proof (check_orphans_all_gone kill sig (all_orphans (orphans (tb p))) (zoofile (tb p)) f1) as Hg.
  destruct (check_orphans_loop _ _ _ _ f1) as [[os z] f2]. unfold orphaned. simpl in *.
  destruct os as [|o os]; [split; [set_solver|done]|]. split; [exact Hs|]. intros Hk. exact (Hg Hk).
Qed.

(** Turns of the loop that waits for the orphans, without signals from outside;
    [ks] are the answers of [kill]. *)
Fixpoint orphan_run (ks : list (Z → Z)) (p : pan) : pan :=
  match ks with
  | [] => p
  | k :: ks => let '(more, p) := orphan_turn [] k no_late p in if (more : bool) then orphan_run ks p else p
  end.

(** A process group that was sent SIGKILL is gone when the next turn comes. *)
Fixpoint kill_works (ks : list (Z → Z)) (p : pan) : Prop :=
  match ks with
  | [] => True
  | k :: ks =>
      (∀ g, (- g, SIGKILL) ∈ kills (fl p) → k g = ESRCH) ∧ kill_works ks (orphan_turn [] k no_late p).2
  end.

(** The ratchet, starting from the signal sent last. *)
Fixpoint ratchet (n : nat) (last : Z) : list Z :=
  match n with
  | O => []
  | S n => let sig := send_signal (wait_handler SIGINT (Signals 0 0 last)) in sig :: ratchet n sig
  end.

Lemma no_orphans p : forallb (λ o, o =? 0) (all_orphans (orphans (tb p))) = true ↔ orphaned (tb p) = [].
Proof.
  unfold orphaned. generalize (all_orphans (orphans (tb p))) as l. induction l as [|o l IH]; [done|].
  rewrite nz_cons. simpl. by destruct (o =? 0).
Qed.

(** One turn: what is sent is the next signal of the ratchet, to every orphan. *)
Lemma orphan_turn_spec k p :
  rec_signal (sg p) = 0 → send_signal (sg p) = 0 →
  match orphan_turn [] k no_late p with
  | (true, p') =>
      let sig := send_signal (wait_handler SIGINT (Signals 0 0 (lastsent (sg p)))) in
      sg p' = Signals 0 0 sig ∧
      kills (fl p') = kills (fl p) ++ map (λ g, (- g, sig)) (alive (tb p) ++ orphaned (tb p)) ∧
      orphaned (tb p') ⊆ orphaned (tb p) ∧
      ((∀ g, g ∈ orphaned (tb p) → k g = ESRCH) → orphaned (tb p') = [])
  | (false, p') => p' = p ∧ orphaned (tb p) = []
  end.
Proof.
  intros Hr Hs. unfold orphan_turn. destruct (forallb _ _) eqn:E.
  - by apply no_orphans in E.
  - unfold deliver_all. cbn [deliver foldl sg set_sg]. rewrite Hr. change (0 =? 0) with true. cbn iota.
    set (q := set_sg _ _). destruct (propagate_quiet k q) as [Hk Hsg], (propagate_orphans k no_late q) as [H1 H2].
    assert (Hq : sg q = wait_handler SIGINT (Signals 0 0 (lastsent (sg p)))).
    { subst q. cbn. destruct (sg p) as [r s l]. simpl in Hr, Hs. by subst r s. }
    rewrite Hsg, Hk, Hq. split_and!; [|done|done|done]. unfold wait_handler. by repeat case_if.
Qed.

(** An orphan that is still there got all signals of the ratchet. *)
Lemma orphan_run_kills ks p :
  rec_signal (sg p) = 0 → send_signal (sg p) = 0 →
  let p' := orphan_run ks p in
  orphaned (tb p') ⊆ orphaned (tb p) ∧ kills (fl p) `prefix_of` kills (fl p') ∧
  (rec_signal (sg p') = 0 ∧ send_signal (sg p') = 0) ∧
  ∀ g sig, g ∈ orphaned (tb p') → sig ∈ ratchet (length ks) (lastsent (sg p)) → (- g, sig) ∈ drop (length (kills (fl p))) (kills (fl p')).
Proof using Type.
  clear Hcfg strerror. revert p. induction ks as [|k ks IH]; intros p Hr Hs; cbn [orphan_run length ratchet]; [split_and!; [done..|set_solver]|].
  pose proof (orphan_turn_spec k p Hr Hs) as Ht. destruct (orphan_turn [] k no_late p) as [[] p1].
  - destruct Ht as (Hsg & Hk & Hsub & _). destruct (IH p1) as (I1 & [l I2] & Hz & I3); [by rewrite Hsg..|].
    split_and!; [set_solver|rewrite I2, Hk, <- app_assoc; by eexists|apply Hz..|].
    intros g sig Hg Hsig. rewrite I2, Hk, <- app_assoc, drop_app_length, elem_of_app.
    rewrite Hsg in I3. apply elem_of_cons in Hsig as [->|Hsig].
    + left. apply list_elem_of_fmap. exists g. split; [done|]. apply elem_of_app. right. by apply Hsub, I1.
    + right. specialize (I3 g sig Hg Hsig). by rewrite I2, drop_app_length in I3.
  - destruct Ht as [-> Hnil]. split_and!; [done..|]. rewrite Hnil. set_solver.
Qed.

(** Within five steps the ratchet gets to SIGKILL, wherever it starts. *)
Lemma ratchet_kill last : SIGKILL ∈ ratchet 5 last.
Proof.
  assert (Hstep : ∀ l, send_signal (wait_handler SIGINT (Signals 0 0 l)) =
    if l =? 0 then SIGINT else if l =? SIGUSR1 then SIGINT else if l =? SIGINT then SIGTERM
    else if l =? SIGTERM then SIGHUP else if l =? SIGHUP then SIGKILL else 0).
  { intros l. unfold wait_handler. simpl. by repeat case_if. }
  unfold ratchet. rewrite !Hstep. clear Hstep.
  destruct (last =? 0), (last =? SIGUSR1), (last =? SIGINT), (last =? SIGTERM), (last =? SIGHUP); apply (bool_decide_unpack _); vm_compute; exact I.
Qed.

(** No orphan is left: the loop ends. *)
Lemma orphan_turn_none k p : orphaned (tb p) = [] → orphan_turn [] k no_late p = (false, p).
Proof. intros Ho. unfold orphan_turn. by rewrite (proj2 (no_orphans p) Ho). Qed.

Lemma orphan_run_none ks p : orphaned (tb p) = [] → orphan_run ks p = p.
Proof. intros Ho. destruct ks; [done|]. cbn [orphan_run]. by rewrite orphan_turn_none. Qed.

Lemma orphan_turn_false k p p' : orphan_turn [] k no_late p = (false, p') → p' = p ∧ orphaned (tb p) = [].
Proof. unfold orphan_turn. destruct (forallb _ _) eqn:E; [|done]. intros [= <-]. by apply no_orphans in E. Qed.

Lemma orphan_run_snoc ks k p : orphan_run (ks ++ [k]) p = (orphan_turn [] k no_late (orphan_run ks p)).2.
Proof.
  revert p. induction ks as [|k1 ks IH]; intros p; cbn [app orphan_run].
  - by destruct (orphan_turn [] k no_late p) as [[] p1].
  - destruct (orphan_turn [] k1 no_late p) as [[] p1] eqn:E; [apply IH|].
    destruct (orphan_turn_false _ _ _ E) as [-> Hn]. by rewrite orphan_turn_none.
Qed.

Lemma kill_works_snoc ks k p : kill_works (ks ++ [k]) p → ∀ g, (- g, SIGKILL) ∈ kills (fl (orphan_run ks p)) → k g = ESRCH.
Proof.
  revert p. induction ks as [|k1 ks IH]; intros p; cbn [app orphan_run kill_works]; [by intros [? _]|]. intros [_ Hw].
  destruct (orphan_turn [] k1 no_late p) as [[] p1] eqn:E; [by apply IH|].
  destruct (orphan_turn_false _ _ _ E) as [-> Hn]. specialize (IH p Hw). by rewrite orphan_run_none in IH.
Qed.

Lemma orphan_run_gone ks k p :
  rec_signal (sg p) = 0 → send_signal (sg p) = 0 → length ks = 5%nat → kill_works (ks ++ [k]) p →
  orphaned (tb (orphan_run (ks ++ [k]) p)) = [].
Proof.
  intros Hr Hs Hks Hw. rewrite orphan_run_snoc. destruct (orphan_run_kills ks p Hr Hs) as (_ & [l Hpre] & Hsg & Hk).
  pose proof (orphan_turn_spec k (orphan_run ks p) (proj1 Hsg) (proj2 Hsg)) as Ht.
  destruct (orphan_turn [] k no_late (orphan_run ks p)) as [[] p1] eqn:E; [|by destruct Ht as [-> ?]].
  destruct Ht as (_ & _ & _ & Hgone). apply Hgone. intros g Hg. apply (kill_works_snoc ks k p Hw).
  specialize (Hk g SIGKILL Hg). rewrite Hks in Hk. specialize (Hk (ratchet_kill _)). rewrite Hpre, drop_app_length in Hk.
  rewrite Hpre. apply elem_of_app. by right.
Qed.

(** *** Progress *)

(** Output is not buffered and no command has a [%f]. *)
Record plain : Prop := {
  plain_out : test_out_dir cfg = None;
  plain_cmds : Forall (λ c, pcnt_f c = false) (ary (coll cfg))
}.

(** The start of a command works; with [-S] it may fail, provided that the
    child's message fits into its buffer. *)
Definition startsb (e : child_env) (c : coll_entry) : bool :=
  negb (read_intr e) &&
  match child_main e c (cmdline c) with
  | Go None => sequential cfg || (pipe_ok e && negb (fork_pid e =? -1))
  | Go (Some _) => negb (waitpid_intr e) && sequential cfg
  | _ => false
  end.
Definition start_works (s : start_env) : Prop :=
  s_sigs s = [] ∧ Forall (λ c, startsb (s_child s) c = true) (ary (coll cfg)).

(** No signal arrives, every start works, and [wait] fails only when no test
    runs. *)
Definition undisturbed (e : turn_env) (p : pan) : Prop :=
  Forall start_works (t_starts e) ∧ starts (sc p) ≤ zlength (t_starts e) ∧ t_sigs e = [] ∧ t_wait_sigs e = [] ∧
  ∀ p1, start_loop (t_starts e) p = Go p1 → wait_pid (t_wait e) < 0 → alive (tb p1) = [].
Fixpoint undisturbed_run (es : list turn_env) (p : pan) : Prop :=
  match es with
  | [] => True
  | e :: es => undisturbed e p ∧ ∀ p', turn e p = Go (false, p') → undisturbed_run es p'
  end.

(** Starts that are left plus tests that run. *)
Definition work (p : pan) : Z := starts (sc p) + zlength (alive (tb p)).
(** Nothing is pending that could stop the scheduler while no test runs or a start
    is left. *)
Definition calm (p : pan) : Prop :=
  rec_signal (sg p) = 0 ∧ 0 ≤ starts (sc p) ∧ (stop (sc p) ≠ 0 → starts (sc p) = 0) ∧
  ((stop (sc p) =? 0) && (go_idle (sc p) =? 0) = false → alive (tb p) ≠ []).

(** A computation that is not undefined and has all the answers it needs. *)
Definition defined {A} (m : io A) : Prop := match m with Crash | More => False | _ => True end.

Lemma run_child_works e colle i p :
  test_out_dir cfg = None → pcnt_f colle = false → startsb e colle = true →
  match run_child e colle i p with
  | Go (cpid, _) => negb (cpid =? -1) || sequential cfg = true
  | Exit _ => True
  | _ => False
  end.
Proof.
  intros Ho Hp Hs. unfold run_child, startsb in *. rewrite Ho, Hp. simpl.
  apply andb_prop in Hs as [Hri Hs]. apply negb_true_iff in Hri. rewrite Hri.
  destruct (child_main e colle (cmdline colle)) as [[[msg code]|]| | |]; try done.
  - apply andb_prop in Hs as [Hwi Hs]. apply negb_true_iff in Hwi. rewrite Hwi, Hs. repeat case_if; simpl; done.
  - destruct (pipe_ok e); simpl in *; [|by rewrite orb_false_r in Hs].
    destruct (fork_pid e =? -1) eqn:Ef; simpl in *; [by rewrite orb_false_r in Hs|].
    destruct (af_mark _ _ _ _) as [rc z]. case_if; simpl; [done|]. by rewrite (proj2 (Z.eqb_neq _ _) Ef).
Qed.

(** A start that works uses up one of the starts. *)
Lemma start_one_works e p :
  plain → start_works e → inv p → 0 ≤ s_rand e → 0 < starts (sc p) →
  match start_one e p with
  | Go (_, p') => find_slot (running (tb p)) ≠ None → starts (sc p') = starts (sc p) - 1
  | Exit _ => True
  | _ => False
  end.
Proof.
  intros [Ho Hp] [_ Hw] [_ Hidx] Hr H0. unfold start_one.
  destruct (find_slot (running (tb p))) as [i|]; simpl; [|done].
  pose proof (choose_range (s_rand e) (c_idx (sc p)) Hr Hidx) as Hc. set (c := choose _ _) in *.
  assert (Hin : ary (coll cfg) !!! Z.to_nat c ∈ ary (coll cfg)).
  { apply list_elem_of_lookup_total_2. pose proof (cfg_cnt Hcfg). lia. }
  rewrite Forall_forall in Hp, Hw.
  pose proof (run_child_works (s_child e) _ i p Ho (Hp _ Hin) (Hw _ Hin)) as Hch.
  destruct (run_child _ _ i p) as [[cpid p1]| | |]; simpl; try done.
  intros _. by rewrite Hch, (proj2 (Z.ltb_lt _ _) H0).
Qed.

Lemma start_loop_defined es p :
  plain → inv p → starts_ok es p → Forall start_works es → 0 ≤ starts (sc p) ≤ zlength es →
  defined (start_loop es p).
Proof.
  intros Hpl. revert p. induction es as [|e es IH]; intros p Hi Hs Hq H0; cbn [start_loop].
  - unfold can_start. rewrite (proj2 (Z.eqb_eq (starts (sc p)) 0)) by (simpl in H0; lia). by rewrite andb_false_r.
  - destruct (can_start p) eqn:Ec; simpl; [|done]. destruct Hs as (Hr & Hch & Hs).
    apply Forall_cons in Hq as [Hq Hqs]. rewrite (proj1 Hq) in *.
    destruct (must_pause (deliver_all [] p)); simpl; [done|].
    pose proof (start_one_inv e (deliver_all [] p) Hi Ec Hr Hch) as Hone.
    apply andb_prop in Ec as [Ec1 Ec2]. bool_hyps.
    pose proof (start_one_works e (deliver_all [] p) Hpl Hq Hi Hr ltac:(simpl; lia)) as Hw.
    destruct (free_slot _ (proj1 Hi) Ec1) as [i Hslot].
    destruct (start_one e (deliver_all [] p)) as [[b p1]| | |] eqn:E1; simpl in *; try done.
    destruct Hone as (Hb & Hi1 & _). simpl in Hb, Hi1. subst b. apply IH; auto.
    rewrite Hw by (by rewrite Hslot). lia.
Qed.

Lemma check_pids_defined e p : plain → defined (check_pids e p).
Proof.
  intros [Ho _]. unfold check_pids, reap. rewrite Ho.
  destruct (check_orphans _ _ _ _) as [tbl f]. destruct (wait_pid e <? 0); [done|].
  destruct (0 <? wait_pid e); [|done]. destruct (term_status (stat_loc e)) as [t w].
  destruct (match t with Signaled => _ | _ => _ end) as [tbl' ret]. destruct (find_pgrp _ _) as [i|]; [|done].
  destruct (if (w =? 130) && _ && _ then _ else _) as [w' ret'].
  destruct (log_result _ _ _ _ _ _ _) as [tbl2 f2]. simpl. destruct (af_clear _ _) as [rc z]. case_if; [done|].
  case_if; [|done]. destruct (af_mark _ _ _ _) as [rc' z']. by case_if.
Qed.

Lemma turn_defined e p :
  plain → inv p → turn_ok e p → undisturbed e p → 0 ≤ starts (sc p) → defined (turn e p).
Proof.
  intros Hpl Hi [Hs _] (Hq & Hlen & _) H0. unfold turn.
  pose proof (start_loop_defined (t_starts e) p Hpl Hi Hs Hq ltac:(lia)) as Hl.
  destruct (start_loop (t_starts e) p) as [p1| | |]; simpl; try done.
  pose proof (check_pids_defined (t_wait e) (handle_signal (t_kill e) (t_late e)
    (deliver_all (t_sigs e) (check_starts (t_stop_file e) p1))) Hpl) as Hc.
  destruct (check_pids _ _) as [[err p2]| | |]; simpl; try done. repeat case_if; done.
Qed.

Lemma start_loop_work es p :
  inv p → starts_ok es p → Forall start_works es → 0 ≤ starts (sc p) →
  ok (start_loop es p) (λ p1, sg p1 = sg p ∧ 0 ≤ starts (sc p1) ≤ starts (sc p) ∧ work p1 ≤ work p ∧
    zlength (alive (tb p)) ≤ zlength (alive (tb p1))).
Proof.
  revert p. induction es as [|e es IH]; intros p Hi Hs Hq H0; cbn [start_loop].
  - destruct (can_start p); simpl; [|done]. by destruct (must_pause p).
  - destruct (can_start p) eqn:Ec; simpl; [|done]. destruct Hs as (Hr & Hch & Hs).
    apply Forall_cons in Hq as [[Hq _] Hqs]. rewrite Hq in *.
    destruct (must_pause (deliver_all [] p)); simpl; [done|].
    pose proof (start_one_inv e (deliver_all [] p) Hi Ec Hr Hch) as Hone.
    destruct (start_one e (deliver_all [] p)) as [[b p1]| | |] eqn:E1; simpl in *; try done.
    destruct Hone as (Hb & Hi1 & Hsg & _ & Hcase). simpl in *. subst b.
    apply andb_prop in Ec as [_ Ec]. bool_hyps.
    assert (Hw : 0 ≤ starts (sc p1) ≤ starts (sc p) ∧ work p1 ≤ work p ∧ zlength (alive (tb p)) ≤ zlength (alive (tb p1))).
    { unfold work. destruct Hcase as [(_ & -> & ->)|(pid & com & _ & -> & ->)]; simpl.
      - destruct (sequential cfg); simpl; [|lia]. case_if; lia.
      - rewrite (proj2 (Z.ltb_lt _ _)) by lia. lia. }
    destruct Hw as (? & ? & ?). eapply ok_mono; [apply IH; auto; lia|]. intros p2 (? & ? & ? & ?).
    split_and!; [congruence|lia..].
Qed.

Lemma handle_signal_none kill late p : rec_signal (sg p) = 0 → handle_signal kill late p = p.
Proof. intros Hr. unfold handle_signal. by rewrite Hr. Qed.

Lemma deliver_none p : deliver_all [] p = p.
Proof. by destruct p. Qed.

Lemma turn_progress e p :
  has_brakes cfg = false → 0 < keep_active cfg →
  inv p → turn_ok e p → undisturbed e p → calm p →
  ok (turn e p) (λ r, if r.1 : bool then starts (sc r.2) = 0 else calm r.2 ∧ work r.2 < work p).
Proof.
  intros Hbr Hka Hi [Hs Hw] (Hq1 & _ & Hq2 & Hq3 & Hq4) (Hrec & H0 & Hstop0 & Hcalm). unfold turn.
  pose proof (start_loop_inv (t_starts e) p Hi Hs) as Hl.
  pose proof (start_loop_work (t_starts e) p Hi Hs Hq1 H0) as Hl2.
  destruct (start_loop (t_starts e) p) as [p1| | |]; simpl in Hl, Hl2; try done.
  destruct Hl as (Hi1 & _ & Hstop & Hidle & _ & _ & Hend). destruct Hl2 as (Hsg & H1 & Hwork & Hal).
  specialize (Hw p1 eq_refl). specialize (Hq4 p1 eq_refl).
  change (Go p1 ≫= ?f) with (f p1). cbn beta. rewrite Hq2, Hq3, !deliver_none.
  destruct (check_starts_same (t_stop_file e) p1) as (C1 & C2 & _ & _ & C5 & _).
  set (q := check_starts (t_stop_file e) p1) in *.
  assert (Hrecq : rec_signal (sg q) = 0) by (by rewrite C2, Hsg).
  rewrite handle_signal_none by done.
  assert (Hiq : tinv 0 (tb q)) by (rewrite C1; apply Hi1).
  eapply ok_bind; [apply check_pids_inv; [done|]; unfold wait_ok; by rewrite C1|].
  intros [err p2] (R1 & R2 & R3 & _ & R5). simpl in R1, R2, R3, R5. rewrite C1 in R5. rewrite deliver_none.
  destruct (handle_err_same err p2) as (E1 & _ & _ & E4 & _).
  assert (Hsg3 : sg (handle_err err p2) = sg p2).
  { unfold handle_err. rewrite Hbr. by case_if. }
  assert (Hstop3 : stop (sc (handle_err err p2)) = stop (sc q)).
  { unfold handle_err. rewrite Hbr, <- R2. by case_if. }
  set (p3 := handle_err err p2) in *.
  assert (Hact : num_active (tb p3) = zlength (alive (tb p3))).
  { rewrite E1. pose proof (inv_active _ _ R1). lia. }
  assert (Hst3 : starts (sc p3) = starts (sc p1)) by (by rewrite E4, R2).
  assert (Hrec3 : rec_signal (sg p3) = 0) by (by rewrite Hsg3, R3).
  assert (Hdec : alive (tb p1) ≠ [] → work p3 < work p).
  { intros Hne. unfold work in *. rewrite Hst3, E1. destruct R5 as [(Hneg & _ & _)|(i & _ & _ & _ & Hperm)].
    - by specialize (Hq4 Hneg).
    - apply Permutation_length in Hperm. simpl in Hperm. lia. }
  assert (Hempty : alive (tb p1) = [] → stop (sc q) ≠ 0 ∧ alive (tb p3) = []).
  { intros He. split.
    - assert (Hp0 : alive (tb p) = []) by (destruct (alive (tb p)); [done|rewrite He in Hal; simpl in Hal; lia]).
      assert (Hz : (stop (sc p) =? 0) && (go_idle (sc p) =? 0) = true).
      { destruct ((stop (sc p) =? 0) && (go_idle (sc p) =? 0)); [done|]. by destruct Hcalm. }
      apply andb_prop in Hz as [Hz1 Hz2]. bool_hyps.
      assert (Hst0 : starts (sc p1) = 0).
      { destruct Hend as [Hend|Hend].
        - unfold can_start in Hend. pose proof (inv_active _ _ (proj1 Hi1)) as Ha. rewrite He in Ha. simpl in Ha.
          rewrite Ha, (proj2 (Z.ltb_lt _ _)) in Hend by lia. simpl in Hend. bool_hyps. done.
        - unfold must_pause in Hend. rewrite Hstop, Hidle, Hsg, Hz1, Hz2, Hrec in Hend. done. }
      unfold q, check_starts. rewrite Hst0. simpl. rewrite Hstop, Hz1. simpl. destruct (quiet_mode cfg); simpl; lia.
    - rewrite E1. destruct R5 as [(_ & _ & ->)|(i & _ & _ & _ & Hperm)]; [done|]. rewrite He in Hperm.
      by apply Permutation_nil_cons in Hperm. }
  assert (Hover : stop (sc p3) ≠ 0 → starts (sc p3) = 0).
  { rewrite Hstop3, Hst3. unfold q, check_starts. intros Hst. destruct (starts (sc p1) =? 0) eqn:Es0; bool_hyps; [done|].
    rewrite (proj2 (Z.eqb_neq (starts (sc p1)) (-1))) in Hst by lia. rewrite Hstop in Hst.
    specialize (Hstop0 Hst). lia. }
  destruct (decide (alive (tb p1) = [])) as [He|Hne].
  { destruct (Hempty He) as [Hst Hal3]. rewrite Hact, Hal3. rewrite <- Hstop3 in Hst. simpl.
    rewrite (proj2 (Z.eqb_neq (stop (sc p3)) 0)) by done. simpl. auto. }
  specialize (Hdec Hne). destruct (negb (stop (sc p3) =? 0) && (num_active (tb p3) =? 0)) eqn:Eb.
  { simpl. apply andb_prop in Eb as [Eb _]. bool_hyps. auto. }
  destruct (negb (go_idle (sc p3) =? 0) && (num_active (tb p3) =? 0)) eqn:Eg; simpl; (split; [|exact Hdec]).
  - split_and!; [done|simpl; lia|done|]. simpl. apply andb_prop in Eg as [_ Eg]. rewrite Eg, andb_true_r in Eb.
    bool_hyps. rewrite Eb. done.
  - split_and!; [done|lia|done|]. intros Hsome Hal3. rewrite Hact, Hal3 in Eb, Eg. simpl in Eb, Eg.
    rewrite andb_true_r in Eb, Eg. apply negb_false_iff in Eb, Eg. by rewrite Eb, Eg in Hsome.
Qed.

Lemma run_progress es p :
  has_brakes cfg = false → 0 < keep_active cfg →
  plain → inv p → run_ok es p → undisturbed_run es p → calm p →
  ∃ r, run es p = Go r ∧
    if r.1 : bool then starts (sc r.2) = 0 ∧ alive (tb r.2) = []
    else 0 ≤ work r.2 ∧ work r.2 + zlength es ≤ work p.
Proof.
  intros Hbr Hka Hpl. revert p. induction es as [|e es IH]; intros p Hi Hok Hun Hc; cbn [run].
  - exists (false, p). split; [done|]. destruct Hc as (_ & ? & _). unfold work. simpl. lia.
  - destruct Hok as [Ht Hok], Hun as [Hu Hun]. pose proof (turn_inv e p Hi Ht) as Hturn.
    pose proof (turn_progress e p Hbr Hka Hi Ht Hu Hc) as Hp.
    pose proof (turn_defined e p Hpl Hi Ht Hu (proj1 (proj2 Hc))) as Hd.
    destruct (turn e p) as [[b p']| | |]; simpl in *; try done.
    destruct Hturn as (p1 & _ & _ & (Hi' & _ & _ & _ & Hal & _)). simpl in Hi', Hal. destruct b.
    { exists (true, p'). split; [done|]. split; [exact Hp|exact (Hal eq_refl)]. }
    destruct Hp as [Hc' Hlt]. destruct (IH p' Hi' (Hok _ eq_refl) (Hun _ eq_refl) Hc') as (r & Hrun & Hr). exists r. split; [exact Hrun|].
    destruct (r.1); [done|lia].
Qed.

(** *** Deciding the assumptions *)

Definition child_okb (e : child_env) (p : pan) : bool :=
  (fork_pid e =? -1) ||
  ((0 <? fork_pid e) && (fork_pid e <=? INT_MAX) &&
   bool_decide (fork_pid e ∉ panpid cfg :: alive (tb p) ++ orphaned (tb p))).

Fixpoint starts_okb (es : list start_env) (p : pan) : bool :=
  match es with
  | [] => true
  | e :: es =>
      (0 <=? s_rand e) && child_okb (s_child e) p &&
      match start_one e (deliver_all (s_sigs e) p) with Go (true, p') => starts_okb es p' | _ => true end
  end.

Definition wait_okb (e : wait_env) (p : pan) : bool :=
  (wait_pid e <? 0) ||
  (bool_decide (wait_pid e ∈ alive (tb p)) && (WIFSIGNALED (stat_loc e) || WIFEXITED (stat_loc e))).

Definition start_worksb (s : start_env) : bool :=
  bool_decide (s_sigs s = []) && forallb (startsb (s_child s)) (ary (coll cfg)).
Definition undisturbedb (e : turn_env) (p p1 : pan) : bool :=
  forallb start_worksb (t_starts e) && (starts (sc p) <=? zlength (t_starts e)) && bool_decide (t_sigs e = []) &&
  bool_decide (t_wait_sigs e = []) && (negb (wait_pid (t_wait e) <? 0) || bool_decide (alive (tb p1) = [])).

Fixpoint run_okb (calmly : bool) (es : list turn_env) (p : pan) : bool :=
  match es with
  | [] => true
  | e :: es =>
      starts_okb (t_starts e) p &&
      match start_loop (t_starts e) p with
      | Go p1 => wait_okb (t_wait e) p1 && (negb calmly || undisturbedb e p p1)
      | _ => negb calmly
      end &&
      match turn e p with Go (false, p') => run_okb calmly es p' | _ => true end
  end.

Lemma starts_okb_sound es p : starts_okb es p = true → starts_ok es p.
Proof.
  revert p. induction es as [|e es IH]; intros p; simpl; [done|]. intros [[H1 H2]%andb_prop H3]%andb_prop.
  bool_hyps. split; [done|]. split.
  - unfold child_okb in H2. apply orb_prop in H2 as [H2|H2]; bool_hyps; [by left|]. right. done.
  - intros p' Hp'. rewrite Hp' in H3. by apply IH.
Qed.

Lemma run_okb_sound b es p : run_okb b es p = true → run_ok es p ∧ (b = true → undisturbed_run es p).
Proof.
  revert p. induction es as [|e es IH]; intros p; cbn [run_okb run_ok undisturbed_run]; [done|].
  intros [[H1 H2]%andb_prop H3]%andb_prop. split.
  - split.
    + split; [by apply starts_okb_sound|]. intros p1 Hp1. rewrite Hp1 in H2. apply andb_prop in H2 as [H2 _].
      unfold wait_okb in H2. apply orb_prop in H2 as [H2|[H2 Hst]%andb_prop]; bool_hyps; [by left|].
      right. split; [done|]. by apply orb_true_iff.
    + intros p' Hp'. rewrite Hp' in H3. by apply IH.
  - intros ->. split; [|intros p' Hp'; rewrite Hp' in H3; by apply IH].
    destruct (start_loop (t_starts e) p) as [p1| | |] eqn:E; try done. apply andb_prop in H2 as [_ H2].
    cbn [negb orb] in H2. unfold undisturbedb in H2.
    apply andb_prop in H2 as [[[[Ha Hl]%andb_prop Hb]%andb_prop Hc]%andb_prop Hd].
    apply bool_decide_eq_true in Hb, Hc. apply Z.leb_le in Hl. split_and!; try done.
    + eapply Forall_impl; [by apply forallb_True, Is_true_true|]. intros s Hs%Is_true_true.
      apply andb_prop in Hs as [Hs1%bool_decide_eq_true Hs2]. split; [done|].
      eapply Forall_impl; [by apply forallb_True, Is_true_true|]. by intros c Hc'%Is_true_true.
    + intros p1' Heq Hneg. assert (p1' = p1) as -> by congruence. rewrite (proj2 (Z.ltb_lt _ _)) in Hd by done. by apply bool_decide_eq_true in Hd.
Qed.

(** ** Properties *)

(** The state in which the main loop starts. *)
Definition start_state (fork : bool) (s0 : Z) (z : F) : pan :=
  Pan (Table (replicate (Z.to_nat (keep_active cfg)) (TagPgrp 0 false 0 inhabitant [])) 0 (OrphanList 0 []) z 0 0)
    (Signals 0 0 0) (Files [] [] [] [] [] []) (Sched 0 s0 0 0 0 fork) 0 1.

Lemma nz_zeros n : nz (map pgrp (replicate n (TagPgrp 0 false 0 inhabitant []))) = [].
Proof. induction n as [|n IH]; simpl; [done|]. by rewrite nz_cons. Qed.

Lemma start_state_inv fork s0 z :
  0 ≤ keep_active cfg → af_ok z → af_pids z ≡ₚ others ++ [panpid cfg] → inv (start_state fork s0 z).
Proof.
  intros Hk Hz Hp. split; [|simpl; pose proof (cfg_pos Hcfg); lia].
  split; unfold alive, orphaned, pgrps; simpl; rewrite ?nz_zeros, ?nz_cons; simpl; try done.
  - rewrite length_replicate. lia.
  - apply NoDup_singleton.
  - apply Forall_map, Forall_replicate. unfold INT_MAX. simpl. lia.
  - apply Forall_replicate. constructor.
Qed.

(** C1: At every point of every run of the main loop that has not met undefined behaviour
    the counter of active tests
    is the number of occupied slots, so the search for a free slot never fails
    ("Aborting: i == keep_active" is unreachable); no two tests or orphans share
    a pid; and the active file lists exactly pan, the running tests and the
    orphaned process groups, besides the entries of other programs.  No error
    of the active file ends the program, and the loop ends only when no test is
    left running. *)
Theorem pan_run_safe fork s0 z es
  (Hk : 0 ≤ keep_active cfg) (Hz : af_ok z) (Hp : af_pids z ≡ₚ others ++ [panpid cfg])
  (Hok : run_ok es (start_state fork s0 z)) :
  ok (run es (start_state fork s0 z)) (λ r, let t := tb r.2 in
    num_active t = zlength (alive t) ∧
    (num_active t < keep_active cfg → ∃ i, find_slot (running t) = Some i) ∧
    NoDup (panpid cfg :: alive t ++ orphaned t) ∧
    af_pids (zoofile t) ≡ₚ others ++ panpid cfg :: alive t ++ orphaned t ∧
    (r.1 = true → alive t = [])).
Proof.
  eapply ok_mono.
  - apply (run_ind (λ _, True)); [|by apply start_state_inv|done|done].
    intros e p Hi _ Ht. eapply ok_mono; [by apply turn_inv|done].
  - intros r ([Hi _] & _ & Hend). split_and!; [| |apply Hi..|done].
    + pose proof (inv_active _ _ Hi). lia.
    + by apply free_slot.
Qed.


(** C4: In sequential mode the tests are started in the order of the collection,
    over and over: after [k] of the [s0] starts the tags that were started are,
    in order, among the first [k] of that sequence (those left out failed to
    start), and the next one is the [k]-th. *)
Theorem pan_sequential fork s0 z es
  (Hk : 0 ≤ keep_active cfg) (Hz : af_ok z) (Hp : af_pids z ≡ₚ others ++ [panpid cfg])
  (Hseq : sequential cfg = true) (H0 : 0 ≤ s0)
  (Hok : run_ok es (start_state fork s0 z)) :
  ok (run es (start_state fork s0 z)) (λ r, let k := s0 - starts (sc r.2) in
    0 ≤ k ≤ s0 ∧ c_idx (sc r.2) = k mod cnt (coll cfg) ∧
    sublist (map (λ x, x.1.1) (execs (fl r.2))) (cmd_seq (Z.to_nat k))).
Proof.
  eapply ok_mono.
  - apply (run_ind (seq_inv s0)); [|by apply start_state_inv| |done].
    + intros e p Hi Hs Ht. by apply turn_seq.
    + split_and!; simpl; [lia|lia| |apply sublist_nil_l]. by rewrite Z.sub_diag, Z.mod_0_l by (pose proof (cfg_pos Hcfg); lia).
  - intros r (_ & (? & ? & ?) & _). simpl. split_and!; try done; lia.
Qed.

(** C2: The main loop ends for a finite number of starts without [-A], [-O] and "%f":
    when no signal arrives, every start works (or, with [-S], fails with a message
    that fits its buffer) and [wait] fails only when no test runs, it comes to its
    end, in at most one turn more than there are starts, and then all the starts are
    used up and no test is left running.  Without [-S] starts that fail are tried
    again for ever ([failing_starts_spin]). *)
Theorem pan_terminates fork s0 z es
  (Hk : 0 < keep_active cfg) (Hz : af_ok z) (Hp : af_pids z ≡ₚ others ++ [panpid cfg])
  (Hpl : plain) (Hb : has_brakes cfg = false) (H0 : 0 ≤ s0)
  (Hok : run_ok es (start_state fork s0 z)) (Hun : undisturbed_run es (start_state fork s0 z))
  (Hlen : s0 < zlength es) :
  ∃ p', run es (start_state fork s0 z) = Go (true, p') ∧ starts (sc p') = 0 ∧ alive (tb p') = [].
Proof.
  assert (Hi : inv (start_state fork s0 z)) by (apply start_state_inv; [lia|done|done]).
  destruct (run_progress es (start_state fork s0 z) Hb Hk Hpl Hi Hok Hun) as ([[] p'] & Hr & Hx); [by split_and!|by exists p'|].
  assert (Hw : work (start_state fork s0 z) = s0).
  { unfold work, alive, pgrps. simpl. rewrite nz_zeros. simpl. lia. }
  simpl in Hx. lia.
Qed.

(** C33: Propagating a signal makes one [kill] for every running test, in the order
    of the slots, and then one for every orphaned process group.  A test is sent
    [send_signal] as the signals that have arrived before its own [kill] left it, the
    orphans all get what it is after the last of them.  Every running test is marked
    as being stopped, and the signals are forgotten, those that arrived in the
    meantime as well: only the ratchet remembers them. *)
Theorem propagate_signal_spec kill late p :
  let p' := propagate_signal kill late p in
  let s0 := sg_first late p in
  let last := arrived_all late (length (alive (tb p))) in
  kills (fl p') = kills (fl p) ++
    imap (λ i g, (- g, send_signal (deliver (arrived (l_kills late) i) s0))) (alive (tb p)) ++
    map (λ g, (- g, send_signal (deliver last s0))) (orphaned (tb p)) ∧
  Forall (λ r, pgrp r ≠ 0 → stopping r = true) (running (tb p')) ∧
  sg p' = Signals 0 0 (lastsent (deliver (last ++ l_end late) s0)).
Proof. apply propagate_signal_kills. Qed.

(** C34: Without signals from outside, an orphaned process group that is still there
    after five turns of the loop that waits for the orphans has been sent SIGKILL in
    one of them, wherever the ratchet stood.  On a system where a group that was sent
    SIGKILL is gone in the next turn none is left after six turns, and the loop ends. *)
Theorem orphans_are_killed ks p
  (Hr : rec_signal (sg p) = 0) (Hs : send_signal (sg p) = 0) :
  (length ks = 5%nat → ∀ g, g ∈ orphaned (tb (orphan_run ks p)) →
    (- g, SIGKILL) ∈ drop (length (kills (fl p))) (kills (fl (orphan_run ks p)))) ∧
  (length ks = 6%nat → kill_works ks p →
    orphaned (tb (orphan_run ks p)) = [] ∧ ∀ k, orphan_turn [] k no_late (orphan_run ks p) = (false, orphan_run ks p)).
Proof.
  split.
  - intros Hks g Hg. destruct (orphan_run_kills ks p Hr Hs) as (_ & _ & _ & Hk). apply Hk; [done|]. rewrite Hks. apply ratchet_kill.
  - intros Hks Hw. assert (Hnil : orphaned (tb (orphan_run ks p)) = []).
    { destruct ks as [|k ks _] using rev_ind; [done|]. rewrite length_app in Hks. simpl in Hks. apply orphan_run_gone; [done|done|lia|done]. }
    split; [done|]. intros k. by apply orphan_turn_none.
Qed.

Lemma handle_signal_kills kill p :
  rec_signal (sg p) ≠ 0 → rec_signal (sg p) ≠ SIGUSR2 →
  kills (fl (handle_signal kill no_late p)) =
  kills (fl p) ++ map (λ g, (- g, send_signal (sg p))) (alive (tb p) ++ orphaned (tb p)).
Proof.
  intros H0 H2. unfold handle_signal. rewrite (proj2 (Z.eqb_neq _ _) H0), (proj2 (Z.eqb_neq _ _) H2).
  set (q := if rec_signal (sg p) =? SIGUSR1 then _ else _).
  assert (Hq : tb q = tb p ∧ fl q = fl p ∧ sg q = sg p) by (unfold q; by case_if).
  clearbody q. destruct Hq as (Q1 & Q2 & Q3). destruct (stop_or_idle_same (propagate_signal kill no_late q)) as (_ & -> & _).
  destruct (propagate_quiet kill q) as [-> _]. by rewrite Q1, Q2, Q3.
Qed.

(** When the time given with [-t] is over the tests get SIGALRM, not the
    SIGTERM the code assigns: the assignment is to [rec_signal], and what is
    sent is [send_signal]. *)
Theorem alarm_sends_sigalrm kill p (Hs : sg p = Signals 0 0 0) :
  kills (fl (handle_signal kill no_late (deliver_all [SIGALRM] p))) =
  kills (fl p) ++ map (λ g, (- g, SIGALRM)) (alive (tb p) ++ orphaned (tb p)).
Proof.
  rewrite handle_signal_kills; unfold deliver_all; cbn [sg set_sg tb fl deliver foldl]; by rewrite Hs.
Qed.

(** A SIGTERM to pan after a SIGINT has been passed on reaches no test: no
    case of the ratchet applies, and signal 0, which does nothing, is sent. *)
Theorem sigterm_after_sigint_lost kill p (Hs : sg p = Signals 0 0 SIGINT) :
  kills (fl (handle_signal kill no_late (deliver_all [SIGTERM] p))) =
  kills (fl p) ++ map (λ g, (- g, 0)) (alive (tb p) ++ orphaned (tb p)).
Proof.
  rewrite handle_signal_kills; unfold deliver_all; cbn [sg set_sg tb fl deliver foldl]; by rewrite Hs.
Qed.

Lemma run_child_fork_fails e colle i p :
  test_out_dir cfg = None → pcnt_f colle = false → pipe_ok e = true → fork_pid e = -1 →
  ∃ p', run_child e colle i p = Go (-1, p') ∧ num_active (tb p') = num_active (tb p) ∧ sc p' = sc p ∧ sg p' = sg p.
Proof.
  intros Ho Hp Hpi Hf. unfold run_child. rewrite Ho, Hp. simpl. rewrite Hpi, Hf. simpl.
  destruct (quiet_mode cfg); eexists; split_and!; done.
Qed.

(** Without [-S] a start that fails is not counted: as long as [fork] fails and no
    signal arrives the inner loop goes on, whatever the number of starts. *)
Theorem failing_starts_spin es p
  (Hseq : sequential cfg = false) (Hpl : plain) (Hi : inv p) (Hcan : can_start p = true) (Hgo : must_pause p = false)
  (Hes : Forall (λ e, s_sigs e = [] ∧ 0 ≤ s_rand e ∧ pipe_ok (s_child e) = true ∧ fork_pid (s_child e) = -1) es) :
  start_loop es p = More.
Proof.
  revert p Hi Hcan Hgo. induction Hes as [|e es (Hs & Hr & Hpi & Hf) Hes IH]; intros p Hi Hcan Hgo; cbn [start_loop]; rewrite Hcan; cbn [negb].
  { by rewrite Hgo. }
  rewrite Hs, deliver_none, Hgo. pose proof (start_one_inv e p Hi Hcan Hr (or_introl Hf)) as Hone.
  pose proof (choose_range (s_rand e) (c_idx (sc p)) Hr (proj2 Hi)) as Hc.
  assert (Hcmd : pcnt_f (ary (coll cfg) !!! Z.to_nat (choose (s_rand e) (c_idx (sc p)))) = false).
  { destruct Hpl as [_ Hpl]. rewrite Forall_forall in Hpl. apply Hpl. apply list_elem_of_lookup_total_2. pose proof (cfg_cnt Hcfg). lia. }
  pose proof Hcan as Hlt. apply andb_prop in Hlt as [Hlt _]. bool_hyps. destruct (free_slot _ (proj1 Hi) Hlt) as [i Hslot].
  unfold start_one in Hone |- *. rewrite Hslot in Hone |- *.
  destruct (run_child_fork_fails (s_child e) _ i p (plain_out Hpl) Hcmd Hpi Hf) as (p1 & E & Hn & Hsc & Hsg). rewrite E in Hone |- *.
  simpl in Hone |- *. rewrite Hseq in Hone |- *. simpl in Hone |- *. destruct Hone as (_ & Hi1 & _). simpl in Hi1.
  apply IH; [done| |]; unfold can_start, must_pause in *; simpl; by rewrite ?Hn, ?Hsg.
Qed.

(** A buffered test that wrote no output makes [copy_buffered_output] read
    the byte before its buffer. *)
Theorem empty_output_undefined f : copy_buffered_output (SlurpEnv true true 0 []) f = Crash.
Proof. done. Qed.

(** The exit status pan's parent sees is 0 when the count of bad ends is a
    multiple of 256, although tests failed. *)
Theorem exit_status_wraps release machine nodename p k
  (Hz : af_ok (zoofile (tb p))) (Hin : panpid cfg ∈ af_pids (zoofile (tb p)))
  (Hk : exit_stat (sc p) = 256 * k) :
  exit_status (finish release machine nodename p).2 = 0.
Proof.
  unfold finish. destruct (af_clear_spec (zoofile (tb p)) (panpid cfg) Hz) as (_ & Hc & _).
  destruct (Hc Hin) as [Hrc _]. destruct (af_clear (zoofile (tb p)) (panpid cfg)) as [rc z]. simpl in Hrc. subst rc.
  simpl. unfold exit_status. rewrite Hk. change 255 with (Z.ones 8). rewrite Z.land_ones by lia.
  rewrite Z.mul_comm. change (2 ^ 8) with 256. apply Z_mod_mult.
Qed.

End pan.

(** ** Witnesses *)

(** Two commands, one test at a time, in order, with [-e] and a log. *)
Definition ex_cfg : config :=
  Config 1 true false true true true None true true true true
    (Collection 2 [CollEntry (str "ok01") (str "true") false; CollEntry (str "bad01") (str "false") false])
    (str "pan") 50.
Definition ex_err : Z → cstr := λ _, str "error".
Definition ex_child (pid : Z) : child_env := ChildEnv [] true pid [] 0 false false 10 11.
Definition ex_wait (pid st : Z) : wait_env := WaitEnv (λ _, 0) pid st 12 0 0 (SlurpEnv false false 0 []) ESRCH.
Definition ex_turn (pid st : Z) : turn_env := 
  TurnEnv [StartEnv [] 0 (ex_child pid); StartEnv [] 0 (ex_child (1000 + pid))] false [] (λ _, 0) no_late (ex_wait pid st) [].
Definition ex_zoo : zoo := zoo_file [entry_line 50 (str "pan") (str "ltp-pan -n pan")].
Definition ex_run : list turn_env := [ex_turn 101 0; ex_turn 102 256; ex_turn 103 0].
Definition ex_start : pan (F := zoo) := start_state ex_cfg false 2 ex_zoo.

Lemma ex_cfg_ok : cfg_ok ex_cfg.
Proof. split; [done|done|repeat constructor]. Qed.

Lemma ex_plain : plain ex_cfg.
Proof. split; [done|repeat constructor]. Qed.

Lemma ex_zoo_ok : af_ok ex_zoo ∧ af_pids ex_zoo ≡ₚ [] ++ [panpid ex_cfg].
Proof.
  split.
  - exists [entry_line 50 (str "pan") (str "ltp-pan -n pan")]. split; [|done].
    constructor; [|constructor]. apply entry_line_ok; [lia|repeat constructor|repeat constructor].
  - vm_compute. reflexivity.
Qed.

Lemma ex_run_ok : run_ok ex_err ex_cfg ex_run ex_start ∧ undisturbed_run ex_err ex_cfg ex_run ex_start.
Proof.
  destruct (run_okb_sound ex_err ex_cfg true ex_run ex_start) as [H1 H2]; [vm_compute; reflexivity|auto].
Qed.

(** A run that gets to a result. *)
Lemma ok_go {A} (m : io A) Q : ok m Q → (match m with Go _ => true | _ => false end) = true → ∃ r, m = Go r ∧ Q r.
Proof. destruct m; simpl; try done. eauto. Qed.

Lemma pan_run_safe_witness :
  ∃ r, run ex_err ex_cfg ex_run ex_start = Go r ∧
    af_pids (zoofile (tb r.2)) ≡ₚ [] ++ panpid ex_cfg :: alive (tb r.2) ++ orphaned (tb r.2).
Proof.
  destruct (ok_go _ _ (pan_run_safe ex_err ex_cfg [] ex_cfg_ok false 2 ex_zoo ex_run ltac:(done)
    (proj1 ex_zoo_ok) (proj2 ex_zoo_ok) (proj1 ex_run_ok))) as (r & Hr & _ & _ & _ & Hz & _);
    [vm_compute; reflexivity|]. exists r. split; [exact Hr|exact Hz].
Defined.


Lemma pan_sequential_witness :
  ∃ r, run ex_err ex_cfg ex_run ex_start = Go r ∧
    sublist (map (λ x, x.1.1) (execs (fl r.2))) (cmd_seq ex_cfg (Z.to_nat (2 - starts (sc r.2)))).
Proof.
  destruct (ok_go _ _ (pan_sequential ex_err ex_cfg [] ex_cfg_ok false 2 ex_zoo ex_run ltac:(done)
    (proj1 ex_zoo_ok) (proj2 ex_zoo_ok) eq_refl ltac:(done) (proj1 ex_run_ok))) as (r & Hr & _ & _ & Hx);
    [vm_compute; reflexivity|]. exists r. split; [exact Hr|exact Hx].
Defined.

Lemma pan_terminates_witness :
  ∃ p', run ex_err ex_cfg ex_run ex_start = Go (true, p') ∧ starts (sc p') = 0 ∧ alive (tb p') = [].
Proof.
  apply (pan_terminates ex_err ex_cfg [] ex_cfg_ok false 2 ex_zoo ex_run ltac:(done)
    (proj1 ex_zoo_ok) (proj2 ex_zoo_ok) ex_plain eq_refl ltac:(done) (proj1 ex_run_ok) (proj2 ex_run_ok) ltac:(done)).
Defined.

(** Two tests running, one orphan, nothing received. *)
Definition ex_pan (last : Z) : pan (F := zoo) :=
  Pan (Table [TagPgrp 101 false 10 inhabitant []; TagPgrp 102 false 11 inhabitant []] 2 (OrphanList 0 [90]) ex_zoo 0 0)
    (Signals 0 0 last) (Files [] [] [] [] [] []) (Sched 0 (-1) 0 0 0 false) 0 1.

(** A system on which the orphan ends with SIGKILL. *)
Definition ex_kills : list (Z → Z) := replicate 4 (λ _, 0) ++ replicate 2 (λ _, ESRCH).

Lemma orphans_are_killed_witness :
  orphaned (tb (orphan_run ex_kills (ex_pan 0))) = [] ∧
  kills (fl (orphan_run ex_kills (ex_pan 0))) =
    concat (map (λ sig, [(-101, sig); (-102, sig); (-90, sig)]) [SIGINT; SIGTERM; SIGHUP; SIGKILL; 0]).
Proof.
  split; [|vm_compute; reflexivity].
  refine (proj1 (proj2 (orphans_are_killed ex_kills (ex_pan 0) eq_refl eq_refl) eq_refl _)).
  vm_compute. repeat (split; [intros g Hg; repeat (apply elem_of_cons in Hg as [Hg|Hg]; [first [done|congruence]|]); by apply elem_of_nil in Hg || reflexivity|]). exact I.
Defined.

Lemma alarm_sends_sigalrm_witness :
  kills (fl (handle_signal (λ _, 0) no_late (deliver_all [SIGALRM] (ex_pan 0)))) =
    [(-101, SIGALRM); (-102, SIGALRM); (-90, SIGALRM)].
Proof. apply (alarm_sends_sigalrm (λ _, 0) (ex_pan 0)). reflexivity. Defined.

Lemma sigterm_after_sigint_lost_witness :
  kills (fl (handle_signal (λ _, 0) no_late (deliver_all [SIGTERM] (ex_pan SIGINT)))) = [(-101, 0); (-102, 0); (-90, 0)].
Proof. apply (sigterm_after_sigint_lost (λ _, 0) (ex_pan SIGINT)). reflexivity. Defined.

Lemma exit_status_wraps_witness :
  exit_status (finish ex_cfg [] [] [] (set_sc (Sched 0 0 1 0 256 false) (ex_pan 0))).2 = 0.
Proof.
  apply (exit_status_wraps ex_cfg [] [] [] (set_sc (Sched 0 0 1 0 256 false) (ex_pan 0)) 1).
  - exact (proj1 ex_zoo_ok).
  - simpl zoofile. rewrite (proj2 ex_zoo_ok). left.
  - reflexivity.
Defined.

(** Ends that [-e] does not count: TCONF, and a program that cannot be started. *)
Definition ex_lost : child_env := ChildEnv [] true 104 [] 2 false false 10 11.
Definition ex_quiet_run : list turn_env :=
  [ex_turn 101 (32 * 256); TurnEnv [StartEnv [] 0 ex_lost] false [] (λ _, 0) no_late (ex_wait (-1) 0) []].

Example tconf_and_lost_not_counted :
  match run ex_err ex_cfg ex_quiet_run ex_start with
  | Go (true, p) => Some (exit_stat (sc p), logfile (fl p))
  | _ => None
  end = Some (0, [fmt_line (str "ok01") (str "CONF") 32; fmt_line (str "bad01") (str "FAIL") 2]).
Proof. vm_compute. reflexivity. Qed.

(** A signal that interrupts the [read] from the child. *)
Example read_interrupted :
  run_child ex_err ex_cfg (ChildEnv [] true 104 [] 0 true false 10 11) (CollEntry (str "ok01") (str "true") false) 0 ex_start = Crash.
Proof. vm_compute. reflexivity. Qed.

(** The ratchet that pan turns by itself. *)
Example ratchet_order : ratchet 7 0 = [SIGINT; SIGTERM; SIGHUP; SIGKILL; 0; SIGINT; SIGTERM].
Proof. vm_compute. reflexivity. Qed.

(** A signal that arrives while another one is passed on: the tests get different ones. *)
Example late_signal :
  kills (fl (handle_signal (λ _, 0) (Late [] [[]; [SIGINT]] [] []) (deliver_all [SIGINT] (ex_pan 0)))) =
    [(-101, SIGINT); (-102, SIGTERM); (-90, SIGTERM)].
Proof. vm_compute. reflexivity. Qed.

(** pan without [-S], and [fork] fails. *)
Definition ex_random : config :=
  Config 1 false false true true true None true true true true (coll ex_cfg) (str "pan") 50.

Lemma ex_random_ok : cfg_ok ex_random ∧ plain ex_random.
Proof. split; [split; [done|done|repeat constructor]|split; [done|repeat constructor]]. Qed.

Lemma failing_starts_spin_witness :
  start_loop ex_err ex_random (replicate 3 (StartEnv [] 0 (ChildEnv [] true (-1) [] 0 false false 10 11)))
    (start_state ex_random false 2 ex_zoo) = More.
Proof.
  apply (failing_starts_spin ex_err ex_random [] (proj1 ex_random_ok)); [done|exact (proj2 ex_random_ok)| |done|done|by repeat constructor].
  apply (start_state_inv ex_random [] (proj1 ex_random_ok)); [done|exact (proj1 ex_zoo_ok)|exact (proj2 ex_zoo_ok)].
Defined.
