(* ===== verification/PanMain.v ===== *)
(** * Starting pan: the first part of [main] in pan/ltp-pan.c

    The options, the checks and files that follow, and the preparation of the
    active file; the result is the configuration and the state with which the
    scheduler of Pan.v starts.  The options come as the sequence of results of
    [getopt]. *)

From S2P Require Import Prelude CInt CMem CString Zoo PanColl Pan.
Local Open Scope Z_scope.

(** ** Options *)

Definition given {A} (x : option A) : bool := match x with Some _ => true | None => false end.

Record opts : Type := Opts {
  o_brakes : bool; o_track : bool; o_outdir : option cstr; o_seq : bool;
  o_zooname : option cstr; o_failcmd : option cstr; o_tconf : option cstr; o_filename : cstr;
  o_logfile : option cstr; o_panname : option cstr; o_output : option cstr;
  o_fmt : bool; o_quiet : bool; o_report : option cstr; o_starts : Z; o_timed : bool;
  o_run_time : Z; o_modifier : ascii; o_keep : Z; o_fork : bool }.

Definition opts0 : opts :=
  Opts false false None false None None None (str "/dev/null") None None None false false None
    (-1) false (-1) "m" 1 false.

(** [sscanf(s, "%d%c", ...)] *)
Definition sscanf_dc (s : cstr) : scan_uc :=
  match skip_space s with
  | [] => ScanEOF
  | _ =>
      let '(neg, ds, rest) := scan_number 10 s in
      match ds with
      | [] => ScanFail
      | _ => let a := atoi s in match rest with [] => Scan1 a | c :: _ => Scan2 a c end
      end
  end.

Definition set_time (o : opts) (timed : bool) (run_time : Z) (modifier : ascii) : opts :=
  Opts (o_brakes o) (o_track o) (o_outdir o) (o_seq o) (o_zooname o) (o_failcmd o) (o_tconf o) (o_filename o)
    (o_logfile o) (o_panname o) (o_output o) (o_fmt o) (o_quiet o) (o_report o) (o_starts o) timed
    run_time modifier (o_keep o) (o_fork o).

(** The multiplication by the modifier; without one (the scan ended at once) the
    values from before are used. *)
Definition apply_modifier (o : opts) (run_time : Z) (modifier : ascii) : io opts :=
  if modifier =c "s"%char then Go (set_time o true run_time modifier)
  else if modifier =c "m"%char then t ← of_res (ck32 (run_time * 60)); Go (set_time o true t modifier)
  else if modifier =c "h"%char then
    t ← of_res (ck32 (run_time * 60)); t ← of_res (ck32 (t * 60)); Go (set_time o true t modifier)
  else if modifier =c "d"%char then
    t ← of_res (ck32 (run_time * 60)); t ← of_res (ck32 (t * 60)); t ← of_res (ck32 (t * 24));
    Go (set_time o true t modifier)
  else Exit (-1).

Definition time_option (optarg : cstr) (o : opts) : io opts :=
  match sscanf_dc optarg with
  | ScanFail => Go o
  | Scan1 t => Go (set_time o true t (o_modifier o))
  | Scan2 t m => apply_modifier o t m
  | ScanEOF => apply_modifier o (o_run_time o) (o_modifier o)
  end.

(** One result of [getopt] ([-d] only changes what is printed for debugging). *)
Definition handle_opt (o : opts) (c : ascii) (optarg : cstr) : io opts :=
  let 'Opts br tr od sq zn fc tc fn lf pn ou fm qu rp st tm rt mo ke fk := o in
  if c =c "A"%char then Go (Opts true true od sq zn fc tc fn lf pn ou fm qu rp st tm rt mo ke fk)
  else if c =c "O"%char then Go (Opts br tr (Some optarg) sq zn fc tc fn lf pn ou fm qu rp st tm rt mo ke fk)
  else if c =c "S"%char then Go (Opts br tr od true zn fc tc fn lf pn ou fm qu rp st tm rt mo ke fk)
  else if c =c "a"%char then Go (Opts br tr od sq (Some optarg) fc tc fn lf pn ou fm qu rp st tm rt mo ke fk)
  else if c =c "C"%char then Go (Opts br tr od sq zn (Some optarg) tc fn lf pn ou fm qu rp st tm rt mo ke fk)
  else if c =c "T"%char then Go (Opts br tr od sq zn fc (Some optarg) fn lf pn ou fm qu rp st tm rt mo ke fk)
  else if c =c "e"%char then Go (Opts br true od sq zn fc tc fn lf pn ou fm qu rp st tm rt mo ke fk)
  else if c =c "f"%char then Go (Opts br tr od sq zn fc tc optarg lf pn ou fm qu rp st tm rt mo ke fk)
  else if c =c "h"%char then Exit 0
  else if c =c "l"%char then Go (Opts br tr od sq zn fc tc fn (Some optarg) pn ou fm qu rp st tm rt mo ke fk)
  else if c =c "n"%char then Go (Opts br tr od sq zn fc tc fn lf (Some optarg) ou fm qu rp st tm rt mo ke fk)
  else if c =c "o"%char then Go (Opts br tr od sq zn fc tc fn lf pn (Some optarg) fm qu rp st tm rt mo ke fk)
  else if c =c "p"%char then Go (Opts br tr od sq zn fc tc fn lf pn ou true qu rp st tm rt mo ke fk)
  else if c =c "q"%char then Go (Opts br tr od sq zn fc tc fn lf pn ou fm true rp st tm rt mo ke fk)
  else if c =c "r"%char then Go (Opts br tr od sq zn fc tc fn lf pn ou fm qu (Some optarg) st tm rt mo ke fk)
  else if c =c "s"%char then Go (Opts br tr od sq zn fc tc fn lf pn ou fm qu rp (atoi optarg) tm rt mo ke fk)
  else if c =c "t"%char then time_option optarg o
  else if c =c "x"%char then Go (Opts br tr od sq zn fc tc fn lf pn ou fm qu rp st tm rt mo (atoi optarg) fk)
  else if c =c "y"%char then Go (Opts br tr od sq zn fc tc fn lf pn ou fm qu rp st tm rt mo ke true)
  else Go o.

Fixpoint handle_opts (l : list (ascii * cstr)) (o : opts) : io opts :=
  match l with
  | [] => Go o
  | (c, a) :: l => o ← handle_opt o c a; handle_opts l o
  end.

(** ** After the options *)

(** The default and the adjustment of the number of starts. *)
Definition default_starts (timed sequential : bool) (starts keep_active cnt : Z) : Z :=
  if timed && (starts =? -1) then -1
  else if starts =? -1 then if sequential then cnt else 1
  else if starts =? 0 then -1
  else if starts <? keep_active then keep_active else starts.

Definition lower (c : ascii) : ascii := if (65 <=? code c) && (code c <=? 90) then chr (code c + 32) else c.
Definition strcasecmp_eq (a b : cstr) : bool := bool_decide (map lower a = map lower b).

(** [reporttype] is "rts" unless it is "none"; reports are written when it is
    spelled "rts" exactly. *)
Definition reports (o : opts) : bool :=
  match o_report o with
  | Some r =>
      if negb (strcasecmp_eq r (str "rts")) && negb (strcasecmp_eq r (str "none")) then true
      else bool_decide (r = str "rts")
  | None => true
  end.

(** The system's answers: the environment variable ZOO, the opening of the log,
    the command file, the allocations of the table and of the head of the list of
    orphans, the checks of the output
    directory, the opening of the other files and of the active file, and the
    process. *)
Record setup_env (F : Type) : Type := SetupEnv {
  env_ZOO : option cstr; log_ok : bool; ctime : cstr; cmd_file : slurp_env; table_ok : bool; head_ok : bool;
  dir_ok : bool; out_ok : bool; fail_ok : bool; tconf_ok : bool; zoo_handle : option F;
  getpid : Z; argv : list cstr; args_ok : bool; rest_args : list cstr }.
Arguments SetupEnv {F}.
Arguments env_ZOO {F}. Arguments log_ok {F}. Arguments ctime {F}. Arguments cmd_file {F}.
Arguments table_ok {F}. Arguments head_ok {F}. Arguments dir_ok {F}. Arguments out_ok {F}. Arguments fail_ok {F}.
Arguments tconf_ok {F}. Arguments zoo_handle {F}. Arguments getpid {F}. Arguments argv {F}.
Arguments args_ok {F}. Arguments rest_args {F}.

(** Joining texts, and the texts of a collection. *)
Lemma unwords_text_ok l : Forall text_ok l → text_ok (unwords l).
Proof.
  induction 1 as [|w l Hw Hl IH]; [constructor|]. destruct l as [|v l]; [done|].
  change (unwords (w :: v :: l)) with (w ++ " "%char :: unwords (v :: l)).
  apply Forall_app. split; [done|]. by constructor.
Qed.

Lemma split_lines_text s : Forall (λ c, (c =c NUL) = false) s → Forall text_ok (split_lines s).
Proof.
  induction 1 as [|c s Hc Hs IH]; cbn [split_lines]; [by repeat constructor|].
  destruct (c =c newline) eqn:E; [by repeat constructor|].
  destruct (split_lines s) as [|l ls]; [by repeat constructor|].
  apply Forall_cons in IH as [Hl Hls]. by repeat constructor.
Qed.

Lemma set_pcnt_cons c s :
  set_pcnt (c :: s) =
  match s with
  | d :: s' => if (c =c "%"%char) && (d =c "f"%char) then "%"%char :: "s"%char :: s' else c :: set_pcnt s
  | [] => [c]
  end.
Proof.
  destruct s as [|d s]; [by destruct c as [[] [] [] [] [] [] [] []]|].
  destruct (c =c "%"%char) eqn:E1; [|by destruct c as [[] [] [] [] [] [] [] []]].
  destruct (eqc_spec c "%"%char) as [->|]; [|done]. by destruct d as [[] [] [] [] [] [] [] []].
Qed.

Lemma set_pcnt_text s : text_ok s → text_ok (set_pcnt s).
Proof.
  induction 1 as [|c s Hc Hs IH]; [constructor|]. rewrite set_pcnt_cons. destruct s as [|d s]; [by constructor|].
  destruct (_ && _); [|by constructor]. apply Forall_cons in Hs as [Hd Hs].
  constructor; [done|]. by constructor.
Qed.

Lemma span_forall {A} (P : A → Prop) p l : Forall P l → Forall P (span p l).1 ∧ Forall P (span p l).2.
Proof. intros Hl. apply Forall_app. by rewrite span_eq. Qed.

Lemma parse_line_text a e :
  text_ok a → parse_line a = Ret (Some e) → text_ok (name e) ∧ text_ok (cmdline e).
Proof.
  intros Ha Hp. destruct a as [|c a]; [done|]. unfold parse_line in Hp. case_if_in Hp; [done|].
  pose proof (span_forall _ (λ c, negb (mem c [" "%char; tab])) _ (set_pcnt_text _ Ha)) as [H1 H2].
  unfold strsep in Hp. destruct (span _ (set_pcnt (c :: a))) as [w [|s rest]]; [done|].
  injection Hp as <-. split; [done|]. apply Forall_cons in H2 as [_ H2]. exact H2.
Qed.

Lemma parse_lines_text ls es :
  Forall text_ok ls → parse_lines ls = Ret es → Forall (λ e, text_ok (name e) ∧ text_ok (cmdline e)) es.
Proof.
  intros Hls. revert es. induction Hls as [|l ls Hl Hls IH]; intros es Hp; cbn [parse_lines] in Hp.
  - by injection Hp as <-.
  - destruct (parse_line l) as [e| |] eqn:El; [|done..]. destruct (parse_lines ls) as [es'| |]; [|done..].
    injection Hp as <-. destruct e as [e|]; [|by apply IH]. constructor; [by apply (parse_line_text l)|by apply IH].
Qed.

Lemma args_loop_text args w left w' :
  text_ok w → Forall text_ok args → args_loop w left args = Ret w' → text_ok w'.
Proof.
  assert (Hcat : ∀ w s l w', text_ok w → text_ok s → strncat1024 w s l = Ret w' → text_ok w').
  { unfold strncat1024. intros v s l v' Hv Hs Heq. case_if_in Heq; [|done]. injection Heq as <-.
    apply Forall_app. split; [done|]. by apply Forall_take. }
  intros Hw Ha. revert w left Hw. induction Ha as [|a args Ha Has IH]; intros w left Hw Heq; cbn [args_loop] in Heq.
  - by injection Heq as <-.
  - destruct (strncat1024 w a left) as [w1| |] eqn:E1; [|done..]. rewrite res_bind_ret in Heq.
    destruct (strncat1024 w1 (str " ") _) as [w2| |] eqn:E2; [|done..]. rewrite res_bind_ret in Heq.
    eapply IH; [|exact Heq]. apply (Hcat _ _ _ _ (Hcat _ _ _ _ Hw Ha E1)) in E2; [done|]. by repeat constructor.
Qed.

Lemma get_collection_text file args cl :
  get_collection file args = Ret (Some cl) → Forall text_ok args →
  cnt cl = zlength (ary cl) ∧ Forall (λ e, text_ok (name e) ∧ text_ok (cmdline e)) (ary cl).
Proof.
  intros Hg Hargs. unfold get_collection in Hg. destruct (slurp file) as [buf|]; [|done].
  destruct (parse_lines _) as [es| |] eqn:Ep; [|done..]. rewrite res_bind_ret in Hg.
  assert (Hes : Forall (λ e, text_ok (name e) ∧ text_ok (cmdline e)) es).
  { eapply parse_lines_text; [|exact Ep]. apply split_lines_text. unfold as_string.
    eapply Forall_impl; [apply span_all|]. simpl. intros c. by apply negb_true_iff. }
  destruct args as [|a args].
  - rewrite res_bind_ret in Hg. injection Hg as <-. done.
  - destruct (args_loop [] 1023 (a :: args)) as [w| |] eqn:Ew; [|done..]. rewrite !res_bind_ret in Hg.
    injection Hg as <-. split; [done|]. simpl. apply Forall_app. split; [done|]. constructor; [|done]. split.
    + by repeat constructor.
    + apply set_pcnt_text. by apply (args_loop_text _ _ _ _ (Forall_nil_2 _) Hargs Ew).
Qed.

Section setup.
Context {F : Type} `{ActiveFile F}.

(** [for (c = 0; c < keep_active; c++) if (zoo_mark_cmdline(...)) exit(1)] *)
Fixpoint mark_spaces (k : nat) (c : Z) (nm : cstr) (z : F) : io F :=
  match k with
  | O => Go z
  | S k => let '(rc, z) := af_mark z c nm [] in if negb (rc =? 0) then Exit 1 else mark_spaces k (c + 1) nm z
  end.
Fixpoint clear_spaces (k : nat) (c : Z) (z : F) : io F :=
  match k with
  | O => Go z
  | S k => let '(rc, z) := af_clear z c in if negb (rc =? 0) then Exit 1 else clear_spaces k (c + 1) z
  end.

(** The header of the log. *)
Definition log_header (o : opts) (s : cstr) : list cstr :=
  if negb (o_fmt o) then [str "startup='" ++ s ++ str "'" ++ [nl]]
  else
    [str "Test Start Time: " ++ s ++ [nl] ++ str "-----------------------------------------" ++ [nl] ++
     fmt_ljust 30 20 (str "Testcase") ++ str " " ++ fmt_ljust 10 10 (str "Result") ++ str " " ++
     fmt_ljust 10 10 (str "Exit Value") ++ [nl] ++
     fmt_ljust 30 20 (str "--------") ++ str " " ++ fmt_ljust 10 10 (str "------") ++ str " " ++
     fmt_ljust 10 10 (str "------------") ++ [nl]].

(** The preparation of the active file. *)
Definition prepare_zoo (env : setup_env F) (nm : cstr) (keep : Z) (z : F) : io F :=
  cmdline ← of_res (cat_args (args_ok env) (argv env));
  match cmdline with
  | None => Crash
  | Some cmdline =>
      let '(rc, z) := af_mark z (getpid env) nm cmdline in
      if negb (rc =? 0) then Exit 1
      else z ← mark_spaces (Z.to_nat keep) 0 nm z; clear_spaces (Z.to_nat keep) 0 z
  end.

(** [main] from the end of the options to the start of the loop: the
    configuration, the state and the argument of [alarm].  A negative number of
    elements is no size [malloc] can satisfy; with none the sentinel is written
    outside the block. *)
Definition main_setup (env : setup_env F) (o : opts) : io (config * pan (F := F) * option Z) :=
  match o_panname o with
  | None => Exit 1
  | Some nm =>
      match (match o_zooname o with Some z => Some z | None => zoo_getname (env_ZOO env) end) with
      | None => Exit 1
      | Some _ =>
          if (match o_logfile o with Some l => negb (bool_decide (l = str "-")) | None => false end)
             && negb (log_ok env) then Exit 1
          else
            cl ← of_res (get_collection (cmd_file env) (rest_args env));
            match cl with
            | None => Exit 1
            | Some cl =>
                if cnt cl =? 0 then Exit 1
                else
                  size ← of_res (ck32 (o_keep o + 1));
                  if (size <? 0) || negb (table_ok env) then Exit 2
                  else if (size =? 0) || negb (head_ok env) then Crash
                  else
                  let st := default_starts (o_timed o) (o_seq o) (o_starts o) (o_keep o) (cnt cl) in
                  let outdir := if o_keep o =? 1 then None else o_outdir o in
                  if given outdir && negb (dir_ok env) then Exit 1
                  else if given (o_output o) && negb (out_ok env) then Exit 1
                  else if given (o_failcmd o) && negb (fail_ok env) then Exit 1
                  else if given (o_tconf o) && negb (tconf_ok env) then Exit 1
                  else
                    match zoo_handle env with
                    | None => Exit 1
                    | Some z =>
                        z ← prepare_zoo env nm (o_keep o) z;
                        let cfg := Config (o_keep o) (o_seq o) (o_brakes o) (o_track o) (o_fmt o) (o_quiet o)
                                     outdir (reports o) (given (o_logfile o)) (given (o_failcmd o)) (given (o_tconf o))
                                     cl nm (getpid env) in
                        let p := start_state cfg (o_fork o) st z in
                        let p := if given (o_logfile o)
                                 then set_fl (Files (log_header o (ctime env)) [] [] [] [] []) p else p in
                        Go (cfg, p, if o_run_time o =? -1 then None else Some (o_run_time o))
                    end
            end
      end
  end.

(** ** The start of a run *)

Context `{!ActiveFileLaws F}.

(** Marking and clearing the spaces leaves the processes of the file as they are. *)
Lemma mark_spaces_spec k c nm z :
  0 ≤ c → c + Z.of_nat k ≤ INT_MAX → text_ok nm → af_ok z →
  ∃ z', mark_spaces k c nm z = Go z' ∧ af_ok z' ∧ af_pids z' ≡ₚ seqZ c (Z.of_nat k) ++ af_pids z.
Proof.
  revert c z. induction k as [|k IH]; intros c z Hc Hk Hn Hz; cbn [mark_spaces]; [by exists z|].
  destruct (af_mark_spec z c nm [] Hz) as (Hrc & Hz1 & Hp1); [lia|done|constructor|].
  destruct (af_mark z c nm []) as [rc z1]. simpl in Hrc, Hz1, Hp1. subst rc. simpl.
  destruct (IH (c + 1) z1) as (z2 & -> & Hz2 & Hp2); [lia|lia|done|done|]. exists z2. split_and!; [done|done|].
  rewrite Hp2, Hp1, (seqZ_cons c (Z.of_nat (S k))) by lia. replace (Z.pred (Z.of_nat (S k))) with (Z.of_nat k) by lia.
  unfold Z.succ. simpl. by rewrite Permutation_middle.
Qed.

Lemma clear_spaces_spec k c z ps :
  af_ok z → af_pids z ≡ₚ seqZ c (Z.of_nat k) ++ ps →
  ∃ z', clear_spaces k c z = Go z' ∧ af_ok z' ∧ af_pids z' ≡ₚ ps.
Proof.
  revert c z. induction k as [|k IH]; intros c z Hz Hp; cbn [clear_spaces]; [by exists z|].
  rewrite (seqZ_cons c (Z.of_nat (S k))) in Hp by lia. replace (Z.pred (Z.of_nat (S k))) with (Z.of_nat k) in Hp by lia.
  destruct (af_clear_spec z c Hz) as (Hz1 & Hin & _). destruct Hin as [Hrc Hp1]; [rewrite Hp; left|].
  destruct (af_clear z c) as [rc z1]. simpl in Hrc, Hz1, Hp1. subst rc. simpl.
  apply IH; [done|]. apply (Permutation_cons_inv (a := c)). rewrite <- Hp1, Hp. done.
Qed.

Lemma prepare_zoo_spec env nm keep z :
  0 ≤ keep ≤ INT_MAX → text_ok nm → af_ok z → 0 ≤ getpid env ≤ INT_MAX →
  args_ok env = true → argv env ≠ [] → Forall text_ok (argv env) →
  ∃ z', prepare_zoo env nm keep z = Go z' ∧ af_ok z' ∧ af_pids z' ≡ₚ getpid env :: af_pids z.
Proof.
  intros Hk Hn Hz Hpid Ha Hne Hargs. unfold prepare_zoo. rewrite Ha, cat_args_unwords; [|done|].
  2: { eapply Forall_impl; [exact Hargs|]. intros a Hx. eapply Forall_impl; [exact Hx|]. by intros c []. }
  simpl. destruct (af_mark_spec z (getpid env) nm (unwords (argv env)) Hz Hpid Hn) as (Hrc & Hz1 & Hp1).
  { by apply unwords_text_ok. }
  destruct (af_mark z (getpid env) nm (unwords (argv env))) as [rc z1]. simpl in Hrc, Hz1, Hp1. subst rc. simpl.
  destruct (mark_spaces_spec (Z.to_nat keep) 0 nm z1) as (z2 & -> & Hz2 & Hp2); [lia|lia|done|done|]. simpl.
  destruct (clear_spaces_spec (Z.to_nat keep) 0 z2 (af_pids z1)) as (z3 & -> & Hz3 & Hp3); [done|done|].
  exists z3. by rewrite Hp3, Hp1.
Qed.

(** Every file and allocation [main] asks for is there. *)
Definition opened (env : setup_env F) (o : opts) : bool :=
  (given (o_zooname o) || given (env_ZOO env)) && log_ok env && table_ok env && head_ok env && dir_ok env &&
  out_ok env && fail_ok env && tconf_ok env && args_ok env.

Lemma default_starts_spec timed sequential starts keep cnt (s0 := default_starts timed sequential starts keep cnt) :
  0 < keep → 0 < cnt →
  (s0 = -1 ∨ 0 < s0) ∧ (starts = -1 → s0 = if timed then -1 else if sequential then cnt else 1) ∧
  (starts = 0 → s0 = -1) ∧ (starts ≠ -1 → starts ≠ 0 → s0 = Z.max starts keep).
Proof.
  intros Hk Hc. unfold s0, default_starts. destruct timed, sequential; simpl;
    repeat case_if; bool_hyps; split_and!; intros; lia.
Qed.

(** C31: When the files can be opened, [main] comes to its loop in a state that
    satisfies the invariant of the scheduler: the table is empty, the commands
    are those of the collection, the active file has pan's entry in addition to
    those that were there.  The number of starts is positive or infinite (-1):
    by default the whole collection with [-S] and one command otherwise, without
    end with [-t] or [-s 0], and with [-s] at least the number kept active. *)
Theorem main_setup_starts env o nm cl z
  (Hnm : o_panname o = Some nm) (Hopen : opened env o = true) (Hz : zoo_handle env = Some z)
  (Hcl : get_collection (cmd_file env) (rest_args env) = Ret (Some cl)) (Hcnt : 0 < cnt cl)
  (Hkeep : 0 < o_keep o < INT_MAX) (Hpid : 0 ≤ getpid env ≤ INT_MAX) (Hok : af_ok z)
  (Hargv : argv env ≠ []) (Htext : Forall text_ok (nm :: argv env ++ rest_args env)) :
  ∃ cfg p, main_setup env o = Go (cfg, p, if o_run_time o =? -1 then None else Some (o_run_time o)) ∧
    cfg_ok cfg ∧ inv cfg (af_pids z) p ∧ coll cfg = cl ∧ keep_active cfg = o_keep o ∧ alive (tb p) = [] ∧
    (starts (sc p) = -1 ∨ 0 < starts (sc p)) ∧
    (o_starts o = -1 → starts (sc p) = if o_timed o then -1 else if o_seq o then cnt cl else 1) ∧
    (o_starts o = 0 → starts (sc p) = -1) ∧
    (o_starts o ≠ -1 → o_starts o ≠ 0 → starts (sc p) = Z.max (o_starts o) (o_keep o)).
Proof.
  unfold opened in Hopen. apply Forall_cons in Htext as [Hn Htext]. apply Forall_app in Htext as [Ha Hr].
  apply andb_prop in Hopen as [[[[[[[[O1 O2]%andb_prop O3]%andb_prop O4]%andb_prop O5]%andb_prop O6]%andb_prop
    O7]%andb_prop O8]%andb_prop O9].
  destruct (get_collection_text _ _ _ Hcl Hr) as [Hlen Htx].
  destruct (prepare_zoo_spec env nm (o_keep o) z) as (z' & Hprep & Hz' & Hp'); try done; [lia|].
  assert (Hzoo : ∃ x, match o_zooname o with Some z => Some z | None => zoo_getname (env_ZOO env) end = Some x).
  { unfold zoo_getname. destruct (o_zooname o), (env_ZOO env); by eauto. }
  destruct Hzoo as [x Hzoo].
  unfold main_setup. rewrite Hnm, Hzoo, O2, andb_false_r, Hcl. simpl.
  rewrite (proj2 (Z.eqb_neq (cnt cl) 0)), ck32_ok by (unfold INT_MIN; lia). simpl.
  rewrite O3, O4, O5, O6, O7, O8, Hz, !andb_false_r, Hprep.
  rewrite (proj2 (Z.ltb_ge (o_keep o + 1) 0)), (proj2 (Z.eqb_neq (o_keep o + 1) 0)) by lia. simpl.
  set (cfg := Config _ _ _ _ _ _ _ _ _ _ _ _ _ _). set (s0 := default_starts _ _ _ _ _).
  assert (Hcfg : cfg_ok cfg) by (split; done).
  assert (Hi : inv cfg (af_pids z) (start_state cfg (o_fork o) s0 z')).
  { apply start_state_inv; [done|simpl; lia|done|]. simpl. rewrite Hp'. apply Permutation_cons_append. }
  pose proof (default_starts_spec (o_timed o) (o_seq o) (o_starts o) (o_keep o) (cnt cl) ltac:(lia) Hcnt) as Hs0.
  eexists cfg, _. split; [done|]. split; [done|].
  destruct (given (o_logfile o)); do 3 (split; [done|]); (split; [unfold alive, pgrps; apply nz_zeros|exact Hs0]).
Qed.

(** *** [-x 0] *)

(** Nothing can start or end. *)
Definition idle (p : pan (F := F)) : Prop :=
  num_active (tb p) = 0 ∧ stop (sc p) = 0 ∧ go_idle (sc p) = 0 ∧ rec_signal (sg p) = 0 ∧ starts (sc p) ≠ 0.
Definition nothing_happens (e : turn_env) : Prop :=
  t_sigs e = [] ∧ t_wait_sigs e = [] ∧ t_stop_file e = false ∧ wait_pid (t_wait e) < 0.

Lemma idle_turn strerror cfg e p :
  keep_active cfg = 0 → idle p → nothing_happens e → ∃ p', turn strerror cfg e p = Go (false, p') ∧ idle p'.
Proof.
  intros Hk (Ha & Hst & Hg & Hr & Hs) (E1 & E2 & E3 & E4). unfold turn.
  assert (Hl : start_loop strerror cfg (t_starts e) p = Go p).
  { destruct (t_starts e); cbn [start_loop]; unfold can_start; rewrite Ha, Hk; done. }
  rewrite Hl. simpl. rewrite E1, E2, E3.
  assert (Hc : check_starts cfg false p = p).
  { unfold check_starts. rewrite (proj2 (Z.eqb_neq _ _) Hs). by case_if. }
  rewrite Hc, !deliver_none, (handle_signal_none (t_kill e) (t_late e) p Hr).
  unfold check_pids. rewrite (proj2 (Z.ltb_lt _ _) E4).
  unfold check_orphans. destruct (check_orphans_loop _ _ _ _ _) as [[os z] f]. simpl. rewrite deliver_none. unfold handle_err. simpl.
  rewrite Hst, Hg. simpl. eexists. split; [done|]. by split_and!.
Qed.

(** With [-x 0] pan never ends: no test may be started, so the count of starts
    never gets to 0, and the loop turns for as long as no signal arrives. *)
Theorem keep_zero_spins strerror cfg fork s0 z es
  (Hk : keep_active cfg = 0) (Hs : s0 ≠ 0) (Hes : Forall nothing_happens es) :
  ∃ p', run strerror cfg es (start_state cfg fork s0 z) = Go (false, p').
Proof.
  assert (Hi : idle (start_state cfg fork s0 z)) by done. revert Hi. generalize (start_state cfg fork s0 z).
  induction Hes as [|e es He Hes IH]; intros p Hi; [by exists p|]. cbn [run].
  destruct (idle_turn strerror cfg e p Hk Hi He) as (p1 & -> & Hi1). by apply IH.
Qed.

End setup.

(** *** [-t] *)

Definition unit_of (c : ascii) : option Z :=
  if c =c "s"%char then Some 1 else if c =c "m"%char then Some 60
  else if c =c "h"%char then Some 3600 else if c =c "d"%char then Some 86400 else None.

Lemma sscanf_dc_digits n rest :
  0 ≤ n ≤ INT_MAX → match rest with [] => True | x :: _ => is_base 10 x = false ∧ (x =c "x"%char) = false ∧ (x =c "X"%char) = false end →
  sscanf_dc (digits 10 n ++ rest) = match rest with [] => Scan1 n | c :: _ => Scan2 n c end.
Proof.
  intros Hn Hr. destruct (digits_spec 10 n ltac:(lia) ltac:(lia)) as (Hne & Hds & _).
  unfold sscanf_dc. rewrite scan_number_digits by (try done; lia).
  rewrite atoi_digits by (try done; destruct rest; naive_solver).
  destruct (digits 10 n) as [|d ds]; [done|]. apply Forall_cons in Hds as [Hd _].
  destruct (is_base_digit 10 d ltac:(lia) Hd) as (Hsp & _).
  unfold skip_space. cbn [app span]. by rewrite Hsp.
Qed.

Lemma ck32_mul n m : 0 ≤ n → 0 ≤ m → of_res (ck32 (n * m)) = if n * m <=? INT_MAX then Go (n * m) else Crash.
Proof.
  intros Hn Hm. unfold ck32. rewrite (proj2 (Z.leb_le INT_MIN (n * m))) by (unfold INT_MIN; nia). simpl. by case_if.
Qed.

Lemma ck32_mul_bind {A} n m (f : Z → io A) :
  0 ≤ n → 0 ≤ m → of_res (ck32 (n * m)) ≫= f = if n * m <=? INT_MAX then f (n * m) else Crash.
Proof. intros Hn Hm. rewrite ck32_mul by done. by case_if. Qed.

(** An overflow on the way to a product is one of the product. *)
Lemma overflow_mul {A} n k (x y : A) :
  0 ≤ n → 0 < k → (if n <=? INT_MAX then if n * k <=? INT_MAX then x else y else y) = if n * k <=? INT_MAX then x else y.
Proof.
  intros Hn Hk. destruct (n <=? INT_MAX) eqn:E; [done|]. bool_hyps.
  by rewrite (proj2 (Z.leb_gt (n * k) INT_MAX)) by nia.
Qed.

(** [-t] with a unit is a time in seconds, minutes, hours or days, as long as
    the seconds fit an [int]; without a unit it is a time in seconds, although
    the message printed then says that minutes are assumed. *)
Theorem time_option_spec n o (Hn : 0 ≤ n ≤ INT_MAX) :
  time_option (digits 10 n) o = Go (set_time o true n (o_modifier o)) ∧
  ∀ c m, unit_of c = Some m →
    time_option (digits 10 n ++ [c]) o = if n * m <=? INT_MAX then Go (set_time o true (n * m) c) else Crash.
Proof.
  unfold time_option. split.
  - by rewrite <- (app_nil_r (digits 10 n)), sscanf_dc_digits.
  - intros c m Hu. rewrite sscanf_dc_digits; [|done|unfold unit_of in Hu; by repeat case_if_in Hu; destruct c as [[] [] [] [] [] [] [] []]].
    unfold unit_of in Hu. unfold apply_modifier.
    destruct (c =c "s"%char); [injection Hu as <-; by rewrite Z.mul_1_r, (proj2 (Z.leb_le n INT_MAX)) by lia|].
    destruct (c =c "m"%char); [injection Hu as <-; rewrite ck32_mul by lia; by case_if|].
    destruct (c =c "h"%char).
    { injection Hu as <-. replace (n * 3600) with (n * 60 * 60) by lia. by rewrite !ck32_mul_bind, overflow_mul by lia. }
    destruct (c =c "d"%char); [|done]. injection Hu as <-.
    replace (n * 86400) with (n * 60 * 60 * 24) by lia. by rewrite !ck32_mul_bind, !overflow_mul by lia.
Qed.

(** ** Witnesses *)

Definition ex_env : setup_env zoo :=
  SetupEnv None true (str "Mon Jan  1 00:00:00 2018") (SlurpEnv true true 10 (str "ok01 true" ++ [newline])) true true
    true true true true (Some (zoo_file [])) 50 [str "ltp-pan"; str "-n"; str "pan"] true [].
Definition ex_opts : opts :=
  Opts false true None true (Some (str "active")) None None (str "cmds") (Some (str "log")) (Some (str "pan")) None
    true false None (-1) false (-1) "m" 1 false.

(** These are the options [-e -S -a active -f cmds -l log -n pan -p]. *)
Lemma ex_opts_parsed :
  handle_opts [("e", []); ("S", []); ("a", str "active"); ("f", str "cmds"); ("l", str "log"); ("n", str "pan");
               ("p", [])]%char opts0 = Go ex_opts.
Proof. reflexivity. Qed.

Lemma main_setup_starts_witness :
  ∃ cfg p, main_setup ex_env ex_opts = Go (cfg, p, None) ∧ cfg_ok cfg ∧ inv cfg [] p.
Proof.
  destruct (main_setup_starts ex_env ex_opts (str "pan") (Collection 1 [CollEntry (str "ok01") (str "true") false])
    (zoo_file [])) as (cfg & p & H1 & H2 & H3 & _); try reflexivity.
  - unfold INT_MAX. simpl. lia.
  - unfold INT_MAX. simpl. lia.
  - by exists [].
  - discriminate.
  - repeat constructor.
  - exists cfg, p. split; [exact H1|]. split; [exact H2|exact H3].
Defined.

Lemma keep_zero_spins_witness :
  ∃ p', run ex_err (Config 0 false false false false false None true false false false (Collection 1 [inhabitant]) [] 50)
    (replicate 9 (TurnEnv [] false [] (λ _, 0) no_late (ex_wait (-1) 0) []))
    (start_state (F := zoo) (Config 0 false false false false false None true false false false (Collection 1 [inhabitant]) [] 50)
       false 1 ex_zoo) = Go (false, p').
Proof.
  apply keep_zero_spins; [reflexivity|discriminate|]. apply Forall_replicate. repeat split.
Defined.

Lemma time_option_spec_witness :
  time_option (str "90") opts0 = Go (set_time opts0 true 90 "m") ∧
  time_option (str "2h") opts0 = Go (set_time opts0 true 7200 "h").
Proof.
  split.
  - apply (time_option_spec 90 opts0). unfold INT_MAX. lia.
  - assert (H2 : 0 ≤ 2 ≤ INT_MAX) by (unfold INT_MAX; lia).
    exact (proj2 (time_option_spec 2 opts0 H2) "h"%char 3600 eq_refl).
Defined.
