(* ===== verification/Symbol.v ===== *)
(** * Symbol tables: pan/symbol.c

    The hierarchical tables of ltp-scanner: a table is a header with a linked
    list of entries, whose data is either the user's or another table.  The
    functions work on a heap of blocks addressed by pointers; what they do is
    stated on the tree that a pointer stands for. *)

From S2P Require Import Prelude CInt CMem CString Splitstr.
Local Open Scope Z_scope.

(** ** The heap *)

(** [struct symh] (its magic number is set once), [struct sym], and bytes: keys
    and the user's data. *)
Inductive obj : Type :=
| Header (sym cursor : Z)
| Node (next key data : Z)
| Blob (bytes : cstr).

(** Blocks, the next address, and which of the coming allocations fail (none once
    the list is used up). *)
Record heap : Type := Heap { blk : gmap Z obj; brk : Z; fails : list bool }.

(** A result with the new heap, undefined behaviour, a failed [assert], the exit
    of [splitstr], or a loop that was not given enough fuel. *)
Inductive out (A : Type) : Type :=
| Done (a : A) (h : heap)
| UB
| Abort
| Loop.
Arguments Done {A} _ _.
Arguments UB {A}.
Arguments Abort {A}.
Arguments Loop {A}.
Definition M (A : Type) : Type := heap → out A.
#[global] Instance M_ret : MRet M := λ A a h, Done a h.
#[global] Instance M_bind : MBind M := λ A B f m h,
  match m h with Done a h => f a h | UB => UB | Abort => Abort | Loop => Loop end.

Definition abort {A} : M A := λ _, Abort.
Definition loop {A} : M A := λ _, Loop.

Definition malloc (o : obj) : M Z := λ h,
  if default false (head (fails h)) then Done 0 (Heap (blk h) (brk h) (tail (fails h)))
  else Done (brk h) (Heap (<[brk h := o]> (blk h)) (brk h + 1) (tail (fails h))).
Definition free (p : Z) : M () := λ h,
  if p =? 0 then Done () h
  else if blk h !! p then Done () (Heap (delete p (blk h)) (brk h) (fails h)) else UB.
Definition load_header (p : Z) : M (Z * Z) := λ h,
  match blk h !! p with Some (Header s c) => Done (s, c) h | _ => UB end.
Definition load_node (p : Z) : M (Z * Z * Z) := λ h,
  match blk h !! p with Some (Node n k d) => Done (n, k, d) h | _ => UB end.
Definition write (p : Z) (o : obj) : M () := λ h,
  match blk h !! p with Some _ => Done () (Heap (<[p := o]> (blk h)) (brk h) (fails h)) | None => UB end.
(** The string at [p]. *)
Definition load_str (p : Z) : M cstr := λ h,
  match blk h !! p with
  | Some (Blob b) => if bool_decide (NUL ∈ b) then Done (as_string b) h else UB
  | _ => UB
  end.

Definition SYM_MAGIC : Z := 195936478.
(** [((SYM) p)->magic]: the first four bytes at [p], whatever is there. *)
Definition magic_of (o : obj) : option Z :=
  match o with
  | Header _ _ => Some SYM_MAGIC
  | Node n _ _ => Some (s32 n)
  | Blob (b0 :: b1 :: b2 :: b3 :: _) =>
      Some (s32 (code b0 + 256 * code b1 + 65536 * code b2 + 16777216 * code b3))
  | Blob _ => None
  end.
Definition load_magic (p : Z) : M Z := λ h,
  match blk h !! p ≫= magic_of with Some m => Done m h | None => UB end.

(** Enough steps to visit every block. *)
Definition steps (h : heap) : nat := S (size (blk h)).

(** ** Functions *)

Definition EEXIST : Z := 17.
Definition ENOTDIR : Z := 20.
Definition EINVAL : Z := 22.
Definition PUT_REPLACE : Z := 1.
Definition RM_KEY : Z := 1.
Definition RM_DATA : Z := 2.
Definition R_CURSOR : Z := 1.
Definition R_FIRST : Z := 2.
Definition R_NEXT : Z := 4.

Definition newsym : M Z := malloc (Header 0 0).

Definition strdup (s : cstr) : M Z := malloc (Blob (s ++ [NUL])).

Definition mknode (next : Z) (key : cstr) (data : Z) : M Z :=
  n ← malloc (Node 0 0 0);
  if n =? 0 then mret 0
  else
    k ← strdup key;
    _ ← write n (Node next k data);
    if k =? 0 then _ ← free n; mret 0 else mret n.

Fixpoint find_loop (fuel : nat) (sym : Z) (key : cstr) : M Z :=
  match fuel with
  | O => loop
  | S fuel =>
      if sym =? 0 then mret 0
      else
        r ← load_node sym;
        let '(next, k, _) := (r : Z * Z * Z) in
        s ← load_str k;
        if bool_decide (s = key) then mret sym else find_loop fuel next key
  end.
Definition find_key1 (sym : Z) (key : cstr) : M Z := λ h, find_loop (steps h) sym key h.

(** [for (sn = sym->sym; sn != NULL && sn->next != NULL; sn = sn->next)] *)
Fixpoint last_loop (fuel : nat) (sn : Z) : M Z :=
  match fuel with
  | O => loop
  | S fuel =>
      r ← load_node sn;
      let '(next, _, _) := (r : Z * Z * Z) in
      if next =? 0 then mret sn else last_loop fuel next
  end.

Definition last_entry (sn : Z) : M Z := λ h, last_loop (steps h) sn h.

Definition add_key (sym : Z) (key : cstr) (data : Z) : M Z :=
  r ← load_header sym;
  let '(first, cursor) := (r : Z * Z) in
  if first =? 0 then
    n ← mknode 0 key data;
    _ ← write sym (Header n cursor);
    mret (if n =? 0 then -1 else 0)
  else
    sn ← last_entry first;
    n ← mknode 0 key data;
    r ← load_node sn;
    let '(_, k, d) := (r : Z * Z * Z) in
    _ ← write sn (Node n k d);
    if n =? 0 then abort else mret 0.

Definition sym_open : M Z := newsym.

(** The search of [sym_put] and [sym_get]: the keys that are left, the table and
    the entry in which it ended; [None] when an entry on the way is no table. *)
Fixpoint walk (kk : list cstr) (csym nsym : Z) : M (option (list cstr * Z * Z)) :=
  match kk with
  | [] => mret (Some ([], csym, nsym))
  | k :: kk' =>
      r ← load_header csym;
      n ← find_key1 (fst (r : Z * Z)) k;
      if n =? 0 then mret (Some (kk, csym, 0))
      else
        match kk' with
        | [] => mret (Some ([], csym, n))
        | _ =>
            r ← load_node n;
            let '(_, _, d) := (r : Z * Z * Z) in
            if d =? 0 then mret None
            else
              magic ← load_magic d;
              if negb (magic =? SYM_MAGIC) then mret None else walk kk' d n
        end
  end.

(** New entries for the keys that are left. *)
Fixpoint add_keys (kk : list cstr) (csym data : Z) : M () :=
  match kk with
  | [] => mret ()
  | k :: kk' =>
      match kk' with
      | [] => _ ← add_key csym k data; mret ()
      | _ => ncsym ← newsym; _ ← add_key csym k ncsym; add_keys kk' ncsym data
      end
  end.

(** The strings of the array up to its null pointer. *)
Fixpoint key_list (a : list cell) : list cstr :=
  match a with Tok t :: a => t :: key_list a | _ => [] end.

(** [splitstr(key, ",", NULL)]; [None] for NULL. *)
Definition split_key (al : split_alloc) (key : cstr) : M (option (list cstr)) := λ h,
  match splitstr al (Some key) (Some (str ",")) with
  | Ret (SplitArray a _) => Done (Some (key_list a)) h
  | Ret SplitNull => Done None h
  | Ret SplitExit => Abort
  | _ => UB
  end.

Definition sym_put (al : split_alloc) (sym : Z) (key : cstr) (data flags : Z) : M Z :=
  if sym =? 0 then mret EINVAL
  else
    keys ← split_key al key;
    match keys with
    | None => mret EINVAL
    | Some keys =>
        r ← walk keys sym 0;
        match r with
        | None => mret ENOTDIR
        | Some ([], _, nsym) =>
            if flags =? PUT_REPLACE then
              r ← load_node nsym;
              let '(next, k, _) := (r : Z * Z * Z) in
              _ ← write nsym (Node next k data); mret 0
            else mret EEXIST
        | Some (kk, csym, _) => _ ← add_keys kk csym data; mret 0
        end
    end.

Definition sym_get (al : split_alloc) (sym : Z) (key : cstr) : M Z :=
  if sym =? 0 then mret 0
  else
    keys ← split_key al key;
    match keys with
    | None => mret 0
    | Some keys =>
        r ← walk keys sym 0;
        match r with
        | Some ([], _, nsym) => r ← load_node nsym; let '(_, _, d) := (r : Z * Z * Z) in mret d
        | _ => mret 0
        end
    end.

(** The result, and what [key->data] and [data->data] are set to. *)
Definition seq_item (sym : Z) : M (Z * option (Z * Z)) :=
  r ← load_header sym;
  let '(_, cursor) := (r : Z * Z) in
  if cursor =? 0 then mret (1, None)
  else
    r ← load_node cursor;
    let '(_, k, d) := (r : Z * Z * Z) in
    mret (0, Some (k, d)).

Definition sym_seq (al : split_alloc) (sym : Z) (key : cstr) (flags : Z) : M (Z * option (Z * Z)) :=
  if flags =? R_CURSOR then
    csym ← sym_get al sym key;
    if csym =? 0 then mret (2, None)
    else
      magic ← load_magic csym;
      if negb (magic =? SYM_MAGIC) then mret (2, None)
      else
        c ← load_header csym;
        r ← load_header sym;
        _ ← write sym (Header (fst (r : Z * Z)) (fst (c : Z * Z)));
        seq_item sym
  else if flags =? R_FIRST then
    r ← load_header sym;
    let '(first, _) := (r : Z * Z) in
    _ ← write sym (Header first first);
    seq_item sym
  else if flags =? R_NEXT then
    r ← load_header sym;
    let '(first, cursor) := (r : Z * Z) in
    if cursor =? 0 then mret (1, None)
    else
      r ← load_node cursor;
      let '(next, _, _) := (r : Z * Z * Z) in
      _ ← write sym (Header first next);
      seq_item sym
  else mret (-1, None).

(** The quotes that show the depth. *)
Fixpoint indent (depth : nat) : cstr :=
  match depth with O => [] | S d => ["034"%char; " "%char] ++ indent d end.

(** The body of [sym_dump], given what its loop prints from an entry on. *)
Definition dump_body (entries : Z → nat → M cstr) (sym : Z) (depth : nat) : M (Z * cstr) :=
  if sym =? 0 then mret (-1, [])
  else
    magic ← load_magic sym;
    if negb (magic =? SYM_MAGIC) then mret (-1, [])
    else
      r ← load_header sym;
      text ← entries (fst (r : Z * Z)) depth;
      mret (0, text).

Fixpoint dump_loop (fuel : nat) (se : Z) (depth : nat) : M cstr :=
  match fuel with
  | O => loop
  | S fuel =>
      if se =? 0 then mret []
      else
        r ← load_node se;
        let '(next, k, d) := (r : Z * Z * Z) in
        key ← load_str k;
        below ← dump_body (dump_loop fuel) d (S depth);
        rest ← dump_loop fuel next depth;
        mret (indent depth ++ key ++ ["010"%char] ++ snd (below : Z * cstr) ++ rest)
  end.

Definition sym_dump (sym : Z) (depth : nat) : M (Z * cstr) := λ h, dump_body (dump_loop (steps h)) sym depth h.

(** [fmt_p] is the text of [%p]. *)
Fixpoint dump_s_loop (fmt_p : Z → cstr) (fuel : nat) (se : Z) (depth : nat) : M cstr :=
  match fuel with
  | O => loop
  | S fuel =>
      if se =? 0 then mret []
      else
        r ← load_node se;
        let '(next, k, d) := (r : Z * Z * Z) in
        key ← load_str k;
        magic ← load_magic d;
        item ← (if magic =? SYM_MAGIC then
                  r ← load_header d;
                  below ← dump_s_loop fmt_p fuel (fst (r : Z * Z)) (S depth);
                  mret ("010"%char :: below)
                else
                  v ← load_str d;
                  mret (str "(" ++ fmt_p k ++ str ") = " ++ v ++ str " (" ++ fmt_p d ++ str ")" ++ ["010"%char]));
        rest ← dump_s_loop fmt_p fuel next depth;
        mret (indent depth ++ key ++ item ++ rest)
  end.

Definition sym_dump_s (fmt_p : Z → cstr) (sym : Z) (depth : nat) : M (Z * cstr) :=
  if sym =? 0 then mret (0, [])
  else
    magic ← load_magic sym;
    if negb (magic =? SYM_MAGIC) then
      v ← load_str sym; mret (0, indent depth ++ str " = " ++ v ++ ["010"%char])
    else
      r ← load_header sym;
      text ← (λ h, dump_s_loop fmt_p (steps h) (fst (r : Z * Z)) depth h) : M cstr;
      mret (0, text).

Definition has_flag (flags f : Z) : bool := negb (Z.land flags f =? 0).

(** The body of [sym_rm], given what its loop does from an entry on. *)
Definition rm_body (entries : Z → M ()) (sym flags : Z) : M () :=
  if sym =? 0 then mret ()
  else
    magic ← load_magic sym;
    if negb (magic =? SYM_MAGIC) then if has_flag flags RM_DATA then mret () else free sym
    else
      r ← load_header sym;
      _ ← entries (fst (r : Z * Z));
      if has_flag flags RM_DATA then mret () else free sym.

(** One turn of the loop: the next entry. *)
Definition rm_entry (entries : Z → M ()) (se flags : Z) : M Z :=
  r ← load_node se;
  _ ← rm_body entries (snd (r : Z * Z * Z)) flags;
  r ← load_node se;
  let '(nse, k, d) := (r : Z * Z * Z) in
  _ ← (if has_flag flags RM_KEY then free k else mret ());
  _ ← (if has_flag flags RM_DATA then free d else mret ());
  _ ← free se;
  mret nse.

Fixpoint rm_loop (fuel : nat) (se flags : Z) : M () :=
  match fuel with
  | O => loop
  | S fuel =>
      if se =? 0 then mret ()
      else nse ← rm_entry (λ p, rm_loop fuel p flags) se flags; rm_loop fuel nse flags
  end.

Definition sym_rm (sym flags : Z) : M Z :=
  _ ← (λ h, rm_body (λ p, rm_loop (steps h) p flags) sym flags h) : M ();
  mret 0.

(** ** Trees *)

(** What a pointer to a table stands for, with the addresses of the blocks. *)
Inductive tree : Type :=
| Leaf (d : Z)
| Dir (a cursor : Z) (f : forest)
with forest : Type :=
| FNil
| FCons (n k : Z) (key : cstr) (t : tree) (f : forest).

Scheme tree_rect2 := Induction for tree Sort Prop
  with forest_rect2 := Induction for forest Sort Prop.
Combined Scheme tree_forest_ind from tree_rect2, forest_rect2.

Definition ptr_of (t : tree) : Z := match t with Leaf d => d | Dir a _ _ => a end.
Definition first_of (f : forest) : Z := match f with FNil => 0 | FCons n _ _ _ _ => n end.

(** The blocks of a tree, and the user's data in it. *)
Fixpoint tblocks (t : tree) : list (Z * obj) :=
  match t with
  | Leaf _ => []
  | Dir a c f => (a, Header (first_of f) c) :: fblocks f
  end
with fblocks (f : forest) : list (Z * obj) :=
  match f with
  | FNil => []
  | FCons n k key t f =>
      (n, Node (first_of f) k (ptr_of t)) :: (k, Blob (key ++ [NUL])) :: tblocks t ++ fblocks f
  end.
Fixpoint tleaves (t : tree) : list Z :=
  match t with
  | Leaf d => if d =? 0 then [] else [d]
  | Dir _ _ f => fleaves f
  end
with fleaves (f : forest) : list Z :=
  match f with
  | FNil => []
  | FCons _ _ _ t f => tleaves t ++ fleaves f
  end.
Fixpoint tkeys (t : tree) : list cstr :=
  match t with Leaf _ => [] | Dir _ _ f => fkeys f end
with fkeys (f : forest) : list cstr :=
  match f with FNil => [] | FCons _ _ key t f => key :: tkeys t ++ fkeys f end.

(** Looking up a path. *)
Fixpoint find_tree (f : forest) (k : cstr) : option tree :=
  match f with
  | FNil => None
  | FCons _ _ key t f => if bool_decide (key = k) then Some t else find_tree f k
  end.
Fixpoint lookup_path (t : tree) (q : list cstr) : option tree :=
  match q with
  | [] => Some t
  | k :: q =>
      match t with
      | Leaf _ => None
      | Dir _ _ f => t' ← find_tree f k; lookup_path t' q
      end
  end.

(** What is at a path: data or a table. *)
Inductive value : Type := VData (d : Z) | VTable.
Definition kind (t : tree) : value := match t with Leaf d => VData d | Dir _ _ _ => VTable end.
Definition view (t : tree) (q : list cstr) : option value := kind <$> lookup_path t q.

(** The blocks are in the heap. *)
Definition holds (h : heap) (bs : list (Z * obj)) : Prop := Forall (λ b, blk h !! b.1 = Some b.2) bs.
(** The user's data can be told from a table. *)
Definition data_ok (h : heap) (d : Z) : Prop :=
  ∃ b m, blk h !! d = Some (Blob b) ∧ magic_of (Blob b) = Some m ∧ m ≠ SYM_MAGIC.
(** The addresses in use. *)
Definition good (h : heap) : Prop := 0 < brk h ∧ ∀ a o, blk h !! a = Some o → 0 < a < brk h.
Definition addrs (bs : list (Z * obj)) : list Z := map fst bs.

Definition no_nul (s : cstr) : Prop := Forall (λ c, (c =c NUL) = false) s.

(** Blocks, user data and keys in the heap; a tree and a forest in it. *)
Record seg (h : heap) (bs : list (Z * obj)) (ls : list Z) (ks : list cstr) : Prop := {
  seg_holds : holds h bs;
  seg_nodup : NoDup (addrs bs);
  seg_leaves : Forall (λ d, data_ok h d ∧ d ∉ addrs bs) ls;
  seg_keys : Forall no_nul ks
}.
Definition tree_in (h : heap) (t : tree) : Prop := seg h (tblocks t) (tleaves t) (tkeys t).
Definition forest_in (h : heap) (f : forest) : Prop := seg h (fblocks f) (fleaves f) (fkeys f).

(** *** Basic facts *)

Lemma addrs_app b1 b2 : addrs (b1 ++ b2) = addrs b1 ++ addrs b2.
Proof. apply map_app. Qed.

Lemma addrs_cons a o bs : addrs ((a, o) :: bs) = a :: addrs bs.
Proof. done. Qed.

Lemma Forall_sub {A} (P : A → Prop) l l' : Forall P l → l' ⊆+ l → Forall P l'.
Proof. intros Hl (k & Hp)%submseteq_Permutation. rewrite Hp in Hl. by apply Forall_app in Hl as [? _]. Qed.

Lemma seg_sub h bs ls ks bs' ls' ks' :
  seg h bs ls ks → bs' ⊆+ bs → ls' ⊆+ ls → ks' ⊆+ ks → seg h bs' ls' ks'.
Proof.
  intros [H1 H2 H3 H4] Hb Hl Hk.
  assert (Ha : addrs bs' ⊆+ addrs bs) by (by apply fmap_submseteq).
  split; [by eapply Forall_sub| | |by eapply Forall_sub].
  - destruct (submseteq_Permutation _ _ Ha) as (k & Hp). rewrite Hp in H2. by apply NoDup_app in H2 as [? _].
  - eapply Forall_impl; [by eapply Forall_sub|]. intros d [Hd Hn]. split; [done|].
    intros Hin. apply Hn. by eapply elem_of_submseteq.
Qed.

Lemma tree_in_dir h a c f :
  tree_in h (Dir a c f) → blk h !! a = Some (Header (first_of f) c) ∧ forest_in h f.
Proof.
  intros Ht. split; [by pose proof (seg_holds _ _ _ _ Ht) as [? _]%Forall_cons|].
  eapply seg_sub; [exact Ht|by apply submseteq_cons|done|done].
Qed.

Lemma forest_in_cons h n k key t f :
  forest_in h (FCons n k key t f) →
  blk h !! n = Some (Node (first_of f) k (ptr_of t)) ∧ blk h !! k = Some (Blob (key ++ [NUL])) ∧ no_nul key ∧
  tree_in h t ∧ forest_in h f.
Proof.
  intros Hf. pose proof (seg_holds _ _ _ _ Hf) as [H1 [H2 _]%Forall_cons]%Forall_cons.
  pose proof (seg_keys _ _ _ _ Hf) as [H3 _]%Forall_cons. split_and!; try done.
  - eapply seg_sub; [exact Hf|..]; simpl.
    + by do 2 apply submseteq_cons; apply submseteq_inserts_r.
    + by apply submseteq_inserts_r.
    + by apply submseteq_cons, submseteq_inserts_r.
  - eapply seg_sub; [exact Hf|..]; simpl.
    + by do 2 apply submseteq_cons; apply submseteq_inserts_l.
    + by apply submseteq_inserts_l.
    + by apply submseteq_cons, submseteq_inserts_l.
Qed.

(** There is fuel for every list of distinct blocks. *)
Lemma blocks_size h bs : holds h bs → NoDup (addrs bs) → (length bs ≤ size (blk h))%nat.
Proof.
  intros Hh Hn. assert (Hl : length bs = length (addrs bs)) by (unfold addrs; by rewrite length_map).
  rewrite Hl, <- size_dom, <- (size_list_to_set (C := gset Z) _ Hn).
  apply subseteq_size. intros x Hx. apply elem_of_list_to_set, list_elem_of_fmap in Hx as ([a o] & -> & Hin).
  unfold holds in Hh. rewrite Forall_forall in Hh. apply Hh in Hin. by apply elem_of_dom_2 in Hin.
Qed.

Lemma load_key h k key : blk h !! k = Some (Blob (key ++ [NUL])) → no_nul key → load_str k h = Done key h.
Proof.
  intros Hk Hn. unfold load_str. rewrite Hk, bool_decide_eq_true_2 by set_solver.
  f_equal. unfold as_string. rewrite span_app; [done| |done].
  eapply Forall_impl; [exact Hn|]. simpl. by intros c ->.
Qed.

(** *** Searching *)

Fixpoint find_entry (f : forest) (k : cstr) : option (Z * tree) :=
  match f with
  | FNil => None
  | FCons n _ key t f => if bool_decide (key = k) then Some (n, t) else find_entry f k
  end.

Lemma find_entry_tree f k : find_tree f k = snd <$> find_entry f k.
Proof. induction f as [|n ka key t f IH]; simpl; [done|]. by case_if. Qed.

Lemma find_entry_node h f k n t :
  good h → forest_in h f → find_entry f k = Some (n, t) →
  0 < n ∧ (∃ next ka, blk h !! n = Some (Node next ka (ptr_of t))) ∧ tree_in h t.
Proof.
  intros Hg. induction f as [|n' ka key t' f IH]; simpl; [done|]. intros Hf Hfind.
  destruct (forest_in_cons _ _ _ _ _ _ Hf) as (H1 & _ & _ & Ht & Hf').
  case_if_in Hfind; [|by apply IH]. simplify_eq. split; [|eauto]. destruct Hg as [_ Hg]. apply Hg in H1. lia.
Qed.

Lemma find_loop_spec h f k fuel :
  good h → forest_in h f → (length (fblocks f) < fuel)%nat →
  find_loop fuel (first_of f) k h = Done (match find_entry f k with Some (n, _) => n | None => 0 end) h.
Proof.
  intros Hg. revert fuel. induction f as [|n ka key t f IH]; intros [|fuel] Hf Hlen; try (simpl in Hlen; lia); [done|].
  destruct (forest_in_cons _ _ _ _ _ _ Hf) as (H1 & H2 & H3 & _ & Hf'). cbn [find_loop first_of find_entry].
  destruct Hg as [Hb Hg]. rewrite (proj2 (Z.eqb_neq n 0)) by (apply Hg in H1; lia).
  unfold mbind, M_bind, load_node. rewrite H1, (load_key h ka key) by done.
  case_if; [done|]. apply IH; [done|]. simpl in Hlen. rewrite length_app in Hlen. lia.
Qed.

Lemma find_key1_spec h f k :
  good h → forest_in h f →
  find_key1 (first_of f) k h = Done (match find_entry f k with Some (n, _) => n | None => 0 end) h.
Proof.
  intros Hg Hf. apply find_loop_spec; [done|done|].
  pose proof (blocks_size h _ (seg_holds _ _ _ _ Hf) (seg_nodup _ _ _ _ Hf)). unfold steps. lia.
Qed.

(** *** Changing the heap *)

(** The blocks [bs] became [bs'], with new blocks at new addresses, and nothing
    else changed. *)
Record extends (h : heap) (bs : list (Z * obj)) (h' : heap) (bs' : list (Z * obj)) : Prop := {
  ext_holds : holds h' bs';
  ext_nodup : NoDup (addrs bs');
  ext_new : Forall (λ x, x ∈ addrs bs ∨ brk h ≤ x) (addrs bs');
  ext_frame : ∀ x, x ∉ addrs bs → x < brk h → blk h' !! x = blk h !! x;
  ext_brk : brk h ≤ brk h';
  ext_good : good h';
  ext_fails : fails h' = []
}.

#[global] Instance extends_proper h :
  Proper (Permutation ==> eq ==> Permutation ==> iff) (extends h).
Proof.
  intros b1 b1' Hb h' h'' -> b2 b2' Hb'.
  assert (Ha : addrs b1 ≡ₚ addrs b1') by (by apply Permutation_map).
  assert (Ha' : addrs b2 ≡ₚ addrs b2') by (by apply Permutation_map).
  split; intros [H1 H2 H3 H4 H5 H6 H7]; split; try done.
  - unfold holds in *. by rewrite <- Hb'.
  - by rewrite <- Ha'.
  - rewrite <- Ha'. eapply Forall_impl; [exact H3|]. intros x. simpl. by rewrite Ha.
  - intros x. rewrite <- Ha. apply H4.
  - unfold holds in *. by rewrite Hb'.
  - by rewrite Ha'.
  - rewrite Ha'. eapply Forall_impl; [exact H3|]. intros x. simpl. by rewrite Ha.
  - intros x. rewrite Ha. apply H4.
Qed.

Lemma extends_refl h bs : holds h bs → NoDup (addrs bs) → good h → fails h = [] → extends h bs h bs.
Proof. intros. split; try done. apply Forall_forall. auto. Qed.

Lemma extends_trans h0 b0 h1 b1 h2 b2 : extends h0 b0 h1 b1 → extends h1 b1 h2 b2 → extends h0 b0 h2 b2.
Proof.
  intros [H1 H2 H3 H4 H5 H6 H7] [K1 K2 K3 K4 K5 K6 K7]. rewrite Forall_forall in H3.
  split; try done; [| |lia].
  - eapply Forall_impl; [exact K3|]. intros x [Hx|?]; [by apply H3 in Hx|]. right. lia.
  - intros x Hx Hlt. rewrite K4; [by apply H4| |lia]. intros Hin. apply H3 in Hin as [?|?]; [done|lia].
Qed.

(** Blocks that are not touched. *)
Lemma extends_frame h bs h' bs' c :
  good h → holds h c → NoDup (addrs (bs ++ c)) → extends h bs h' bs' → extends h (bs ++ c) h' (bs' ++ c).
Proof.
  intros [_ Hg] Hc Hn [H1 H2 H3 H4 H5 H6 H7]. rewrite addrs_app in Hn.
  apply NoDup_app in Hn as (Hn1 & Hdis & Hn2).
  assert (Hlt : ∀ x, x ∈ addrs c → x < brk h).
  { intros x Hx. apply list_elem_of_fmap in Hx as ([a o] & -> & Hin). unfold holds in Hc. rewrite Forall_forall in Hc.
    apply Hc, Hg in Hin. simpl in *. lia. }
  split; try done.
  - apply Forall_app. split; [done|]. apply Forall_forall. intros [a o] Hin. simpl.
    assert (Ha : a ∈ addrs c) by (by apply (list_elem_of_fmap_2 fst) in Hin).
    rewrite H4; [|intros Hb; by apply (Hdis a)|by apply Hlt]. unfold holds in Hc. rewrite Forall_forall in Hc. by apply (Hc (a, o)).
  - rewrite addrs_app. apply NoDup_app. split_and!; [done| |done]. intros x Hx Hxc. rewrite Forall_forall in H3.
    apply H3 in Hx as [Hx|Hx]; [by apply (Hdis x)|]. apply Hlt in Hxc. lia.
  - rewrite !addrs_app. apply Forall_app. split; apply Forall_forall; intros x Hx.
    + rewrite Forall_forall in H3. apply H3 in Hx as [?|?]; [left; set_solver|auto].
    + left. set_solver.
  - intros x Hx Hxlt. apply H4; [|done]. rewrite addrs_app in Hx. set_solver.
Qed.

(** Blocks that are forgotten. *)
Lemma extends_drop h bs h' b1 b2 : extends h bs h' (b1 ++ b2) → extends h bs h' b1.
Proof.
  intros [H1 H2 H3 H4 H5 H6 H7]. rewrite addrs_app in H2, H3. apply Forall_app in H1 as [? _], H3 as [? _].
  apply NoDup_app in H2 as [? _]. by split.
Qed.

Lemma malloc_spec h o :
  good h → fails h = [] →
  ∃ h', malloc o h = Done (brk h) h' ∧ extends h [] h' [(brk h, o)] ∧ brk h' = brk h + 1.
Proof.
  intros [Hb Hg] Hf. eexists. unfold malloc. rewrite Hf. simpl. split; [done|]. split; [|done]. split; simpl; try done.
  - constructor; [|constructor]. simpl. by rewrite lookup_insert_eq.
  - apply NoDup_singleton.
  - constructor; [|constructor]. by right.
  - intros x _ Hx. by rewrite lookup_insert_ne by lia.
  - lia.
  - split; simpl; [lia|]. intros a o' Ha. apply lookup_insert_Some in Ha as [[<- _]|[_ Ha]]; [lia|]. apply Hg in Ha. lia.
Qed.

Lemma write_spec h p o o' :
  good h → fails h = [] → blk h !! p = Some o → ∃ h', write p o' h = Done () h' ∧ extends h [(p, o)] h' [(p, o')].
Proof.
  intros [Hb Hg] Hf Hp. eexists. unfold write. rewrite Hp. split; [done|]. split; simpl; try done.
  - constructor; [|constructor]. simpl. by rewrite lookup_insert_eq.
  - apply NoDup_singleton.
  - constructor; [|constructor]. left. left.
  - intros x Hx _. rewrite lookup_insert_ne; [done|]. set_solver.
  - split; simpl; [lia|]. intros a o'' Ha. apply lookup_insert_Some in Ha as [[<- _]|[_ Ha]]; [by apply Hg in Hp|by apply Hg in Ha].
Qed.

(** Changing one block among others. *)
Lemma write_in h p o o' c :
  good h → fails h = [] → holds h ((p, o) :: c) → NoDup (addrs ((p, o) :: c)) →
  ∃ h', write p o' h = Done () h' ∧ extends h ((p, o) :: c) h' ((p, o') :: c).
Proof.
  intros Hg Hf Hh Hn. pose proof Hh as [Hp Hc]%Forall_cons. destruct (write_spec h p o o' Hg Hf Hp) as (h' & Hw & He).
  exists h'. split; [done|]. change (extends h ([(p, o)] ++ c) h' ([(p, o')] ++ c)). by apply extends_frame.
Qed.

Lemma malloc_in h o c :
  good h → fails h = [] → holds h c → NoDup (addrs c) →
  ∃ h', malloc o h = Done (brk h) h' ∧ extends h c h' ((brk h, o) :: c).
Proof.
  intros Hg Hf Hc Hn. destruct (malloc_spec h o Hg Hf) as (h' & Hm & He & _). exists h'. split; [done|].
  change (extends h ([] ++ c) h' ([(brk h, o)] ++ c)). by apply extends_frame.
Qed.

(** A new entry. *)
Lemma mknode_spec h next key data c :
  good h → fails h = [] → holds h c → NoDup (addrs c) →
  ∃ n k h', mknode next key data h = Done n h' ∧ 0 < n ∧
    extends h c h' ((n, Node next k data) :: (k, Blob (key ++ [NUL])) :: c).
Proof.
  intros Hg Hf Hc Hn. destruct (malloc_in h (Node 0 0 0) c Hg Hf Hc Hn) as (h1 & Hm1 & E1).
  destruct (malloc_in h1 (Blob (key ++ [NUL])) _ (ext_good _ _ _ _ E1) (ext_fails _ _ _ _ E1) (ext_holds _ _ _ _ E1) (ext_nodup _ _ _ _ E1)) as (h2 & Hm2 & E2).
  rewrite (Permutation_swap (brk h, Node 0 0 0)) in E2.
  destruct (write_in h2 (brk h) (Node 0 0 0) (Node next (brk h1) data) ((brk h1, Blob (key ++ [NUL])) :: c)
    (ext_good _ _ _ _ E2) (ext_fails _ _ _ _ E2) (ext_holds _ _ _ _ E2) (ext_nodup _ _ _ _ E2)) as (h3 & Hw & E3).
  pose proof (proj1 Hg) as Hb. pose proof (ext_brk _ _ _ _ E1).
  exists (brk h), (brk h1), h3. unfold mknode, strdup, mbind, M_bind. rewrite Hm1.
  rewrite (proj2 (Z.eqb_neq (brk h) 0)) by lia. rewrite Hm2, Hw, (proj2 (Z.eqb_neq (brk h1) 0)) by lia.
  split; [done|]. split; [done|]. by eapply extends_trans; [eapply extends_trans|].
Qed.

(** *** Adding an entry *)

Fixpoint snoc_entry (f : forest) (n k : Z) (key : cstr) (t : tree) : forest :=
  match f with
  | FNil => FCons n k key t FNil
  | FCons n' k' key' t' f => FCons n' k' key' t' (snoc_entry f n k key t)
  end.

(** The last entry of a list, as the loop finds it. *)
Lemma last_entry_spec h f :
  good h → forest_in h f → f ≠ FNil →
  ∃ l kl dl rest, fblocks f ≡ₚ (l, Node 0 kl dl) :: rest ∧
    (∀ fuel, (length (fblocks f) < fuel)%nat → last_loop fuel (first_of f) h = Done l h) ∧
    ∀ n k key t, fblocks (snoc_entry f n k key t) ≡ₚ
      (l, Node n kl dl) :: rest ++ fblocks (FCons n k key t FNil).
Proof.
  intros Hg. induction f as [|n0 k0 key0 t0 f IH]; [done|]. intros Hf _.
  destruct (forest_in_cons _ _ _ _ _ _ Hf) as (H1 & _ & _ & _ & Hf').
  destruct f as [|n1 k1 key1 t1 f].
  - exists n0, k0, (ptr_of t0), ((k0, Blob (key0 ++ [NUL])) :: tblocks t0). split_and!.
    + simpl. by rewrite app_nil_r.
    + intros [|fuel] Hl; [simpl in Hl; lia|]. cbn [last_loop first_of]. unfold mbind, M_bind, load_node. by rewrite H1.
    + intros. simpl. by rewrite app_nil_r.
  - destruct (IH Hf' ltac:(done)) as (l & kl & dl & rest & Hp & Hloop & Happ).
    exists l, kl, dl, ((n0, Node n1 k0 (ptr_of t0)) :: (k0, Blob (key0 ++ [NUL])) :: tblocks t0 ++ rest). split_and!.
    + cbn [fblocks] in *. rewrite Hp. cbn [first_of]. solve_Permutation.
    + intros [|fuel] Hl; [simpl in Hl; lia|]. cbn [last_loop first_of]. unfold mbind, M_bind, load_node. rewrite H1.
      destruct (forest_in_cons _ _ _ _ _ _ Hf') as (H2 & _). destruct Hg as [_ Hg].
      cbn [first_of]. rewrite (proj2 (Z.eqb_neq n1 0)) by (apply Hg in H2; lia). apply Hloop.
      simpl in *. rewrite length_app in Hl. simpl in Hl. lia.
    + intros n k key t. cbn [snoc_entry]. specialize (Happ n k key t). cbn [snoc_entry] in Happ.
      cbn [fblocks] in *. rewrite Happ. cbn [first_of]. solve_Permutation.
Qed.

(** [add_key] puts an entry for [t] at the end of a table. *)
Lemma add_key_spec h a c f key t :
  good h → fails h = [] → tree_in h (Dir a c f) → holds h (tblocks t) →
  NoDup (addrs (tblocks (Dir a c f) ++ tblocks t)) →
  ∃ n k h', add_key a key (ptr_of t) h = Done 0 h' ∧
    extends h (tblocks (Dir a c f) ++ tblocks t) h' (tblocks (Dir a c (snoc_entry f n k key t))).
Proof.
  intros Hg Hfl Ht Hbt Hn. destruct (tree_in_dir _ _ _ _ Ht) as [Ha Hf].
  assert (Hall : holds h (tblocks (Dir a c f) ++ tblocks t)) by (apply Forall_app; split; [apply Ht|done]).
  destruct (mknode_spec h 0 key (ptr_of t) _ Hg Hfl Hall Hn) as (n & k & h1 & Hmk & Hn0 & E1).
  pose proof (ext_good _ _ _ _ E1) as Hg1. pose proof (ext_fails _ _ _ _ E1) as Hf1.
  unfold add_key, mbind, M_bind. unfold load_header. rewrite Ha. destruct f as [|n0 k0 key0 t0 f].
  - cbn [first_of]. change (0 =? 0) with true. cbn beta iota. rewrite Hmk.
    assert (Hp : (n, Node 0 k (ptr_of t)) :: (k, Blob (key ++ [NUL])) :: tblocks (Dir a c FNil) ++ tblocks t ≡ₚ
      (a, Header 0 c) :: (n, Node 0 k (ptr_of t)) :: (k, Blob (key ++ [NUL])) :: tblocks t) by (simpl; solve_Permutation).
    rewrite Hp in E1.
    destruct (write_in h1 a (Header 0 c) (Header n c) _ Hg1 Hf1 (ext_holds _ _ _ _ E1) (ext_nodup _ _ _ _ E1)) as (h2 & Hw & E2).
    exists n, k, h2. rewrite Hw, (proj2 (Z.eqb_neq n 0)) by lia. split; [done|].
    cbn [tblocks snoc_entry fblocks first_of]. rewrite app_nil_r. by eapply extends_trans.
  - destruct (last_entry_spec h _ Hg Hf ltac:(done)) as (l & kl & dl & rest & Hp & Hloop & Happ).
    pose proof (forest_in_cons _ _ _ _ _ _ Hf) as (Hn00 & _). cbn [first_of] in *.
    rewrite (proj2 (Z.eqb_neq n0 0)) by (apply (proj2 Hg) in Hn00; lia). unfold last_entry. cbn beta iota. rewrite Hloop.
    2:{ pose proof (blocks_size h _ (seg_holds _ _ _ _ Hf) (seg_nodup _ _ _ _ Hf)). unfold steps. lia. }
    rewrite Hmk. set (f0 := FCons n0 k0 key0 t0 f) in *.
    assert (Hp1 : (n, Node 0 k (ptr_of t)) :: (k, Blob (key ++ [NUL])) :: tblocks (Dir a c f0) ++ tblocks t ≡ₚ
      (l, Node 0 kl dl) :: (n, Node 0 k (ptr_of t)) :: (k, Blob (key ++ [NUL])) :: (a, Header n0 c) :: rest ++ tblocks t).
    { cbn [tblocks]. rewrite Hp. change (first_of f0) with n0. solve_Permutation. }
    rewrite Hp1 in E1.
    destruct (write_in h1 l (Node 0 kl dl) (Node n kl dl) _ Hg1 Hf1 (ext_holds _ _ _ _ E1) (ext_nodup _ _ _ _ E1)) as (h2 & Hw & E2).
    pose proof (ext_holds _ _ _ _ E1) as [Hl _]%Forall_cons. simpl in Hl. unfold load_node. rewrite Hl, Hw.
    exists n, k, h2. rewrite (proj2 (Z.eqb_neq n 0)) by lia. split; [done|].
    cbn [tblocks]. rewrite Happ. change (first_of (snoc_entry f0 n k key t)) with n0.
    assert (Hp2 : (a, Header n0 c) :: (l, Node n kl dl) :: rest ++ fblocks (FCons n k key t FNil) ≡ₚ
      (l, Node n kl dl) :: (n, Node 0 k (ptr_of t)) :: (k, Blob (key ++ [NUL])) :: (a, Header n0 c) :: rest ++ tblocks t).
    { cbn [fblocks first_of]. rewrite app_nil_r. solve_Permutation. }
    rewrite Hp2. by eapply extends_trans.
Qed.

(** *** Putting *)

(** The table after data was put at the path [ks]: what was below is gone, the
    paths that lead there are tables, and the rest is as before. *)
Definition put_view (v : list cstr → option value) (ks : list cstr) (d : Z) (q : list cstr) : option value :=
  if decide (q = ks) then Some (VData d)
  else if decide (ks `prefix_of` q) then None
  else if decide (q `prefix_of` ks) then Some VTable
  else v q.

(** The result of [sym_put]. *)
Fixpoint put_code (t : tree) (ks : list cstr) (replace : bool) : Z :=
  match t, ks with
  | Leaf _, _ => ENOTDIR
  | Dir _ _ _, [] => EEXIST
  | Dir _ _ f, k :: ks =>
      match find_tree f k with
      | None => 0
      | Some t' => match ks with [] => if replace then 0 else EEXIST | _ => put_code t' ks replace end
      end
  end.

(** What a successful put of [d] at [ks] does to a tree. *)
Record put_done (h : heap) (t : tree) (ks : list cstr) (d : Z) (h' : heap) (t' : tree) : Prop := {
  put_ext : extends h (tblocks t) h' (tblocks t');
  put_ptr : ptr_of t' = ptr_of t;
  put_views : ∀ q, view t' q = put_view (view t) ks d q;
  put_leaves : ∀ x, x ∈ tleaves t' → x ∈ tleaves t ∨ (x = d ∧ d ≠ 0);
  put_keys : ∀ x, x ∈ tkeys t' → x ∈ tkeys t ∨ x ∈ ks
}.

Lemma put_view_nil v ks d : ks ≠ [] → put_view v ks d [] = Some VTable.
Proof.
  intros Hk. unfold put_view. rewrite decide_False by auto. rewrite decide_False; [|by intros ?%prefix_nil_inv].
  rewrite decide_True; [done|]. apply prefix_nil.
Qed.

(** One step of the path. *)
Lemma put_view_cons v k ks d k0 q :
  put_view v (k :: ks) d (k0 :: q) = if decide (k0 = k) then put_view (λ q, v (k :: q)) ks d q else v (k0 :: q).
Proof.
  unfold put_view. destruct (decide (k0 = k)) as [->|Hne].
  - destruct (decide (q = ks)) as [->|Hq]; [by rewrite decide_True|]. rewrite (decide_False (P := k :: q = k :: ks)) by congruence.
    destruct (decide (ks `prefix_of` q)); [by rewrite decide_True by (by apply prefix_cons)|].
    rewrite (decide_False (P := k :: ks `prefix_of` k :: q)) by (by intros ?%prefix_cons_inv_2).
    destruct (decide (q `prefix_of` ks)); [by rewrite decide_True by (by apply prefix_cons)|].
    by rewrite (decide_False (P := k :: q `prefix_of` k :: ks)) by (by intros ?%prefix_cons_inv_2).
  - rewrite !decide_False; [done|by intros ?%prefix_cons_inv_1; congruence..|congruence].
Qed.

Lemma view_cons a c f k q : view (Dir a c f) (k :: q) = t ← find_tree f k; view t q.
Proof. unfold view. simpl. by destruct (find_tree f k). Qed.

Lemma find_snoc f n ka key t k :
  find_tree f key = None →
  find_tree (snoc_entry f n ka key t) k = if decide (k = key) then Some t else find_tree f k.
Proof.
  induction f as [|n' k' key' t' f IH]; simpl; intros Hf.
  - case_decide; [subst; by rewrite bool_decide_eq_true_2|]. by rewrite bool_decide_eq_false_2 by auto.
  - case_if_in Hf; [done|]. rewrite IH by done. destruct (decide (k = key)) as [->|]; [|done].
    by rewrite bool_decide_eq_false_2.
Qed.

(** The view of an emptied path. *)
Lemma put_view_here v d q : put_view v [] d q = view (Leaf d) q.
Proof.
  unfold put_view. destruct q as [|k q]; [done|]. rewrite decide_False by done.
  by rewrite decide_True by apply prefix_nil.
Qed.

(** The view after a change of the child at [k]. *)
Lemma view_child a c f f' k ks d t' (v : list cstr → option value) :
  (∀ k0, find_tree f' k0 = if decide (k0 = k) then Some t' else find_tree f k0) →
  (∀ q, view t' q = put_view v ks d q) → (∀ q, put_view v ks d q = put_view (λ q, view (Dir a c f) (k :: q)) ks d q) →
  ∀ q, view (Dir a c f') q = put_view (view (Dir a c f)) (k :: ks) d q.
Proof.
  intros Hf Ht Hv [|k0 q]; [by rewrite put_view_nil|]. rewrite put_view_cons, !view_cons, Hf.
  destruct (decide (k0 = k)) as [->|]; [|done]. simpl. by rewrite Ht.
Qed.

(** In a new table there is nothing else. *)
Lemma put_view_empty v1 v2 ks d q :
  ks ≠ [] → (∀ k q, v1 (k :: q) = v2 (k :: q)) → put_view v1 ks d q = put_view v2 ks d q.
Proof.
  intros Hk Hv. destruct q as [|k q]; [by rewrite !put_view_nil|]. unfold put_view. by rewrite Hv.
Qed.

Lemma snoc_blocks f n k key :
  ∃ rest, (∀ t, fblocks (snoc_entry f n k key t) ≡ₚ (n, Node 0 k (ptr_of t)) :: tblocks t ++ rest) ∧
    ∀ t, tleaves (Dir 0 0 (snoc_entry f n k key t)) = fleaves f ++ tleaves t ∧
      tkeys (Dir 0 0 (snoc_entry f n k key t)) = fkeys f ++ key :: tkeys t.
Proof.
  induction f as [|n' k' key' t' f (rest & Hr & Hl)]; simpl.
  - exists [(k, Blob (key ++ [NUL]))]. split; [|intros t; by rewrite !app_nil_r].
    intros t. rewrite app_nil_r. solve_Permutation.
  - exists ((n', Node (match f with FNil => n | FCons m _ _ _ _ => m end) k' (ptr_of t')) :: (k', Blob (key' ++ [NUL])) :: tblocks t' ++ rest).
    split.
    + intros t. rewrite Hr. replace (first_of (snoc_entry f n k key t)) with (match f with FNil => n | FCons m _ _ _ _ => m end)
        by (by destruct f). solve_Permutation.
    + intros t. destruct (Hl t) as [H1 H2]. simpl in H1, H2. rewrite H1, H2. by rewrite <- !app_assoc.
Qed.

(** Trees are kept by changes that add good data and keys. *)
Lemma extends_tree_in h t h' t' d ks :
  good h → tree_in h t → extends h (tblocks t) h' (tblocks t') →
  (∀ x, x ∈ tleaves t' → x ∈ tleaves t ∨ (x = d ∧ d ≠ 0)) → (∀ x, x ∈ tkeys t' → x ∈ tkeys t ∨ x ∈ ks) →
  (d = 0 ∨ data_ok h d ∧ d ∉ addrs (tblocks t)) → Forall no_nul ks → tree_in h' t'.
Proof.
  intros [_ Hg] [_ _ H3 H4] He Hl Hk Hd Hks. rewrite Forall_forall in H3. rewrite Forall_forall in H4. rewrite Forall_forall in Hks.
  split; [apply He|apply He| |].
  - apply Forall_forall. intros x Hx. assert (Hdx : data_ok h x ∧ x ∉ addrs (tblocks t)).
    { apply Hl in Hx as [Hx|[-> Hd0]]; [by apply H3|]. by destruct Hd. }
    destruct Hdx as [(b & m & Hb & Hm) Hnin]. pose proof (Hg _ _ Hb) as Hlt. split.
    + exists b, m. by rewrite (ext_frame _ _ _ _ He) by (done || lia).
    + intros Hin. pose proof (ext_new _ _ _ _ He) as Hn. rewrite Forall_forall in Hn. apply Hn in Hin as [?|?]; [done|lia].
  - apply Forall_forall. intros x Hx. apply Hk in Hx as [?|?]; auto.
Qed.

Lemma tree_in_fresh h nc c : blk h !! nc = Some (Header 0 c) → tree_in h (Dir nc c FNil).
Proof. intros Hb. split; simpl; [by repeat constructor|apply NoDup_singleton|constructor|constructor]. Qed.

Lemma add_keys_spec kk h a c f d :
  good h → fails h = [] → tree_in h (Dir a c f) → kk ≠ [] → find_tree f (hd [] kk) = None →
  ∃ h' t', add_keys kk a d h = Done () h' ∧ put_done h (Dir a c f) kk d h' t'.
Proof.
  revert h a c f. induction kk as [|k kk IH]; [done|]. intros h a c f Hg Hfl Ht _ Hfind. cbn [hd] in Hfind.
  destruct kk as [|k' kk].
  - destruct (add_key_spec h a c f k (Leaf d) Hg Hfl Ht) as (n & ka & h' & Hadd & He); [constructor|simpl; rewrite app_nil_r; apply Ht|].
    exists h', (Dir a c (snoc_entry f n ka k (Leaf d))). cbn [add_keys]. unfold mbind, M_bind.
    simpl in Hadd. rewrite Hadd. split; [done|]. cbn [tblocks] in He. rewrite app_nil_r in He.
    destruct (snoc_blocks f n ka k) as (_ & _ & Hl). destruct (Hl (Leaf d)) as [Hl1 Hl2]. simpl in Hl1, Hl2.
    split; [done|done| | |].
    + apply (view_child a c f _ k [] d (Leaf d) (view (Leaf d))); [intros; by apply find_snoc| |];
        intros q; by rewrite ?put_view_here.
    + simpl. rewrite Hl1. intros x [?|Hx]%elem_of_app; [by left|]. right. case_if_in Hx; set_solver.
    + simpl. rewrite Hl2. set_solver.
  - destruct (malloc_in h (Header 0 0) _ Hg Hfl (seg_holds _ _ _ _ Ht) (seg_nodup _ _ _ _ Ht)) as (h1 & Hm & E1).
    set (nc := brk h) in *. pose proof (ext_good _ _ _ _ E1) as Hg1. pose proof (ext_fails _ _ _ _ E1) as Hf1.
    assert (Ht1 : tree_in h1 (Dir a c f)).
    { apply (extends_tree_in h (Dir a c f) h1 _ 0 [] Hg Ht); auto.
      apply (extends_drop _ _ _ _ [(nc, Header 0 0)]). by rewrite Permutation_app_comm. }
    destruct (add_key_spec h1 a c f k (Dir nc 0 FNil) Hg1 Hf1 Ht1) as (n & ka & h2 & Hadd & E2).
    { pose proof (ext_holds _ _ _ _ E1) as [? _]%Forall_cons. by repeat constructor. }
    { pose proof (ext_nodup _ _ _ _ E1) as Hn. unfold addrs in *. by rewrite (Permutation_app_comm _ (tblocks (Dir nc 0 FNil))). }
    simpl in Hadd. destruct (snoc_blocks f n ka k) as (rest & Hr & Hl).
    set (c0 := Dir nc 0 FNil) in *. pose proof (ext_good _ _ _ _ E2) as Hg2.
    assert (Hc0 : blk h2 !! nc = Some (Header 0 0)).
    { pose proof (ext_holds _ _ _ _ E2) as [_ Hh]%Forall_cons. rewrite Hr in Hh. by apply Forall_cons in Hh as [_ [? _]%Forall_cons]. }
    destruct (IH h2 nc 0 FNil Hg2 (ext_fails _ _ _ _ E2) (tree_in_fresh _ _ _ Hc0) ltac:(done) eq_refl) as (h3 & t' & Hks & Hput).
    exists h3, (Dir a c (snoc_entry f n ka k t')). cbn [add_keys]. unfold newsym, mbind, M_bind. rewrite Hm, Hadd.
    split; [exact Hks|]. destruct (Hl t') as [Hl1 Hl2]. simpl in Hl1, Hl2. split; [|done| | |].
    + assert (E3 : extends h2 (tblocks (Dir a c (snoc_entry f n ka k c0))) h3 (tblocks (Dir a c (snoc_entry f n ka k t')))).
      { assert (Hp : ∀ t, ptr_of t = nc → tblocks (Dir a c (snoc_entry f n ka k t)) ≡ₚ tblocks t ++
          (a, Header (first_of (snoc_entry f n ka k c0)) c) :: (n, Node 0 ka nc) :: rest).
        { intros t Hpt. cbn [tblocks]. rewrite Hr, Hpt. replace (first_of (snoc_entry f n ka k t))
            with (first_of (snoc_entry f n ka k c0)) by (by destruct f). solve_Permutation. }
        pose proof (ext_holds _ _ _ _ E2) as Hh2. pose proof (ext_nodup _ _ _ _ E2) as Hn2. unfold holds, addrs in Hh2, Hn2.
        rewrite (Hp c0 eq_refl) in Hh2, Hn2 |- *. rewrite (Hp t' (put_ptr _ _ _ _ _ _ Hput)).
        apply extends_frame; [done|by apply Forall_app in Hh2 as [_ ?]|done|apply Hput]. }
      eapply extends_trans; [exact E1|]. eapply extends_trans; [|exact E3].
      by rewrite (Permutation_app_comm [(nc, Header 0 0)] (tblocks (Dir a c f))).
    + apply (view_child a c f _ k (k' :: kk) d t' (view c0)); [intros; by apply find_snoc|apply Hput|].
      intros q. apply put_view_empty; [done|]. intros k0 q0. by rewrite !view_cons, Hfind.
    + simpl. rewrite Hl1. intros x [?|Hx]%elem_of_app; [by left|]. apply (put_leaves _ _ _ _ _ _ Hput) in Hx as [Hx|?]; [set_solver|by right].
    + simpl. rewrite Hl2. intros x [?|[->|Hx]%elem_of_cons]%elem_of_app; [by left|right; left|].
      apply (put_keys _ _ _ _ _ _ Hput) in Hx as [?|?]; [set_solver|right; by right].
Qed.

(** *** Replacing a child *)

Fixpoint set_entry (f : forest) (k : cstr) (t : tree) : forest :=
  match f with
  | FNil => FNil
  | FCons n ka key t0 f => if bool_decide (key = k) then FCons n ka key t f else FCons n ka key t0 (set_entry f k t)
  end.

Lemma first_set f k t : first_of (set_entry f k t) = first_of f.
Proof. destruct f; simpl; [done|]. by case_if. Qed.

Lemma find_set f k t k0 :
  find_tree f k ≠ None → find_tree (set_entry f k t) k0 = if decide (k0 = k) then Some t else find_tree f k0.
Proof.
  induction f as [|n ka key t0 f IH]; simpl; [done|]. case_if; simpl; intros Hf.
  - subst key. repeat case_if; congruence.
  - rewrite IH by done. destruct (decide (k0 = k)) as [->|]; [|done]. by rewrite bool_decide_eq_false_2.
Qed.

Lemma set_blocks f k n t1 :
  find_entry f k = Some (n, t1) →
  ∃ next ka rest, fblocks f ≡ₚ (n, Node next ka (ptr_of t1)) :: tblocks t1 ++ rest ∧
    ∀ t, fblocks (set_entry f k t) ≡ₚ (n, Node next ka (ptr_of t)) :: tblocks t ++ rest.
Proof.
  induction f as [|n0 k0 key0 t0 f IH]; simpl; [done|]. case_if; intros Hf.
  - simplify_eq. exists (first_of f), k0, ((k0, Blob (k ++ [NUL])) :: fblocks f). split; [solve_Permutation|].
    intros t. simpl. solve_Permutation.
  - destruct (IH Hf) as (next & ka & rest & Hp & Hs).
    exists next, ka, ((n0, Node (first_of f) k0 (ptr_of t0)) :: (k0, Blob (key0 ++ [NUL])) :: tblocks t0 ++ rest).
    split; [rewrite Hp; solve_Permutation|]. intros t. simpl. rewrite Hs, first_set. solve_Permutation.
Qed.

Lemma set_leaves f k n t1 t :
  find_entry f k = Some (n, t1) →
  (∀ x, x ∈ tleaves t1 → x ∈ fleaves f) ∧ (∀ x, x ∈ fleaves (set_entry f k t) → x ∈ fleaves f ∨ x ∈ tleaves t) ∧
  (∀ x, x ∈ tkeys t1 → x ∈ fkeys f) ∧ (∀ x, x ∈ fkeys (set_entry f k t) → x ∈ fkeys f ∨ x ∈ tkeys t).
Proof.
  induction f as [|n0 k0 key0 t0 f IH]; simpl; [done|]. case_if; intros Hf.
  - simplify_eq. simpl. set_solver.
  - destruct (IH Hf) as (H1 & H2 & H3 & H4). simpl. set_solver.
Qed.

(** A put in a child is a put in the table. *)
Lemma put_in_child h a c f k n t1 ks d h' t1' :
  good h → tree_in h (Dir a c f) → find_entry f k = Some (n, t1) → put_done h t1 ks d h' t1' →
  put_done h (Dir a c f) (k :: ks) d h' (Dir a c (set_entry f k t1')).
Proof.
  intros Hg Ht Hf Hput. destruct (set_blocks f k n t1 Hf) as (next & ka & rest & Hp & Hs).
  destruct (set_leaves f k n t1 t1' Hf) as (L1 & L2 & L3 & L4). pose proof (find_entry_tree f k) as Hft. rewrite Hf in Hft.
  split; [|done| | |].
  - cbn [tblocks]. rewrite first_set.
    assert (Hp1 : (a, Header (first_of f) c) :: fblocks f ≡ₚ tblocks t1 ++ (a, Header (first_of f) c) :: (n, Node next ka (ptr_of t1)) :: rest)
      by (rewrite Hp; solve_Permutation).
    pose proof (seg_holds _ _ _ _ Ht) as Hh. pose proof (seg_nodup _ _ _ _ Ht) as Hn. unfold holds, addrs in Hh, Hn.
    cbn [tblocks] in Hh, Hn. rewrite Hp1 in Hh, Hn |- *. rewrite Hs, (put_ptr _ _ _ _ _ _ Hput).
    assert (Hp2 : (a, Header (first_of f) c) :: (n, Node next ka (ptr_of t1)) :: tblocks t1' ++ rest ≡ₚ
      tblocks t1' ++ (a, Header (first_of f) c) :: (n, Node next ka (ptr_of t1)) :: rest) by solve_Permutation.
    rewrite Hp2. apply extends_frame; [done|by apply Forall_app in Hh as [_ ?]|done|apply Hput].
  - apply (view_child a c f _ k ks d t1' (view t1)); [intros; apply find_set; by rewrite Hft|apply Hput|].
    intros q. unfold put_view. repeat case_decide; try done. by rewrite view_cons, Hft.
  - simpl. intros x Hx. apply L2 in Hx as [?|Hx]; [by left|]. apply (put_leaves _ _ _ _ _ _ Hput) in Hx as [?|?]; auto.
  - simpl. intros x Hx. apply L4 in Hx as [?|Hx]; [by left|]. apply (put_keys _ _ _ _ _ _ Hput) in Hx as [?|?]; [auto|].
    right. by right.
Qed.

(** Data in place of what an entry has. *)
Lemma replace_spec h a c f k n t1 d :
  good h → fails h = [] → tree_in h (Dir a c f) → find_entry f k = Some (n, t1) →
  ∃ next ka h', load_node n h = Done (next, ka, ptr_of t1) h ∧ write n (Node next ka d) h = Done () h' ∧
    put_done h (Dir a c f) [k] d h' (Dir a c (set_entry f k (Leaf d))).
Proof.
  intros Hg Hfl Ht Hf. destruct (set_blocks f k n t1 Hf) as (next & ka & rest & Hp & Hs).
  destruct (set_leaves f k n t1 (Leaf d) Hf) as (_ & L2 & _ & L4). pose proof (find_entry_tree f k) as Hft. rewrite Hf in Hft.
  assert (Hp1 : (a, Header (first_of f) c) :: fblocks f ≡ₚ (n, Node next ka (ptr_of t1)) :: ((a, Header (first_of f) c) :: rest) ++ tblocks t1)
    by (rewrite Hp; solve_Permutation).
  pose proof (seg_holds _ _ _ _ Ht) as Hh. pose proof (seg_nodup _ _ _ _ Ht) as Hn. unfold holds, addrs in Hh, Hn.
  cbn [tblocks] in Hh, Hn. rewrite Hp1 in Hh, Hn. pose proof Hh as [Hnode _]%Forall_cons. simpl in Hnode.
  destruct (write_in h n _ (Node next ka d) _ Hg Hfl Hh Hn) as (h' & Hw & He).
  exists next, ka, h'. unfold load_node. rewrite Hnode. split; [done|]. split; [done|]. split; [|done| | |].
  - cbn [tblocks]. rewrite first_set, Hp1, Hs. cbn [ptr_of tblocks app].
    rewrite (Permutation_swap (n, Node next ka d)).
    apply (extends_drop _ _ _ _ (tblocks t1)). exact He.
  - apply (view_child a c f _ k [] d (Leaf d) (view (Leaf d))); [intros; apply find_set; by rewrite Hft| |];
      intros q; by rewrite ?put_view_here.
  - simpl. intros x Hx. apply L2 in Hx as [?|Hx]; [by left|]. right. simpl in Hx. case_if_in Hx; set_solver.
  - simpl. intros x Hx. apply L4 in Hx. simpl in Hx. set_solver.
Qed.

(** *** Walking *)

(** The rest of [sym_put] once the key is split. *)
Definition put_from (kk : list cstr) (csym nsym data flags : Z) : M Z :=
  r ← walk kk csym nsym;
  match r with
  | None => mret ENOTDIR
  | Some ([], _, nsym) =>
      if flags =? PUT_REPLACE then
        r ← load_node nsym;
        let '(next, k, _) := (r : Z * Z * Z) in
        _ ← write nsym (Node next k data); mret 0
      else mret EEXIST
  | Some (kk, csym, _) => _ ← add_keys kk csym data; mret 0
  end.

(** One step of the walk. *)
Lemma walk_step h a c f k kk n0 :
  good h → tree_in h (Dir a c f) →
  walk (k :: kk) a n0 h =
  match find_entry f k with
  | None => Done (Some (k :: kk, a, 0)) h
  | Some (n, t) =>
      match kk with
      | [] => Done (Some ([], a, n)) h
      | _ => match t with Leaf _ => Done None h | Dir a' _ _ => walk kk a' n h end
      end
  end.
Proof.
  intros Hg Ht. destruct (tree_in_dir _ _ _ _ Ht) as [Ha Hf]. cbn [walk]. unfold mbind, M_bind.
  unfold load_header at 1. rewrite Ha. cbn [fst]. rewrite (find_key1_spec h f k Hg Hf).
  destruct (find_entry f k) as [[n t]|] eqn:E; [|done].
  destruct (find_entry_node h f k n t Hg Hf E) as (Hn & (next & ka & Hnode) & Ht1).
  rewrite (proj2 (Z.eqb_neq n 0)) by lia. destruct kk as [|k' kk]; [done|].
  unfold load_node at 1. rewrite Hnode. destruct t as [d|a' c' f']; cbn [ptr_of].
  - destruct (d =? 0) eqn:Ed; [done|]. pose proof (seg_leaves _ _ _ _ Ht1) as Hl. simpl in Hl. rewrite Ed in Hl.
    apply Forall_cons in Hl as [[(b & m & Hb & Hm & Hne) _] _]. unfold load_magic at 1. rewrite Hb. cbn [mbind option_bind].
    rewrite Hm. by rewrite (proj2 (Z.eqb_neq m SYM_MAGIC) Hne).
  - destruct (tree_in_dir _ _ _ _ Ht1) as [Ha' _]. pose proof (proj2 Hg _ _ Ha').
    rewrite (proj2 (Z.eqb_neq a' 0)) by lia. unfold load_magic at 1. rewrite Ha'. done.
Qed.

Lemma put_from_spec kk h a c f n0 d flags :
  good h → fails h = [] → tree_in h (Dir a c f) → kk ≠ [] →
  let rc := put_code (Dir a c f) kk (flags =? PUT_REPLACE) in
  ∃ h' t', put_from kk a n0 d flags h = Done rc h' ∧
    if rc =? 0 then put_done h (Dir a c f) kk d h' t' else h' = h.
Proof.
  revert h a c f n0. induction kk as [|k kk IH]; [done|]. intros h a c f n0 Hg Hfl Ht _. cbn zeta.
  assert (Hstep := walk_step h a c f k kk n0 Hg Ht). cbn [put_code]. rewrite find_entry_tree.
  unfold put_from, mbind at 1, M_bind at 1. rewrite Hstep.
  destruct (tree_in_dir _ _ _ _ Ht) as [_ Hf]. destruct (find_entry f k) as [[n t1]|] eqn:E; cbn [fmap option_fmap option_map snd].
  - destruct kk as [|k' kk].
    + destruct (flags =? PUT_REPLACE); cbn iota; [|by exists h, (Dir a c f)].
      destruct (replace_spec h a c f k n t1 d Hg Hfl Ht E) as (next & ka & h' & Hl & Hw & Hput).
      unfold mbind, M_bind. rewrite Hl, Hw. by exists h', (Dir a c (set_entry f k (Leaf d))).
    + destruct (find_entry_node h f k n t1 Hg Hf E) as (_ & _ & Ht1).
      destruct t1 as [x|a' c' f']; [by exists h, (Dir a c f)|].
      destruct (IH h a' c' f' n Hg Hfl Ht1 ltac:(done)) as (h' & t1' & Hrun & Hput).
      exists h', (Dir a c (set_entry f k t1')). split; [exact Hrun|]. cbn zeta in Hput.
      destruct (_ =? 0); [|done]. by eapply put_in_child.
  - destruct (add_keys_spec (k :: kk) h a c f d Hg Hfl Ht ltac:(done)) as (h' & t' & Hadd & Hput).
    { simpl. by rewrite find_entry_tree, E. }
    exists h', t'. unfold mbind, M_bind. by rewrite Hadd.
Qed.

(** The keys of a path. *)
Definition path (key : cstr) : list cstr := strtok_all key (str ",").

Lemma key_list_spec toks k : key_list (map Tok toks ++ replicate (S k) Null) = toks.
Proof. induction toks as [|t toks IH]; [done|]. cbn [map app key_list]. by rewrite IH. Qed.

Lemma split_key_spec key h : split_key alloc_ok key h = Done (Some (path key)) h.
Proof.
  unfold split_key. destruct (splitstr_array key (Some (str ","))) as (k & ->). cbn [default].
  by rewrite key_list_spec.
Qed.

Lemma strtok_go_no_nul sep cur s : no_nul cur → no_nul s → Forall no_nul (strtok_go sep cur s).
Proof.
  intros Hc Hs. revert cur Hc. induction Hs as [|x s Hx Hs IH]; intros cur Hc; simpl.
  - destruct cur; constructor; [|constructor]. apply Forall_reverse. done.
  - destruct (mem x sep); [|by apply IH; constructor].
    destruct cur; [by apply IH|]. constructor; [by apply Forall_reverse|]. apply IH. constructor.
Qed.

Lemma get_walk kk h a c f n0 :
  good h → tree_in h (Dir a c f) → kk ≠ [] →
  match lookup_path (Dir a c f) kk with
  | Some t => ∃ cs n next ka, walk kk a n0 h = Done (Some ([], cs, n)) h ∧ blk h !! n = Some (Node next ka (ptr_of t))
  | None => ∃ r, walk kk a n0 h = Done r h ∧ match r with Some ([], _, _) => False | _ => True end
  end.
Proof.
  revert h a c f n0. induction kk as [|k kk IH]; [done|]. intros h a c f n0 Hg Ht _.
  rewrite (walk_step h a c f k kk n0 Hg Ht). cbn [lookup_path]. rewrite find_entry_tree.
  destruct (tree_in_dir _ _ _ _ Ht) as [_ Hf]. destruct (find_entry f k) as [[n t1]|] eqn:E; cbn; [|by eexists].
  destruct (find_entry_node h f k n t1 Hg Hf E) as (_ & (next & ka & Hnode) & Ht1).
  destruct kk as [|k' kk]; [simpl; by eauto 10|]. destruct t1 as [x|a' c' f']; [by eexists|].
  apply (IH h a' c' f' n Hg Ht1). done.
Qed.

(** *** Freeing *)

(** The addresses in [l] are freed and nothing else changes. *)
Record freed (h : heap) (l : list Z) (h' : heap) : Prop := {
  freed_blk x : blk h' !! x = if decide (x ∈ l) then None else blk h !! x;
  freed_brk : brk h' = brk h;
  freed_fails : fails h' = fails h
}.

Lemma freed_nil h : freed h [] h.
Proof. split; [|done..]. intros x. rewrite decide_False; [done|apply not_elem_of_nil]. Qed.

Lemma freed_app h l1 h1 l2 h2 : freed h l1 h1 → freed h1 l2 h2 → freed h (l1 ++ l2) h2.
Proof.
  intros [H1 H2 H3] [K1 K2 K3]. split; [|congruence..]. intros x. rewrite K1, H1. repeat case_decide; set_solver.
Qed.

Lemma free_spec h p : p ≠ 0 → is_Some (blk h !! p) → ∃ h', free p h = Done () h' ∧ freed h [p] h'.
Proof.
  intros Hp [o Ho]. eexists. unfold free. rewrite (proj2 (Z.eqb_neq p 0) Hp), Ho. split; [done|]. split; [|done..].
  intros x. simpl. case_decide as Hx.
  - apply list_elem_of_singleton in Hx as ->. by rewrite lookup_delete_eq.
  - rewrite lookup_delete_ne; [done|]. set_solver.
Qed.

(** What [sym_rm] frees for an entry's data and for a list of entries. *)
Fixpoint tfreed (flags : Z) (t : tree) : list Z :=
  match t with
  | Leaf d => if d =? 0 then [] else [d]
  | Dir a _ f => ffreed flags f ++ [a]
  end
with ffreed (flags : Z) (f : forest) : list Z :=
  match f with
  | FNil => []
  | FCons n k _ t f => tfreed flags t ++ (if has_flag flags RM_KEY then [k] else []) ++ [n] ++ ffreed flags f
  end.

(** Nothing in the list is shared. *)
Record owned (h : heap) (bs : list (Z * obj)) (ls : list Z) : Prop := {
  own_holds : holds h bs;
  own_data : Forall (data_ok h) ls;
  own_nodup : NoDup (addrs bs ++ ls);
  own_nonzero : 0 ∉ addrs bs ++ ls
}.

Lemma owned_sub h bs ls bs' ls' : owned h bs ls → bs' ⊆+ bs → ls' ⊆+ ls → owned h bs' ls'.
Proof.
  intros [H1 H2 H3 H4] Hb Hl.
  assert (Ha : addrs bs' ++ ls' ⊆+ addrs bs ++ ls) by (apply submseteq_app; [by apply fmap_submseteq|done]).
  split; [by eapply Forall_sub|by eapply Forall_sub| |].
  - destruct (submseteq_Permutation _ _ Ha) as (k & Hp). rewrite Hp in H3. by apply NoDup_app in H3 as [? _].
  - intros Hin. apply H4. by eapply elem_of_submseteq.
Qed.

Lemma owned_freed h l h' bs ls : owned h bs ls → freed h l h' → (∀ x, x ∈ l → x ∉ addrs bs ++ ls) → owned h' bs ls.
Proof.
  intros [H1 H2 H3 H4] Hf Hd. split; [| |done|done].
  - apply Forall_forall. intros [a o] Hin. simpl. rewrite (freed_blk _ _ _ Hf).
    assert (Ha : a ∈ addrs bs) by (by apply (list_elem_of_fmap_2 fst) in Hin).
    rewrite decide_False; [unfold holds in H1; rewrite Forall_forall in H1; by apply (H1 (a, o))|].
    intros Hx. apply (Hd a Hx). set_solver.
  - apply Forall_forall. intros d Hin. rewrite Forall_forall in H2. destruct (H2 d Hin) as (b & m & Hb & Hm).
    exists b, m. rewrite (freed_blk _ _ _ Hf), decide_False; [done|]. intros Hx. apply (Hd d Hx). set_solver.
Qed.

Lemma freed_in flags :
  (∀ t x, x ∈ tfreed flags t → x ∈ addrs (tblocks t) ++ tleaves t) ∧
  (∀ f x, x ∈ ffreed flags f → x ∈ addrs (fblocks f) ++ fleaves f).
Proof.
  apply tree_forest_ind; cbn [tfreed ffreed tblocks fblocks tleaves fleaves].
  - done.
  - intros a c f IH x. rewrite addrs_cons, !elem_of_app, list_elem_of_singleton. specialize (IH x).
    rewrite elem_of_app in IH. rewrite elem_of_cons. naive_solver.
  - done.
  - intros n k key t IHt f IHf x. specialize (IHt x). specialize (IHf x).
    rewrite !addrs_cons, addrs_app. rewrite !elem_of_app in *. rewrite !elem_of_cons, !elem_of_app, elem_of_nil.
    assert (Hk : x ∈ (if has_flag flags RM_KEY then [k] else []) → x = k) by (case_if; set_solver). naive_solver.
Qed.

Lemma freed_iff h l l' h' : freed h l h' → (∀ x, x ∈ l ↔ x ∈ l') → freed h l' h'.
Proof.
  intros [H1 H2 H3] Hl. split; [|done..]. intros x. rewrite H1. repeat case_decide; naive_solver.
Qed.

(** What [rm_body] frees: with RM_DATA all but the pointer itself. *)
Definition tbelow (flags : Z) (t : tree) : list Z := match t with Leaf _ => [] | Dir _ _ f => ffreed flags f end.
Definition tself (t : tree) : list Z := if ptr_of t =? 0 then [] else [ptr_of t].

Definition rm_ok (fuel : nat) (flags : Z) : Prop := ∀ h f,
  owned h (fblocks f) (fleaves f) → (length (fblocks f) < fuel)%nat →
  ∃ h', rm_loop fuel (first_of f) flags h = Done () h' ∧ freed h (ffreed flags f) h'.

Lemma free_if (b : bool) h p l :
  (b = true → p ≠ 0 → is_Some (blk h !! p)) → l = (if b && negb (p =? 0) then [p] else []) →
  ∃ h', (if b then free p else mret ()) h = Done () h' ∧ freed h l h'.
Proof.
  intros Hp ->. destruct b; simpl; [|exists h; split; [done|apply freed_nil]].
  destruct (p =? 0) eqn:E; simpl; bool_hyps.
  - subst. exists h. split; [done|apply freed_nil].
  - apply free_spec; auto.
Qed.

Lemma rm_body_spec fuel flags h t :
  rm_ok fuel flags → owned h (tblocks t) (tleaves t) → (length (tblocks t) ≤ fuel)%nat →
  ∃ h', rm_body (λ p, rm_loop fuel p flags) (ptr_of t) flags h = Done () h' ∧
    freed h (tbelow flags t ++ if has_flag flags RM_DATA then [] else tself t) h'.
Proof.
  intros IH Ho Hl. unfold rm_body. destruct t as [d|a c f]; cbn [ptr_of tbelow tself].
  - unfold tself. cbn [ptr_of]. destruct (d =? 0) eqn:Ed.
    + exists h. split; [done|]. by destruct (has_flag flags RM_DATA); apply freed_nil.
    + pose proof (own_data _ _ _ Ho) as Hd. simpl in Hd. rewrite Ed in Hd. apply Forall_cons in Hd as [(b & m & Hb & Hm & Hne) _].
      unfold mbind, M_bind, load_magic. rewrite Hb. cbn [mbind option_bind]. rewrite Hm, (proj2 (Z.eqb_neq m SYM_MAGIC) Hne).
      destruct (has_flag flags RM_DATA); [exists h; split; [done|apply freed_nil]|]. bool_hyps. by apply free_spec; [|rewrite Hb].
  - pose proof (own_holds _ _ _ Ho) as [Ha _]%Forall_cons. simpl in Ha. pose proof (own_nonzero _ _ _ Ho) as Hnz.
    pose proof (own_nodup _ _ _ Ho) as Hnd. cbn [tblocks tleaves] in *. rewrite addrs_cons in Hnz, Hnd.
    cbn [app] in Hnz, Hnd. apply not_elem_of_cons in Hnz as [Ha0 _]. apply NoDup_cons in Hnd as [Hna _].
    unfold tself. cbn [ptr_of]. rewrite (proj2 (Z.eqb_neq a 0)) by auto.
    unfold mbind, M_bind, load_magic. rewrite Ha. cbn [mbind option_bind magic_of]. rewrite Z.eqb_refl. cbn [negb].
    unfold load_header. rewrite Ha. cbn [fst].
    destruct (IH h f) as (h1 & -> & Hf1); [by eapply owned_sub; [exact Ho|apply submseteq_cons|]|simpl in Hl; lia|].
    destruct (has_flag flags RM_DATA); [exists h1; by rewrite app_nil_r|].
    destruct (free_spec h1 a) as (h2 & -> & Hf2); [auto| |exists h2; split; [done|by eapply freed_app]].
    rewrite (freed_blk _ _ _ Hf1), decide_False, Ha; [done|]. intros Hin. by apply (proj2 (freed_in flags)) in Hin.
Qed.

(** The block of an entry's data, and where it can be found. *)
Lemma tself_in t x : x ∈ tself t → x ∈ addrs (tblocks t) ++ tleaves t.
Proof. destruct t as [d|a c f]; unfold tself; cbn [ptr_of tblocks tleaves]; [by case_if|]. case_if; set_solver. Qed.

Lemma tbelow_in flags t x : x ∈ tbelow flags t → x ∈ addrs (tblocks t) ++ tleaves t.
Proof.
  destruct t as [d|a c f]; cbn [tbelow tblocks tleaves]; [set_solver|]. intros Hx. apply (proj2 (freed_in flags)) in Hx.
  rewrite addrs_cons. set_solver.
Qed.

Lemma tself_kept h t flags x :
  owned h (tblocks t) (tleaves t) → x ∈ tself t → is_Some (blk h !! x) ∧ x ∉ tbelow flags t.
Proof.
  intros Ho Hx. destruct t as [d|a c f]; unfold tself in Hx; cbn [ptr_of tbelow] in *; case_if_in Hx; try set_solver;
    apply list_elem_of_singleton in Hx as ->.
  - split; [|set_solver]. pose proof (own_data _ _ _ Ho) as Hd. simpl in Hd.
    rewrite (proj2 (Z.eqb_neq d 0)) in Hd by done. apply Forall_cons in Hd as [(b & m & -> & _) _]. done.
  - pose proof (own_holds _ _ _ Ho) as [Ha _]%Forall_cons. simpl in Ha. rewrite Ha. split; [done|].
    intros Hin. apply (proj2 (freed_in flags)) in Hin. pose proof (own_nodup _ _ _ Ho) as Hn.
    cbn [tblocks tleaves] in Hn. rewrite addrs_cons in Hn. by apply NoDup_cons in Hn as [? _].
Qed.

Lemma tfreed_split h flags t x :
  owned h (tblocks t) (tleaves t) → x ∈ tfreed flags t ↔ x ∈ tbelow flags t ∨ x ∈ tself t.
Proof.
  intros Ho. destruct t as [d|a c f]; unfold tself; cbn [tfreed tbelow ptr_of]; [set_solver|].
  pose proof (own_nonzero _ _ _ Ho) as Hz. cbn [tblocks] in Hz. rewrite addrs_cons in Hz.
  rewrite (proj2 (Z.eqb_neq a 0)) by set_solver. set_solver.
Qed.

Lemma tself_free t : (if negb (ptr_of t =? 0) then [ptr_of t] else []) = tself t.
Proof. unfold tself. by destruct (ptr_of t =? 0). Qed.

(** The parts of an entry, and that they are apart from each other and from the
    other entries. *)
Lemma owned_cons h n k key t f :
  owned h (fblocks (FCons n k key t f)) (fleaves (FCons n k key t f)) →
  let T := addrs (tblocks t) ++ tleaves t in
  let R := addrs (fblocks f) ++ fleaves f in
  blk h !! n = Some (Node (first_of f) k (ptr_of t)) ∧ is_Some (blk h !! k) ∧ n ≠ 0 ∧ k ≠ 0 ∧ n ≠ k ∧
  n ∉ T ∧ k ∉ T ∧ n ∉ R ∧ k ∉ R ∧ (∀ x, x ∈ T → x ∉ R) ∧
  owned h (tblocks t) (tleaves t) ∧ owned h (fblocks f) (fleaves f).
Proof.
  intros Ho T R. pose proof (own_holds _ _ _ Ho) as [Hn [Hk _]%Forall_cons]%Forall_cons. simpl in Hn, Hk.
  pose proof (own_nodup _ _ _ Ho) as Hnd. pose proof (own_nonzero _ _ _ Ho) as Hnz.
  assert (Hot : owned h (tblocks t) (tleaves t)).
  { eapply owned_sub; [exact Ho|..]; simpl; [by do 2 apply submseteq_cons; apply submseteq_inserts_r|by apply submseteq_inserts_r]. }
  assert (Hof : owned h (fblocks f) (fleaves f)).
  { eapply owned_sub; [exact Ho|..]; simpl; [by do 2 apply submseteq_cons; apply submseteq_inserts_l|by apply submseteq_inserts_l]. }
  cbn [fblocks fleaves] in Hnd, Hnz. rewrite !addrs_cons, addrs_app in Hnd, Hnz. cbn [app] in Hnd, Hnz.
  assert (Hp : n :: k :: (addrs (tblocks t) ++ addrs (fblocks f)) ++ tleaves t ++ fleaves f ≡ₚ n :: k :: T ++ R)
    by (unfold T, R; solve_Permutation).
  rewrite Hp in Hnd, Hnz. apply NoDup_cons in Hnd as [HnT [HkT HTR]%NoDup_cons]. apply NoDup_app in HTR as (_ & HTR & _).
  clearbody T R. rewrite Hn, Hk. set_solver.
Qed.

Lemma rm_entry_spec fuel flags h n k key t f :
  rm_ok fuel flags → owned h (fblocks (FCons n k key t f)) (fleaves (FCons n k key t f)) →
  (length (tblocks t) ≤ fuel)%nat →
  ∃ h', rm_entry (λ p, rm_loop fuel p flags) n flags h = Done (first_of f) h' ∧
    freed h (tfreed flags t ++ (if has_flag flags RM_KEY then [k] else []) ++ [n]) h'.
Proof.
  intros IH Ho Hl. destruct (owned_cons _ _ _ _ _ _ Ho) as (Hn & Hk & Hn0 & Hk0 & Hnk & HnT & HkT & _ & _ & _ & Hot & _).
  destruct (rm_body_spec fuel flags h t IH Hot Hl) as (h1 & Hc & F1). set (l1 := tbelow flags t ++ _) in F1.
  set (T := addrs (tblocks t) ++ tleaves t) in *.
  assert (Hl1 : ∀ x, x ∈ l1 → x ∈ T).
  { intros x [Hx|Hx]%elem_of_app; [by eapply tbelow_in|]. apply tself_in. case_if_in Hx; set_solver. }
  assert (Hn1 : blk h1 !! n = Some (Node (first_of f) k (ptr_of t))).
  { rewrite (freed_blk _ _ _ F1), decide_False; [done|]. by intros Hx%Hl1. }
  destruct (free_if (has_flag flags RM_KEY) h1 k (if has_flag flags RM_KEY then [k] else [])) as (h2 & Hfk & F2).
  { intros _ _. rewrite (freed_blk _ _ _ F1), decide_False; [done|]. by intros Hx%Hl1. }
  { by rewrite (proj2 (Z.eqb_neq k 0)), andb_true_r. }
  destruct (free_if (has_flag flags RM_DATA) h2 (ptr_of t) (if has_flag flags RM_DATA then tself t else [])) as (h3 & Hfd & F3).
  { intros Hfl Hne. rewrite (freed_blk _ _ _ F2), (freed_blk _ _ _ F1). unfold l1. rewrite Hfl, app_nil_r.
    assert (Hs : ptr_of t ∈ tself t) by (unfold tself; rewrite (proj2 (Z.eqb_neq _ _) Hne); left).
    destruct (tself_kept h t flags (ptr_of t) Hot Hs) as [Hsome Hb]. apply tself_in in Hs. fold T in Hs.
    rewrite !decide_False; [done|done|]. case_if; set_solver. }
  { rewrite <- tself_free. by destruct (has_flag flags RM_DATA), (ptr_of t =? 0). }
  pose proof (freed_app _ _ _ _ _ (freed_app _ _ _ _ _ F1 F2) F3) as F13.
  assert (Hself : ∀ x, x ∈ (if has_flag flags RM_DATA then tself t else []) → x ∈ T)
    by (intros x Hx; case_if_in Hx; [by apply tself_in|set_solver]).
  destruct (free_spec h3 n) as (h4 & Hfn & F4); [done| |].
  { rewrite (freed_blk _ _ _ F13), decide_False, Hn; [done|]. rewrite !elem_of_app.
    intros [[Hx%Hl1|Hx]|Hx%Hself]; [done|case_if_in Hx; set_solver|done]. }
  exists h4. split.
  - unfold rm_entry, mbind, M_bind. unfold load_node. rewrite Hn. cbn [snd]. rewrite Hc, Hn1, Hfk, Hfd, Hfn. done.
  - eapply freed_iff; [exact (freed_app _ _ _ _ _ F13 F4)|]. intros x. unfold l1.
    rewrite !elem_of_app, (tfreed_split h flags t x Hot). case_if; case_if; set_solver.
Qed.

Lemma rm_loop_spec flags fuel : rm_ok fuel flags.
Proof.
  induction fuel as [|fuel IH]; intros h f Ho Hl; [lia|].
  destruct f as [|n k key t f]; [exists h; split; [done|apply freed_nil]|].
  cbn [fblocks length] in Hl. rewrite length_app in Hl.
  destruct (rm_entry_spec fuel flags h n k key t f IH Ho ltac:(lia)) as (h1 & He & F1).
  destruct (owned_cons _ _ _ _ _ _ Ho) as (_ & _ & Hn0 & _ & _ & _ & _ & HnR & HkR & HTR & _ & Hof).
  destruct (IH h1 f) as (h2 & Hr & F2); [|lia|].
  { eapply owned_freed; [exact Hof|exact F1|]. 
    intros x [Hx|[Hx|Hx]%elem_of_app]%elem_of_app; [apply HTR; by apply (proj1 (freed_in flags))|case_if_in Hx; set_solver|set_solver]. }
  exists h2. cbn [rm_loop first_of]. rewrite (proj2 (Z.eqb_neq n 0) Hn0). unfold mbind, M_bind. rewrite He.
  split; [exact Hr|]. eapply freed_iff; [exact (freed_app _ _ _ _ _ F1 F2)|]. intros x. simpl. by rewrite <- !app_assoc.
Qed.

(** *** Stepping and printing *)

(** The entries of a table, as [sym_seq] gives them. *)
Fixpoint entries (f : forest) : list (Z * Z) :=
  match f with FNil => [] | FCons _ k _ t f => (k, ptr_of t) :: entries f end.

(** A client's loop: [flags] for the first call, R_NEXT for the others, until
    there are no more items. *)
Fixpoint seq_list (n : nat) (sym flags : Z) : M (list (Z * Z)) :=
  match n with
  | O => loop
  | S n =>
      r ← sym_seq alloc_ok sym [] flags;
      match (r : Z * option (Z * Z)) with
      | (0, Some kd) => rest ← seq_list n sym R_NEXT; mret (kd :: rest)
      | _ => mret []
      end
  end.

Lemma write_cursor h a c c' f :
  good h → fails h = [] → tree_in h (Dir a c f) →
  ∃ h', write a (Header (first_of f) c') h = Done () h' ∧ tree_in h' (Dir a c' f) ∧ good h' ∧ fails h' = [].
Proof.
  intros Hg Hfl Ht. destruct (write_in h a (Header (first_of f) c) (Header (first_of f) c') (fblocks f) Hg Hfl) as (h' & Hw & He);
    [apply Ht|apply Ht|]. exists h'. split; [done|]. split; [|split; apply He].
  apply (extends_tree_in h (Dir a c f) h' (Dir a c' f) 0 [] Hg Ht He); auto.
Qed.

(** The entry at the cursor, once the cursor is written. *)
Lemma seq_item_spec h a c f g :
  good h → tree_in h (Dir a c f) → c = first_of g → forest_in h g →
  seq_item a h = Done (match g with FNil => (1, None) | FCons _ k _ t _ => (0, Some (k, ptr_of t)) end) h.
Proof.
  intros Hg Ht -> Hgf. destruct (tree_in_dir _ _ _ _ Ht) as [Ha _]. unfold seq_item, mbind, M_bind. unfold load_header.
  rewrite Ha. destruct g as [|n k key t g]; [done|]. destruct (forest_in_cons _ _ _ _ _ _ Hgf) as (Hn & _).
  cbn [first_of]. rewrite (proj2 (Z.eqb_neq n 0)) by (apply (proj2 Hg) in Hn; lia).
  unfold load_node. by rewrite Hn.
Qed.

(** The tails of a forest. *)
Fixpoint suffix_of_forest (g f : forest) : Prop :=
  g = f ∨ match f with FNil => False | FCons _ _ _ _ f => suffix_of_forest g f end.

Lemma suffix_in h g f : forest_in h f → suffix_of_forest g f → forest_in h g.
Proof.
  induction f as [|n k key t f IH]; simpl; intros Hf [->|Hs]; try done.
  destruct (forest_in_cons _ _ _ _ _ _ Hf) as (_ & _ & _ & _ & Hf'). by apply IH.
Qed.

Lemma suffix_tail g f n k key t : suffix_of_forest (FCons n k key t g) f → suffix_of_forest g f.
Proof.
  induction f as [|n' k' key' t' f IH]; simpl; [by intros [?|[]]|]. intros [Heq|Hs]; [|by right; apply IH].
  injection Heq as -> -> -> -> ->. right. destruct f; by left.
Qed.

Lemma seq_next h a n k key t g f :
  good h → fails h = [] → tree_in h (Dir a n f) → suffix_of_forest (FCons n k key t g) f →
  ∃ h', sym_seq alloc_ok a [] R_NEXT h =
      Done (match g with FNil => (1, None) | FCons _ k _ t _ => (0, Some (k, ptr_of t)) end) h' ∧
    good h' ∧ fails h' = [] ∧ tree_in h' (Dir a (first_of g) f).
Proof.
  intros Hg Hfl Ht Hs. destruct (tree_in_dir _ _ _ _ Ht) as [Ha Hf].
  pose proof (suffix_in _ _ _ Hf Hs) as Hgf. destruct (forest_in_cons _ _ _ _ _ _ Hgf) as (Hn & _).
  destruct (write_cursor h a n (first_of g) f Hg Hfl Ht) as (h1 & Hw & Ht1 & Hg1 & Hf1).
  exists h1. split; [|done]. unfold sym_seq. change (R_NEXT =? R_CURSOR) with false. change (R_NEXT =? R_FIRST) with false.
  change (R_NEXT =? R_NEXT) with true. cbn iota. unfold mbind, M_bind. unfold load_header at 1. rewrite Ha.
  rewrite (proj2 (Z.eqb_neq n 0)) by (apply (proj2 Hg) in Hn; lia). unfold load_node at 1. rewrite Hn. cbn beta iota. rewrite Hw.
  apply (seq_item_spec h1 a (first_of g) f g); [done|done|done|].
  apply (suffix_in _ _ f); [by apply (tree_in_dir _ _ _ _ Ht1)|by eapply suffix_tail].
Qed.

Lemma seq_rest g h a n k key t f :
  good h → fails h = [] → tree_in h (Dir a n f) → suffix_of_forest (FCons n k key t g) f →
  ∃ h', seq_list (S (length (entries g))) a R_NEXT h = Done (entries g) h' ∧ tree_in h' (Dir a 0 f).
Proof.
  revert h n k key t. induction g as [|n1 k1 key1 t1 g IH]; intros h n k key t Hg Hfl Ht Hs;
    destruct (seq_next h a n k key t _ f Hg Hfl Ht Hs) as (h1 & Hseq & Hg1 & Hf1 & Ht1).
  - exists h1. split; [|done]. cbn [seq_list entries length]. unfold mbind, M_bind. by rewrite Hseq.
  - destruct (IH h1 n1 k1 key1 t1 Hg1 Hf1 Ht1) as (h2 & Hrest & Ht2); [by eapply suffix_tail|].
    exists h2. split; [|done]. cbn [entries length]. remember (S (length (entries g))) as m eqn:Em. cbn [seq_list].
    unfold mbind, M_bind. rewrite Hseq. cbn iota. by rewrite Hrest.
Qed.

Fixpoint tdump (depth : nat) (t : tree) : cstr :=
  match t with Leaf _ => [] | Dir _ _ f => fdump depth f end
with fdump (depth : nat) (f : forest) : cstr :=
  match f with
  | FNil => []
  | FCons _ _ key t f => indent depth ++ key ++ ["010"%char] ++ tdump (S depth) t ++ fdump depth f
  end.

Lemma dump_body_spec fuel h t depth :
  good h → tree_in h t →
  (∀ f depth, forest_in h f → (length (fblocks f) < fuel)%nat → dump_loop fuel (first_of f) depth h = Done (fdump depth f) h) →
  (length (tblocks t) ≤ fuel)%nat →
  dump_body (dump_loop fuel) (ptr_of t) depth h =
    Done (match t with Leaf _ => -1 | Dir _ _ _ => 0 end, tdump depth t) h.
Proof.
  intros Hg Ht IH Hl. unfold dump_body. destruct t as [d|a c f]; cbn [ptr_of tdump].
  - destruct (d =? 0) eqn:Ed; [done|]. pose proof (seg_leaves _ _ _ _ Ht) as Hd. simpl in Hd. rewrite Ed in Hd.
    apply Forall_cons in Hd as [[(b & m & Hb & Hm & Hne) _] _]. unfold mbind, M_bind, load_magic. rewrite Hb.
    cbn [mbind option_bind]. rewrite Hm. by rewrite (proj2 (Z.eqb_neq m SYM_MAGIC) Hne).
  - destruct (tree_in_dir _ _ _ _ Ht) as [Ha Hf]. rewrite (proj2 (Z.eqb_neq a 0)) by (apply (proj2 Hg) in Ha; lia).
    unfold mbind, M_bind, load_magic. rewrite Ha. cbn [mbind option_bind magic_of]. rewrite Z.eqb_refl. cbn [negb].
    unfold load_header. rewrite Ha. cbn [fst]. rewrite IH; [done|done|]. simpl in Hl. lia.
Qed.

Lemma dump_loop_spec fuel h f depth :
  good h → forest_in h f → (length (fblocks f) < fuel)%nat →
  dump_loop fuel (first_of f) depth h = Done (fdump depth f) h.
Proof.
  intros Hg. revert f depth. induction fuel as [|fuel IH]; intros f depth Hf Hl; [lia|].
  destruct f as [|n k key t f]; [done|]. destruct (forest_in_cons _ _ _ _ _ _ Hf) as (Hn & Hk & Hkey & Ht & Hf').
  cbn [fblocks length] in Hl. rewrite length_app in Hl.
  cbn [dump_loop first_of fdump]. rewrite (proj2 (Z.eqb_neq n 0)) by (apply (proj2 Hg) in Hn; lia).
  unfold mbind, M_bind. unfold load_node at 1. rewrite Hn, (load_key h k key Hk Hkey).
  rewrite (dump_body_spec fuel h t (S depth) Hg Ht IH) by lia. by rewrite IH by (done || lia).
Qed.

(** ** Properties *)

(** C21: [sym_put] on a table in memory returns ENOTDIR when an entry on the way is
    no table, EEXIST when the key exists and PUT_REPLACE is not given, and 0
    otherwise.  If it returns 0 the memory holds a table in which the key has the
    data, the keys that lead to it are tables, what was below the key is gone and
    every other key is as before, and [sym_get] finds the data; otherwise the
    table is as before.  No other memory that was in use is changed. *)
Theorem sym_put_spec h a c f key d flags
  (Hg : good h) (Hfl : fails h = []) (Ht : tree_in h (Dir a c f)) (Hk : path key ≠ []) (Hnul : no_nul key)
  (Hd : d = 0 ∨ data_ok h d ∧ d ∉ addrs (tblocks (Dir a c f))) :
  let t := Dir a c f in
  let rc := put_code t (path key) (flags =? PUT_REPLACE) in
  ∃ h' c' f', let t' := Dir a c' f' in
    sym_put alloc_ok a key d flags h = Done rc h' ∧ good h' ∧ fails h' = [] ∧ tree_in h' t' ∧
    (∀ q, view t' q = if rc =? 0 then put_view (view t) (path key) d q else view t q) ∧
    (rc = 0 → sym_get alloc_ok a key h' = Done d h') ∧
    (∀ x, x ∉ addrs (tblocks t) → x < brk h → blk h' !! x = blk h !! x).
Proof.
  cbn zeta. destruct (tree_in_dir _ _ _ _ Ht) as [Ha _]. pose proof (proj2 Hg _ _ Ha) as Ha0.
  destruct (put_from_spec (path key) h a c f 0 d flags Hg Hfl Ht Hk) as (h' & t' & Hput & Hres). cbn zeta in Hres.
  assert (Hrun : sym_put alloc_ok a key d flags h = Done (put_code (Dir a c f) (path key) (flags =? PUT_REPLACE)) h').
  { unfold sym_put. rewrite (proj2 (Z.eqb_neq a 0)) by lia. unfold mbind at 1, M_bind at 1. by rewrite split_key_spec. }
  destruct (put_code _ _ _ =? 0) eqn:Erc.
  - assert (Ht' : tree_in h' t').
    { apply (extends_tree_in h (Dir a c f) h' t' d (path key) Hg Ht); [apply Hres|apply Hres|apply Hres|done|].
      apply strtok_go_no_nul; [constructor|done]. }
    destruct t' as [x|a' c' f']; [by pose proof (put_views _ _ _ _ _ _ Hres []) as Hv; rewrite put_view_nil in Hv|].
    pose proof (put_ptr _ _ _ _ _ _ Hres) as Hptr. simpl in Hptr. subst a'.
    exists h', c', f'. pose proof (put_ext _ _ _ _ _ _ Hres) as He.
    split_and!; [done|apply He|apply He|done|apply Hres| |apply He].
    intros _. unfold sym_get. rewrite (proj2 (Z.eqb_neq a 0)) by lia. unfold mbind, M_bind. rewrite split_key_spec.
    pose proof (get_walk (path key) h' a c' f' 0 (ext_good _ _ _ _ He) Ht' Hk) as Hw.
    pose proof (put_views _ _ _ _ _ _ Hres (path key)) as Hv. unfold put_view, view in Hv. rewrite decide_True in Hv by done.
    destruct (lookup_path (Dir a c' f') (path key)) as [[x|? ? ?]|]; [|done..]. injection Hv as ->.
    destruct Hw as (cs & n & next & ka & -> & Hn). unfold load_node. by rewrite Hn.
  - subst h'. exists h, c, f. bool_hyps. by split_and!.
Qed.

(** [sym_get] returns the pointer at the end of the path: the data, or the
    header of the table that is there, or NULL when the path does not exist, and
    does not change memory. *)
Theorem sym_get_spec h a c f key
  (Hg : good h) (Ht : tree_in h (Dir a c f)) (Hk : path key ≠ []) :
  sym_get alloc_ok a key h =
    Done (match lookup_path (Dir a c f) (path key) with Some t => ptr_of t | None => 0 end) h.
Proof.
  destruct (tree_in_dir _ _ _ _ Ht) as [Ha _]. pose proof (proj2 Hg _ _ Ha) as Ha0.
  unfold sym_get. rewrite (proj2 (Z.eqb_neq a 0)) by lia. unfold mbind, M_bind. rewrite split_key_spec.
  pose proof (get_walk (path key) h a c f 0 Hg Ht Hk) as Hw. destruct (lookup_path _ _) as [t|].
  - destruct Hw as (cs & n & next & ka & -> & Hn). unfold load_node. by rewrite Hn.
  - destruct Hw as ([[[[|k kk] cs] n]|] & -> & Hr); done.
Qed.

(** A key without any name in it (the empty string, or commas only) is not
    rejected: [sym_get] reads through a null pointer. *)
Theorem sym_get_empty_undefined h a key (Ha : a ≠ 0) (H0 : blk h !! 0 = None) (Hk : path key = []) :
  sym_get alloc_ok a key h = UB.
Proof.
  unfold sym_get. rewrite (proj2 (Z.eqb_neq a 0) Ha). unfold mbind, M_bind. rewrite split_key_spec, Hk. simpl.
  unfold load_node. by rewrite H0.
Qed.

(** Stepping through a table with R_FIRST and then R_NEXT gives its entries in
    the order in which they were added, and then the end. *)
Theorem sym_seq_all h a c f
  (Hg : good h) (Hfl : fails h = []) (Ht : tree_in h (Dir a c f)) :
  ∃ h', seq_list (S (length (entries f))) a R_FIRST h = Done (entries f) h' ∧ tree_in h' (Dir a 0 f).
Proof.
  destruct (tree_in_dir _ _ _ _ Ht) as [Ha Hf].
  destruct (write_cursor h a c (first_of f) f Hg Hfl Ht) as (h1 & Hw & Ht1 & Hg1 & Hf1).
  assert (Hfirst : sym_seq alloc_ok a [] R_FIRST h =
    Done (match f with FNil => (1, None) | FCons _ k _ t _ => (0, Some (k, ptr_of t)) end) h1).
  { unfold sym_seq. change (R_FIRST =? R_CURSOR) with false. change (R_FIRST =? R_FIRST) with true. cbn iota.
    unfold mbind, M_bind. unfold load_header at 1. rewrite Ha. cbn beta iota. rewrite Hw.
    apply (seq_item_spec h1 a (first_of f) f f); [done|done|done|]. by apply (tree_in_dir _ _ _ _ Ht1). }
  destruct f as [|n k key t f].
  - exists h1. split; [|done]. cbn [seq_list entries length]. unfold mbind, M_bind. by rewrite Hfirst.
  - destruct (seq_rest f h1 a n k key t (FCons n k key t f) Hg1 Hf1 Ht1) as (h2 & Hrest & Ht2); [by left|].
    exists h2. split; [|done]. cbn [entries length]. remember (S (length (entries f))) as m eqn:Em. cbn [seq_list].
    unfold mbind, M_bind. rewrite Hfirst. cbn iota. by rewrite Hrest.
Qed.

(** [sym_dump] prints every key of the hierarchy once, below the key of its
    table and with one quote for each level. *)
Theorem sym_dump_spec h a c f depth (Hg : good h) (Ht : tree_in h (Dir a c f)) :
  sym_dump a depth h = Done (0, fdump depth f) h.
Proof.
  unfold sym_dump. apply (dump_body_spec (steps h) h (Dir a c f) depth Hg Ht).
  - intros g dp Hgf Hl. by apply dump_loop_spec.
  - pose proof (blocks_size h _ (seg_holds _ _ _ _ Ht) (seg_nodup _ _ _ _ Ht)). unfold steps. lia.
Qed.

(** C22: [sym_rm] on a hierarchy in which nothing is shared frees every entry,
    every table below and all the user's data, with RM_DATA as well as without
    it; the keys only with RM_KEY; and the header of the table itself only
    without RM_DATA.  Nothing is freed twice and nothing else is touched. *)
Theorem sym_rm_spec h a c f flags
  (Ho : owned h (tblocks (Dir a c f)) (tleaves (Dir a c f))) :
  ∃ h', sym_rm a flags h = Done 0 h' ∧
    freed h (ffreed flags f ++ if has_flag flags RM_DATA then [] else [a]) h'.
Proof.
  assert (Hn : NoDup (addrs (tblocks (Dir a c f)))) by (pose proof (own_nodup _ _ _ Ho) as Hn; by apply NoDup_app in Hn as [? _]).
  pose proof (blocks_size h _ (own_holds _ _ _ Ho) Hn) as Hsz.
  destruct (rm_body_spec (steps h) flags h (Dir a c f) (rm_loop_spec flags (steps h)) Ho) as (h' & Hr & Hf); [unfold steps; lia|].
  exists h'. unfold sym_rm, mbind, M_bind. cbn [ptr_of] in Hr. rewrite Hr. split; [done|].
  cbn [tbelow] in Hf. unfold tself in Hf. cbn [ptr_of] in Hf. pose proof (own_nonzero _ _ _ Ho) as Hz.
  cbn [tblocks] in Hz. rewrite addrs_cons in Hz. by rewrite (proj2 (Z.eqb_neq a 0)) in Hf by set_solver.
Qed.

(** ** Witnesses *)

(** Two strings of the user's, and a table with the keys "a" and "b,x". *)
Definition ex_heap : heap :=
  Heap (list_to_map [(1, Blob (str "data one" ++ [NUL])); (2, Blob (str "data two" ++ [NUL]));
                     (3, Header 4 0); (4, Node 6 5 1); (5, Blob (str "a" ++ [NUL]));
                     (6, Node 0 7 8); (7, Blob (str "b" ++ [NUL])); (8, Header 9 0);
                     (9, Node 0 10 2); (10, Blob (str "x" ++ [NUL]))]) 11 [].
Definition ex_forest : forest :=
  FCons 4 5 (str "a") (Leaf 1) (FCons 6 7 (str "b") (Dir 8 0 (FCons 9 10 (str "x") (Leaf 2) FNil)) FNil).

(** It is what [sym_open] and two calls of [sym_put] make, up to addresses. *)
Lemma ex_heap_built :
  match (t ← sym_open; _ ← sym_put alloc_ok t (str "a") 1 0; _ ← sym_put alloc_ok t (str "b,x") 2 0; sym_dump t 0)
        (Heap (list_to_map [(1, Blob (str "data one" ++ [NUL])); (2, Blob (str "data two" ++ [NUL]))]) 3 []) with
  | Done (0, text) _ => text = fdump 0 ex_forest
  | _ => False
  end.
Proof. vm_compute. reflexivity. Qed.

Lemma ex_good : good ex_heap.
Proof.
  split; [done|]. intros a o Ha. cbn [ex_heap blk] in Ha. apply elem_of_list_to_map_2 in Ha.
  repeat (apply elem_of_cons in Ha as [[= -> ->]|Ha]; [simpl; lia|]). by apply not_elem_of_nil in Ha.
Qed.

Lemma ex_tree : tree_in ex_heap (Dir 3 0 ex_forest).
Proof.
  split.
  - repeat constructor.
  - apply (bool_decide_unpack _). vm_compute. exact I.
  - assert (Hd : ∀ d, d ∈ [1; 2] → data_ok ex_heap d).
    { intros d Hd. assert (Hd' : d = 1 ∨ d = 2) by set_solver. destruct Hd' as [-> | ->]; do 2 eexists; (split; [reflexivity|]);
        (split; [reflexivity|]); by vm_compute. }
    apply Forall_forall. intros d Hin. split; [by apply Hd|]. simpl in Hin.
    assert (Hd' : d = 1 ∨ d = 2) by set_solver. destruct Hd' as [-> | ->]; apply (bool_decide_unpack _); vm_compute; exact I.
  - repeat constructor.
Qed.

Lemma sym_put_spec_witness :
  ∃ h' c' f', sym_put alloc_ok 3 (str "b,y") 1 0 ex_heap = Done 0 h' ∧ tree_in h' (Dir 3 c' f') ∧
    sym_get alloc_ok 3 (str "b,y") h' = Done 1 h'.
Proof.
  destruct (sym_put_spec ex_heap 3 0 ex_forest (str "b,y") 1 0 ex_good eq_refl ex_tree) as (h' & c' & f' & H1 & _ & _ & H2 & _ & H3 & _).
  - discriminate.
  - repeat constructor.
  - right. pose proof (seg_leaves _ _ _ _ ex_tree) as [H _]%Forall_cons. exact H.
  - exists h', c', f'. split; [exact H1|]. split; [exact H2|]. apply H3. reflexivity.
Defined.

Lemma sym_get_spec_witness : sym_get alloc_ok 3 (str "b,x") ex_heap = Done 2 ex_heap.
Proof. apply (sym_get_spec ex_heap 3 0 ex_forest (str "b,x") ex_good ex_tree). discriminate. Defined.

Lemma sym_get_empty_undefined_witness : sym_get alloc_ok 3 (str ",") ex_heap = UB.
Proof. apply (sym_get_empty_undefined ex_heap 3 (str ",")); [discriminate|reflexivity|reflexivity]. Defined.

Lemma sym_seq_all_witness :
  ∃ h', seq_list 3 3 R_FIRST ex_heap = Done [(5, 1); (7, 8)] h' ∧ tree_in h' (Dir 3 0 ex_forest).
Proof. apply (sym_seq_all ex_heap 3 0 ex_forest ex_good); [reflexivity|exact ex_tree]. Defined.

Lemma sym_dump_spec_witness : sym_dump 3 0 ex_heap = Done (0, fdump 0 ex_forest) ex_heap.
Proof. apply (sym_dump_spec ex_heap 3 0 ex_forest 0 ex_good ex_tree). Defined.

Lemma ex_owned : owned ex_heap (tblocks (Dir 3 0 ex_forest)) (tleaves (Dir 3 0 ex_forest)).
Proof.
  split; [apply ex_tree| | |].
  - pose proof (seg_leaves _ _ _ _ ex_tree) as Hl. eapply Forall_impl; [exact Hl|]. by intros d [].
  - apply (bool_decide_unpack _). vm_compute. exact I.
  - apply (bool_decide_unpack _). vm_compute. exact I.
Qed.

Lemma sym_rm_spec_witness :
  ∃ h', sym_rm 3 RM_KEY ex_heap = Done 0 h' ∧ freed ex_heap [1; 5; 4; 2; 10; 9; 8; 7; 6; 3] h'.
Proof. apply (sym_rm_spec ex_heap 3 0 ex_forest RM_KEY ex_owned). Defined.
