(* ===== verification/RandomRange.v ===== *)
(** * Random numbers in ranges: lib/random_range.c

    Parsing of range lists, the three functions that choose a multiple in a
    range (for [int], [long] and [long long]), the 64-bit [divider] and the
    choice of a bit of a mask.  Signed overflow is undefined; the value of
    [lrand48] is an input. *)

From S2P Require Import Prelude CInt CMem CString Splitstr.
Local Open Scope Z_scope.

(** ** Ranges *)

Record range : Type := Range { r_min : Z; r_max : Z; r_mult : Z }.

(** [sscanf(s, "%i%c", ...)]: the base from the prefix. *)
Definition sscanf_ic (s : cstr) : scan_uc :=
  match skip_space s with
  | [] => ScanEOF
  | s1 =>
      let '(neg, s2) := scan_sign s1 in
      let base := match s2 with
                  | c :: x :: h :: _ =>
                      if (c =c "0"%char) && ((x =c "x"%char) || (x =c "X"%char)) && is_base 16 h then 16
                      else if c =c "0"%char then 8 else 10
                  | c :: _ => if c =c "0"%char then 8 else 10
                  | [] => 10
                  end in
      let '(ds, rest) := span (is_base base) (skip_0x base s2) in
      match ds with
      | [] => ScanFail
      | _ =>
          let v := if neg then - dval base ds else dval base ds in
          let a := s32 (Z.max LONG_MIN (Z.min LONG_MAX v)) in
          match rest with [] => Scan1 a | c :: _ => Scan2 a c end
      end
  end.

(** [None] for the result -1. *)
Definition str_to_int (s : cstr) : option Z :=
  match sscanf_ic s with Scan1 a => Some a | _ => None end.

(** [sprintf(errmsg, "error parsing string %s into an integer", s)] into 256 bytes. *)
Definition parse_error {A} (s : cstr) : res (option A) :=
  if 256 <=? zlength (str "error parsing string " ++ s ++ str " into an integer") then Undef else Ret None.

(** A field that is parsed unless it is missing or empty. *)
Definition field (parse : cstr → option Z) (s : option cstr) (def : Z) : res (option Z) :=
  match s with
  | None | Some [] => Ret (Some def)
  | Some s => match parse s with Some v => Ret (Some v) | None => parse_error s end
  end.

(** The first colon cuts off a field. *)
Definition cut_colon (s : cstr) : cstr * option cstr :=
  let '(a, rest) := span (λ c, negb (c =c ":"%char)) s in
  (a, match rest with [] => None | _ :: r => Some r end).

(** One token; [None] for a parse error. *)
Definition parse_range (parse : cstr → option Z) (defmin defmax defmult : Z) (tok : cstr) : res (option range) :=
  let '(n1str, n2str) := cut_colon tok in
  let '(n2str, multstr) := match n2str with
                           | Some s => let '(a, m) := cut_colon s in (Some a, m)
                           | None => (None, None)
                           end in
  mn ← field parse (Some n1str) defmin;
  match mn with
  | None => Ret None
  | Some mn =>
      mx ← (match n2str with None => Ret (Some mn) | _ => field parse n2str defmax end);
      match mx with
      | None => Ret None
      | Some mx =>
          ml ← field parse multstr defmult;
          Ret (match ml with Some ml => Some (Range mn mx ml) | None => None end)
      end
  end.

(** The loop over the tokens, writing to the array of [ncommas + 1] ranges. *)
Fixpoint parse_loop (parse : cstr → option Z) (defmin defmax defmult : Z) (toks : list cstr)
  (ranges : list (option range)) (rp : Z) : res (option (list (option range) * Z)) :=
  match toks with
  | [] => Ret (Some (ranges, rp))
  | tok :: toks =>
      ranges ← mem_write ranges rp [Some (Range defmin defmax defmult)];
      r ← parse_range parse defmin defmax defmult tok;
      match r with
      | None => Ret None
      | Some r =>
          ranges ← mem_write ranges rp [Some r];
          parse_loop parse defmin defmax defmult toks ranges (rp + 1)
      end
  end.

(** The result, and the array given to the caller; [parse_func] is [None] for the
    null pointer. *)
Definition parse_ranges (s : cstr) (defmin defmax defmult : Z) (parse_func : option (cstr → option Z))
  : res (Z * list (option range)) :=
  let ncommas := length (filter (λ c, c = ","%char) s) in
  let parse := default str_to_int parse_func in
  r ← parse_loop parse defmin defmax defmult (strtok_all s (str ",")) (replicate (S ncommas) None) 0;
  Ret (match r with Some (ranges, n) => (n, ranges) | None => (-1, []) end).

(** [r] is assumed to be a range that was parsed. *)
Definition range_get (rbuf : list (option range)) (r : Z) : res range :=
  x ← mem_get rbuf r; match x with Some x => Ret x | None => Undef end.
Definition range_min (rbuf : list (option range)) (r : Z) : res Z := x ← range_get rbuf r; Ret (r_min x).
Definition range_max (rbuf : list (option range)) (r : Z) : res Z := x ← range_get rbuf r; Ret (r_max x).
Definition range_mult (rbuf : list (option range)) (r : Z) : res Z := x ← range_get rbuf r; Ret (r_mult x).

(** ** Random numbers *)

(** A value of the signed type whose greatest value is [m]. *)
Definition ck (m z : Z) : res Z := if (- m - 1 <=? z) && (z <=? m) then Ret z else Undef.

(** The exchange, and the moves to multiples. *)
Definition to_multiples (m min max mult : Z) : res (Z * Z) :=
  let '(min, max) := if max <? min then (max, min) else (min, max) in
  r ← crem min mult;
  min ← (if r =? 0 then Ret min else d ← ck m (mult - r); ck m (min + d));
  r ← crem max mult;
  max ← (if r =? 0 then Ret max else ck m (max - r));
  Ret (min, max).

(** [sprintf] of the second message into [char errbuf\[128\]]. *)
Definition no_multiple (min max mult : Z) : res cstr :=
  let t := str "no numbers in the range " ++ fmt_d min ++ str ":" ++ fmt_d max ++
           str " that are a multiple of " ++ fmt_d mult in
  if 128 <=? zlength t then Undef else Ret t.

(** The result, and what [*errp] is set to when [errp] is not null: [None] for the
    null pointer.  [pick nmults min max] is the choice of a number. *)
Definition choose_multiple (m : Z) (pick : Z → Z → Z → res Z) (min max mult : Z) : res (Z * option cstr) :=
  if mult <? 1 then Ret (-1, Some (str "mult arg must be greater than 0"))
  else
    r ← to_multiples m min max mult;
    let '(lo, hi) := (r : Z * Z) in
    if hi <? lo then msg ← no_multiple min max mult; Ret (-1, Some msg)
    else
      d ← ck m (hi - lo);
      nmults ← ck m (d %/ mult + 1);
      k ← pick nmults lo hi;
      p ← ck LONG_MAX (k * mult);
      v ← ck LONG_MAX (lo + p);
      Ret (v, None).

(** [lrand48() % nmults] *)
Definition pick_lrand48 (rnd nmults min max : Z) : res Z := crem rnd nmults.

Definition random_range (rnd min max mult : Z) : res (Z * option cstr) :=
  choose_multiple INT_MAX (pick_lrand48 rnd) min max mult.
Definition random_rangel (rnd min max mult : Z) : res (Z * option cstr) :=
  choose_multiple LONG_MAX (pick_lrand48 rnd) min max mult.

(** [rand & (1 << cnt)]: the shift is one of [int]. *)
Definition rand_bit (rand cnt : Z) : res bool :=
  if (0 <=? cnt) && (cnt <? 31) then Ret (negb (Z.land rand (Z.shiftl 1 cnt) =? 0)) else Undef.

(** The recursion ends at the latest when [cnt] is 33. *)
Fixpoint divider (fuel : nat) (rnd min max cnt rand : Z) : res Z :=
  match fuel with
  | O => NoFuel
  | S fuel =>
      if 32 <? cnt then Ret (-1)
      else
        let rand := if (cnt =? 0) || (rand <? -1) then rnd else rand in
        diff ← ck LONG_MAX (max - min);
        if diff <=? 2147483647 then ck LONG_MAX (min + rand)
        else
          let half := diff %/ 2 in
          med ← ck LONG_MAX (min + half);
          b ← rand_bit rand cnt;
          if half <=? 2147483647 then ck LONG_MAX ((if b : bool then med else min) + rand)
          else if b : bool then divider fuel rnd med max (cnt + 1) rand
          else divider fuel rnd min med (cnt + 1) rand
  end.

Definition pick_divider (rnd nmults min max : Z) : res Z :=
  if max <=? 2147483647 then crem rnd nmults
  else randnum ← divider 34 rnd min max 0 (-1); crem randnum nmults.
Definition random_rangell (rnd min max mult : Z) : res (Z * option cstr) :=
  choose_multiple LONG_MAX (pick_divider rnd) min max mult.

(** ** Bits *)

Fixpoint count_bits (n : nat) (mask bit nbits : Z) : Z :=
  match n with
  | O => nbits
  | S n => count_bits n mask (s64 (Z.shiftl bit 1)) (if negb (Z.land mask bit =? 0) then nbits + 1 else nbits)
  end.

(** The shifts until the chosen bit has been passed: their number. *)
Fixpoint shift_loop (fuel : nat) (mask bit nshift : Z) : res Z :=
  match fuel with
  | O => NoFuel
  | S fuel =>
      if bit =? 0 then Ret nshift
      else shift_loop fuel (Z.shiftr mask 1) (if negb (Z.land mask 1 =? 0) then bit - 1 else bit) (nshift + 1)
  end.

Definition random_bit (rnd mask : Z) : res Z :=
  if mask =? 0 then Ret 0
  else
    let nbits := count_bits 64 mask 1 0 in
    r ← random_range rnd 1 nbits 1;
    nshift ← shift_loop 66 mask (fst (r : Z * option cstr)) 0;
    Ret (s64 (Z.shiftl 1 (nshift - 1))).

(** ** Choosing a multiple *)

Lemma ck_ok m z : - m - 1 ≤ z ≤ m → ck m z = Ret z.
Proof. intros. unfold ck. by rewrite !(proj2 (Z.leb_le _ _)) by lia. Qed.

(** The first multiple from [lo] on and the last one up to [hi]. *)
Definition first_mult (lo mult : Z) : Z := mult * ((lo + mult - 1) / mult).
Definition last_mult (hi mult : Z) : Z := mult * (hi / mult).

Lemma multiples_between lo hi mult v :
  1 ≤ mult →
  lo ≤ v ≤ hi ∧ v mod mult = 0 ↔ ∃ k, 0 ≤ k ∧ v = first_mult lo mult + k * mult ∧ v ≤ last_mult hi mult.
Proof.
  intros Hm. unfold first_mult, last_mult. split.
  - intros [Hv Hz]. rewrite Z.mod_eq in Hz by lia. set (q := v / mult) in *. exists (q - (lo + mult - 1) / mult).
    assert (Hlo : (lo + mult - 1) / mult < q + 1) by (apply Z.div_lt_upper_bound; nia).
    assert (Hhi : q ≤ hi / mult) by (apply Z.div_le_lower_bound; lia). split; [lia|]. split; nia.
  - intros (k & Hk & -> & Hle). pose proof (Z.mul_succ_div_gt (lo + mult - 1) mult ltac:(lia)).
    pose proof (Z.mul_div_le hi mult ltac:(lia)). split; [nia|].
    rewrite (Z.mul_comm mult), <- Z.mul_add_distr_r. apply Z_mod_mult.
Qed.

Lemma first_mult_eq lo mult :
  1 ≤ mult → first_mult lo mult = if lo mod mult =? 0 then lo else lo + (mult - lo mod mult).
Proof.
  intros Hm. unfold first_mult. pose proof (Z.div_mod lo mult ltac:(lia)) as He.
  pose proof (Z.mod_pos_bound lo mult ltac:(lia)). case_if.
  - rewrite <- (Z.div_unique (lo + mult - 1) mult (lo / mult) (mult - 1)); lia.
  - rewrite <- (Z.div_unique (lo + mult - 1) mult (lo / mult + 1) (lo mod mult - 1)); lia.
Qed.

Lemma last_mult_eq hi mult : 1 ≤ mult → last_mult hi mult = hi - hi mod mult.
Proof. intros Hm. unfold last_mult. rewrite Z.mod_eq; lia. Qed.

Lemma to_multiples_spec m min max mult :
  0 ≤ Z.min min max → Z.max min max + mult ≤ m → 1 ≤ mult →
  to_multiples m min max mult = Ret (first_mult (Z.min min max) mult, last_mult (Z.max min max) mult).
Proof.
  intros Hlo Hhi Hm. unfold to_multiples.
  replace (if max <? min then (max, min) else (min, max)) with (Z.min min max, Z.max min max)
    by (case_if; f_equal; lia).
  set (lo := Z.min min max) in *. set (hi := Z.max min max) in *. assert (lo ≤ hi) by lia.
  rewrite !crem_ok, res_bind_ret, first_mult_eq, last_mult_eq by lia.
  pose proof (Z.mod_pos_bound lo mult ltac:(lia)). pose proof (Z.mod_pos_bound hi mult ltac:(lia)).
  case_if; [|rewrite ck_ok, res_bind_ret, ck_ok by lia]; rewrite !res_bind_ret;
    (case_if; [|rewrite ck_ok by lia]; rewrite res_bind_ret; repeat f_equal; lia).
Qed.

Lemma no_multiple_ok min max mult :
  0 ≤ min ≤ LONG_MAX → 0 ≤ max ≤ LONG_MAX → 0 ≤ mult ≤ LONG_MAX → ∃ msg, no_multiple min max mult = Ret msg.
Proof.
  assert (Hl : ∀ n, 0 ≤ n ≤ LONG_MAX → zlength (fmt_d n) ≤ 19).
  { intros n Hn. unfold fmt_d. rewrite (proj2 (Z.ltb_ge n 0)) by lia. pose proof (digits_length 10 n 19).
    unfold LONG_MAX in *. lia. }
  intros H1%Hl H2%Hl H3%Hl. unfold no_multiple. eexists. rewrite (proj2 (Z.leb_gt _ _)); [done|].
  rewrite !length_app. change (length (str "no numbers in the range ")) with 24%nat. change (length (str ":")) with 1%nat.
  change (length (str " that are a multiple of ")) with 24%nat. lia.
Qed.

(** What [choose_multiple] does with non-negative bounds. *)
Lemma choose_multiple_spec m pick min max mult :
  0 ≤ Z.min min max → Z.max min max + mult ≤ m → m ≤ LONG_MAX → 1 ≤ mult →
  let lo := first_mult (Z.min min max) mult in
  let hi := last_mult (Z.max min max) mult in
  if hi <? lo then ∃ msg, choose_multiple m pick min max mult = Ret (-1, Some msg)
  else ∀ k, pick ((hi - lo) / mult + 1) lo hi = Ret k → 0 ≤ k < (hi - lo) / mult + 1 →
    choose_multiple m pick min max mult = Ret (lo + k * mult, None) ∧ lo + k * mult ≤ hi.
Proof.
  intros Hlo Hhi Hml Hm. unfold choose_multiple. rewrite (proj2 (Z.ltb_ge mult 1)) by lia.
  rewrite to_multiples_spec by lia. rewrite res_bind_ret. cbn zeta.
  pose proof (Z.mod_pos_bound (Z.min min max) mult ltac:(lia)). pose proof (Z.mod_pos_bound (Z.max min max) mult ltac:(lia)).
  assert (Hlb : 0 ≤ first_mult (Z.min min max) mult) by (rewrite first_mult_eq by lia; case_if; lia).
  assert (Hub : last_mult (Z.max min max) mult ≤ Z.max min max) by (rewrite last_mult_eq; lia).
  set (lo := first_mult _ _) in *. set (hi := last_mult _ _) in *. destruct (hi <? lo) eqn:E; bool_hyps.
  - destruct (no_multiple_ok min max mult) as [msg ->]; [lia|lia|lia|]. by exists msg.
  - intros k Hp Hk. rewrite ck_ok, res_bind_ret by lia. rewrite Z.quot_div_nonneg by lia.
    pose proof (Z.div_mod (hi - lo) mult ltac:(lia)). pose proof (Z.mod_pos_bound (hi - lo) mult ltac:(lia)).
    assert ((hi - lo) / mult ≤ hi - lo) by nia.
    rewrite ck_ok, res_bind_ret, Hp, res_bind_ret by lia.
    assert (k * mult ≤ hi - lo) by nia. assert (0 ≤ k * mult) by nia.
    rewrite !ck_ok, res_bind_ret, ck_ok, res_bind_ret by lia. split; [done|lia].
Qed.

Lemma pick_lrand48_ok rnd n lo hi : 0 ≤ rnd → 0 < n → pick_lrand48 rnd n lo hi = Ret (rnd mod n).
Proof. apply crem_ok. Qed.

(** The choice by [lrand48] can reach every multiple. *)
Lemma choose_lrand48 m b min max mult v :
  0 ≤ Z.min min max → Z.max min max + mult ≤ m → m ≤ LONG_MAX → 1 ≤ mult → Z.max min max < b →
  (∃ rnd, 0 ≤ rnd < b ∧ choose_multiple m (pick_lrand48 rnd) min max mult = Ret (v, None)) ↔
  Z.min min max ≤ v ≤ Z.max min max ∧ v mod mult = 0.
Proof.
  intros Hlo Hhi Hml Hm Hb. rewrite multiples_between by done.
  assert (Hub : last_mult (Z.max min max) mult ≤ Z.max min max)
    by (rewrite last_mult_eq by lia; pose proof (Z.mod_pos_bound (Z.max min max) mult); lia).
  assert (Hlb : 0 ≤ first_mult (Z.min min max) mult).
  { rewrite first_mult_eq by lia. pose proof (Z.mod_pos_bound (Z.min min max) mult). case_if; lia. }
  assert (Hc := λ rnd, choose_multiple_spec m (pick_lrand48 rnd) min max mult Hlo Hhi Hml Hm). cbn zeta in Hc.
  set (lo := first_mult _ _) in *. set (hi := last_mult _ _) in *. destruct (hi <? lo) eqn:E; bool_hyps.
  - split; [intros (rnd & _ & Heq); destruct (Hc rnd) as [msg Hm']; congruence|]. intros (k & Hk & -> & Hle). nia.
  - assert (0 < (hi - lo) / mult + 1) by (pose proof (Z.div_pos (hi - lo) mult); lia).
    pose proof (Z.div_mod (hi - lo) mult ltac:(lia)). pose proof (Z.mod_pos_bound (hi - lo) mult ltac:(lia)). split.
    + intros (rnd & Hr & Heq).
      destruct (Hc rnd (rnd mod ((hi - lo) / mult + 1))) as [Heq' Hle]; [apply pick_lrand48_ok; lia|apply Z.mod_pos_bound; lia|].
      rewrite Heq in Heq'. injection Heq' as ->. eexists. split; [|split; [reflexivity|done]]. apply Z.mod_pos_bound. lia.
    + intros (k & Hk & -> & Hle). exists k. assert (k < (hi - lo) / mult + 1) by nia. split; [nia|].
      apply (Hc k k); [|lia]. rewrite pick_lrand48_ok by lia. f_equal. apply Z.mod_small. lia.
Qed.

Lemma choose_none m rnd min max mult :
  0 ≤ Z.min min max → Z.max min max + mult ≤ m → m ≤ LONG_MAX → 1 ≤ mult → 0 ≤ rnd →
  (∃ v, choose_multiple m (pick_lrand48 rnd) min max mult = Ret (v, None)) ∨
  (∃ msg, choose_multiple m (pick_lrand48 rnd) min max mult = Ret (-1, Some msg)).
Proof.
  intros Hlo Hhi Hml Hm Hr. pose proof (choose_multiple_spec m (pick_lrand48 rnd) min max mult Hlo Hhi Hml Hm) as Hc.
  cbn zeta in Hc. set (lo := first_mult _ _) in *. set (hi := last_mult _ _) in *. destruct (hi <? lo) eqn:E; [by right|left].
  bool_hyps. assert (0 < (hi - lo) / mult + 1) by (pose proof (Z.div_pos (hi - lo) mult); lia).
  rewrite pick_lrand48_ok in Hc by lia. destruct (Hc _ eq_refl); [apply Z.mod_pos_bound; lia|by eexists].
Qed.

(** ** [divider] *)

Lemma divider_spec fuel rnd min max cnt rand :
  0 ≤ rnd < 2 ^ 31 → (cnt = 0 ∨ rand = rnd) → 0 ≤ cnt ≤ 30 → 0 ≤ min ≤ max → max < 2 ^ 62 →
  max - min ≤ 2 ^ (61 - cnt) → 31 - cnt < Z.of_nat fuel →
  ∃ v, divider fuel rnd min max cnt rand = Ret v ∧ min ≤ v < max + 2 ^ 31.
Proof.
  intros Hr. revert min max cnt rand. induction fuel as [|fuel IH]; intros min max cnt rand Hrand Hc Hmin Hmax Hd Hf; [lia|].
  cbn [divider]. rewrite (proj2 (Z.ltb_ge 32 cnt)) by lia.
  replace (if (cnt =? 0) || (rand <? -1) then rnd else rand) with rnd by (case_if; [done|]; destruct Hrand; bool_hyps; lia).
  rewrite (ck_ok LONG_MAX (max - min)), res_bind_ret by (unfold LONG_MAX; lia). case_if.
  { rewrite ck_ok by (unfold LONG_MAX; lia). eexists. split; [done|lia]. }
  rewrite Z.quot_div_nonneg by lia. set (half := (max - min) / 2).
  assert (Hh : 2 * half ≤ max - min ≤ 2 * half + 1) by (unfold half; zlia).
  rewrite (ck_ok LONG_MAX (min + half)), res_bind_ret by (unfold LONG_MAX; lia). unfold rand_bit.
  rewrite (proj2 (Z.leb_le 0 cnt)), (proj2 (Z.ltb_lt cnt 31)) by lia. cbn [andb]. rewrite res_bind_ret.
  destruct (half <=? 2147483647) eqn:Eh; bool_hyps.
  { destruct (negb _); rewrite ck_ok by (unfold LONG_MAX; lia); eexists; (split; [done|lia]). }
  assert (Hc' : cnt ≤ 29).
  { destruct (decide (cnt = 30)) as [->|]; [|lia]. change (2 ^ (61 - 30)) with 2147483648 in Hd. lia. }
  assert (Hp : 2 ^ (61 - cnt) = 2 * 2 ^ (61 - (cnt + 1))).
  { rewrite <- Z.pow_succ_r by lia. f_equal. lia. }
  destruct (negb _).
  - destruct (IH (min + half) max (cnt + 1) rnd) as (v & -> & Hv); [by right|lia|lia|lia|lia|lia|]. eexists. split; [done|lia].
  - destruct (IH min (min + half) (cnt + 1) rnd) as (v & -> & Hv); [by right|lia|lia|lia|lia|lia|]. eexists. split; [done|lia].
Qed.

(** ** Bits *)

(** The positions of the set bits of [m] among the [n] from [s] on. *)
Definition bits_from (m s : Z) (n : nat) : list Z := filter (λ i, Z.testbit m i = true) (seqZ s (Z.of_nat n)).

Lemma bits_from_S m s n :
  bits_from m s (S n) = if Z.testbit m s then s :: bits_from m (s + 1) n else bits_from m (s + 1) n.
Proof.
  unfold bits_from. rewrite seqZ_cons by lia. rewrite filter_cons. replace (Z.pred (Z.of_nat (S n))) with (Z.of_nat n) by lia.
  destruct (Z.testbit m s); [by rewrite decide_True|by rewrite decide_False].
Qed.

Lemma bits_from_elem m s n i : i ∈ bits_from m s n ↔ s ≤ i < s + Z.of_nat n ∧ Z.testbit m i = true.
Proof. unfold bits_from. rewrite list_elem_of_filter, elem_of_seqZ. tauto. Qed.

Lemma land_pow2 m i : 0 ≤ i → negb (Z.land m (2 ^ i) =? 0) = Z.testbit m i.
Proof.
  intros Hi. destruct (Z.testbit m i) eqn:E.
  - apply negb_true_iff, Z.eqb_neq. intros H0. assert (Ht : Z.testbit (Z.land m (2 ^ i)) i = true).
    { rewrite Z.land_spec, E, Z.pow2_bits_true by lia. done. }
    by rewrite H0, Z.bits_0 in Ht.
  - apply negb_false_iff, Z.eqb_eq. apply Z.bits_inj'. intros j Hj. rewrite Z.land_spec, Z.bits_0.
    destruct (decide (j = i)) as [->|]; [by rewrite E|]. rewrite Z.pow2_bits_false by lia. apply andb_false_r.
Qed.

Lemma s64_pow2 j : 0 ≤ j < 63 → s64 (2 ^ j) = 2 ^ j.
Proof.
  intros Hj. apply s64_id. pose proof (Z.pow_pos_nonneg 2 j). assert (2 ^ j < 2 ^ 63) by (apply Z.pow_lt_mono_r; lia). lia.
Qed.

(** The test of a bit of a [long], the sign bit included. *)
Lemma land_bit m j : in_s 64 m → 0 ≤ j < 64 → negb (Z.land m (s64 (2 ^ j)) =? 0) = Z.testbit m j.
Proof.
  intros Hm Hj. destruct (decide (j = 63)) as [->|]; [|by rewrite s64_pow2, land_pow2 by lia].
  unfold in_s in Hm. change (64 - 1) with 63 in Hm. change (s64 (2 ^ 63)) with (- 2 ^ 63).
  change (- 2 ^ 63) with (Z.lnot (Z.ones 63)). rewrite <- Z.ldiff_land, Z.ldiff_ones_r, Z.testbit_odd by lia.
  assert (Hq : Z.shiftr m 63 = 0 ∨ Z.shiftr m 63 = -1) by (rewrite Z.shiftr_div_pow2 by lia; zlia).
  by destruct Hq as [-> | ->].
Qed.

Lemma count_bits_spec n m j c :
  in_s 64 m → 0 ≤ j → j + Z.of_nat n ≤ 64 →
  count_bits n m (s64 (2 ^ j)) c = c + zlength (bits_from m j n).
Proof.
  intros Hm. revert j c. induction n as [|n IH]; intros j c Hj Hn; [simpl; lia|].
  cbn [count_bits]. rewrite land_bit, bits_from_S by (done || lia).
  assert (Hs : n ≠ 0%nat → s64 (Z.shiftl (s64 (2 ^ j)) 1) = s64 (2 ^ (j + 1))).
  { intros Hn0. rewrite s64_pow2, Z.shiftl_mul_pow2, Z.pow_add_r by lia. done. }
  destruct (decide (n = 0%nat)) as [->|Hn0]; [destruct (Z.testbit m j); simpl; lia|].
  rewrite Hs, IH by lia. destruct (Z.testbit m j); simpl; lia.
Qed.

Lemma shift_loop_spec n m s k fuel :
  0 ≤ s → (k ≤ length (bits_from m s n))%nat → (n < fuel)%nat →
  shift_loop fuel (Z.shiftr m s) (Z.of_nat k) s =
  Ret (match k with O => s | S k => bits_from m s n !!! k + 1 end).
Proof.
  revert s k fuel. induction n as [|n IH]; intros s k [|fuel] Hs Hk Hf; try lia; cbn [shift_loop].
  - destruct k; [done|]. simpl in Hk. lia.
  - destruct k as [|k]; [done|]. rewrite (proj2 (Z.eqb_neq (Z.of_nat (S k)) 0)) by lia.
    rewrite Z.shiftr_shiftr by lia. assert (Hb : negb (Z.land (Z.shiftr m s) 1 =? 0) = Z.testbit m s).
    { change 1 with (2 ^ 0) at 1. rewrite land_pow2 by lia. rewrite Z.shiftr_spec by lia. f_equal. }
    rewrite Hb. rewrite bits_from_S in Hk |- *. destruct (Z.testbit m s).
    + replace (Z.of_nat (S k) - 1) with (Z.of_nat k) by lia. rewrite IH by (simpl in Hk; lia). by destruct k.
    + rewrite (IH (s + 1) (S k)) by lia. done.
Qed.

(** ** Range lists *)

Definition range_ok (r : range) : Prop :=
  INT_MIN ≤ r_min r ≤ INT_MAX ∧ INT_MIN ≤ r_max r ≤ INT_MAX ∧ INT_MIN ≤ r_mult r ≤ INT_MAX.
Definition range_text (r : range) : cstr := fmt_d (r_min r) ++ ":"%char :: fmt_d (r_max r) ++ ":"%char :: fmt_d (r_mult r).
Fixpoint commas (ws : list cstr) : cstr :=
  match ws with
  | [] => []
  | [w] => w
  | w :: ws => w ++ ","%char :: commas ws
  end.

(** A number starts with a digit that is not zero, unless it is zero. *)
Lemma digits_go_head fuel base n acc :
  2 ≤ base ≤ 16 → 0 < n < base ^ Z.of_nat fuel →
  ∃ d rest, digits_go fuel base n acc = digit_char d :: rest ∧ 0 < d < base.
Proof.
  intros Hb. revert n acc. induction fuel as [|fuel IH]; intros n acc Hn; [simpl in Hn; lia|].
  cbn [digits_go]. case_if; [by exists n, acc; split; [|lia]|].
  rewrite Nat2Z.inj_succ, Z.pow_succ_r in Hn by lia. apply IH. split; [apply Z.div_str_pos; lia|].
  apply Z.div_lt_upper_bound; lia.
Qed.

Lemma digits_head n : 0 < n → ∃ c rest, digits 10 n = c :: rest ∧ (c =c "0"%char) = false.
Proof.
  intros Hn. destruct (digits_go_head (S (Z.to_nat (Z.log2 n))) 10 n []) as (d & rest & Heq & Hd); [lia| |].
  { pose proof (digits_fuel 10 n). lia. }
  exists (digit_char d), rest. split; [done|]. destruct (eqc_spec (digit_char d) "0"%char) as [E|]; [|done].
  pose proof (digit_char_digit d ltac:(lia)) as Hd'. rewrite E in Hd'. change (digit "0") with 0 in Hd'. lia.
Qed.

Lemma sscanf_ic_digits (neg : bool) n :
  0 ≤ n → - LONG_MAX ≤ (if neg then - n else n) ≤ LONG_MAX →
  sscanf_ic ((if neg then ["-"%char] else []) ++ digits 10 n) = Scan1 (s32 (if neg then - n else n)).
Proof.
  intros Hn Hl. destruct (digits_spec 10 n ltac:(lia) Hn) as (Hne & Hds & Hv).
  assert (Hscan : ∃ base, span (is_base base) (skip_0x base (digits 10 n)) = (digits 10 n, []) ∧ dval base (digits 10 n) = n ∧
    base = match digits 10 n with
           | c :: x :: h :: _ =>
               if (c =c "0"%char) && ((x =c "x"%char) || (x =c "X"%char)) && is_base 16 h then 16
               else if c =c "0"%char then 8 else 10
           | c :: _ => if c =c "0"%char then 8 else 10
           | [] => 10
           end).
  { destruct (decide (n = 0)) as [->|]; [by exists 8|]. exists 10. destruct (digits_head n ltac:(lia)) as (c & rest & Hd & Hc).
    rewrite skip_0x_10. split_and!; [|done|].
    - rewrite <- (app_nil_r (digits 10 n)) at 1. by apply span_app.
    - rewrite Hd, Hc. by destruct rest as [|x [|y rest]]. }
  destruct Hscan as (base & Hspan & Hval & Hbase). destruct (digits 10 n) as [|d ds] eqn:Ed; [done|].
  apply Forall_cons in Hds as [Hd _]. destruct (is_base_digit 10 d ltac:(lia) Hd) as (Hsp & Hm & Hp & _).
  unfold sscanf_ic, skip_space.
  destruct neg; cbn [app span]; [change (isspace "-") with false|rewrite Hsp]; cbn [snd scan_sign];
    [change ("-" =c "-")%char with true|rewrite Hm, Hp]; cbn iota; rewrite <- Hbase, Hspan, Hval;
    by rewrite Z.min_r, Z.max_r by (unfold LONG_MIN, LONG_MAX in *; lia).
Qed.

Lemma str_to_int_fmt n : INT_MIN ≤ n ≤ INT_MAX → str_to_int (fmt_d n) = Some n.
Proof.
  intros Hn. unfold INT_MIN, INT_MAX in Hn. unfold str_to_int, fmt_d. case_if.
  - pose proof (sscanf_ic_digits true (- n)) as Hs. cbn [app] in Hs. rewrite Hs by (unfold LONG_MAX; lia).
    f_equal. rewrite Z.opp_involutive. apply s32_id. lia.
  - pose proof (sscanf_ic_digits false n) as Hs. cbn [app] in Hs. rewrite Hs by (unfold LONG_MAX; lia). f_equal. apply s32_id. lia.
Qed.

Lemma fmt_d_no c n : is_base 10 c = false → ("-"%char =c c) = false → Forall (λ x, (x =c c) = false) (fmt_d n) ∧ fmt_d n ≠ [].
Proof.
  intros Hc Hm. unfold fmt_d. destruct (digits_spec 10 (Z.abs n) ltac:(lia) ltac:(lia)) as (Hne & Hds & _).
  pose proof (digits_no 10 c _ Hc Hds) as Hno. case_if.
  - rewrite Z.abs_neq in Hno by lia. split; [by constructor|done].
  - by rewrite Z.abs_eq in Hno, Hne by lia.
Qed.

Lemma cut_colon_no a s : Forall (λ x, (x =c ":"%char) = false) a → cut_colon (a ++ ":"%char :: s) = (a, Some s).
Proof.
  intros Ha. unfold cut_colon. rewrite span_app; [done| |done]. eapply Forall_impl; [exact Ha|]. simpl. by intros x ->.
Qed.

Lemma cut_colon_none a : Forall (λ x, (x =c ":"%char) = false) a → cut_colon a = (a, None).
Proof.
  intros Ha. unfold cut_colon. rewrite <- (app_nil_r a) at 1. rewrite span_app; [done| |done].
  eapply Forall_impl; [exact Ha|]. simpl. by intros x ->.
Qed.

Lemma field_fmt n def : INT_MIN ≤ n ≤ INT_MAX → field str_to_int (Some (fmt_d n)) def = Ret (Some n).
Proof.
  intros Hn. unfold field. destruct (fmt_d_no ":"%char n eq_refl eq_refl) as [_ Hne].
  pose proof (str_to_int_fmt n Hn) as Hs. destruct (fmt_d n); [done|]. by rewrite Hs.
Qed.

Lemma parse_range_text defmin defmax defmult r :
  range_ok r → parse_range str_to_int defmin defmax defmult (range_text r) = Ret (Some r).
Proof.
  intros (H1 & H2 & H3). unfold parse_range, range_text. destruct r as [mn mx ml]. cbn [r_min r_max r_mult] in *.
  rewrite cut_colon_no by (by apply fmt_d_no). rewrite cut_colon_no by (by apply fmt_d_no).
  rewrite (field_fmt mn), res_bind_ret, (field_fmt mx), res_bind_ret, (field_fmt ml), res_bind_ret by done. done.
Qed.

Lemma range_text_word r : range_text r ≠ [] ∧ Forall (λ c, mem c (str ",") = false) (range_text r).
Proof.
  assert (Hf : ∀ n, Forall (λ c, mem c (str ",") = false) (fmt_d n)).
  { intros n. destruct (fmt_d_no ","%char n eq_refl eq_refl) as [Hf _]. eapply Forall_impl; [exact Hf|].
    intros x Hx. unfold mem. simpl. by rewrite Hx. }
  split; [unfold range_text; by destruct (fmt_d (r_min r))|]. unfold range_text.
  apply Forall_app. split; [done|]. constructor; [done|]. apply Forall_app. split; [done|]. by constructor.
Qed.

Lemma strtok_commas ws :
  Forall (λ w, w ≠ [] ∧ Forall (λ c, mem c (str ",") = false) w) ws → strtok_all (commas ws) (str ",") = ws.
Proof.
  unfold strtok_all. induction 1 as [|w ws [Hne Hw] Hws IH]; [done|]. destruct ws as [|w' ws].
  - cbn [commas]. rewrite <- (app_nil_r w) at 1. rewrite strtok_go_word by done. rewrite app_nil_r. simpl.
    destruct (reverse w) eqn:E; [|by rewrite <- E, reverse_involutive].
    apply (f_equal reverse) in E. rewrite reverse_involutive in E. done.
  - change (commas (w :: w' :: ws)) with (w ++ ","%char :: commas (w' :: ws)). rewrite strtok_word by done. by rewrite IH.
Qed.

Lemma count_commas ws :
  Forall (λ w, w ≠ [] ∧ Forall (λ c, mem c (str ",") = false) w) ws → ws ≠ [] →
  S (length (filter (λ c, c = ","%char) (commas ws))) = length ws.
Proof.
  assert (Hw0 : ∀ w, Forall (λ c, mem c (str ",") = false) w → filter (λ c, c = ","%char) w = []).
  { induction 1 as [|c w Hc Hw IH]; [done|]. rewrite filter_cons, decide_False; [done|]. by intros ->. }
  induction 1 as [|w ws [Hne Hw] Hws IH]; [done|]. intros _. destruct ws as [|w' ws].
  - cbn [commas]. by rewrite Hw0.
  - change (commas (w :: w' :: ws)) with (w ++ ","%char :: commas (w' :: ws)). rewrite filter_app, Hw0 by done.
    cbn [app]. rewrite filter_cons, decide_True by done. cbn [length]. by rewrite IH.
Qed.

Lemma mem_write_middle {A} (l : list A) x y rest : mem_write (l ++ x :: rest) (zlength l) [y] = Ret (l ++ y :: rest).
Proof.
  rewrite mem_write_ok; [|lia|rewrite length_app; simpl; lia]. f_equal. unfold store. rewrite Nat2Z.id.
  rewrite take_app_le, firstn_all by lia. f_equal. cbn [length]. rewrite drop_app_ge by lia.
  by replace (length l + 1 - length l)%nat with 1%nat by lia.
Qed.

Lemma mem_write_first {A} (x y : A) rest : mem_write (x :: rest) 0 [y] = Ret (y :: rest).
Proof. apply (mem_write_middle []). Qed.

Lemma parse_loop_spec parse defmin defmax defmult toks rs done k :
  Forall2 (λ tok r, parse_range parse defmin defmax defmult tok = Ret (Some r)) toks rs →
  parse_loop parse defmin defmax defmult toks (map Some done ++ replicate (length rs + k) None) (zlength done) =
  Ret (Some (map Some (done ++ rs) ++ replicate k None, zlength done + zlength rs)).
Proof.
  intros Hall. revert done. induction Hall as [|tok r toks rs Hr Hall IH]; intros l; cbn [parse_loop length].
  - rewrite app_nil_r. simpl. repeat f_equal. lia.
  - cbn [replicate Nat.add]. rewrite <- (length_map Some l) at 1. rewrite mem_write_middle, res_bind_ret, Hr, res_bind_ret.
    rewrite <- (length_map Some l) at 1. rewrite mem_write_middle, res_bind_ret.
    specialize (IH (l ++ [r])). rewrite map_app, <- app_assoc, length_app in IH. cbn [map app length] in IH.
    replace (Z.of_nat (length l + 1)) with (zlength l + 1) in IH by lia. rewrite IH, <- app_assoc.
    by replace (zlength l + 1 + zlength rs) with (zlength l + Z.of_nat (S (length rs))) by lia.
Qed.

(** ** Properties *)

(** With non-negative bounds, in either order, and a positive [mult],
    [random_range] returns without error exactly the multiples of [mult] between
    the bounds: every value it returns is one, each of them is returned for some
    value of [lrand48], and it reports an error when there is none. *)
Theorem random_range_spec min max mult
  (Hlo : 0 ≤ Z.min min max) (Hhi : Z.max min max + mult ≤ INT_MAX) (Hm : 1 ≤ mult) :
  (∀ v, (∃ rnd, 0 ≤ rnd < 2 ^ 31 ∧ random_range rnd min max mult = Ret (v, None)) ↔
     Z.min min max ≤ v ≤ Z.max min max ∧ v mod mult = 0) ∧
  (∀ rnd, 0 ≤ rnd → (∃ v, random_range rnd min max mult = Ret (v, None)) ∨
     ∃ msg, random_range rnd min max mult = Ret (-1, Some msg)).
Proof.
  assert (INT_MAX ≤ LONG_MAX) by done. split.
  - intros v. unfold INT_MAX in *. by apply choose_lrand48; [|unfold INT_MAX; lia..].
  - intros rnd Hr. by apply choose_none.
Qed.

(** With negative bounds the number may lie above the maximum: C's remainder
    is negative there, and subtracting it rounds up. *)
Theorem random_range_above_max : random_range 2 (-9) (-5) 3 = Ret (-3, None).
Proof. reflexivity. Qed.

(** With a negative minimum the number that [divider] gives may be negative, its
    remainder too, and the result lies below the minimum. *)
Lemma random_rangell_below_min : random_rangell 0 (-3) (2 ^ 31) 1 = Ret (-6, None).
Proof. vm_compute. reflexivity. Qed.

(** [random_rangell] with non-negative bounds below 2^62 that are at most 2^61
    apart always returns, and returns a multiple between the bounds or an error
    when there is none: the recursion of [divider] ends, and its shifts and
    additions do not overflow. *)
Theorem random_rangell_spec rnd min max mult
  (Hr : 0 ≤ rnd < 2 ^ 31) (Hlo : 0 ≤ Z.min min max) (Hhi : Z.max min max < 2 ^ 62)
  (Hd : Z.max min max - Z.min min max ≤ 2 ^ 61) (Hm : 1 ≤ mult ≤ 2 ^ 61) :
  (∃ v, random_rangell rnd min max mult = Ret (v, None) ∧ Z.min min max ≤ v ≤ Z.max min max ∧ v mod mult = 0) ∨
  (∃ msg, random_rangell rnd min max mult = Ret (-1, Some msg) ∧
     ∀ v, Z.min min max ≤ v ≤ Z.max min max → v mod mult ≠ 0).
Proof.
  pose proof (choose_multiple_spec LONG_MAX (pick_divider rnd) min max mult Hlo ltac:(unfold LONG_MAX; lia) ltac:(done) ltac:(lia)) as Hc.
  cbn zeta in Hc. pose proof (Z.mod_pos_bound (Z.min min max) mult ltac:(lia)). pose proof (Z.mod_pos_bound (Z.max min max) mult ltac:(lia)).
  assert (Hlb : Z.min min max ≤ first_mult (Z.min min max) mult) by (rewrite first_mult_eq by lia; case_if; lia).
  assert (Hub : last_mult (Z.max min max) mult ≤ Z.max min max) by (rewrite last_mult_eq; lia).
  assert (Hb := λ v, multiples_between (Z.min min max) (Z.max min max) mult v ltac:(lia)).
  set (lo := first_mult _ _) in *. set (hi := last_mult _ _) in *. destruct (hi <? lo) eqn:E; bool_hyps.
  - right. destruct Hc as [msg Hc]. exists msg. split; [done|]. intros v Hv Hz. destruct (proj1 (Hb v) (conj Hv Hz)) as (k & Hk & Hvk & Hle). nia.
  - left. assert (Hn : 0 < (hi - lo) / mult + 1) by (pose proof (Z.div_pos (hi - lo) mult); lia).
    assert (Hk : ∃ k, pick_divider rnd ((hi - lo) / mult + 1) lo hi = Ret k ∧ 0 ≤ k < (hi - lo) / mult + 1).
    { unfold pick_divider. case_if.
      - rewrite crem_ok by lia. eexists. split; [done|]. by apply Z.mod_pos_bound.
      - destruct (divider_spec 34 rnd lo hi 0 (-1)) as (w & -> & Hw); [lia|by left|lia|lia|lia|change (2 ^ (61 - 0)) with (2 ^ 61); lia|lia|].
        rewrite res_bind_ret, crem_ok by lia. eexists. split; [done|]. by apply Z.mod_pos_bound. }
    destruct Hk as (k & Hp & Hk). destruct (Hc k Hp Hk) as [Heq Hle]. eexists. split; [exact Heq|].
    apply Hb. exists k. split; [lia|done].
Qed.

(** A list of ranges in the format [min:max:mult,...] is parsed back, whatever
    the defaults; the array is large enough. *)
Theorem parse_ranges_text rs defmin defmax defmult (Hne : rs ≠ []) (Hrs : Forall range_ok rs) :
  parse_ranges (commas (map range_text rs)) defmin defmax defmult None = Ret (zlength rs, map Some rs).
Proof.
  assert (Hw : Forall (λ w, w ≠ [] ∧ Forall (λ c, mem c (str ",") = false) w) (map range_text rs)).
  { apply Forall_map, Forall_forall. intros r _. apply range_text_word. }
  unfold parse_ranges. cbn [default]. rewrite strtok_commas by done.
  rewrite (count_commas _ Hw) by (by destruct rs). rewrite length_map.
  pose proof (parse_loop_spec str_to_int defmin defmax defmult (map range_text rs) rs [] 0) as Hp.
  rewrite Nat.add_0_r in Hp. cbn [map app] in Hp. change (zlength []) with 0 in Hp. rewrite Hp.
  - cbn [replicate]. by rewrite app_nil_r.
  - apply Forall2_fmap_l. apply Forall_Forall2_diag. eapply Forall_impl; [exact Hrs|]. intros r Hr. by apply parse_range_text.
Qed.

(** The message for a field that is no number overflows its buffer of 256 bytes
    when the field is long. *)
Theorem parse_error_overflow s defmin defmax defmult
  (Hno : Forall (λ c, mem c (str ",:") = false) s) (Hlen : 219 ≤ zlength s) (Hbad : str_to_int s = None) :
  parse_ranges s defmin defmax defmult None = Undef.
Proof.
  assert (Hs : s ≠ []) by (by intros ->).
  assert (Hc : Forall (λ c, mem c (str ",") = false) s).
  { eapply Forall_impl; [exact Hno|]. intros c. unfold mem. simpl. by destruct (Ascii.eqb c ","). }
  assert (Hcol : Forall (λ x, (x =c ":"%char) = false) s).
  { eapply Forall_impl; [exact Hno|]. intros c. unfold mem. simpl. by destruct (Ascii.eqb c ","), (c =c ":"%char). }
  unfold parse_ranges. pose proof (strtok_commas [s] ltac:(by constructor)) as Ht. cbn [commas] in Ht. rewrite Ht.
  cbn [default parse_loop replicate]. rewrite mem_write_first, res_bind_ret. unfold parse_range.
  rewrite cut_colon_none by done. unfold field. destruct s as [|c s]; [done|]. rewrite Hbad. unfold parse_error.
  rewrite (proj2 (Z.leb_le _ _)); [done|]. rewrite !length_app.
  change (length (str "error parsing string ")) with 21%nat. change (length (str " into an integer")) with 16%nat. lia.
Qed.

Lemma random_range_one rnd n : 1 ≤ n ≤ 64 → 0 ≤ rnd → random_range rnd 1 n 1 = Ret (1 + rnd mod n, None).
Proof.
  intros Hn Hr.
  pose proof (choose_multiple_spec INT_MAX (pick_lrand48 rnd) 1 n 1 ltac:(lia) ltac:(unfold INT_MAX; lia) ltac:(done) ltac:(lia)) as Hc.
  cbn zeta in Hc. rewrite first_mult_eq, last_mult_eq, !Z.mod_1_r in Hc by lia. rewrite Z.min_l, Z.max_r, Z.sub_0_r in Hc by lia.
  change (0 =? 0) with true in Hc. cbn iota in Hc. rewrite (proj2 (Z.ltb_ge n 1)), Z.div_1_r in Hc by lia. replace (n - 1 + 1) with n in Hc by lia.
  destruct (Hc (rnd mod n)) as [Heq _]; [by apply pick_lrand48_ok; lia|apply Z.mod_pos_bound; lia|].
  unfold random_range. rewrite Heq. repeat f_equal. lia.
Qed.

Lemma bits_nonempty m : in_s 64 m → m ≠ 0 → bits_from m 0 64 ≠ [].
Proof.
  intros Hm H0 HL. unfold in_s in Hm. change (64 - 1) with 63 in Hm.
  assert (Hf : ∀ i, 0 ≤ i < 64 → Z.testbit m i = false).
  { intros i Hi. destruct (Z.testbit m i) eqn:E; [|done].
    assert (Hin : i ∈ bits_from m 0 64) by (by apply bits_from_elem). rewrite HL in Hin. by apply not_elem_of_nil in Hin. }
  assert (Hq : Z.shiftr m 63 = 0).
  { assert (Hq : Z.shiftr m 63 = 0 ∨ Z.shiftr m 63 = -1) by (rewrite Z.shiftr_div_pow2 by lia; zlia).
    destruct Hq as [?|Hq]; [done|]. specialize (Hf 63 ltac:(lia)). by rewrite Z.testbit_odd, Hq in Hf. }
  apply H0, Z.bits_inj'. intros i Hi. rewrite Z.bits_0. destruct (decide (i < 63)); [apply Hf; lia|].
  replace i with ((i - 63) + 63) by lia. rewrite <- Z.shiftr_spec, Hq by lia. apply Z.bits_0.
Qed.

Lemma bits_from_length m s n : (length (bits_from m s n) ≤ n)%nat.
Proof.
  unfold bits_from. pose proof (length_filter (λ i, Z.testbit m i = true) (seqZ s (Z.of_nat n))). rewrite length_seqZ in *. lia.
Qed.

(** The bit [random_bit] returns. *)
Lemma random_bit_run mask rnd :
  in_s 64 mask → mask ≠ 0 → 0 ≤ rnd →
  let L := bits_from mask 0 64 in
  0 < zlength L ≤ 64 ∧ random_bit rnd mask = Ret (s64 (2 ^ (L !!! Z.to_nat (rnd mod zlength L)))).
Proof.
  intros Hm H0 Hr L. assert (Hcount : count_bits 64 mask 1 0 = zlength L).
  { change 1 with (s64 (2 ^ 0)) at 1. by rewrite count_bits_spec by (done || lia). }
  assert (HL : 0 < zlength L ≤ 64).
  { clear Hcount. pose proof (bits_nonempty mask Hm H0) as Hn. pose proof (bits_from_length mask 0 64). fold L in Hn, H.
    clearbody L. destruct L; [done|cbn [length] in *; lia]. }
  split; [exact HL|]. unfold random_bit. rewrite (proj2 (Z.eqb_neq mask 0) H0), Hcount, random_range_one by lia.
  clear Hcount. rewrite res_bind_ret. cbn [fst]. pose proof (Z.mod_pos_bound rnd (zlength L) ltac:(lia)).
  pose proof (shift_loop_spec 64 mask 0 (S (Z.to_nat (rnd mod zlength L))) 66 ltac:(lia)) as Hs.
  rewrite Z.shiftr_0_r in Hs. fold L in Hs.
  replace (1 + rnd mod zlength L) with (Z.of_nat (S (Z.to_nat (rnd mod zlength L)))) by lia.
  rewrite Hs, res_bind_ret by lia. by rewrite Z.add_simpl_r, Z.shiftl_1_l.
Qed.

(** For a non-zero mask [random_bit] returns exactly the words with one of the
    bits of the mask, the sign bit included, and its loop ends. *)
Theorem random_bit_spec mask v (Hm : in_s 64 mask) (H0 : mask ≠ 0) :
  (∃ rnd, 0 ≤ rnd < 2 ^ 31 ∧ random_bit rnd mask = Ret v) ↔
  ∃ i, 0 ≤ i < 64 ∧ Z.testbit mask i = true ∧ v = s64 (2 ^ i).
Proof.
  assert (Hrun := λ rnd, random_bit_run mask rnd Hm H0). cbn zeta in Hrun.
  assert (Hin := λ i, bits_from_elem mask 0 64 i). set (L := bits_from mask 0 64) in *. clearbody L. split.
  - intros (rnd & Hr & Heq). destruct (Hrun rnd ltac:(lia)) as [HL Heq']. rewrite Heq' in Heq. injection Heq as <-.
    pose proof (Z.mod_pos_bound rnd (zlength L) ltac:(lia)).
    destruct (proj1 (Hin (L !!! Z.to_nat (rnd mod zlength L)))) as [Hi Ht]; [apply list_elem_of_lookup_total_2; lia|].
    eexists. split; [exact Hi|]. split; [exact Ht|reflexivity].
  - intros (i & Hi & Ht & ->). pose proof (proj2 (Hin i) (conj Hi Ht)) as HinL.
    apply list_elem_of_lookup in HinL as [k Hk]. pose proof (lookup_lt_Some _ _ _ Hk).
    destruct (Hrun (Z.of_nat k) ltac:(lia)) as [HL Heq]. exists (Z.of_nat k). split; [lia|].
    rewrite Heq, Z.mod_small, Nat2Z.id by lia. by rewrite (list_lookup_total_correct _ _ _ Hk).
Qed.

(** ** Witnesses *)

Lemma random_range_spec_witness :
  (∃ rnd, 0 ≤ rnd < 2 ^ 31 ∧ random_range rnd 17 3 5 = Ret (10, None)) ∧ (∃ v, random_range 99 17 3 5 = Ret (v, None)) ∨
  (∃ msg, random_range 99 17 3 5 = Ret (-1, Some msg)).
Proof.
  assert (H1 : 0 ≤ Z.min 17 3) by lia. assert (H2 : Z.max 17 3 + 5 ≤ INT_MAX) by (unfold INT_MAX; lia).
  destruct (random_range_spec 17 3 5 H1 H2 ltac:(lia)) as [Hv He].
  destruct (He 99 ltac:(lia)) as [H|H]; [left|right; exact H]. split; [|exact H]. apply Hv. split; [lia|reflexivity].
Defined.

Lemma random_rangell_spec_witness :
  (∃ v, random_rangell 12345 10000000000 7 1000 = Ret (v, None) ∧ 7 ≤ v ≤ 10000000000 ∧ v mod 1000 = 0) ∨
  (∃ msg, random_rangell 12345 10000000000 7 1000 = Ret (-1, Some msg) ∧ ∀ v, 7 ≤ v ≤ 10000000000 → v mod 1000 ≠ 0).
Proof. apply (random_rangell_spec 12345 10000000000 7 1000); lia. Defined.

Definition ex_ranges : list range := [Range 1 10 1; Range (-4) 2147483647 8; Range 0 0 0].
Lemma parse_ranges_text_witness :
  parse_ranges (str "1:10:1,-4:2147483647:8,0:0:0") 5 6 7 None = Ret (3, map Some ex_ranges).
Proof.
  apply (parse_ranges_text ex_ranges 5 6 7); [discriminate|].
  repeat constructor; unfold INT_MIN, INT_MAX; simpl; lia.
Defined.

Lemma parse_error_overflow_witness : parse_ranges (replicate 219 "x"%char) 0 0 1 None = Undef.
Proof.
  apply (parse_error_overflow (replicate 219 "x"%char) 0 0 1); [by apply Forall_replicate|rewrite length_replicate; lia|reflexivity].
Defined.

Lemma random_bit_spec_witness :
  ∃ rnd, 0 ≤ rnd < 2 ^ 31 ∧ random_bit rnd (- 2 ^ 63 + 4) = Ret (- 2 ^ 63).
Proof.
  apply (random_bit_spec (- 2 ^ 63 + 4) (- 2 ^ 63)); [by vm_compute|discriminate|].
  exists 63. split; [lia|]. split; reflexivity.
Defined.
