(* ===== verification/Names.v ===== *)
(** * Names of results, errors and signals

    The tables of lib/tst_res.c ([strttype]), lib/errnos.h ([tst_strerrno]) and
    lib/signame.h ([tst_strsig]): arrays with designated initialisers, read by
    the macro PAIR_LOOKUP.  The numbers are those of Linux on x86 with glibc,
    which decide the #ifdefs as well. *)

From S2P Require Import Prelude CInt CMem CString.
Local Open Scope Z_scope.

Definition TTYPE_MASK : Z := 63.
Definition TPASS : Z := 0.
Definition TFAIL : Z := 1.
Definition TBROK : Z := 2.
Definition TWARN : Z := 4.
Definition TINFO : Z := 16.
Definition TCONF : Z := 32.
Definition TERRNO : Z := 256.
Definition TTERRNO : Z := 512.
Definition TRERRNO : Z := 1024.

Definition TTYPE_RESULT (ttype : Z) : Z := Z.land ttype TTYPE_MASK.

(** [struct pair] without the redundant [val]: index and name. *)
Definition name_pair : Type := Z * string.

(** The array that designated initialisers give: up to the largest index, a null
    name where there is none, the last initialiser of an index counting. *)
Definition ARRAY_SIZE (arr : list name_pair) : Z := foldr (λ p n, Z.max (p.1 + 1) n) 0 arr.
Fixpoint elem_name (arr : list name_pair) (idx : Z) : option string :=
  match arr with
  | [] => None
  | p :: arr =>
      match elem_name arr idx with
      | Some n => Some n
      | None => if p.1 =? idx then Some p.2 else None
      end
  end.

Definition PAIR_LOOKUP (arr : list name_pair) (idx : Z) : cstr :=
  if (idx <? 0) || (ARRAY_SIZE arr <=? idx) then str "???"
  else match elem_name arr idx with Some n => str n | None => str "???" end.

Definition ttype_pairs : list name_pair :=
  [(TPASS, "TPASS"); (TFAIL, "TFAIL"); (TBROK, "TBROK"); (TCONF, "TCONF"); (TWARN, "TWARN");
   (TINFO, "TINFO")]%string.
Definition strttype (ttype : Z) : cstr := PAIR_LOOKUP ttype_pairs (TTYPE_RESULT ttype).

Definition errno_pairs : list name_pair :=
  [(0, "SUCCESS"); (1, "EPERM"); (2, "ENOENT"); (3, "ESRCH"); (4, "EINTR"); (5, "EIO");
   (6, "ENXIO"); (7, "E2BIG"); (8, "ENOEXEC"); (9, "EBADF"); (10, "ECHILD");
   (11, "EAGAIN/EWOULDBLOCK"); (12, "ENOMEM"); (13, "EACCES"); (14, "EFAULT"); (15, "ENOTBLK");
   (16, "EBUSY"); (17, "EEXIST"); (18, "EXDEV"); (19, "ENODEV"); (20, "ENOTDIR"); (21, "EISDIR");
   (22, "EINVAL"); (23, "ENFILE"); (24, "EMFILE"); (25, "ENOTTY"); (26, "ETXTBSY"); (27, "EFBIG");
   (28, "ENOSPC"); (29, "ESPIPE"); (30, "EROFS"); (31, "EMLINK"); (32, "EPIPE"); (33, "EDOM");
   (34, "ERANGE"); (35, "EDEADLK"); (36, "ENAMETOOLONG"); (37, "ENOLCK"); (38, "ENOSYS");
   (39, "ENOTEMPTY"); (40, "ELOOP"); (42, "ENOMSG"); (43, "EIDRM"); (44, "ECHRNG");
   (45, "EL2NSYNC"); (46, "EL3HLT"); (47, "EL3RST"); (48, "ELNRNG"); (49, "EUNATCH");
   (50, "ENOCSI"); (51, "EL2HLT"); (52, "EBADE"); (53, "EBADR"); (54, "EXFULL"); (55, "ENOANO");
   (56, "EBADRQC"); (57, "EBADSLT"); (59, "EBFONT"); (60, "ENOSTR"); (61, "ENODATA");
   (62, "ETIME"); (63, "ENOSR"); (64, "ENONET"); (65, "ENOPKG"); (66, "EREMOTE"); (67, "ENOLINK");
   (68, "EADV"); (69, "ESRMNT"); (70, "ECOMM"); (71, "EPROTO"); (72, "EMULTIHOP"); (73, "EDOTDOT");
   (74, "EBADMSG"); (75, "EOVERFLOW"); (76, "ENOTUNIQ"); (77, "EBADFD"); (78, "EREMCHG");
   (79, "ELIBACC"); (80, "ELIBBAD"); (81, "ELIBSCN"); (82, "ELIBMAX"); (83, "ELIBEXEC");
   (84, "EILSEQ"); (85, "ERESTART"); (86, "ESTRPIPE"); (87, "EUSERS"); (88, "ENOTSOCK");
   (89, "EDESTADDRREQ"); (90, "EMSGSIZE"); (91, "EPROTOTYPE"); (92, "ENOPROTOOPT");
   (93, "EPROTONOSUPPORT"); (94, "ESOCKTNOSUPPORT"); (95, "EOPNOTSUPP"); (96, "EPFNOSUPPORT");
   (97, "EAFNOSUPPORT"); (98, "EADDRINUSE"); (99, "EADDRNOTAVAIL"); (100, "ENETDOWN");
   (101, "ENETUNREACH"); (102, "ENETRESET"); (103, "ECONNABORTED"); (104, "ECONNRESET");
   (105, "ENOBUFS"); (106, "EISCONN"); (107, "ENOTCONN"); (108, "ESHUTDOWN");
   (109, "ETOOMANYREFS"); (110, "ETIMEDOUT"); (111, "ECONNREFUSED"); (112, "EHOSTDOWN");
   (113, "EHOSTUNREACH"); (114, "EALREADY"); (115, "EINPROGRESS"); (116, "ESTALE");
   (117, "EUCLEAN"); (118, "ENOTNAM"); (119, "ENAVAIL"); (120, "EISNAM"); (121, "EREMOTEIO");
   (122, "EDQUOT"); (123, "ENOMEDIUM"); (124, "EMEDIUMTYPE"); (125, "ECANCELED"); (126, "ENOKEY");
   (127, "EKEYEXPIRED"); (128, "EKEYREVOKED"); (129, "EKEYREJECTED"); (130, "EOWNERDEAD");
   (131, "ENOTRECOVERABLE"); (132, "ERFKILL"); (133, "EHWPOISON")]%string.
Definition tst_strerrno (err : Z) : cstr := PAIR_LOOKUP errno_pairs err.

Definition signal_pairs : list name_pair :=
  [(1, "SIGHUP"); (2, "SIGINT"); (3, "SIGQUIT"); (4, "SIGILL"); (5, "SIGTRAP");
   (6, "SIGIOT/SIGABRT"); (7, "SIGBUS"); (8, "SIGFPE"); (9, "SIGKILL"); (10, "SIGUSR1");
   (11, "SIGSEGV"); (12, "SIGUSR2"); (13, "SIGPIPE"); (14, "SIGALRM"); (15, "SIGTERM");
   (16, "SIGSTKFLT"); (17, "SIGCHLD/SIGCLD"); (18, "SIGCONT"); (19, "SIGSTOP"); (20, "SIGTSTP");
   (21, "SIGTTIN"); (22, "SIGTTOU"); (23, "SIGURG"); (24, "SIGXCPU"); (25, "SIGXFSZ");
   (26, "SIGVTALRM"); (27, "SIGPROF"); (28, "SIGWINCH"); (29, "SIGIO/SIGPOLL"); (30, "SIGPWR");
   (31, "SIGSYS/SIGUNUSED")]%string.
Definition tst_strsig (sig : Z) : cstr := PAIR_LOOKUP signal_pairs sig.

(** ** Facts *)

Lemma TTYPE_RESULT_idem t : TTYPE_RESULT (TTYPE_RESULT t) = TTYPE_RESULT t.
Proof. unfold TTYPE_RESULT. by rewrite <- Z.land_assoc, Z.land_diag. Qed.

Lemma elem_name_in arr idx n : elem_name arr idx = Some n → (idx, n) ∈ arr.
Proof.
  induction arr as [|[k m] arr IH]; simpl; [done|]. destruct (elem_name arr idx) eqn:E.
  - intros [= ->]. right. by apply IH.
  - destruct (Z.eqb_spec k idx) as [->|]; [|done]. intros [= ->]. left.
Qed.

(** What holds of every name of a table, and of "???", holds of a lookup. *)
Lemma PAIR_LOOKUP_all (P : cstr → Prop) arr idx :
  P (str "???") → Forall (λ p, P (str p.2)) arr → P (PAIR_LOOKUP arr idx).
Proof.
  intros H0 Harr. unfold PAIR_LOOKUP. case_if; [done|]. destruct (elem_name arr idx) as [n|] eqn:E; [|done].
  rewrite Forall_forall in Harr. apply (Harr (idx, n)). by apply elem_name_in.
Qed.

Lemma strttype_length ttype : length (strttype ttype) ∈ [3; 5]%nat.
Proof. unfold strttype. apply PAIR_LOOKUP_all; [set_solver|]. repeat constructor; simpl; set_solver. Qed.

Lemma strttype_nonul ttype : nonul (strttype ttype).
Proof. unfold strttype. apply PAIR_LOOKUP_all; [auto with nonul|]. repeat constructor; auto with nonul. Qed.

Lemma tst_strerrno_nonul e : nonul (tst_strerrno e).
Proof. unfold tst_strerrno. apply PAIR_LOOKUP_all; [auto with nonul|]. repeat constructor; auto with nonul. Qed.

Lemma tst_strerrno_length e : (length (tst_strerrno e) ≤ 18)%nat.
Proof.
  unfold tst_strerrno. apply PAIR_LOOKUP_all; [simpl; lia|].
  apply Forall_forall. intros p Hp. apply Nat.leb_le.
  assert (H : forallb (λ p : name_pair, Nat.leb (length (str p.2)) 18) errno_pairs = true) by reflexivity.
  rewrite forallb_forall in H. by apply H, list_elem_of_In.
Qed.

Lemma tst_strsig_nonul e : nonul (tst_strsig e).
Proof. unfold tst_strsig. apply PAIR_LOOKUP_all; [auto with nonul|]. repeat constructor; auto with nonul. Qed.

(** Two errors with the same name are the same error: no entry of the table hides
    another. *)
Lemma errno_pairs_distinct : NoDup (map fst errno_pairs) ∧ NoDup (map snd errno_pairs).
Proof. split; apply (bool_decide_unpack _); vm_compute; exact I. Qed.

#[export] Hint Resolve strttype_nonul tst_strerrno_nonul tst_strsig_nonul : nonul.
