(* ===== verification/TstRes.v ===== *)
(** * Reporting results

    lib/tst_res.c: the functions with which a test reports its results.  The
    static and global variables are a state; a call continues with a new state,
    exits, aborts, or has no defined behaviour.  A format with its arguments is
    the text it expands to; buffers are arrays with checked accesses.  The test
    uses the old interface only ([tst_test] is NULL), in one thread (the mutex is
    recursive and never blocks its owner), and [malloc] succeeds. *)

From S2P Require Import Prelude CInt CMem CString Names.
Local Open Scope Z_scope.

Definition nl : ascii := "010"%char.

(** ** State *)

Inductive t_mode : Type := VERBOSE | NOPASS | DISCARD.
#[global] Instance t_mode_eq_dec : EqDecision t_mode.
Proof. solve_decision. Defined.

(** The result that is held back in NOPASS mode. *)
Record last_result : Type := Last {
  Last_tcid : cstr; Last_num : Z; Last_type : Z; Last_mesg : cstr }.

Record state : Type := State {
  T_exitval : Z; T_mode : t_mode; first_time : bool;
  Buffered : bool; Lastr : last_result;
  tst_count : Z; tst_brk_entered : Z; TCID : cstr;
  errno : Z; TEST_ERRNO : Z; TEST_RETURN : Z;
  stdout : list cstr }.

Definition set_exitval v s := State v (T_mode s) (first_time s) (Buffered s) (Lastr s) (tst_count s)
  (tst_brk_entered s) (TCID s) (errno s) (TEST_ERRNO s) (TEST_RETURN s) (stdout s).
Definition set_mode m s := State (T_exitval s) m false (Buffered s) (Lastr s) (tst_count s)
  (tst_brk_entered s) (TCID s) (errno s) (TEST_ERRNO s) (TEST_RETURN s) (stdout s).
Definition set_last b l s := State (T_exitval s) (T_mode s) (first_time s) b l (tst_count s)
  (tst_brk_entered s) (TCID s) (errno s) (TEST_ERRNO s) (TEST_RETURN s) (stdout s).
Definition set_count n s := State (T_exitval s) (T_mode s) (first_time s) (Buffered s) (Lastr s) n
  (tst_brk_entered s) (TCID s) (errno s) (TEST_ERRNO s) (TEST_RETURN s) (stdout s).
Definition set_entered n s := State (T_exitval s) (T_mode s) (first_time s) (Buffered s) (Lastr s) (tst_count s)
  n (TCID s) (errno s) (TEST_ERRNO s) (TEST_RETURN s) (stdout s).
Definition set_tcid t s := State (T_exitval s) (T_mode s) (first_time s) (Buffered s) (Lastr s) (tst_count s)
  (tst_brk_entered s) t (errno s) (TEST_ERRNO s) (TEST_RETURN s) (stdout s).
Definition set_errs e te tr s := State (T_exitval s) (T_mode s) (first_time s) (Buffered s) (Lastr s) (tst_count s)
  (tst_brk_entered s) (TCID s) e te tr (stdout s).
Definition put l s := State (T_exitval s) (T_mode s) (first_time s) (Buffered s) (Lastr s) (tst_count s)
  (tst_brk_entered s) (TCID s) (errno s) (TEST_ERRNO s) (TEST_RETURN s) (stdout s ++ [l]).

(** ** Calls *)

Inductive outcome (A : Type) : Type :=
| Next (a : A) (s : state)
| Exits (code : Z) (s : state)
| Aborts (s : state)
| Bad.
Arguments Next {A} a s.
Arguments Exits {A} code s.
Arguments Aborts {A} s.
Arguments Bad {A}.

Definition M (A : Type) : Type := state → outcome A.
#[global] Instance M_ret : MRet M := λ A a s, Next a s.
#[global] Instance M_bind : MBind M := λ A B f m s,
  match m s with
  | Next a s => f a s
  | Exits c s => Exits c s
  | Aborts s => Aborts s
  | Bad => Bad
  end.
Definition get {A} (f : state → A) : M A := λ s, Next (f s) s.
Definition modify (f : state → state) : M () := λ s, Next () (f s).
Definition abort {A} : M A := λ s, Aborts s.
Definition exit {A} (code : Z) : M A := λ s, Exits code s.
Definition lift {A} (m : res A) : M A := λ s, match m with Ret a => Next a s | _ => Bad end.
Definition when (b : bool) (m : M ()) : M () := if b then m else mret ().

(** [%4d] *)
Definition rjust (w : nat) (t : cstr) : cstr := replicate (w - length t) " "%char ++ t.
(** [%-8s] *)
Definition ljust (w : nat) (t : cstr) : cstr := t ++ replicate (w - length t) " "%char.

(** [snprintf(m + off, size, ...)] of a text: the array and the length of the text. *)
Definition snprintf_into (m : cstr) (off size : Z) (t : cstr) : res (cstr * Z) :=
  if size =? 0 then Ret (m, zlength t)
  else m ← mem_write m off (snprintf_cut size t ++ [NUL]); Ret (m, zlength t).

Definition MAXMESG : Z := 80.
Definition USERMESG : Z := 2048.

Definition has (ttype flag : Z) : bool := negb (Z.land ttype flag =? 0).

Section tst_res.
(** What is not the library's: [strerror], the environment variable TOUTPUT, the
    name the compiler gives tst_res.c, and the contents of an uninitialised
    buffer of USERMESG characters. *)
Context (strerror : Z → cstr) (TOUTPUT : option cstr) (FILE : cstr) (garbage : cstr).

(** EXPAND_VAR_ARGS on the text the format expands to. *)
Definition EXPAND_VAR_ARGS (text : cstr) (buf_len : Z) : M cstr :=
  let t := snprintf_cut buf_len text in
  match t with [] => abort | _ => mret t end.

(** ** Printing *)

Definition too_long (line : Z) : M () :=
  _ ← modify (put (str "tst_print: " ++ fmt_d line ++ str ": line too long" ++ [nl])); abort.

(** ": errno=ENOENT(2): No such file or directory" *)
Definition errno_text (what : cstr) (e : Z) : cstr :=
  str ": " ++ what ++ str "=" ++ tst_strerrno (s32 e) ++ str "(" ++ fmt_d (s32 e) ++ str "): " ++ strerror (s32 e).

(** One of the three parts that may follow the message, and the check before it. *)
Definition add_errno (line : Z) (add : bool) (what : cstr) (e : Z) (r : cstr * Z) : M (cstr * Z) :=
  let '(message, size) := r in
  if USERMESG <=? size then _ ← too_long line; mret r
  else if add then
    r ← lift (snprintf_into message size (USERMESG - size) (errno_text what e));
    mret (r.1, size + r.2)
  else mret (message, size).

Definition tst_print (tcid : cstr) (tnum ttype : Z) (tmesg : cstr) : M () :=
  err ← get errno;
  let ttype_result := TTYPE_RESULT ttype in
  _ ← modify (λ s, set_exitval (Z.lor (T_exitval s) ttype_result) s);
  mode ← get T_mode;
  if bool_decide (mode = DISCARD) || (bool_decide (mode = NOPASS) && negb (ttype_result =? TFAIL) &&
       negb (ttype_result =? TBROK) && negb (ttype_result =? TWARN))
  then mret ()
  else
    let type := strttype ttype in
    r ← lift (snprintf_into garbage 0 USERMESG
          (if bool_decide (mode = VERBOSE)
           then ljust 8 tcid ++ str " " ++ rjust 4 (fmt_d tnum) ++ str "  " ++ type ++ str "  :  " ++ tmesg
           else ljust 8 tcid ++ str " " ++ rjust 4 (fmt_d tnum) ++ str "       " ++ type ++ str "  :  " ++ tmesg));
    test_errno ← get TEST_ERRNO;
    test_return ← get TEST_RETURN;
    r ← add_errno 293 (has ttype TERRNO) (str "errno") err r;
    r ← add_errno 304 (has ttype TTERRNO) (str "TEST_ERRNO") test_errno r;
    r ← add_errno 316 (has ttype TRERRNO) (str "TEST_RETURN") test_return r;
    let '(message, size) := (r : cstr * Z) in
    if USERMESG <=? size + 1 then too_long 328
    else
      message ← lift (mem_write message size [nl]);
      message ← lift (mem_write message (size + 1) [NUL]);
      modify (put (as_string message)).

Definition check_env : M () :=
  first ← get first_time;
  if negb first then mret ()
  else
    modify (set_mode
      match TOUTPUT with
      | None => VERBOSE
      | Some value =>
          if bool_decide (value = str "NOPASS") then NOPASS
          else if bool_decide (value = str "DISCARD") then DISCARD
          else VERBOSE
      end).

(** ** Results *)

Definition tst_condense (tnum ttype : Z) (tmesg : cstr) : M () :=
  let ttype_result := TTYPE_RESULT ttype in
  buffered ← get Buffered;
  l ← get Lastr;
  tcid ← get TCID;
  if buffered && bool_decide (Last_tcid l = tcid) && (Last_type l =? ttype_result) &&
     bool_decide (Last_mesg l = tmesg)
  then mret ()
  else
    _ ← when buffered (tst_print (Last_tcid l) (Last_num l) (Last_type l) (Last_mesg l));
    modify (set_last true (Last tcid tnum ttype_result tmesg)).

Definition tst_flush : M () :=
  buffered ← get Buffered;
  mode ← get T_mode;
  l ← get Lastr;
  when (buffered && bool_decide (mode = NOPASS))
    (_ ← tst_print (Last_tcid l) (Last_num l) (Last_type l) (Last_mesg l);
     modify (λ s, set_last false (Lastr s) s)).

(** [sprintf(tmesg, "%s:%d: ", file, lineno)] into [char tmesg\[USERMESG\]]. *)
Definition location (file : cstr) (lineno : Z) : cstr := file ++ str ":" ++ fmt_d lineno ++ str ": ".

(** The message of [tst_res__]: the location for results other than TPASS and
    TINFO, then the text, cut to the rest of the buffer. *)
Definition res_mesg (file : option cstr) (lineno ttype_result : Z) (text : cstr) : M cstr :=
  let loc :=
    match file with
    | Some f => if negb (ttype_result =? TPASS) && negb (ttype_result =? TINFO) then location f lineno else []
    | None => []
    end in
  if USERMESG <=? zlength loc then λ _, Bad
  else
    t ← EXPAND_VAR_ARGS text (USERMESG - zlength loc);
    mret (loc ++ t).

Definition tst_res__ (file : option cstr) (lineno ttype : Z) (text : cstr) : M () :=
  let ttype_result := TTYPE_RESULT ttype in
  tmesg ← res_mesg file lineno ttype_result text;
  _ ← modify (λ s, set_exitval (Z.lor (T_exitval s) ttype_result) s);
  _ ← check_env;
  tcid ← get TCID;
  if (ttype_result =? TWARN) || (ttype_result =? TINFO) then tst_print tcid 0 ttype tmesg
  else
    count ← get tst_count;
    _ ← when (count <? 0) (tst_print tcid 0 TWARN (str "tst_res(): tst_count < 0 is not valid"));
    mode ← get T_mode;
    next ← lift (ck32 (count + 1));
    _ ← (match mode with
         | DISCARD => mret ()
         | NOPASS => tst_condense next ttype tmesg
         | VERBOSE => tst_print tcid next ttype tmesg
         end);
    modify (set_count next).

Definition tst_exit {A} : M A :=
  _ ← tst_flush;
  v ← get T_exitval;
  exit (Z.land v (Z.lnot TINFO)).

(** [sprintf(Warn_mesg, ...)] into [char Warn_mesg\[MAXMESG\]]. *)
Definition Warn_mesg (ttype_result : Z) : M cstr :=
  let t := str "tst_brk__: Invalid Type: " ++ fmt_d ttype_result ++ str ". Using TBROK" in
  if MAXMESG <=? zlength t then λ _, Bad else mret t.

(** [func] is what the cleanup function does, or NULL. *)
Definition tst_brk__ (file : option cstr) (lineno ttype : Z) (func : option (M ())) (text : cstr) : M () :=
  let ttype_result := TTYPE_RESULT ttype in
  tmesg ← EXPAND_VAR_ARGS text USERMESG;
  tcid ← get TCID;
  ttype ← (if negb (ttype_result =? TFAIL) && negb (ttype_result =? TBROK) && negb (ttype_result =? TCONF) then
             w ← Warn_mesg ttype_result;
             _ ← tst_print tcid 0 TWARN w;
             mret (Z.lor (Z.land ttype (Z.lnot ttype_result)) TBROK)
           else mret ttype);
  _ ← tst_res__ file lineno ttype tmesg;
  entered ← get tst_brk_entered;
  _ ← when (entered =? 0)
        (if ttype_result =? TCONF then
           tst_res__ file lineno ttype (str "Remaining cases not appropriate for configuration")
         else when (ttype_result =? TBROK)
           (tst_res__ file lineno TBROK (str "Remaining cases broken")));
  _ ← (match func with
       | None => mret ()
       | Some func =>
           _ ← modify (λ s, set_entered (tst_brk_entered s + 1) s);
           _ ← func;
           modify (λ s, set_entered (tst_brk_entered s - 1) s)
       end);
  entered ← get tst_brk_entered;
  when (entered =? 0) tst_exit.

Definition tst_resm_ (file : option cstr) (lineno ttype : Z) (text : cstr) : M () :=
  tmesg ← EXPAND_VAR_ARGS text USERMESG;
  tst_res__ file lineno ttype tmesg.

Definition tst_brkm_ {A} (file : option cstr) (lineno ttype : Z) (func : option (M ())) (text : cstr) : M A :=
  tmesg ← EXPAND_VAR_ARGS text USERMESG;
  _ ← tst_brk__ file lineno ttype func tmesg;
  abort.

(** ** Hexadecimal dumps *)

Definition symb_num : Z := 2.
Definition size_max : Z := 16.

(** The loop over the bytes from index [i] of [size] on; [tmesg] is the buffer,
    [pmesg] the offset of the next character in it. *)
Fixpoint hexd_loop (file : option cstr) (lineno ttype : Z) (buf : list Z) (i size : Z) (tmesg : cstr) (pmesg : Z)
  : M () :=
  match buf with
  | [] => mret ()
  | b :: buf =>
      r ← (if negb (pmesg =? 0) then m ← lift (mem_write tmesg pmesg [" "%char]); mret (m, pmesg + 1)
           else mret (tmesg, pmesg));
      let '(tmesg, pmesg) := (r : cstr * Z) in
      tmesg ← lift (mem_write tmesg pmesg (fmt_0x 2 (u8 b) ++ [NUL]));
      let pmesg := pmesg + symb_num in
      if ((i + 1) mod size_max =? 0) || (i + 1 =? size) then
        _ ← tst_res__ file lineno ttype (as_string tmesg);
        hexd_loop file lineno ttype buf (i + 1) size tmesg 0
      else hexd_loop file lineno ttype buf (i + 1) size tmesg pmesg
  end.

Definition tst_resm_hexd_ (file : option cstr) (lineno ttype : Z) (buf : list Z) (text : cstr) : M () :=
  t ← EXPAND_VAR_ARGS text USERMESG;
  tmesg ← lift (mem_write garbage 0 (t ++ [NUL]));
  let size := zlength buf in
  let offset := zlength t in
  pmesg ← (if (size_max <? size) || (size =? 0) || (USERMESG <=? offset + size * (symb_num + 1))
           then _ ← tst_res__ file lineno ttype t; mret 0
           else mret offset);
  hexd_loop file lineno ttype buf 0 size tmesg pmesg.

(** ** Processes *)

(** [fork_pid] is what [fork] returns. *)
Definition tst_fork (fork_pid : Z) : M Z :=
  _ ← tst_flush;
  _ ← when (fork_pid =? 0) (modify (set_exitval 0));
  mret fork_pid.

Definition tst_vfork (vfork_pid : Z) : M Z := _ ← tst_flush; mret vfork_pid.

Definition WTERMSIG (st : Z) : Z := Z.land st 127.
Definition WEXITSTATUS (st : Z) : Z := Z.shiftr (Z.land st 65280) 8.
Definition WIFEXITED (st : Z) : bool := WTERMSIG st =? 0.

(** [wait_ret] and [status] are the result of [waitpid]. *)
Definition tst_record_childstatus (cleanup : option (M ())) (child wait_ret status : Z) : M () :=
  _ ← when (wait_ret <? 0)
        (tst_brkm_ (Some FILE) 401 (Z.lor TBROK TERRNO) cleanup (str "waitpid(" ++ fmt_d child ++ str ") failed"));
  if WIFEXITED status then
    let ttype_result := TTYPE_RESULT (WEXITSTATUS status) in
    let info (line : Z) (what : string) :=
      tst_resm_ (Some FILE) line TINFO (str "Child process returned " ++ str what) in
    _ ← modify (λ s, set_exitval (Z.lor (T_exitval s) ttype_result) s);
    _ ← when (ttype_result =? TPASS) (info 409 "TPASS");
    _ ← when (has ttype_result TFAIL) (info 412 "TFAIL");
    _ ← when (has ttype_result TBROK) (info 415 "TBROK");
    when (has ttype_result TCONF) (info 418 "TCONF")
  else
    tst_brkm_ (Some FILE) 421 TBROK cleanup
      (str "child process(" ++ fmt_d child ++ str ") killed by unexpected signal " ++ tst_strsig (WTERMSIG status) ++
       str "(" ++ fmt_d (WTERMSIG status) ++ str ")").

Definition tst_require_root (euid : Z) : M () :=
  when (negb (euid =? 0)) (tst_brkm_ (Some FILE) 569 TCONF None (str "Test needs to be run as root")).

End tst_res.

(** ** Printing a line *)

Lemma bind_next {A B} (m : M A) (f : A → M B) s a s' : m s = Next a s' → (m ≫= f) s = f a s'.
Proof. intros E. unfold mbind, M_bind. by rewrite E. Qed.
Lemma bind_aborts {A B} (m : M A) (f : A → M B) s s' : m s = Aborts s' → (m ≫= f) s = Aborts s'.
Proof. intros E. unfold mbind, M_bind. by rewrite E. Qed.
Lemma bind_assoc {A B C} (m : M A) (f : A → M B) (g : B → M C) s :
  ((m ≫= f) ≫= g) s = (m ≫= λ a, f a ≫= g) s.
Proof. unfold mbind, M_bind. by destruct (m s). Qed.

(** The array [m] holds the text [t] from its beginning. *)
Definition holds (m t : cstr) : Prop := length m = 2048%nat ∧ take (length t) m = t.

Lemma snprintf_into_holds m t x : holds m t → zlength t < USERMESG →
  ∃ m', snprintf_into m (zlength t) (USERMESG - zlength t) x = Ret (m', zlength x) ∧
    (zlength (t ++ x) < USERMESG → holds m' (t ++ x)) ∧ length m' = 2048%nat.
Proof.
  unfold USERMESG. intros [Hl Ht] Hs. unfold snprintf_into, snprintf_cut. rewrite (proj2 (Z.eqb_neq _ 0)) by lia.
  set (d := take _ x ++ [NUL]).
  assert (Hd : (length t + length d ≤ 2048)%nat) by (unfold d; rewrite length_app, length_take; simpl; lia).
  rewrite mem_write_ok by lia. eexists. split; [done|]. split; [|rewrite store_length; lia].
  rewrite length_app. intros Hfit. split; [rewrite store_length; lia|].
  unfold store. rewrite Nat2Z.id, Ht. unfold d. rewrite (take_ge x) by lia.
  rewrite length_app. rewrite <- !app_assoc, app_assoc. apply take_app_length'. by rewrite length_app.
Qed.

Section print.
Context (strerror : Z → cstr) (garbage : cstr).
Hypothesis garbage_length : length garbage = 2048%nat.
Hypothesis strerror_nonul : ∀ e, nonul (strerror e).

(** Whether a result is not printed in a mode. *)
Definition quiet (mode : t_mode) (ttype : Z) : bool :=
  match mode with
  | VERBOSE => false
  | NOPASS => negb (TTYPE_RESULT ttype =? TFAIL) && negb (TTYPE_RESULT ttype =? TBROK) && negb (TTYPE_RESULT ttype =? TWARN)
  | DISCARD => true
  end.

(** The text of a line: case, number, type and message, then the errors asked for. *)
Definition line (mode : t_mode) (tcid : cstr) (tnum ttype : Z) (tmesg : cstr) (errs : Z * Z * Z) : cstr :=
  ljust 8 tcid ++ str " " ++ rjust 4 (fmt_d tnum) ++
  (match mode with VERBOSE => str "  " | _ => str "       " end) ++ strttype ttype ++ str "  :  " ++ tmesg ++
  (if has ttype TERRNO then errno_text strerror (str "errno") errs.1.1 else []) ++
  (if has ttype TTERRNO then errno_text strerror (str "TEST_ERRNO") errs.1.2 else []) ++
  (if has ttype TRERRNO then errno_text strerror (str "TEST_RETURN") errs.2 else []).

Definition errs (s : state) : Z * Z * Z := (errno s, TEST_ERRNO s, TEST_RETURN s).
Definition add_type (t : Z) (s : state) : state := set_exitval (Z.lor (T_exitval s) t) s.

(** What is in the buffer after [size] characters were asked for. *)
Definition buffered_text (r : cstr * Z) (t : cstr) : Prop :=
  length r.1 = 2048%nat ∧ r.2 = zlength t ∧ (zlength t < USERMESG → holds r.1 t).

Lemma add_errno_spec n add what e r t s : buffered_text r t →
  (USERMESG ≤ zlength t → ∃ l, add_errno strerror n add what e r s = Aborts (put l s)) ∧
  (zlength t < USERMESG → ∃ r', add_errno strerror n add what e r s = Next r' s ∧
     buffered_text r' (t ++ if add then errno_text strerror what e else [])).
Proof.
  destruct r as [m size]. intros (Hm & Hs & Hh). simpl in *. subst size. unfold add_errno. split; intros H.
  - rewrite (proj2 (Z.leb_le _ _)) by done. eexists. reflexivity.
  - rewrite (proj2 (Z.leb_gt _ _)) by done. destruct add.
    + destruct (snprintf_into_holds m t (errno_text strerror what e)) as (m' & E & Hm' & Hl); [by apply Hh|done|].
      erewrite bind_next by (unfold lift; rewrite E; reflexivity). eexists. split; [reflexivity|].
      split_and!; cbn [fst snd]; [done|rewrite length_app; lia|done].
    + eexists. split; [reflexivity|]. rewrite app_nil_r. by split_and!.
Qed.

Lemma add_errno_bind n add what e r t s (k : cstr * Z → M ()) : buffered_text r t →
  (USERMESG ≤ zlength t ∧ ∃ x, (add_errno strerror n add what e r ≫= k) s = Aborts (put x s)) ∨
  (∃ r', (add_errno strerror n add what e r ≫= k) s = k r' s ∧
     buffered_text r' (t ++ if add then errno_text strerror what e else [])).
Proof.
  intros H. destruct (add_errno_spec n add what e r t s H) as [Ha Hb].
  destruct (Z.le_gt_cases USERMESG (zlength t)) as [Hz|Hz].
  - left. split; [done|]. destruct (Ha Hz) as [x E]. exists x. by apply bind_aborts.
  - right. destruct (Hb Hz) as (r' & E & H'). exists r'. split; [by apply bind_next|done].
Qed.

Ltac errno_step Hb Hz E r H :=
  match goal with
  | |- context [(add_errno _ ?n ?a ?w ?e ?r0 ≫= ?k) ?s] =>
      destruct (add_errno_bind n a w e r0 _ s k Hb) as [[Hz E]|(r & E & H)]; [|rewrite E; clear E]
  end.

Lemma line_aborts (P Q : Prop) (o : outcome ()) (l : cstr) s' : USERMESG ≤ zlength l →
  (∃ x, o = Aborts (put x s')) →
  (P → zlength l + 1 < USERMESG → Q) ∧ (P → USERMESG ≤ zlength l + 1 → ∃ x, o = Aborts (put x s')).
Proof. intros. split; [lia|done]. Qed.

Lemma errno_text_nonul what e : nonul what → nonul (errno_text strerror what e).
Proof using strerror_nonul. intros. unfold errno_text. auto 12 with nonul. Qed.

Lemma line_nonul mode tcid tnum ttype tmesg es : nonul tcid → nonul tmesg → nonul (line mode tcid tnum ttype tmesg es).
Proof using strerror_nonul.
  intros. unfold line, ljust, rjust. repeat apply nonul_app; auto with nonul; try destruct mode; auto with nonul;
    case_if; try (by constructor); apply errno_text_nonul; auto with nonul.
Qed.

(** The end of [tst_print]: newline and terminator. *)
Lemma finish_line r t s : buffered_text r t → nonul t → zlength t + 1 < USERMESG →
  (message ← lift (mem_write r.1 r.2 [nl]); message ← lift (mem_write message (r.2 + 1) [NUL]);
   modify (put (as_string message))) s = Next () (put (t ++ [nl]) s).
Proof.
  destruct r as [m size]. unfold USERMESG. intros (Hl & Hs & Hh) Hn Ht. simpl in *. subst size.
  destruct Hh as [_ Hh]; [unfold USERMESG; lia|].
  erewrite bind_next by (unfold lift; rewrite mem_write_ok by (simpl; lia); reflexivity).
  erewrite bind_next by (unfold lift; rewrite mem_write_ok by (rewrite ?store_length; simpl; lia); reflexivity).
  rewrite store_cons by (simpl; lia). unfold modify. do 2 f_equal. unfold store.
  rewrite Nat2Z.id, Hh. cbn [app]. unfold as_string. change (t ++ nl :: NUL :: ?x) with (t ++ [nl] ++ NUL :: x).
  rewrite app_assoc, span_app; [done| |done].
  apply (Forall_impl (λ c, (c =c NUL) = false)); [apply nonul_app; [done|by repeat constructor]|]. by intros c ->.
Qed.
(** The first part of the line, in the buffer. *)
Lemma first_part mode tcid tnum ttype tmesg s :
  let t := ljust 8 tcid ++ str " " ++ rjust 4 (fmt_d tnum) ++
    (match mode with VERBOSE => str "  " | _ => str "       " end) ++ strttype ttype ++ str "  :  " ++ tmesg in
  ∃ r, lift (snprintf_into garbage 0 USERMESG
      (if bool_decide (mode = VERBOSE)
       then ljust 8 tcid ++ str " " ++ rjust 4 (fmt_d tnum) ++ str "  " ++ strttype ttype ++ str "  :  " ++ tmesg
       else ljust 8 tcid ++ str " " ++ rjust 4 (fmt_d tnum) ++ str "       " ++ strttype ttype ++ str "  :  " ++ tmesg)) s
    = Next r s ∧ buffered_text r t.
Proof using garbage_length.
  intros t. destruct (snprintf_into_holds garbage [] t) as (m & E & Hh & Hl); [by split|done|].
  exists (m, zlength t). split; [|by split_and!]. unfold lift.
  change 0 with (zlength (@nil ascii)). change USERMESG with (USERMESG - zlength (@nil ascii)).
  destruct mode; simpl bool_decide; cbv iota; unfold t in E; by rewrite E.
Qed.

Lemma quiet_test mode ttype :
  bool_decide (mode = DISCARD) || (bool_decide (mode = NOPASS) && negb (TTYPE_RESULT ttype =? TFAIL) &&
    negb (TTYPE_RESULT ttype =? TBROK) && negb (TTYPE_RESULT ttype =? TWARN)) = quiet mode ttype.
Proof. by destruct mode. Qed.

(** [tst_print] records the type and is quiet, prints the line, or aborts when the
    line does not fit its buffer; it never writes outside of it. *)
Lemma tst_print_spec tcid tnum ttype tmesg s
  (s' := add_type (TTYPE_RESULT ttype) s) (l := line (T_mode s) tcid tnum ttype tmesg (errs s)) :
  nonul tcid → nonul tmesg →
  (quiet (T_mode s) ttype = true → tst_print strerror garbage tcid tnum ttype tmesg s = Next () s') ∧
  (quiet (T_mode s) ttype = false → zlength l + 1 < USERMESG →
     tst_print strerror garbage tcid tnum ttype tmesg s = Next () (put (l ++ [nl]) s')) ∧
  (quiet (T_mode s) ttype = false → USERMESG ≤ zlength l + 1 →
     ∃ x, tst_print strerror garbage tcid tnum ttype tmesg s = Aborts (put x s')).
Proof using garbage_length strerror_nonul.
  intros Ht Hm. unfold tst_print. cbv zeta.
  erewrite bind_next by reflexivity. erewrite bind_next by reflexivity. erewrite bind_next by reflexivity.
  change (T_mode (set_exitval _ s)) with (T_mode s). rewrite quiet_test.
  change (set_exitval _ s) with s'. destruct (quiet (T_mode s) ttype); [done|]. split; [done|].
  pose proof (line_nonul (T_mode s) tcid tnum ttype tmesg (errs s) Ht Hm) as Hn. fold l in Hn.
  destruct (first_part (T_mode s) tcid tnum ttype tmesg s') as (r0 & E0 & H0).
  erewrite bind_next by exact E0. clear E0. erewrite bind_next by reflexivity. erewrite bind_next by reflexivity.
  change (TEST_ERRNO s') with (TEST_ERRNO s). change (TEST_RETURN s') with (TEST_RETURN s).
  revert H0. cbv zeta. set (t0 := ljust 8 tcid ++ _). intros H0.
  set (x1 := if has ttype TERRNO then errno_text strerror (str "errno") (errno s) else []).
  set (x2 := if has ttype TTERRNO then errno_text strerror (str "TEST_ERRNO") (TEST_ERRNO s) else []).
  set (x3 := if has ttype TRERRNO then errno_text strerror (str "TEST_RETURN") (TEST_RETURN s) else []).
  assert (El : l = ((t0 ++ x1) ++ x2) ++ x3).
  { unfold l, line, t0, x1, x2, x3, errs. cbn [fst snd]. by rewrite <- !app_assoc. }
  clearbody l t0. assert (Hlen : zlength l = zlength t0 + zlength x1 + zlength x2 + zlength x3)
    by (rewrite El, !length_app; lia).
  errno_step H0 Hz E r1 H1; [apply line_aborts; [lia|exact E]|].
  errno_step H1 Hz E r2 H2; [apply line_aborts; [rewrite length_app in Hz; fold x1 in Hz; lia|exact E]|].
  errno_step H2 Hz E r3 H3; [apply line_aborts; [rewrite !length_app in Hz; fold x1 x2 in Hz; lia|exact E]|].
  fold x1 x2 x3 in H3. rewrite <- El in H3. pose proof (finish_line r3 l s' H3 Hn) as Hf. destruct r3 as [m3 z3].
  destruct H3 as (_ & Hz3 & _). simpl in Hz3. subst z3. split; intros _ Hfit.
  - rewrite (proj2 (Z.leb_gt _ _)) by done. by apply Hf.
  - rewrite (proj2 (Z.leb_le _ _)) by done. eexists. reflexivity.
Qed.

End print.

(** ** The report of a test

    The calls of a test report a list of results; what the functions do with them
    depends on the mode only through the lines that are printed. *)

(** A result as [tst_print] gets it: case, number, type with flags, message and
    the errors at the time. *)
Record event : Type := Ev {
  e_tcid : cstr; e_num : Z; e_type : Z; e_mesg : cstr; e_errs : Z * Z * Z }.

Definition unnumbered (ttype : Z) : bool := (TTYPE_RESULT ttype =? TWARN) || (TTYPE_RESULT ttype =? TINFO).

(** What a test does between its start and its end. *)
Inductive call : Type :=
| Resm (file : option cstr) (lineno ttype : Z) (text : cstr)
| SetCount (n : Z)
| SetTcid (t : cstr)
| Test (ret err : Z).

Definition mesg (file : option cstr) (lineno ttype : Z) (text : cstr) : cstr :=
  match file with
  | Some f =>
      if negb (TTYPE_RESULT ttype =? TPASS) && negb (TTYPE_RESULT ttype =? TINFO) then location f lineno ++ text
      else text
  | None => text
  end.

(** The results a list of calls reports. *)
Fixpoint events (tcid : cstr) (count : Z) (es : Z * Z * Z) (cs : list call) : list event :=
  match cs with
  | [] => []
  | Resm file lineno ttype text :: cs =>
      let num := if unnumbered ttype then 0 else count + 1 in
      Ev tcid num ttype (mesg file lineno ttype text) es ::
      events tcid (if unnumbered ttype then count else count + 1) es cs
  | SetCount n :: cs => events tcid n es cs
  | SetTcid t :: cs => events t count es cs
  | Test ret err :: cs => events tcid count (err, err, ret) cs
  end.

(** The test case, count and errors after the calls. *)
Fixpoint after (tcid : cstr) (count : Z) (es : Z * Z * Z) (cs : list call) : cstr * Z * (Z * Z * Z) :=
  match cs with
  | [] => (tcid, count, es)
  | Resm _ _ ttype _ :: cs => after tcid (if unnumbered ttype then count else count + 1) es cs
  | SetCount n :: cs => after tcid n es cs
  | SetTcid t :: cs => after t count es cs
  | Test ret err :: cs => after tcid count (err, err, ret) cs
  end.

Lemma events_app tcid count es a b :
  events tcid count es (a ++ b) =
  events tcid count es a ++ (let '(t, n, x) := after tcid count es a in events t n x b).
Proof. revert tcid count es. induction a as [|[] a IH]; intros; simpl; rewrite ?IH; done. Qed.

(** All result types together. *)
Definition types (evs : list event) : Z := foldr (λ e v, Z.lor (TTYPE_RESULT (e_type e)) v) 0 evs.

(** The first of each group of equal results in a row, as [tst_condense] compares
    them: the flags and the number do not count. *)
Definition same_result (l : last_result) (e : event) : bool :=
  bool_decide (Last_tcid l = e_tcid e) && (Last_type l =? TTYPE_RESULT (e_type e)) &&
  bool_decide (Last_mesg l = e_mesg e).
Definition as_last (e : event) : last_result := Last (e_tcid e) (e_num e) (TTYPE_RESULT (e_type e)) (e_mesg e).
Fixpoint condense (held : option last_result) (evs : list event) : list last_result :=
  match evs with
  | [] => []
  | e :: evs =>
      if match held with Some l => same_result l e | None => false end then condense held evs
      else as_last e :: condense (Some (as_last e)) evs
  end.

(** [l] is made of [a] and [b], each in its order. *)
Inductive merge {A} : list A → list A → list A → Prop :=
| merge_nil : merge [] [] []
| merge_l x a b l : merge a b l → merge (x :: a) b (x :: l)
| merge_r x a b l : merge a b l → merge a (x :: b) (x :: l).

Lemma merge_length {A} (a b l : list A) : merge a b l → length l = (length a + length b)%nat.
Proof. induction 1; simpl; lia. Qed.

Section report.
Context (strerror : Z → cstr) (TOUTPUT : option cstr) (FILE : cstr) (garbage : cstr).
Hypothesis garbage_length : length garbage = 2048%nat.
Hypothesis strerror_nonul : ∀ e, nonul (strerror e).
Hypothesis strerror_short : ∀ e, (length (strerror e) ≤ 100)%nat.

Definition do_call (c : call) : M () :=
  match c with
  | Resm file lineno ttype text => tst_resm_ strerror TOUTPUT garbage file lineno ttype text
  | SetCount n => modify (set_count n)
  | SetTcid t => modify (set_tcid t)
  | Test ret err => modify (set_errs err err ret)
  end.
Fixpoint run (cs : list call) : M () :=
  match cs with
  | [] => mret ()
  | c :: cs => _ ← do_call c; run cs
  end.

(** The mode the environment asks for. *)
Definition env_mode : t_mode :=
  match TOUTPUT with
  | Some value =>
      if bool_decide (value = str "NOPASS") then NOPASS
      else if bool_decide (value = str "DISCARD") then DISCARD else VERBOSE
  | None => VERBOSE
  end.

Definition print_line (mode : t_mode) (tcid : cstr) (tnum ttype : Z) (tmesg : cstr) (es : Z * Z * Z) : list cstr :=
  if quiet mode ttype then [] else [line strerror mode tcid tnum ttype tmesg es ++ [nl]].
Definition event_line (mode : t_mode) (e : event) : list cstr :=
  print_line mode (e_tcid e) (e_num e) (e_type e) (e_mesg e) (e_errs e).
Definition held_line (l : last_result) : list cstr :=
  print_line NOPASS (Last_tcid l) (Last_num l) (Last_type l) (Last_mesg l) (0, 0, 0).

(** What a list of results may print in a mode: all of it; in NOPASS mode the
    failures and breakages without repetitions, among them the warnings; nothing. *)
Definition printed (mode : t_mode) (evs : list event) (out : list cstr) : Prop :=
  match mode with
  | VERBOSE => out = concat (map (event_line VERBOSE) evs)
  | NOPASS =>
      merge (concat (map (event_line NOPASS) (filter (λ e, unnumbered (e_type e) = true) evs)))
        (concat (map held_line (condense None (filter (λ e, unnumbered (e_type e) = false) evs)))) out
  | DISCARD => out = []
  end.

(** Messages that fit a line whatever is added to them. *)
Definition text_ok (n : nat) (t : cstr) : Prop := nonul t ∧ (length t ≤ n)%nat.
Definition call_ok (c : call) : Prop :=
  match c with
  | Resm file lineno ttype text =>
      text_ok 1000 text ∧ text ≠ [] ∧ INT_MIN ≤ lineno ≤ INT_MAX ∧
      match file with Some f => text_ok 255 f | None => True end
  | SetCount n => 0 ≤ n ≤ 2 ^ 30
  | SetTcid t => text_ok 100 t
  | Test _ _ => True
  end.

(** *** The machine between the two *)

Record report : Type := Report { r_exit : Z; r_out : list cstr; r_held : option last_result }.

Definition rep (s : state) : report :=
  Report (T_exitval s) (stdout s) (if Buffered s then Some (Lastr s) else None).
Definition rep_print (ttype : Z) (ls : list cstr) (r : report) : report :=
  Report (Z.lor (r_exit r) (TTYPE_RESULT ttype)) (r_out r ++ ls) (r_held r).
Definition rep_flush (r : report) : report :=
  match r_held r with
  | Some l => let r := rep_print (Last_type l) (held_line l) r in Report (r_exit r) (r_out r) None
  | None => r
  end.
Definition rep_step (mode : t_mode) (r : report) (e : event) : report :=
  let r := Report (Z.lor (r_exit r) (TTYPE_RESULT (e_type e))) (r_out r) (r_held r) in
  if unnumbered (e_type e) then rep_print (e_type e) (event_line mode e) r
  else
    match mode with
    | DISCARD => r
    | VERBOSE => rep_print (e_type e) (event_line mode e) r
    | NOPASS =>
        if match r_held r with Some l => same_result l e | None => false end then r
        else let r := rep_flush r in Report (r_exit r) (r_out r) (Some (as_last e))
    end.

Definition mode_of (s : state) : t_mode := if first_time s then env_mode else T_mode s.

Record sok (s : state) : Prop := {
  sok_tcid : text_ok 100 (TCID s);
  sok_held : Buffered s = true → first_time s = false ∧ T_mode s = NOPASS ∧ text_ok 100 (Last_tcid (Lastr s)) ∧
    text_ok 1300 (Last_mesg (Lastr s)) ∧ INT_MIN ≤ Last_num (Lastr s) ≤ INT_MAX ∧
    TTYPE_RESULT (Last_type (Lastr s)) = Last_type (Lastr s) }.

(** What a report leaves alone. *)
Definition frame (s s' : state) : Prop :=
  TCID s' = TCID s ∧ errs s' = errs s ∧ tst_brk_entered s' = tst_brk_entered s ∧ mode_of s' = mode_of s.

Lemma line_short mode tcid tnum ttype tmesg es :
  (length tcid ≤ 100)%nat → (length tmesg ≤ 1300)%nat → INT_MIN ≤ tnum ≤ INT_MAX →
  zlength (line strerror mode tcid tnum ttype tmesg es) + 1 < USERMESG.
Proof using strerror_short.
  clear garbage_length. intros Ht Hm Hn. pose proof (fmt_d_length tnum Hn).
  assert (Hty : (length (strttype ttype) ≤ 5)%nat)
    by (pose proof (strttype_length ttype) as H0; rewrite !elem_of_cons, elem_of_nil in H0; lia).
  assert (He : ∀ b what e, (length what ≤ 11)%nat →
    (length (if b : bool then errno_text strerror what e else []) ≤ 147)%nat).
  { intros [] what e Hw; [|simpl; lia]. unfold errno_text. rewrite !length_app.
    pose proof (tst_strerrno_length (s32 e)). pose proof (strerror_short (s32 e)).
    pose proof (fmt_d_length (s32 e) ltac:(pose proof (s32_range e); unfold INT_MIN, INT_MAX; lia)). simpl. lia. }
  unfold line, ljust, rjust, USERMESG. rewrite !length_app, !length_replicate.
  pose proof (He (has ttype TERRNO) (str "errno") es.1.1 ltac:(simpl; lia)).
  pose proof (He (has ttype TTERRNO) (str "TEST_ERRNO") es.1.2 ltac:(simpl; lia)).
  pose proof (He (has ttype TRERRNO) (str "TEST_RETURN") es.2 ltac:(simpl; lia)).
  assert (length (match mode with VERBOSE => str "  " | _ => str "       " end) ≤ 7)%nat by (destruct mode; simpl; lia).
  simpl (length (str " ")). simpl (length (str "  :  ")). lia.
Qed.

Lemma print_short tcid tnum ttype tmesg s :
  text_ok 100 tcid → text_ok 1300 tmesg → INT_MIN ≤ tnum ≤ INT_MAX →
  ∃ s', tst_print strerror garbage tcid tnum ttype tmesg s = Next () s' ∧
    s' = State (Z.lor (T_exitval s) (TTYPE_RESULT ttype)) (T_mode s) (first_time s) (Buffered s) (Lastr s) (tst_count s)
      (tst_brk_entered s) (TCID s) (errno s) (TEST_ERRNO s) (TEST_RETURN s)
      (stdout s ++ print_line (T_mode s) tcid tnum ttype tmesg (errs s)).
Proof using garbage_length strerror_nonul strerror_short.
  intros [Ht Htl] [Hm Hml] Hn.
  destruct (tst_print_spec strerror garbage garbage_length strerror_nonul tcid tnum ttype tmesg s Ht Hm) as (H1 & H2 & _).
  unfold print_line. destruct (quiet (T_mode s) ttype).
  - rewrite H1 by done. eexists. split; [done|]. by rewrite app_nil_r.
  - rewrite H2 by (done || by apply line_short). eexists. split; [done|]. done.
Qed.

Lemma result_flags t f : Z.land TTYPE_MASK f = 0 → has (TTYPE_RESULT t) f = false.
Proof. intros H. unfold has, TTYPE_RESULT. by rewrite <- Z.land_assoc, H, Z.land_0_r. Qed.

Lemma held_text l es : TTYPE_RESULT (Last_type l) = Last_type l →
  print_line NOPASS (Last_tcid l) (Last_num l) (Last_type l) (Last_mesg l) es = held_line l.
Proof.
  intros E. unfold held_line, print_line, line. rewrite <- E. by rewrite !result_flags.
Qed.

Lemma mesg_ok file lineno ttype text :
  call_ok (Resm file lineno ttype text) → text_ok 1300 (mesg file lineno ttype text).
Proof.
  clear garbage_length. intros ([Hn Hl] & Hne & Hline & Hf). unfold mesg. destruct file as [f|]; [|split; [done|lia]].
  case_if; [|split; [done|lia]]. destruct Hf as [Hfn Hfl]. unfold location. split.
  - repeat apply nonul_app; auto with nonul.
  - rewrite !length_app. pose proof (fmt_d_length lineno Hline). simpl (length (str ":")). simpl (length (str ": ")). lia.
Qed.

Lemma res_mesg_ok file lineno ttype text s : call_ok (Resm file lineno ttype text) →
  res_mesg file lineno (TTYPE_RESULT ttype) text s = Next (mesg file lineno ttype text) s.
Proof.
  clear garbage_length. intros H. pose proof (mesg_ok _ _ _ _ H) as [_ Hm]. destruct H as ([Hn Hl] & Hne & _).
  unfold res_mesg, mesg in *. cbv zeta.
  assert (Hexp : ∀ loc : cstr, (length (loc ++ text) ≤ 1300)%nat →
    (if USERMESG <=? zlength loc then λ _, Bad
     else t ← EXPAND_VAR_ARGS text (USERMESG - zlength loc); mret (loc ++ t)) s = Next (loc ++ text) s).
  { intros loc Hlen. rewrite length_app in Hlen. unfold USERMESG. rewrite (proj2 (Z.leb_gt _ _)) by lia.
    erewrite bind_next; [reflexivity|]. unfold EXPAND_VAR_ARGS, snprintf_cut. rewrite take_ge by lia. by destruct text. }
  destruct file as [f|]; [|by apply (Hexp [])]. destruct (negb _ && negb _); [by apply (Hexp (location f lineno))|by apply (Hexp [])].
Qed.

Lemma expand_ok text s : text_ok 1000 text → text ≠ [] → EXPAND_VAR_ARGS text USERMESG s = Next text s.
Proof. clear garbage_length. intros [_ Hl] Hne. unfold EXPAND_VAR_ARGS, snprintf_cut, USERMESG. rewrite take_ge by lia. by destruct text. Qed.

Lemma check_env_mode s : ∃ s', check_env TOUTPUT s = Next () s' ∧ s' = set_mode (mode_of s) s.
Proof.
  unfold check_env, mode_of. erewrite bind_next by reflexivity. destruct s as [? ? []]; simpl; eexists; by split.
Qed.

(** The result held back, printed. *)
Lemma flush_held s : sok s → Buffered s = true →
  ∃ s', tst_print strerror garbage (Last_tcid (Lastr s)) (Last_num (Lastr s)) (Last_type (Lastr s)) (Last_mesg (Lastr s)) s
      = Next () s' ∧
    rep (set_last false (Lastr s') s') = rep_flush (rep s) ∧ s' = State (T_exitval s') (T_mode s) (first_time s) true
      (Lastr s) (tst_count s) (tst_brk_entered s) (TCID s) (errno s) (TEST_ERRNO s) (TEST_RETURN s) (stdout s').
Proof using garbage_length strerror_nonul strerror_short.
  intros Hs Hb. destruct (sok_held _ Hs Hb) as (Hf & Hm & Ht & Hg & Hn & Hty).
  destruct (print_short _ _ (Last_type (Lastr s)) _ s Ht Hg Hn) as (s' & E & ->). eexists. split; [exact E|].
  split; [|by rewrite <- Hb]. unfold rep, rep_flush. simpl. rewrite Hb, Hm. simpl. by rewrite held_text.
Qed.

Lemma flush_rep s : sok s →
  ∃ s', tst_flush strerror garbage s = Next () s' ∧ rep s' = rep_flush (rep s) ∧ sok s' ∧ frame s s' ∧
    tst_count s' = tst_count s ∧ Buffered s' = false.
Proof using garbage_length strerror_nonul strerror_short.
  intros Hs. unfold tst_flush. do 3 (erewrite bind_next by reflexivity). destruct (Buffered s) eqn:Hb.
  - destruct (flush_held s Hs Hb) as (s' & E & Hr & Es). destruct (sok_held _ Hs Hb) as (_ & Hm & _).
    rewrite Hm. simpl. erewrite bind_next by exact E. eexists. split; [done|]. split; [done|]. rewrite Es.
    split; [|done]. split; [apply Hs|done].
  - simpl. exists s. split; [done|]. split; [|done]. unfold rep_flush, rep. simpl. by rewrite Hb.
Qed.

Lemma condense_step e s : sok s → mode_of s = NOPASS → first_time s = false →
  e_tcid e = TCID s → text_ok 1300 (e_mesg e) → INT_MIN ≤ e_num e ≤ INT_MAX →
  ∃ s', tst_condense strerror garbage (e_num e) (e_type e) (e_mesg e) s = Next () s' ∧ sok s' ∧ frame s s' ∧
    tst_count s' = tst_count s ∧
    rep s' = (if match r_held (rep s) with Some l => same_result l e | None => false end then rep s
              else let r := rep_flush (rep s) in Report (r_exit r) (r_out r) (Some (as_last e))).
Proof using garbage_length strerror_nonul strerror_short.
  intros Hs Hm Hf Ht Hg Hn. unfold tst_condense. do 3 (erewrite bind_next by reflexivity).
  assert (Hlast : ∀ s', TCID s' = TCID s → T_mode s' = T_mode s → first_time s' = false →
    sok (set_last true (as_last e) s')).
  { intros s' E1 E2 E3. split; simpl; [rewrite E1; apply Hs|]. intros _. unfold mode_of in Hm. rewrite Hf in Hm.
    rewrite E2, E3, Ht. split_and!; try done; try apply Hs; try lia.
    apply TTYPE_RESULT_idem. }
  unfold same_result. simpl r_held. rewrite Ht. destruct (Buffered s) eqn:Hb; cbn [andb].
  - case_if; [exists s; by split_and!|].
    destruct (flush_held s Hs Hb) as (s' & Ep & Hr & Es). unfold when. erewrite bind_next by exact Ep.
    eexists. split; [unfold modify; rewrite <- Ht; reflexivity|]. split_and!.
    + apply (Hlast s'); by rewrite Es.
    + rewrite Es. by unfold frame, mode_of, errs.
    + by rewrite Es.
    + rewrite <- Hr. rewrite Es. done.
  - eexists. split; [unfold when, modify; rewrite <- Ht; reflexivity|]. split_and!; try done.
    + by apply (Hlast s).
    + unfold rep, rep_flush. simpl. by rewrite Hb.
Qed.

(** [tst_print] of a new result, seen by the machine. *)
Lemma print_step e s : sok s → e_tcid e = TCID s → text_ok 1300 (e_mesg e) → INT_MIN ≤ e_num e ≤ INT_MAX →
  e_errs e = errs s → first_time s = false →
  ∃ s', tst_print strerror garbage (e_tcid e) (e_num e) (e_type e) (e_mesg e) s = Next () s' ∧ sok s' ∧ frame s s' ∧
    tst_count s' = tst_count s ∧ rep s' = rep_print (e_type e) (event_line (mode_of s) e) (rep s).
Proof using garbage_length strerror_nonul strerror_short.
  intros Hs Ht Hg Hn He Hf.
  destruct (print_short (e_tcid e) (e_num e) (e_type e) (e_mesg e) s) as (s' & E & ->); [rewrite Ht; apply Hs|done..|].
  eexists. split; [exact E|]. split_and!; try done.
  - split; [apply Hs|]. simpl. apply (sok_held _ Hs).
  - unfold rep, rep_print, event_line, mode_of. simpl. by rewrite He, Hf.
Qed.

(** The state in which the result is printed. *)
Lemma start_result t s (s1 := set_mode (mode_of s) (add_type t s)) : sok s →
  sok s1 ∧ frame s s1 ∧ tst_count s1 = tst_count s ∧ first_time s1 = false ∧ mode_of s1 = mode_of s ∧
  rep s1 = Report (Z.lor (T_exitval s) t) (stdout s) (r_held (rep s)).
Proof.
  intros Hs. subst s1. split_and!; try done. split; [apply Hs|]. simpl. intros Hb. destruct (sok_held _ Hs Hb) as (Hf & Hm & ?).
  unfold mode_of. by rewrite Hf, Hm.
Qed.

Lemma frame_trans s1 s2 s3 : frame s1 s2 → frame s2 s3 → frame s1 s3.
Proof. unfold frame. intuition congruence. Qed.

(** One report: the new state is that of the machine. *)
Lemma res_step file lineno ttype text s : sok s → call_ok (Resm file lineno ttype text) → 0 ≤ tst_count s < INT_MAX →
  let n := if unnumbered ttype then tst_count s else tst_count s + 1 in
  let e := Ev (TCID s) (if unnumbered ttype then 0 else tst_count s + 1) ttype (mesg file lineno ttype text) (errs s) in
  ∃ s', tst_res__ strerror TOUTPUT garbage file lineno ttype text s = Next () s' ∧ sok s' ∧ frame s s' ∧
    tst_count s' = n ∧ rep s' = rep_step (mode_of s) (rep s) e.
Proof using garbage_length strerror_nonul strerror_short.
  intros Hs Hc Hcount n e. pose proof (mesg_ok _ _ _ _ Hc) as Hg.
  assert (Hnum : INT_MIN ≤ e_num e ≤ INT_MAX) by (simpl; unfold INT_MIN, INT_MAX in *; case_if; lia).
  unfold tst_res__. cbv zeta. erewrite bind_next by (by apply res_mesg_ok). erewrite bind_next by reflexivity.
  destruct (check_env_mode (add_type (TTYPE_RESULT ttype) s)) as (s1 & E1 & Es1).
  erewrite bind_next by exact E1. clear E1. destruct (start_result (TTYPE_RESULT ttype) s Hs) as (H1 & H2 & H3 & H4 & H5 & H6).
  change (mode_of (add_type _ s)) with (mode_of s) in Es1. rewrite <- Es1 in *. clear Es1.
  pose proof H2 as (Ht1 & He1 & _). erewrite bind_next by reflexivity. rewrite Ht1.
  assert (Hprint : ∃ s', tst_print strerror garbage (TCID s) (e_num e) ttype (mesg file lineno ttype text) s1 = Next () s' ∧
    sok s' ∧ frame s s' ∧ tst_count s' = tst_count s ∧ rep s' = rep_print ttype (event_line (mode_of s) e) (rep s1)).
  { destruct (print_step e s1) as (s' & E & Hs' & Hf' & Hn' & Hr'); try done. exists s'. split_and!; try done.
    - by eapply frame_trans.
    - by rewrite Hn'.
    - by rewrite Hr', H5. }
  unfold rep_step. change (e_type e) with ttype. unfold n in *. fold (unnumbered ttype).
  cbn [e_num] in Hprint, Hnum. unfold e in Hprint at 1. cbn [e_num] in Hprint. destruct (unnumbered ttype) eqn:Hu.
  { destruct Hprint as (s' & E & ? & ? & ? & Hr). exists s'. split_and!; try done. by rewrite Hr, H6. }
  erewrite bind_next by reflexivity. rewrite H3, (proj2 (Z.ltb_ge _ _)) by lia.
  erewrite bind_next by reflexivity. erewrite bind_next by reflexivity.
  replace (T_mode s1) with (mode_of s) by (rewrite <- H5; unfold mode_of; by rewrite H4).
  erewrite bind_next by (unfold lift; rewrite ck32_ok by (unfold INT_MIN; lia); reflexivity).
  destruct (mode_of s) eqn:Hmode.
  - destruct Hprint as (s' & E & [] & ? & ? & Hr). erewrite bind_next by exact E. eexists. split; [done|]. split_and!; try done.
    by rewrite H6 in Hr.
  - destruct (condense_step e s1) as (s' & E & [] & Hf' & _ & Hr); try done.
    erewrite bind_next by exact E. eexists. split; [done|]. split_and!; try done; [by apply (frame_trans s s1)|].
    by rewrite H6 in Hr.
  - erewrite bind_next by reflexivity. eexists. split; [done|]. destruct H1. by split_and!.
Qed.

Lemma run_rep cs s : sok s → Forall call_ok cs → 0 ≤ tst_count s ≤ 2 ^ 30 + 2 ^ 29 → zlength cs < 2 ^ 28 →
  ∃ s', run cs s = Next () s' ∧ sok s' ∧ tst_brk_entered s' = tst_brk_entered s ∧ mode_of s' = mode_of s ∧
    0 ≤ tst_count s' ≤ Z.max (tst_count s) (2 ^ 30) + zlength cs ∧
    (TCID s', tst_count s', errs s') = after (TCID s) (tst_count s) (errs s) cs ∧
    rep s' = foldl (rep_step (mode_of s)) (rep s) (events (TCID s) (tst_count s) (errs s) cs).
Proof using garbage_length strerror_nonul strerror_short.
  intros Hs Hcs. revert s Hs.
  assert (H : ∀ s, sok s → 0 ≤ tst_count s → Z.max (tst_count s) (2 ^ 30) + zlength cs < INT_MAX →
    ∃ s', run cs s = Next () s' ∧ sok s' ∧ tst_brk_entered s' = tst_brk_entered s ∧ mode_of s' = mode_of s ∧
      0 ≤ tst_count s' ≤ Z.max (tst_count s) (2 ^ 30) + zlength cs ∧
      (TCID s', tst_count s', errs s') = after (TCID s) (tst_count s) (errs s) cs ∧
      rep s' = foldl (rep_step (mode_of s)) (rep s) (events (TCID s) (tst_count s) (errs s) cs)).
  { induction Hcs as [|c cs Hc Hcs IH]; intros s Hs H0 Hlen; [exists s; split_and!; try done; lia|].
    cbn [length] in Hlen. rewrite Nat2Z.inj_succ in Hlen. cbn [run length]. rewrite Nat2Z.inj_succ.
    destruct c as [file lineno ttype text|n|t|ret err]; cbn [do_call].
    - destruct (res_step file lineno ttype text s) as (s1 & E & Hs1 & (Ht & He & Hb & Hm) & Hn & Hr); [done|done|lia|].
      destruct (IH s1) as (s' & E' & ? & Hb' & Hm' & ? & Ha' & Hr'); [done|destruct (unnumbered ttype); lia..|].
      exists s'. erewrite bind_next by (unfold tst_resm_; rewrite bind_next with (1 := expand_ok text s (proj1 Hc) (proj1 (proj2 Hc))); exact E).
      split_and!; try done; [congruence|congruence|lia|destruct (unnumbered ttype); lia| |].
      { cbn [after]. by rewrite Ha', Ht, He, Hn. }
      cbn [events]. cbn [foldl]. rewrite Hr', Hm, Ht, He, Hr, Hn. done.
    - destruct (IH (set_count n s)) as (s' & E' & ? & ? & ? & ? & ? & ?); [by destruct Hs|simpl in *; lia..|].
      exists s'. erewrite bind_next by reflexivity. simpl in *. split_and!; try done; lia.
    - destruct (IH (set_tcid t s)) as (s' & E' & ? & ? & ? & ? & ? & ?); [by destruct Hs; split|simpl in *; lia..|].
      exists s'. erewrite bind_next by reflexivity. simpl in *. split_and!; try done; lia.
    - destruct (IH (set_errs err err ret s)) as (s' & E' & ? & ? & ? & ? & ? & ?); [by destruct Hs|simpl in *; lia..|].
      exists s'. erewrite bind_next by reflexivity. simpl in *. split_and!; try done; lia. }
  intros s Hs H0 Hl. apply H; [done|lia|]. unfold INT_MAX. lia.
Qed.

Lemma exit_rep {A} s : sok s → ∃ s', tst_exit strerror garbage (A := A) s =
    Exits (Z.land (r_exit (rep_flush (rep s))) (Z.lnot TINFO)) s' ∧ stdout s' = r_out (rep_flush (rep s)).
Proof using TOUTPUT garbage_length strerror_nonul strerror_short.
  intros Hs. destruct (flush_rep s Hs) as (s' & E & Hr & _). exists s'. unfold tst_exit. erewrite bind_next by exact E.
  erewrite bind_next by reflexivity. by rewrite <- Hr.
Qed.

(** *** What the machine reports *)

Ltac lor_bits := apply Z.bits_inj'; intros ??; rewrite ?Z.lor_spec; repeat destruct (Z.testbit _ _); reflexivity.

Definition held_in (r : report) : Prop :=
  ∀ l, r_held r = Some l → Z.lor (r_exit r) (TTYPE_RESULT (Last_type l)) = r_exit r.

Lemma flush_exit r : held_in r → r_exit (rep_flush r) = r_exit r.
Proof. intros H. unfold rep_flush. destruct (r_held r) eqn:E; [|done]. simpl. by apply H. Qed.

Lemma step_exit mode r e : held_in r →
  r_exit (rep_step mode r e) = Z.lor (r_exit r) (TTYPE_RESULT (e_type e)) ∧ held_in (rep_step mode r e).
Proof.
  intros H. set (r1 := Report (Z.lor (r_exit r) (TTYPE_RESULT (e_type e))) (r_out r) (r_held r)).
  assert (H1 : held_in r1).
  { intros l Hl. simpl. rewrite <- (H l Hl) at 2. lor_bits. }
  unfold rep_step. fold r1.
  assert (Hp : ∀ ls, r_exit (rep_print (e_type e) ls r1) = Z.lor (r_exit r) (TTYPE_RESULT (e_type e)) ∧
    held_in (rep_print (e_type e) ls r1)).
  { intros ls. assert (Hx : r_exit (rep_print (e_type e) ls r1) = r_exit r1) by (simpl; lor_bits).
    split; [exact Hx|]. intros l Hl. rewrite Hx. by apply H1. }
  destruct (unnumbered (e_type e)); [apply Hp|]. destruct mode; [apply Hp| |done].
  change (r_held r1) with (r_held r). case_if; [done|]. cbv zeta. cbn [r_exit].
  rewrite flush_exit by done. split; [done|]. intros l [= <-]. cbn [r_exit Last_type as_last r1].
  rewrite TTYPE_RESULT_idem. unfold r1. cbn [r_exit]. lor_bits.
Qed.

Lemma fold_exit mode evs r : held_in r →
  r_exit (rep_flush (foldl (rep_step mode) r evs)) = Z.lor (r_exit r) (types evs).
Proof.
  revert r. induction evs as [|e evs IH]; intros r Hr; simpl.
  - rewrite flush_exit, Z.lor_0_r by done. done.
  - destruct (step_exit mode r e Hr) as [He Hh]. rewrite IH, He by done. lor_bits.
Qed.

Lemma merge_app_l {A} (x a b l : list A) : merge a b l → merge (x ++ a) b (x ++ l).
Proof. intros. induction x; simpl; [done|by constructor]. Qed.
Lemma merge_app_r {A} (x a b l : list A) : merge a b l → merge a (x ++ b) (x ++ l).
Proof. intros. induction x; simpl; [done|by constructor]. Qed.

Lemma fold_out mode evs r : mode ≠ NOPASS → r_held r = None →
  r_out (rep_flush (foldl (rep_step mode) r evs)) = r_out r ++ concat (map (event_line mode) evs).
Proof.
  intros Hm. revert r. induction evs as [|e evs IH]; intros r Hr; simpl.
  - unfold rep_flush. by rewrite Hr, app_nil_r.
  - assert (Hs : r_out (rep_step mode r e) = r_out r ++ event_line mode e ∧ r_held (rep_step mode r e) = None).
    { unfold rep_step. destruct (unnumbered (e_type e)); [done|]. destruct mode; [done|done|].
      unfold event_line, print_line. simpl. by rewrite app_nil_r. }
    rewrite IH by apply Hs. by rewrite (proj1 Hs), app_assoc.
Qed.

Lemma fold_nopass evs r :
  ∃ o, r_out (rep_flush (foldl (rep_step NOPASS) r evs)) = r_out r ++ o ∧
    merge (concat (map (event_line NOPASS) (filter (λ e, unnumbered (e_type e) = true) evs)))
      (match r_held r with Some l => held_line l | None => [] end ++
       concat (map held_line (condense (r_held r) (filter (λ e, unnumbered (e_type e) = false) evs)))) o.
Proof.
  revert r. induction evs as [|e evs IH]; intros r.
  - unfold rep_flush. simpl. destruct (r_held r) as [l|]; simpl.
    + eexists. split; [done|]. rewrite app_nil_r. rewrite <- (app_nil_r (held_line l)) at 2.
      rewrite <- (app_nil_r (held_line l)) at 1. apply merge_app_r. constructor.
    + exists []. rewrite app_nil_r. split; [done|constructor].
  - cbn [foldl]. destruct (IH (rep_step NOPASS r e)) as (o & Ho & Hmerge). rewrite Ho. revert Hmerge.
    rewrite !filter_cons. unfold rep_step. destruct (unnumbered (e_type e)) eqn:Hu.
    + rewrite decide_True, decide_False by done. simpl. intros Hmerge. rewrite <- app_assoc. eexists. split; [done|].
      by apply merge_app_l.
    + rewrite decide_False, decide_True by done. cbv zeta. cbn [r_held condense].
      destruct (r_held r) as [l|] eqn:Hl.
      * destruct (same_result l e); simpl.
        -- intros. by eexists.
        -- unfold rep_flush. simpl. intros Hmerge. rewrite <- app_assoc. eexists. split; [done|].
           by apply merge_app_r.
      * unfold rep_flush. simpl. intros. by eexists.
Qed.

Lemma printed_rep mode evs v :
  printed mode evs (r_out (rep_flush (foldl (rep_step mode) (Report v [] None) evs))).
Proof.
  unfold printed. destruct mode.
  - by rewrite fold_out by done.
  - destruct (fold_nopass evs (Report v [] None)) as (o & -> & Hm). done.
  - rewrite fold_out by done. simpl. induction evs; simpl; done.
Qed.

Lemma run_app a b s : run (a ++ b) s = (_ ← run a; run b) s.
Proof.
  revert s. induction a as [|c a IH]; intros s; [done|]. cbn [run app]. rewrite bind_assoc.
  unfold mbind at 1 2, M_bind. destruct (do_call c s); [apply IH|done..].
Qed.

Lemma resm_res file lineno ttype text s : call_ok (Resm file lineno ttype text) →
  do_call (Resm file lineno ttype text) s = tst_res__ strerror TOUTPUT garbage file lineno ttype text s.
Proof. intros (? & ? & _). cbn [do_call]. unfold tst_resm_. by erewrite bind_next by (by apply expand_ok). Qed.

Lemma run_cons {A} file lineno ttype text l (k : () → M A) s : call_ok (Resm file lineno ttype text) →
  (run (Resm file lineno ttype text :: l) ≫= k) s =
  (tst_res__ strerror TOUTPUT garbage file lineno ttype text ≫= λ _, run l ≫= k) s.
Proof.
  intros H. cbn [run]. rewrite bind_assoc. unfold mbind, M_bind. by rewrite (resm_res _ _ _ _ s H).
Qed.

(** Calls, and then the end of the test. *)
Lemma run_exit {A} cs s : sok s → Forall call_ok cs → 0 ≤ tst_count s ≤ 2 ^ 30 + 2 ^ 29 → zlength cs < 2 ^ 28 →
  let r := rep_flush (foldl (rep_step (mode_of s)) (rep s) (events (TCID s) (tst_count s) (errs s) cs)) in
  ∃ s', (_ ← run cs; tst_exit strerror garbage (A := A)) s = Exits (Z.land (r_exit r) (Z.lnot TINFO)) s' ∧ stdout s' = r_out r.
Proof using garbage_length strerror_nonul strerror_short.
  intros Hs Hcs Hn Hl r. destruct (run_rep cs s Hs Hcs Hn Hl) as (s1 & E & Hs1 & _ & _ & _ & _ & Hr).
  erewrite bind_next by exact E. destruct (exit_rep (A := A) s1 Hs1) as (s' & E' & Ho). exists s'. rewrite E', Ho, Hr. done.
Qed.

(** What [tst_brk__] reports before it calls the cleanup function. *)
Definition brk_calls (file : option cstr) (lineno ttype : Z) (text : cstr) : list call :=
  Resm file lineno ttype text ::
  if TTYPE_RESULT ttype =? TCONF then
    [Resm file lineno ttype (str "Remaining cases not appropriate for configuration")]
  else if TTYPE_RESULT ttype =? TBROK then [Resm file lineno TBROK (str "Remaining cases broken")]
  else [].

Lemma brk_calls_ok file lineno ttype text :
  call_ok (Resm file lineno ttype text) → Forall call_ok (brk_calls file lineno ttype text).
Proof.
  intros Hc. unfold brk_calls. constructor; [done|]. destruct Hc as (_ & _ & Hl & Hf).
  assert (Ht : ∀ t t', nonul (str t') → (length (str t') ≤ 1000)%nat → str t' ≠ [] → call_ok (Resm file lineno t (str t')))
    by (intros; split; [done|]; split; [done|]; by split).
  destruct (_ =? TCONF); [|destruct (_ =? TBROK); [|constructor]]; apply Forall_singleton;
    (apply Ht; [auto with nonul|apply Nat.leb_le; reflexivity|done]).
Qed.

(** [tst_brk__] in a test and in its cleanup function: the reports, the cleanup,
    and the end of the test unless it is called from a cleanup function. *)
Lemma brk_run file lineno ttype func text s :
  sok s → call_ok (Resm file lineno ttype text) → 0 ≤ tst_count s ≤ 2 ^ 30 + 2 ^ 29 →
  TTYPE_RESULT ttype ∈ [TFAIL; TBROK; TCONF] →
  let calls := if tst_brk_entered s =? 0 then brk_calls file lineno ttype text else [Resm file lineno ttype text] in
  tst_brk__ strerror TOUTPUT garbage file lineno ttype func text s =
  (_ ← run calls;
   _ ← (match func with
        | None => mret ()
        | Some func =>
            _ ← modify (λ s, set_entered (tst_brk_entered s + 1) s); _ ← func;
            modify (λ s, set_entered (tst_brk_entered s - 1) s)
        end);
   entered ← get tst_brk_entered;
   when (entered =? 0) (tst_exit strerror garbage)) s.
Proof using garbage_length strerror_nonul strerror_short.
  intros Hs Hc Hn Hty calls. unfold tst_brk__. cbv zeta.
  assert (Hcalls : Forall call_ok calls) by (unfold calls; case_if; [by apply brk_calls_ok|by constructor]).
  erewrite bind_next by (apply expand_ok; apply Hc). erewrite bind_next by reflexivity.
  replace (negb (TTYPE_RESULT ttype =? TFAIL) && _ && _) with false
    by (rewrite !elem_of_cons, elem_of_nil in Hty; destruct Hty as [->|[->|[->|[]]]]; done).
  erewrite bind_next by reflexivity.
  destruct (res_step file lineno ttype text s) as (s1 & E & Hs1 & (_ & _ & Hb & _) & _); [done|done|unfold INT_MAX; lia|].
  erewrite bind_next by exact E. erewrite bind_next by reflexivity. rewrite Hb.
  unfold calls. destruct (Z.eqb_spec (tst_brk_entered s) 0).
  - apply brk_calls_ok in Hc. unfold brk_calls in *. apply Forall_cons in Hc as [Hc Hc'].
    rewrite run_cons, (bind_next _ _ s () s1 E) by done. unfold when at 1. revert Hc'.
    destruct (TTYPE_RESULT ttype =? TCONF); [|destruct (TTYPE_RESULT ttype =? TBROK); [|done]];
      intros Hc'; rewrite Forall_singleton in Hc'; by rewrite run_cons by done.
  - by rewrite run_cons, (bind_next _ _ s () s1 E) by done.
Qed.

(** *** Hexadecimal dumps *)

Definition hex (b : Z) : cstr := fmt_0x 2 (u8 b).
(** The text [p] with a byte added, and a byte after the others. *)
Definition add_byte (p : cstr) (b : Z) : cstr := match p with [] => [] | _ => p ++ [" "%char] end ++ hex b.
Fixpoint hex_lines (p : cstr) (i size : Z) (buf : list Z) : list cstr :=
  match buf with
  | [] => []
  | b :: buf =>
      if ((i + 1) mod size_max =? 0) || (i + 1 =? size) then add_byte p b :: hex_lines [] (i + 1) size buf
      else hex_lines (add_byte p b) (i + 1) size buf
  end.

Lemma hex_shape b : length (hex b) = 2%nat ∧ nonul (hex b).
Proof.
  clear garbage_length. unfold hex, fmt_0x. pose proof (u8_range b).
  pose proof (digits_length 16 (u8 b) 2 ltac:(lia) ltac:(lia) ltac:(lia)). split.
  - rewrite length_app, length_replicate. lia.
  - apply nonul_app; [auto with nonul|]. apply nonul_digits; lia.
Qed.

Lemma write_end m p x : length m = 2048%nat → take (length p) m = p → nonul (p ++ x) → (length (p ++ x) < 2048)%nat →
  ∃ m', mem_write m (zlength p) (x ++ [NUL]) = Ret m' ∧ length m' = 2048%nat ∧ take (length (p ++ x)) m' = p ++ x ∧
    as_string m' = p ++ x.
Proof.
  clear garbage_length. intros Hm Hp Hn Hl. rewrite length_app in Hl.
  rewrite mem_write_ok by (rewrite ?length_app; simpl; lia).
  eexists. split; [done|]. split; [rewrite store_length; rewrite ?length_app; simpl; lia|].
  unfold store. rewrite Nat2Z.id, Hp, app_assoc, app_assoc. rewrite <- (app_assoc (p ++ x)). split; [by apply take_app_length'|].
  unfold as_string. rewrite span_app; [done| |done]. eapply Forall_impl; [exact Hn|]. by intros c ->.
Qed.

(** The byte written at the end of the text in the buffer. *)
Lemma byte_written m p b s : length m = 2048%nat → take (length p) m = p → nonul p → (length p + 3 < 2048)%nat →
  ∃ m', (r ← (if negb (zlength p =? 0) then x ← lift (mem_write m (zlength p) [" "%char]); mret (x, zlength p + 1)
               else mret (m, zlength p));
         let '(tmesg, pmesg) := (r : cstr * Z) in
         x ← lift (mem_write tmesg pmesg (fmt_0x 2 (u8 b) ++ [NUL])); mret (x, pmesg)) s =
        Next (m', zlength (add_byte p b) - 2) s ∧
    length m' = 2048%nat ∧ take (length (add_byte p b)) m' = add_byte p b ∧ as_string m' = add_byte p b ∧
    nonul (add_byte p b).
Proof.
  clear garbage_length. intros Hm Hp Hn Hl. destruct (hex_shape b) as [Hh Hhn]. unfold add_byte. destruct p as [|c p].
  - rewrite Z.eqb_refl. erewrite bind_next by reflexivity. cbv beta iota.
    destruct (write_end m [] (hex b)) as (m' & E & ? & ? & ?); [done..|cbn [app]; lia|].
    erewrite bind_next by (unfold lift; change (fmt_0x 2 (u8 b)) with (hex b); rewrite E; done).
    exists m'. cbn [app] in *. split_and!; try done. by rewrite Hh.
  - set (q := c :: p) in *. rewrite (proj2 (Z.eqb_neq _ 0)) by (unfold q; simpl; lia). cbn [negb].
    erewrite bind_next by (erewrite bind_next by (unfold lift; rewrite mem_write_ok by (change (zlength [_]) with 1; lia); done); done).
    cbv beta iota. set (m1 := store m (zlength q) [" "%char]).
    assert (Hm1 : length m1 = 2048%nat) by (unfold m1; rewrite store_length; change (zlength [_]) with 1; lia).
    assert (Hq : zlength q + 1 = zlength (q ++ [" "%char])) by (rewrite length_app; change (length [_]) with 1%nat; lia). rewrite Hq.
    assert (nonul (q ++ [" "%char])) by (apply nonul_app; [done|by repeat constructor]).
    destruct (write_end m1 (q ++ [" "%char]) (hex b)) as (m' & E & ? & ? & ?); [done| | | |].
    + unfold m1, store. rewrite Nat2Z.id, Hp, app_assoc. by apply take_app_length'.
    + by apply nonul_app.
    + rewrite !length_app, Hh. change (length [_]) with 1%nat. lia.
    + erewrite bind_next by (unfold lift; change (fmt_0x 2 (u8 b)) with (hex b); rewrite E; done).
      exists m'. split_and!; try done; [|by apply nonul_app].
      unfold mret, M_ret. do 2 f_equal. rewrite !length_app, Hh. lia.
Qed.

Lemma expand_full text s : text ≠ [] → (length text < 2048)%nat → EXPAND_VAR_ARGS text USERMESG s = Next text s.
Proof. clear garbage_length. intros. unfold EXPAND_VAR_ARGS, snprintf_cut, USERMESG. rewrite take_ge by lia. by destruct text. Qed.

Lemma resm_full file lineno ttype text s : text ≠ [] → (length text < 2048)%nat →
  do_call (Resm file lineno ttype text) s = tst_res__ strerror TOUTPUT garbage file lineno ttype text s.
Proof. intros. cbn [do_call]. unfold tst_resm_. by erewrite bind_next by (by apply expand_full). Qed.

(** The loop reports the lines; [k] bytes more come into the current one. *)
Lemma hexd_loop_lines file lineno ttype buf i size m p s :
  length m = 2048%nat → take (length p) m = p → nonul p → 0 ≤ i → i + zlength buf = size →
  zlength p + 3 * Z.min (zlength buf) (16 - i mod 16) < 2048 →
  hexd_loop strerror TOUTPUT garbage file lineno ttype buf i size m (zlength p) s =
  run (map (Resm file lineno ttype) (hex_lines p i size buf)) s.
Proof.
  clear garbage_length. revert i m p s. induction buf as [|b buf IH]; intros i m p s Hm Hp Hn Hi Hsize Hfit; [done|].
  cbn [hexd_loop hex_lines length] in *. rewrite Nat2Z.inj_succ in *.
  assert (Hmod : 0 ≤ i mod 16 < 16) by (apply Z.mod_pos_bound; lia).
  destruct (byte_written m p b s) as (m' & E & Hm' & Hp' & Has & Hn'); [done..|lia|].
  assert (Hlen : 0 < zlength (add_byte p b) ≤ zlength p + 3).
  { unfold add_byte. rewrite length_app, (proj1 (hex_shape b)). destruct p; simpl; rewrite ?length_app; simpl; lia. }
  assert (Hne : add_byte p b ≠ []) by (destruct (add_byte p b); simpl in *; [lia|done]).
  revert E. unfold mbind at 1 2 4 5, M_bind at 1 2 4 5.
  match goal with |- context [match ?x s with Next _ _ => _ | Exits _ _ => _ | Aborts _ => _ | Bad => _ end] =>
    destruct (x s) as [[m1 p1] s1| | |]; try done end.
  destruct (lift _ s1) as [m2 s2| | |]; try done. intros [= -> -> ->].
  replace (zlength (add_byte p b) - 2 + symb_num) with (zlength (add_byte p b)) by (unfold symb_num; lia).
  case_if.
  - cbn [map run]. unfold mbind at 1 2, M_bind. rewrite resm_full by (done || lia). rewrite Has.
    destruct (tst_res__ _ _ _ _ _ _ _ s) as [[] s3| | |]; try done.
    apply (IH (i + 1) m' []); try done; [by constructor|lia|lia|].
    pose proof (Z.mod_pos_bound (i + 1) 16). cbn [length]. lia.
  - apply (IH (i + 1)); try done; [lia|lia|]. unfold size_max in *.
    assert (Hstep : (i + 1) mod 16 = i mod 16 + 1) by (Z.to_euclidean_division_equations; lia). rewrite Hstep. lia.
Qed.

(** A line starts with [p] and takes bytes up to the next multiple of sixteen. *)
Lemma hex_lines_first p i size buf : buf ≠ [] → 0 ≤ i → i + zlength buf = size →
  let k := Z.to_nat (16 - i mod 16) in
  hex_lines p i size buf = foldl add_byte p (take k buf) :: hex_lines [] (i + zlength (take k buf)) size (drop k buf).
Proof.
  clear garbage_length. revert p i. induction buf as [|b buf IH]; intros p i Hne Hi Hsize k; [done|].
  cbn [hex_lines length] in *. rewrite Nat2Z.inj_succ in *.
  assert (Hmod : 0 ≤ i mod 16 < 16) by (apply Z.mod_pos_bound; lia). unfold size_max.
  destruct (Z.eqb_spec ((i + 1) mod 16) 0) as [Hz|Hz]; cbn [orb].
  - assert (Hk : k = 1%nat) by (unfold k; enough (i mod 16 = 15) by lia; Z.to_euclidean_division_equations; lia).
    rewrite Hk. cbn [take drop foldl length]. by rewrite drop_0.
  - assert (Hstep : (i + 1) mod 16 = i mod 16 + 1) by (Z.to_euclidean_division_equations; lia).
    destruct (Z.eqb_spec (i + 1) size) as [He|He]; cbn [orb].
    + assert (buf = []) as -> by (destruct buf; simpl in *; [done|lia]).
      rewrite take_ge, drop_ge by (simpl; lia). done.
    + assert (Hk : k = S (Z.to_nat (16 - (i + 1) mod 16))) by (unfold k; rewrite Hstep; lia).
      rewrite Hk, IH by (try lia; intros ->; simpl in *; lia). cbn [take drop foldl length].
      do 2 f_equal. lia.
Qed.

Lemma hex_lines_groups n i size buf : (length buf ≤ n)%nat → buf ≠ [] → 0 ≤ i → i mod 16 = 0 → i + zlength buf = size →
  ∃ full lst, hex_lines [] i size buf = map (foldl add_byte []) (full ++ [lst]) ∧ concat (full ++ [lst]) = buf ∧
    Forall (λ l, length l = 16%nat) full ∧ (1 ≤ length lst ≤ 16)%nat.
Proof.
  clear garbage_length. revert i buf. induction n as [|n IH]; intros i buf Hn Hne Hi Hmod Hsize; [destruct buf; [done|simpl in *; lia]|].
  rewrite hex_lines_first by done. rewrite Hmod. change (Z.to_nat (16 - 0)) with 16%nat.
  destruct (decide (length buf ≤ 16)%nat).
  - exists [], buf. rewrite take_ge, drop_ge by done. simpl. rewrite app_nil_r. split_and!; try done.
    destruct buf; simpl; [done|lia].
  - assert (Ht : length (take 16 buf) = 16%nat) by (rewrite length_take; lia).
    destruct (IH (i + 16) (drop 16 buf)) as (full & lst & E & Hc & Hf & Hl).
    + rewrite length_drop. lia.
    + intros E. apply (f_equal length) in E. rewrite length_drop in E. simpl in E. lia.
    + lia.
    + rewrite <- Z.add_mod_idemp_l, Hmod by lia. done.
    + rewrite length_drop. lia.
    + exists (take 16 buf :: full), lst. rewrite Ht. change (Z.of_nat 16) with 16. rewrite E. split_and!; try done; try lia.
      * cbn [app concat]. rewrite Hc. apply take_drop.
      * by constructor.
Qed.

(** *** Properties *)

(** A test before its first call. *)
Definition init (tcid : cstr) (e : Z) : state :=
  State 0 VERBOSE true false (Last [] 0 0 []) 0 0 tcid e 0 0 [].

Lemma init_ok tcid e : text_ok 100 tcid → sok (init tcid e).
Proof. by split. Qed.

(** [tst_print] never writes outside its buffer of 2048 characters: a result
    that is to be seen in the mode is printed as one whole line with the errors
    asked for when the line fits, and the test is aborted when it does not; the
    type is recorded in every case. *)
Theorem tst_print_safe tcid tnum ttype tmesg s
  (Ht : nonul tcid) (Hm : nonul tmesg) (l := line strerror (T_mode s) tcid tnum ttype tmesg (errs s)) :
  (quiet (T_mode s) ttype = true ∧
     tst_print strerror garbage tcid tnum ttype tmesg s = Next () (add_type (TTYPE_RESULT ttype) s)) ∨
  (quiet (T_mode s) ttype = false ∧ zlength l + 1 < USERMESG ∧
     tst_print strerror garbage tcid tnum ttype tmesg s = Next () (put (l ++ [nl]) (add_type (TTYPE_RESULT ttype) s))) ∨
  (quiet (T_mode s) ttype = false ∧ USERMESG ≤ zlength l + 1 ∧
     ∃ x, tst_print strerror garbage tcid tnum ttype tmesg s = Aborts (put x (add_type (TTYPE_RESULT ttype) s))).
Proof using garbage_length strerror_nonul.
  destruct (tst_print_spec strerror garbage garbage_length strerror_nonul tcid tnum ttype tmesg s Ht Hm) as (H1 & H2 & H3).
  fold l in H2, H3. destruct (quiet (T_mode s) ttype); [left; auto|right].
  destruct (Z.lt_ge_cases (zlength l + 1) USERMESG); [left|right]; auto.
Qed.

(** C19: A test that reports results and ends with [tst_exit] exits with the types of
    all its results together, whatever the output mode, and without TINFO; what it
    prints is every result in verbose mode, nothing in DISCARD mode, and in NOPASS
    mode the failures and broken cases once for each group of equal results in a
    row, with the warnings among them. *)
Theorem test_report tcid e cs (Ht : text_ok 100 tcid) (Hcs : Forall call_ok cs) (Hl : zlength cs < 2 ^ 28)
  (evs := events tcid 0 (e, 0, 0) cs) :
  ∃ s', (_ ← run cs; tst_exit strerror garbage (A := ())) (init tcid e) =
      Exits (Z.land (types evs) (Z.lnot TINFO)) s' ∧
    printed env_mode evs (stdout s').
Proof using garbage_length strerror_nonul strerror_short.
  destruct (run_exit (A := ()) cs (init tcid e)) as (s' & E & Ho); [by apply init_ok|done|done|done|].
  exists s'. rewrite E, Ho. change (events _ _ _ cs) with evs. change (mode_of (init tcid e)) with env_mode.
  change (rep (init tcid e)) with (Report 0 [] None). rewrite fold_exit by done. split; [done|]. apply printed_rep.
Qed.

(** The state changes of [tst_brk__] around the cleanup function are not seen by
    the reports. *)
Lemma entered_ok n s : sok s → sok (set_entered n s).
Proof. by intros []. Qed.

Lemma brkm_run file lineno ttype cl text s (calls := brk_calls file lineno ttype text ++ cl) :
  sok s → tst_brk_entered s = 0 → call_ok (Resm file lineno ttype text) → Forall call_ok cl →
  0 ≤ tst_count s ≤ 2 ^ 30 + 2 ^ 28 → zlength cl < 2 ^ 28 → TTYPE_RESULT ttype ∈ [TFAIL; TBROK; TCONF] →
  let r := rep_flush (foldl (rep_step (mode_of s)) (rep s) (events (TCID s) (tst_count s) (errs s) calls)) in
  ∃ s', tst_brkm_ strerror TOUTPUT garbage (A := ()) file lineno ttype (Some (run cl)) text s =
      Exits (Z.land (r_exit r) (Z.lnot TINFO)) s' ∧ stdout s' = r_out r.
Proof using garbage_length strerror_nonul strerror_short.
  intros Hs Hb Hc Hcl Hn Hl Hty r. unfold tst_brkm_. erewrite bind_next by (apply expand_ok; apply Hc).
  unfold mbind at 1, M_bind at 1. rewrite brk_run by (done || lia). rewrite Hb. cbv zeta. simpl (0 =? 0). cbv iota.
  assert (Hbl : zlength (brk_calls file lineno ttype text) ≤ 2) by (unfold brk_calls; repeat case_if; simpl; lia).
  destruct (run_rep (brk_calls file lineno ttype text) s) as (s1 & E1 & Hs1 & Hb1 & Hm1 & Hn1 & Ha1 & Hr1);
    [done|by apply brk_calls_ok|lia|lia|].
  erewrite bind_next by exact E1. rewrite bind_assoc. erewrite bind_next by reflexivity. rewrite Hb1, Hb.
  destruct (run_rep cl (set_entered 1 s1)) as (s2 & E2 & Hs2 & Hb2 & _ & _ & _ & Hr2);
    [by apply entered_ok|done|simpl; lia|done|].
  rewrite bind_assoc. erewrite bind_next by exact E2. erewrite bind_next by reflexivity. erewrite bind_next by reflexivity.
  rewrite Hb2. simpl (1 - 1 =? 0). unfold when.
  destruct (exit_rep (A := ()) (set_entered (1 - 1) s2)) as (s3 & E3 & Ho3); [by apply entered_ok|].
  cbn [tst_brk_entered set_entered] in *. change (1 - 1 =? 0) with true. cbv iota. rewrite E3. exists s3. rewrite Ho3.
  change (rep (set_entered _ s2)) with (rep s2). rewrite Hr2. unfold r, calls. rewrite events_app, <- Ha1, foldl_app.
  change (mode_of (set_entered 1 s1)) with (mode_of s1). change (rep (set_entered 1 s1)) with (rep s1).
  rewrite Hr1, Hm1. done.
Qed.

(** C20: [tst_brkm] with a result of type TFAIL, TBROK or TCONF ends the test: the
    result, the note on the remaining cases and the results of the cleanup
    function are reported like those before, and the exit status has the types of
    all of them. *)
Theorem test_broken tcid e cs file lineno ttype text cl
  (Ht : text_ok 100 tcid) (Hcs : Forall call_ok (cs ++ cl)) (Hl : zlength (cs ++ cl) < 2 ^ 28)
  (Hc : call_ok (Resm file lineno ttype text)) (Hty : TTYPE_RESULT ttype ∈ [TFAIL; TBROK; TCONF])
  (evs := events tcid 0 (e, 0, 0) (cs ++ brk_calls file lineno ttype text ++ cl)) :
  ∃ s', (_ ← run cs; tst_brkm_ strerror TOUTPUT garbage (A := ()) file lineno ttype (Some (run cl)) text) (init tcid e) =
      Exits (Z.land (types evs) (Z.lnot TINFO)) s' ∧
    printed env_mode evs (stdout s').
Proof using garbage_length strerror_nonul strerror_short.
  apply Forall_app in Hcs as [Hcs Hcl]. rewrite length_app in Hl.
  destruct (run_rep cs (init tcid e)) as (s1 & E1 & Hs1 & Hb1 & Hm1 & Hn1 & Ha1 & Hr1);
    [by apply init_ok|done|done|lia|]. simpl in Hn1.
  erewrite bind_next by exact E1.
  destruct (brkm_run file lineno ttype cl text s1) as (s' & E & Ho); try done; [lia|lia|].
  exists s'. rewrite E, Ho. unfold evs. rewrite (events_app tcid 0 (e, 0, 0) cs).
  change (after _ _ _ cs) with (after tcid 0 (e, 0, 0) cs) in Ha1.
  rewrite <- Ha1, Hr1, Hm1, <- foldl_app. change (mode_of (init tcid e)) with env_mode.
  change (rep (init tcid e)) with (Report 0 [] None). rewrite fold_exit by done. split; [done|]. apply printed_rep.
Qed.

(** A cleanup function that itself calls [tst_brkm] does not get back control,
    although [tst_brk__] is made to return in that case: [tst_brkm_] calls
    [abort], so the test is killed instead of exiting with its result. *)
Theorem cleanup_break_aborts file lineno ttype text cl file' lineno' ttype' text' s
  (Hs : sok s) (Hb : tst_brk_entered s = 0) (Hn : 0 ≤ tst_count s ≤ 2 ^ 30) (Hl : zlength cl < 2 ^ 28)
  (Hc : call_ok (Resm file lineno ttype text)) (Hcl : Forall call_ok cl)
  (Hc' : call_ok (Resm file' lineno' ttype' text'))
  (Hty : TTYPE_RESULT ttype ∈ [TFAIL; TBROK; TCONF]) (Hty' : TTYPE_RESULT ttype' ∈ [TFAIL; TBROK; TCONF]) :
  ∃ s', tst_brkm_ strerror TOUTPUT garbage (A := ()) file lineno ttype
      (Some (_ ← run cl; tst_brkm_ strerror TOUTPUT garbage file' lineno' ttype' None text')) text s = Aborts s'.
Proof using garbage_length strerror_nonul strerror_short.
  unfold tst_brkm_ at 1. erewrite bind_next by (apply expand_ok; apply Hc).
  unfold mbind at 1, M_bind at 1. rewrite brk_run by (done || lia). rewrite Hb. cbv zeta. simpl (0 =? 0). cbv iota.
  assert (Hbl : zlength (brk_calls file lineno ttype text) ≤ 2) by (unfold brk_calls; repeat case_if; simpl; lia).
  destruct (run_rep (brk_calls file lineno ttype text) s) as (s1 & E1 & Hs1 & Hb1 & _ & Hn1 & _);
    [done|by apply brk_calls_ok|lia|lia|].
  erewrite bind_next by exact E1. rewrite bind_assoc. erewrite bind_next by reflexivity. rewrite Hb1, Hb.
  destruct (run_rep cl (set_entered 1 s1)) as (s2 & E2 & Hs2 & Hb2 & _ & Hn2 & _);
    [by apply entered_ok|done|simpl; lia|done|]. simpl in Hn2, Hb2.
  rewrite !bind_assoc. erewrite bind_next by exact E2. unfold tst_brkm_. rewrite bind_assoc.
  erewrite bind_next by (apply expand_ok; apply Hc'). rewrite bind_assoc. unfold mbind at 1, M_bind at 1.
  rewrite brk_run by (done || lia). cbv zeta. rewrite Hb2. simpl (1 =? 0). cbv iota.
  destruct (run_rep [Resm file' lineno' ttype' text'] s2) as (s3 & E3 & _ & Hb3 & _);
    [done|by constructor|lia|simpl; lia|].
  erewrite bind_next by exact E3. erewrite bind_next by reflexivity. erewrite bind_next by reflexivity.
  rewrite Hb3, Hb2. eexists. reflexivity.
Qed.

(** [tst_resm_hexd] reports a buffer of at most sixteen bytes in the line of the
    message when that fits, and otherwise the message and then every byte of the
    buffer in lines of sixteen; it never writes outside its buffer. *)
Theorem tst_resm_hexd_lines file lineno ttype buf text s
  (Hne : text ≠ []) (Hn : nonul text) (Hl : (length text < 2048)%nat) :
  ∃ lines, tst_resm_hexd_ strerror TOUTPUT garbage file lineno ttype buf text s =
      run (map (Resm file lineno ttype) lines) s ∧
    if bool_decide (1 ≤ zlength buf ≤ 16 ∧ zlength text + 3 * zlength buf < 2048)
    then lines = [foldl add_byte text buf]
    else lines = text :: tail lines ∧
      (buf = [] ∧ tail lines = [] ∨
       ∃ full lst, tail lines = map (foldl add_byte []) (full ++ [lst]) ∧ concat (full ++ [lst]) = buf ∧
         Forall (λ l, length l = 16%nat) full ∧ (1 ≤ length lst ≤ 16)%nat).
Proof using garbage_length.
  unfold tst_resm_hexd_. erewrite bind_next by (by apply expand_full).
  destruct (write_end garbage [] text) as (m & E & Hm & Hp & _); [done..|].
  erewrite bind_next by (unfold lift; change 0 with (zlength (@nil ascii)); rewrite E; done). cbn [app] in Hp.
  unfold size_max, symb_num, USERMESG. case_bool_decide as Hfit.
  - rewrite (proj2 (Z.ltb_ge _ _)), (proj2 (Z.eqb_neq _ _)), (proj2 (Z.leb_gt _ _)) by lia. cbn [orb].
    erewrite bind_next by reflexivity. exists [foldl add_byte text buf]. split; [|done].
    rewrite hexd_loop_lines by (try done; change (0 mod 16) with 0; lia).
    rewrite hex_lines_first by (lia || (destruct buf; [simpl in *; lia|done])).
    change (Z.to_nat (16 - 0 mod 16)) with 16%nat. by rewrite take_ge, drop_ge by lia.
  - replace ((16 <? zlength buf) || _ || _) with true.
    2:{ symmetry. rewrite !orb_true_iff, Z.ltb_lt, Z.eqb_eq, Z.leb_le. destruct (decide (zlength buf = 0)); lia. }
    exists (text :: hex_lines [] 0 (zlength buf) buf). split.
    + rewrite bind_assoc. cbn [map run]. unfold mbind at 1 3, M_bind. rewrite resm_full by done.
      destruct (tst_res__ _ _ _ _ _ _ _ s) as [[] s'| | |]; try done.
      erewrite bind_next by reflexivity.
      apply (hexd_loop_lines file lineno ttype buf 0 (zlength buf) m []); try done; [by constructor|]. change (0 mod 16) with 0. cbn [length]. lia.
    + split; [done|]. cbn [tail]. destruct buf as [|b buf]; [by left|right].
      by apply (hex_lines_groups (length (b :: buf))).
Qed.

(** *** Children *)

Lemma types_mask evs : TTYPE_RESULT (types evs) = types evs.
Proof.
  unfold TTYPE_RESULT. induction evs as [|e evs IH]; simpl; [done|].
  rewrite Z.land_lor_distr_l, IH. f_equal. apply TTYPE_RESULT_idem.
Qed.

Lemma code_bits c : TTYPE_RESULT c = c → 0 ≤ c < 64.
Proof.
  clear garbage_length. unfold TTYPE_RESULT, TTYPE_MASK. change 63 with (Z.ones 6). rewrite Z.land_ones by lia. intros <-. apply Z.mod_pos_bound. lia.
Qed.

(** The status [waitpid] gives for a child that exits with [c]. *)
Lemma exited_status c : 0 ≤ c < 64 → WIFEXITED (c * 256) = true ∧ WEXITSTATUS (c * 256) = c.
Proof.
  clear garbage_length. intros Hc. unfold WIFEXITED, WTERMSIG, WEXITSTATUS. split.
  - change 127 with (Z.ones 7). rewrite Z.land_ones by lia. apply Z.eqb_eq.
    replace (c * 256) with (c * 2 * 2 ^ 7) by lia. apply Z.mod_mul. lia.
  - change (c * 256) with (c * 2 ^ 8). rewrite <- Z.shiftl_mul_pow2, Z.shiftr_land, Z.shiftr_shiftl_l by lia. simpl (8 - 8).
    rewrite Z.shiftl_0_r. change (Z.shiftr 65280 8) with (Z.ones 8). rewrite Z.land_ones by lia. apply Z.mod_small. lia.
Qed.

(** The messages of [tst_record_childstatus]. *)
Definition child_calls (c : Z) : list call :=
  let info (b : bool) (line : Z) (what : string) : list call :=
    if b then [Resm (Some FILE) line TINFO (str "Child process returned " ++ str what)] else [] in
  info (c =? TPASS) 409 "TPASS" ++ info (has c TFAIL) 412 "TFAIL" ++ info (has c TBROK) 415 "TBROK" ++
  info (has c TCONF) 418 "TCONF".

Lemma when_run b c (k : M ()) l s : (∀ s, k s = run l s) →
  (_ ← when b (do_call c); k) s = run ((if b : bool then [c] else []) ++ l) s.
Proof. intros Hk. destruct b; [|apply Hk]. cbn [app run when]. unfold mbind, M_bind. destruct (do_call c s); auto. Qed.

Lemma record_run c pid func s : TTYPE_RESULT c = c → 0 < pid →
  tst_record_childstatus strerror TOUTPUT FILE garbage func pid pid (c * 256) s = run (child_calls c) (add_type c s).
Proof.
  clear garbage_length. intros Hc Hp. destruct (exited_status c (code_bits c Hc)) as [H1 H2].
  unfold tst_record_childstatus. rewrite (proj2 (Z.ltb_ge pid 0)) by lia. erewrite bind_next by reflexivity.
  rewrite H1, H2, Hc. erewrite bind_next by reflexivity. change (set_exitval _ s) with (add_type c s).
  generalize (add_type c s). intros s1. unfold child_calls. cbv zeta.
  do 3 (apply (when_run _ (Resm _ _ _ _)); clear s1; intros s1).
  rewrite <- (app_nil_r (if _ : bool then _ else [])), <- (when_run _ _ (mret ())) by done.
  unfold mbind, M_bind, when. case_if; [|done]. cbn [do_call]. by destruct (tst_resm_ _ _ _ _ _ _ _ s1) as [[] ?| | |].
Qed.

Lemma child_calls_ok c : text_ok 255 FILE →
  Forall call_ok (child_calls c) ∧ zlength (child_calls c) ≤ 4 ∧
  ∀ tcid n es, Z.land (types (events tcid n es (child_calls c))) (Z.lnot TINFO) = 0.
Proof.
  clear garbage_length. intros Hf. unfold child_calls.
  assert (Hok : ∀ line what, 0 ≤ line ≤ 1000 → nonul (str what) → (length (str what) ≤ 900)%nat →
    call_ok (Resm (Some FILE) line TINFO (str "Child process returned " ++ str what))).
  { intros l w Hl Hw Hlen. split; [|split; [done|split; [unfold INT_MIN, INT_MAX; lia|done]]].
    split; [auto with nonul|]. rewrite length_app. change (length (str "Child process returned ")) with 23%nat. lia. }
  split_and!.
  - repeat apply Forall_app_2; (case_if; [|constructor]); rewrite Forall_singleton;
      (apply Hok; [lia|auto with nonul|apply Nat.leb_le; reflexivity]).
  - rewrite !length_app. repeat case_if; simpl; lia.
  - intros. destruct (c =? TPASS), (has c TFAIL), (has c TBROK), (has c TCONF); reflexivity.
Qed.

(** The state of a test whose child is forked: nothing is held back, so that nothing
    is printed twice. *)
Lemma fork_state tcid e cs0 : text_ok 100 tcid → Forall call_ok cs0 → zlength cs0 < 2 ^ 28 →
  ∃ s1 s2, run cs0 (init tcid e) = Next () s1 ∧ tst_flush strerror garbage s1 = Next () s2 ∧ sok s2 ∧
    0 ≤ tst_count s2 ≤ 2 ^ 30 + 2 ^ 28 ∧ Buffered s2 = false ∧ T_exitval s2 = types (events tcid 0 (e, 0, 0) cs0) ∧
    (TCID s2, tst_count s2, errs s2) = after tcid 0 (e, 0, 0) cs0.
Proof using garbage_length strerror_nonul strerror_short.
  intros Ht Hcs Hl. destruct (run_rep cs0 (init tcid e)) as (s1 & E1 & Hs1 & Hb1 & Hm1 & Hn1 & Ha1 & Hr1);
    [by apply init_ok|done|done|done|]. destruct (flush_rep s1 Hs1) as (s2 & E2 & Hr2 & Hs2 & (Ht2 & He2 & _) & Hn2 & Hb2).
  exists s1, s2. simpl in Hn1. split_and!; try done; try lia.
  - change (T_exitval s2) with (r_exit (rep s2)). rewrite Hr2, Hr1. change (rep (init tcid e)) with (Report 0 [] None).
    rewrite fold_exit by done. done.
  - by rewrite Ht2, Hn2, He2.
Qed.

(** C25: The result of a forked child reaches the exit status of the test: the child
    starts with no results of its own and exits with those it reports, and the
    parent that records the status exits with its own and the child's. *)
Theorem child_status_merged tcid e cs0 cs pid
  (Ht : text_ok 100 tcid) (Hcs : Forall call_ok (cs0 ++ cs)) (Hl : zlength (cs0 ++ cs) < 2 ^ 28)
  (Hfile : text_ok 255 FILE) (Hpid : 0 < pid)
  (code0 := Z.land (types (events tcid 0 (e, 0, 0) cs0)) (Z.lnot TINFO))
  (code := Z.land (types (let '(t, n, x) := after tcid 0 (e, 0, 0) cs0 in events t n x cs)) (Z.lnot TINFO)) :
  (∃ s, (_ ← run cs0; _ ← tst_fork strerror garbage 0; _ ← run cs; tst_exit strerror garbage (A := ())) (init tcid e) =
      Exits code s) ∧
  (∃ s, (_ ← run cs0; _ ← tst_fork strerror garbage pid;
         _ ← tst_record_childstatus strerror TOUTPUT FILE garbage None pid pid (code * 256);
         tst_exit strerror garbage (A := ())) (init tcid e) = Exits (Z.lor code0 code) s).
Proof using garbage_length strerror_nonul strerror_short.
  apply Forall_app in Hcs as [Hcs0 Hcs]. rewrite length_app in Hl.
  destruct (fork_state tcid e cs0) as (s1 & s2 & E1 & E2 & Hs2 & Hn2 & Hb2 & Hx2 & Ha2); [done|done|lia|].
  assert (Hheld : ∀ v, held_in (rep (set_exitval v s2))) by (intros v l; unfold rep; simpl; by rewrite Hb2).
  unfold code, code0. rewrite <- Ha2. clear code code0.
  set (evs := events (TCID s2) (tst_count s2) (errs s2) cs).
  assert (Hcode : TTYPE_RESULT (Z.land (types evs) (Z.lnot TINFO)) = Z.land (types evs) (Z.lnot TINFO)).
  { unfold TTYPE_RESULT. rewrite <- Z.land_assoc, (Z.land_comm (Z.lnot TINFO)), Z.land_assoc.
    change (Z.land (types evs) TTYPE_MASK) with (TTYPE_RESULT (types evs)). by rewrite types_mask. }
  split; erewrite bind_next by exact E1; unfold tst_fork; rewrite bind_assoc; erewrite bind_next by exact E2.
  - cbv beta. rewrite (bind_next _ _ s2 0 (set_exitval 0 s2)) by done.
    destruct (run_exit (A := ()) cs (set_exitval 0 s2)) as (s' & E & _); [by destruct Hs2|done|simpl; lia|lia|].
    exists s'. rewrite E. rewrite fold_exit by done. done.
  - cbv beta. rewrite (proj2 (Z.eqb_neq pid 0)) by lia. rewrite (bind_next _ _ s2 pid s2) by done. unfold mbind at 1, M_bind at 1. rewrite record_run by done.
    set (s3 := add_type _ s2). destruct (child_calls_ok (Z.land (types evs) (Z.lnot TINFO)) Hfile) as (H1 & H2 & H3).
    destruct (run_exit (A := ()) (child_calls (Z.land (types evs) (Z.lnot TINFO))) s3) as (s' & E & _);
      [by destruct Hs2|done|simpl; lia|lia|].
    exists s'. unfold mbind, M_bind in E. rewrite E. rewrite fold_exit by apply Hheld.
    rewrite Z.land_lor_distr_l, H3, Z.lor_0_r. f_equal. simpl. rewrite Hx2, Z.land_lor_distr_l. f_equal.
    by rewrite <- Z.land_assoc, Z.land_diag.
Qed.
End report.

(** ** Witnesses *)

Definition ex_strerror (e : Z) : cstr := str "some error".
Definition ex_garbage : cstr := replicate 2048 "x"%char.
Definition ex_file : cstr := str "tst_res.c".

Lemma ex_strerror_nonul e : nonul (ex_strerror e).
Proof. unfold ex_strerror. auto with nonul. Qed.
Lemma ex_strerror_short e : (length (ex_strerror e) ≤ 100)%nat.
Proof. apply Nat.leb_le. reflexivity. Qed.

Definition ex_calls : list call :=
  [Resm (Some (str "a.c")) 10 (Z.lor TFAIL TERRNO) (str "bad"); Resm (Some (str "a.c")) 10 TFAIL (str "bad");
   Resm None 0 TINFO (str "note"); SetCount 0; Test (-1) 2; Resm (Some (str "a.c")) 20 (Z.lor TWARN TTERRNO) (str "odd")].

Lemma text_ok_str n s : nonul (str s) → Nat.leb (length (str s)) n = true → text_ok n (str s).
Proof. intros. split; [done|by apply Nat.leb_le]. Qed.
Ltac text_oks := repeat constructor; try discriminate; try (apply text_ok_str; [auto with nonul|reflexivity]).

Lemma ex_calls_ok : Forall call_ok ex_calls.
Proof. text_oks. Qed.

Lemma tst_print_safe_witness :
  ∃ l, tst_print ex_strerror ex_garbage (str "t01") 1 TFAIL (str "bad") (init (str "t01") 0) =
    Next () (put l (add_type TFAIL (init (str "t01") 0))).
Proof.
  destruct (tst_print_safe ex_strerror ex_garbage eq_refl ex_strerror_nonul (str "t01") 1 TFAIL (str "bad")
    (init (str "t01") 0) ltac:(auto with nonul) ltac:(auto with nonul)) as [[H _]|[(_ & _ & H)|(_ & H & _)]].
  - discriminate.
  - eexists. exact H.
  - vm_compute in H. congruence.
Defined.

Lemma test_report_witness :
  ∃ s', (_ ← run ex_strerror (Some (str "NOPASS")) ex_garbage ex_calls; tst_exit ex_strerror ex_garbage (A := ()))
    (init (str "t01") 0) = Exits 5 s' ∧ length (stdout s') = 2%nat.
Proof.
  destruct (test_report ex_strerror (Some (str "NOPASS")) ex_garbage eq_refl ex_strerror_nonul ex_strerror_short
    (str "t01") 0 ex_calls) as (s' & E & Hp).
  - text_oks.
  - exact ex_calls_ok.
  - reflexivity.
  - exists s'. split; [exact E|]. apply merge_length in Hp. exact Hp.
Defined.

Lemma test_broken_witness :
  ∃ s', (_ ← run ex_strerror None ex_garbage ex_calls;
         tst_brkm_ ex_strerror None ex_garbage (A := ()) (Some (str "a.c")) 30 TCONF
           (Some (run ex_strerror None ex_garbage ex_calls)) (str "no such call")) (init (str "t01") 0) = Exits 37 s'.
Proof.
  destruct (test_broken ex_strerror None ex_garbage eq_refl ex_strerror_nonul ex_strerror_short
    (str "t01") 0 ex_calls (Some (str "a.c")) 30 TCONF (str "no such call") ex_calls) as (s' & E & _).
  - text_oks.
  - apply Forall_app; split; exact ex_calls_ok.
  - reflexivity.
  - text_oks.
  - right. right. left.
  - exists s'. exact E.
Defined.

Lemma cleanup_break_aborts_witness :
  ∃ s', tst_brkm_ ex_strerror None ex_garbage (A := ()) None 0 TBROK
    (Some (_ ← run ex_strerror None ex_garbage []; tst_brkm_ ex_strerror None ex_garbage None 0 TBROK None (str "close failed")))
    (str "open failed") (init (str "t01") 0) = Aborts s'.
Proof.
  apply (cleanup_break_aborts ex_strerror None ex_garbage eq_refl ex_strerror_nonul ex_strerror_short);
    try reflexivity; try (apply init_ok); text_oks.
Defined.

Lemma tst_resm_hexd_lines_witness :
  ∃ lines, tst_resm_hexd_ ex_strerror None ex_garbage None 0 TINFO [1; 255] (str "data:") (init (str "t01") 0) =
    run ex_strerror None ex_garbage (map (Resm None 0 TINFO) lines) (init (str "t01") 0) ∧ lines = [str "data: 01 ff"].
Proof.
  destruct (tst_resm_hexd_lines ex_strerror None ex_garbage eq_refl None 0 TINFO [1; 255] (str "data:") (init (str "t01") 0))
    as (lines & E & H).
  - discriminate.
  - auto with nonul.
  - apply Nat.ltb_lt. reflexivity.
  - exists lines. split; [exact E|exact H].
Defined.

Lemma child_status_merged_witness :
  (∃ s, (_ ← run ex_strerror None ex_garbage [Resm None 0 TPASS (str "ok")]; _ ← tst_fork ex_strerror ex_garbage 0;
         _ ← run ex_strerror None ex_garbage ex_calls; tst_exit ex_strerror ex_garbage (A := ())) (init (str "t01") 0) = Exits 5 s) ∧
  (∃ s, (_ ← run ex_strerror None ex_garbage [Resm None 0 TPASS (str "ok")]; _ ← tst_fork ex_strerror ex_garbage 77;
         _ ← tst_record_childstatus ex_strerror None ex_file ex_garbage None 77 77 (5 * 256);
         tst_exit ex_strerror ex_garbage (A := ())) (init (str "t01") 0) = Exits 5 s).
Proof.
  apply (child_status_merged ex_strerror None ex_file ex_garbage eq_refl ex_strerror_nonul ex_strerror_short
    (str "t01") 0 [Resm None 0 TPASS (str "ok")] ex_calls 77).
  - text_oks.
  - apply Forall_app; split; [text_oks|exact ex_calls_ok].
  - reflexivity.
  - text_oks.
  - reflexivity.
Defined.
