(* ===== verification/ParseOpts.v ===== *)
(** * Options and loops of a test

    lib/parse_opts.c: the standard options of a test, the environment variables
    that replace them, and [usc_test_looping], which decides whether a test does
    one more iteration.  The results of [getopt], the environment, the conversion
    of decimal texts to [float] and the readings of the clock are arguments;
    [float]s are IEEE single precision numbers.  The messages that USC_DEBUG turns
    on are not modelled. *)

From Stdlib Require Import SpecFloat.
From S2P Require Import Prelude CInt CMem CString Zoo RandomRange.
Local Open Scope Z_scope.

(** ** Single precision *)

Definition float : Type := spec_float.
Definition f0 : float := S754_zero false.
(** 1000000 as a [float]. *)
Definition f1e6 : float := S754_finite false 16000000 (-4).
Definition fmul (a b : float) : float := SFmul 24 128 a b.
Definition feq (a b : float) : bool := SFeqb a b.
Definition fge (a b : float) : bool := SFleb b a.

(** [(uint64_t) f]: truncation towards zero; undefined outside the range. *)
Definition f_to_u64 (f : float) : res Z :=
  match f with
  | S754_zero _ => Ret 0
  | S754_finite s m e =>
      let a := if 0 <=? e then Z.pos m * 2 ^ e else Z.pos m / 2 ^ (- e) in
      if s then if a =? 0 then Ret 0 else Undef
      else if a <? 2 ^ 64 then Ret a else Undef
  | _ => Undef
  end.

(** ** Variables *)

Record loops : Type := Loops {
  STD_PAUSE : bool; STD_INFINITE : bool; STD_LOOP_COUNT : Z;
  STD_LOOP_DURATION : float; STD_LOOP_DELAY : float }.

(** The hooks for system tests; [STD_bigstack] is whether the pointer is set. *)
Record hooks : Type := Hooks {
  STD_TP_barrier : Z; STD_LP_barrier : Z; STD_TP_shmem_sz : Z; STD_LP_shmem : Z; STD_LD_shmem : Z;
  STD_TP_sbrk : Z; STD_LP_sbrk : Z; STD_LP_recfun : Z; STD_LD_recfun : Z; STD_bigstack : bool }.

(** An option of the test: its letter, with a colon when it has an argument, and
    whether there are places for the flag and for the argument. *)
Record option_t : Type := Option_t { o_option : cstr; flag : bool; arg : bool }.
#[global] Instance option_t_inhabited : Inhabited option_t := populate (Option_t [] false false).

(** [users] are the places the test's options point to. *)
Record std : Type := Std {
  lp : loops; hk : hooks; users : list (bool * option cstr) }.

Definition std0 (user_optarr : list option_t) : std :=
  Std (Loops false false 1 f0 f0) (Hooks 0 0 0 0 0 0 0 0 0 false) (map (λ _, (false, None)) user_optarr).

Definition set_lp l (s : std) : std := Std l (hk s) (users s).
Definition set_hk h (s : std) : std := Std (lp s) h (users s).
Definition set_users u (s : std) : std := Std (lp s) (hk s) u.

(** ** Options *)

Definition std_options : list cstr := [str "h"; str "i:"; str "I:"; str "p"; str "P:"].

(** The string of options for [getopt], built in a buffer of the size computed
    before; [None] when an option is longer than a letter and a colon. *)
Fixpoint cat_std (opts : list cstr) (st : cstr * Z) : res (cstr * Z) :=
  match opts with
  | [] => Ret st
  | o :: opts => st ← strcat st o; cat_std opts st
  end.
Fixpoint cat_user (opts : list option_t) (st : cstr * Z) : res (cstr * Z) :=
  match opts with
  | [] => Ret st
  | o :: opts =>
      match o_option o with
      | [] => cat_user opts st
      | c :: _ =>
          st ← (match strchr (as_string st.1) c with None => strcat st (o_option o) | Some _ => Ret st end);
          cat_user opts st
      end
  end.
Definition option_string (user_optarr : list option_t) : res (option cstr) :=
  if existsb (λ o, 2 <? zlength (o_option o)) user_optarr then Ret None
  else
    let optstrlen := foldr (λ o n, zlength o + n) 0 std_options +
                     foldr (λ o n, zlength (o_option o) + n) 0 user_optarr + 1 in
    st ← mem_write (replicate (Z.to_nat optstrlen) NUL) 0 [NUL];
    st ← cat_std std_options (st, 0);
    st ← cat_user user_optarr st;
    Ret (Some (as_string st.1)).

(** What [parse_opts] returns: NULL or a message; [-h] exits. *)
Inductive parsed : Type :=
| Returns (msg : option cstr) (s : std)
| ExitHelp.

(** The bits of the options seen. *)
Record seen : Type := Seen { OPT_iteration : bool; OPT_duration : bool; OPT_delay : bool }.

Section parse_opts.
Context (atof : cstr → float) (scan_f : cstr → option float) (getenv : cstr → option cstr)
  (user_optarr : list option_t).

(** The search in the options of the test: the flag is set, and the argument when
    the option has one. *)
Fixpoint user_option (opt : ascii) (optarg : cstr) (os : list option_t) (us : list (bool * option cstr))
  : res (option (list (bool * option cstr))) :=
  match os, us with
  | o :: os, u :: us =>
      match o_option o with
      | [] => r ← user_option opt optarg os us; Ret (option_map (cons u) r)
      | c :: _ =>
          if opt =c c then
            let f := if flag o then true else u.1 in
            if bool_decide (last (o_option o) = Some ":"%char) then
              if arg o then Ret (Some ((f, Some optarg) :: us)) else Undef
            else Ret (Some ((f, u.2) :: us))
          else
            r ← user_option opt optarg os us;
            Ret (option_map (cons u) r)
      end
  | _, _ => Ret None
  end.

Definition not_found (opt : ascii) : cstr :=
  str "parse_opts: ERROR - option:" ++ ["034"%char; opt; "034"%char] ++ str " NOT FOUND... INTERNAL ERROR".

Definition is_zero (f : float) : bool := feq f f0.

(** One result of [getopt]: [inr] for a return. *)
Definition handle_option (opt : ascii) (optarg : cstr) (sn : seen) (s : std) : res ((seen * std) + parsed) :=
  let l := lp s in
  if opt =c "?"%char then Ret (inr (Returns (Some (str "Unknown option")) s))
  else if opt =c ":"%char then Ret (inr (Returns (Some (str "Missing argument")) s))
  else if opt =c "i"%char then
    let n := atoi optarg in
    Ret (inl (Seen true (OPT_duration sn) (OPT_delay sn),
              set_lp (Loops (STD_PAUSE l) (if n =? 0 then true else STD_INFINITE l) n (STD_LOOP_DURATION l) (STD_LOOP_DELAY l)) s))
  else if opt =c "P"%char then
    Ret (inl (Seen (OPT_iteration sn) (OPT_duration sn) true,
              set_lp (Loops (STD_PAUSE l) (STD_INFINITE l) (STD_LOOP_COUNT l) (STD_LOOP_DURATION l) (atof optarg)) s))
  else if opt =c "I"%char then
    let d := atof optarg in
    Ret (inl (Seen (OPT_iteration sn) true (OPT_delay sn),
              set_lp (Loops (STD_PAUSE l) (if is_zero d then true else STD_INFINITE l) (STD_LOOP_COUNT l) d (STD_LOOP_DELAY l)) s))
  else if opt =c "p"%char then
    Ret (inl (sn, set_lp (Loops true (STD_INFINITE l) (STD_LOOP_COUNT l) (STD_LOOP_DURATION l) (STD_LOOP_DELAY l)) s))
  else if opt =c "h"%char then Ret (inr ExitHelp)
  else
    r ← user_option opt optarg user_optarr (users s);
    match r with
    | Some us => Ret (inl (sn, set_users us s))
    | None => Ret (inr (Returns (Some (not_found opt)) s))
    end.

Fixpoint handle_options (l : list (ascii * cstr)) (sn : seen) (s : std) : res ((seen * std) + parsed) :=
  match l with
  | [] => Ret (inl (sn, s))
  | (opt, optarg) :: l =>
      r ← handle_option opt optarg sn s;
      match r with
      | inl (sn, s) => handle_options l sn s
      | inr p => Ret (inr p)
      end
  end.

(** ** The environment *)

(** [sscanf(ptr, "%i", &k) == 1] *)
Definition scan_i (t : cstr) : option Z :=
  match sscanf_ic t with Scan1 k | Scan2 k _ => Some k | _ => None end.

Definition env_iteration (sn : seen) (l : loops) : loops :=
  if OPT_iteration sn then l
  else
    match getenv (str "USC_ITERATIONS") ≫= scan_i with
    | Some k =>
        if k =? 0 then Loops (STD_PAUSE l) true (STD_LOOP_COUNT l) (STD_LOOP_DURATION l) (STD_LOOP_DELAY l)
        else Loops (STD_PAUSE l) (STD_INFINITE l) k (STD_LOOP_DURATION l) (STD_LOOP_DELAY l)
    | None => l
    end.

Definition env_float (name : cstr) : option float :=
  match getenv name ≫= scan_f with
  | Some f => if fge f f0 then Some f else None
  | None => None
  end.
Definition env_duration (name : cstr) (sn : seen) (l : loops) : loops :=
  if OPT_duration sn then l
  else
    match env_float name with
    | Some f => Loops (STD_PAUSE l) (if is_zero f then true else STD_INFINITE l) (STD_LOOP_COUNT l) f (STD_LOOP_DELAY l)
    | None => l
    end.
Definition env_delay (sn : seen) (l : loops) : loops :=
  if OPT_delay sn then l
  else
    match env_float (str "USC_LOOP_DELAY") with
    | Some f => Loops (STD_PAUSE l) (STD_INFINITE l) (STD_LOOP_COUNT l) (STD_LOOP_DURATION l) f
    | None => l
    end.

(** A variable that is a number, or else the value [bad]. *)
Definition env_int (name : cstr) (bad old : Z) : Z :=
  match getenv name with
  | None => old
  | Some t => match scan_i t with Some k => if 0 <=? k then k else bad | None => bad end
  end.
(** Whether a variable is a number that is not negative. *)
Definition env_given (name : cstr) : bool :=
  match getenv name ≫= scan_i with Some k => 0 <=? k | None => false end.

(** [STD_bigstack] is allocated when it is not NULL already. *)
Definition env_hooks (h : hooks) : hooks :=
  let big := if env_given (str "USC_LP_RECFUN") then if STD_bigstack h then true else STD_bigstack h else STD_bigstack h in
  let big := if env_given (str "USC_LD_RECFUN") then if big then true else big else big in
  Hooks (env_int (str "USC_TP_BARRIER") 1 (STD_TP_barrier h)) (env_int (str "USC_LP_BARRIER") 1 (STD_LP_barrier h))
    (env_int (str "USC_TP_SHMEM") (STD_TP_shmem_sz h) (STD_TP_shmem_sz h))
    (env_int (str "USC_LP_SHMEM") (STD_LP_shmem h) (STD_LP_shmem h))
    (env_int (str "USC_LD_SHMEM") (STD_LD_shmem h) (STD_LD_shmem h))
    (env_int (str "USC_TP_SBRK") (STD_TP_sbrk h) (STD_TP_sbrk h))
    (env_int (str "USC_LP_SBRK") (STD_LP_sbrk h) (STD_LP_sbrk h))
    (env_int (str "USC_LP_RECFUN") (STD_LP_recfun h) (STD_LP_recfun h))
    (env_int (str "USC_LD_RECFUN") (STD_LD_recfun h) (STD_LD_recfun h)) big.

Definition parse_env (sn : seen) (s : std) : std :=
  let l := env_iteration sn (lp s) in
  let l := env_duration (str "USC_LOOP_WALLTIME") sn l in
  let l := env_duration (str "USC_DURATION") sn l in
  let l := env_delay sn l in
  set_hk (env_hooks (hk s)) (set_lp l s).

(** [getopts] are the results of [getopt] on the string of options. *)
Definition parse_opts (malloc_ok : bool) (getopts : cstr → list (ascii * cstr)) (s : std) : res parsed :=
  o ← option_string user_optarr;
  match o with
  | None => Ret (Returns (Some (str "parse_opts: ERROR - Only short options are allowed")) s)
  | Some optionstr =>
      if negb malloc_ok then
        Ret (Returns (Some (str "parse_opts: ERROR - Could not allocate memory for optionstr")) s)
      else
        r ← handle_options (getopts optionstr) (Seen false false false) s;
        match r with
        | inl (sn, s) => Ret (Returns None (parse_env sn s))
        | inr p => Ret p
        end
  end.
End parse_opts.

(** ** Hooks and iterations *)

(** Calls to the system. *)
Inductive syscall : Type := Signal_go | Pause | Signal_restore | Sbrk (n : Z).

Definition usc_global_setup_hook (s : std) : list syscall :=
  (if STD_PAUSE (lp s) then [Signal_go; Pause; Signal_restore] else []) ++
  (if negb (STD_TP_sbrk (hk s) =? 0) || negb (STD_LP_sbrk (hk s) =? 0) then [Sbrk 0] else []) ++
  (if negb (STD_TP_sbrk (hk s) =? 0) then [Sbrk (STD_TP_sbrk (hk s))] else []).

Definition USECS_PER_SEC : Z := 1000000.
(** From a reading of [gettimeofday]. *)
Definition get_current_time (t : Z * Z) : Z := u64 (u64 t.1 * USECS_PER_SEC + t.2).

(** The depth of the recursion of [usc_recressive_func(cnt, max, bstack)]. *)
Fixpoint usc_recressive_func (fuel : nat) (cnt max : Z) : res Z :=
  match fuel with
  | O => NoFuel
  | S fuel => if cnt <? max then usc_recressive_func fuel (cnt + 1) max else Ret cnt
  end.

(** A call with the argument [*STD_bigstack]. *)
Definition call_recfun (big : bool) (n : Z) : res () :=
  if negb big then Undef else _ ← usc_recressive_func (S (Z.to_nat n)) 0 n; Ret ().

(** The static variables of [usc_test_looping]. *)
Record looping : Type := Looping { first_time : bool; stop_time : Z; delay : Z }.
Definition looping0 : looping := Looping true 0 0.

(** The readings of the clock that are left; [NoFuel] when there are no more. *)
Definition clock : Type := list (Z * Z).
Definition tick (c : clock) : res (Z * clock) :=
  match c with [] => NoFuel | t :: c => Ret (get_current_time t, c) end.

(** [while (ct < end)] of the delay. *)
Fixpoint delay_loop (s : std) (ct stop : Z) (c : clock) : res clock :=
  if ct <? stop then
    _ ← (if negb (STD_LD_recfun (hk s) =? 0) then call_recfun (STD_bigstack (hk s)) (STD_LD_recfun (hk s)) else Ret ());
    match c with
    | [] => NoFuel
    | t :: c => delay_loop s (get_current_time t) stop c
    end
  else Ret c.

Definition start_looping (s : std) (v : looping) (c : clock) : res (looping * clock) :=
  if first_time v then
    r ← (if negb (is_zero (STD_LOOP_DURATION (lp s))) then
           d ← f_to_u64 (fmul f1e6 (STD_LOOP_DURATION (lp s)));
           r ← tick c;
           Ret (u64 (d + r.1), r.2)
         else Ret (stop_time v, c));
    let '(stop, c) := (r : Z * clock) in
    d ← (if negb (is_zero (STD_LOOP_DELAY (lp s))) then f_to_u64 (fmul f1e6 (STD_LOOP_DELAY (lp s))) else Ret (delay v));
    Ret (Looping false stop d, c)
  else if negb (is_zero (STD_LOOP_DELAY (lp s))) then
    r ← tick c;
    c ← delay_loop s r.1 (u64 (r.1 + delay v)) r.2;
    Ret (v, c)
  else Ret (v, c).

(** The result, the variables, the rest of the clock and the calls made. *)
Definition usc_test_looping (s : std) (counter : Z) (v : looping) (c : clock)
  : res (bool * looping * clock * list syscall) :=
  r ← start_looping s v c;
  let '(v, c) := (r : looping * clock) in
  let l := lp s in
  let keep := STD_INFINITE l || (negb (STD_LOOP_COUNT l =? 0) && (counter <? STD_LOOP_COUNT l)) in
  r ← (if negb (is_zero (STD_LOOP_DURATION l)) then r ← tick c; Ret (r.1 <? stop_time v, r.2) else Ret (false, c));
  let '(timed, c) := (r : bool * clock) in
  if negb (keep || timed) then Ret (false, v, c, [])
  else
    _ ← (if negb (STD_LP_recfun (hk s) =? 0) then call_recfun (STD_bigstack (hk s)) (STD_LP_recfun (hk s)) else Ret ());
    Ret (true, v, c, if negb (STD_LP_sbrk (hk s) =? 0) then [Sbrk (STD_LP_sbrk (hk s))] else []).

(** The loop of a test, [for (lc = 0; TEST_LOOPING(lc); lc++)]: how often its body
    is done. *)
Fixpoint test_loop (fuel : nat) (s : std) (lc : Z) (v : looping) (c : clock) : res Z :=
  match fuel with
  | O => NoFuel
  | S fuel =>
      r ← usc_test_looping s lc v c;
      let '(go, v, c, _) := (r : bool * looping * clock * list syscall) in
      if go : bool then lc' ← ck32 (lc + 1); test_loop fuel s lc' v c else Ret lc
  end.

(** ** The string of options *)

(** The options of the test that are added: those whose letter is new. *)
Definition add_option (acc o : cstr) : cstr :=
  match o with
  | [] => acc
  | c :: _ => match strchr acc c with None => acc ++ o | Some _ => acc end
  end.

Lemma cat_std_ok opts t rest : (length (concat opts) ≤ length rest)%nat →
  ∃ rest', cat_std opts (t ++ NUL :: rest, zlength t) = Ret ((t ++ concat opts) ++ NUL :: rest', zlength (t ++ concat opts)) ∧
    length rest' = (length rest - length (concat opts))%nat.
Proof.
  revert t rest. induction opts as [|o opts IH]; intros t rest Hl; cbn [cat_std concat].
  - exists rest. rewrite app_nil_r. split; [done|]. simpl. lia.
  - cbn [concat] in Hl. rewrite length_app in Hl. destruct (strcat_ok t rest o) as (r1 & -> & H1); [simpl in *; lia|]. rewrite res_bind_ret.
    destruct (IH (t ++ o) r1) as (r2 & -> & H2); [simpl in *; lia|]. exists r2. rewrite (app_assoc t o). split; [done|].
    rewrite H2, H1, length_app. lia.
Qed.

Lemma as_string_buf t rest : nonul t → as_string (t ++ NUL :: rest) = t.
Proof. intros Ht. unfold as_string. rewrite span_app; [done| |done]. eapply Forall_impl; [exact Ht|]. by intros c ->. Qed.

Lemma cat_user_ok opts t rest : nonul t → Forall (λ o, nonul (o_option o)) opts →
  (length (concat (map o_option opts)) ≤ length rest)%nat →
  ∃ rest', cat_user opts (t ++ NUL :: rest, zlength t) =
      Ret (foldl add_option t (map o_option opts) ++ NUL :: rest', zlength (foldl add_option t (map o_option opts))) ∧
    nonul (foldl add_option t (map o_option opts)).
Proof.
  intros Ht Ho. revert t rest Ht. induction Ho as [|o opts Ho Hos IH]; intros t rest Ht Hl; cbn [cat_user map foldl concat].
  - by exists rest.
  - cbn [map concat] in Hl. rewrite length_app in Hl. unfold add_option at 2 4 6.
    destruct (o_option o) as [|c q] eqn:Eo; [by apply IH|].
    cbn [fst]. rewrite as_string_buf by done. destruct (strchr t c).
    + rewrite res_bind_ret. apply IH; [done|lia].
    + destruct (strcat_ok t rest (c :: q)) as (r1 & -> & H1); [lia|]. rewrite res_bind_ret.
      apply IH; [by apply nonul_app|lia].
Qed.

(** ** The options of the test *)

(** The place of the option with a letter. *)
Fixpoint find_option (opt : ascii) (os : list option_t) : option nat :=
  match os with
  | [] => None
  | o :: os =>
      if match o_option o with [] => false | c :: _ => opt =c c end then Some 0%nat else S <$> find_option opt os
  end.

Definition takes_arg (o : option_t) : bool := bool_decide (last (o_option o) = Some ":"%char).

(** What the options given put into the places of an option: the flag when the
    letter occurs, the argument of the last occurrence. *)
Definition set_by (opts : list (ascii * cstr)) (os : list option_t) (i : nat) (u : bool * option cstr) : bool * option cstr :=
  foldl (λ u x, if bool_decide (find_option x.1 os = Some i)
                then (true, if takes_arg (os !!! i) then Some x.2 else u.2) else u) u opts.

Definition std_letters : cstr := str "?:iPIph".

Lemma user_option_ok opt optarg os us : length us = length os →
  Forall (λ o, flag o = true ∧ arg o = takes_arg o) os →
  user_option opt optarg os us =
  Ret (i ← find_option opt os;
       u ← us !! i;
       Some (<[i := (true, if takes_arg (os !!! i) then Some optarg else u.2)]> us)).
Proof.
  intros Hl Hos. revert us Hl. induction Hos as [|o os [Hf Ha] Hos IH]; intros [|u us] Hl; try done.
  injection Hl as Hl. cbn [user_option find_option]. destruct (o_option o) as [|c q] eqn:Eo.
  - rewrite IH by done. simpl. by destruct (find_option opt os) as [i|]; [simpl; destruct (us !! i)|].
  - destruct (opt =c c).
    + simpl. rewrite Hf. unfold takes_arg in *. rewrite Eo in *. rewrite Ha. by case_bool_decide.
    + rewrite IH by done. simpl. by destruct (find_option opt os) as [i|]; [simpl; destruct (us !! i)|].
Qed.

Lemma find_option_lt opt os i : find_option opt os = Some i → (i < length os)%nat.
Proof.
  revert i. induction os as [|o os IH]; intros i; simpl; [done|]. destruct (match o_option o with [] => _ | _ => _ end).
  - intros [= <-]. lia.
  - destruct (find_option opt os) as [j|]; simpl; [|done]. intros [= <-]. pose proof (IH j eq_refl). lia.
Qed.

(** ** Counting iterations *)

Lemma scan_i_fmt n : INT_MIN ≤ n ≤ INT_MAX → scan_i (fmt_d n) = Some n.
Proof.
  intros Hn. pose proof (str_to_int_fmt n Hn) as H. unfold str_to_int in H. unfold scan_i. by destruct (sscanf_ic (fmt_d n)).
Qed.

Lemma atoi_fmt n : 0 ≤ n ≤ INT_MAX → atoi (fmt_d n) = n.
Proof.
  intros Hn. unfold fmt_d. rewrite (proj2 (Z.ltb_ge _ _)) by lia. rewrite <- (app_nil_r (digits 10 n)). by apply atoi_digits.
Qed.

(** Plain loops: no time to be filled, no delay, no hook. *)
Definition plain (s : std) : Prop :=
  STD_INFINITE (lp s) = false ∧ is_zero (STD_LOOP_DURATION (lp s)) = true ∧ is_zero (STD_LOOP_DELAY (lp s)) = true ∧
  STD_LP_recfun (hk s) = 0.

Lemma plain_step s lc v c : plain s →
  ∃ sys, usc_test_looping s lc v c =
    Ret (negb (STD_LOOP_COUNT (lp s) =? 0) && (lc <? STD_LOOP_COUNT (lp s)), Looping false (stop_time v) (delay v), c, sys).
Proof.
  intros (Hi & Hd & Hy & Hr). unfold usc_test_looping, start_looping. rewrite Hi, Hd, Hy, Hr. cbn [negb orb].
  destruct v as [[] st dl]; cbn [first_time stop_time delay]; rewrite !res_bind_ret; cbv beta iota; rewrite ?orb_false_r;
    (destruct (negb _ && _); cbn [negb]; rewrite ?res_bind_ret; by eexists).
Qed.

Lemma test_loop_S fuel s lc v c go v' c' sys : usc_test_looping s lc v c = Ret (go, v', c', sys) → lc < INT_MAX → 0 ≤ lc →
  test_loop (S fuel) s lc v c = if go then test_loop fuel s (lc + 1) v' c' else Ret lc.
Proof.
  intros E H1 H2. cbn [test_loop]. rewrite E, res_bind_ret. destruct go; [|done]. by rewrite ck32_ok by (unfold INT_MIN; lia).
Qed.

Lemma iteration_loop s c n lc v : plain s → 0 ≤ lc → STD_LOOP_COUNT (lp s) ≤ INT_MAX →
  n = Z.to_nat (STD_LOOP_COUNT (lp s) - lc) →
  test_loop (S n) s lc v c = Ret (Z.max lc (STD_LOOP_COUNT (lp s))).
Proof.
  intros Hp. revert lc v. induction n as [|n IH]; intros lc v Hlc Hmax Hn;
    destruct (plain_step s lc v c Hp) as [sys E].
  - cbn [test_loop]. rewrite E, res_bind_ret, (proj2 (Z.ltb_ge _ _)), andb_false_r by lia. f_equal. lia.
  - rewrite (test_loop_S _ _ _ _ _ _ _ _ _ E) by lia. rewrite (proj2 (Z.ltb_lt _ _)), (proj2 (Z.eqb_neq _ 0)) by lia.
    cbn [negb andb]. rewrite (IH (lc + 1)) by lia. f_equal. lia.
Qed.

(** Looping for a time: each decision takes one reading of the clock. *)
Definition timed (s : std) (us : Z) : Prop :=
  STD_INFINITE (lp s) = false ∧ is_zero (STD_LOOP_DURATION (lp s)) = false ∧
  f_to_u64 (fmul f1e6 (STD_LOOP_DURATION (lp s))) = Ret us ∧ is_zero (STD_LOOP_DELAY (lp s)) = true ∧
  STD_LP_recfun (hk s) = 0.

Lemma timed_step s us lc st dl t c : timed s us →
  ∃ sys, usc_test_looping s lc (Looping false st dl) (t :: c) =
    Ret ((negb (STD_LOOP_COUNT (lp s) =? 0) && (lc <? STD_LOOP_COUNT (lp s))) || (get_current_time t <? st),
         Looping false st dl, c, sys).
Proof.
  intros (Hi & Hd & Hu & Hy & Hr). unfold usc_test_looping, start_looping. rewrite Hi, Hd, Hy, Hr.
  cbn [negb orb first_time]. rewrite !res_bind_ret. cbv beta iota. cbn [tick]. rewrite !res_bind_ret. cbv beta iota.
  cbn [stop_time fst snd]. destruct (_ || _); cbn [negb]; rewrite ?res_bind_ret; by eexists.
Qed.

Lemma timed_first s us lc t c : timed s us →
  usc_test_looping s lc looping0 (t :: c) =
  usc_test_looping s lc (Looping false (u64 (us + get_current_time t)) 0) c.
Proof.
  intros (Hi & Hd & Hu & Hy & Hr). unfold usc_test_looping, start_looping. rewrite Hd, Hu, Hy.
  cbn [negb first_time looping0 tick]. rewrite ?res_bind_ret. cbv beta iota. cbn [fst snd]. rewrite ?res_bind_ret. done.
Qed.

Lemma timed_loop s us st dl k : timed s us → ∀ c lc, 0 ≤ lc → lc + Z.of_nat k < INT_MAX →
  STD_LOOP_COUNT (lp s) ≤ lc + Z.of_nat k → (∀ i t, (i < k)%nat → c !! i = Some t → get_current_time t < st) →
  (∃ t, c !! k = Some t ∧ st ≤ get_current_time t) →
  test_loop (S k) s lc (Looping false st dl) c = Ret (lc + Z.of_nat k).
Proof.
  intros Ht. induction k as [|k IH]; intros c lc Hlc Hmax Hcnt Hbefore (t & Hk & Hst); (destruct c as [|t0 c]; [done|]);
    destruct (timed_step s us lc st dl t0 c Ht) as [sys E].
  - simpl in Hk. injection Hk as ->. cbn [test_loop]. rewrite E, res_bind_ret.
    rewrite (proj2 (Z.ltb_ge lc _)), andb_false_r, (proj2 (Z.ltb_ge _ _)) by lia. f_equal. simpl. lia.
  - rewrite (test_loop_S _ _ _ _ _ _ _ _ _ E) by lia. rewrite (proj2 (Z.ltb_lt (get_current_time t0) st)), orb_true_r
      by (by apply (Hbefore 0%nat); [lia|]).
    rewrite (IH c (lc + 1)); [f_equal; lia|lia|lia|lia| |by exists t].
    intros i x Hi Hx. apply (Hbefore (S i)); [lia|done].
Qed.

Lemma sum_std (l : list cstr) : foldr (λ o n, zlength o + n) 0 l = zlength (concat l).
Proof. induction l as [|o l IH]; simpl; [done|]. rewrite IH, length_app. lia. Qed.
Lemma sum_user (l : list option_t) : foldr (λ o n, zlength (o_option o) + n) 0 l = zlength (concat (map o_option l)).
Proof. induction l as [|o l IH]; simpl; [done|]. rewrite IH, length_app. lia. Qed.

Definition short_options (os : list option_t) : Prop :=
  Forall (λ o, nonul (o_option o) ∧ (length (o_option o) ≤ 2)%nat) os.

Lemma option_string_ok os : short_options os →
  option_string os = Ret (Some (foldl add_option (concat std_options) (map o_option os))).
Proof.
  intros Hos. unfold option_string.
  replace (existsb _ os) with false.
  2:{ symmetry. apply not_true_is_false. intros (o & Hin & Hlt)%existsb_exists. apply list_elem_of_In in Hin.
      unfold short_options in Hos. rewrite Forall_forall in Hos. pose proof (proj2 (Hos o Hin)). bool_hyps. lia. }
  rewrite sum_std, sum_user. set (u := concat (map o_option os)).
  replace (Z.to_nat (zlength (concat std_options) + zlength u + 1)) with (S (length (concat std_options) + length u)) by lia.
  cbn [replicate]. rewrite mem_write_ok by (simpl; lia). rewrite res_bind_ret.
  change (store _ 0 [NUL]) with ([] ++ NUL :: drop 0 (replicate (length (concat std_options) + length u) NUL)). rewrite drop_0.
  change 0 with (zlength (@nil ascii)).
  destruct (cat_std_ok std_options [] (replicate (length (concat std_options) + length u) NUL)) as (r1 & -> & H1);
    [rewrite length_replicate; lia|]. rewrite res_bind_ret. rewrite length_replicate in H1.
  destruct (cat_user_ok os ([] ++ concat std_options) r1) as (r2 & -> & H2).
  - by repeat constructor.
  - eapply Forall_impl; [exact Hos|]. by intros o [].
  - fold u. lia.
  - rewrite res_bind_ret. cbn [fst]. by rewrite as_string_buf.
Qed.

(** ** Properties *)

(** The buffer [parse_opts] computes for the option string is always large
    enough: the string is that of the standard options and, in order, the options
    of the test whose letter is not there yet; longer options are refused. *)
Theorem option_string_fits os (Hn : Forall (λ o, nonul (o_option o)) os) :
  option_string os =
  Ret (if existsb (λ o, 2 <? zlength (o_option o)) os then None
       else Some (foldl add_option (str "hi:I:pP:") (map o_option os))).
Proof.
  case_if.
  - unfold option_string. by rewrite E.
  - apply option_string_ok. apply Forall_forall. intros o Ho. rewrite Forall_forall in Hn. split; [by apply Hn|].
    apply not_true_iff_false in E. destruct (Z.le_gt_cases (zlength (o_option o)) 2); [lia|]. destruct E.
    apply existsb_exists. exists o. split; [by apply list_elem_of_In|]. apply Z.ltb_lt. lia.
Qed.

(** C30: The number of iterations: with [-i n], or without it when USC_ITERATIONS is
    [n], a test does its loop exactly [n] times, and once by default; the option
    counts when both are there. *)
Theorem test_iterations atof scan_f os opt env c
  (Hos : short_options os) (Hopt : ∀ n, opt = Some n → 0 < n ≤ INT_MAX) (Henv : ∀ n, env = Some n → 0 < n ≤ INT_MAX)
  (getenv := λ x, if bool_decide (x = str "USC_ITERATIONS") then fmt_d <$> env else None)
  (getopts := λ _ : cstr, match opt with Some n => [("i"%char, fmt_d n)] | None => [] end)
  (n := match opt, env with Some n, _ => n | None, Some n => n | None, None => 1 end) :
  ∃ s, parse_opts atof scan_f getenv os true getopts (std0 os) = Ret (Returns None s) ∧
    test_loop (S (Z.to_nat n)) s 0 looping0 c = Ret n.
Proof.
  assert (Hn : 0 < n ≤ INT_MAX).
  { unfold n. destruct opt; [by apply Hopt|]. destruct env; [by apply Henv|]. unfold INT_MAX. lia. }
  set (sn := Seen match opt with Some _ => true | None => false end false false).
  set (s1 := match opt with Some n => set_lp (Loops false false n f0 f0) (std0 os) | None => std0 os end).
  assert (Ho : handle_options atof os (getopts []) (Seen false false false) (std0 os) = Ret (inl (sn, s1))).
  { unfold getopts, sn, s1. destruct opt as [m|]; [|done]. cbn [handle_options]. unfold handle_option.
    destruct (Hopt m eq_refl). simpl Ascii.eqb. cbv iota. rewrite atoi_fmt, (proj2 (Z.eqb_neq m 0)) by lia. done. }
  assert (Hget : ∀ x, x ≠ str "USC_ITERATIONS" → getenv x = None) by (intros x Hx; unfold getenv; by rewrite bool_decide_false).
  exists (parse_env scan_f getenv sn s1). unfold parse_opts. rewrite option_string_ok by done. rewrite res_bind_ret. cbn [negb].
  change (getopts (foldl _ _ _)) with (getopts []). rewrite Ho. split; [done|].
  assert (Hp : plain (parse_env scan_f getenv sn s1) ∧ STD_LOOP_COUNT (lp (parse_env scan_f getenv sn s1)) = n).
  { unfold parse_env, env_duration, env_delay, env_float, env_hooks, env_int, env_given.
    rewrite !Hget by discriminate. unfold env_iteration, getenv, s1, sn, n. simpl bool_decide. cbv iota.
    destruct opt; [by split_and!|]. destruct env as [m|]; [|by split_and!]. destruct (Henv m eq_refl). simpl.
    rewrite scan_i_fmt by (unfold INT_MIN; lia). rewrite (proj2 (Z.eqb_neq m 0)) by lia. by split_and!. }
  destruct Hp as [Hp Hc]. rewrite (iteration_loop _ _ (Z.to_nat n)); rewrite ?Hc; try done; try lia. f_equal. lia.
Qed.

(** A test that is to fill a time of [us] microseconds does its loop until the
    clock passes the end: when the readings after the first are before the end
    [k] times and then not, the body is done [k] times, if the count asked for is
    not larger. *)
Theorem duration_iterations s us t0 c k
  (Ht : timed s us) (Hk : Z.of_nat k < INT_MAX) (Hcount : STD_LOOP_COUNT (lp s) ≤ Z.of_nat k)
  (Hbefore : ∀ i t, (i < k)%nat → c !! i = Some t → get_current_time t < u64 (us + get_current_time t0))
  (Hafter : ∃ t, c !! k = Some t ∧ u64 (us + get_current_time t0) ≤ get_current_time t) :
  test_loop (S k) s 0 looping0 (t0 :: c) = Ret (Z.of_nat k).
Proof.
  cbn [test_loop]. rewrite (timed_first s us) by done.
  exact (timed_loop s us (u64 (us + get_current_time t0)) 0 k Ht c 0 ltac:(lia) ltac:(lia) ltac:(lia) Hbefore Hafter).
Qed.

(** The options of a test: after any sequence of its options, the flag of each is
    set exactly when its letter was given, and its argument is that of the last
    time. *)
Theorem user_options_set atof os opts sn s
  (Hos : Forall (λ o, flag o = true ∧ arg o = takes_arg o) os) (Hl : length (users s) = length os)
  (Hopts : Forall (λ x, mem x.1 std_letters = false ∧ is_Some (find_option x.1 os)) opts) :
  ∃ us, handle_options atof os opts sn s = Ret (inl (sn, set_users us s)) ∧
    length us = length os ∧ ∀ i u, users s !! i = Some u → us !! i = Some (set_by opts os i u).
Proof.
  revert s Hl. induction Hopts as [|[opt a] opts [Hm [i Hi]] Hopts IH]; intros s Hl.
  { exists (users s). by destruct s. }
  cbn [handle_options]. simpl in Hm, Hi.
  assert (Hh : handle_option atof os opt a sn s =
    (r ← user_option opt a os (users s);
     match r with Some us => Ret (inl (sn, set_users us s)) | None => Ret (inr (Returns (Some (not_found opt)) s)) end)).
  { unfold handle_option. unfold std_letters, mem in Hm. cbn [str String.list_ascii_of_string existsb] in Hm.
    bool_hyps. repeat match goal with H : Ascii.eqb opt _ = false |- _ => rewrite H; clear H end. done. }
  rewrite Hh, user_option_ok, res_bind_ret, Hi by done. clear Hh.
  destruct (lookup_lt_is_Some_2 (users s) i) as [u Hu]; [rewrite Hl; by apply find_option_lt with opt|].
  simpl. rewrite Hu. simpl.
  destruct (IH (set_users (<[i := (true, if takes_arg (os !!! i) then Some a else u.2)]> (users s)) s)) as (us & E & Hlen & Hus);
    [simpl; by rewrite length_insert|].
  exists us. split; [exact E|]. split; [done|]. intros j v Hj. unfold set_by. cbn [foldl fst snd].
  apply Hus. simpl. destruct (decide (i = j)) as [->|Hij].
  - rewrite list_lookup_insert_eq by (by apply lookup_lt_Some in Hj). rewrite bool_decide_true by done.
    rewrite Hj in Hu. by injection Hu as ->.
  - rewrite list_lookup_insert_ne, bool_decide_false by congruence. done.
Qed.

(** The hook USC_LP_RECFUN cannot be used: the stack object is allocated only
    when it is there already, so the first iteration reads through a null
    pointer. *)
Theorem recfun_undefined atof scan_f os k c
  (Hos : short_options os) (Hk : 0 < k ≤ INT_MAX)
  (getenv := λ x, if bool_decide (x = str "USC_LP_RECFUN") then Some (fmt_d k) else None) :
  ∃ s, parse_opts atof scan_f getenv os true (λ _, []) (std0 os) = Ret (Returns None s) ∧
    usc_test_looping s 0 looping0 c = Undef.
Proof.
  exists (parse_env scan_f getenv (Seen false false false) (std0 os)). unfold parse_opts. rewrite option_string_ok by done.
  split; [done|].
  assert (Hget : ∀ x, x ≠ str "USC_LP_RECFUN" → getenv x = None) by (intros x Hx; unfold getenv; by rewrite bool_decide_false).
  assert (Hrec : getenv (str "USC_LP_RECFUN") = Some (fmt_d k)) by done.
  unfold parse_env, env_duration, env_delay, env_float, env_hooks, env_int, env_given, env_iteration.
  rewrite !Hrec. rewrite !Hget by discriminate. clear Hrec Hget. subst getenv. cbn [mbind option_bind].
  rewrite scan_i_fmt by (unfold INT_MIN; lia). rewrite (proj2 (Z.leb_le 0 k)) by lia.
  unfold usc_test_looping, start_looping. simpl. by rewrite (proj2 (Z.eqb_neq k 0)) by lia.
Qed.

(** ** Witnesses *)

Definition ex_options : list option_t := [Option_t (str "D:") true true; Option_t (str "v") true false].

Lemma ex_options_short : short_options ex_options.
Proof. repeat constructor; simpl; lia. Qed.

Lemma option_string_fits_witness : option_string ex_options = Ret (Some (str "hi:I:pP:D:v")).
Proof. apply (option_string_fits ex_options). repeat constructor. Defined.

Lemma test_iterations_witness :
  ∃ s, parse_opts (λ _, f0) (λ _, None)
      (λ x, if bool_decide (x = str "USC_ITERATIONS") then fmt_d <$> Some 9 else None) ex_options true
      (λ _, [("i"%char, fmt_d 5)]) (std0 ex_options) = Ret (Returns None s) ∧
    test_loop 6 s 0 looping0 [] = Ret 5.
Proof.
  apply (test_iterations (λ _, f0) (λ _, None) ex_options (Some 5) (Some 9) []).
  - exact ex_options_short.
  - intros n [= <-]. unfold INT_MAX. lia.
  - intros n [= <-]. unfold INT_MAX. lia.
Defined.

(** A tenth of a second, rounded to single precision. *)
Definition ex_duration : float := S754_finite false 13421773 (-27).
Definition ex_std : std :=
  set_lp (Loops false false 1 ex_duration f0) (std0 []).

Lemma duration_iterations_witness :
  test_loop 3 ex_std 0 looping0 [(10, 0); (10, 50000); (10, 99999); (10, 100000)] = Ret 2.
Proof.
  apply (duration_iterations ex_std 100000 (10, 0) [(10, 50000); (10, 99999); (10, 100000)] 2).
  - by vm_compute.
  - reflexivity.
  - vm_compute. discriminate.
  - intros [|[|i]] t Hi Ht; [| |lia]; injection Ht as <-; reflexivity.
  - exists (10, 100000). split; [reflexivity|]. vm_compute. discriminate.
Defined.

Lemma user_options_set_witness :
  ∃ us, handle_options (λ _, f0) ex_options [("D"%char, str "a"); ("v"%char, []); ("D"%char, str "b")] (Seen false false false)
      (std0 ex_options) = Ret (inl (Seen false false false, set_users us (std0 ex_options))) ∧
    us !! 0%nat = Some (true, Some (str "b")) ∧ us !! 1%nat = Some (true, None).
Proof.
  destruct (user_options_set (λ _, f0) ex_options [("D"%char, str "a"); ("v"%char, []); ("D"%char, str "b")]
    (Seen false false false) (std0 ex_options)) as (us & E & _ & Hus).
  - by repeat constructor.
  - reflexivity.
  - repeat constructor; eexists; reflexivity.
  - exists us. split; [exact E|]. split; [exact (Hus 0%nat (false, None) eq_refl)|exact (Hus 1%nat (false, None) eq_refl)].
Defined.

Lemma recfun_undefined_witness :
  ∃ s, parse_opts (λ _, f0) (λ _, None) (λ x, if bool_decide (x = str "USC_LP_RECFUN") then Some (fmt_d 1) else None)
      ex_options true (λ _, []) (std0 ex_options) = Ret (Returns None s) ∧ usc_test_looping s 0 looping0 [] = Undef.
Proof.
  apply (recfun_undefined (λ _, f0) (λ _, None) ex_options 1 []); [exact ex_options_short|unfold INT_MAX; lia].
Defined.
