(* ===== verification/WriteLog.v ===== *)
(** * The log of writes

    lib/write_log.c with include/old/write_log.h: records of variable length are
    appended to a file and scanned backwards.  Bytes are numbers from 0 to 255; a
    [char] read from a buffer is signed.  The structure on disk is laid out as on
    x86 (seven 32-bit words, bit fields from the low end); the bits that are never
    assigned keep what was in the buffer.  Files are lists of bytes; whether a
    system call fails is an argument.  The texts of the error messages are not
    modelled. *)

From S2P Require Import Prelude CInt CMem.
Local Open Scope Z_scope.

Abbreviation byte := Z (only parsing).

Definition WLOG_MAX_PATH : Z := 128.
Definition WLOG_MAX_PATTERN : Z := 64.
Definition WLOG_MAX_HOST : Z := 8.
(** [sizeof(struct wlog_rec)] *)
Definition sizeof_wlog_rec : Z := 248.
Definition WLOG_REC_MAX_SIZE : Z := sizeof_wlog_rec + WLOG_MAX_PATH + WLOG_MAX_PATTERN + WLOG_MAX_HOST + 2.

(** The user's view of a record; the arrays have 9, 129 and 65 bytes. *)
Record wlog_rec : Type := Rec {
  w_pid : Z; w_offset : Z; w_nbytes : Z; w_oflags : Z; w_done : Z; w_async : Z;
  w_host : list byte; w_hostlen : Z; w_path : list byte; w_pathlen : Z;
  w_pattern : list byte; w_patternlen : Z }.

(** The record on disk: the bit fields, and the bits between them. *)
Record wlog_rec_disk : Type := Disk {
  d_offset : Z; d_extra0 : Z; d_nbytes : Z; d_oflags : Z;
  d_pid : Z; d_pathlen : Z; d_patternlen : Z; d_gap1 : Z;
  d_hostlen : Z; d_done : Z; d_async : Z; d_gap2 : Z; d_extra2 : Z }.
Definition sizeof_disk : Z := 28.

(** ** Bytes *)

Definition le32 (w : Z) : list byte := [w mod 256; w / 256 mod 256; w / 65536 mod 256; w / 16777216 mod 256].
Definition of_le32 (m : list byte) (i : nat) : Z :=
  match take 4 (drop (4 * i) m) with
  | [a; b; c; d] => a + 256 * b + 65536 * c + 16777216 * d
  | _ => 0
  end.

(** The bits from [lo] on, [n] of them, and a word of such fields. *)
Definition bits (w lo n : Z) : Z := w / 2 ^ lo mod 2 ^ n.

Definition disk_bytes (d : wlog_rec_disk) : list byte :=
  le32 (d_offset d) ++ le32 (d_extra0 d) ++ le32 (d_nbytes d) ++ le32 (d_oflags d) ++
  le32 (d_pid d + 2 ^ 17 * d_pathlen d + 2 ^ 24 * d_patternlen d + 2 ^ 30 * d_gap1 d) ++
  le32 (d_hostlen d + 2 ^ 4 * d_done d + 2 ^ 5 * d_async d + 2 ^ 6 * d_gap2 d) ++ le32 (d_extra2 d).
Definition disk_of (m : list byte) : wlog_rec_disk :=
  let w4 := of_le32 m 4 in
  let w5 := of_le32 m 5 in
  Disk (of_le32 m 0) (of_le32 m 1) (of_le32 m 2) (of_le32 m 3)
    (bits w4 0 17) (bits w4 17 7) (bits w4 24 6) (bits w4 30 2)
    (bits w5 0 4) (bits w5 4 1) (bits w5 5 1) (bits w5 6 26) (of_le32 m 6).

(** ** Packing *)

(** [memcpy(dst, wrec->w_path, n)] from an array of the record. *)
Definition field_bytes (arr : list byte) (n : Z) : res (list byte) := mem_read arr 0 n.

(** The buffer and the length. *)
Definition wlog_rec_pack (wrec : wlog_rec) (buf : list byte) (flag : bool) : res (list byte * Z) :=
  let pathlen := (if 0 <? w_pathlen wrec then u32 (w_pathlen wrec) else 0) mod 2 ^ 7 in
  let hostlen := (if 0 <? w_hostlen wrec then u32 (w_hostlen wrec) else 0) mod 2 ^ 4 in
  let patternlen := (if 0 <? w_patternlen wrec then u32 (w_patternlen wrec) else 0) mod 2 ^ 6 in
  hd ← mem_read buf 0 sizeof_disk;
  let old := disk_of hd in
  let d := Disk (u32 (w_offset wrec)) (d_extra0 old) (u32 (w_nbytes wrec)) (u32 (w_oflags wrec))
             (u32 (w_pid wrec) mod 2 ^ 17) pathlen patternlen (d_gap1 old)
             hostlen (u32 (w_done wrec) mod 2) (u32 (w_async wrec) mod 2) (d_gap2 old) (d_extra2 old) in
  buf ← mem_write buf 0 (disk_bytes d);
  if flag then
    let file := sizeof_disk in
    let host := file + pathlen in
    let pattern := host + hostlen in
    buf ← (if 0 <? pathlen then x ← field_bytes (w_path wrec) pathlen; mem_write buf file x else Ret buf);
    buf ← (if 0 <? hostlen then x ← field_bytes (w_host wrec) hostlen; mem_write buf host x else Ret buf);
    buf ← (if 0 <? patternlen then x ← field_bytes (w_pattern wrec) patternlen; mem_write buf pattern x else Ret buf);
    Ret (buf, sizeof_disk + pathlen + hostlen + patternlen)
  else Ret (buf, sizeof_disk).

Definition wlog_rec_unpack (buf : list byte) : res wlog_rec :=
  hd ← mem_read buf 0 sizeof_disk;
  let d := disk_of hd in
  let zeros (n : Z) : list byte := replicate (Z.to_nat n) 0 in
  path ← (if 0 <? d_pathlen d then
            x ← mem_read buf sizeof_disk (d_pathlen d); mem_write (zeros (WLOG_MAX_PATH + 1)) 0 x
          else Ret (zeros (WLOG_MAX_PATH + 1)));
  host ← (if 0 <? d_hostlen d then
            x ← mem_read buf (sizeof_disk + d_pathlen d) (d_hostlen d); mem_write (zeros (WLOG_MAX_HOST + 1)) 0 x
          else Ret (zeros (WLOG_MAX_HOST + 1)));
  pattern ← (if 0 <? d_patternlen d then
               x ← mem_read buf (sizeof_disk + d_pathlen d + d_hostlen d) (d_patternlen d);
               mem_write (zeros (WLOG_MAX_PATTERN + 1)) 0 x
             else Ret (zeros (WLOG_MAX_PATTERN + 1)));
  Ret (Rec (s32 (d_pid d)) (s32 (d_offset d)) (s32 (d_nbytes d)) (s32 (d_oflags d)) (s32 (d_done d)) (s32 (d_async d))
         host (d_hostlen d) path (d_pathlen d) pattern (d_patternlen d)).

(** ** Writing *)

(** The system's answers: whether each call works. *)
Record wlog_env : Type := WlogEnv { open_a_ok : bool; open_r_ok : bool; write_ok : bool; seek_ok : bool }.

(** The file, [None] when it does not exist; the result is 0 or -1. *)
Definition wlog_open (env : wlog_env) (trunc : bool) (file : option (list byte)) : Z * option (list byte) :=
  if negb (open_a_ok env) then (-1, file)
  else
    let file := match file with Some f => if trunc then [] else f | None => [] end in
    if negb (open_r_ok env) then (-1, Some file) else (0, Some file).

(** [write] at an offset of the file; the gap behind the end reads as zeros. *)
Definition pwrite (file : list byte) (off : Z) (d : list byte) : list byte :=
  store (file ++ replicate (Z.to_nat (off - zlength file)) 0) off d.

(** [wbuf] is what the buffer on the stack held before. *)
Definition wlog_record_write (env : wlog_env) (wbuf : list byte) (wrec : wlog_rec) (offset : Z) (file : list byte)
  : res (Z * list byte) :=
  r ← wlog_rec_pack wrec wbuf (offset <? 0);
  let '(wbuf, reclen) := (r : list byte * Z) in
  if offset <? 0 then
    wbuf ← mem_write wbuf reclen [reclen / 256 mod 256];
    wbuf ← mem_write wbuf (reclen + 1) [reclen mod 256];
    let reclen := reclen + 2 in
    d ← mem_read wbuf 0 reclen;
    if negb (write_ok env) then Ret (-1, file)
    else
      let file := file ++ d in
      let offset := (if seek_ok env then zlength file else -1) - reclen in
      if offset =? -1 then Ret (-1, file) else Ret (s32 offset, file)
  else
    if negb (seek_ok env) then Ret (-1, file)
    else
      d ← mem_read wbuf 0 reclen;
      if negb (write_ok env) then Ret (-1, file) else Ret (s32 offset, pwrite file offset d).

(** ** Scanning backwards *)

Definition BSIZE : Z := 512.
(** [sizeof(buf)], which is [bufend - buf]. *)
Definition bufsize : Z := BSIZE * 32.
Definition WLOG_STOP_SCAN : Z := 0.

(** [*(p)] of a [char] buffer. *)
Definition char_at (buf : list byte) (i : Z) : res Z := c ← mem_get buf i; Ret (s8 c).

Section scan.
(** The user's function, with the state it works on. *)
Context {A : Type} (func : wlog_rec → A → A * Z) (nrecs : Z).

Definition want (recnum : Z) : bool := (nrecs =? 0) || (recnum <? nrecs).

(** [memcpy(bufend - leftover, bufstart, leftover)] *)
Definition keep_leftover (buf : list byte) (bufstart leftover : Z) : res (list byte) :=
  memcpy_self buf (bufsize - leftover) bufstart leftover.

(** The inner loop: the buffer, [leftover], the number of records and the state of
    the user's function.  [albuf] is what the aligned buffer held before. *)
Fixpoint scan_buf (fuel : nat) (buf : list byte) (bufstart cp : Z) (albuf : list byte) (recnum : Z) (a : A)
  : res (list byte * Z * list byte * Z * A) :=
  match fuel with
  | O => NoFuel
  | S fuel =>
      if cp <? bufstart then Ret (buf, 0, albuf, recnum, a)
      else if cp - bufstart <? 2 then
        buf ← keep_leftover buf bufstart (cp - bufstart);
        Ret (buf, cp - bufstart, albuf, recnum, a)
      else
        hi ← char_at buf (cp - 2);
        lo ← char_at buf (cp - 1);
        let reclen := hi * 256 + lo in
        if cp - bufstart <? reclen + 2 then
          buf ← keep_leftover buf bufstart (cp - bufstart);
          Ret (buf, cp - bufstart, albuf, recnum, a)
        else
          let cp := cp - (reclen + 2) in
          albuf ← memcpy albuf 0 buf cp reclen;
          wrec ← wlog_rec_unpack albuf;
          let '(a, rval) := func wrec a in
          if rval =? WLOG_STOP_SCAN then Ret (buf, 0, albuf, recnum, a)
          else
            let recnum := recnum + 1 in
            if negb (nrecs =? 0) && (nrecs <=? recnum) then Ret (buf, 0, albuf, recnum, a)
            else scan_buf fuel buf bufstart cp albuf recnum a
  end.

(** [read(fd, buf + at, n)] from the file at [offset]. *)
Definition read_at (file : list byte) (offset : Z) (buf : list byte) (at_ n : Z) : res (list byte) :=
  if (0 <=? n) && (at_ + n <=? bufsize) then Ret (store buf at_ (slice file offset n)) else Undef.

(** The outer loop; [None] when a system call fails. *)
Fixpoint scan_file (fuel : nat) (seek_ok read_ok : bool) (file buf : list byte) (bufstart offset leftover : Z)
  (albuf : list byte) (recnum : Z) (a : A) : res (option A) :=
  match fuel with
  | O => NoFuel
  | S fuel =>
      if negb (want recnum && (0 <? offset)) then Ret (Some a)
      else
        let '(bufstart, offset) :=
          if u32 (u32 offset + u32 leftover) <? bufsize then (bufsize - (offset + leftover), 0)
          else (bufstart, s32 (offset - (bufsize - leftover))) in
        if negb seek_ok then Ret None
        else
          let n := bufsize - bufstart - leftover in
          buf ← read_at file offset buf bufstart n;
          if negb read_ok then Ret None
          else
            r ← scan_buf (S (Z.to_nat bufsize)) buf bufstart bufsize albuf recnum a;
            let '(buf, leftover, albuf, recnum, a) := (r : list byte * Z * list byte * Z * A) in
            scan_file fuel seek_ok read_ok file buf bufstart offset leftover albuf recnum a
  end.

(** [buf] and [albuf] are what the arrays on the stack held before. *)
Definition wlog_scan_backward (seek_ok read_ok : bool) (file buf albuf : list byte) (a : A) : res (option A) :=
  if negb seek_ok then Ret None
  else scan_file (S (length file)) seek_ok read_ok file buf 0 (s32 (zlength file)) 0 albuf 0 a.
End scan.

(** ** The structure on disk *)

Definition is_byte (b : byte) : Prop := 0 ≤ b < 256.

Record disk_ok (d : wlog_rec_disk) : Prop := {
  ok_offset : in_u 32 (d_offset d); ok_extra0 : in_u 32 (d_extra0 d); ok_nbytes : in_u 32 (d_nbytes d);
  ok_oflags : in_u 32 (d_oflags d); ok_pid : in_u 17 (d_pid d); ok_pathlen : in_u 7 (d_pathlen d);
  ok_patternlen : in_u 6 (d_patternlen d); ok_gap1 : in_u 2 (d_gap1 d); ok_hostlen : in_u 4 (d_hostlen d);
  ok_done : in_u 1 (d_done d); ok_async : in_u 1 (d_async d); ok_gap2 : in_u 26 (d_gap2 d);
  ok_extra2 : in_u 32 (d_extra2 d) }.

Lemma le32_val w : in_u 32 w →
  w mod 256 + 256 * (w / 256 mod 256) + 65536 * (w / 65536 mod 256) + 16777216 * (w / 16777216 mod 256) = w.
Proof. unfold in_u. change (2 ^ 32) with 4294967296. zlia. Qed.

Lemma disk_bytes_length d : length (disk_bytes d) = 28%nat.
Proof. done. Qed.

(** A word of fields. *)
Lemma word4 a b c g : in_u 17 a → in_u 7 b → in_u 6 c → in_u 2 g →
  let w := a + 2 ^ 17 * b + 2 ^ 24 * c + 2 ^ 30 * g in
  in_u 32 w ∧ bits w 0 17 = a ∧ bits w 17 7 = b ∧ bits w 24 6 = c ∧ bits w 30 2 = g.
Proof.
  unfold in_u, bits. change (2 ^ 0) with 1. change (2 ^ 17) with 131072. change (2 ^ 7) with 128. change (2 ^ 6) with 64.
  change (2 ^ 2) with 4. change (2 ^ 24) with 16777216. change (2 ^ 30) with 1073741824. change (2 ^ 32) with 4294967296.
  intros ? ? ? ?. cbv zeta. split_and!; zlia.
Qed.

Lemma word5 a b c g : in_u 4 a → in_u 1 b → in_u 1 c → in_u 26 g →
  let w := a + 2 ^ 4 * b + 2 ^ 5 * c + 2 ^ 6 * g in
  in_u 32 w ∧ bits w 0 4 = a ∧ bits w 4 1 = b ∧ bits w 5 1 = c ∧ bits w 6 26 = g.
Proof.
  unfold in_u, bits. change (2 ^ 0) with 1. change (2 ^ 4) with 16. change (2 ^ 1) with 2. change (2 ^ 26) with 67108864.
  change (2 ^ 5) with 32. change (2 ^ 6) with 64. change (2 ^ 32) with 4294967296.
  intros ? ? ? ?. cbv zeta. split_and!; zlia.
Qed.

Lemma disk_of_bytes d : disk_ok d → disk_of (disk_bytes d) = d.
Proof.
  intros []. destruct (word4 (d_pid d) (d_pathlen d) (d_patternlen d) (d_gap1 d)) as (H4 & A1 & A2 & A3 & A4); [done..|].
  destruct (word5 (d_hostlen d) (d_done d) (d_async d) (d_gap2 d)) as (H5 & B1 & B2 & B3 & B4); [done..|].
  unfold disk_of, disk_bytes, of_le32, le32. cbn [take drop app Nat.mul Nat.add].
  rewrite !le32_val by done. rewrite A1, A2, A3, A4, B1, B2, B3, B4. by destruct d.
Qed.

Lemma of_le32_range m i : Forall is_byte m → in_u 32 (of_le32 m i).
Proof.
  intros Hm. unfold of_le32, in_u. change (2 ^ 32) with 4294967296.
  assert (Forall is_byte (take 4 (drop (4 * i) m))) as H by (by apply Forall_take, Forall_drop).
  destruct (take 4 (drop (4 * i) m)) as [|a [|b [|c [|e [|]]]]]; try lia.
  apply Forall_cons in H as [Ha H]. apply Forall_cons in H as [Hb H]. apply Forall_cons in H as [Hc H].
  apply Forall_cons in H as [He _]. unfold is_byte in *. lia.
Qed.

Lemma bits_range w lo n : 0 ≤ n → in_u n (bits w lo n).
Proof. intros. unfold bits, in_u. apply Z.mod_pos_bound. lia. Qed.

(** ** Records *)

(** An array of [n] bytes with a text of [len] bytes, zeros behind. *)
Record padded (n len : Z) (arr : list byte) : Prop := {
  pad_length : zlength arr = n;
  pad_zeros : arr = take (Z.to_nat len) arr ++ replicate (Z.to_nat (n - len)) 0;
  pad_bytes : Forall is_byte arr }.

(** A record whose values fit their fields, and which is not too long to be scanned. *)
Record rec_ok (r : wlog_rec) : Prop := {
  rec_pid : in_u 17 (w_pid r); rec_offset : in_s 32 (w_offset r); rec_nbytes : in_s 32 (w_nbytes r);
  rec_oflags : in_s 32 (w_oflags r); rec_done : in_u 1 (w_done r); rec_async : in_u 1 (w_async r);
  rec_host : padded 9 (w_hostlen r) (w_host r); rec_path : padded 129 (w_pathlen r) (w_path r);
  rec_pattern : padded 65 (w_patternlen r) (w_pattern r);
  rec_hostlen : 0 ≤ w_hostlen r ≤ 8; rec_pathlen : 0 ≤ w_pathlen r ≤ 127; rec_patternlen : 0 ≤ w_patternlen r ≤ 63 }.

Definition reclen (r : wlog_rec) : Z := sizeof_disk + w_pathlen r + w_hostlen r + w_patternlen r.
Definition text (r : wlog_rec) : list byte :=
  take (Z.to_nat (w_pathlen r)) (w_path r) ++ take (Z.to_nat (w_hostlen r)) (w_host r) ++
  take (Z.to_nat (w_patternlen r)) (w_pattern r).

Record rec_disk (r : wlog_rec) (d : wlog_rec_disk) : Prop := {
  rd_ok : disk_ok d;
  rd_offset : d_offset d = u32 (w_offset r); rd_nbytes : d_nbytes d = u32 (w_nbytes r);
  rd_oflags : d_oflags d = u32 (w_oflags r); rd_pid : d_pid d = w_pid r; rd_pathlen : d_pathlen d = w_pathlen r;
  rd_patternlen : d_patternlen d = w_patternlen r; rd_hostlen : d_hostlen d = w_hostlen r;
  rd_done : d_done d = w_done r; rd_async : d_async d = w_async r }.

(** The bytes of a record without the length at the end. *)
Definition encodes (r : wlog_rec) (bs : list byte) : Prop := ∃ d, rec_disk r d ∧ bs = disk_bytes d ++ text r.

Lemma padded_take n len arr : padded n len arr → 0 ≤ len ≤ n → length (take (Z.to_nat len) arr) = Z.to_nat len.
Proof. intros [Hl _ _] ?. rewrite length_take. lia. Qed.

Lemma text_length r : rec_ok r → zlength (text r) = w_pathlen r + w_hostlen r + w_patternlen r.
Proof.
  intros []. unfold text. rewrite !length_app. erewrite !padded_take by (done || lia). lia.
Qed.

Lemma encodes_length r bs : rec_ok r → encodes r bs → zlength bs = reclen r.
Proof.
  intros Hr (d & _ & ->). rewrite length_app, disk_bytes_length, Nat2Z.inj_add, text_length by done.
  unfold reclen, sizeof_disk. lia.
Qed.

(** A length as it is stored in its field. *)
Lemma len_field n w : 0 ≤ n < 2 ^ w → 0 ≤ w ≤ 31 → (if 0 <? n then u32 n else 0) mod 2 ^ w = n.
Proof.
  intros Hn Hw. assert (2 ^ w ≤ 2 ^ 31) by (apply Z.pow_le_mono_r; lia).
  assert (Hu : (if 0 <? n then u32 n else 0) = n).
  { destruct (Z.ltb_spec 0 n); [|lia]. apply u32_id. change (2 ^ 31) with 2147483648 in *. lia. }
  rewrite Hu. by apply Z.mod_small.
Qed.

(** One of the texts behind the structure. *)
Lemma add_text m t arr n len off : starts m t → length m = 452%nat → off = zlength t → padded n len arr → 0 ≤ len ≤ n →
  zlength t + len ≤ 452 →
  ∃ m', (if 0 <? len then x ← field_bytes arr len; mem_write m off x else Ret m) = Ret m' ∧
    starts m' (t ++ take (Z.to_nat len) arr) ∧ length m' = 452%nat.
Proof.
  intros Ht Hm -> Hp Hl Hfit. pose proof (pad_length _ _ _ Hp). destruct (Z.ltb_spec 0 len).
  - unfold field_bytes. rewrite mem_read_ok by lia. rewrite res_bind_ret. unfold slice. simpl (Z.to_nat 0). rewrite drop_0.
    destruct (starts_write m t (take (Z.to_nat len) arr)) as (m' & E & ? & ?); [done|rewrite length_take; lia|].
    exists m'. rewrite E. by rewrite <- Hm.
  - exists m. replace (Z.to_nat len) with 0%nat by lia. by rewrite take_0, app_nil_r.
Qed.

(** The structure at the beginning of the buffer, and what is put behind it. *)
Lemma header_ok r wbuf : rec_ok r → length wbuf = 452%nat → Forall is_byte wbuf →
  ∃ d m, rec_disk r d ∧ starts m (disk_bytes d) ∧ length m = 452%nat ∧ ∀ flag,
    wlog_rec_pack r wbuf flag =
      if flag then
        m ← (if 0 <? w_pathlen r then x ← field_bytes (w_path r) (w_pathlen r); mem_write m sizeof_disk x else Ret m);
        m ← (if 0 <? w_hostlen r then x ← field_bytes (w_host r) (w_hostlen r); mem_write m (sizeof_disk + w_pathlen r) x
             else Ret m);
        m ← (if 0 <? w_patternlen r then x ← field_bytes (w_pattern r) (w_patternlen r);
               mem_write m (sizeof_disk + w_pathlen r + w_hostlen r) x
             else Ret m);
        Ret (m, reclen r)
      else Ret (m, sizeof_disk).
Proof.
  intros Hr Hl Hb. pose proof Hr as []. set (old := disk_of (slice wbuf 0 sizeof_disk)).
  set (d := Disk (u32 (w_offset r)) (d_extra0 old) (u32 (w_nbytes r)) (u32 (w_oflags r)) (u32 (w_pid r) mod 2 ^ 17)
    (w_pathlen r) (w_patternlen r) (d_gap1 old) (w_hostlen r) (u32 (w_done r) mod 2) (u32 (w_async r) mod 2)
    (d_gap2 old) (d_extra2 old)).
  assert (Hold : Forall is_byte (slice wbuf 0 sizeof_disk)) by (by apply Forall_take, Forall_drop).
  unfold in_u in *. change (2 ^ 1) with 2 in *.
  assert (Hd : rec_disk r d).
  { change (2 ^ 17) with 131072 in *. split; simpl; try done; try (rewrite u32_id by lia; apply Z.mod_small; lia).
    split; simpl; unfold in_u; try (apply u32_range); try (apply of_le32_range; done); try (apply bits_range; lia);
      try (apply Z.mod_pos_bound; lia); simpl; lia. }
  destruct (starts_write wbuf [] (disk_bytes d)) as (m0 & E0 & S0 & L0); [done|rewrite Hl; simpl; lia|].
  change (zlength []) with 0 in E0. cbn [app] in S0. rewrite Hl in L0. exists d, m0. do 3 (split; [done|]). intros flag.
  unfold wlog_rec_pack.
  rewrite (len_field (w_pathlen r)), (len_field (w_hostlen r)), (len_field (w_patternlen r)) by (simpl; lia).
  rewrite mem_read_ok by (unfold sizeof_disk; lia). rewrite res_bind_ret. cbv zeta. fold old. fold d. by rewrite E0.
Qed.

Lemma pack_ok r wbuf : rec_ok r → length wbuf = 452%nat → Forall is_byte wbuf →
  ∃ bs m, encodes r bs ∧ wlog_rec_pack r wbuf true = Ret (m, reclen r) ∧ starts m bs ∧ length m = 452%nat.
Proof.
  intros Hr Hl Hb. destruct (header_ok r wbuf Hr Hl Hb) as (d & m0 & Hd & S0 & L0 & ->). pose proof Hr as [].
  destruct (add_text m0 (disk_bytes d) (w_path r) 129 (w_pathlen r) sizeof_disk) as (m1 & -> & S1 & L1); try done; [lia|simpl; lia|].
  rewrite res_bind_ret.
  pose proof (padded_take 129 _ _ rec_path0 ltac:(lia)) as Lp. pose proof (padded_take 9 _ _ rec_host0 ltac:(lia)) as Lh.
  destruct (add_text m1 (disk_bytes d ++ take (Z.to_nat (w_pathlen r)) (w_path r)) (w_host r) 9 (w_hostlen r)
    (sizeof_disk + w_pathlen r)) as (m2 & -> & S2 & L2); try done;
    [rewrite length_app, disk_bytes_length, Lp; unfold sizeof_disk; lia|lia|rewrite length_app, disk_bytes_length, Lp; lia|].
  rewrite res_bind_ret.
  destruct (add_text m2 ((disk_bytes d ++ take (Z.to_nat (w_pathlen r)) (w_path r)) ++ take (Z.to_nat (w_hostlen r)) (w_host r))
    (w_pattern r) 65 (w_patternlen r) (sizeof_disk + w_pathlen r + w_hostlen r)) as (m3 & -> & S3 & L3); try done;
    [rewrite !length_app, disk_bytes_length, Lp, Lh; unfold sizeof_disk; lia|lia|rewrite !length_app, disk_bytes_length, Lp, Lh; lia|].
  rewrite res_bind_ret. exists (disk_bytes d ++ text r), m3. split; [by exists d|]. split; [done|]. split; [|done].
  unfold text. by rewrite <- !app_assoc in S3.
Qed.

(** A record and its length, appended. *)
Definition stored (r : wlog_rec) (bs : list byte) : Prop :=
  ∃ b, encodes r b ∧ bs = b ++ [reclen r / 256 mod 256; reclen r mod 256].

Definition env_ok : wlog_env := WlogEnv true true true true.

Lemma append_ok r wbuf file : rec_ok r → length wbuf = 452%nat → Forall is_byte wbuf → zlength file < 2 ^ 31 →
  ∃ bs, stored r bs ∧ wlog_record_write env_ok wbuf r (-1) file = Ret (zlength file, file ++ bs).
Proof.
  intros Hr Hl Hb Hf. destruct (pack_ok r wbuf Hr Hl Hb) as (bs & m & Henc & E & Hs & Hm).
  pose proof (encodes_length _ _ Hr Henc) as Hlen. pose proof Hr as []. unfold wlog_record_write.
  change (-1 <? 0) with true. rewrite E, res_bind_ret. cbv beta iota. rewrite <- Hlen.
  assert (Hmax : (length bs ≤ 230)%nat) by (unfold reclen, sizeof_disk in Hlen; lia).
  destruct (starts_write m bs [zlength bs / 256 mod 256]) as (m1 & -> & S1 & L1); [done|simpl; lia|]. rewrite res_bind_ret.
  destruct (starts_write m1 (bs ++ [zlength bs / 256 mod 256]) [zlength bs mod 256]) as (m2 & E2 & S2 & L2);
    [done|rewrite length_app; simpl; lia|].
  replace (zlength bs + 1) with (zlength (bs ++ [zlength bs / 256 mod 256])) by (rewrite length_app; simpl; lia).
    rewrite E2, res_bind_ret. rewrite <- app_assoc in S2. cbn [app] in S2.
  set (all := bs ++ [zlength bs / 256 mod 256; zlength bs mod 256]) in *.
  assert (Hall : zlength bs + 2 = zlength all) by (unfold all; rewrite length_app; simpl; lia). rewrite Hall.
  rewrite starts_read by (done || lia). rewrite res_bind_ret. simpl seek_ok. simpl write_ok. cbv iota. cbn [negb].
  exists all. split; [exists bs; by rewrite <- Hlen|].
  rewrite length_app, Nat2Z.inj_add, Z.add_simpl_r. rewrite (proj2 (Z.eqb_neq _ (-1))) by lia.
  by rewrite s32_id by lia.
Qed.

(** A text copied into an array of zeros. *)
Lemma copy_text buf t arr n len off rest : starts buf (t ++ take (Z.to_nat len) arr ++ rest) → off = zlength t →
  (length (t ++ take (Z.to_nat len) arr ++ rest) ≤ length buf)%nat → padded n len arr → 0 ≤ len ≤ n →
  (if 0 <? len then x ← mem_read buf off len; mem_write (replicate (Z.to_nat n) 0) 0 x else Ret (replicate (Z.to_nat n) 0)) = Ret arr.
Proof.
  intros Hs -> Hb Hp Hl. pose proof (padded_take _ _ _ Hp Hl) as Lt. destruct Hp as [Hn Hz _].
  rewrite !length_app in Hb. destruct (Z.ltb_spec 0 len).
  - rewrite mem_read_ok by lia. rewrite res_bind_ret.
    assert (Hslice : slice buf (zlength t) len = take (Z.to_nat len) arr).
    { unfold slice. rewrite Nat2Z.id. rewrite <- (take_drop (length (t ++ take (Z.to_nat len) arr ++ rest)) buf), Hs.
      rewrite <- app_assoc, drop_app_length, <- app_assoc. apply take_app_length'. done. }
    rewrite Hslice, mem_write_ok by (rewrite ?length_replicate; lia). f_equal. unfold store. simpl (Z.to_nat 0).
    rewrite take_0, Lt, drop_replicate. cbn [app Nat.add]. rewrite Hz at 2. do 2 f_equal. lia.
  - f_equal. rewrite Hz. replace (Z.to_nat len) with 0%nat by lia. rewrite take_0. cbn [app]. f_equal. lia.
Qed.

Lemma unpack_ok r bs albuf : rec_ok r → encodes r bs → starts albuf bs → (length bs ≤ length albuf)%nat →
  wlog_rec_unpack albuf = Ret r.
Proof.
  intros Hr (d & Hd & ->) Hs Hl. unfold wlog_rec_unpack. pose proof Hr as []. pose proof Hd as [].
  assert (Hhd : mem_read albuf 0 sizeof_disk = Ret (disk_bytes d)).
  { apply (starts_read albuf (disk_bytes d)).
    - unfold starts in *. rewrite length_app in Hs. apply (f_equal (take (length (disk_bytes d)))) in Hs.
      rewrite take_take, take_app_length, Nat.min_l in Hs by lia. done.
    - rewrite length_app in Hl. lia. }
  rewrite Hhd, res_bind_ret, disk_of_bytes by done. cbv zeta. rewrite rd_pathlen0, rd_hostlen0, rd_patternlen0.
  pose proof (padded_take 129 _ _ rec_path0 ltac:(lia)) as Lp. pose proof (padded_take 9 _ _ rec_host0 ltac:(lia)) as Lh.
  pose proof (disk_bytes_length d) as Ld. unfold text, sizeof_disk, WLOG_MAX_PATH, WLOG_MAX_HOST, WLOG_MAX_PATTERN in *.
  rewrite (copy_text albuf (disk_bytes d) (w_path r) _ _ _ _ Hs) by (done || lia). rewrite res_bind_ret.
  rewrite app_assoc in Hs, Hl.
  rewrite (copy_text albuf _ (w_host r) _ _ _ _ Hs) by (done || lia || (rewrite length_app; lia)). rewrite res_bind_ret.
  rewrite app_assoc in Hs, Hl. rewrite <- (app_nil_r (take _ (w_pattern r))) in Hs, Hl.
  rewrite (copy_text albuf _ (w_pattern r) _ _ _ _ Hs) by (done || lia || (rewrite !length_app; lia)). rewrite res_bind_ret.
  rewrite rd_offset0, rd_nbytes0, rd_oflags0, rd_pid0, rd_done0, rd_async0.
  assert (Hsu : ∀ z, in_s 32 z → s32 (u32 z) = z).
  { intros z Hz. unfold s32, u32. unfold wrap_s, wrap_u. rewrite Zplus_mod_idemp_l. by apply wrap_s_id. }
  unfold in_u in *. change (2 ^ 17) with 131072 in *. change (2 ^ 1) with 2 in *.
  rewrite !Hsu, (s32_id (w_pid r)), (s32_id (w_done r)), (s32_id (w_async r)) by (done || lia). by destruct r.
Qed.

(** ** Scanning what was written *)

Section scanning.
Context {A : Type} (func : wlog_rec → A → A * Z) (nrecs : Z).
Hypothesis func_continues : ∀ r a, (func r a).2 ≠ WLOG_STOP_SCAN.
Hypothesis nrecs_pos : 0 ≤ nrecs.

(** The user's function on a list of records. *)
Definition visit (a : A) (l : list wlog_rec) : A := foldl (λ a r, (func r a).1) a l.

(** Records in a log: their bytes, each short enough for the [char] arithmetic of
    the scan. *)
Definition logged (r : wlog_rec) (bs : list byte) : Prop := rec_ok r ∧ reclen r < 128 ∧ stored r bs.

Lemma logged_bytes r bs : logged r bs →
  ∃ b, encodes r b ∧ bs = b ++ [0; reclen r] ∧ zlength b = reclen r ∧ 28 ≤ reclen r < 128.
Proof using Type.
  intros (Hr & Hl & b & Henc & ->). exists b. pose proof (encodes_length _ _ Hr Henc) as Hb.
  assert (28 ≤ reclen r) by (destruct Hr; unfold reclen, sizeof_disk; lia).
  rewrite Z.div_small, (Z.mod_small (reclen r)) by lia. done.
Qed.

(** What the inner loop leaves: the records [rs2] were visited; then either as many
    as were asked for have been, or the beginning of the buffer, which is the end
    of the log of the records [rs1], is too short for another record. *)
Definition scanned (off : Z) (rs : list wlog_rec) (ss : list (list byte)) (recnum : Z) (a : A)
  (res : list byte * Z * list byte * Z * A) : Prop :=
  let '(buf, leftover, albuf, recnum', a') := res in
  length buf = Z.to_nat bufsize ∧ length albuf = 450%nat ∧
  ∃ rs1 rs2 ss1 ss2, rs = rs1 ++ rs2 ∧ ss = ss1 ++ ss2 ∧ Forall2 logged rs1 ss1 ∧ a' = visit a (rev rs2) ∧
    recnum' = recnum + zlength rs2 ∧
    (nrecs ≠ 0 ∧ recnum' = nrecs ∨
     (nrecs = 0 ∨ recnum' < nrecs) ∧ off + leftover = zlength (concat ss1) ∧ 0 ≤ leftover < 130 ∧
     slice buf (bufsize - leftover) leftover = drop (Z.to_nat off) (concat ss1) ∧ (off = 0 → ss1 = [])).

Lemma slice_prefix {B} (l : list B) i n k : 0 ≤ i → 0 ≤ k ≤ n → slice l i k = take (Z.to_nat k) (slice l i n).
Proof using Type. intros. unfold slice. rewrite take_take. f_equal. lia. Qed.
Lemma slice_suffix {B} (l : list B) i n k : 0 ≤ i → 0 ≤ k ≤ n → slice l (i + k) (n - k) = drop (Z.to_nat k) (slice l i n).
Proof using Type.
  intros. unfold slice. rewrite skipn_firstn_comm, drop_drop. f_equal; [lia|]. f_equal. lia.
Qed.

(** Moving what is left to the end of the buffer. *)
Lemma keep_leftover_ok buf bufstart n : length buf = Z.to_nat bufsize → 0 ≤ bufstart → 0 ≤ n < 130 →
  bufstart = 0 ∨ n = 0 ∧ bufstart ≤ bufsize →
  ∃ buf', keep_leftover buf bufstart n = Ret buf' ∧ length buf' = length buf ∧
    slice buf' (bufsize - n) n = slice buf bufstart n.
Proof using Type.
  unfold keep_leftover, bufsize, BSIZE. intros Hl Hb Hn Hc. eexists. rewrite memcpy_self_ok by lia. split; [done|].
  assert (Hs : length (slice buf bufstart n) = Z.to_nat n) by (apply slice_length; lia).
  split; [rewrite store_length; lia|].
  apply list_eq. intros i. destruct (decide (Z.of_nat i < n)).
  - rewrite slice_lookup, store_lookup, Hs by lia. rewrite decide_True by lia. f_equal. lia.
  - rewrite !lookup_ge_None_2; [done|rewrite Hs; lia|]. rewrite slice_length by (rewrite ?store_length; lia). lia.
Qed.

(** The length of the last record, read at the end of its bytes. *)
Lemma read_reclen buf bufstart n pre b r :
  0 ≤ bufstart → bufstart + n ≤ bufsize → length buf = Z.to_nat bufsize → 28 ≤ r < 128 → 2 ≤ n →
  (∃ k, slice buf bufstart n = drop k (pre ++ b ++ [0; r]) ∧ Z.of_nat k + n = zlength (pre ++ b ++ [0; r])) →
  char_at buf (bufstart + n - 2) = Ret 0 ∧ char_at buf (bufstart + n - 1) = Ret r.
Proof using Type.
  unfold bufsize, BSIZE. intros Hb Hn Hl Hr H2 (k & Hs & Hk). unfold char_at.
  assert (Hget : ∀ i : nat, (i < 2)%nat → buf !! Z.to_nat (bufstart + n - 2 + Z.of_nat i) = [0; r] !! i).
  { intros i Hi. pose proof (slice_lookup buf bufstart n (Z.to_nat (n - 2 + Z.of_nat i)) Hb ltac:(lia)) as E.
    replace (Z.to_nat bufstart + Z.to_nat (n - 2 + Z.of_nat i))%nat with (Z.to_nat (bufstart + n - 2 + Z.of_nat i)) in E by lia.
    rewrite <- E, Hs, lookup_drop. rewrite !length_app in Hk. simpl in Hk.
    rewrite app_assoc, lookup_app_r by (rewrite length_app; lia). rewrite length_app. f_equal. lia. }
  pose proof (Hget 0%nat ltac:(lia)) as G0. pose proof (Hget 1%nat ltac:(lia)) as G1. simpl in G0, G1.
  replace (bufstart + n - 2 + Z.of_nat 0) with (bufstart + n - 2) in G0 by lia.
  replace (bufstart + n - 2 + Z.of_nat 1) with (bufstart + n - 1) in G1 by lia.
  rewrite (mem_get_lookup buf (bufstart + n - 2) 0), (mem_get_lookup buf (bufstart + n - 1) r) by (lia || done).
  rewrite !res_bind_ret.
  rewrite !s8_id by lia. done.
Qed.

(** What is left when the next record does not fit. *)
Lemma scan_leftover buf bufstart n albuf recnum a rs ss off :
  length buf = Z.to_nat bufsize → length albuf = 450%nat → Forall2 logged rs ss → off + n = zlength (concat ss) →
  0 ≤ n < 130 → 0 ≤ bufstart → bufstart = 0 ∨ n = 0 ∧ bufstart ≤ bufsize →
  slice buf bufstart n = drop (Z.to_nat off) (concat ss) → nrecs = 0 ∨ recnum < nrecs → (off = 0 → ss = []) →
  ∃ res, (buf ← keep_leftover buf bufstart n; Ret (buf, n, albuf, recnum, a)) = Ret res ∧ scanned off rs ss recnum a res.
Proof using Type.
  intros Hb Ha Hrs Hoff Hn Hs Hc Hslice Hrec H0.
  destruct (keep_leftover_ok buf bufstart n Hb Hs Hn Hc) as (buf' & -> & Hl & Hk). rewrite res_bind_ret.
  eexists. split; [done|]. split; [by rewrite Hl|]. split; [done|]. exists rs, [], ss, []. rewrite !app_nil_r.
  split_and!; try done; [simpl; lia|]. right. split_and!; try done; try lia. by rewrite Hk.
Qed.

Lemma concat_snoc (ss : list (list byte)) s : concat (ss ++ [s]) = concat ss ++ s.
Proof using Type. rewrite concat_app. simpl. by rewrite app_nil_r. Qed.

(** The bytes of the last record in the buffer. *)
Lemma last_record buf bufstart n off pre (b : list byte) : 0 ≤ bufstart → 0 ≤ off ≤ zlength pre → off + n = zlength (pre ++ b) →
  slice buf bufstart n = drop (Z.to_nat off) (pre ++ b) →
  slice buf bufstart (n - zlength b) = drop (Z.to_nat off) pre ∧
  slice buf (bufstart + (n - zlength b)) (zlength b) = b.
Proof using Type.
  rewrite length_app. intros Hb Hoff Hn Hs. rewrite drop_app_le in Hs by lia. split.
  - rewrite (slice_prefix _ _ n) by lia. rewrite Hs. apply take_app_length'. rewrite length_drop. lia.
  - replace (zlength b) with (n - (n - zlength b)) at 2 by lia. rewrite slice_suffix by lia. rewrite Hs.
    apply drop_app_length'. rewrite length_drop. lia.
Qed.

Lemma copy_record albuf buf cp b r n : length albuf = 450%nat → length buf = Z.to_nat bufsize → 0 ≤ cp →
  cp + n ≤ bufsize → slice buf cp n = b → rec_ok r → encodes r b → zlength b = n → n < 128 →
  ∃ albuf', memcpy albuf 0 buf cp n = Ret albuf' ∧ length albuf' = 450%nat ∧ wlog_rec_unpack albuf' = Ret r.
Proof using Type.
  unfold bufsize, BSIZE. intros Ha Hb Hc Hl Hs Hr Henc <- Hlen. rewrite memcpy_ok by lia. rewrite Hs. eexists. split; [done|].
  split; [rewrite store_length; lia|]. apply (unpack_ok r b); [done|done| |rewrite store_length; lia].
  apply (starts_store albuf [] b); [done|simpl; lia].
Qed.

Lemma scan_buf_ok fuel buf bufstart n albuf recnum a rs ss off :
  length buf = Z.to_nat bufsize → length albuf = 450%nat → Forall2 logged rs ss → 0 ≤ off → 0 ≤ n →
  off + n = zlength (concat ss) → 0 ≤ bufstart → bufstart + n ≤ bufsize → off = 0 ∨ bufstart = 0 →
  slice buf bufstart n = drop (Z.to_nat off) (concat ss) → n < Z.of_nat fuel → nrecs = 0 ∨ recnum < nrecs →
  ∃ res, scan_buf func nrecs fuel buf bufstart (bufstart + n) albuf recnum a = Ret res ∧ scanned off rs ss recnum a res.
Proof using func_continues nrecs_pos.
  intros Hb. revert fuel n albuf recnum a ss off. induction rs as [|r rs IH] using rev_ind;
    intros [|fuel] n albuf recnum a ss off Ha Hrs Hoff0 Hn Hoff Hs Hfit Hc Hslice Hfuel Hrec; try lia; cbn [scan_buf];
    rewrite (proj2 (Z.ltb_ge _ bufstart)) by lia; replace (bufstart + n - bufstart) with n by lia.
  { apply Forall2_nil_inv_l in Hrs as ->. simpl in Hoff. assert (n = 0 ∧ off = 0) as [-> ->] by lia. simpl (0 <? 2).
    apply scan_leftover; try done; try lia. }
  apply Forall2_app_inv_l in Hrs as (ss0 & s0 & Hrs & Hr & ->). inversion Hr as [|? s ? ? Hlog Hnil]; subst.
  apply Forall2_nil_inv_l in Hnil as ->. rewrite concat_snoc in Hoff, Hslice.
  destruct (logged_bytes r s Hlog) as (b & Henc & -> & Hlen & Hrange).
  assert (Hstop : n < reclen r + 2 → ∃ res, (buf ← keep_leftover buf bufstart n; Ret (buf, n, albuf, recnum, a)) = Ret res ∧
    scanned off (rs ++ [r]) (ss0 ++ [b ++ [0; reclen r]]) recnum a res).
  { intros Hlt. rewrite !length_app in Hoff. simpl in Hoff. apply scan_leftover; try done; try lia.
    - apply Forall2_app; [done|by constructor].
    - rewrite concat_snoc, !length_app. simpl. lia.
    - by rewrite concat_snoc. }
  destruct (Z.ltb_spec n 2) as [H2|H2]; [apply Hstop; lia|].
  destruct (read_reclen buf bufstart n (concat ss0) b (reclen r)) as [E1 E2]; try done.
  { exists (Z.to_nat off). split; [done|]. lia. }
  rewrite E1, E2, !res_bind_ret. replace (0 * 256 + reclen r) with (reclen r) by lia.
  destruct (Z.ltb_spec n (reclen r + 2)) as [Hlt|Hlt]; [by apply Hstop|]. clear Hstop E1 E2.
  assert (Hl2 : zlength (b ++ [0; reclen r]) = reclen r + 2) by (rewrite length_app; simpl; lia).
  assert (Hoff' : off ≤ zlength (concat ss0)) by (rewrite length_app in Hoff; lia).
  destruct (last_record buf bufstart n off (concat ss0) (b ++ [0; reclen r])) as [Hpre Hlast]; [done|lia|done|done|].
  rewrite Hl2 in Hpre, Hlast. replace (bufstart + n - (reclen r + 2)) with (bufstart + (n - (reclen r + 2))) by lia.
  destruct (copy_record albuf buf (bufstart + (n - (reclen r + 2))) b r (reclen r)) as (albuf' & Ec & Ha' & Eu);
    [done|done|lia|lia| |apply Hlog|done|done|lia|].
  { rewrite (slice_prefix _ _ (reclen r + 2)), Hlast by lia. apply take_app_length'. lia. }
  rewrite Ec, res_bind_ret, Eu, res_bind_ret. destruct (func r a) as [a1 rv] eqn:Ef. pose proof (func_continues r a) as Hcont. rewrite Ef in Hcont.
  rewrite (proj2 (Z.eqb_neq rv _)) by done.
  assert (Hvisit : ∀ l, visit a1 (rev l) = visit a (rev (l ++ [r]))) by (intros l; rewrite rev_app_distr; simpl; by rewrite Ef).
  destruct (negb (nrecs =? 0) && (nrecs <=? recnum + 1)) eqn:Hmany; bool_hyps.
  - eexists. split; [done|]. split; [done|]. split; [done|]. exists rs, [r], ss0, [b ++ [0; reclen r]].
    split_and!; try done; [by apply (Hvisit [])|]. left. destruct Hrec; lia.
  - destruct (IH fuel (n - (reclen r + 2)) albuf' (recnum + 1) a1 ss0 off) as (res & E & Hres);
      [done|done|done|lia|rewrite length_app in Hoff; lia|done|lia|done|done|lia| |].
    { destruct Hmany as [Hz|Hz]; bool_hyps; [by left|right; lia]. }
    exists res. split; [exact E|]. destruct res as [[[[buf' lf] al] rn'] a']. destruct Hres as (Hb' & Hal & rs1 & rs2 & ss1 & ss2 & -> & -> & H1 & -> & Hn' & Hcase).
    split; [done|]. split; [done|]. exists rs1, (rs2 ++ [r]), ss1, (ss2 ++ [b ++ [0; reclen r]]).
    rewrite !app_assoc. split; [done|]. split; [done|]. split; [done|]. split; [apply Hvisit|].
    split; [rewrite length_app; simpl; lia|done].
Qed.

(** The part of the file before what is left, read in front of it. *)
Lemma refill file buf bufstart offset n leftover (pre : list byte) :
  length buf = Z.to_nat bufsize → 0 ≤ bufstart → 0 ≤ n → 0 ≤ offset → 0 ≤ leftover → bufstart + n + leftover = bufsize →
  offset + n + leftover = zlength pre → take (length pre) file = pre →
  slice buf (bufsize - leftover) leftover = drop (Z.to_nat (offset + n)) pre →
  ∃ buf', read_at file offset buf bufstart n = Ret buf' ∧ length buf' = Z.to_nat bufsize ∧
    slice buf' bufstart (n + leftover) = drop (Z.to_nat offset) pre.
Proof using Type.
  unfold bufsize, BSIZE. intros Hl Hb Hn Ho Hlf Hsum Hp Hfile Hs. unfold read_at, bufsize, BSIZE.
  rewrite (proj2 (Z.leb_le 0 n)), (proj2 (Z.leb_le _ _)) by lia. simpl andb. cbv iota.
  assert (Hflen : (length pre ≤ length file)%nat) by (rewrite <- Hfile, length_take; lia).
  assert (Hsl : length (slice file offset n) = Z.to_nat n) by (apply slice_length; lia).
  eexists. split; [done|]. split; [rewrite store_length; lia|].
  apply list_eq. intros i. rewrite lookup_drop. destruct (decide (Z.of_nat i < n + leftover)) as [Hi|Hi].
  - rewrite slice_lookup, store_lookup, Hsl by lia. case_decide as Hd.
    + rewrite slice_lookup by lia. rewrite <- Hfile, lookup_take_lt by lia. f_equal. lia.
    + pose proof (slice_lookup buf (512 * 32 - leftover) leftover (Z.to_nat (Z.of_nat i - n)) ltac:(lia) ltac:(lia)) as E.
      rewrite Hs, lookup_drop in E.
      replace (Z.to_nat bufstart + i)%nat with (Z.to_nat (512 * 32 - leftover) + Z.to_nat (Z.of_nat i - n))%nat by lia.
      rewrite <- E. f_equal. lia.
  - rewrite !lookup_ge_None_2; [done|lia|]. rewrite slice_length by (rewrite ?store_length; lia). lia.
Qed.

(** The records visited in the end: the last ones, in reverse order. *)
Definition wanted (recnum : Z) (rs : list wlog_rec) : list wlog_rec :=
  if nrecs =? 0 then rev rs else take (Z.to_nat (nrecs - recnum)) (rev rs).

Lemma wanted_app recnum rs1 rs2 : nrecs = 0 ∨ recnum + zlength rs2 ≤ nrecs →
  wanted recnum (rs1 ++ rs2) = rev rs2 ++ wanted (recnum + zlength rs2) rs1.
Proof using nrecs_pos.
  intros H. unfold wanted. rewrite rev_app_distr. destruct (Z.eqb_spec nrecs 0); [done|].
  rewrite take_app_ge by (rewrite length_rev; lia). rewrite length_rev. do 2 f_equal. lia.
Qed.

Lemma visit_app a l1 l2 : visit a (l1 ++ l2) = visit (visit a l1) l2.
Proof using Type. apply foldl_app. Qed.

Lemma scan_file_ok fuel file buf bufstart offset leftover albuf recnum a rs ss :
  length buf = Z.to_nat bufsize → length albuf = 450%nat → Forall2 logged rs ss → 0 ≤ offset < Z.of_nat fuel →
  0 ≤ leftover < 130 → offset + leftover = zlength (concat ss) → zlength (concat ss) < 2 ^ 31 →
  take (length (concat ss)) file = concat ss → slice buf (bufsize - leftover) leftover = drop (Z.to_nat offset) (concat ss) →
  (0 < offset → bufstart = 0) → (offset = 0 → ss = []) → nrecs = 0 ∨ recnum < nrecs →
  scan_file func nrecs fuel true true file buf bufstart offset leftover albuf recnum a = Ret (Some (visit a (wanted recnum rs))).
Proof using func_continues nrecs_pos.
  intros Hb Ha Hrs Hfuel. revert buf bufstart offset leftover albuf recnum a rs ss Hb Ha Hrs Hfuel.
  induction fuel as [|fuel IH]; intros buf bufstart offset leftover albuf recnum a rs ss Hb Ha Hrs Hfuel Hlf Hsum Hmax
    Hfile Hslice Hstart Hzero Hrec; [lia|]. cbn [scan_file].
  assert (Hwant : want nrecs recnum = true) by (unfold want; destruct Hrec as [->|]; [done|]; apply orb_true_iff; right; by apply Z.ltb_lt).
  rewrite Hwant. cbn [andb]. destruct (Z.ltb_spec 0 offset) as [Hpos|Hpos]; cbn [negb].
  2:{ rewrite (Hzero ltac:(lia)) in Hrs. apply Forall2_nil_inv_r in Hrs as ->. unfold wanted. simpl. rewrite take_nil. by case_if. }
  change (2 ^ 31) with 2147483648 in Hmax. rewrite (u32_id offset), (u32_id leftover), u32_id by lia.
  set (next := if offset + leftover <? bufsize then (bufsize - (offset + leftover), 0)
               else (bufstart, s32 (offset - (bufsize - leftover)))).
  assert (Hnext : 0 ≤ next.1 ∧ 0 ≤ next.2 < offset ∧ next.1 + (bufsize - next.1 - leftover) + leftover = bufsize ∧
    0 ≤ bufsize - next.1 - leftover ∧ next.2 + (bufsize - next.1 - leftover) = offset ∧ (next.2 = 0 ∨ next.1 = 0)).
  { unfold next, bufsize, BSIZE in *. destruct (Z.ltb_spec (offset + leftover) (512 * 32)); cbn [fst snd]; [lia|].
    rewrite (Hstart Hpos). rewrite s32_id by lia. lia. }
  destruct next as [bs' off']. cbn [fst snd] in Hnext. destruct Hnext as (H1 & H2 & H3 & H4 & H5 & H6).
  destruct (refill file buf bs' off' (bufsize - bs' - leftover) leftover (concat ss)) as (buf' & -> & Hb' & Hs');
    try done; try lia; [by rewrite H5|].
  rewrite res_bind_ret. cbn [negb].
  destruct (scan_buf_ok (S (Z.to_nat bufsize)) buf' bs' (bufsize - bs') albuf recnum a rs ss off') as (res & E & Hres);
    try done; try lia.
  { replace (bufsize - bs') with (bufsize - bs' - leftover + leftover) by lia. done. }
  replace (bs' + (bufsize - bs')) with bufsize in E by lia. rewrite E, res_bind_ret.
  destruct res as [[[[buf2 lf2] al2] rn2] a2].
  destruct Hres as (Hb2 & Ha2 & rs1 & rs2 & ss1 & ss2 & -> & -> & Hl1 & -> & Hn2 & Hcase).
  destruct Hcase as [[Hnz Heq]|(Hrec2 & Hsum2 & Hlf2 & Hslice2 & Hzero2)].
  - assert (Hw : want nrecs rn2 = false) by (unfold want; rewrite Heq, Z.ltb_irrefl, orb_false_r; by apply Z.eqb_neq).
    destruct fuel; [lia|]. cbn [scan_file]. rewrite Hw. cbn [andb negb]. rewrite wanted_app by (right; lia).
    rewrite visit_app. do 2 f_equal. unfold wanted. rewrite (proj2 (Z.eqb_neq nrecs 0)) by done.
    replace (Z.to_nat (nrecs - (recnum + zlength rs2))) with 0%nat by lia. done.
  - rewrite (IH buf2 bs' off' lf2 al2 rn2 (visit a (rev rs2)) rs1 ss1); try done; try lia.
    + rewrite wanted_app, visit_app, <- Hn2 by (destruct Hrec2; [by left|right; lia]). done.
    + rewrite concat_app, length_app in Hmax. lia.
    + rewrite concat_app in Hfile. apply (f_equal (take (length (concat ss1)))) in Hfile.
      rewrite take_take, take_app_length, length_app, Nat.min_l in Hfile by lia. done.
Qed.
End scanning.

(** ** Properties *)

(** Records written one after the other, each with what the stack held before. *)
Fixpoint write_all (l : list (wlog_rec * list byte)) (file : list byte) : res (list byte) :=
  match l with
  | [] => Ret file
  | (r, wbuf) :: l => x ← wlog_record_write env_ok wbuf r (-1) file; write_all l x.2
  end.

Definition writable (x : wlog_rec * list byte) : Prop :=
  rec_ok x.1 ∧ reclen x.1 < 128 ∧ length x.2 = 452%nat ∧ Forall is_byte x.2.

Lemma write_all_ok l file : Forall writable l → zlength file + 130 * zlength l < 2 ^ 31 →
  ∃ ss, write_all l file = Ret (file ++ concat ss) ∧ Forall2 logged (map fst l) ss ∧ zlength (concat ss) ≤ 130 * zlength l.
Proof.
  intros Hl. revert file. induction Hl as [|[r wbuf] l (Hr & Hlen & Hw & Hb) Hl IH]; intros file Hmax; cbn [write_all].
  - exists []. by rewrite app_nil_r.
  - simpl in Hr, Hlen, Hw, Hb. cbn [length] in Hmax. destruct (append_ok r wbuf file Hr Hw Hb ltac:(lia)) as (bs & Hbs & ->).
    rewrite res_bind_ret. cbn [snd].
    assert (Hlog : logged r bs) by done. destruct (logged_bytes r bs Hlog) as (b & _ & Ebs & Hlb & Hrange).
    assert (zlength bs = reclen r + 2) by (rewrite Ebs, length_app; simpl; lia).
    destruct (IH (file ++ bs)) as (ss & -> & Hss & Hmaxs); [rewrite length_app; lia|].
    exists (bs :: ss). cbn [concat map fst length]. rewrite app_assoc. split; [done|]. split; [by constructor|].
    rewrite length_app. lia.
Qed.

(** A log of such records is read back. *)
Lemma scan_logged {A} (func : wlog_rec → A → A * Z) nrecs rs ss buf albuf a :
  (∀ r a, (func r a).2 ≠ WLOG_STOP_SCAN) → 0 ≤ nrecs → Forall2 logged rs ss → zlength (concat ss) < 2 ^ 31 →
  length buf = Z.to_nat bufsize → length albuf = 450%nat →
  wlog_scan_backward func nrecs true true (concat ss) buf albuf a =
  Ret (Some (visit func a (if nrecs =? 0 then rev rs else take (Z.to_nat nrecs) (rev rs)))).
Proof.
  intros Hfunc Hn Hss Hlen Hbuf Halbuf. unfold wlog_scan_backward. cbn [negb]. change (2 ^ 31) with 2147483648 in *. rewrite s32_id by lia.
  rewrite (scan_file_ok func nrecs Hfunc Hn _ _ _ _ _ _ _ _ _ rs ss); try done; try lia.
  - unfold wanted. by rewrite Z.sub_0_r.
  - by rewrite firstn_all.
  - rewrite Nat2Z.id, drop_all. unfold slice. done.
  - intros Hz. destruct Hss as [|r s rs ss' Hlog _]; [done|]. destruct (logged_bytes r s Hlog) as (b & _ & -> & _ & _).
    cbn [concat] in Hz. rewrite !length_app in Hz. simpl in Hz. lia.
Qed.

(** C26: What is written to an empty log is found again, for records whose fields fit
    their bits on disk (a pid of 17 bits) and that take fewer than 128 bytes (longer ones
    cannot be scanned, [long_record_undefined]): scanning the log backwards calls the
    user's function, when it never asks to stop ([stop_ignored]), with the records as
    they were given to [wlog_record_write], the last one first, all of them or the last
    [nrecs], whatever the size of the log up to 2^31 bytes and however the records lie
    across the buffers of 16 kB. *)
Theorem write_scan_roundtrip {A} (func : wlog_rec → A → A * Z) nrecs l buf albuf a
  (Hfunc : ∀ r a, (func r a).2 ≠ WLOG_STOP_SCAN) (Hn : 0 ≤ nrecs) (Hl : Forall writable l)
  (Hmax : 130 * zlength l < 2 ^ 31) (Hbuf : length buf = Z.to_nat bufsize) (Halbuf : length albuf = 450%nat) :
  ∃ file, write_all l [] = Ret file ∧
    wlog_scan_backward func nrecs true true file buf albuf a =
    Ret (Some (visit func a (if nrecs =? 0 then rev (map fst l) else take (Z.to_nat nrecs) (rev (map fst l))))).
Proof.
  destruct (write_all_ok l []) as (ss & E & Hss & Hlen); [done|simpl length; lia|]. cbn [app] in E.
  exists (concat ss). split; [done|]. change (2 ^ 31) with 2147483648 in *. by apply scan_logged; [..|lia|done|done].
Qed.

(** The two bytes at the end of a log, as signed characters. *)
Lemma length_bytes buf file b n : length buf = Z.to_nat bufsize → file = b ++ [0; n] → 128 ≤ n < 256 →
  slice buf (bufsize - zlength file) (zlength file) = file →
  char_at buf (bufsize - 2) = Ret 0 ∧ char_at buf (bufsize - 1) = Ret (n - 256).
Proof.
  intros Hl -> Hn Hs. rewrite length_app in Hs. cbn [length] in Hs.
  assert (Hlen : (length b + 2 ≤ Z.to_nat bufsize)%nat).
  { apply (f_equal length) in Hs. rewrite length_app in Hs. unfold slice in Hs. rewrite length_take, length_drop in Hs. simpl in Hs. lia. }
  assert (Hget : ∀ i : nat, (i < 2)%nat → buf !! Z.to_nat (bufsize - 2 + Z.of_nat i) = [0; n] !! i).
  { intros i Hi. unfold bufsize, BSIZE in *.
    assert (E : (b ++ [0; n]) !! (length b + i)%nat = [0; n] !! i) by (rewrite lookup_app_r by lia; f_equal; lia).
    rewrite <- E, <- Hs, slice_lookup by lia. f_equal. lia. }
  pose proof (Hget 0%nat ltac:(lia)) as G0. pose proof (Hget 1%nat ltac:(lia)) as G1. unfold char_at, bufsize, BSIZE in *.
  rewrite (mem_get_lookup buf (512 * 32 - 2) 0), (mem_get_lookup buf (512 * 32 - 1) n), !res_bind_ret
    by (lia || exact G0 || exact G1).
  rewrite (s8_id 0) by lia. split; [done|]. f_equal. unfold s8, wrap_s. change (2 ^ (8 - 1)) with 128. change (2 ^ 8) with 256. zlia.
Qed.

(** A record whose length is 128 bytes or more cannot be read back: the bytes of the length
    are signed characters, and the copy of the record gets a negative length. *)
Theorem long_record_undefined {A} (func : wlog_rec → A → A * Z) r wbuf buf albuf a
  (Hr : rec_ok r) (Hlong : 128 ≤ reclen r) (Hw : length wbuf = 452%nat) (Hb : Forall is_byte wbuf)
  (Hbuf : length buf = Z.to_nat bufsize) :
  ∃ file, write_all [(r, wbuf)] [] = Ret file ∧ wlog_scan_backward func 0 true true file buf albuf a = Undef.
Proof.
  cbn [write_all]. destruct (append_ok r wbuf [] Hr Hw Hb ltac:(simpl; lia)) as (bs & (b & Henc & ->) & ->).
  rewrite res_bind_ret. cbn [snd app]. eexists. split; [done|].
  pose proof (encodes_length _ _ Hr Henc) as Hlen.
  assert (Hmax : reclen r ≤ 226) by (destruct Hr; unfold reclen, sizeof_disk; lia).
  rewrite Z.div_small, (Z.mod_small (reclen r)) by lia. change (0 mod 256) with 0.
  set (file := b ++ [0; reclen r]). assert (Hf : zlength file = reclen r + 2) by (unfold file; rewrite length_app; simpl; lia).
  unfold wlog_scan_backward. cbn [negb]. rewrite s32_id by lia. cbn [scan_file]. unfold want. cbn [Z.eqb orb andb].
  rewrite (proj2 (Z.ltb_lt 0 _)) by lia. cbn [negb]. rewrite (u32_id 0), Z.add_0_r, !u32_id by (rewrite ?u32_id; lia).
  rewrite (proj2 (Z.ltb_lt _ bufsize)) by (unfold bufsize, BSIZE; lia). rewrite Z.add_0_r.
  destruct (refill file buf (bufsize - zlength file) 0 (zlength file) 0 file) as (buf' & E & Hb' & Hs);
    try done; try (unfold bufsize, BSIZE; lia); [by rewrite firstn_all|by rewrite Z.add_0_l, Nat2Z.id, drop_all|].
  replace (bufsize - (bufsize - zlength file) - 0) with (zlength file) by lia. rewrite E, res_bind_ret. cbn [negb].
  generalize (Z.to_nat bufsize). intros fuel. cbn [scan_buf].
  rewrite (proj2 (Z.ltb_ge bufsize _)) by lia. replace (bufsize - (bufsize - zlength file)) with (zlength file) by lia.
  rewrite (proj2 (Z.ltb_ge (zlength file) 2)) by lia.
  destruct (length_bytes buf' file b (reclen r)) as [E1 E2]; [done|done|lia|by rewrite Z.add_0_r in Hs|].
  rewrite E1, E2, !res_bind_ret. replace (0 * 256 + (reclen r - 256)) with (reclen r - 256) by lia.
  rewrite (proj2 (Z.ltb_ge (zlength file) _)) by lia.
  unfold memcpy, mem_read, in_bounds. rewrite (proj2 (Z.leb_gt 0 (reclen r - 256))) by lia. by rewrite andb_false_r.
Qed.

(** A record that is written over an earlier one. *)
Lemma overlay_ok r r' wbuf pre bs post
  (Hr : rec_ok r) (Hr' : rec_ok r') (Hbs : stored r bs) (Htext : text r' = text r) (Hlen : reclen r' = reclen r)
  (Hw : length wbuf = 452%nat) (Hb : Forall is_byte wbuf) (Hpre : zlength pre < 2 ^ 31) :
  ∃ bs', wlog_record_write env_ok wbuf r' (zlength pre) (pre ++ bs ++ post) = Ret (zlength pre, pre ++ bs' ++ post) ∧
    stored r' bs'.
Proof.
  destruct Hbs as (b & (d & Hd & ->) & ->). destruct (header_ok r' wbuf Hr' Hw Hb) as (d' & m & Hd' & Hs & Hm & Hpack).
  exists ((disk_bytes d' ++ text r') ++ [reclen r' / 256 mod 256; reclen r' mod 256]). split; [|by exists (disk_bytes d' ++ text r'); split; [exists d'|]].
  unfold wlog_record_write. rewrite (proj2 (Z.ltb_ge (zlength pre) 0)) by lia. rewrite (Hpack false), res_bind_ret.
  cbn [seek_ok write_ok env_ok negb]. change sizeof_disk with (zlength (disk_bytes d')).
  rewrite starts_read by (done || (rewrite Hm; simpl; lia)). rewrite res_bind_ret, s32_id by lia. do 2 f_equal.
  unfold pwrite. rewrite Z2Nat.nonpos, app_nil_r by (rewrite length_app; lia). unfold store. rewrite Nat2Z.id.
  rewrite take_app_length, <- !app_assoc, Htext, Hlen. f_equal. f_equal.
  rewrite drop_app_ge by lia. replace (length pre + length (disk_bytes d') - length pre)%nat with (length (disk_bytes d)) by (simpl; lia).
  apply drop_app_length.
Qed.

(** Overlaying a record updates it in place: when a record of the same lengths
    and texts (with [w_done] set, say) is written at the offset of an earlier one,
    its values are replaced and the rest of the log, the text and the length at the
    end of the record included, stays. *)
Theorem overlay_updates r r' wbuf pre bs post
  (Hr : rec_ok r) (Hr' : rec_ok r') (Hbs : stored r bs) (Htext : text r' = text r) (Hlen : reclen r' = reclen r)
  (Hw : length wbuf = 452%nat) (Hb : Forall is_byte wbuf) (Hpre : zlength pre < 2 ^ 31) :
  ∃ bs', wlog_record_write env_ok wbuf r' (zlength pre) (pre ++ bs ++ post) = Ret (zlength pre, pre ++ bs' ++ post) ∧
    stored r' bs'.
Proof. exact (overlay_ok r r' wbuf pre bs post Hr Hr' Hbs Htext Hlen Hw Hb Hpre). Qed.

(** ** Limits of the format *)

Definition zeros (n : nat) : list byte := replicate n 0.
Definition ex_rec (pid : Z) (path : list byte) : wlog_rec :=
  Rec pid 4096 512 1 0 0 (zeros 9) 0 (path ++ zeros (129 - length path)) (zlength path) (zeros 65) 0.

(** A path of WLOG_MAX_PATH bytes is lost, its length does not fit the field of
    seven bits; so is a process id above 131071. *)
Example max_path_lost :
  ∃ m, wlog_rec_pack (ex_rec 131073 (replicate 128 97)) (zeros 452) true = Ret (m, sizeof_disk) ∧
    d_pathlen (disk_of m) = 0 ∧ d_pid (disk_of m) = 1.
Proof. eexists. split; [vm_compute; reflexivity|]. split; vm_compute; reflexivity. Qed.

(** A function that asks to stop is called again when the log is larger than the
    buffer: only the inner loop ends. *)
Example stop_ignored :
  match write_all (replicate 600 (ex_rec 7 [], zeros 452)) [] with
  | Ret file => wlog_scan_backward (λ _ n, (n + 1, WLOG_STOP_SCAN)) 0 true true file (zeros 16384) (zeros 450) 0
  | _ => Undef
  end = Ret (Some 2).
Proof. vm_compute. reflexivity. Qed.

(** ** Witnesses *)

Lemma ex_rec_ok pid n path : path = replicate n 97 → (n ≤ 127)%nat → in_u 17 pid → rec_ok (ex_rec pid path).
Proof.
  intros -> Hn Hp. assert (H0 : ∀ k, Forall is_byte (zeros k)) by (intros; apply Forall_replicate; unfold is_byte; lia).
  assert (Hz : ∀ k, (0 < k)%nat → padded (Z.of_nat k) 0 (zeros k)).
  { intros. split; [by unfold zeros; rewrite length_replicate| |apply H0].
    change (take (Z.to_nat 0) (zeros k)) with (@nil Z). unfold zeros. simpl. f_equal. lia. }
  split; [exact Hp| | | | | |apply (Hz 9%nat); lia| |apply (Hz 65%nat); lia| | |]; simpl; rewrite ?length_replicate;
    try (unfold in_s, in_u; simpl; lia); try lia.
  split.
  - rewrite length_app, length_replicate. unfold zeros. rewrite length_replicate. lia.
  - rewrite Nat2Z.id, take_app_length' by (by rewrite length_replicate). unfold zeros. do 2 f_equal. lia.
  - apply Forall_app. split; [|apply H0]. apply Forall_replicate. unfold is_byte. lia.
Qed.

Lemma ex_bytes n : Forall is_byte (zeros n).
Proof. apply Forall_replicate. unfold is_byte. lia. Qed.

Lemma ex_writable pid n : (n ≤ 99)%nat → in_u 17 pid → writable (ex_rec pid (replicate n 97), zeros 452).
Proof.
  intros Hn Hp. split; [apply (ex_rec_ok pid n); [done|lia|done]|]. split; [|by split; [|apply ex_bytes]].
  unfold reclen. simpl. rewrite length_replicate. unfold sizeof_disk. lia.
Qed.

Definition ex_log : list (wlog_rec * list byte) := [(ex_rec 1 [97], zeros 452); (ex_rec 2 [], zeros 452)].

Lemma write_scan_roundtrip_witness :
  ∃ file, write_all ex_log [] = Ret file ∧
    wlog_scan_backward (λ r l, (l ++ [w_pid r], 1)) 0 true true file (zeros (Z.to_nat bufsize)) (zeros 450) [] =
    Ret (Some [2; 1]).
Proof.
  apply (write_scan_roundtrip (λ r l, (l ++ [w_pid r], 1)) 0 ex_log (zeros (Z.to_nat bufsize)) (zeros 450) []).
  - intros. discriminate.
  - lia.
  - apply Forall_cons. split; [apply (ex_writable 1 1)|apply Forall_cons; split; [apply (ex_writable 2 0)|apply Forall_nil; done]];
      (lia || unfold in_u; simpl; lia).
  - reflexivity.
  - apply length_replicate.
  - reflexivity.
Defined.

Lemma long_record_undefined_witness :
  ∃ file, write_all [(ex_rec 1 (replicate 100 97), zeros 452)] [] = Ret file ∧
    wlog_scan_backward (λ r n, (n + 1, 1)) 0 true true file (zeros (Z.to_nat bufsize)) (zeros 450) 0 = Undef.
Proof.
  apply (long_record_undefined (λ r n, (n + 1, 1)) (ex_rec 1 (replicate 100 97)) (zeros 452)).
  - apply (ex_rec_ok 1 100); [reflexivity|lia|unfold in_u; simpl; lia].
  - vm_compute. discriminate.
  - reflexivity.
  - apply ex_bytes.
  - apply length_replicate.
Defined.

Lemma overlay_updates_witness :
  ∃ bs bs', stored (ex_rec 1 []) bs ∧ stored (ex_rec 5 []) bs' ∧
    wlog_record_write env_ok (zeros 452) (ex_rec 5 []) 2 ([1; 2] ++ bs ++ [3]) = Ret (2, [1; 2] ++ bs' ++ [3]).
Proof.
  assert (H1 : rec_ok (ex_rec 1 [])) by (apply (ex_rec_ok 1 0); [reflexivity|lia|unfold in_u; simpl; lia]).
  assert (H5 : rec_ok (ex_rec 5 [])) by (apply (ex_rec_ok 5 0); [reflexivity|lia|unfold in_u; simpl; lia]).
  destruct (append_ok (ex_rec 1 []) (zeros 452) [] H1 eq_refl (ex_bytes 452) ltac:(simpl; lia)) as (bs & Hbs & _).
  destruct (overlay_updates (ex_rec 1 []) (ex_rec 5 []) (zeros 452) [1; 2] bs [3] H1 H5 Hbs eq_refl eq_refl eq_refl
    (ex_bytes 452) ltac:(simpl; lia)) as (bs' & E & Hbs').
  exists bs, bs'. split; [exact Hbs|]. split; [exact Hbs'|exact E].
Defined.
