(* ===== verification/Kver.v ===== *)
(** * Kernel versions

    lib/tst_kvercmp.c: parsing the version of the running kernel and comparing it
    with the one a test asks for.  What [uname] reports is an argument; the
    results the functions report are returned with their value. *)

From S2P Require Import Prelude CInt CMem CString Names.
Local Open Scope Z_scope.

(** A result passed to tst_resm: its type and its message. *)
Definition report : Type := Z * cstr.

(** The rest of the text behind the dot, if all went well, and [*d]. *)
Definition parse_digit (s : cstr) (d : Z) : option cstr * Z :=
  let '(v, end_) := strtoul 10 s in
  if (length s =? length end_)%nat then (None, d)
  else if INT_MAX <? v then (None, d)
  else match end_ with
       | c :: r => if c =c "."%char then (Some r, v) else (None, v)
       | [] => (None, v)
       end.

Definition invalid_kver (str_kver : cstr) : list report :=
  [(TWARN, str "Invalid kernel version " ++ str_kver ++ str ", expected %d.%d.%d")].

Definition tst_parse_kver (str_kver : cstr) : Z * Z * Z * list report :=
  let '(r1, v1) := parse_digit str_kver 0 in
  match r1 with
  | None => (v1, 0, 0, invalid_kver str_kver)
  | Some s =>
      let '(r2, v2) := parse_digit s 0 in
      match r2 with
      | None => (v1, v2, 0, invalid_kver str_kver)
      | Some s => let '(_, v3) := parse_digit s 0 in (v1, v2, v3, [])
      end
  end.

(** [v << n] of an [int]. *)
Definition shl32 (v n : Z) : res Z := if v <? 0 then Undef else ck32 (v * 2 ^ n).

(** [(v1 << 16) + (v2 << 8) + v3] *)
Definition pack_version (v1 v2 v3 : Z) : res Z :=
  a ← shl32 v1 16;
  b ← shl32 v2 8;
  ab ← ck32 (a + b);
  ck32 (ab + v3).

Definition tst_kvercmp (release : cstr) (r1 r2 r3 : Z) : res (Z * list report) :=
  let '(a1, a2, a3, rep) := tst_parse_kver release in
  testver ← pack_version r1 r2 r3;
  currver ← pack_version a1 a2 a3;
  d ← ck32 (currver - testver);
  Ret (d, rep).

(** [%d] of sscanf: the value and the rest. *)
Definition scan_d (s : cstr) : option (Z * cstr) :=
  let '(_, ds, rest) := scan_number 10 s in
  match ds with [] => None | _ => Some (atoi s, rest) end.

(** The values sscanf assigns for a [%d] before and after each of the characters. *)
Fixpoint scan_ds (seps : list ascii) (s : cstr) : list Z :=
  match scan_d s with
  | None => []
  | Some (v, rest) =>
      v :: match seps, rest with
           | c :: seps, x :: rest => if x =c c then scan_ds seps rest else []
           | _, _ => []
           end
  end.

(** ["%d.%d.%d-%d.%d"] *)
Definition exv_seps : list ascii := ["."; "."; "-"; "."]%char.
Definition scan_exv (s : cstr) : list Z := take 5 (scan_ds exv_seps s ++ replicate 5 0).

(** The first difference that is not 0. *)
Fixpoint first_diff (c t : list Z) : res Z :=
  match c, t with
  | [c], [t] => ck32 (c - t)
  | c :: cs, t :: ts => ret ← ck32 (c - t); if negb (ret =? 0) then Ret ret else first_diff cs ts
  | _, _ => Ret 0
  end.

Definition tst_kexvcmp (tst_exv cur_ver : cstr) : res Z := first_diff (scan_exv cur_ver) (scan_exv tst_exv).

Record tst_kern_exv : Type := Exv { dist_name : cstr; extra_ver : cstr }.

Definition cur_dist_name (kver : cstr) : option cstr :=
  if strstr kver (str ".el5uek") then Some (str "OL5UEK")
  else if strstr kver (str ".el5") then Some (str "RHEL5")
  else if strstr kver (str ".el6uek") then Some (str "OL6UEK")
  else if strstr kver (str ".el6") then Some (str "RHEL6")
  else None.

Fixpoint find_exv (vers : list tst_kern_exv) (name : cstr) : option tst_kern_exv :=
  match vers with
  | [] => None
  | v :: vers => if bool_decide (dist_name v = name) then Some v else find_exv vers name
  end.

Definition tst_kvercmp2 (kver : cstr) (r1 r2 r3 : Z) (vers : list tst_kern_exv) : res (Z * list report) :=
  match cur_dist_name kver with
  | None => tst_kvercmp kver r1 r2 r3
  | Some name =>
      match find_exv vers name with
      | Some v =>
          d ← tst_kexvcmp (extra_ver v) kver;
          Ret (d, [(TINFO, str "Detected " ++ name ++ str " using kernel version " ++ kver)])
      | None => tst_kvercmp kver r1 r2 r3
      end
  end.

(** ** Specification *)

(** The order of versions: number by number. *)
Fixpoint ver_compare (a b : list Z) : comparison :=
  match a, b with
  | x :: a, y :: b => match x ?= y with Eq => ver_compare a b | c => c end
  | _, _ => Eq
  end.

(** The text behind the last number is empty or does not go on with a digit. *)
Definition ends (rest : cstr) : Prop :=
  match rest with [] => True | x :: _ => is_base 10 x = false ∧ (x =c "x"%char) = false ∧ (x =c "X"%char) = false end.

Definition dot : cstr := ["."%char].
Definition kver_text (a b c : Z) (rest : cstr) : cstr :=
  digits 10 a ++ dot ++ digits 10 b ++ dot ++ digits 10 c ++ rest.
Definition exv_text (a b c d e : Z) (rest : cstr) : cstr :=
  digits 10 a ++ dot ++ digits 10 b ++ dot ++ digits 10 c ++ ["-"%char] ++ digits 10 d ++ dot ++ digits 10 e ++ rest.
Definition version (v : Z) : Prop := 0 ≤ v ≤ INT_MAX.

(** ** Parsing *)

Lemma scan_version v rest : version v → ends rest → scan_number 10 (digits 10 v ++ rest) = (false, digits 10 v, rest).
Proof.
  intros [? _] Hr. destruct (digits_spec 10 v ltac:(lia) ltac:(lia)) as (? & ? & _). by apply scan_number_digits.
Qed.

Lemma parse_digit_ok v d rest : version v → ends rest →
  parse_digit (digits 10 v ++ rest) d =
  (match rest with c :: r => if c =c "."%char then Some r else None | [] => None end, v).
Proof.
  intros Hv Hr. destruct (digits_spec 10 v ltac:(lia) (proj1 Hv)) as (Hne & _ & Hval).
  unfold parse_digit, strtoul. rewrite scan_version by done.
  destruct (digits 10 v) as [|x ds] eqn:E; [done|]. unfold version, INT_MAX, ULONG_MAX in *.
  rewrite Hval, (proj2 (Z.ltb_ge _ v)) by lia.
  rewrite (proj2 (Nat.eqb_neq _ _)) by (rewrite length_app; simpl; lia).
  rewrite (proj2 (Z.ltb_ge _ v)) by lia. destruct rest as [|c r]; [done|]. by destruct (c =c "."%char).
Qed.

Lemma ends_dot t : ends (dot ++ t).
Proof. done. Qed.

Lemma parse_kver_ok a b c rest : version a → version b → version c → ends rest →
  tst_parse_kver (kver_text a b c rest) = (a, b, c, []).
Proof.
  intros. unfold tst_parse_kver, kver_text.
  rewrite parse_digit_ok by (done || apply ends_dot). cbn [app dot]. rewrite eqc_refl.
  change ("."%char :: digits 10 c ++ rest) with (dot ++ digits 10 c ++ rest).
  rewrite parse_digit_ok by (done || apply ends_dot). cbn [app dot]. rewrite eqc_refl.
  by rewrite parse_digit_ok.
Qed.

Lemma pack_version_ok a b c : 0 ≤ a ≤ 32767 → 0 ≤ b ≤ 255 → 0 ≤ c ≤ 255 → pack_version a b c = Ret (a * 65536 + b * 256 + c).
Proof.
  intros. unfold pack_version, shl32. rewrite !(proj2 (Z.ltb_ge _ 0)) by lia.
  change (2 ^ 16) with 65536. change (2 ^ 8) with 256.
  repeat (rewrite ck32_ok by (unfold INT_MIN, INT_MAX; lia); rewrite ?res_bind_ret). done.
Qed.

Lemma scan_ds_ok v seps rest : version v → ends rest →
  scan_ds seps (digits 10 v ++ rest) =
  v :: match seps, rest with c :: seps, x :: rest => if x =c c then scan_ds seps rest else [] | _, _ => [] end.
Proof.
  intros Hv Hr. destruct (digits_spec 10 v ltac:(lia) (proj1 Hv)) as (Hne & _ & _).
  assert (E : scan_d (digits 10 v ++ rest) = Some (v, rest)).
  { unfold scan_d. rewrite scan_version, atoi_digits by (try done; destruct rest; naive_solver). by destruct (digits 10 v). }
  destruct seps; simpl; by rewrite E.
Qed.

Lemma scan_exv_ok a b c d e rest : Forall version [a; b; c; d; e] → ends rest →
  scan_exv (exv_text a b c d e rest) = [a; b; c; d; e].
Proof.
  intros Hv Hr. decompose_Forall. unfold scan_exv, exv_text, exv_seps.
  rewrite scan_ds_ok by (done || apply ends_dot). cbn [app dot]. rewrite eqc_refl.
  change ("."%char :: digits 10 c ++ ?t) with (dot ++ digits 10 c ++ t).
  rewrite scan_ds_ok by (done || apply ends_dot). cbn [app dot]. rewrite eqc_refl.
  rewrite scan_ds_ok by done. rewrite eqc_refl.
  rewrite scan_ds_ok by done. rewrite eqc_refl.
  by rewrite scan_ds_ok.
Qed.

Lemma first_diff_ok c t : Forall version c → Forall version t → length c = length t →
  ∃ d, first_diff c t = Ret d ∧ (d ?= 0) = ver_compare c t.
Proof.
  revert t. induction c as [|x c IH]; intros [|y t] Hc Ht Hl; try done; [by exists 0|].
  apply Forall_cons in Hc as [Hx Hc]. apply Forall_cons in Ht as [Hy Ht]. unfold version in *.
  destruct (IH t Hc Ht ltac:(simpl in Hl; lia)) as (d & E & Hd).
  assert (Hck : ck32 (x - y) = Ret (x - y)) by (apply ck32_ok; unfold INT_MIN; unfold INT_MAX in *; lia).
  assert (Hz : ∀ z, z = x - y → z ≠ 0 → (z ?= 0) = match x ?= y with Eq => ver_compare c t | k => k end).
  { intros z -> Hz. rewrite (Z.compare_sub x y). destruct (Z.compare_spec (x - y) 0); [lia|done..]. }
  assert (Hgo : ∃ d, (ret ← ck32 (x - y); if negb (ret =? 0) then Ret ret else first_diff c t) = Ret d ∧
    (d ?= 0) = match x ?= y with Eq => ver_compare c t | k => k end).
  { rewrite Hck, res_bind_ret. destruct (Z.eqb_spec (x - y) 0) as [E0|E0]; simpl; [|eauto].
    exists d. split; [done|]. rewrite (proj2 (Z.compare_eq_iff x y)) by lia. done. }
  destruct c as [|x' c], t as [|y' t]; try done. simpl. exists (x - y). split; [done|].
  rewrite (Z.compare_sub x y). by destruct (x - y ?= 0).
Qed.

(** ** Properties *)

(** On a kernel of version a.b.c, whatever follows, tst_kvercmp tells whether
    the kernel is older than, the same as or newer than the version asked for, and
    reports nothing, as long as the second and third numbers fit a byte. *)
Theorem kvercmp_spec a b c rest r1 r2 r3
  (Ha : 0 ≤ a ≤ 32767) (Hb : 0 ≤ b ≤ 255) (Hc : 0 ≤ c ≤ 255) (Hrest : ends rest)
  (Hr1 : 0 ≤ r1 ≤ 32767) (Hr2 : 0 ≤ r2 ≤ 255) (Hr3 : 0 ≤ r3 ≤ 255) :
  ∃ d, tst_kvercmp (kver_text a b c rest) r1 r2 r3 = Ret (d, []) ∧ (d ?= 0) = ver_compare [a; b; c] [r1; r2; r3].
Proof.
  unfold tst_kvercmp. rewrite parse_kver_ok by (done || unfold version, INT_MAX; lia).
  rewrite !pack_version_ok, !res_bind_ret by lia. rewrite ck32_ok by (unfold INT_MIN, INT_MAX; lia).
  eexists. split; [done|]. simpl.
  destruct (Z.compare_spec a r1); [|apply Z.compare_lt_iff; lia|apply Z.compare_gt_iff; lia].
  destruct (Z.compare_spec b r2); [|apply Z.compare_lt_iff; lia|apply Z.compare_gt_iff; lia].
  destruct (Z.compare_spec c r3); [apply Z.compare_eq_iff; lia|apply Z.compare_lt_iff; lia|apply Z.compare_gt_iff; lia].
Qed.

(** On a distribution's kernel a.b.c-d.e, when the test names a version of that
    distribution, tst_kvercmp2 compares all five numbers in turn. *)
Theorem kvercmp2_spec a b c d e rest t1 t2 t3 t4 t5 rest' name vers r1 r2 r3
  (Hk : Forall version [a; b; c; d; e]) (Ht : Forall version [t1; t2; t3; t4; t5]) (Hr : ends rest) (Hr' : ends rest')
  (Hdist : cur_dist_name (exv_text a b c d e rest) = Some name)
  (Hfind : find_exv vers name = Some (Exv name (exv_text t1 t2 t3 t4 t5 rest'))) :
  ∃ n rep, tst_kvercmp2 (exv_text a b c d e rest) r1 r2 r3 vers = Ret (n, [(TINFO, rep)]) ∧
    (n ?= 0) = ver_compare [a; b; c; d; e] [t1; t2; t3; t4; t5].
Proof.
  unfold tst_kvercmp2. rewrite Hdist, Hfind. unfold tst_kexvcmp. cbn [extra_ver].
  rewrite !scan_exv_ok by done.
  destruct (first_diff_ok [a; b; c; d; e] [t1; t2; t3; t4; t5]) as (n & -> & Hn); [done..|]. eauto.
Qed.

(** A version with two numbers, which the comment names as one that must not fail,
    is reported as invalid. *)
Example two_numbers_warn : (tst_parse_kver (str "2.4")).2 ≠ [] ∧ (tst_parse_kver (str "2.4")).1 = (2, 4, 0).
Proof. by split; vm_compute. Qed.

(** A third number above 255 counts as the next second number. *)
Example patch_level_spills : tst_kvercmp (str "4.4.256") 4 5 0 = Ret (0, []).
Proof. by vm_compute. Qed.

(** ** Witnesses *)

Lemma kvercmp_spec_witness :
  ∃ d, tst_kvercmp (kver_text 4 4 21 (str "-69-default")) 4 5 0 = Ret (d, []) ∧ (d ?= 0) = Lt.
Proof. apply (kvercmp_spec 4 4 21 (str "-69-default") 4 5 0); [lia..|done|lia|lia|lia]. Defined.

Lemma kvercmp2_spec_witness :
  ∃ n rep, tst_kvercmp2 (exv_text 2 6 32 220 1 (str ".el6.x86_64")) 2 6 33
             [Exv (str "RHEL5") (str "2.6.18"); Exv (str "RHEL6") (exv_text 2 6 32 131 0 [])] = Ret (n, [(TINFO, rep)]) ∧
    (n ?= 0) = Gt.
Proof.
  apply (kvercmp2_spec 2 6 32 220 1 (str ".el6.x86_64") 2 6 32 131 0 [] (str "RHEL6")
    [Exv (str "RHEL5") (str "2.6.18"); Exv (str "RHEL6") (exv_text 2 6 32 131 0 [])] 2 6 33).
  - repeat (apply Forall_cons; split; [unfold version, INT_MAX; lia|]). apply Forall_nil. done.
  - repeat (apply Forall_cons; split; [unfold version, INT_MAX; lia|]). apply Forall_nil. done.
  - done.
  - done.
  - vm_compute. reflexivity.
  - vm_compute. reflexivity.
Defined.
