(* ===== verification/Timer.v ===== *)
(** * Timers

    include/tst_timer.h and lib/tst_timer.c: arithmetic on [struct timespec] and the
    measurement of an elapsed time.  [time_t] and [long] have 64 bits; overflow is
    undefined.  The readings of the clocks are inputs. *)

From S2P Require Import Prelude CInt CString Names.
Local Open Scope Z_scope.

Record timespec : Type := Timespec { tv_sec : Z; tv_nsec : Z }.
Record timeval : Type := Timeval { tvl_sec : Z; tv_usec : Z }.

(** ** Conversions *)

Definition tst_timespec_to_us (t : timespec) : res Z :=
  a ← ck64 (tv_sec t * 1000000);
  b ← ck64 (tv_nsec t + 500);
  ck64 (a + b %/ 1000).

Definition tst_timespec_to_ms (t : timespec) : res Z :=
  a ← ck64 (tv_sec t * 1000);
  b ← ck64 (tv_nsec t + 500000);
  ck64 (a + b %/ 1000000).

Definition tst_ms_to_timeval (ms : Z) : timeval := Timeval (ms %/ 1000) ((ms %% 1000) * 1000).

Definition tst_us_to_timeval (us : Z) : timeval := Timeval (us %/ 1000000) (us %% 1000000).

(** ** Comparison and arithmetic *)

Definition tst_timespec_lt (t1 t2 : timespec) : bool :=
  if tv_sec t1 =? tv_sec t2 then tv_nsec t1 <? tv_nsec t2 else tv_sec t1 <? tv_sec t2.

Definition tst_timespec_add_us (t : timespec) (us : Z) : res timespec :=
  sec ← ck64 (tv_sec t + us %/ 1000000);
  nsec ← ck64 (tv_nsec t + (us %% 1000000) * 1000);
  if 1000000000 <=? nsec then sec ← ck64 (sec + 1); Ret (Timespec sec (nsec - 1000000000))
  else Ret (Timespec sec nsec).

Definition tst_timespec_diff (t1 t2 : timespec) : res timespec :=
  sec ← ck64 (tv_sec t1 - tv_sec t2);
  if tv_nsec t1 <? tv_nsec t2 then
    sec ← ck64 (sec - 1);
    d ← ck64 (tv_nsec t2 - tv_nsec t1);
    nsec ← ck64 (1000000000 - d);
    Ret (Timespec sec nsec)
  else
    nsec ← ck64 (tv_nsec t1 - tv_nsec t2);
    Ret (Timespec sec nsec).

Definition tst_timespec_diff_us (t1 t2 : timespec) : res Z := d ← tst_timespec_diff t1 t2; tst_timespec_to_us d.
Definition tst_timespec_diff_ms (t1 t2 : timespec) : res Z := d ← tst_timespec_diff t1 t2; tst_timespec_to_ms d.

Definition tst_timespec_abs_diff (t1 t2 : timespec) : res timespec :=
  if tst_timespec_lt t1 t2 then tst_timespec_diff t2 t1 else tst_timespec_diff t1 t2.

Definition tst_timespec_abs_diff_us (t1 t2 : timespec) : res Z := d ← tst_timespec_abs_diff t1 t2; tst_timespec_to_us d.
Definition tst_timespec_abs_diff_ms (t1 t2 : timespec) : res Z := d ← tst_timespec_abs_diff t1 t2; tst_timespec_to_ms d.

(** ** The timer *)

(** The static variables, and the warnings passed to tst_resm, the last one first. *)
Record timer : Type := TimerState { start_time : timespec; stop_time : timespec; clock_id : Z; warnings : list (Z * cstr) }.
Definition timer0 : timer := TimerState (Timespec 0 0) (Timespec 0 0) 0 [].

Definition clock_name (clk_id : Z) : cstr :=
  if clk_id =? 0 then str "CLOCK_REALTIME"
  else if clk_id =? 5 then str "CLOCK_REALTIME_COARSE"
  else if clk_id =? 1 then str "CLOCK_MONOTONIC"
  else if clk_id =? 6 then str "CLOCK_MONOTONIC_COARSE"
  else if clk_id =? 4 then str "CLOCK_MONOTONIC_RAW"
  else if clk_id =? 7 then str "CLOCK_BOOTTIME"
  else if clk_id =? 2 then str "CLOCK_PROCESS_CPUTIME_ID"
  else if clk_id =? 3 then str "CLOCK_THREAD_CPUTIME_ID"
  else str "UNKNOWN/INVALID".

(** [clock_gettime]: the time, or errno. *)
Abbreviation reading := (timespec + Z)%type.

(** [inr]: the type and the message of the tst_brkm that ends the test. *)
Definition tst_timer_check (clk_id : Z) (now : reading) (s : timer) : timer + Z * cstr :=
  match now with
  | inl t => inl (TimerState t (stop_time s) (clock_id s) (warnings s))
  | inr errno =>
      if errno =? 22 then
        inr (TCONF, str "Clock id " ++ clock_name clk_id ++ str "(" ++ fmt_d (u32 clk_id) ++ str ") not supported by kernel")
      else inr (Z.lor TBROK TERRNO, str "clock_gettime() failed")
  end.

Definition warn_clock : Z * cstr := (Z.lor TWARN TERRNO, str "clock_gettime() failed").

Definition tst_timer_start (clk_id : Z) (now : reading) (s : timer) : timer :=
  match now with
  | inl t => TimerState t (stop_time s) clk_id (warnings s)
  | inr _ => TimerState (start_time s) (stop_time s) clk_id (warn_clock :: warnings s)
  end.

Definition tst_timer_stop (now : reading) (s : timer) : timer :=
  match now with
  | inl t => TimerState (start_time s) t (clock_id s) (warnings s)
  | inr _ => TimerState (start_time s) (stop_time s) (clock_id s) (warn_clock :: warnings s)
  end.

Definition tst_timer_elapsed (s : timer) : res timespec := tst_timespec_diff (stop_time s) (start_time s).
Definition tst_timer_elapsed_ms (s : timer) : res Z := t ← tst_timer_elapsed s; tst_timespec_to_ms t.
Definition tst_timer_elapsed_us (s : timer) : res Z := t ← tst_timer_elapsed s; tst_timespec_to_us t.

(** ** Correctness *)

(** A time as the kernel gives it, and its nanoseconds; the seconds stay far from the
    limits of [time_t]. *)
Definition normal (t : timespec) : Prop := 0 ≤ tv_nsec t < 1000000000.
Definition near (t : timespec) : Prop := - 2 ^ 42 < tv_sec t < 2 ^ 42.
Definition ns (t : timespec) : Z := tv_sec t * 1000000000 + tv_nsec t.

(** The checks for overflow, one after the other. *)
Ltac no_overflow := repeat (rewrite ck64_ok by lia; cbn [mbind res_bind]).

Lemma lt_ns t1 t2 : normal t1 → normal t2 → tst_timespec_lt t1 t2 = (ns t1 <? ns t2).
Proof.
  unfold normal, ns, tst_timespec_lt. intros. destruct (Z.eqb_spec (tv_sec t1) (tv_sec t2)) as [->|];
    apply eq_true_iff_eq; rewrite !Z.ltb_lt; lia.
Qed.

Lemma diff_ns t1 t2 : normal t1 → normal t2 → near t1 → near t2 →
  ∃ d, tst_timespec_diff t1 t2 = Ret d ∧ normal d ∧ ns d = ns t1 - ns t2 ∧ - 2 ^ 43 ≤ tv_sec d < 2 ^ 43.
Proof.
  unfold normal, near, ns, tst_timespec_diff. intros. no_overflow.
  destruct (Z.ltb_spec (tv_nsec t1) (tv_nsec t2)); no_overflow.
  - eexists. split; [done|]. cbn. lia.
  - eexists. split; [done|]. cbn. lia.
Qed.

Lemma add_us_ns t us : normal t → near t → 0 ≤ us < 2 ^ 61 →
  ∃ r, tst_timespec_add_us t us = Ret r ∧ normal r ∧ ns r = ns t + us * 1000.
Proof.
  unfold normal, near, ns, tst_timespec_add_us. intros. rewrite Z.quot_div_nonneg, Z.rem_mod_nonneg by lia.
  pose proof (Z.div_mod us 1000000). pose proof (Z.mod_pos_bound us 1000000). pose proof (Z.div_pos us 1000000).
  no_overflow. case_match; no_overflow.
  - eexists. split; [done|]. cbn. lia.
  - eexists. split; [done|]. cbn. lia.
Qed.

Lemma to_us_ns t : normal t → - 2 ^ 43 ≤ tv_sec t < 2 ^ 43 → tst_timespec_to_us t = Ret ((ns t + 500) / 1000).
Proof.
  unfold normal, ns, tst_timespec_to_us. intros. rewrite ck64_ok by lia. cbn [mbind res_bind]. rewrite ck64_ok by lia. cbn [mbind res_bind].
  rewrite Z.quot_div_nonneg by lia. rewrite ck64_ok by (Z.to_euclidean_division_equations; lia).
  f_equal. Z.to_euclidean_division_equations; lia.
Qed.
Lemma to_ms_ns t : normal t → - 2 ^ 43 ≤ tv_sec t < 2 ^ 43 → tst_timespec_to_ms t = Ret ((ns t + 500000) / 1000000).
Proof.
  unfold normal, ns, tst_timespec_to_ms. intros. rewrite ck64_ok by lia. cbn [mbind res_bind]. rewrite ck64_ok by lia. cbn [mbind res_bind].
  rewrite Z.quot_div_nonneg by lia. rewrite ck64_ok by (Z.to_euclidean_division_equations; lia).
  f_equal. Z.to_euclidean_division_equations; lia.
Qed.

(** Times in normal form stay in normal form, and the functions on them compute with nanoseconds exactly: the
    order, the sum with a number of microseconds that is not negative, the difference and its absolute value. *)
Theorem timespec_arithmetic t1 t2 us : normal t1 → normal t2 → near t1 → near t2 → 0 ≤ us < 2 ^ 61 →
  tst_timespec_lt t1 t2 = (ns t1 <? ns t2) ∧
  (∃ r, tst_timespec_add_us t1 us = Ret r ∧ normal r ∧ ns r = ns t1 + us * 1000) ∧
  (∃ d, tst_timespec_diff t1 t2 = Ret d ∧ normal d ∧ ns d = ns t1 - ns t2) ∧
  (∃ d, tst_timespec_abs_diff t1 t2 = Ret d ∧ normal d ∧ ns d = Z.abs (ns t1 - ns t2)).
Proof.
  intros H1 H2 N1 N2 Hus. split; [by apply lt_ns|]. split; [by apply add_us_ns|]. unfold tst_timespec_abs_diff. rewrite lt_ns by done.
  destruct (diff_ns t1 t2) as (d & E & Hd & Hns & _); [done..|]. destruct (diff_ns t2 t1) as (d' & E' & Hd' & Hns' & _); [done..|].
  split; [by exists d|]. destruct (Z.ltb_spec (ns t1) (ns t2)); [exists d'|exists d]; (split; [done|]; split; [done|lia]).
Qed.

Lemma timespec_arithmetic_witness :
  ∃ d, tst_timespec_abs_diff (Timespec 1 900000000) (Timespec 3 100000000) = Ret d ∧ normal d ∧ ns d = 1200000000.
Proof.
  destruct (timespec_arithmetic (Timespec 1 900000000) (Timespec 3 100000000) 5) as (_ & _ & _ & H);
    [unfold normal; cbn; lia|unfold normal; cbn; lia|unfold near; cbn; lia|unfold near; cbn; lia|lia|]. exact H.
Defined.

(** After the timer was started and stopped at two readings of its clock, the elapsed time is their difference, to
    the nearest microsecond or millisecond with halves rounded up. *)
Theorem timer_measures clk t1 t2 s : normal t1 → normal t2 → near t1 → near t2 →
  let s' := tst_timer_stop (inl t2) (tst_timer_start clk (inl t1) s) in
  clock_id s' = clk ∧ warnings s' = warnings s ∧
  (∃ d, tst_timer_elapsed s' = Ret d ∧ normal d ∧ ns d = ns t2 - ns t1) ∧
  tst_timer_elapsed_us s' = Ret ((ns t2 - ns t1 + 500) / 1000) ∧
  tst_timer_elapsed_ms s' = Ret ((ns t2 - ns t1 + 500000) / 1000000).
Proof.
  intros H1 H2 N1 N2. cbn zeta. split; [done|]. split; [done|].
  unfold tst_timer_elapsed_us, tst_timer_elapsed_ms, tst_timer_elapsed. cbn [stop_time start_time tst_timer_stop tst_timer_start].
  destruct (diff_ns t2 t1) as (d & -> & Hd & <- & Hb); [done..|]. rewrite !res_bind_ret, to_us_ns, to_ms_ns by done.
  split; [by exists d|done].
Qed.

Lemma timer_measures_witness :
  tst_timer_elapsed_us (tst_timer_stop (inl (Timespec 7 250)) (tst_timer_start 1 (inl (Timespec 5 999999000)) timer0)) = Ret 1000001.
Proof.
  destruct (timer_measures 1 (Timespec 5 999999000) (Timespec 7 250) timer0) as (_ & _ & _ & H & _);
    [unfold normal; cbn; lia|unfold normal; cbn; lia|unfold near; cbn; lia|unfold near; cbn; lia|]. exact H.
Defined.

(** A negative number of microseconds may leave the normal form. *)
Example add_us_negative : tst_timespec_add_us (Timespec 1 0) (-1) = Ret (Timespec 1 (-1000)).
Proof. reflexivity. Qed.
