(* ===== verification/Checkpoint.v ===== *)
(** * Checkpoints

    lib/tst_checkpoint.c: processes wait on numbered futexes until another one wakes
    them.  The processes that use the checkpoints are a list of states; they run
    interleaved in any order, a wait may time out or be interrupted at any time.  The
    memory of the futexes is never written, so that FUTEX_WAIT always sees the value
    it expects. *)

From S2P Require Import Prelude CInt CString Names Timer.
Local Open Scope Z_scope.

Definition EINTR : Z := 4.
Definition EINVAL : Z := 22.
Definition EOVERFLOW : Z := 75.
Definition ETIMEDOUT : Z := 110.
Definition DEFAULT_MSEC_TIMEOUT : Z := 10000.

(** ** Initialisation *)

(** The type and the message of a tst_brkm, or the number of futexes; [safe_ok] is
    whether the calls for the file and the mapping succeed (else they end the test). *)
Definition tst_checkpoint_init (file : cstr) (lineno : Z) (initialized cleanup_fn tmpdir_created : bool)
    (safe_ok : bool) (page_size : Z) : option Z + Z * cstr :=
  if initialized then inr (TBROK, file ++ str ": " ++ fmt_d lineno ++ str " checkopoints allready initialized")
  else if cleanup_fn && negb tmpdir_created then
    inr (TBROK, file ++ str ":" ++ fmt_d lineno ++ str " You have to create test temporary directory first (call tst_tmpdir())")
  else if safe_ok then inl (Some (page_size / 4)) else inl None.

(** ** Processes *)

(** In a wait: about to call, on the futex, woken by a process.  In a wake: about to
    call, before a FUTEX_WAKE, in usleep.  Returned with a value and errno. *)
Inductive pstate : Type :=
| CallWait (id msec_timeout : Z)
| Blocked (id : Z) (timeout : timespec)
| Woken (id : Z) (by_pid : nat)
| CallWake (id nr_wake msec_timeout : Z)
| WakeLoop (id nr_wake msec_timeout msecs waked : Z)
| Asleep (id nr_wake msec_timeout msecs waked : Z)
| Returned (ret errno : Z).

Definition wait_timeout (msec_timeout : Z) : timespec :=
  Timespec (msec_timeout / 1000) (u32 (msec_timeout mod 1000 * 1000000)).

(** The kernel refuses a time that is not in normal form. *)
Definition futex_wait (id : Z) (timeout : timespec) : pstate :=
  if (0 <=? tv_sec timeout) && (0 <=? tv_nsec timeout) && (tv_nsec timeout <? 1000000000) then Blocked id timeout
  else Returned (-1) EINVAL.

Definition on_futex (id : Z) (p : pstate) : bool := match p with Blocked id' _ => id' =? id | _ => false end.
Definition wake_one (id : Z) (pid : nat) (p : pstate) : pstate := if on_futex id p then Woken id pid else p.
Definition count {A} (f : A → bool) (l : list A) : Z := Z.of_nat (length (List.filter f l)).

Section run.
Context (tst_max_futexes : Z).

(** One step of a process. *)
Definition run (pid : nat) (ps : list pstate) : list pstate :=
  match ps !! pid with
  | Some (CallWait id msec_timeout) =>
      <[pid := if tst_max_futexes <=? id then Returned (-1) EOVERFLOW else futex_wait id (wait_timeout msec_timeout)]> ps
  | Some (CallWake id nr_wake msec_timeout) =>
      <[pid := if tst_max_futexes <=? id then Returned (-1) EOVERFLOW else WakeLoop id nr_wake msec_timeout 0 0]> ps
  | Some (WakeLoop id nr_wake msec_timeout msecs waked) =>
      let waked := u32 (waked + count (on_futex id) ps) in
      <[pid := if waked =? nr_wake then Returned 0 0 else Asleep id nr_wake msec_timeout msecs waked]> (wake_one id pid <$> ps)
  | Some (Asleep id nr_wake msec_timeout msecs waked) =>
      let msecs := u32 (msecs + 1) in
      <[pid := if msec_timeout <=? msecs then Returned (-1) ETIMEDOUT else WakeLoop id nr_wake msec_timeout msecs waked]> ps
  | _ => ps
  end.

Inductive event : Type :=
| Run (pid : nat)
| Expire (pid : nat)
| Interrupt (pid : nat).

Definition fail_wait (pid : nat) (errno : Z) (ps : list pstate) : list pstate :=
  match ps !! pid with Some (Blocked _ _) => <[pid := Returned (-1) errno]> ps | _ => ps end.

Definition happen (e : event) (ps : list pstate) : list pstate :=
  match e with Run pid => run pid ps | Expire pid => fail_wait pid ETIMEDOUT ps | Interrupt pid => fail_wait pid EINTR ps end.

Fixpoint happens (evs : list event) (ps : list pstate) : list pstate :=
  match evs with [] => ps | e :: evs => happens evs (happen e ps) end.
End run.

(** The variants that end the test when they fail: the type and the message of the
    tst_brkm. *)
Definition tst_safe_checkpoint_wait (file : cstr) (lineno id ret : Z) : option (Z * cstr) :=
  if ret =? 0 then None
  else Some (Z.lor TBROK TERRNO, file ++ str ":" ++ fmt_d lineno ++ str ": tst_checkpoint_wait(" ++ fmt_d id ++ str ", "
               ++ fmt_d DEFAULT_MSEC_TIMEOUT ++ str ")").
Definition tst_safe_checkpoint_wake (file : cstr) (lineno id nr_wake ret : Z) : option (Z * cstr) :=
  if ret =? 0 then None
  else Some (Z.lor TBROK TERRNO, file ++ str ":" ++ fmt_d lineno ++ str ": tst_checkpoint_wake(" ++ fmt_d id ++ str ", "
               ++ fmt_d nr_wake ++ str ", " ++ fmt_d DEFAULT_MSEC_TIMEOUT ++ str ")").

(** ** Counting *)

Lemma count_insert {A} (f : A → bool) l i x y : l !! i = Some x → count f (<[i := y]> l) = count f l - b2z (f x) + b2z (f y).
Proof.
  unfold count. revert i. induction l as [|a l IH]; intros [|i] H; simplify_eq/=.
  - destruct (f x), (f y); simpl; lia.
  - specialize (IH i H). destruct (f a); simpl; lia.
Qed.

Lemma count_fmap {A} (f g : A → bool) (h : A → A) l :
  (∀ x, b2z (f (h x)) = b2z (f x) + b2z (g x)) → count f (h <$> l) = count f l + count g l.
Proof.
  intros Hh. unfold count. induction l as [|a l IH]; [done|]. cbn. specialize (Hh a).
  destruct (f (h a)), (f a), (g a); simpl; lia.
Qed.

Lemma count_fmap_same {A} (f : A → bool) (h : A → A) l : (∀ x, f (h x) = f x) → count f (h <$> l) = count f l.
Proof. intros Hh. unfold count. induction l as [|a l IH]; [done|]. cbn. rewrite Hh. destruct (f a); simpl; lia. Qed.

Lemma count_le {A} (f : A → bool) l : 0 ≤ count f l ≤ Z.of_nat (length l).
Proof. unfold count. induction l as [|a l IH]; simpl; [lia|]. destruct (f a); simpl; lia. Qed.

Lemma count_zero {A} (f : A → bool) l i x : count f l = 0 → l !! i = Some x → f x = false.
Proof.
  unfold count. revert i. induction l as [|a l IH]; intros [|i] Hc H; simplify_eq/=.
  - destruct (f x); [simpl in Hc; lia|done].
  - destruct (f a); [simpl in Hc; lia|]. by eapply IH.
Qed.

(** ** A wake and those it woke *)

Definition woken_by (p : nat) (q : pstate) : bool := match q with Woken _ p' => Nat.eqb p' p | _ => false end.

Lemma count_wake id p ps : count (woken_by p) (wake_one id p <$> ps) = count (woken_by p) ps + count (on_futex id) ps.
Proof.
  apply count_fmap. intros [|id' t| | | | |]; try (cbn; lia). unfold wake_one. cbn. destruct (id' =? id); cbn; [|lia].
  by rewrite Nat.eqb_refl.
Qed.

Lemma count_wake_other id p q ps : p ≠ q → count (woken_by p) (wake_one id q <$> ps) = count (woken_by p) ps.
Proof.
  intros Hne. rewrite (count_fmap _ (λ _, false)).
  - unfold count at 2. assert (List.filter (λ _, false) ps = []) as -> by (induction ps; done). simpl. lia.
  - intros [| | | | | |]; try (cbn; lia). unfold wake_one. cbn. destruct (_ =? id); cbn; [|lia].
    by rewrite (proj2 (Nat.eqb_neq q p)) by done.
Qed.

Section wake.
Context (tst_max_futexes : Z) (p : nat) (id nr_wake msec_timeout : Z) (np : nat).
Context (Hid : id < tst_max_futexes) (Hnp : Z.of_nat np < 2 ^ 32) (Hms : 0 ≤ msec_timeout < 2 ^ 32).

(** What is known of the process [p], which wakes [nr_wake] others: the value it
    counts is the number of those it woke. *)
Definition wake_state (q : pstate) (woken : Z) : Prop :=
  match q with
  | CallWake id' nr' ms' => (id', nr', ms') = (id, nr_wake, msec_timeout) ∧ woken = 0
  | WakeLoop id' nr' ms' msecs waked =>
      (id', nr', ms') = (id, nr_wake, msec_timeout) ∧ woken = waked ∧ 0 ≤ msecs < Z.max 1 msec_timeout
  | Asleep id' nr' ms' msecs waked =>
      (id', nr', ms') = (id, nr_wake, msec_timeout) ∧ woken = waked ∧ waked ≠ nr_wake ∧ 0 ≤ msecs < Z.max 1 msec_timeout
  | Returned ret errno => ret = 0 ∧ woken = nr_wake ∨ ret = -1 ∧ errno = ETIMEDOUT ∧ woken ≠ nr_wake
  | _ => False
  end.

Definition wake_inv (ps : list pstate) : Prop :=
  length ps = np ∧ ∃ q, ps !! p = Some q ∧ wake_state q (count (woken_by p) ps).

(** A step of another process that wakes nobody in the name of [p]. *)
Lemma wake_inv_insert q x y ps : q ≠ p → ps !! q = Some x → woken_by p x = false → woken_by p y = false →
  wake_inv ps → wake_inv (<[q := y]> ps).
Proof.
  intros Hne Hx Fx Fy (Hl & z & Hz & Hs). split; [by rewrite length_insert|]. exists z. split; [by rewrite list_lookup_insert_ne|].
  rewrite (count_insert _ _ _ x), Fx, Fy by done. by rewrite Z.sub_0_r, Z.add_0_r.
Qed.

Lemma wake_inv_fmap id' q ps : q ≠ p → wake_inv ps → wake_inv (wake_one id' q <$> ps).
Proof.
  intros Hne (Hl & z & Hz & Hs). split; [by rewrite length_fmap|]. exists z. rewrite list_lookup_fmap, Hz, count_wake_other by done.
  split; [|done]. cbn. f_equal. unfold wake_one. by destruct z.
Qed.

Lemma wake_inv_other q ps : q ≠ p → wake_inv ps → wake_inv (run tst_max_futexes q ps).
Proof using.
  intros Hne Hi. unfold run. destruct (ps !! q) as [x|] eqn:Hq; [|done]. destruct x; try done.
  - eapply wake_inv_insert; try done. unfold futex_wait. by repeat case_match.
  - eapply wake_inv_insert; try done. by case_match.
  - assert ((wake_one id0 q <$> ps) !! q = Some (WakeLoop id0 nr_wake0 msec_timeout0 msecs waked)).
    { by rewrite list_lookup_fmap, Hq. }
    eapply wake_inv_insert; try done; [by case_match|]. by apply wake_inv_fmap.
  - eapply wake_inv_insert; try done. by case_match.
Qed.

(** A step of [p] itself. *)
Lemma wake_inv_self ps : wake_inv ps → wake_inv (run tst_max_futexes p ps).
Proof using Hid Hnp Hms.
  intros (Hl & q & Hq & Hs). unfold run. rewrite Hq. destruct q; try done.
  - destruct Hs as ([= -> -> ->] & Hc). rewrite (proj2 (Z.leb_gt _ _)) by done.
    split; [by rewrite length_insert|]. eexists. split; [apply list_lookup_insert_eq; by eapply lookup_lt_Some|].
    rewrite (count_insert _ _ _ _ _ Hq), Hc. cbn. split; [done|]. lia.
  - destruct Hs as ([= -> -> ->] & Hc & Hm).
    assert (Hq' : (wake_one id p <$> ps) !! p = Some (WakeLoop id nr_wake msec_timeout msecs waked)) by (by rewrite list_lookup_fmap, Hq).
    pose proof (count_le (woken_by p) (wake_one id p <$> ps)) as Hle. rewrite length_fmap, count_wake in Hle.
    pose proof (count_le (on_futex id) ps). pose proof (count_le (woken_by p) ps).
    rewrite u32_id by lia. split; [by rewrite length_insert, length_fmap|].
    eexists. split; [apply list_lookup_insert_eq; rewrite length_fmap; by eapply lookup_lt_Some|].
    rewrite (count_insert _ _ _ _ _ Hq'), count_wake. destruct (Z.eqb_spec (waked + count (on_futex id) ps) nr_wake); cbn.
    + left. split; [done|]. lia.
    + split; [done|]. split; [lia|]. split; [done|lia].
  - destruct Hs as ([= -> -> ->] & Hc & Hne & Hm). rewrite u32_id by lia.
    split; [by rewrite length_insert|]. eexists. split; [apply list_lookup_insert_eq; by eapply lookup_lt_Some|].
    rewrite (count_insert _ _ _ _ _ Hq), Hc. destruct (Z.leb_spec msec_timeout (msecs + 1)); cbn.
    + right. split; [done|]. split; [done|]. lia.
    + split; [done|]. lia.
  - split; [done|]. by eexists.
Qed.

Lemma wake_inv_run q ps : wake_inv ps → wake_inv (run tst_max_futexes q ps).
Proof using Hid Hnp Hms.
  intros Hi. destruct (decide (q = p)) as [->|]; [by apply wake_inv_self|by apply wake_inv_other].
Qed.

Lemma wake_inv_happens evs ps : wake_inv ps → wake_inv (happens tst_max_futexes evs ps).
Proof using Hid Hnp Hms.
  revert ps. induction evs as [|e evs IH]; intros ps Hi; [done|]. cbn. apply IH.
  assert (Hfail : ∀ q err, wake_inv (fail_wait q err ps)).
  { intros q err. unfold fail_wait. destruct (ps !! q) as [x|] eqn:Hq; [|done]. destruct x; try done.
    eapply wake_inv_insert; try done. intros ->. destruct Hi as (_ & y & Hy & Hs). rewrite Hq in Hy. by injection Hy as <-. }
  destruct e; cbn; [by apply wake_inv_run|apply Hfail..].
Qed.
End wake.

(** ** A rendezvous *)

Definition about_to_wait (id : Z) (q : pstate) : bool := match q with CallWait id' _ => id' =? id | _ => false end.

Section rendezvous.
Context (tst_max_futexes : Z) (p : nat) (id nr_wake msec_timeout : Z) (np : nat).
Context (Hid : id < tst_max_futexes) (Hnp : Z.of_nat np < 2 ^ 32) (Hms : 1 ≤ msec_timeout < 2 ^ 32).

(** Other processes do not wake this checkpoint. *)
Definition no_waker (q : pstate) : Prop :=
  match q with CallWake id' _ _ | WakeLoop id' _ _ _ _ | Asleep id' _ _ _ _ => id' ≠ id | CallWait _ ms => 0 ≤ ms < 2 ^ 32 | _ => True end.

(** One of those that wait for [p]: about to wait, waiting, or woken by [p]. *)
Definition party (q : pstate) : bool := about_to_wait id q || on_futex id q || woken_by p q.

Record meet (ps : list pstate) : Prop := {
  meet_inv : wake_inv p id nr_wake msec_timeout np ps;
  meet_others q x : q ≠ p → ps !! q = Some x → no_waker x;
  meet_all : count party ps = nr_wake }.

Lemma meet_insert q x y ps : q ≠ p → ps !! q = Some x → party y = party x → no_waker y → woken_by p x = false → woken_by p y = false →
  meet ps → meet (<[q := y]> ps).
Proof.
  intros Hne Hx Hp Hn Fx Fy [Hi Ho Ha]. split; [by eapply wake_inv_insert|..].
  - intros q' z Hq' Hz. destruct (decide (q' = q)) as [->|]; [|rewrite list_lookup_insert_ne in Hz by done; by eapply Ho].
    rewrite list_lookup_insert_eq in Hz by (by eapply lookup_lt_Some). by injection Hz as <-.
  - rewrite (count_insert _ _ _ _ _ Hx), Hp, Ha. lia.
Qed.

Lemma meet_fmap id' q ps : id' ≠ id → q ≠ p → meet ps → meet (wake_one id' q <$> ps).
Proof.
  intros Hid' Hne [Hi Ho Ha]. split; [by apply wake_inv_fmap|..].
  - intros q' z Hq' Hz. rewrite list_lookup_fmap in Hz. destruct (ps !! q') as [x|] eqn:Hx; [|done]. injection Hz as <-.
    specialize (Ho _ _ Hq' Hx). unfold wake_one. by case_match.
  - rewrite (count_fmap_same party); [done|]. intros [|i t| | | | |]; try done. unfold wake_one, party. cbn.
    destruct (Z.eqb_spec i id') as [->|]; [|done]. cbn. rewrite (proj2 (Z.eqb_neq id' id)), (proj2 (Nat.eqb_neq q p)) by done. done.
Qed.

Lemma wait_blocks id' ms : 0 ≤ ms < 2 ^ 32 → futex_wait id' (wait_timeout ms) = Blocked id' (wait_timeout ms).
Proof.
  intros Hm. unfold futex_wait, wait_timeout. cbn. pose proof (Z.mod_pos_bound ms 1000). pose proof (Z.div_pos ms 1000).
  rewrite u32_id by lia. by rewrite !(proj2 (Z.leb_le _ _)), (proj2 (Z.ltb_lt _ _)) by lia.
Qed.

Lemma meet_other q ps : q ≠ p → meet ps → meet (run tst_max_futexes q ps).
Proof using Hid.
  intros Hne Hm. unfold run. destruct (ps !! q) as [x|] eqn:Hq; [|done].
  pose proof (meet_others _ Hm _ _ Hne Hq) as Hn. destruct x as [id' ms|id' t|id' b|id' nr ms|id' nr ms m w|id' nr ms m w|r e]; try done.
  - rewrite wait_blocks by done. eapply meet_insert; try done; destruct (Z.leb_spec tst_max_futexes id'); try done; unfold party; cbn.
    + rewrite (proj2 (Z.eqb_neq id' id)); [done|lia].
    + by destruct (id' =? id).
  - eapply meet_insert; try done; by case_match.
  - assert ((wake_one id' q <$> ps) !! q = Some (WakeLoop id' nr ms m w)) by (by rewrite list_lookup_fmap, Hq).
    eapply meet_insert; try done; [by case_match..|]. by apply meet_fmap.
  - eapply meet_insert; try done; by case_match.
Qed.

Lemma meet_self ps : meet ps → meet (run tst_max_futexes p ps).
Proof using Hid Hnp Hms.
  intros [Hi Ho Ha]. assert (Hi' := wake_inv_self tst_max_futexes p id nr_wake msec_timeout np Hid Hnp ltac:(lia) ps Hi).
  destruct Hi as (Hl & x & Hx & Hs). unfold run in *. rewrite Hx in *.
  destruct x as [id' ms|id' t|id' b|id' nr ms|id' nr ms m w|id' nr ms m w|r e]; try done.
  - split; [done|..].
    + intros q z Hq Hz. rewrite list_lookup_insert_ne in Hz by done. by eapply Ho.
    + rewrite (count_insert _ _ _ _ _ Hx), Ha. case_match; cbn; lia.
  - destruct Hs as ([= -> -> ->] & Hc & Hm). split; [done|..].
    + intros q z Hq Hz. rewrite list_lookup_insert_ne, list_lookup_fmap in Hz by done.
      destruct (ps !! q) as [x|] eqn:Hxq; [|done]. injection Hz as <-. specialize (Ho _ _ Hq Hxq). unfold wake_one. by destruct (on_futex id x).
    + assert (Hx' : (wake_one id p <$> ps) !! p = Some (WakeLoop id nr_wake msec_timeout m w)) by (by rewrite list_lookup_fmap, Hx).
      rewrite (count_insert _ _ _ _ _ Hx'), (count_fmap_same party), Ha; [case_match; cbn; lia|].
      intros [|i t| | | | |]; try done. unfold wake_one, party. cbn. destruct (i =? id) eqn:E; cbn; [by rewrite Nat.eqb_refl|by rewrite E].
  - split; [done|..].
    + intros q z Hq Hz. rewrite list_lookup_insert_ne in Hz by done. by eapply Ho.
    + rewrite (count_insert _ _ _ _ _ Hx), Ha. case_match; cbn; lia.
Qed.

Lemma meet_run q ps : meet ps → meet (run tst_max_futexes q ps).
Proof using Hid Hnp Hms. intros. destruct (decide (q = p)) as [->|]; [by apply meet_self|by apply meet_other]. Qed.

(** A process that has called wait does not come back to the call. *)
Lemma run_call_wait q i a b ps : run tst_max_futexes q ps !! i = Some (CallWait a b) → i ≠ q ∧ ps !! i = Some (CallWait a b).
Proof using.
  assert (Hins : ∀ y l, (q < length l)%nat → y ≠ CallWait a b → <[q := y]> l !! i = Some (CallWait a b) → i ≠ q ∧ l !! i = Some (CallWait a b)).
  { intros y l Hl Hy H. destruct (decide (i = q)) as [->|]; [rewrite list_lookup_insert_eq in H by done; congruence|].
    by rewrite list_lookup_insert_ne in H. }
  unfold run. destruct (ps !! q) as [x|] eqn:Hq; [|intros H; split; congruence]. pose proof (lookup_lt_Some _ _ _ Hq) as Hlt.
  destruct x; try (intros H; split; congruence); try (apply Hins; [done|unfold futex_wait; by repeat case_match]).
  intros H. apply Hins in H as [Hne H]; [|by rewrite length_fmap|by case_match]. split; [done|].
  rewrite list_lookup_fmap in H. destruct (ps !! i) as [x|]; [|done]. cbn in H. unfold wake_one in H. by destruct x; cbn in H; try case_match.
Qed.

Lemma runs_call_wait qs i a b ps : happens tst_max_futexes (Run <$> qs) ps !! i = Some (CallWait a b) →
  i ∉ qs ∧ ps !! i = Some (CallWait a b).
Proof using.
  revert ps. induction qs as [|q qs IH]; intros ps H; [split; [by apply not_elem_of_nil|done]|]. cbn in H.
  apply IH in H as [Hni H]. apply run_call_wait in H as [Hne H]. split; [|done]. rewrite not_elem_of_cons. done.
Qed.

(** Those who wait for [p] stay among them. *)
Lemma run_party q i x ps : meet ps → ps !! i = Some x → party x = true → ∃ y, run tst_max_futexes q ps !! i = Some y ∧ party y = true.
Proof using Hid.
  intros Hm Hx Hp. assert (Hwake : ∀ id' x, (id' = id → q = p) → party x = true → party (wake_one id' q x) = true).
  { intros id' z Hq Hz. unfold wake_one. destruct z as [|i' t| | | | |]; try done. cbn. destruct (Z.eqb_spec i' id') as [->|]; [|done].
    unfold party in *. cbn in *. destruct (Z.eqb_spec id' id) as [->|]; [|done]. rewrite Hq by done. apply Nat.eqb_refl. }
  unfold run. destruct (ps !! q) as [z|] eqn:Hq; [|by exists x].
  destruct (decide (i = q)) as [->|Hne].
  - rewrite Hq in Hx. injection Hx as ->. destruct x as [id' ms| | | | | |]; try done; try (by exists (Blocked id0 timeout)).
    + destruct (decide (q = p)) as [->|Hqp].
      { destruct (meet_inv _ Hm) as (_ & w & Hw & Hs). rewrite Hq in Hw. by injection Hw as <-. }
      pose proof (meet_others _ Hm _ _ Hqp Hq) as Hn. rewrite wait_blocks by done.
      unfold party in Hp. cbn in Hp. rewrite !orb_false_r in Hp. apply Z.eqb_eq in Hp as ->.
      rewrite (proj2 (Z.leb_gt _ _)) by done. eexists. split; [apply list_lookup_insert_eq; by eapply lookup_lt_Some|].
      unfold party. cbn. by rewrite Z.eqb_refl.
    + by eexists.
  - destruct z as [|?|?|?|id' nr ms m w|?|?]; rewrite ?list_lookup_insert_ne by done; try by exists x.
    rewrite list_lookup_fmap, Hx. eexists. split; [done|]. apply Hwake; [|done]. intros ->.
    destruct (decide (q = p)); [done|]. by destruct (meet_others _ Hm _ _ n Hq).
Qed.

Lemma runs_meet qs ps : meet ps → meet (happens tst_max_futexes (Run <$> qs) ps).
Proof using Hid Hnp Hms. revert ps. induction qs; intros ps Hm; [done|]. cbn. by apply IHqs, meet_run. Qed.

Lemma runs_party qs i x ps : meet ps → ps !! i = Some x → party x = true →
  ∃ y, happens tst_max_futexes (Run <$> qs) ps !! i = Some y ∧ party y = true.
Proof using Hid Hnp Hms.
  revert ps x. induction qs as [|q qs IH]; intros ps x Hm Hx Hp; [by exists x|]. cbn.
  destruct (run_party q i x ps Hm Hx Hp) as (y & Hy & Hpy). eapply IH; [|done..]. by apply meet_run.
Qed.

(** How far [p] can be after [k] steps of its own. *)
Definition within (k : Z) (ps : list pstate) : Prop :=
  match ps !! p with
  | Some (CallWake _ _ _) => 0 ≤ k
  | Some (WakeLoop _ _ _ msecs _) => 2 * msecs + 1 ≤ k
  | Some (Asleep _ _ _ msecs _) => 2 * msecs + 2 ≤ k
  | Some (Returned ret errno) => ret = 0 ∧ errno = 0 ∨ 2 * msec_timeout + 1 ≤ k
  | _ => False
  end.

(** A step of another process leaves [p] where it is. *)
Lemma run_other q ps : q ≠ p → wake_inv p id nr_wake msec_timeout np ps → run tst_max_futexes q ps !! p = ps !! p.
Proof using.
  intros Hne (_ & x & Hx & Hs). unfold run. destruct (ps !! q) as [z|]; [|done].
  destruct z; rewrite ?list_lookup_insert_ne by done; try done. rewrite list_lookup_fmap, Hx. cbn. f_equal. by destruct x.
Qed.

Lemma within_run k q ps : wake_inv p id nr_wake msec_timeout np ps → within k ps →
  within (k + b2z (Nat.eqb p q)) (run tst_max_futexes q ps).
Proof using Hid Hms.
  intros Hi Hw. destruct (Nat.eqb_spec p q) as [<-|Hne].
  2:{ unfold within. rewrite run_other by done. by rewrite Z.add_0_r. }
  destruct Hi as (_ & x & Hx & Hs). pose proof (lookup_lt_Some _ _ _ Hx) as Hlt. unfold within, run in *. rewrite Hx in *.
  destruct x; try done.
  - destruct Hs as ([= -> -> ->] & _). rewrite (proj2 (Z.leb_gt _ _)) by done. rewrite list_lookup_insert_eq by done. lia.
  - rewrite list_lookup_insert_eq by (by rewrite length_fmap). destruct (_ =? nr_wake0); lia.
  - destruct Hs as ([= -> -> ->] & _ & _ & Hm). rewrite list_lookup_insert_eq by done. rewrite u32_id by lia.
    destruct (Z.leb_spec msec_timeout (msecs + 1)); lia.
  - rewrite Hx. lia.
Qed.

Lemma within_runs k qs ps : meet ps → within k ps → within (k + count (Nat.eqb p) qs) (happens tst_max_futexes (Run <$> qs) ps).
Proof using Hid Hnp Hms.
  revert k ps. induction qs as [|q qs IH]; intros k ps Hm Hw; [by rewrite Z.add_0_r|]. cbn [fmap list_fmap happens happen].
  replace (k + count (Nat.eqb p) (q :: qs)) with (k + b2z (Nat.eqb p q) + count (Nat.eqb p) qs).
  - apply IH; [by apply meet_run|apply within_run; [apply Hm|done]].
  - unfold count. cbn [List.filter]. destruct (Nat.eqb p q); cbn [length]; lia.
Qed.

(** Everyone has called wait, and [p] needs at most [k] more steps. *)
Definition closing (k : Z) (ps : list pstate) : Prop :=
  match ps !! p with
  | Some (CallWake _ _ _) => 2 ≤ k
  | Some (WakeLoop _ _ _ msecs _) => 1 ≤ k
  | Some (Asleep _ _ _ msecs _) => 2 ≤ k ∧ msecs + 1 < msec_timeout
  | Some (Returned ret errno) => ret = 0 ∧ errno = 0
  | _ => False
  end.

Lemma arrived_count ps : meet ps → (∀ i a b, ps !! i = Some (CallWait a b) → a ≠ id) →
  count (on_futex id) ps + count (woken_by p) ps = nr_wake.
Proof using.
  intros Hm Ha. rewrite <- (meet_all _ Hm). clear Hm. revert Ha. unfold count. induction ps as [|x ps IH]; intros Ha; [done|].
  specialize (IH (λ i, Ha (S i))). specialize (Ha 0%nat). cbn [List.filter]. unfold party at 1.
  destruct x as [a b| | | | | |]; cbn; try lia.
  - rewrite (proj2 (Z.eqb_neq a id)) by (by eapply Ha). cbn. lia.
  - destruct (_ =? id); cbn [orb length]; lia.
  - destruct (Nat.eqb _ p); cbn [orb length]; lia.
Qed.

Lemma closing_run k q ps : meet ps → (∀ i a b, ps !! i = Some (CallWait a b) → a ≠ id) → closing k ps →
  closing (k - b2z (Nat.eqb p q)) (run tst_max_futexes q ps).
Proof using Hid Hnp Hms.
  intros Hm Ha Hc. pose proof (meet_inv _ Hm) as Hi. destruct (Nat.eqb_spec p q) as [<-|Hne].
  2:{ unfold closing. rewrite run_other by done. by rewrite Z.sub_0_r. }
  destruct Hi as (Hl & x & Hx & Hs). pose proof (lookup_lt_Some _ _ _ Hx) as Hlt. unfold closing, run in *. rewrite Hx in *.
  destruct x; try done.
  - destruct Hs as ([= -> -> ->] & _). rewrite (proj2 (Z.leb_gt _ _)) by done. rewrite list_lookup_insert_eq by done. lia.
  - destruct Hs as ([= -> -> ->] & Hw & _). rewrite list_lookup_insert_eq by (by rewrite length_fmap).
    pose proof (arrived_count _ Hm Ha). pose proof (count_le (woken_by p) ps). pose proof (count_le (on_futex id) ps).
    pose proof (count_le (party) ps). rewrite (meet_all _ Hm) in *. rewrite u32_id by lia. by rewrite (proj2 (Z.eqb_eq _ _)) by lia.
  - destruct Hs as ([= -> -> ->] & _ & _ & Hmm). rewrite list_lookup_insert_eq by done. rewrite u32_id by lia.
    destruct (Z.leb_spec msec_timeout (msecs + 1)); lia.
  - by rewrite Hx.
Qed.

Lemma closing_runs k qs ps : meet ps → (∀ i a b, ps !! i = Some (CallWait a b) → a ≠ id) → closing k ps →
  closing (k - count (Nat.eqb p) qs) (happens tst_max_futexes (Run <$> qs) ps).
Proof using Hid Hnp Hms.
  revert k ps. induction qs as [|q qs IH]; intros k ps Hm Ha Hc; [by rewrite Z.sub_0_r|]. cbn [fmap list_fmap happens happen].
  replace (k - count (Nat.eqb p) (q :: qs)) with (k - b2z (Nat.eqb p q) - count (Nat.eqb p) qs).
  - apply IH; [by apply meet_run| |by apply closing_run]. intros i a b Hcw. apply run_call_wait in Hcw as [_ Hcw]. by eapply Ha.
  - unfold count. cbn [List.filter]. destruct (Nat.eqb p q); cbn [length]; lia.
Qed.
End rendezvous.

(** ** Theorems *)

(** A process that has not called yet. *)
Definition starting (q : pstate) : bool := match q with CallWait _ _ | CallWake _ _ _ => true | _ => false end.

Lemma wake_inv_start p id nr_wake msec_timeout ps : (∀ q x, ps !! q = Some x → starting x = true) →
  ps !! p = Some (CallWake id nr_wake msec_timeout) → wake_inv p id nr_wake msec_timeout (length ps) ps.
Proof.
  intros Hs Hp. split; [done|]. eexists. split; [done|]. split; [done|]. clear Hp. unfold count.
  induction ps as [|x ps IH]; [done|]. cbn. specialize (IH (λ q, Hs (S q))). specialize (Hs 0%nat x eq_refl). by destruct x.
Qed.

(** C14: When tst_checkpoint_wake returns, in any interleaving of the processes that use checkpoints and with waits timing
    out or interrupted at any time, it returns 0 exactly if the waits that it ended are as many as it was asked for;
    otherwise it returns -1 with ETIMEDOUT. *)
Theorem wake_exact max p id nr_wake msec_timeout ps evs ret errno :
  id < max → Z.of_nat (length ps) < 2 ^ 32 → 0 ≤ msec_timeout < 2 ^ 32 →
  (∀ q x, ps !! q = Some x → starting x = true) → ps !! p = Some (CallWake id nr_wake msec_timeout) →
  let ps' := happens max evs ps in
  ps' !! p = Some (Returned ret errno) →
  (ret = 0 ∧ count (woken_by p) ps' = nr_wake) ∨ (ret = -1 ∧ errno = ETIMEDOUT ∧ count (woken_by p) ps' ≠ nr_wake).
Proof.
  intros Hid Hn Hms Hst Hp ps' Hr.
  pose proof (wake_inv_happens max p id nr_wake msec_timeout _ Hid Hn Hms evs _ (wake_inv_start _ _ _ _ _ Hst Hp)) as (_ & x & Hx & Hs).
  fold ps' in Hx, Hs. rewrite Hr in Hx. injection Hx as <-. exact Hs.
Qed.

Lemma meet_start p id nr_wake msec_timeout ps : (∀ q x, ps !! q = Some x → starting x = true) →
  ps !! p = Some (CallWake id nr_wake msec_timeout) → (∀ q x, q ≠ p → ps !! q = Some x → no_waker id x) →
  count (about_to_wait id) ps = nr_wake → meet p id nr_wake msec_timeout (length ps) ps.
Proof.
  intros Hst Hp Hno Hcnt. split; [by apply wake_inv_start|done|]. rewrite <- Hcnt. clear -Hst. unfold count.
  induction ps as [|x ps IH]; [done|]. cbn. specialize (IH (λ q, Hst (S q))). specialize (Hst 0%nat x eq_refl). unfold party at 1.
  destruct x; try done. cbn. destruct (_ =? id); cbn; lia.
Qed.

Lemma happens_app max evs1 evs2 ps : happens max (evs1 ++ evs2) ps = happens max evs2 (happens max evs1 ps).
Proof. revert ps. induction evs1 as [|e evs1 IH]; intros ps; [done|]. cbn. apply IH. Qed.

(** When everyone has called wait and [p] has returned, all are woken. *)
Lemma all_woken p id nr_wake msec_timeout np ps : meet p id nr_wake msec_timeout np ps →
  (∀ i a b, ps !! i = Some (CallWait a b) → a ≠ id) → ps !! p = Some (Returned 0 0) →
  ∀ q y, ps !! q = Some y → party p id y = true → woken_by p y = true.
Proof.
  intros Hm Ha Hp q y Hy Hparty. pose proof (arrived_count p id nr_wake msec_timeout _ _ Hm Ha) as Hsum.
  destruct (meet_inv _ _ _ _ _ _ Hm) as (_ & x & Hx & Hs). rewrite Hp in Hx. injection Hx as <-. cbn in Hs.
  assert (Hz : count (on_futex id) ps = 0) by (destruct Hs as [[_ ?]|[? _]]; [lia|done]).
  pose proof (count_zero _ _ _ _ Hz Hy) as Hf. unfold party in Hparty. rewrite Hf, orb_false_r in Hparty.
  destruct y as [a b| | | | | |]; try done. exfalso. cbn in Hparty. rewrite orb_false_r in Hparty. apply Z.eqb_eq in Hparty. by eapply Ha.
Qed.

(** C15: A rendezvous succeeds: when [nr_wake] processes wait on a checkpoint and one other wakes it, in any order of
    their steps in which each of those that wait has called wait before the last attempt of the one that wakes, and
    without timeouts or signals, tst_checkpoint_wake returns 0 and every wait is ended by it. *)
Theorem checkpoint_rendezvous max p id nr_wake msec_timeout ps qs1 qs2 :
  id < max → Z.of_nat (length ps) < 2 ^ 32 → 1 ≤ msec_timeout < 2 ^ 32 →
  (∀ q x, ps !! q = Some x → starting x = true) → ps !! p = Some (CallWake id nr_wake msec_timeout) →
  (∀ q x, q ≠ p → ps !! q = Some x → no_waker id x) → count (about_to_wait id) ps = nr_wake →
  (∀ q x, ps !! q = Some x → about_to_wait id x = true → q ∈ qs1) →
  count (Nat.eqb p) qs1 ≤ 2 * msec_timeout - 1 → 2 ≤ count (Nat.eqb p) qs2 →
  let ps' := happens max (Run <$> qs1 ++ qs2) ps in
  ps' !! p = Some (Returned 0 0) ∧
  (∀ q x, ps !! q = Some x → about_to_wait id x = true → ∃ y, ps' !! q = Some y ∧ woken_by p y = true).
Proof.
  intros Hid Hn Hms Hst Hp Hno Hcnt Hcalled H1 H2 ps'.
  pose proof (meet_start _ _ _ _ _ Hst Hp Hno Hcnt) as Hm0.
  assert (Hw0 : within p msec_timeout 0 ps) by (unfold within; by rewrite Hp).
  set (ps1 := happens max (Run <$> qs1) ps).
  pose proof (runs_meet max p id nr_wake msec_timeout _ Hid Hn Hms qs1 _ Hm0) as Hm1. fold ps1 in Hm1.
  pose proof (within_runs max p id nr_wake msec_timeout _ Hid Hn Hms 0 qs1 _ Hm0 Hw0) as Hw1. fold ps1 in Hw1.
  assert (Ha1 : ∀ i a b, ps1 !! i = Some (CallWait a b) → a ≠ id).
  { intros i a b Hi ->. apply runs_call_wait in Hi as [Hni Hi]. apply Hni. eapply Hcalled; [done|]. cbn. apply Z.eqb_refl. }
  assert (Hc1 : closing p msec_timeout 2 ps1).
  { unfold within, closing in *. destruct (ps1 !! p) as [x|]; [|done]. destruct x; lia || done. }
  assert (Eps : ps' = happens max (Run <$> qs2) ps1) by (unfold ps', ps1; by rewrite fmap_app, happens_app).
  pose proof (closing_runs max p id nr_wake msec_timeout _ Hid Hn Hms 2 qs2 _ Hm1 Ha1 Hc1) as Hc2. rewrite <- Eps in Hc2.
  pose proof (runs_meet max p id nr_wake msec_timeout _ Hid Hn Hms qs2 _ Hm1) as Hm2. rewrite <- Eps in Hm2.
  assert (Hret : ps' !! p = Some (Returned 0 0)).
  { unfold closing in Hc2. destruct (ps' !! p) as [x|]; [|done]. destruct x; try lia. by destruct Hc2 as [-> ->]. }
  split; [done|]. intros q x Hx Hq.
  destruct (runs_party max p id nr_wake msec_timeout _ Hid Hn Hms (qs1 ++ qs2) q x _ Hm0 Hx) as (y & Hy & Hpy); [unfold party; by rewrite Hq|].
  exists y. split; [done|]. eapply all_woken; [done| |done..]. intros i a b Hi. rewrite Eps in Hi. apply runs_call_wait in Hi as [_ Hi]. by eapply Ha1.
Qed.

(** Two processes wait and a third one wakes them. *)
Definition demo_procs : list pstate := [CallWait 0 10000; CallWake 0 2 10000; CallWait 0 10000].

Lemma demo_starting q x : demo_procs !! q = Some x → starting x = true ∧ (q ≠ 1%nat → no_waker 0 x) ∧ (about_to_wait 0 x = true → q ∈ [0; 1; 1; 1; 2]%nat).
Proof. destruct q as [|[|[|q]]]; intros [= <-]; (split; [done|]); (split; [|intros; set_solver]); cbn; intros; done || lia. Qed.

Lemma wake_exact_witness :
  (0 = 0 ∧ count (woken_by 1) (happens 1024 (Run <$> [0; 1; 2; 1]%nat) demo_procs) = 2) ∨
  (0 = -1 ∧ 0 = ETIMEDOUT ∧ count (woken_by 1) (happens 1024 (Run <$> [0; 1; 2; 1]%nat) demo_procs) ≠ 2).
Proof.
  apply (wake_exact 1024 1 0 2 10000 demo_procs (Run <$> [0; 1; 2; 1]%nat) 0 0); try (simpl; lia); try reflexivity.
  intros q x Hx. apply (demo_starting q x Hx).
Defined.

Lemma checkpoint_rendezvous_witness :
  happens 1024 (Run <$> [0; 1; 1; 1; 2]%nat ++ [1; 1]%nat) demo_procs !! 1%nat = Some (Returned 0 0).
Proof.
  apply (checkpoint_rendezvous 1024 1 0 2 10000 demo_procs [0; 1; 1; 1; 2]%nat [1; 1]%nat); try (simpl; lia); try reflexivity.
  - intros q x Hx. apply (demo_starting q x Hx).
  - intros q x Hne Hx. by apply (demo_starting q x Hx).
  - intros q x Hx. apply (demo_starting q x Hx).
  - vm_compute. discriminate.
Defined.

(** One process is to be woken and two wait: both are woken, and the wake fails. *)
Example wake_one_of_two :
  happens 1024 (Run <$> [0; 2; 1; 1; 1]%nat) [CallWait 0 10000; CallWake 0 1 1; CallWait 0 10000] =
  [Woken 0 1; Returned (-1) ETIMEDOUT; Woken 0 1].
Proof. reflexivity. Qed.

(** A timeout of 0 is not taken for none: the only attempt fails when nobody waits yet. *)
Example no_timeout_fails :
  happens 1024 (Run <$> [1; 1; 1; 0]%nat) [CallWait 0 0; CallWake 0 1 0] = [Blocked 0 (Timespec 0 0); Returned (-1) ETIMEDOUT].
Proof. reflexivity. Qed.
