(* ===== verification/TstTest.v ===== *)
(** * Running a test with the new library

    lib/tst_test.c: the process of the library forks the process of the test, which
    runs the functions of the test and may fork children.  All of them count their
    results in shared memory, and the library turns the counts and the status of
    the test into its exit status.  A process is a program over the calls the
    library makes; the processes of a test run interleaved in any order.  The
    functions of a test are programs over the interface of the library. *)

From Stdlib Require Import SpecFloat.
From S2P Require Import Prelude CInt CMem CString Names TstRes ParseOpts Kver.
Local Open Scope Z_scope.

(** ** Shared results *)

Inductive counter : Type := Passed | Skipped | Failed | Warnings.
#[global] Instance counter_eq_dec : EqDecision counter.
Proof. solve_decision. Defined.

Record results : Type := Results { passed : Z; skipped : Z; failed : Z; warnings : Z }.

Definition value (c : counter) (r : results) : Z :=
  match c with Passed => passed r | Skipped => skipped r | Failed => failed r | Warnings => warnings r end.
Definition set_value (c : counter) (v : Z) (r : results) : results :=
  match c with
  | Passed => Results v (skipped r) (failed r) (warnings r)
  | Skipped => Results (passed r) v (failed r) (warnings r)
  | Failed => Results (passed r) (skipped r) v (warnings r)
  | Warnings => Results (passed r) (skipped r) (failed r) v
  end.
Definition tst_atomic_inc (c : counter) (r : results) : results := set_value c (s32 (value c r + 1)) r.

(** ** Programs *)

(** What a process does next.  [Sys] is a call whose answer the rest of the system
    decides: [-errno] when it fails.  [Fork] goes on with 0 in the child and with
    the child's id, or [-errno], in the parent.  [Wait] goes on with the id, the
    status and errno.  [Handlers] installs the signal handlers with the timeout
    they use, [Beat] sends SIGUSR1 to the parent.  [Loop] repeats its body on a
    value until it gives none.  [Wild] is undefined behaviour. *)
Inductive prog (A : Type) : Type :=
| Done (a : A)
| Exit (code : Z)
| Die (sig : Z)
| Wild
| Sys (name : string) (k : Z → prog A)
| Puts (line : cstr) (k : prog A)
| Inc (c : counter) (k : prog A)
| Load (c : counter) (k : Z → prog A)
| Getpid (k : Z → prog A)
| Fork (k : Z → prog A)
| Setpgid (k : prog A)
| Wait (k : Z → Z → Z → prog A)
| Waitpid (pid : Z) (k : Z → prog A)
| Handlers (timeout : Z) (k : prog A)
| Alarm (secs : Z) (k : prog A)
| Beat (k : prog A)
| Loop (v : Z) (body : Z → prog (option Z)) (k : prog A).
Arguments Done {A} a.
Arguments Exit {A} code.
Arguments Die {A} sig.
Arguments Wild {A}.
Arguments Sys {A} name k.
Arguments Puts {A} line k.
Arguments Inc {A} c k.
Arguments Load {A} c k.
Arguments Getpid {A} k.
Arguments Fork {A} k.
Arguments Setpgid {A} k.
Arguments Wait {A} k.
Arguments Waitpid {A} pid k.
Arguments Handlers {A} timeout k.
Arguments Alarm {A} secs k.
Arguments Beat {A} k.
Arguments Loop {A} v body k.

Fixpoint bind {A B : Type} (f : A → prog B) (p : prog A) : prog B :=
  match p with
  | Done a => f a
  | Exit c => Exit c
  | Die sig => Die sig
  | Wild => Wild
  | Sys n k => Sys n (λ v, bind f (k v))
  | Puts l k => Puts l (bind f k)
  | Inc c k => Inc c (bind f k)
  | Load c k => Load c (λ v, bind f (k v))
  | Getpid k => Getpid (λ v, bind f (k v))
  | Fork k => Fork (λ v, bind f (k v))
  | Setpgid k => Setpgid (bind f k)
  | Wait k => Wait (λ pid st e, bind f (k pid st e))
  | Waitpid q k => Waitpid q (λ st, bind f (k st))
  | Handlers t k => Handlers t (bind f k)
  | Alarm n k => Alarm n (bind f k)
  | Beat k => Beat (bind f k)
  | Loop v body k => Loop v body (bind f k)
  end.
#[global] Instance prog_ret : MRet prog := λ A a, Done a.
#[global] Instance prog_bind : MBind prog := λ A B f p, bind f p.

Definition sys_ (name : string) : prog Z := Sys name Done.
Definition puts (line : cstr) : prog () := Puts line (Done ()).
Definition load (c : counter) : prog Z := Load c Done.
Definition getpid : prog Z := Getpid Done.
Definition lift {A} (m : res A) : prog A := match m with Ret a => Done a | _ => Wild end.
Definition when (b : bool) (p : prog ()) : prog () := if b then p else Done ().

(** The functions of a test: returns, results, breaks, SAFE_FORK, exits, deaths by a
    signal, waits for children, loops and other calls.  The pair is errno and
    TEST_ERRNO. *)
Inductive user (A : Type) : Type :=
| URet (a : A)
| URes (file : cstr) (lineno ttype : Z) (es : Z * Z) (text : cstr) (k : user A)
| UBrk (file : cstr) (lineno ttype : Z) (es : Z * Z) (text : cstr)
| UFork (file : cstr) (lineno : Z) (k : Z → user A)
| UExit (code : Z)
| UDie (sig : Z)
| UWait (k : Z → Z → Z → user A)
| USys (name : string) (k : Z → user A)
| ULoop (v : Z) (body : Z → user (option Z)) (k : user A).
Arguments URet {A} a.
Arguments URes {A} file lineno ttype es text k.
Arguments UBrk {A} file lineno ttype es text.
Arguments UFork {A} file lineno k.
Arguments UExit {A} code.
Arguments UDie {A} sig.
Arguments UWait {A} k.
Arguments USys {A} name k.
Arguments ULoop {A} v body k.

(** ** The test and the static variables *)

(** [has_arg] is whether there is a place for the argument. *)
Record tst_option : Type := TstOption { optstr : cstr; has_arg : bool; help : cstr }.

Record tst_test : Type := TstTest {
  tid : cstr; tcnt : Z; options : option (list tst_option); min_kver : option cstr;
  t_needs_tmpdir : bool; needs_root : bool; forks_child : bool; needs_device : bool; needs_checkpoints : bool;
  t_timeout : Z; setup : option (user ()); cleanup : option (user ());
  test : option (Z → user ()); test_all : option (user ()); resource_files : option (list cstr) }.

(** [results_set] is whether [results] is not NULL, [dev] whether [tdev.dev] is not. *)
Record glob : Type := Glob {
  results_set : bool; ipc_fd : Z; main_pid : Z; lib_pid : Z; tmpdir_created : bool; dev : bool;
  iterations : Z; duration : float; toptargs : list (option cstr); tst_max_futexes : Z }.
Definition glob0 : glob := Glob false 0 0 0 false false 1 (S754_finite true 8388608 (-23)) [] 0.
Definition set_results b g := Glob b (ipc_fd g) (main_pid g) (lib_pid g) (tmpdir_created g) (dev g) (iterations g)
  (duration g) (toptargs g) (tst_max_futexes g).
Definition set_ipc_fd fd g := Glob (results_set g) fd (main_pid g) (lib_pid g) (tmpdir_created g) (dev g) (iterations g)
  (duration g) (toptargs g) (tst_max_futexes g).
Definition set_main_pid p g := Glob (results_set g) (ipc_fd g) p (lib_pid g) (tmpdir_created g) (dev g) (iterations g)
  (duration g) (toptargs g) (tst_max_futexes g).
Definition set_lib_pid p g := Glob (results_set g) (ipc_fd g) (main_pid g) p (tmpdir_created g) (dev g) (iterations g)
  (duration g) (toptargs g) (tst_max_futexes g).
Definition set_tmpdir b g := Glob (results_set g) (ipc_fd g) (main_pid g) (lib_pid g) b (dev g) (iterations g)
  (duration g) (toptargs g) (tst_max_futexes g).
Definition set_dev b g := Glob (results_set g) (ipc_fd g) (main_pid g) (lib_pid g) (tmpdir_created g) b (iterations g)
  (duration g) (toptargs g) (tst_max_futexes g).
Definition set_iterations i g := Glob (results_set g) (ipc_fd g) (main_pid g) (lib_pid g) (tmpdir_created g) (dev g) i
  (duration g) (toptargs g) (tst_max_futexes g).
Definition set_duration d g := Glob (results_set g) (ipc_fd g) (main_pid g) (lib_pid g) (tmpdir_created g) (dev g)
  (iterations g) d (toptargs g) (tst_max_futexes g).
Definition set_toptargs l g := Glob (results_set g) (ipc_fd g) (main_pid g) (lib_pid g) (tmpdir_created g) (dev g)
  (iterations g) (duration g) l (tst_max_futexes g).
Definition set_futexes n g := Glob (results_set g) (ipc_fd g) (main_pid g) (lib_pid g) (tmpdir_created g) (dev g)
  (iterations g) (duration g) (toptargs g) n.

Definition WIFSIGNALED (st : Z) : bool := (0 <? WTERMSIG st) && (WTERMSIG st <? 127).
Definition SIGKILL : Z := 9.
Definition SIGUSR1 : Z := 10.
Definition SIGSEGV : Z := 11.
Definition SIGALRM : Z := 14.
Definition EINTR : Z := 4.
Definition ECHILD : Z := 10.

(** What is not the library's: [uname]'s release, [atof], the variable
    LTP_TIMEOUT_MUL, [getopt], the size of a page, the messages of the safe_
    functions, the names the compiler gives tst_test.c and tst_kvercmp.c, what
    arrays on the stack held before, and how deep calls of tst_brk may nest before
    the stack is exhausted. *)
Record test_env : Type := TestEnv {
  release : cstr; atof : cstr → float; LTP_TIMEOUT_MUL : option cstr; getopt : cstr → list (ascii * cstr);
  page_size : Z; safe_mesg : string → cstr; FILE : cstr; KVER_FILE : cstr; garbage : cstr; junk : nat → cstr;
  depth : nat }.

Section tst_test.
Context (E : test_env) (tst : tst_test).

(** A call of tst_brk from anywhere. *)
Definition brk_t : Type := glob → cstr → Z → Z → Z * Z → cstr → ∀ A, prog A.

(** ** Reporting *)

Definition result_name (ttype : Z) : option cstr :=
  let t := TTYPE_RESULT ttype in
  if t =? TPASS then Some (str "PASS")
  else if t =? TFAIL then Some (str "FAIL")
  else if t =? TBROK then Some (str "BROK")
  else if t =? TCONF then Some (str "CONF")
  else if t =? TWARN then Some (str "WARN")
  else if t =? TINFO then Some (str "INFO")
  else None.

(** The text of the error number a type asks for. *)
Definition errno_name (ttype : Z) (es : Z * Z) : option cstr :=
  if has ttype TTERRNO then Some (tst_strerrno es.2)
  else if has ttype TERRNO then Some (tst_strerrno es.1)
  else None.

(** The line that is put together in [buf]. *)
Definition result_line (file : cstr) (lineno : Z) (name : cstr) (str_errno : option cstr) (text : cstr) : res cstr :=
  let size := 1024 in
  r ← snprintf_into (garbage E) 0 size (file ++ str ":" ++ fmt_d lineno ++ str ": " ++ name ++ str ": ");
  let '(buf, ret) := (r : cstr * Z) in
  let s := ret in
  let size := size - ret in
  r ← snprintf_into buf s size text;
  let '(buf, ret) := (r : cstr * Z) in
  let s := s + ret in
  let size := size - ret in
  r ← snprintf_into buf s size
        match str_errno with Some e => str ": " ++ e ++ [nl] | None => [nl] end;
  Ret (as_string r.1).

Definition print_result (brk : brk_t) (g : glob) (file : cstr) (lineno ttype : Z) (es : Z * Z) (text : cstr) : prog () :=
  match result_name ttype with
  | None => brk g (FILE E) 187 TBROK es (str "Invalid ttype value " ++ fmt_d ttype) unit
  | Some name => line ← lift (result_line file lineno name (errno_name ttype es) text); puts line
  end.

Definition inc (c : counter) : prog () := Inc c (Done ()).

Definition update_results (brk : brk_t) (g : glob) (file : cstr) (lineno ttype : Z) (es : Z * Z) : prog () :=
  if negb (results_set g) then
    brk g (FILE E) 138 TBROK es (file ++ str ": " ++ fmt_d lineno ++ str ": Results IPC not initialized!") unit
  else if ttype =? TCONF then inc Skipped
  else if ttype =? TPASS then inc Passed
  else if ttype =? TWARN then inc Warnings
  else if ttype =? TFAIL then inc Failed
  else Done ().

Definition tst_vres_ (brk : brk_t) (g : glob) (file : cstr) (lineno ttype : Z) (es : Z * Z) (text : cstr) : prog () :=
  _ ← print_result brk g file lineno ttype es text;
  update_results brk g file lineno (TTYPE_RESULT ttype) es.

Definition safe_fork (brk : brk_t) (g : glob) (filename : cstr) (lineno : Z) : prog Z :=
  if negb (forks_child tst) then brk g (FILE E) 318 TBROK (0, 0) (str "test.forks_child must be set!") Z
  else
    pid ← Fork Done;
    if pid <? 0 then brk g filename lineno (TBROK + TERRNO) (- pid, 0) (str "fork() failed") Z else Done pid.

(** A function of the test, run in a process with the variables [g]. *)
Fixpoint interp (brk : brk_t) (g : glob) {A : Type} (u : user A) : prog A :=
  match u with
  | URet a => Done a
  | URes file lineno ttype es text k => _ ← tst_vres_ brk g file lineno ttype es text; interp brk g k
  | UBrk file lineno ttype es text => brk g file lineno ttype es text A
  | UFork file lineno k => pid ← safe_fork brk g file lineno; interp brk g (k pid)
  | UExit code => Exit code
  | UDie sig => Die sig
  | UWait k => Wait (λ pid st e, interp brk g (k pid st e))
  | USys name k => Sys name (λ v, interp brk g (k v))
  | ULoop v body k => Loop v (λ v, interp brk g (body v)) (interp brk g k)
  end.

Definition call (brk : brk_t) (g : glob) (f : option (user ())) : prog () :=
  match f with Some u => interp brk g u | None => Done () end.

Definition do_test_cleanup (brk : brk_t) (g : glob) : prog () := call brk g (cleanup tst).

(** ** The end of the library's process *)

(** The file of the shared memory, once setup_ipc has named it. *)
Definition shm_path (g : glob) : cstr :=
  snprintf_cut 1024 (str "/dev/shm/ltp_" ++ tid tst ++ str "_" ++ fmt_d (lib_pid g)).

Definition cleanup_ipc (brk : brk_t) (g : glob) : prog () :=
  _ ← when (0 <? ipc_fd g)
        (e ← sys_ "close"; when (negb (e =? 0)) (tst_vres_ brk g (FILE E) 104 (TWARN + TERRNO) (- e, 0) (str "close(ipc_fd) failed")));
  a ← sys_ "access(shm_path)";
  _ ← when (a =? 0)
        (e ← sys_ "unlink(shm_path)";
         when (negb (e =? 0)) (tst_vres_ brk g (FILE E) 107 (TWARN + TERRNO) (- e, 0) (str "unlink(" ++ shm_path g ++ str ") failed")));
  _ ← sys_ "msync";
  _ ← sys_ "munmap";
  Done ().

Definition needs_tmpdir : bool :=
  t_needs_tmpdir tst || needs_device tst || bool_decide (is_Some (resource_files tst)) || needs_checkpoints tst.

Definition do_cleanup (brk : brk_t) (g : glob) : prog () :=
  _ ← when (needs_device tst && dev g) (_ ← sys_ "tst_release_device"; Done ());
  _ ← when (needs_tmpdir && tmpdir_created g) (_ ← sys_ "tst_rmdir"; Done ());
  cleanup_ipc brk g.

Definition summary_line (name : cstr) (v : Z) : cstr := name ++ fmt_d v ++ [nl].

Definition do_exit (brk : brk_t) (g : glob) (ret : Z) {A} : prog A :=
  _ ← puts (nl :: str "Summary:" ++ [nl]);
  if negb (results_set g) then Wild
  else
    p ← load Passed; _ ← puts (summary_line (str "passed   ") p);
    f ← load Failed; _ ← puts (summary_line (str "failed   ") f);
    s ← load Skipped; _ ← puts (summary_line (str "skipped  ") s);
    w ← load Warnings; _ ← puts (summary_line (str "warnings ") w);
    f ← load Failed;
    let ret := if f =? 0 then ret else Z.lor ret TFAIL in
    s ← load Skipped;
    let ret := if s =? 0 then ret else Z.lor ret TCONF in
    w ← load Warnings;
    let ret := if w =? 0 then ret else Z.lor ret TWARN in
    _ ← do_cleanup brk g;
    Exit ret.

(** tst_brk; [depth] calls of it fit on the stack. *)
Fixpoint tst_vbrk_ (depth : nat) : brk_t := λ g file lineno ttype es text A,
  match depth with
  | O => Die SIGSEGV
  | S depth =>
      let brk := tst_vbrk_ depth in
      _ ← print_result brk g file lineno ttype es text;
      pid ← getpid;
      _ ← when (pid =? main_pid g) (do_test_cleanup brk g);
      pid ← getpid;
      if pid =? lib_pid g then do_exit brk g (TTYPE_RESULT ttype) else Exit (TTYPE_RESULT ttype)
  end.

Definition tst_brk (g : glob) (line ttype : Z) (e : Z) (text : cstr) {A} : prog A :=
  tst_vbrk_ (depth E) g (FILE E) line ttype (e, 0) text A.
Definition tst_res (g : glob) (line ttype : Z) (text : cstr) : prog () :=
  tst_vres_ (tst_vbrk_ (depth E)) g (FILE E) line ttype (0, 0) text.

(** A safe_ function, which breaks the test when the call fails. *)
Definition safe (g : glob) (line : Z) (name : string) : prog Z :=
  v ← sys_ name;
  if v <? 0 then tst_brk g line (TBROK + TERRNO) (- v) (safe_mesg E name) else Done v.

(** ** Children *)

Definition check_child_status (g : glob) (pid status : Z) : prog () :=
  if WIFSIGNALED status then
    tst_brk g 270 TBROK 0 (str "Child (" ++ fmt_d pid ++ str ") killed by signal " ++ tst_strsig (WTERMSIG status))
  else if negb (WIFEXITED status) then tst_brk g 275 TBROK 0 (str "Child (" ++ fmt_d pid ++ str ") exitted abnormaly")
  else
    let ret := WEXITSTATUS status in
    if ret =? TPASS then Done ()
    else if (ret =? TBROK) || (ret =? TCONF) then
      tst_brk g 283 ret 0 (str "Reported by child (" ++ fmt_d pid ++ str ")")
    else tst_brk g 285 TBROK 0 (str "Invalid child (" ++ fmt_d pid ++ str ") exit value " ++ fmt_d ret).

Definition reap_children (g : glob) : prog () :=
  Loop 0 (λ _,
    r ← Wait (λ pid status e, Done (pid, status, e));
    let '(pid, status, e) := (r : Z * Z * Z) in
    if 0 <? pid then _ ← check_child_status g pid status; Done (Some 0)
    else if e =? ECHILD then Done None
    else if e =? EINTR then Done (Some 0)
    else tst_brk g 308 (TBROK + TERRNO) e (str "wait() failed"))
  (Done ()).

(** ** Options *)

(** "h", "i:", "I:" and "C:" with their help. *)
Definition lib_options : list (cstr * cstr) :=
  [(str "h", str "-h      Prints this help"); (str "i:", str "-i n    Execute test n times");
   (str "I:", str "-I x    Execute test for n seconds");
   (str "C:", str "-C ARG  Run child process with ARG arguments (used internally)")].

Definition toptions : list tst_option := default [] (options tst).

Fixpoint put_all (ls : list cstr) : prog () :=
  match ls with [] => Done () | l :: ls => Puts l (put_all ls) end.
Definition print_help : prog () :=
  put_all (map (λ o, o.2 ++ [nl]) lib_options ++ map help toptions).

Definition char0 (s : cstr) : ascii := match s with c :: _ => c | [] => NUL end.

Fixpoint check_option_collision (g : glob) (l : list tst_option) : prog () :=
  match l with
  | [] => Done ()
  | o :: l =>
      match find (λ p, char0 (optstr o) =c char0 p.1) lib_options with
      | Some p => tst_brk g 364 TBROK 0 (str "Option collision '" ++ p.2 ++ str "'")
      | None => check_option_collision g l
      end
  end.

Definition count_options : Z := zlength toptions.

(** The index of the option of the test. *)
Definition parse_topt (g : glob) (topts_len : Z) (opt : ascii) (optarg : cstr) : prog glob :=
  match list_find (λ o, char0 (optstr o) = opt) toptions with
  | None => tst_brk g 394 TBROK 0 (str "Invalid option '" ++ [opt] ++ str "' (should not happen)")
  | Some (i, o) => if has_arg o then Done (set_toptargs (<[i := Some optarg]> (toptargs g)) g) else Wild
  end.

(** [strcat] in the array. *)
Definition strcat_opt (buf s : cstr) : res cstr := mem_write buf (zlength (as_string buf)) (s ++ [NUL]).
Fixpoint cat_opts (buf : cstr) (l : list cstr) : res cstr :=
  match l with [] => Ret buf | s :: l => buf ← strcat_opt buf s; cat_opts buf l end.

Definition opt_string : res cstr :=
  buf ← mem_write (junk E (Z.to_nat (2 * zlength lib_options + 2 * count_options))) 0 [NUL];
  buf ← cat_opts buf (map fst lib_options);
  buf ← cat_opts buf (map optstr toptions);
  Ret (as_string buf).

(** One result of [getopt]; -C only matters on systems without fork. *)
Definition handle_opt (g : glob) (opt : ascii) (optarg : cstr) : prog glob :=
  if opt =c "?"%char then _ ← print_help; tst_brk g 424 TBROK 0 (str "Invalid option")
  else if opt =c "h"%char then _ ← print_help; Exit 0
  else if opt =c "i"%char then Done (set_iterations (atoi optarg) g)
  else if opt =c "I"%char then Done (set_duration (atof E optarg) g)
  else if opt =c "C"%char then Done g
  else parse_topt g count_options opt optarg.
Fixpoint handle_opts (g : glob) (l : list (ascii * cstr)) : prog glob :=
  match l with [] => Done g | (opt, optarg) :: l => g ← handle_opt g opt optarg; handle_opts g l end.

Definition parse_opts (g : glob) : prog glob :=
  _ ← check_option_collision g toptions;
  optstr ← lift opt_string;
  handle_opts (set_toptargs (map (λ _, None) toptions) g) (getopt E optstr).

(** ** Setting up *)

Definition sizeof_results : Z := 16.
Definition max_futexes : Z := u32 (u64 (page_size E - sizeof_results) / 4).

Definition setup_ipc (g : glob) : prog glob :=
  fd ← sys_ "open(shm_path)";
  let g := set_ipc_fd fd g in
  if fd <? 0 then tst_brk g 79 (TBROK + TERRNO) (- fd) (str "open(" ++ shm_path g ++ str ")")
  else
    _ ← safe g 81 "ftruncate";
    _ ← safe g 83 "mmap";
    let g := set_results true g in
    _ ← (if needs_checkpoints tst
         then lift (_ ← mem_write (junk E 1024) 0 (str "LTP_IPC_PATH=" ++ shm_path g ++ [NUL]); Ret 0)
         else safe g 89 "unlink(shm_path)");
    _ ← safe g 91 "close";
    let g := set_ipc_fd (-1) g in
    Done (if needs_checkpoints tst then set_futexes max_futexes g else g).

(** In a program started by exec; [path] is the variable LTP_IPC_PATH. *)
Definition tst_reinit (g : glob) (path : option cstr) : prog glob :=
  match path with
  | None => tst_brk g 121 TBROK 0 (str "LTP_IPC_PATH is not defined")
  | Some p =>
      a ← sys_ "access(path)";
      if negb (a =? 0) then tst_brk g 124 TBROK 0 (str "File " ++ p ++ str " does not exist!")
      else
        _ ← safe g 126 "open";
        _ ← safe g 128 "mmap";
        let g := set_futexes max_futexes g in
        _ ← safe g 132 "close";
        Done g
  end.

Fixpoint report_all (g : glob) (l : list Kver.report) : prog () :=
  match l with
  | [] => Done ()
  | (ttype, text) :: l => _ ← tst_vres_ (tst_vbrk_ (depth E)) g (KVER_FILE E) 70 ttype (0, 0) text; report_all g l
  end.

Definition check_kver (g : glob) (kver : cstr) : prog () :=
  let '(v1, v2, v3, reports) := tst_parse_kver kver in
  _ ← report_all g reports;
  r ← lift (tst_kvercmp (release E) v1 v2 v3);
  _ ← report_all g r.2;
  if r.1 <? 0 then tst_brk g 475 TCONF 0 (str "The test requires kernel " ++ kver ++ str " or newer") else Done ().

Fixpoint copy_resources (g : glob) (files : list cstr) : prog () :=
  match files with [] => Done () | f :: files => _ ← safe g 507 "tst_resource_copy"; copy_resources g files end.

Definition is_set {A} (o : option A) : bool := bool_decide (is_Some o).

Definition do_setup (g : glob) : prog glob :=
  if negb (is_set (test tst)) && negb (is_set (test_all tst)) then tst_brk g 519 TBROK 0 (str "No test function speficied")
  else if is_set (test tst) && is_set (test_all tst) then
    tst_brk g 522 TBROK 0 (str "You can define either test() or test_all()")
  else if is_set (test tst) && (tcnt tst =? 0) then tst_brk g 525 TBROK 0 (str "Number of tests (tcnt) must not be > 0")
  else if is_set (test_all tst) && negb (tcnt tst =? 0) then
    tst_brk g 528 TBROK 0 (str "You can't define tcnt for test_all()")
  else
    euid ← (if needs_root tst then sys_ "geteuid" else Done 0);
    if negb (euid =? 0) then tst_brk g 531 TCONF 0 (str "Test needs to be run as root")
    else
      _ ← (match min_kver tst with Some kver => check_kver g kver | None => Done () end);
      g ← parse_opts g;
      g ← setup_ipc g;
      g ← (if needs_tmpdir then _ ← safe g 541 "tst_tmpdir"; Done (set_tmpdir true g) else Done g);
      g ← (if needs_device tst then
             d ← sys_ "tst_acquire_device";
             _ ← sys_ "tst_dev_fs_type";
             if d =? 0 then tst_brk g 550 TCONF 0 (str "Failed to acquire device") else Done (set_dev true g)
           else Done g);
      _ ← (match resource_files tst with Some files => copy_resources g files | None => Done () end);
      Done g.

(** ** The process of the test *)

(** The process id is kept in [main_pid] before setup() is called. *)
Definition do_test_setup (g : glob) : prog glob :=
  pid ← getpid;
  let g := set_main_pid pid g in
  _ ← call (tst_vbrk_ (depth E)) g (setup tst);
  pid ← getpid;
  if negb (main_pid g =? pid) then tst_brk g 567 TBROK 0 (str "Runaway child in setup()!") else Done g.

(** [*results], a counter at a time. *)
Definition save_results : prog results :=
  p ← load Passed; s ← load Skipped; f ← load Failed; w ← load Warnings; Done (Results p s f w).

(** [results_equal(&saved_results, results)] *)
Definition results_equal (saved : results) : prog bool :=
  p ← load Passed;
  if negb (passed saved =? p) then Done false
  else
    f ← load Failed;
    if negb (failed saved =? f) then Done false
    else
      s ← load Skipped;
      if negb (skipped saved =? s) then Done false else Done true.

(** One call of the test, what both branches of run_tests do. *)
Definition run_one (g : glob) (f : user ()) (line : Z) (none : cstr) : prog () :=
  saved ← save_results;
  _ ← interp (tst_vbrk_ (depth E)) g f;
  pid ← getpid;
  if negb (pid =? main_pid g) then Exit 0
  else
    _ ← reap_children g;
    eq ← results_equal saved;
    if eq : bool then tst_brk g line TBROK 0 none else Done ().

Definition run_tests (g : glob) : prog () :=
  match test tst with
  | None =>
      match test_all tst with
      | Some f => run_one g f 600 (str "Test haven't reported results!")
      | None => Wild
      end
  | Some f =>
      Loop 0 (λ i,
        if i <? tcnt tst then
          _ ← run_one g (f i) 615 (str "Test " ++ fmt_d i ++ str " haven't reported results!");
          Done (Some (i + 1))
        else Done None)
      (Done ())
  end.

(** [gettimeofday] answers in microseconds. *)
Definition get_time_ms : prog Z :=
  t ← sys_ "gettimeofday";
  Done (u64 (t / 1000000 * 1000 + t mod 1000000 / 1000)).

(** 1000 as a [float]. *)
Definition f1000 : float := S754_finite false 16384000 (-14).

Definition stop_time (g : glob) : prog Z :=
  if SFltb f0 (duration g) then
    t ← get_time_ms;
    d ← lift (f_to_u64 (fmul (duration g) f1000));
    Done (u64 (t + d))
  else Done 0.

Definition testrun (g : glob) {A} : prog A :=
  g ← do_test_setup g;
  stop ← stop_time g;
  _ ← Loop 0 (λ i,
        let '(i, cont) := if i <? u32 (iterations g) then (i + 1, true) else (i, false) in
        cont ← (if negb (stop =? 0) then t ← get_time_ms; Done (cont || (t <? stop)) else Done cont);
        if negb cont then Done None
        else _ ← run_tests g; _ ← Beat (Done ()); Done (Some i))
      (Done ());
  _ ← do_test_cleanup (tst_vbrk_ (depth E)) g;
  Exit 0.

(** ** The process of the library *)

Definition f1 : float := S754_finite false 8388608 (-23).
(** [timeout * m + 0.5], the product a [float], the sum a [double]. *)
Definition scale_timeout (timeout : Z) (m : float) : res Z :=
  let p := fmul (binary_normalize 24 128 timeout 0 false) m in
  let d := match p with
           | S754_finite s mant e => binary_normalize 53 1024 (if s then Z.neg mant else Z.pos mant) e s
           | _ => p
           end in
  r ← f_to_u64 (SFadd 53 1024 d (S754_finite false 4503599627370496 (-53)));
  if r <? 2 ^ 32 then Ret r else Undef.

Definition get_timeout (g : glob) : prog Z :=
  let timeout := if t_timeout tst =? 0 then 300 else t_timeout tst in
  match LTP_TIMEOUT_MUL E with
  | Some mul =>
      let m := atof E mul in
      if SFltb m f1 then tst_brk g 694 TBROK 0 (str "Invalid timeout multiplier '" ++ mul ++ str "'")
      else lift (scale_timeout timeout m)
  | None => Done timeout
  end.

(** What follows [SAFE_WAITPID]. *)
Definition after_wait (g : glob) (status : Z) {A} : prog A :=
  _ ← Alarm 0 (Done ());
  if WIFEXITED status && negb (WEXITSTATUS status =? 0) then do_exit (tst_vbrk_ (depth E)) g (WEXITSTATUS status)
  else
    if WIFSIGNALED status && (WTERMSIG status =? SIGKILL) then
      _ ← tst_res g 723 TINFO (str "If you are running on slow machine, try exporting LTP_TIMEOUT_MUL > 1");
      tst_brk g 725 TBROK 0 (str "Test killed! (timeout?)")
    else if WIFSIGNALED status then
      tst_brk g 729 TBROK 0 (str "Test killed by " ++ tst_strsig (WTERMSIG status) ++ str "!")
    else do_exit (tst_vbrk_ (depth E)) g 0.

Definition tst_run_tcases : prog Empty_set :=
  pid ← getpid;
  let g := set_lib_pid pid glob0 in
  g ← do_setup g;
  timeout ← get_timeout g;
  _ ← tst_res g 699 TINFO (str "Timeout per run is " ++ digits 10 timeout ++ str "s");
  _ ← Handlers timeout (Done ());
  _ ← Alarm timeout (Done ());
  test_pid ← Fork Done;
  if test_pid <? 0 then tst_brk g 708 (TBROK + TERRNO) (- test_pid) (str "fork()")
  else if test_pid =? 0 then _ ← Setpgid (Done ()); testrun g
  else
    status ← Waitpid test_pid Done;
    after_wait g status.
End tst_test.

(** ** Processes *)

Inductive pstate : Type :=
| Run (p : prog Empty_set)
| Zombie (status : Z).

Record proc : Type := Proc { pst : pstate; ppid : Z; pgid : Z }.

(** [lib] is the process of the library and [test_pid] its variable of that name,
    [handler] the timeout of its handlers once they are installed, [alarm] its timer;
    [incs] counts the increments of the results and [fired] the alarms that went off. *)
Record system : Type := System {
  procs : gmap Z proc; lib : Z; test_pid : Z; shared : results; incs : Z; handler : option Z; alarm : option Z; fired : Z;
  out : list cstr }.

Definition exit_status (code : Z) : Z := Z.land code 255 * 256.

Definition set_procs m s := System m (lib s) (test_pid s) (shared s) (incs s) (handler s) (alarm s) (fired s) (out s).
Definition set_test_pid v s := System (procs s) (lib s) v (shared s) (incs s) (handler s) (alarm s) (fired s) (out s).
Definition set_shared r n s := System (procs s) (lib s) (test_pid s) r n (handler s) (alarm s) (fired s) (out s).
Definition set_handler h s := System (procs s) (lib s) (test_pid s) (shared s) (incs s) h (alarm s) (fired s) (out s).
Definition set_alarm a s := System (procs s) (lib s) (test_pid s) (shared s) (incs s) (handler s) a (fired s) (out s).
Definition set_fired n s := System (procs s) (lib s) (test_pid s) (shared s) (incs s) (handler s) (alarm s) n (out s).
Definition set_out l s := System (procs s) (lib s) (test_pid s) (shared s) (incs s) (handler s) (alarm s) (fired s) l.
Definition goes_on (pid : Z) (pr : proc) (p : prog Empty_set) (s : system) : system :=
  set_procs (<[pid := Proc (Run p) (ppid pr) (pgid pr)]> (procs s)) s.

(** The children of a process that ends go to process 1. *)
Definition adopt (pid : Z) (pr : proc) : proc := if ppid pr =? pid then Proc (pst pr) 1 (pgid pr) else pr.
Definition ends_with (pid : Z) (pr : proc) (status : Z) (s : system) : system :=
  set_procs (<[pid := Proc (Zombie status) (ppid pr) (pgid pr)]> (adopt pid <$> procs s)) s.

(** [kill] with SIGKILL for the processes of a group, whose children go to process 1. *)
Definition in_group (q : Z) (pr : proc) : bool :=
  match pst pr with Run _ => pgid pr =? q | Zombie _ => false end.
Definition kill_group (q : Z) (m : gmap Z proc) : gmap Z proc :=
  (λ pr,
    let pp := match m !! ppid pr with Some parent => if in_group q parent then 1 else ppid pr | None => ppid pr end in
    Proc (if in_group q pr then Zombie SIGKILL else pst pr) pp (pgid pr)) <$> m.

(** [kill(-test_pid, SIGKILL)]: before the fork this is the group of the caller. *)
Definition alarm_handler (pr : proc) (s : system) : system :=
  if test_pid s =? 0 then set_procs (kill_group (pgid pr) (procs s)) s
  else if 0 <? test_pid s then set_procs (kill_group (test_pid s) (procs s)) s
  else s.

(** [alarm(timeout)] *)
Definition heartbeat_handler (t : Z) (s : system) : system := set_alarm (if t =? 0 then None else Some t) s.

(** A signal for the process of the library: it runs the handler, or ends it when
    there is none. *)
Definition signal_lib (sig : Z) (run : proc → Z → system → system) (s : system) : system :=
  match procs s !! lib s with
  | Some pr =>
      match pst pr with
      | Run _ => match handler s with Some t => run pr t s | None => ends_with (lib s) pr sig s end
      | Zombie _ => s
      end
  | None => s
  end.

(** The next action of a process; [v] is what the rest of the system decides: the
    answer of a call, the id of a new process, or the child that is reaped ([-EINTR]
    when a signal interrupts the wait). *)
Definition act (pid v : Z) (pr : proc) (p : prog Empty_set) (s : system) : option system :=
  match p with
  | Done a => match a with end
  | Exit c => Some (ends_with pid pr (exit_status c) s)
  | Die sig => Some (ends_with pid pr sig s)
  | Wild => None
  | Sys _ k => Some (goes_on pid pr (k v) s)
  | Puts l k => Some (goes_on pid pr k (set_out (out s ++ [l]) s))
  | Inc c k => Some (goes_on pid pr k (set_shared (tst_atomic_inc c (shared s)) (incs s + 1) s))
  | Load c k => Some (goes_on pid pr (k (value c (shared s))) s)
  | Getpid k => Some (goes_on pid pr (k pid) s)
  | Fork k =>
      let s := if pid =? lib s then set_test_pid v s else s in
      if v <? 0 then Some (goes_on pid pr (k v) s)
      else if (1 <? v) && negb (is_set (procs s !! v)) then
        Some (set_procs (<[v := Proc (Run (k 0)) pid (pgid pr)]> (procs (goes_on pid pr (k v) s))) s)
      else None
  | Setpgid k => Some (goes_on pid (Proc (pst pr) (ppid pr) pid) k s)
  | Wait k =>
      match procs s !! v with
      | Some (Proc (Zombie st) pp _) =>
          if pp =? pid then Some (set_procs (delete v (procs (goes_on pid pr (k v st 0) s))) s) else None
      | _ =>
          if bool_decide (map_Forall (λ _ q, ppid q ≠ pid) (procs s)) then Some (goes_on pid pr (k (-1) 0 ECHILD) s)
          else if v =? - EINTR then Some (goes_on pid pr (k (-1) 0 EINTR) s)
          else None
      end
  | Waitpid q k =>
      match procs s !! q with
      | Some (Proc (Zombie st) pp _) =>
          if pp =? pid then Some (set_procs (delete q (procs (goes_on pid pr (k st) s))) s) else None
      | _ => None
      end
  | Handlers t k => Some (goes_on pid pr k (set_handler (if pid =? lib s then Some t else handler s) s))
  | Alarm n k =>
      Some (goes_on pid pr k (set_alarm (if pid =? lib s then if n =? 0 then None else Some n else alarm s) s))
  | Beat k =>
      let s := goes_on pid pr k s in
      Some (if ppid pr =? lib s then signal_lib SIGUSR1 (λ _, heartbeat_handler) s else s)
  | Loop v body k => Some (goes_on pid pr (bind (λ r, match r with Some v => Loop v body k | None => k end) (body v)) s)
  end.

(** The process the library waits for. *)
Definition waiting (s : system) : option Z :=
  match procs s !! lib s with
  | Some (Proc (Run (Waitpid q _)) _ _) => Some q
  | _ => None
  end.

(** A second passes, and the alarm may go off. *)
Definition tick (s : system) : system :=
  match alarm s with
  | None => s
  | Some n =>
      if 1 <? n then set_alarm (Some (n - 1)) s
      else signal_lib SIGALRM (λ pr _, alarm_handler pr) (set_fired (fired s + 1) (set_alarm None s))
  end.

Inductive choice : Type :=
| Do (pid v : Z)
| Tick.

Definition do_step (c : choice) (s : system) : option system :=
  match c with
  | Do pid v =>
      match procs s !! pid with
      | Some pr => match pst pr with Run p => act pid v pr p s | Zombie _ => None end
      | None => None
      end
  | Tick => Some (tick s)
  end.

Fixpoint run_choices (cs : list choice) (s : system) : option system :=
  match cs with [] => Some s | c :: cs => do_step c s ≫= run_choices cs end.

Inductive steps (s : system) : system → Prop :=
| steps_refl : steps s s
| steps_step s1 s2 c : steps s s1 → do_step c s1 = Some s2 → steps s s2.

Definition start (pid : Z) (p : prog Empty_set) : system :=
  System {[pid := Proc (Run p) 1 pid]} pid 0 (Results 0 0 0 0) 0 None None 0 [].

Definition status_of (pid : Z) (s : system) : option Z :=
  match procs s !! pid with Some (Proc (Zombie st) _ _) => Some st | _ => None end.
