(* ===== verification/TstLogic.v ===== *)
(** * The results of a test

    The correctness of lib/tst_test.c, for every interleaving of the processes of a
    test: a logic of programs that share the counters, its soundness for the steps
    of the system, and what the exit status of the library tells. *)

From Stdlib Require Import SpecFloat.
From S2P Require Import Prelude CInt CMem CString Names TstRes ParseOpts Kver TstTest.
Local Open Scope Z_scope.

(** ** Knowledge about the results

    What a process knows of the shared results is a lower bound of each counter:
    the counters only grow.  [wp] says that from this knowledge on a program ends as
    [ends] allows, whatever the other processes do; a logic for each kind of process
    states what is allowed, and what is known of the child that is waited for. *)

Record know : Type := Know { floor : results; waited : option Z }.

Definition below (r r' : results) : Prop := ∀ c, value c r ≤ value c r'.
#[global] Instance below_preorder : PreOrder below.
Proof. split; [by intros ? ?|]. intros r1 r2 r3 H1 H2 c. specialize (H1 c). specialize (H2 c). lia. Qed.

Definition raise (c : counter) (v : Z) (κ : know) : know := Know (set_value c v (floor κ)) (waited κ).

Record logic : Type := Logic {
  ends_ok : Z → Z → know → Prop;
  wait_ok : Z → Z → results → Prop;
  first : know → Prop;
  child_ok : ∀ A, Z → prog A → know → Prop }.

Fixpoint wp (l : logic) (me : Z) {A : Type} (p : prog A) (Q : A → know → Prop) (κ : know) {struct p} : Prop :=
  match p with
  | Done a => Q a κ
  | Exit c => ends_ok l me (exit_status c) κ
  | Die sig => ends_ok l me sig κ
  | Wild => True
  | Sys _ k => ∀ v, wp l me (k v) Q κ
  | Puts _ k | Inc _ k | Setpgid k | Handlers _ k | Alarm _ k | Beat k => wp l me k Q κ
  | Load c k => ∀ v, value c (floor κ) ≤ v → wp l me (k v) Q (raise c v κ)
  | Getpid k => wp l me (k me) Q κ
  | Fork k =>
      first l κ ∧ (∀ v, v ≠ 0 → wp l me (k v) Q κ) ∧ (∀ v, 1 < v → v ≠ me → child_ok l _ v (k 0) κ)
  | Wait k => ∀ pid st e, wp l me (k pid st e) Q κ
  | Waitpid q k =>
      first l κ ∧ ∀ st r, below (floor κ) r → wait_ok l q st r → wp l me (k st) Q (Know r (Some st))
  | Loop v body k =>
      ∃ Inv : Z → know → Prop, Inv v κ ∧
        ∀ v κ, Inv v κ → wp l me (body v) (λ r κ, match r with Some v => Inv v κ | None => wp l me k Q κ end) κ
  end.

Lemma wp_mono l me {A : Type} (p : prog A) (Q Q' : A → know → Prop) κ :
  (∀ a κ, Q a κ → Q' a κ) → wp l me p Q κ → wp l me p Q' κ.
Proof.
  revert Q Q' κ. induction p as [| | | |A n k IH|A n k IH|A c k IH|A c k IH|A k IH|A k IH|A k IH|A k IH|A q k IH|A t k IH|A t k IH|A k IH|A v body IHb k IH];
    intros Q Q' κ HQ; simpl; try done; eauto.
  - intros (? & H & ?). split_and!; eauto.
  - intros (? & H). split; eauto.
  - intros (Inv & H0 & H). exists Inv. split; [done|]. intros v' κ' Hi.
    eapply IHb; [|by apply H]. intros [?|] κ''; [done|]. by apply IH.
Qed.

(** The children of a program that goes on with [f] are children that go on so. *)
Class Children (l : logic) : Prop :=
  child_bind A B v (p : prog A) (f : A → prog B) κ : child_ok l A v p κ → child_ok l B v (bind f p) κ.

Lemma wp_bind l `{!Children l} me {A B : Type} (p : prog A) (f : A → prog B) Q κ :
  wp l me p (λ a κ, wp l me (f a) Q κ) κ → wp l me (p ≫= f) Q κ.
Proof.
  unfold mbind, prog_bind.
  revert f κ. induction p as [| | | |A n k IH|A n k IH|A c k IH|A c k IH|A k IH|A k IH|A k IH|A k IH|A q k IH|A t k IH|A t k IH|A k IH|A v body IHb k IH];
    intros f κ; simpl; try done; eauto.
  - intros (? & H & ?). split_and!; eauto.
  - intros (? & H). split; eauto.
  - intros (Inv & H0 & H). exists Inv. split; [done|]. intros v' κ' Hi.
    eapply wp_mono; [|by apply H]. intros [?|] κ''; [done|]. by apply IH.
Qed.

Lemma wp_getpid l me {A : Type} (f : Z → prog A) Q κ : wp l me (f me) Q κ → wp l me (getpid ≫= f) Q κ.
Proof. done. Qed.

Lemma wp_load l me {A : Type} c (f : Z → prog A) Q κ :
  (∀ v, value c (floor κ) ≤ v → wp l me (f v) Q (raise c v κ)) → wp l me (load c ≫= f) Q κ.
Proof. done. Qed.

Lemma wp_sys l me {A : Type} name (f : Z → prog A) Q κ : (∀ v, wp l me (f v) Q κ) → wp l me (sys_ name ≫= f) Q κ.
Proof. done. Qed.

Lemma wp_puts l me {A : Type} line (f : unit → prog A) Q κ : wp l me (f ()) Q κ → wp l me (puts line ≫= f) Q κ.
Proof. done. Qed.

Lemma wp_fork l me {A : Type} (f : Z → prog A) Q κ :
  first l κ → (∀ v, v ≠ 0 → wp l me (f v) Q κ) → (∀ v, 1 < v → v ≠ me → child_ok l A v (f 0) κ) →
  wp l me (Fork Done ≫= f) Q κ.
Proof. by intros ? ? ?. Qed.

Lemma wp_waitpid l me {A : Type} q (f : Z → prog A) Q κ :
  first l κ → (∀ st r, below (floor κ) r → wait_ok l q st r → wp l me (f st) Q (Know r (Some st))) →
  wp l me (Waitpid q Done ≫= f) Q κ.
Proof. by intros ? ?. Qed.

Lemma wp_handlers l me {A : Type} t (f : unit → prog A) Q κ : wp l me (f ()) Q κ → wp l me (Handlers t (Done ()) ≫= f) Q κ.
Proof. done. Qed.

Lemma wp_alarm l me {A : Type} n (f : unit → prog A) Q κ : wp l me (f ()) Q κ → wp l me (Alarm n (Done ()) ≫= f) Q κ.
Proof. done. Qed.

Lemma wp_setpgid l me {A : Type} (f : unit → prog A) Q κ : wp l me (f ()) Q κ → wp l me (Setpgid (Done ()) ≫= f) Q κ.
Proof. done. Qed.

(** A loop whose body keeps an invariant. *)
Lemma wp_loop l me {A : Type} v body (k : prog A) Q κ (Inv : Z → know → Prop) :
  Inv v κ →
  (∀ v κ, Inv v κ → wp l me (body v) (λ r κ, match r with Some v => Inv v κ | None => wp l me k Q κ end) κ) →
  wp l me (Loop v body k) Q κ.
Proof. intros. by exists Inv. Qed.

Lemma wp_unroll l `{!Children l} me {A : Type} v body (k : prog A) Q κ :
  wp l me (Loop v body k) Q κ →
  wp l me (bind (λ r, match r with Some v => Loop v body k | None => k end) (body v)) Q κ.
Proof.
  intros (Inv & H0 & H). apply (wp_bind l me). eapply wp_mono; [|by apply H].
  intros [v'|] κ'; [|done]. intros Hi. by exists Inv.
Qed.

(** A logic that allows every end is satisfied by every program. *)
Definition any_logic : logic := Logic (λ _ _ _, True) (λ _ _ _, True) (λ _, True) (λ _ _ _ _, True).
#[global] Instance any_children : Children any_logic.
Proof. by intros ?. Qed.

Lemma wp_any me {A : Type} (p : prog A) (Q : A → know → Prop) κ : (∀ a κ, Q a κ) → wp any_logic me p Q κ.
Proof.
  revert Q κ. induction p as [| | | |A n k IH|A n k IH|A c k IH|A c k IH|A k IH|A k IH|A k IH|A k IH|A q k IH|A t k IH|A t k IH|A k IH|A v body IHb k IH];
    intros Q κ HQ; simpl; eauto.
  exists (λ _ _, True). split; [done|]. intros v' κ' _. apply IHb. intros [?|] κ''; [done|]. by apply IH.
Qed.

(** ** Systems that follow their logics *)

Section systems.
(** The process of the library, and the logics of the library and of its child. *)
Context (L : Z) (lib_logic test_logic : logic) `{!Children lib_logic, !Children test_logic}.
Context (lib_child : ∀ v p κ, child_ok lib_logic Empty_set v p κ → wp test_logic v p (λ _ _, False) κ).
Context (test_child : ∀ q st r κ, ends_ok test_logic q st κ → below (floor κ) r → wait_ok lib_logic q st r).
Context (test_wait : ∀ q st r, wait_ok test_logic q st r).
Context (killed_lib : ∀ sig κ, WIFEXITED sig = false → ends_ok lib_logic L sig κ) (killed_test : ∀ q κ, ends_ok test_logic q SIGKILL κ).

Definition role (pid : Z) (pr : proc) : logic :=
  if pid =? L then lib_logic else if ppid pr =? L then test_logic else any_logic.

Definition follows (l : logic) (pid : Z) (st : pstate) (r : results) : Prop :=
  ∃ κ, below (floor κ) r ∧
    match st with Run p => wp l pid p (λ _ _, False) κ | Zombie st => ends_ok l pid st κ end.

Record inv (s : system) : Prop := {
  inv_lib : lib s = L; inv_pos : 1 < L; inv_init : procs s !! 1 = None;
  inv_parent : ∃ pr, procs s !! L = Some pr ∧ ppid pr = 1;
  inv_counts : ∀ c, 0 ≤ value c (shared s) ≤ incs s;
  inv_follows : ∀ pid pr, procs s !! pid = Some pr → follows (role pid pr) pid (pst pr) (shared s) }.

Lemma value_set c v r c' : value c' (set_value c v r) = if decide (c = c') then v else value c' r.
Proof. by destruct c, c'. Qed.

Lemma below_inc c r n : 0 ≤ value c r ≤ n → n + 1 < 2 ^ 31 →
  below r (tst_atomic_inc c r) ∧ ∀ c', 0 ≤ value c' r ≤ n → 0 ≤ value c' (tst_atomic_inc c r) ≤ n + 1.
Proof.
  change (2 ^ 31) with 2147483648. intros Hr Hn. unfold tst_atomic_inc. rewrite s32_id by lia.
  split; intros c'; rewrite value_set; destruct (decide (c = c')); subst; lia.
Qed.

Lemma below_raise c v κ r : below (floor κ) r → value c r = v → below (floor (raise c v κ)) r.
Proof. intros H Hv c'. simpl. rewrite value_set. destruct (decide (c = c')); subst; [lia|apply H]. Qed.

Lemma follows_mono l pid st r r' : below r r' → follows l pid st r → follows l pid st r'.
Proof. intros Hr (κ & Hκ & H). exists κ. split; [by etrans|done]. Qed.

Lemma follows_any pid st r : follows any_logic pid st r.
Proof.
  exists (Know r None). split; [reflexivity|]. destruct st; [|done]. by apply wp_any.
Qed.

Lemma role_lib pr : role L pr = lib_logic.
Proof. unfold role. by rewrite Z.eqb_refl. Qed.

(** A process that is not the library's and has no parent follows no rules. *)
Lemma role_other pid pr : pid ≠ L → ppid pr ≠ L → role pid pr = any_logic.
Proof. intros. unfold role. by rewrite !(proj2 (Z.eqb_neq _ _)). Qed.

Lemma role_cases pid pr :
  (pid = L ∧ role pid pr = lib_logic) ∨ (pid ≠ L ∧ ppid pr = L ∧ role pid pr = test_logic) ∨
  (pid ≠ L ∧ ppid pr ≠ L ∧ role pid pr = any_logic).
Proof.
  unfold role. destruct (Z.eqb_spec pid L); [by left|]. right. destruct (Z.eqb_spec (ppid pr) L); [by left|by right].
Qed.

#[local] Instance role_children pid pr : Children (role pid pr).
Proof. destruct (role_cases pid pr) as [[_ ->]|[(_ & _ & ->)|(_ & _ & ->)]]; apply _. Qed.

(** One process goes on, the others stay. *)
Lemma inv_update s s' pid pr st g :
  inv s → procs s !! pid = Some pr → lib s' = lib s →
  procs s' = <[pid := Proc st (ppid pr) g]> (procs s) → below (shared s) (shared s') →
  (∀ c, 0 ≤ value c (shared s') ≤ incs s') → follows (role pid pr) pid st (shared s') → inv s'.
Proof.
  intros [Hl Hp H1 (pl & HL & Hpl) _ Hf] Hpid El Ep Hb Hc Hnew. split; try done; [congruence| | |].
  - rewrite Ep, lookup_insert_ne; [done|]. intros ->. congruence.
  - rewrite Ep. destruct (decide (pid = L)) as [->|]; [rewrite lookup_insert_eq|rewrite lookup_insert_ne by done; eauto].
    eexists. split; [done|]. simpl. congruence.
  - intros q pq. rewrite Ep. destruct (decide (pid = q)) as [->|].
    + rewrite lookup_insert_eq. intros [= <-]. simpl. by replace (role q (Proc st (ppid pr) g)) with (role q pr).
    + rewrite lookup_insert_ne by done. intros Hq. eapply follows_mono; [done|]. by apply Hf.
Qed.

Lemma inv_delete s pid q pr : inv s → procs s !! q = Some pr → ppid pr = pid → is_Some (procs s !! pid) →
  inv (set_procs (delete q (procs s)) s).
Proof.
  intros [Hl Hp H1 (pl & HL & Hpl) Hc Hf] Hq Hpp [pp Hpid]. split; simpl; try done.
  - destruct (decide (q = 1)) as [->|]; [apply lookup_delete_eq|]. by rewrite lookup_delete_ne.
  - exists pl. rewrite lookup_delete_ne; [done|]. intros ->. congruence.
  - intros x px [_ Hx]%lookup_delete_Some. by apply Hf.
Qed.

Lemma inv_ends s pid pr st : inv s → procs s !! pid = Some pr → follows (role pid pr) pid (Zombie st) (shared s) →
  inv (ends_with pid pr st s).
Proof.
  intros [Hl Hp H1 (pl & HL & Hpl) Hc Hf] Hpid Hst.
  assert (Hne : pid ≠ 1) by congruence. split; simpl; try done.
  - rewrite lookup_insert_ne, lookup_fmap, H1; done.
  - destruct (decide (pid = L)) as [->|]; [rewrite lookup_insert_eq; eexists; split; [done|simpl; congruence]|].
    rewrite lookup_insert_ne, lookup_fmap, HL by done. eexists. split; [done|]. unfold adopt. rewrite Hpl.
    by destruct (Z.eqb_spec 1 pid).
  - intros q pq. destruct (decide (pid = q)) as [->|].
    { rewrite lookup_insert_eq. intros [= <-]. simpl. by replace (role q (Proc _ (ppid pr) _)) with (role q pr). }
    rewrite lookup_insert_ne, lookup_fmap by done. intros (p0 & Hq & ->)%fmap_Some_1. unfold adopt.
    destruct (Z.eqb_spec (ppid p0) pid) as [E|]; [|by apply Hf].
    destruct (decide (q = L)) as [->|]; [congruence|]. rewrite role_other by (simpl; lia || done). apply follows_any.
Qed.

Lemma inv_kill s q : inv s → inv (set_procs (kill_group q (procs s)) s).
Proof.
  intros [Hl Hp H1 (pl & HL & Hpl) Hc Hf]. split; simpl; try done.
  - unfold kill_group. by rewrite lookup_fmap, H1.
  - unfold kill_group. rewrite lookup_fmap, HL. eexists. split; [done|]. simpl. by rewrite Hpl, H1.
  - intros pid pr. unfold kill_group. rewrite lookup_fmap. intros (p0 & Hpid & ->)%fmap_Some_1. simpl.
    match goal with |- context [Proc _ ?x (pgid p0)] => set (pp := x) end.
    assert (Hpp : pp = ppid p0 ∨ pp = 1) by (unfold pp; destruct (procs s !! ppid p0); [case_match|]; auto).
    specialize (Hf pid p0 Hpid). clearbody pp.
    destruct (role_cases pid (Proc (if in_group q p0 then Zombie SIGKILL else pst p0) pp (pgid p0)))
      as [[-> ->]|[(Hne & Hpl' & ->)|(_ & _ & ->)]]; [| |apply follows_any].
    + rewrite role_lib in Hf. destruct (in_group q p0); [|done]. destruct Hf as (κ & Hκ & _). exists κ. split; [done|]. by apply killed_lib.
    + simpl in Hpl'. destruct Hpp as [Hpp|Hpp]; [|lia].
      destruct (role_cases pid p0) as [[? _]|[(_ & _ & Er)|(_ & ? & _)]]; [done| |congruence]. rewrite Er in Hf.
      destruct (in_group q p0); [|done]. destruct Hf as (κ & Hκ & _). by exists κ.
Qed.

(** A signal for the library's process. *)
Lemma inv_signal s sig run : inv s → WIFEXITED sig = false → (∀ pr t, inv (run pr t s)) → inv (signal_lib sig run s).
Proof using killed_lib.
  intros Hinv Hsig Hrun. unfold signal_lib. destruct (procs s !! lib s) as [pr|] eqn:Hl; [|done].
  destruct (pst pr) as [p|] eqn:Hst; [|done]. destruct (handler s); [apply Hrun|]. apply inv_ends; [done..|].
  destruct (inv_follows s Hinv _ _ Hl) as (κ & Hκ & _). exists κ. split; [done|]. rewrite (inv_lib s Hinv), role_lib. by apply killed_lib.
Qed.

Lemma inv_alarm_handler s pr : inv s → inv (alarm_handler pr s).
Proof using killed_lib killed_test. intros. unfold alarm_handler. repeat case_match; [by apply inv_kill..|done]. Qed.

(** The invariant does not speak about the timer. *)
Lemma inv_same s s' : inv s → lib s' = lib s → procs s' = procs s → shared s' = shared s → incs s' = incs s → inv s'.
Proof. intros [] El Ep Es Ei. split; by rewrite ?El, ?Ep, ?Es, ?Ei. Qed.

(** A process goes on with a program of its logic, in a state with the same
    processes and results that are no smaller. *)
Lemma inv_goes s s1 pid pr p g κ :
  inv s → procs s !! pid = Some pr → lib s1 = lib s → procs s1 = procs s → below (shared s) (shared s1) →
  (∀ c, 0 ≤ value c (shared s1) ≤ incs s1) → below (floor κ) (shared s1) →
  wp (role pid pr) pid p (λ _ _, False) κ → inv (goes_on pid (Proc (pst pr) (ppid pr) g) p s1).
Proof.
  intros Hinv Hpid El Ep Hb Hc Hκ Hwp. eapply (inv_update s _ pid pr (Run p) g); try done; simpl.
  - by rewrite Ep.
  - by exists κ.
Qed.

Lemma inv_fork s pid pr v p : inv s → is_Some (procs s !! pid) → 1 < v → procs s !! v = None →
  follows (role v (Proc (Run p) pid (pgid pr))) v (Run p) (shared s) →
  inv (set_procs (<[v := Proc (Run p) pid (pgid pr)]> (procs s)) s).
Proof.
  intros [Hl Hp H1 (pl & HL & Hpl) Hc Hf] Hpid Hv Hnew Hch. split; simpl; try done.
  - rewrite lookup_insert_ne by lia. done.
  - exists pl. rewrite lookup_insert_ne by congruence. done.
  - intros q pq. destruct (decide (v = q)) as [->|]; [rewrite lookup_insert_eq; by intros [= <-]|].
    rewrite lookup_insert_ne by done. apply Hf.
Qed.

(** A child that is reaped goes. *)
Lemma inv_reaped s pid pr p0 q st pg p : inv (goes_on pid pr p s) → procs s !! pid = Some pr → pst pr = Run p0 →
  procs s !! q = Some (Proc (Zombie st) pid pg) → inv (set_procs (delete q (procs (goes_on pid pr p s))) s).
Proof.
  intros Hinv Hpid Hst Hq. apply (inv_delete (goes_on pid pr p s) pid q (Proc (Zombie st) pid pg)); simpl; [done| |done|].
  - rewrite lookup_insert_ne; [done|]. intros ->. rewrite Hpid in Hq. by simplify_eq.
  - rewrite lookup_insert_eq. eauto.
Qed.

(** What the library may assume of the child it has waited for. *)
Lemma child_status s q st pg : inv s → procs s !! q = Some (Proc (Zombie st) L pg) → wait_ok lib_logic q st (shared s).
Proof using All.
  intros Hinv Hq. destruct (inv_follows s Hinv q _ Hq) as (κq & Hκq & Hend). simpl in Hend.
  destruct (role_cases q (Proc (Zombie st) L pg)) as [[-> _]|[(_ & _ & Er)|(_ & ? & _)]]; [|by rewrite Er in Hend; eapply test_child|done].
  destruct (inv_parent s Hinv) as (pl & HL & Hpl). rewrite Hq in HL. simplify_eq. simpl in Hpl.
  pose proof (inv_pos s Hinv). lia.
Qed.

(** The child of a fork follows the logic of its place. *)
Lemma child_follows s pid pr v p κ : inv s → procs s !! v = None → below (floor κ) (shared s) →
  child_ok (role pid pr) Empty_set v p κ → follows (role v (Proc (Run p) pid (pgid pr))) v (Run p) (shared s).
Proof using All.
  intros Hinv Hv Hκ Hch. destruct (inv_parent s Hinv) as (pl & HL & _). assert (Hvl : v ≠ L) by congruence.
  destruct (role_cases v (Proc (Run p) pid (pgid pr))) as [[? _]|[(_ & Ep & ->)|(_ & _ & ->)]]; [done| |apply follows_any].
  simpl in Ep. subst pid. rewrite role_lib in Hch. exists κ. split; [done|]. by apply lib_child.
Qed.

Lemma act_inv s s' pid v pr p :
  inv s → procs s !! pid = Some pr → pst pr = Run p → act pid v pr p s = Some s' → incs s' < 2 ^ 31 → inv s'.
Proof using All.
  intros Hinv Hpid Hst Hact Hincs.
  destruct (inv_follows s Hinv pid pr Hpid) as (κ & Hκ & Hwp). rewrite Hst in Hwp.
  pose proof (inv_counts s Hinv) as Hc. assert (Hrefl : below (shared s) (shared s)) by reflexivity.
  assert (Epr : pr = Proc (pst pr) (ppid pr) (pgid pr)) by (by destruct pr).
  assert (Hgo : ∀ q, wp (role pid pr) pid q (λ _ _, False) κ → inv (goes_on pid pr q s)).
  { intros q Hq. rewrite Epr. by eapply inv_goes. }
  destruct p as [a|c|sig| |n k|l k|c k|c k|k|k|k|k|q k|t k|n k|k|v0 body k]; simpl in Hact.
  - by destruct a.
  - simplify_eq. apply inv_ends; [done..|]. by exists κ.
  - simplify_eq. apply inv_ends; [done..|]. by exists κ.
  - done.
  - simplify_eq. apply Hgo, Hwp.
  - simplify_eq. rewrite Epr. by eapply (inv_goes s).
  - simplify_eq. simpl in Hincs. destruct (below_inc c (shared s) (incs s)) as [Hb Hc']; [apply Hc|lia|].
    rewrite Epr. eapply (inv_goes s); try done; simpl; [intros c'; by apply Hc'|by etrans].
  - simplify_eq. rewrite Epr. apply (inv_goes s _ _ _ _ _ (raise c (value c (shared s)) κ)); try done; [by apply below_raise|].
    apply Hwp, Hκ.
  - simplify_eq. by apply Hgo.
  - destruct Hwp as (_ & Hpar & Hch). set (s0 := if pid =? lib s then set_test_pid v s else s) in *.
    assert (Hs0 : lib s0 = lib s ∧ procs s0 = procs s ∧ shared s0 = shared s ∧ incs s0 = incs s) by (unfold s0; by destruct (pid =? lib s)).
    clearbody s0. destruct Hs0 as (El & Ep & Esh & Ei).
    assert (Hinv0 : inv s0) by (by apply (inv_same s)). rewrite <- Esh in Hκ. rewrite <- Ep in Hpid. clear Hgo.
    assert (Hgo : ∀ q, wp (role pid pr) pid q (λ _ _, False) κ → inv (goes_on pid pr q s0)).
    { intros q Hq. rewrite Epr. eapply (inv_goes s0); try done. by rewrite Esh, Ei. }
    clear Hinv Hc Hrefl El Ep Esh Ei s. rename s0 into s, Hinv0 into Hinv.
    destruct (Z.ltb_spec v 0); [simplify_eq; apply Hgo, Hpar; lia|].
    destruct (_ && _) eqn:E; [|done]. simplify_eq. bool_hyps.
    assert (Hv : procs s !! v = None) by (destruct (procs s !! v) eqn:?; done).
    assert (Hpv : pid ≠ v) by congruence.
    apply (inv_fork (goes_on pid pr (k v) s) pid pr v (k 0)); simpl; [|rewrite lookup_insert_eq; eauto|done|by rewrite lookup_insert_ne|].
    + apply Hgo, Hpar. lia.
    + by apply (child_follows s pid pr v (k 0) κ), Hch.
  - simplify_eq. by eapply (inv_goes s).
  - destruct (procs s !! v) as [[[p|st] pp pg]|] eqn:Ev.
    + destruct (bool_decide _); [simplify_eq; apply Hgo, Hwp|]. destruct (v =? _); [|done]. simplify_eq. apply Hgo, Hwp.
    + destruct (Z.eqb_spec pp pid) as [->|]; [|done]. simplify_eq. eapply inv_reaped; [apply Hgo, Hwp|done..].
    + destruct (bool_decide _); [simplify_eq; apply Hgo, Hwp|]. destruct (v =? _); [|done]. simplify_eq. apply Hgo, Hwp.
  - destruct (procs s !! q) as [[[p|st] pp pg]|] eqn:Eq; [done| |done].
    destruct (Z.eqb_spec pp pid) as [->|]; [|done]. simplify_eq. destruct Hwp as [_ Hwp].
    eapply inv_reaped; [|done..]. rewrite Epr. apply (inv_goes s _ _ _ _ _ (Know (shared s) (Some st))); try done.
    apply Hwp; [done|]. destruct (role_cases pid pr) as [[-> ->]|[(_ & _ & ->)|(_ & _ & ->)]]; [|done|done].
    by eapply child_status.
  - simplify_eq. rewrite Epr. by eapply (inv_goes s).
  - simplify_eq. rewrite Epr. by eapply (inv_goes s).
  - simplify_eq. specialize (Hgo k Hwp). destruct (ppid pr =? lib _); [|done]. apply inv_signal; [done|done|]. intros.
    by eapply inv_same.
  - simplify_eq. apply Hgo. by apply wp_unroll, Hwp; apply _.
Qed.

Lemma signal_incs sig run s : (∀ pr t, incs (run pr t s) = incs s) → incs (signal_lib sig run s) = incs s.
Proof. intros H. unfold signal_lib. by repeat case_match. Qed.

Lemma act_incs pid v pr p s s' : act pid v pr p s = Some s' → incs s ≤ incs s'.
Proof.
  destruct p as [a|c|sig| |n k|l k|c k|c k|k|k|k|k|q k|t k|n k|k|v0 body k]; simpl; intros E; [by destruct a|..];
    repeat (case_match; try done); simplify_eq; simpl; try lia. rewrite signal_incs; [simpl; lia|done].
Qed.

Lemma step_incs c s s' : do_step c s = Some s' → incs s ≤ incs s'.
Proof.
  destruct c as [pid v|]; simpl.
  - intros E. destruct (procs s !! pid) as [pr|]; [|done]. destruct (pst pr); [|done]. by eapply act_incs.
  - intros [= <-]. unfold tick. destruct (alarm s) as [n|]; [|done]. destruct (1 <? n); [done|].
    rewrite signal_incs; [done|]. intros. unfold alarm_handler. by repeat case_match.
Qed.

Lemma step_inv c s s' : inv s → do_step c s = Some s' → incs s' < 2 ^ 31 → inv s'.
Proof using All.
  intros Hinv E Hincs. destruct c as [pid v|]; simpl in E.
  - destruct (procs s !! pid) as [pr|] eqn:Hpid; [|done]. destruct (pst pr) as [p|] eqn:Hst; [|done]. by eapply act_inv.
  - injection E as <-. unfold tick. destruct (alarm s) as [n|]; [|done]. destruct (1 <? n); [by eapply inv_same|].
    apply inv_signal; [by apply (inv_same s)|done|]. intros. apply inv_alarm_handler. by apply (inv_same s).
Qed.

Lemma steps_inv s s' : inv s → steps s s' → incs s' < 2 ^ 31 → inv s'.
Proof using All.
  intros Hinv Hsteps. induction Hsteps as [|s1 s2 c Hs IH E]; [done|]. intros Hincs.
  pose proof (step_incs _ _ _ E). eapply step_inv; [apply IH; lia|done..].
Qed.
End systems.

(** ** What the ends of the processes tell *)

Definition total (r : results) : Z := passed r + failed r + skipped r.

(** The bits that do_exit adds to its argument. *)
Definition flags (r : results) : Z :=
  Z.lor (Z.lor (if failed r =? 0 then 0 else TFAIL) (if skipped r =? 0 then 0 else TCONF))
    (if warnings r =? 0 then 0 else TWARN).

(** What the library makes of the status of the test. *)
Definition base (st : Z) : Z := if WIFEXITED st then WEXITSTATUS st else if WIFSIGNALED st then TBROK else 0.

Lemma exit_status_spec c : WIFEXITED (exit_status c) = true ∧ WEXITSTATUS (exit_status c) = Z.land c 255.
Proof.
  unfold WIFEXITED, WEXITSTATUS, WTERMSIG, exit_status. change 255 with (Z.ones 8). rewrite Z.land_ones by lia.
  change 127 with (Z.ones 7). rewrite Z.land_ones by lia.
  rewrite Z.shiftr_land. change (Z.shiftr 65280 8) with (Z.ones 8). rewrite Z.land_ones, Z.shiftr_div_pow2 by lia.
  change (2 ^ 8) with 256. change (2 ^ 7) with 128. split; [apply Z.eqb_eq; zlia|].
  rewrite Z.div_mul by lia. apply Z.mod_mod. lia.
Qed.

Lemma flags_range r : 0 ≤ flags r < 256.
Proof. unfold flags. by destruct (failed r =? 0), (skipped r =? 0), (warnings r =? 0). Qed.

Lemma lor_byte a b : 0 ≤ a < 256 → 0 ≤ b < 256 → Z.land (Z.lor a b) 255 = Z.lor a b.
Proof.
  intros Ha Hb. change 255 with (Z.ones 8). rewrite Z.land_ones by lia. apply Z.mod_small.
  assert (Hn : 0 ≤ Z.lor a b) by (apply Z.lor_nonneg; lia).
  split; [done|]. destruct (Z.eq_dec (Z.lor a b) 0) as [->|]; [lia|]. apply Z.log2_lt_pow2; [lia|]. rewrite Z.log2_lor by lia.
  destruct (Z.max_spec (Z.log2 a) (Z.log2 b)) as [[_ ->]|[_ ->]].
  - destruct (Z.eq_dec b 0) as [->|]; [done|]. apply Z.log2_lt_pow2; lia.
  - destruct (Z.eq_dec a 0) as [->|]; [done|]. apply Z.log2_lt_pow2; lia.
Qed.

Lemma total_below r r' : below r r' → total r ≤ total r'.
Proof. intros H. pose proof (H Passed). pose proof (H Failed). pose proof (H Skipped). unfold total. simpl in *. lia. Qed.

(** What is known of a status and the results when the child of the library has
    ended: a property that stays when the counters grow. *)
Class Known (P : Z → results → Prop) : Prop := known_below st r r' : below r r' → P st r → P st r'.

Section ends.
Context (P : Z → results → Prop) `{!Known P}.

Definition test_logic : logic := Logic (λ _ st κ, P st (floor κ)) (λ _ _ _, True) (λ _, True) (λ _ _ _ _, True).

(** [b] is the argument of do_exit: what it must be, before and after the wait. *)
Definition argument (b : Z) (κ : know) : Prop :=
  0 ≤ b < 256 ∧ match waited κ with Some st => b = base st ∧ P st (floor κ) | None => b ≠ 0 end.
Definition lib_logic : logic :=
  Logic (λ _ st κ, WIFEXITED st = true → ∃ b, argument b κ ∧ WEXITSTATUS st = Z.lor b (flags (floor κ)))
    (λ _ st r, P st r) (λ κ, waited κ = None) (λ A v p κ, wp test_logic v p (λ _ _, False) κ).

#[global] Instance test_children : Children test_logic.
Proof. by intros ?. Qed.
#[global] Instance lib_children : Children lib_logic.
Proof. intros A B v p f κ H. apply (wp_bind _ v). by eapply wp_mono; [|exact H]. Qed.

Lemma argument_below b κ κ' : below (floor κ) (floor κ') → waited κ' = waited κ → argument b κ → argument b κ'.
Proof. intros Hb Hw [H1 H2]. split; [done|]. rewrite Hw. destruct (waited κ); [|done]. destruct H2. split; [done|].
  by eapply known_below. Qed.
End ends.

(** The child of the library ends by a signal or an exit, with 0 only when [N]
    results are counted, or more. *)
Definition counted (N st : Z) (r : results) : Prop :=
  WIFEXITED st || WIFSIGNALED st = true ∧ (WIFEXITED st = true → WEXITSTATUS st = 0 → N ≤ total r).
#[global] Instance counted_known N : Known (counted N).
Proof. intros st r r' Hb [He Hc]. split; [done|]. intros H1 H2. apply total_below in Hb. specialize (Hc H1 H2). lia. Qed.

(** ** The process of the test *)

(** A function that, in the process of the test, ends that process only with an exit
    status that is not 0 (a child of it may do what it wants). *)
Fixpoint stays {A : Type} (u : user A) : Prop :=
  match u with
  | URet _ => True
  | URes _ _ _ _ _ k => stays k
  | UBrk _ _ ttype _ _ => TTYPE_RESULT ttype ≠ 0
  | UFork _ _ k => ∀ v, v ≠ 0 → stays (k v)
  | UExit code => Z.land code 255 ≠ 0
  | UDie sig => WIFSIGNALED sig = true
  | UWait k => ∀ pid st e, stays (k pid st e)
  | USys _ k => ∀ v, stays (k v)
  | ULoop _ body k => (∀ v, stays (body v)) ∧ stays k
  end.

Section test_process.
Context (E : test_env) (tst : tst_test) (N : Z) (me : Z) (g : glob).
Context (Hlib : lib_pid g ≠ me) (Hcleanup : ∀ u, cleanup tst = Some u → stays u).

(** Whatever it does, a program of this kind goes on knowing no less. *)
Definition fine {A : Type} (p : prog A) : Prop :=
  ∀ (Q : A → know → Prop) κ, (∀ a κ', below (floor κ) (floor κ') → Q a κ') → wp (test_logic (counted N)) me p Q κ.

Lemma fine_done {A : Type} (a : A) : fine (Done a).
Proof. intros Q κ H. apply H. reflexivity. Qed.

Lemma fine_bind {A B : Type} (p : prog A) (f : A → prog B) : fine p → (∀ a, fine (f a)) → fine (p ≫= f).
Proof.
  intros Hp Hf Q κ HQ. apply wp_bind; [apply _|]. apply Hp. intros a κ' Hb. apply Hf. intros b κ'' Hb'. apply HQ. by etrans.
Qed.

Lemma fine_sys {A : Type} name (k : Z → prog A) : (∀ v, fine (k v)) → fine (Sys name k).
Proof. intros H Q κ HQ v. by apply H. Qed.

Lemma fine_puts l : fine (puts l).
Proof. intros Q κ HQ. apply HQ. reflexivity. Qed.

Lemma fine_inc c : fine (inc c).
Proof. intros Q κ HQ. apply HQ. reflexivity. Qed.

Lemma below_raised c v κ : value c (floor κ) ≤ v → below (floor κ) (floor (raise c v κ)).
Proof. intros H c'. simpl. rewrite value_set. destruct (decide (c = c')); subst; lia. Qed.

Lemma fine_lift {A : Type} (m : res A) : fine (lift m).
Proof. destruct m; [apply fine_done|by intros ? ? ?..]. Qed.

Lemma fine_when b p : fine p → fine (when b p).
Proof. destruct b; [done|intros; apply fine_done]. Qed.

(** A program that does not return. *)
Definition dead {A : Type} (p : prog A) : Prop := ∀ (Q : A → know → Prop) κ, wp (test_logic (counted N)) me p Q κ.

Lemma dead_exit {A : Type} c : Z.land c 255 ≠ 0 → dead (Exit (A := A) c).
Proof.
  intros Hc Q κ. destruct (exit_status_spec c) as [H1 H2]. split; [by rewrite H1|]. intros _ H0. congruence.
Qed.

Lemma dead_die {A : Type} sig : WIFSIGNALED sig = true → dead (Die (A := A) sig).
Proof.
  intros Hs Q κ. split; [by rewrite Hs, orb_true_r|]. intros H. unfold WIFSIGNALED in Hs. unfold WIFEXITED in H.
  apply Z.eqb_eq in H. rewrite H in Hs. done.
Qed.

Lemma dead_fine {A : Type} (p : prog A) : dead p → fine p.
Proof. intros H Q κ _. apply H. Qed.

Lemma dead_bind {A B : Type} (p : prog A) (f : A → prog B) : dead p → dead (p ≫= f).
Proof. intros H Q κ. apply wp_bind; [apply _|]. apply H. Qed.

Lemma fine_dead {A B : Type} (p : prog A) (f : A → prog B) : fine p → (∀ a, dead (f a)) → dead (p ≫= f).
Proof. intros Hp Hf Q κ. apply wp_bind; [apply _|]. apply Hp. intros. apply Hf. Qed.

Definition brk_fine (brk : brk_t) : Prop :=
  ∀ file lineno ttype es text (A : Type), TTYPE_RESULT ttype ≠ 0 → dead (brk g file lineno ttype es text A).

Lemma fine_print brk file lineno ttype es text : brk_fine brk → fine (print_result E brk g file lineno ttype es text).
Proof.
  intros Hb. unfold print_result. destruct (result_name ttype); [|by apply dead_fine, Hb].
  apply fine_bind; [apply fine_lift|intros; apply fine_puts].
Qed.

Lemma fine_res brk file lineno ttype es text : brk_fine brk → fine (tst_vres_ E brk g file lineno ttype es text).
Proof.
  intros Hb. apply fine_bind; [by apply fine_print|]. intros _. unfold update_results.
  case_match; [by apply dead_fine, Hb|]. repeat (case_match; [apply fine_inc|]). apply fine_done.
Qed.

Lemma fine_fork brk file lineno (A : Type) (k : Z → prog A) :
  brk_fine brk → (∀ v, v ≠ 0 → fine (k v)) → fine (pid ← safe_fork E tst brk g file lineno; k pid).
Proof.
  intros Hb Hk. unfold safe_fork. destruct (negb _).
  - apply dead_fine, dead_bind. by apply Hb.
  - intros Q κ HQ. simpl. split; [done|]. split; [|done]. intros v Hv. destruct (v <? 0); [|by apply Hk].
    by apply (dead_bind (brk _ _ _ _ _ _ Z)), Hb.
Qed.

Lemma fine_interp brk (A : Type) (u : user A) : brk_fine brk → stays u → fine (interp E tst brk g u).
Proof.
  intros Hb. induction u as [A a|A file lineno ttype es text k IH|A file lineno ttype es text|A file lineno k IH|A c|A sig|A k IH|A name k IH|A v body IHb k IH];
    simpl; intros Hs.
  - apply fine_done.
  - apply fine_bind; [by apply fine_res|]. intros _. by apply IH.
  - by apply dead_fine, Hb.
  - apply fine_fork; [done|]. intros v Hv. by apply IH, Hs.
  - by apply dead_fine, dead_exit.
  - by apply dead_fine, dead_die.
  - intros Q κ HQ pid st e. by apply IH.
  - apply fine_sys. intros v. by apply IH.
  - destruct Hs as [Hbody Hk]. intros Q κ HQ. apply (wp_loop _ _ _ _ _ _ _ (λ _ κ', below (floor κ) (floor κ'))); [reflexivity|].
    intros v' κ' Hκ'. apply IHb; [done|]. intros [v''|] κ'' Hκ''; [by etrans|].
    apply IH; [done|]. intros a κ3 H3. apply HQ. by etrans; [|etrans].
Qed.

Lemma fine_call brk f : brk_fine brk → (∀ u, f = Some u → stays u) → fine (call E tst brk g f).
Proof. intros Hb Hf. unfold call. destruct f; [|apply fine_done]. by apply fine_interp, Hf. Qed.

Lemma vbrk_fine d : brk_fine (tst_vbrk_ E tst d).
Proof using Hlib Hcleanup.
  induction d as [|d IH]; intros file lineno ttype es text A Ht.
  - by apply dead_die.
  - cbn [tst_vbrk_]. apply fine_dead; [by apply fine_print|]. intros _.
    intros Q κ. simpl. apply wp_bind; [apply _|]. apply fine_when.
    { by apply fine_call. }
    intros _ κ' _. simpl. rewrite (proj2 (Z.eqb_neq me (lib_pid g))) by done.
    apply (dead_exit (A := A)). unfold TTYPE_RESULT, TTYPE_MASK in *. change 255 with (Z.lor 63 192).
    rewrite Z.land_lor_distr_r, <- !Z.land_assoc. change (Z.land 63 192) with 0. by rewrite Z.land_0_r, Z.lor_0_r, Z.land_diag.
Qed.

Lemma brk_dead line ttype e text (A : Type) : TTYPE_RESULT ttype ≠ 0 → dead (tst_brk E tst g line ttype e text (A := A)).
Proof using Hlib Hcleanup. intros H. by apply vbrk_fine. Qed.

Lemma fine_reap : fine (reap_children E tst g).
Proof using Hlib Hcleanup.
  intros Q κ HQ. apply (wp_loop _ _ _ _ _ _ _ (λ _ κ', below (floor κ) (floor κ'))); [reflexivity|].
  intros _ κ' Hκ'. simpl. intros pid st e. destruct (0 <? pid).
  - apply wp_bind; [apply _|].
    assert (Hc : fine (check_child_status E tst g pid st)).
    { unfold check_child_status. case_match; [by apply dead_fine, brk_dead|]. case_match; [by apply dead_fine, brk_dead|].
      case_match; [apply fine_done|]. case_match; apply dead_fine, brk_dead; [|done].
      destruct (Z.eqb_spec (WEXITSTATUS st) TBROK) as [->|]; [done|].
      by destruct (Z.eqb_spec (WEXITSTATUS st) TCONF) as [->|]. }
    apply Hc. intros _ κ'' Hκ''. simpl. by etrans.
  - destruct (e =? ECHILD); [by apply HQ|]. destruct (e =? EINTR); [done|]. by apply brk_dead.
Qed.

Context (Hmain : main_pid g = me).

(** A call of a test that returns has counted a result. *)
Lemma run_one_counts f line none κ (Q : unit → know → Prop) : stays f →
  (∀ κ', total (floor κ) + 1 ≤ total (floor κ') → Q () κ') → wp (test_logic (counted N)) me (run_one E tst g f line none) Q κ.
Proof using Hlib Hcleanup Hmain.
  intros Hf HQ. unfold run_one. apply wp_bind; [apply _|].
  apply wp_load; intros v Hv. apply wp_load; intros v0 Hv0. apply wp_load; intros v1 Hv1. apply wp_load; intros v2 Hv2.
  set (κ1 := raise Warnings v2 _).
  assert (E1 : floor κ1 = Results v v0 v1 v2) by done.
  assert (Ht : total (floor κ) ≤ total (floor κ1)) by (rewrite E1; unfold total; simpl in *; lia). clearbody κ1.
  cbn [wp]. apply wp_bind; [apply _|]. apply fine_interp; [by apply vbrk_fine|done|]. intros _ κ2 H2. apply wp_getpid.
  rewrite Hmain, Z.eqb_refl. cbn [negb]. apply wp_bind; [apply _|]. apply fine_reap. intros _ κ3 H3.
  assert (H13 : below (Results v v0 v1 v2) (floor κ3)) by (rewrite <- E1; by etrans).
  rewrite E1 in Ht. pose proof (H13 Passed) as HP. pose proof (H13 Failed) as HF. pose proof (H13 Skipped) as HS.
  unfold total in *. simpl in HP, HF, HS, Ht. apply wp_bind; [apply _|]. unfold results_equal. cbn [passed failed skipped].
  apply wp_load. intros p' Hp'. simpl in Hp'. destruct (Z.eqb_spec v p') as [->|Hne]; [|apply HQ; simpl; lia].
  apply wp_load. intros f' Hf'. simpl in Hf'. destruct (Z.eqb_spec v1 f') as [->|Hne]; [|apply HQ; simpl; lia].
  apply wp_load. intros s' Hs'. simpl in Hs'. destruct (Z.eqb_spec v0 s') as [->|Hne]; [by apply brk_dead|apply HQ; simpl; lia].
Qed.

(** The number of results a run of the tests must count. *)
Definition per_run : Z := match test tst with Some _ => tcnt tst | None => 1 end.
Context (Htest : ∀ f i, test tst = Some f → stays (f i)) (Hall : ∀ f, test_all tst = Some f → stays f) (Hcnt : 0 ≤ tcnt tst).

Lemma run_tests_counts κ (Q : unit → know → Prop) :
  (∀ κ', total (floor κ) + per_run ≤ total (floor κ') → Q () κ') → wp (test_logic (counted N)) me (run_tests E tst g) Q κ.
Proof using Hlib Hcleanup Hmain Htest Hall Hcnt.
  intros HQ. unfold run_tests, per_run in *. destruct (test tst) as [f|] eqn:Ef.
  - apply (wp_loop _ _ _ _ _ _ _ (λ i κ', 0 ≤ i ≤ tcnt tst ∧ total (floor κ) + i ≤ total (floor κ'))); [lia|].
    intros i κ' [Hi Ht]. destruct (Z.ltb_spec i (tcnt tst)); [|apply HQ; lia].
    apply wp_bind; [apply _|]. apply run_one_counts; [by apply Htest|]. intros κ'' Ht'. simpl. lia.
  - destruct (test_all tst) as [f|] eqn:Ea; [|done]. by apply run_one_counts; [apply Hall|].
Qed.
End test_process.

(** Whether there is one more run: always while iterations are left. *)
Lemma wp_cont l me stop (b : bool) (Q : bool → know → Prop) κ : (∀ c, (c = false → b = false) → Q c κ) →
  wp l me (if negb (stop =? 0) then t ← get_time_ms; Done (b || (t <? stop)) else Done b) Q κ.
Proof. intros HQ. case_match; [|by apply HQ]. simpl. intros t. apply HQ. by destruct b. Qed.

Lemma fine_stop N me g : fine N me (stop_time g).
Proof.
  unfold stop_time. case_match; [|apply fine_done]. apply fine_bind; [apply fine_sys; intros; apply fine_done|].
  intros t. apply fine_bind; [apply fine_lift|]. intros d. apply fine_done.
Qed.

(** The process of a test exits with 0 only when every call of it has counted a result. *)
Lemma testrun_counts E tst me g (A : Type) (Q : A → know → Prop) κ :
  lib_pid g ≠ me → 0 ≤ tcnt tst → (∀ f i, test tst = Some f → stays (f i)) → (∀ f, test_all tst = Some f → stays f) →
  (∀ u, cleanup tst = Some u → stays u) → (∀ u, setup tst = Some u → stays u) → 0 ≤ total (floor κ) →
  wp (test_logic (counted (u32 (iterations g) * per_run tst))) me (testrun E tst g) Q κ.
Proof.
  intros Hlib Hcnt Htest Hall Hcl Hset H0. unfold testrun, do_test_setup. set (N := u32 _ * _).
  assert (Hper : 0 ≤ per_run tst) by (unfold per_run; destruct (test tst); lia).
  set (g' := set_main_pid me g). assert (Hlib' : lib_pid g' ≠ me) by done.
  apply wp_bind; [apply _|]. apply wp_getpid. fold g'. apply wp_bind; [apply _|].
  apply fine_call; [by apply vbrk_fine|done|]. intros _ κ1 H1. apply wp_getpid.
  rewrite Z.eqb_refl. cbn [negb wp]. apply wp_bind; [apply _|]. apply fine_stop. intros stop κ2 H2.
  apply total_below in H1, H2. apply wp_bind; [apply _|].
  apply (wp_loop _ _ _ _ _ _ _ (λ i κ', 0 ≤ i ∧ i * per_run tst ≤ total (floor κ'))); [lia|].
  intros i κ3 [Hi Ht]. destruct (Z.ltb_spec i (u32 (iterations g'))) as [Hlt|Hge].
  - apply wp_bind; [apply _|]. apply wp_cont. intros [] Hc; [|by specialize (Hc eq_refl)]. cbn [negb].
    apply wp_bind; [apply _|]. apply run_tests_counts; try done. intros κ4 H4. simpl. lia.
  - apply wp_bind; [apply _|]. apply wp_cont. intros [] _; cbn [negb].
    + apply wp_bind; [apply _|]. apply run_tests_counts; try done. intros κ4 H4. simpl. lia.
    + cbn [wp]. apply wp_bind; [apply _|]. apply fine_call; [by apply vbrk_fine|done|]. intros _ κ4 H4. apply total_below in H4.
      destruct (exit_status_spec 0) as [E1 E2]. cbn [wp]. split; [by rewrite E1|]. intros _ _. unfold N. simpl in Hge. nia.
Qed.

(** ** The process of the library *)

Section library.
Context (E : test_env) (tst : tst_test) (P : Z → results → Prop) `{!Known P} (L : Z) (HL : 1 < L).

(** The variables of the library's process. *)
Definition of_lib (g : glob) : Prop := lib_pid g = L ∧ main_pid g = 0.

(** A program that goes on with the same knowledge and a result in [R], before the
    library waits. *)
Definition quiet {A : Type} (R : A → Prop) (p : prog A) : Prop :=
  ∀ (Q : A → know → Prop) κ, waited κ = None → (∀ a, R a → Q a κ) → wp (lib_logic P) L p Q κ.

(** The same at any time, whatever the result. *)
Definition calm {A : Type} (p : prog A) : Prop :=
  ∀ (Q : A → know → Prop) κ, (∀ a, Q a κ) → wp (lib_logic P) L p Q κ.

Lemma calm_done {A : Type} (a : A) : calm (Done a).
Proof. intros Q κ H. apply H. Qed.
Lemma calm_bind {A B : Type} (p : prog A) (f : A → prog B) : calm p → (∀ a, calm (f a)) → calm (p ≫= f).
Proof. intros Hp Hf Q κ HQ. apply wp_bind; [apply _|]. apply Hp. intros a. by apply Hf. Qed.
Lemma calm_sys name : calm (sys_ name).
Proof. intros Q κ HQ v. apply HQ. Qed.
Lemma calm_when b p : calm p → calm (when b p).
Proof. destruct b; [done|intros; apply calm_done]. Qed.
Lemma calm_puts l : calm (puts l).
Proof. intros Q κ HQ. apply HQ. Qed.
Lemma calm_inc c : calm (inc c).
Proof. intros Q κ HQ. apply HQ. Qed.
Lemma calm_lift {A : Type} (m : res A) : calm (lift m).
Proof. destruct m; [apply calm_done|by intros ? ? ?..]. Qed.

Lemma calm_res brk g file line ttype es text :
  results_set g = true → result_name ttype ≠ None → calm (tst_vres_ E brk g file line ttype es text).
Proof.
  intros Hg Ht. unfold tst_vres_, print_result, update_results. rewrite Hg. destruct (result_name ttype); [|done].
  apply calm_bind; [apply calm_bind; [apply calm_lift|intros; apply calm_puts]|]. intros _. simpl.
  repeat (case_match; [apply calm_inc|]). apply calm_done.
Qed.

Lemma cleanup_calm brk g : results_set g = true → calm (do_cleanup E tst brk g).
Proof.
  intros Hg. unfold do_cleanup, cleanup_ipc.
  repeat lazymatch goal with
  | |- calm (_ ≫= _) => apply calm_bind; [|intros]
  | |- calm (when _ _) => apply calm_when
  | |- calm (sys_ _) => apply calm_sys
  | |- calm (Done _) => apply calm_done
  | |- calm (tst_vres_ _ _ _ _ _ _ _ _) => by apply calm_res
  end.
Qed.

Lemma do_exit_ok brk g ret (A : Type) (Q : A → know → Prop) κ :
  argument P ret κ → wp (lib_logic P) L (do_exit E tst brk g ret) Q κ.
Proof.
  intros Ha. unfold do_exit. apply wp_puts. destruct (results_set g) eqn:Hg; [|done]. cbn [negb].
  do 4 (apply wp_load; intros ? ?; apply wp_puts).
  apply wp_load. intros f Hf. apply wp_load. intros s Hs. apply wp_load. intros w Hw.
  apply wp_bind; [apply _|]. apply cleanup_calm; [done|]. intros _. cbn [wp].
  match goal with |- ends_ok _ _ _ ?k => set (κ' := k) end.
  assert (Hb : below (floor κ) (floor κ')) by (intros []; simpl in *; lia).
  assert (Ha' : argument P ret κ') by (by apply (argument_below P ret κ)).
  destruct (exit_status_spec (if w =? 0 then if s =? 0 then if f =? 0 then ret else Z.lor ret TFAIL
     else Z.lor (if f =? 0 then ret else Z.lor ret TFAIL) TCONF
     else Z.lor (if s =? 0 then if f =? 0 then ret else Z.lor ret TFAIL
     else Z.lor (if f =? 0 then ret else Z.lor ret TFAIL) TCONF) TWARN)) as [_ E2].
  intros _. exists ret. split; [done|]. rewrite E2.
  replace (if w =? 0 then _ else _) with (Z.lor ret (flags (floor κ'))).
  - apply lor_byte; [apply Ha|apply flags_range].
  - unfold flags. simpl. destruct (f =? 0), (s =? 0), (w =? 0); rewrite ?Z.lor_0_l, ?Z.lor_0_r, <- ?Z.lor_assoc; done.
Qed.

Lemma lib_brk d g file line ttype es text (A : Type) (Q : A → know → Prop) κ : of_lib g →
  argument P (TTYPE_RESULT ttype) κ → argument P TBROK κ →
  wp (lib_logic P) L (tst_vbrk_ E tst d g file line ttype es text A) Q κ.
Proof using HL Known0.
  intros [Hl Hm]. revert file line ttype es text A Q. induction d as [|d IH]; intros file line ttype es text A Q Ht Hb; [done|].
  cbn [tst_vbrk_]. apply wp_bind; [apply _|]. unfold print_result. destruct (result_name ttype); [|by apply IH].
  apply wp_bind; [apply _|]. apply calm_lift. intros t. apply calm_puts. intros _. apply wp_getpid.
  rewrite Hm, (proj2 (Z.eqb_neq L 0)) by lia. apply wp_bind; [apply _|]. cbn [when wp]. apply wp_getpid.
  rewrite Hl, Z.eqb_refl. by apply do_exit_ok.
Qed.

Lemma quiet_done {A : Type} (R : A → Prop) a : R a → quiet R (Done a).
Proof. intros Ha Q κ _ HQ. by apply HQ. Qed.
Lemma quiet_bind {A B : Type} (R : A → Prop) (S : B → Prop) (p : prog A) (f : A → prog B) :
  quiet R p → (∀ a, R a → quiet S (f a)) → quiet S (p ≫= f).
Proof. intros Hp Hf Q κ Hw HQ. apply wp_bind; [apply _|]. apply Hp; [done|]. intros a Ha. by apply (Hf a). Qed.
Lemma quiet_calm {A : Type} (R : A → Prop) (p : prog A) : calm p → (∀ a, R a) → quiet R p.
Proof. intros Hp HR Q κ _ HQ. apply Hp. intros. by apply HQ. Qed.

Definition anything {A : Type} (_ : A) : Prop := True.

Lemma TTYPE_RESULT_range t : 0 ≤ TTYPE_RESULT t < 64.
Proof. unfold TTYPE_RESULT, TTYPE_MASK. change 63 with (Z.ones 6). rewrite Z.land_ones by lia. apply Z.mod_pos_bound. done. Qed.

Lemma before_wait b κ : waited κ = None → 0 < b < 64 → argument P b κ.
Proof. intros Hw Hb. split; [lia|]. rewrite Hw. lia. Qed.

Lemma quiet_brk {A : Type} (R : A → Prop) g line ttype e text :
  of_lib g → TTYPE_RESULT ttype ≠ 0 → quiet R (tst_brk E tst g line ttype e text).
Proof using HL Known0.
  intros Hg Ht Q κ Hw _. pose proof (TTYPE_RESULT_range ttype). apply lib_brk; [done|..]; apply before_wait; try done; lia.
Qed.

Lemma quiet_res d g file line ttype es text :
  of_lib g → quiet anything (tst_vres_ E (tst_vbrk_ E tst d) g file line ttype es text).
Proof using HL Known0.
  intros Hg Q κ Hw HQ. assert (Hb : argument P TBROK κ) by (apply before_wait; [done|by compute]).
  unfold tst_vres_, print_result, update_results. apply wp_bind; [apply _|].
  destruct (result_name ttype); [|by apply lib_brk]. apply wp_bind; [apply _|]. apply calm_lift. intros t. apply calm_puts. intros _.
  destruct (results_set g); cbn [negb]; [|by apply lib_brk].
  repeat (case_match; [apply calm_inc; intros; by apply HQ|]). by apply HQ.
Qed.

Lemma quiet_safe g line name : of_lib g → quiet anything (safe E tst g line name).
Proof using HL Known0.
  intros Hg. unfold safe. apply (quiet_bind anything); [by apply quiet_calm; [apply calm_sys|]|]. intros v _.
  case_match; [by apply quiet_brk|by apply quiet_done].
Qed.

(** The number of iterations the options ask for. *)
Definition iters (l : list (ascii * cstr)) : Z := foldl (λ i o, if o.1 =c "i"%char then atoi o.2 else i) 1 l.

Definition lib_with (n : Z) (g : glob) : Prop := of_lib g ∧ iterations g = n.

Lemma quiet_help : quiet anything (print_help tst).
Proof. unfold print_help. apply quiet_calm; [|done]. generalize (map (λ o, o.2 ++ [nl]) lib_options ++ map help (toptions tst)). 
  intros ls. induction ls as [|l ls IH]; [apply calm_done|]. intros Q κ HQ. by apply IH. Qed.

Lemma quiet_opt g opt arg n : lib_with n g → opt ≠ "h"%char →
  quiet (lib_with (if opt =c "i"%char then atoi arg else n)) (handle_opt E tst g opt arg).
Proof using HL Known0.
  intros [Hg Hn] Hh. unfold handle_opt. destruct (eqc_spec opt "?"%char) as [->|].
  { apply (quiet_bind anything); [apply quiet_help|]. intros _ _. by apply quiet_brk. }
  destruct (eqc_spec opt "h"%char); [done|]. destruct (eqc_spec opt "i"%char); [by apply quiet_done|].
  case_match; [by apply quiet_done|]. case_match; [by apply quiet_done|]. unfold parse_topt.
  destruct (list_find _ _) as [[i o]|]; [|by apply quiet_brk]. destruct (has_arg o); [by apply quiet_done|by intros ? ?].
Qed.

Lemma quiet_opts l g n : lib_with n g → Forall (λ o, o.1 ≠ "h"%char) l →
  quiet (lib_with (foldl (λ i o, if o.1 =c "i"%char then atoi o.2 else i) n l)) (handle_opts E tst g l).
Proof using HL Known0.
  revert g n. induction l as [|[opt arg] l IH]; intros g n Hg Hl; [by apply quiet_done|].
  apply Forall_cons in Hl as [Hh Hl]. apply (quiet_bind (lib_with (if opt =c "i"%char then atoi arg else n))); [by apply quiet_opt|].
  intros g' Hg'. by apply IH.
Qed.

Definition asks_for (n : Z) : Prop :=
  ∀ os, opt_string E tst = Ret os → Forall (λ o, o.1 ≠ "h"%char) (getopt E os) ∧ iters (getopt E os) = n.

Lemma quiet_parse g n : lib_with 1 g → asks_for n → quiet (lib_with n) (parse_opts E tst g).
Proof using HL Known0.
  intros [Hg Hi] Hn. unfold parse_opts. apply (quiet_bind anything).
  { generalize (toptions tst). intros l. induction l as [|o l IH]; [by apply quiet_done|]. cbn [check_option_collision].
    case_match; [by apply quiet_brk|done]. }
  intros _ _. destruct (opt_string E tst) as [os| |] eqn:Eo; [|by intros ? ?..]. destruct (Hn os Eo) as [Hh <-].
  by apply (quiet_opts (getopt E os) _ 1).
Qed.

Lemma quiet_ipc g n : lib_with n g → quiet (lib_with n) (setup_ipc E tst g).
Proof using HL Known0.
  intros [Hg Hn]. unfold setup_ipc. apply (quiet_bind anything); [by apply quiet_calm; [apply calm_sys|]|].
  intros fd _. case_match; [by apply quiet_brk|].
  apply (quiet_bind anything); [by apply quiet_safe|]. intros _ _.
  apply (quiet_bind anything); [by apply quiet_safe|]. intros _ _.
  apply (quiet_bind anything); [case_match; [by apply quiet_calm; [apply calm_lift|]|by apply quiet_safe]|]. intros _ _.
  apply (quiet_bind anything); [by apply quiet_safe|]. intros _ _. apply quiet_done. by case_match.
Qed.

Lemma quiet_reports g l : of_lib g → quiet anything (report_all E tst g l).
Proof using HL Known0.
  intros Hg. induction l as [|[ttype text] l IH]; [by apply quiet_done|]. apply (quiet_bind anything); [by apply quiet_res|].
  by intros _ _.
Qed.

Lemma quiet_kver g kver : of_lib g → quiet anything (check_kver E tst g kver).
Proof using HL Known0.
  intros Hg. unfold check_kver. destruct (tst_parse_kver kver) as [[[v1 v2] v3] reports].
  apply (quiet_bind anything); [by apply quiet_reports|]. intros _ _.
  apply (quiet_bind anything); [by apply quiet_calm; [apply calm_lift|]|]. intros r _.
  apply (quiet_bind anything); [by apply quiet_reports|]. intros _ _. case_match; [by apply quiet_brk|by apply quiet_done].
Qed.

Lemma quiet_resources g l : of_lib g → quiet anything (copy_resources E tst g l).
Proof using HL Known0.
  intros Hg. induction l as [|f l IH]; [by apply quiet_done|]. apply (quiet_bind anything); [by apply quiet_safe|]. by intros _ _.
Qed.

Lemma quiet_setup g n : lib_with 1 g → asks_for n → quiet (lib_with n) (do_setup E tst g).
Proof using HL Known0.
  intros Hg Hn. pose proof Hg as [Hg0 _]. unfold do_setup. do 4 (case_match; [by apply quiet_brk|]).
  apply (quiet_bind anything); [case_match; [by apply quiet_calm; [apply calm_sys|]|by apply quiet_done]|]. intros euid _.
  case_match; [by apply quiet_brk|].
  apply (quiet_bind anything); [case_match; [by apply quiet_kver|by apply quiet_done]|]. intros _ _.
  apply (quiet_bind (lib_with n)); [by apply quiet_parse|]. clear g Hg Hg0. intros g Hg.
  apply (quiet_bind (lib_with n)); [by apply quiet_ipc|]. clear g Hg. intros g Hg.
  apply (quiet_bind (lib_with n)).
  { case_match; [|by apply quiet_done]. apply (quiet_bind anything); [by apply quiet_safe, Hg|]. intros _ _. by apply quiet_done. }
  clear g Hg. intros g Hg. apply (quiet_bind (lib_with n)).
  { case_match; [|by apply quiet_done]. apply (quiet_bind anything); [by apply quiet_calm; [apply calm_sys|]|]. intros d _.
    apply (quiet_bind anything); [by apply quiet_calm; [apply calm_sys|]|]. intros _ _.
    case_match; [by apply quiet_brk; [apply Hg|]|by apply quiet_done]. }
  clear g Hg. intros g Hg. apply (quiet_bind anything); [case_match; [by apply quiet_resources, Hg|by apply quiet_done]|].
  intros _ _. by apply quiet_done.
Qed.

Lemma quiet_timeout g : of_lib g → quiet anything (get_timeout E tst g).
Proof using HL Known0.
  intros Hg. unfold get_timeout. case_match; [|by apply quiet_done]. case_match; [by apply quiet_brk|].
  by apply quiet_calm; [apply calm_lift|].
Qed.

(** ** What follows the wait *)

Lemma after_wait_ok g st (A : Type) (Q : A → know → Prop) r : of_lib g → P st r →
  wp (lib_logic P) L (after_wait E tst g st) Q (Know r (Some st)).
Proof using HL Known0.
  intros Hg Hc. unfold after_wait. apply wp_alarm.
  assert (Ha : argument P (base st) (Know r (Some st))).
  { split; [|done]. unfold base. case_match; [|case_match; by compute]. unfold WEXITSTATUS.
    rewrite Z.shiftr_land. change (Z.shiftr 65280 8) with (Z.ones 8). rewrite Z.land_ones by lia. apply Z.mod_pos_bound. done. }
  unfold base in Ha. destruct (WIFEXITED st) eqn:Ex.
  - assert (Hs : WIFSIGNALED st = false).
    { unfold WIFEXITED in Ex. apply Z.eqb_eq in Ex. unfold WIFSIGNALED. by rewrite Ex. }
    rewrite Hs. cbn [andb]. destruct (Z.eqb_spec (WEXITSTATUS st) 0) as [E0|]; cbn [negb]; apply do_exit_ok; [by rewrite E0 in Ha|done].
  - cbn [andb]. destruct (WIFSIGNALED st); cbn [andb]; [|by apply do_exit_ok]. destruct (_ =? SIGKILL); [|by apply lib_brk].
    unfold tst_res. apply wp_bind; [apply _|]. unfold tst_vres_, print_result, update_results.
    change (result_name TINFO) with (Some (str "INFO")). apply wp_bind; [apply _|]. apply wp_bind; [apply _|]. apply calm_lift.
    intros t. apply calm_puts. intros _. destruct (results_set g); cbn [negb]; [|by apply lib_brk].
    by apply lib_brk.
Qed.

Lemma run_tcases_ok n (Q : Empty_set → know → Prop) : asks_for n →
  (∀ v g, lib_pid g ≠ v → iterations g = n →
    wp (test_logic P) v (testrun E tst g (A := Empty_set)) (λ _ _, False) (Know (Results 0 0 0 0) None)) →
  wp (lib_logic P) L (tst_run_tcases E tst) Q (Know (Results 0 0 0 0) None).
Proof using HL Known0.
  intros Hn Hrun. unfold tst_run_tcases. apply wp_getpid. apply wp_bind; [apply _|].
  apply (quiet_setup _ n); [done..|]. intros g [Hg Hi]. apply wp_bind; [apply _|]. apply quiet_timeout; [done..|]. intros t _.
  apply wp_bind; [apply _|]. apply quiet_res; [done..|]. intros _ _.
  apply wp_handlers, wp_alarm, wp_fork; [done|..].
  - intros v Hv. destruct (v <? 0); [by apply (quiet_brk anything)|]. rewrite (proj2 (Z.eqb_neq v 0)) by done.
    apply wp_waitpid; [done|]. intros st r _ Hc. by apply after_wait_ok.
  - intros v Hv Hne. change (wp (test_logic P) v (Setpgid (Done ()) ≫= λ _, testrun E tst g (A := Empty_set)) (λ _ _, False)
      (Know (Results 0 0 0 0) None)). apply wp_setpgid. apply Hrun; [|done]. by rewrite (proj1 Hg).
Qed.
End library.

(** ** Properties *)

(** A test whose functions end its process only with an exit status that is not 0. *)
Record well_behaved (tst : tst_test) : Prop := {
  wb_tcnt : 0 ≤ tcnt tst;
  wb_test f i : test tst = Some f → stays (f i);
  wb_test_all f : test_all tst = Some f → stays f;
  wb_setup f : setup tst = Some f → stays f;
  wb_cleanup f : cleanup tst = Some f → stays f }.

Lemma start_inv L l t p : 1 < L → wp l L p (λ _ _, False) (Know (Results 0 0 0 0) None) → inv L l t (start L p).
Proof.
  intros HL Hp. split; simpl; try done.
  - by rewrite lookup_singleton_ne by lia.
  - rewrite lookup_singleton_eq. eauto.
  - by intros [].
  - intros pid pr. destruct (decide (L = pid)) as [<-|]; [|by rewrite lookup_singleton_ne].
    rewrite lookup_singleton_eq. intros [= <-]. rewrite role_lib. by exists (Know (Results 0 0 0 0) None).
Qed.

Lemma lib_steps P `{!Known P} L s s' : (∀ r, P SIGKILL r) → inv L (lib_logic P) (test_logic P) s → steps s s' →
  incs s' < 2 ^ 31 → inv L (lib_logic P) (test_logic P) s'.
Proof.
  intros HP. apply steps_inv; try apply _; try done.
  - intros q st r κ Hp Hb. by eapply known_below.
  - intros sig κ Hsig. simpl. congruence.
  - intros q κ. apply HP.
Qed.

Lemma lor_zero a b : Z.lor a b = 0 → a = 0 ∧ b = 0.
Proof. apply Z.lor_eq_0_iff. Qed.

Lemma status_follows L l t s st : inv L l t s → status_of L s = Some st →
  ∃ κ, below (floor κ) (shared s) ∧ ends_ok l L st κ.
Proof.
  intros Hinv Hst. unfold status_of in Hst. destruct (procs s !! L) as [[[p|st'] pp pg]|] eqn:Hp; try done. simplify_eq.
  destruct (inv_follows _ _ _ _ Hinv L _ Hp) as (κ & Hκ & Hend). rewrite role_lib in Hend. eauto.
Qed.

(** C5: For a test whose functions never end its process with exit(0) themselves
    ([well_behaved]; without that, see [silent_exit_passes]), run without -h and with
    fewer than 2^31 reports: whatever the order in which its processes run, the
    library exits with 0 only when the test has passed: every call of the test in
    every iteration has reported a result, so that many results have passed. *)
Theorem exit_zero_passed E tst L n s st
  (HL : 1 < L) (Htst : well_behaved tst) (Hopt : asks_for E tst n)
  (Hsteps : steps (start L (tst_run_tcases E tst)) s) (Hincs : incs s < 2 ^ 31)
  (Hst : status_of L s = Some st) (Hexit : WIFEXITED st = true) (Hzero : WEXITSTATUS st = 0) :
  u32 n * per_run tst ≤ passed (shared s).
Proof.
  set (P := counted (u32 n * per_run tst)). destruct Htst as [Hcnt Htest Hall Hset Hcl].
  assert (Hinv : inv L (lib_logic P) (test_logic P) s).
  { eapply lib_steps; [apply _|by intros; split| |done|done]. apply start_inv; [done|].
    apply (run_tcases_ok _ _ _ _ HL n); [done|]. intros v g Hg <-. by apply testrun_counts. }
  destruct (status_follows _ _ _ _ _ Hinv Hst) as (κ & Hκ & Hend).
  destruct (Hend Hexit) as (b & [_ Hb] & Hlor). rewrite Hzero in Hlor. symmetry in Hlor. apply lor_zero in Hlor as [-> Hfl].
  destruct (waited κ) as [w|]; [|done]. destruct Hb as [Hbase [Hw Hc]]. unfold base in Hbase.
  destruct (WIFEXITED w); [|by destruct (WIFSIGNALED w)]. specialize (Hc eq_refl (eq_sym Hbase)).
  unfold flags in Hfl. apply lor_zero in Hfl as [Hfs _]. apply lor_zero in Hfs as [Hf Hs].
  destruct (Z.eqb_spec (failed (floor κ)) 0); [|done]. destruct (Z.eqb_spec (skipped (floor κ)) 0); [|done].
  pose proof (Hκ Passed) as Hp. simpl in Hp. unfold total in Hc. lia.
Qed.

(** After the wait. *)
Definition after_logic (r0 : results) (w : Z) : logic :=
  Logic (λ _ st κ, WIFEXITED st = true → below r0 (floor κ) ∧ WEXITSTATUS st = Z.lor (base w) (flags (floor κ)))
    (λ _ _ _, True) (λ _, False) (λ _ _ _ _, False).
#[global] Instance after_children r0 w : Children (after_logic r0 w).
Proof. by intros ?. Qed.

Lemma wp_after P r0 w me {A : Type} (p : prog A) (Q : A → know → Prop) κ :
  waited κ = Some w → below r0 (floor κ) → wp (lib_logic P) me p Q κ →
  wp (after_logic r0 w) me p (λ a κ', Q a κ' ∧ waited κ' = Some w ∧ below r0 (floor κ')) κ.
Proof.
  revert Q κ. induction p as [| | | |A n k IH|A n k IH|A c k IH|A c k IH|A k IH|A k IH|A k IH|A k IH|A q k IH|A t k IH|A t k IH|A k IH|A v body IHb k IH];
    intros Q κ Hw Hb; cbn [wp ends_ok lib_logic after_logic first]; try (by eauto).
  - intros H Hx. destruct (H Hx) as (b & [_ Ha] & E). rewrite Hw in Ha. destruct Ha as [-> _]. done.
  - intros H Hx. destruct (H Hx) as (b & [_ Ha] & E). rewrite Hw in Ha. destruct Ha as [-> _]. done.
  - intros H v Hv. apply IH; [done| |by apply H]. etrans; [done|]. by apply below_raised.
  - intros (H & _). congruence.
  - intros (H & _). congruence.
  - intros (Inv & H0 & H). exists (λ v κ, Inv v κ ∧ waited κ = Some w ∧ below r0 (floor κ)). split; [done|].
    intros v' κ' (Hi & Hw' & Hb'). eapply wp_mono; [|by apply IHb, H].
    intros [v''|] κ'' (H'' & Hw'' & Hb''); [done|]. by apply IH.
Qed.

Lemma inv_change L l l' t s : inv L l t s → (∀ pr, procs s !! L = Some pr → follows l' L (pst pr) (shared s)) →
  inv L l' any_logic s.
Proof.
  intros [H1 H2 H3 H4 H5 H6] Hl. split; try done. intros pid pr Hpid.
  destruct (role_cases L l' any_logic pid pr) as [[-> ->]|[(_ & _ & ->)|(_ & _ & ->)]]; [by apply Hl|apply follows_any..].
Qed.

Lemma steps_incs s s' : steps s s' → incs s ≤ incs s'.
Proof. induction 1 as [|s1 s2 c _ IH E]; [done|]. apply step_incs in E. lia. Qed.

(** The step with which the library takes the status of its child. *)
Lemma taken_inv P L s1 s1' v q w : inv L (lib_logic P) (test_logic P) s1 → inv L (lib_logic P) (test_logic P) s1' →
  P w (shared s1) → waiting s1 = Some q → status_of q s1 = Some w → do_step (Do L v) s1 = Some s1' →
  shared s1' = shared s1 ∧ inv L (after_logic (shared s1) w) any_logic s1'.
Proof.
  intros Hinv Hinv' HP Hwait Hw Hstep. unfold waiting in Hwait. rewrite (inv_lib _ _ _ _ Hinv) in Hwait. simpl in Hstep.
  destruct (procs s1 !! L) as [[[p|] pp pg]|] eqn:HpL; try done. simpl in Hstep. destruct p; try done.
  simplify_eq. simpl in Hstep. unfold status_of in Hw. destruct (procs s1 !! q) as [[[|w'] pq gq]|] eqn:Hq; try done. simplify_eq.
  destruct (pq =? L); [|done]. simplify_eq. simpl. split; [done|].
  eapply inv_change; [exact Hinv'|]. intros pr. simpl. destruct (decide (q = L)) as [->|]; [congruence|].
  rewrite lookup_delete_ne, lookup_insert_eq by done. intros [= <-]. simpl.
  destruct (inv_follows _ _ _ _ Hinv L _ HpL) as (κ & Hκ & Hwp). rewrite role_lib in Hwp. destruct Hwp as [_ Hwp].
  exists (Know (shared s1) (Some w)). split; [reflexivity|]. eapply wp_mono; [|apply (wp_after P); [done|reflexivity|by apply Hwp]].
  by intros ? ? [? _].
Qed.

(** C6: Nothing is lost on the way to the exit status: when the library takes the
    status [w] of the test it exits, if it does, with the bits of that status (or
    TBROK when a signal ended the test), and TFAIL, TCONF and TWARN exactly when
    such results are counted, by a count between that moment and the end. *)
Theorem exit_status_exact E tst L n v s1 q w s1' s2 st
  (HL : 1 < L) (Hopt : asks_for E tst n) (Hsteps : steps (start L (tst_run_tcases E tst)) s1)
  (Hwait : waiting s1 = Some q) (Hw : status_of q s1 = Some w) (Hstep : do_step (Do L v) s1 = Some s1')
  (Hsteps' : steps s1' s2) (Hincs : incs s2 < 2 ^ 31) (Hst : status_of L s2 = Some st) (Hexit : WIFEXITED st = true) :
  ∃ r, below (shared s1) r ∧ below r (shared s2) ∧ WEXITSTATUS st = Z.lor (base w) (flags r).
Proof.
  set (P := λ (_ : Z) (_ : results), True). assert (HP : Known P) by done.
  assert (Hinv0 : inv L (lib_logic P) (test_logic P) (start L (tst_run_tcases E tst))).
  { apply start_inv; [done|]. apply (run_tcases_ok _ _ _ _ HL n); [done|]. intros. by apply wp_any. }
  assert (Hi1 : incs s1 ≤ incs s1' ≤ incs s2) by (split; [by eapply step_incs|by apply steps_incs]).
  assert (Hinv : inv L (lib_logic P) (test_logic P) s1) by (eapply lib_steps; [done..|lia]).
  assert (Hinv' : inv L (lib_logic P) (test_logic P) s1')
    by (eapply (lib_steps P L s1); [done|done|by eapply steps_step; [apply steps_refl|]|lia]).
  destruct (taken_inv P L s1 s1' v q w) as [Hsh Hinv2]; [done..|].
  assert (Hinv3 : inv L (after_logic (shared s1) w) any_logic s2).
  { eapply (steps_inv L (after_logic (shared s1) w) any_logic); try done; [apply _..|]. intros sig κ Hsig. simpl. congruence. }
  destruct (status_follows _ _ _ _ _ Hinv3 Hst) as (κ & Hκ & Hend). destruct (Hend Hexit) as [Hr Hlor]. by exists (floor κ).
Qed.

(** ** Witnesses *)

(** A schedule: the library's process goes first, then the test's; the system answers
    every call with [v]. *)
Fixpoint drive (fuel : nat) (pids : list Z) (v : Z) (s : system) : system :=
  match fuel with
  | O => s
  | S fuel =>
      match foldr (λ pid o, match do_step (Do pid v) s with Some s' => Some s' | None => o end) None pids with
      | Some s' => drive fuel pids v s'
      | None => s
      end
  end.

Lemma steps_trans s s1 s2 : steps s s1 → steps s1 s2 → steps s s2.
Proof. intros H1. induction 1 as [|s2 s3 c _ IH E]; [done|]. by eapply steps_step. Qed.

Lemma drive_steps fuel pids v s : steps s (drive fuel pids v s).
Proof.
  revert s. induction fuel as [|fuel IH]; intros s; cbn [drive]; [apply steps_refl|].
  destruct (foldr _ None pids) as [s'|] eqn:E; [|apply steps_refl].
  assert (∃ c, do_step c s = Some s') as (c & Ec).
  { clear IH. induction pids as [|pid pids IHp]; [done|]. cbn [foldr] in E.
    destruct (do_step (Do pid v) s) eqn:Es; [injection E as <-; by eauto|]. apply IHp. exact E. }
  eapply steps_trans; [|apply IH]. by eapply steps_step; [apply steps_refl|].
Qed.

Definition ex_env : test_env :=
  TestEnv (str "4.9.0") (λ _, S754_zero false) None (λ _, [("i"%char, str "2")]) 4096 (λ _, str "failed") (str "tst_test.c")
    (str "tst_kvercmp.c") (replicate 1024 "x"%char) (λ n, replicate n "x"%char) 10.
Definition ex_tst (f : user ()) : tst_test :=
  TstTest (str "ex") 0 None None false false false false false 0 None None None (Some f) None.
(** A test that passes, and one that fails and then dies. *)
Definition ex_pass : user () := URes (str "ex.c") 10 TPASS (0, 0) (str "works") (URet ()).
Definition ex_fail : user () := URes (str "ex.c") 10 TFAIL (0, 0) (str "does not work") (UDie SIGSEGV).
Abbreviation ex_end f := (drive 1000 [40; 50] 50 (start 40 (tst_run_tcases ex_env (ex_tst f)))).

Lemma ex_asks f : asks_for ex_env (ex_tst f) 2.
Proof. intros os _. split; [by repeat constructor|done]. Qed.

Lemma ex_pass_status : status_of 40 (ex_end ex_pass) = Some 0.
Proof. vm_compute. reflexivity. Qed.
Lemma ex_pass_incs : incs (ex_end ex_pass) < 2 ^ 31.
Proof. vm_compute. reflexivity. Qed.

Lemma exit_zero_passed_witness : status_of 40 (ex_end ex_pass) = Some 0 ∧
  u32 2 * per_run (ex_tst ex_pass) ≤ passed (shared (ex_end ex_pass)).
Proof.
  split; [exact ex_pass_status|].
  apply (exit_zero_passed ex_env (ex_tst ex_pass) 40 2 (ex_end ex_pass) 0).
  - lia.
  - split; simpl; [lia|discriminate| |discriminate|discriminate]. intros f [= <-]. exact I.
  - apply ex_asks.
  - apply drive_steps.
  - exact ex_pass_incs.
  - exact ex_pass_status.
  - reflexivity.
  - reflexivity.
Defined.

(** The test has ended, the library has taken its status, the library has ended. *)
Abbreviation ex_ended := (drive 1000 [50] 50 (drive 1000 [40] 50 (start 40 (tst_run_tcases ex_env (ex_tst ex_fail))))).
Abbreviation ex_taken := (default ex_ended (do_step (Do 40 50) ex_ended)).

Lemma ex_taken_step : do_step (Do 40 50) ex_ended = Some ex_taken.
Proof.
  assert (H : is_set (do_step (Do 40 50) ex_ended) = true) by (vm_compute; reflexivity).
  destruct (do_step (Do 40 50) ex_ended); [reflexivity|discriminate].
Qed.
Lemma ex_fail_waits : waiting ex_ended = Some 50 ∧ status_of 50 ex_ended = Some SIGSEGV ∧ failed (shared ex_ended) = 1.
Proof. vm_compute. done. Qed.
Lemma ex_fail_end : incs (drive 1000 [40] 50 ex_taken) < 2 ^ 31 ∧
  status_of 40 (drive 1000 [40] 50 ex_taken) = Some (exit_status (Z.lor TBROK TFAIL)).
Proof. vm_compute. done. Qed.

Lemma exit_status_exact_witness :
  ∃ r, below (shared ex_ended) r ∧ below r (shared (drive 1000 [40] 50 ex_taken)) ∧
    WEXITSTATUS (exit_status (Z.lor TBROK TFAIL)) = Z.lor (base SIGSEGV) (flags r).
Proof.
  apply (exit_status_exact ex_env (ex_tst ex_fail) 40 2 50 ex_ended 50 SIGSEGV ex_taken (drive 1000 [40] 50 ex_taken)
    (exit_status (Z.lor TBROK TFAIL))).
  - lia.
  - apply ex_asks.
  - eapply steps_trans; [apply drive_steps|apply drive_steps].
  - exact (proj1 ex_fail_waits).
  - exact (proj1 (proj2 ex_fail_waits)).
  - exact ex_taken_step.
  - apply drive_steps.
  - exact (proj1 ex_fail_end).
  - exact (proj2 ex_fail_end).
  - reflexivity.
Defined.

(** Before the results are shared, tst_brk runs into a null pointer: the process of a
    test that needs root and does not have it. *)
Definition ex_root : tst_test :=
  TstTest (str "ex") 0 None None false true false false false 0 None None None (Some ex_pass) None.
Example early_break_undefined :
  match procs (drive 1000 [40] 50 (start 40 (tst_run_tcases ex_env ex_root))) !! 40 with
  | Some (Proc (Run Wild) _ _) => true
  | _ => false
  end = true.
Proof. vm_compute. reflexivity. Qed.

(** A cleanup that breaks is called again and again until the stack is exhausted. *)
Definition ex_cleanup : tst_test :=
  TstTest (str "ex") 0 None None false false false false false 0 None
    (Some (UBrk (str "ex.c") 20 TBROK (0, 0) (str "cleanup"))) None (Some ex_pass) None.
Example cleanup_break_recurses :
  status_of 50 (drive 1000 [50] 50 (drive 1000 [40] 50 (start 40 (tst_run_tcases ex_env ex_cleanup)))) = Some SIGSEGV.
Proof. vm_compute. reflexivity. Qed.

(** A test that exits with 0 instead of reporting a result passes. *)
Example silent_exit_passes : status_of 40 (ex_end (UExit 0)) = Some 0 ∧ passed (shared (ex_end (UExit 0))) = 0.
Proof. vm_compute. done. Qed.
