(* ===== verification/TstTimeout.v ===== *)
(** * The timeout of a test

    lib/tst_test.c: when the test does not send its heartbeat in time, all the
    processes of its group are killed.  The library installs its handlers, starts its
    timer, forks the test and waits for it; the test makes itself the leader of a
    group.  That these steps are taken, in this order, is an invariant of every run. *)

From Stdlib Require Import SpecFloat.
From S2P Require Import Prelude CInt CMem CString Names TstRes ParseOpts Kver TstTest TstLogic.
Local Open Scope Z_scope.

(** Whether a step sends the heartbeat. *)
Definition beats (c : choice) (s : system) : bool :=
  match c with
  | Do pid _ => match procs s !! pid with Some (Proc (Run (Beat _)) _ _) => true | _ => false end
  | Tick => false
  end.
Definition of_lib_process (c : choice) (s : system) : bool := match c with Do pid _ => pid =? lib s | Tick => false end.

(** Steps without a heartbeat while the library waits. *)
Fixpoint run_silent (cs : list choice) (s : system) : option system :=
  match cs with
  | [] => Some s
  | c :: cs => if beats c s || of_lib_process c s then None else do_step c s ≫= run_silent cs
  end.

Definition ticks (cs : list choice) : Z := foldr (λ c n, match c with Tick => n + 1 | Do _ _ => n end) 0 cs.

(** The library waits for its child [q], which leads its own process group. *)
(** The test has called setpgid. *)
Definition leads_group (q : Z) (s : system) : bool :=
  match procs s !! q with Some (Proc (Run (Setpgid _)) _ _) => false | _ => true end.

Record watches (q : Z) (s : system) : Prop := {
  w_waits : waiting s = Some q;
  w_apart : ∀ pr, procs s !! lib s = Some pr → pgid pr ≠ q ∧ ppid pr = 1;
  w_init : procs s !! 1 = None;
  w_handler : is_Some (handler s) ∧ test_pid s = q ∧ 1 < q;
  w_child : ∃ pr, procs s !! q = Some pr ∧ ppid pr = lib s ∧ pgid pr = q }.

Definition group_dead (q : Z) (s : system) : Prop := ∀ pid pr, procs s !! pid = Some pr → in_group q pr = false.

Lemma is_set_false {A} (o : option A) : is_set o = false → o = None.
Proof. unfold is_set. intros H. bool_hyps. destruct o; [|done]. by destruct H. Qed.

(** ** What a step of another process changes *)

Section step.
Context (s s' : system) (pid v : Z) (pr : proc) (p : prog Empty_set).
Context (Hpid : procs s !! pid = Some pr) (Hrun : pst pr = Run p) (Hact : act pid v pr p s = Some s').
Context (Hnl : pid ≠ lib s) (t : Z) (Hh : handler s = Some t).

(** A heartbeat sets the timer. *)
Lemma beat_alarm s0 : handler s0 = Some t → ∃ a, (a = alarm s0 ∨ a = if t =? 0 then None else Some t) ∧
  (if ppid pr =? lib s0 then signal_lib SIGUSR1 (λ _, heartbeat_handler) s0 else s0) = set_alarm a s0.
Proof.
  intros Hh0. assert (Es : s0 = set_alarm (alarm s0) s0) by (by destruct s0).
  destruct (ppid pr =? lib s0); [|by exists (alarm s0); auto]. unfold signal_lib. rewrite Hh0.
  destruct (procs s0 !! lib s0) as [pl|]; [|by exists (alarm s0); auto]. destruct (pst pl); [|by exists (alarm s0); auto].
  eexists. split; [by right|done].
Qed.

Ltac split_act := destruct p as [a|c|sig| |n k|l k|c k|c k|k|k|k|k|q k|tt0 k|n k|k|v0 body k]; simpl in Hact; [by destruct a|..];
  try (destruct (beat_alarm (goes_on pid pr k s) Hh) as (a & Ha & Eb); simpl in Eb; rewrite Eb in Hact);
  rewrite ?(proj2 (Z.eqb_neq _ _) Hnl) in Hact;
  repeat (case_match; try done); simplify_eq; simpl in *.

(** A process that is not a child of it stays as it is. *)
Lemma act_other x px : x ≠ pid → procs s !! x = Some px → ppid px ≠ pid → procs s' !! x = Some px.
Proof using All.
  intros Hx Hpx Hpp.
  assert (Hadopt : (adopt pid <$> procs s) !! x = Some px).
  { rewrite lookup_fmap, Hpx. simpl. unfold adopt. by rewrite (proj2 (Z.eqb_neq _ _)). }
  split_act; bool_hyps; try (by rewrite lookup_insert_ne by done); try (by rewrite lookup_insert_ne, Hadopt by done).
  - rewrite !lookup_insert_ne; [done|done|]. intros <-. match goal with H : is_set _ = false |- _ => apply is_set_false in H end. congruence.
  - rewrite lookup_delete_ne; [by rewrite lookup_insert_ne|]. by intros ->; simplify_eq.
  - rewrite lookup_delete_ne; [by rewrite lookup_insert_ne|]. by intros ->; simplify_eq.
Qed.

(** It stays in its group, or leads one: after setpgid it does. *)
Lemma act_self : ∃ pr', procs s' !! pid = Some pr' ∧ ppid pr' = ppid pr ∧ (pgid pr' = pgid pr ∨ pgid pr' = pid) ∧
  ((∃ k, p = Setpgid k) → pgid pr' = pid).
Proof using All.
  split_act; bool_hyps; try (rewrite lookup_insert_eq; eexists; split_and!; [done|done|auto|by intros [? [=]]]).
  - rewrite lookup_insert_ne, lookup_insert_eq; [eexists; split_and!; [done|done|auto|by intros [? [=]]]|].
    intros ->. match goal with H : is_set _ = false |- _ => apply is_set_false in H end. congruence.
  - rewrite lookup_delete_ne; [rewrite lookup_insert_eq; eexists; split_and!; [done|done|auto|by intros [? [=]]]|]. by intros ->; simplify_eq.
  - rewrite lookup_delete_ne; [rewrite lookup_insert_eq; eexists; split_and!; [done|done|auto|by intros [? [=]]]|]. by intros ->; simplify_eq.
Qed.

(** A process that runs after the step is that process, or ran before, or is its
    child in the same group. *)
Lemma act_group x px : x ≠ pid → procs s' !! x = Some px →
  pgid px = pgid pr ∨ ∃ px0, procs s !! x = Some px0 ∧ pst px = pst px0 ∧ pgid px = pgid px0.
Proof using All.
  intros Hx Hpx.
  assert (Hadopt : (adopt pid <$> procs s) !! x = Some px → ∃ px0, procs s !! x = Some px0 ∧ pst px = pst px0 ∧ pgid px = pgid px0).
  { rewrite lookup_fmap. intros (p0 & H0 & ->)%fmap_Some_1. exists p0. unfold adopt. by case_match. }
  split_act; try (right; rewrite lookup_insert_ne in Hpx by done; by eauto).
  - destruct (decide (v = x)) as [->|]; [rewrite lookup_insert_eq in Hpx; simplify_eq; by left|].
    right. rewrite !lookup_insert_ne in Hpx by done. eauto.
  - right. apply lookup_delete_Some in Hpx as [_ Hpx]. rewrite lookup_insert_ne in Hpx by done. eauto.
  - right. apply lookup_delete_Some in Hpx as [_ Hpx]. rewrite lookup_insert_ne in Hpx by done. eauto.
Qed.

(** It does not touch the variables of the library; a heartbeat sets the timer. *)
Lemma act_fields : lib s' = lib s ∧ handler s' = handler s ∧ test_pid s' = test_pid s ∧ fired s' = fired s ∧
  (alarm s' = alarm s ∨ (∃ k, p = Beat k) ∧ alarm s' = if t =? 0 then None else Some t).
Proof using All. split_act; auto 10. all: destruct Ha as [->| ->]; split_and!; eauto. Qed.

Lemma act_init : procs s !! 1 = None → procs s' !! 1 = None.
Proof using All.
  intros H1. assert (Hne : pid ≠ 1) by congruence. destruct (procs s' !! 1) as [p1|] eqn:E; [|done].
  split_act; rewrite ?lookup_delete_Some, ?lookup_insert_ne, ?lookup_fmap, ?H1 in E by (done || (bool_hyps; lia)); try done.
  - by destruct E.
  - by destruct E.
Qed.
End step.

(** ** The program of the library *)

Section library.
Context (E : test_env) (tst : tst_test) (L : Z) (HL : 1 < L).

(** A program of the library's process that prints, counts and makes calls, but none
    that has to do with processes and timers, and ends or goes on with [Q]. *)
Fixpoint silent {A : Type} (p : prog A) (Q : A → Prop) : Prop :=
  match p with
  | Done a => Q a
  | Exit _ | Die _ | Wild => True
  | Sys _ k | Load _ k => ∀ v, silent (k v) Q
  | Puts _ k | Inc _ k => silent k Q
  | Getpid k => silent (k L) Q
  | _ => False
  end.

Lemma silent_bind {A B : Type} (p : prog A) (f : A → prog B) Q : silent p (λ a, silent (f a) Q) → silent (p ≫= f) Q.
Proof.
  unfold mbind, prog_bind.
  induction p as [| | | |A n k IH|A n k IH|A c k IH|A c k IH|A k IH|A k IH|A k IH|A k IH|A q k IH|A t k IH|A t k IH|A k IH|A v body IHb k IH]; simpl; auto.
Qed.

Lemma silent_mono {A : Type} (p : prog A) (Q R : A → Prop) : (∀ a, Q a → R a) → silent p Q → silent p R.
Proof.
  intros HQ. induction p as [| | | |A n k IH|A n k IH|A c k IH|A c k IH|A k IH|A k IH|A k IH|A k IH|A q k IH|A t k IH|A t k IH|A k IH|A v body IHb k IH]; simpl; eauto.
Qed.

(** One after the other. *)
Lemma silent_seq {A B : Type} (R : A → Prop) (p : prog A) (f : A → prog B) Q :
  silent p R → (∀ a, R a → silent (f a) Q) → silent (p ≫= f) Q.
Proof. intros Hp Hf. apply silent_bind. by eapply silent_mono. Qed.

Lemma silent_lift {A : Type} (m : res A) (Q : A → Prop) : (∀ a, m = Ret a → Q a) → silent (lift m) Q.
Proof. intros H. destruct m; simpl; auto. Qed.

Lemma silent_when b p (Q : () → Prop) : (∀ a, Q a) → silent p Q → silent (when b p) Q.
Proof. intros HQ Hp. destruct b; [done|apply HQ]. Qed.

(** Reports of the library. *)
Lemma silent_vres brk g file line ttype es text (Q : () → Prop) : results_set g = true → result_name ttype ≠ None → (∀ a, Q a) →
  silent (tst_vres_ E brk g file line ttype es text) Q.
Proof.
  intros Hg Ht HQ. unfold tst_vres_, print_result, update_results. rewrite Hg. destruct (result_name ttype); [|done].
  apply silent_bind, silent_bind, silent_lift. intros a _. simpl. repeat (case_match; [apply HQ|]). apply HQ.
Qed.

Lemma silent_cleanup brk g : results_set g = true → silent (do_cleanup E tst brk g) (λ _, True).
Proof.
  intros Hg. unfold do_cleanup, cleanup_ipc.
  repeat lazymatch goal with
  | |- silent (_ ≫= _) _ => apply (silent_seq (λ _, True)); [|intros]
  | |- silent (when _ _) _ => apply silent_when; [done|]
  | |- silent (sys_ _) _ => by intros ?
  | |- silent (Done _) _ => done
  | |- silent (tst_vres_ _ _ _ _ _ _ _ _) _ => by apply silent_vres
  end.
Qed.

Lemma silent_exit brk g ret (A : Type) (Q : A → Prop) : silent (do_exit E tst brk g ret) Q.
Proof.
  unfold do_exit. destruct (results_set g) eqn:Hg; [|done]. simpl. intros p f s w f' s' w'.
  apply (silent_seq (λ _, True)); [by apply silent_cleanup|done].
Qed.

Lemma silent_vbrk d g file line ttype es text (A : Type) (Q : A → Prop) : of_lib L g →
  silent (tst_vbrk_ E tst d g file line ttype es text A) Q.
Proof using HL.
  intros [Hl Hm]. revert file line ttype es text A Q. induction d as [|d IH]; intros file line ttype es text A Q; [done|].
  cbn [tst_vbrk_]. apply (silent_seq (λ _, True)).
  { unfold print_result. destruct (result_name ttype); [|by apply IH]. by apply silent_bind, silent_lift. }
  intros _ _. simpl. rewrite Hm, (proj2 (Z.eqb_neq L 0)) by lia. simpl. rewrite Hl, Z.eqb_refl. apply silent_exit.
Qed.

Lemma silent_brk g line ttype e text (A : Type) (Q : A → Prop) : of_lib L g → silent (tst_brk E tst g line ttype e text) Q.
Proof using HL. apply silent_vbrk. Qed.

Lemma silent_res d g file line ttype es text : of_lib L g →
  silent (tst_vres_ E (tst_vbrk_ E tst d) g file line ttype es text) (λ _, True).
Proof using HL.
  intros Hg. unfold tst_vres_, print_result, update_results. apply (silent_seq (λ _, True)).
  { destruct (result_name ttype); [by apply silent_bind, silent_lift|by apply silent_vbrk]. }
  intros _ _. destruct (results_set g); cbn [negb]; [|by apply silent_vbrk]. by repeat case_match.
Qed.

Lemma silent_safe g line name : of_lib L g → silent (safe E tst g line name) (λ _, True).
Proof using HL. intros Hg. unfold safe. intros v. simpl. case_match; [by apply silent_vbrk|done]. Qed.

Lemma silent_opts g l : of_lib L g → silent (handle_opts E tst g l) (of_lib L).
Proof using HL.
  revert g. induction l as [|[opt arg] l IH]; intros g Hg; [done|]. apply (silent_seq (of_lib L)); [|intros g' Hg'; by apply IH].
  assert (Hhelp : silent (print_help tst) (λ _, True)).
  { unfold print_help. generalize (map (λ o, o.2 ++ [nl]) lib_options ++ map help (toptions tst)). intros ls. by induction ls. }
  unfold handle_opt. repeat case_match; try done.
  - apply (silent_seq (λ _, True)); [done|]. intros _ _. by apply silent_brk.
  - by apply (silent_seq (λ _, True)).
  - unfold parse_topt. destruct (list_find _ _) as [[i o]|]; [|by apply silent_brk]. by destruct (has_arg o).
Qed.

Lemma silent_parse g : of_lib L g → silent (parse_opts E tst g) (of_lib L).
Proof using HL.
  intros Hg. unfold parse_opts. apply (silent_seq (λ _, True)).
  { generalize (toptions tst). intros l. induction l as [|o l IH]; [done|]. cbn [check_option_collision].
    case_match; [by apply silent_brk|done]. }
  intros _ _. apply (silent_seq (λ _, True)); [by apply silent_lift|]. intros os _. by apply silent_opts.
Qed.

Lemma silent_ipc g : of_lib L g → silent (setup_ipc E tst g) (of_lib L).
Proof using HL.
  intros Hg. unfold setup_ipc. apply (silent_seq (λ _, True)); [done|]. intros fd _. case_match; [by apply silent_brk|].
  apply (silent_seq (λ _, True)); [by apply silent_safe|]. intros _ _.
  apply (silent_seq (λ _, True)); [by apply silent_safe|]. intros _ _.
  apply (silent_seq (λ _, True)); [case_match; [by apply silent_lift|by apply silent_safe]|]. intros _ _.
  apply (silent_seq (λ _, True)); [by apply silent_safe|]. intros _ _. by case_match.
Qed.

Lemma silent_reports g l : of_lib L g → silent (report_all E tst g l) (λ _, True).
Proof using HL.
  intros Hg. induction l as [|[ttype text] l IH]; [done|]. apply (silent_seq (λ _, True)); [by apply silent_res|done].
Qed.

Lemma silent_kver g kver : of_lib L g → silent (check_kver E tst g kver) (λ _, True).
Proof using HL.
  intros Hg. unfold check_kver. destruct (tst_parse_kver kver) as [[[v1 v2] v3] reports].
  apply (silent_seq (λ _, True)); [by apply silent_reports|]. intros _ _.
  apply (silent_seq (λ _, True)); [by apply silent_lift|]. intros r _.
  apply (silent_seq (λ _, True)); [by apply silent_reports|]. intros _ _. case_match; [by apply silent_brk|done].
Qed.

Lemma silent_resources g l : of_lib L g → silent (copy_resources E tst g l) (λ _, True).
Proof using HL. intros Hg. induction l as [|f l IH]; [done|]. apply (silent_seq (λ _, True)); [by apply silent_safe|done]. Qed.

Lemma silent_setup g : of_lib L g → silent (do_setup E tst g) (of_lib L).
Proof using HL.
  intros Hg. unfold do_setup. do 4 (case_match; [by apply silent_brk|]).
  apply (silent_seq (λ _, True)); [by case_match|]. intros euid _. case_match; [by apply silent_brk|].
  apply (silent_seq (λ _, True)); [case_match; [by apply silent_kver|done]|]. intros _ _.
  apply (silent_seq (of_lib L)); [by apply silent_parse|]. clear g Hg. intros g Hg.
  apply (silent_seq (of_lib L)); [by apply silent_ipc|]. clear g Hg. intros g Hg.
  apply (silent_seq (of_lib L)).
  { case_match; [|done]. apply (silent_seq (λ _, True)); [by apply silent_safe|done]. }
  clear g Hg. intros g Hg. apply (silent_seq (of_lib L)).
  { case_match; [|done]. apply (silent_seq (λ _, True)); [done|]. intros d _. apply (silent_seq (λ _, True)); [done|]. intros _ _.
    case_match; [by apply silent_brk|done]. }
  clear g Hg. intros g Hg. apply (silent_seq (λ _, True)); [case_match; [by apply silent_resources|done]|done].
Qed.

(** The timeout: that of the test or 300 seconds, times LTP_TIMEOUT_MUL. *)
Definition timeout_is (t : Z) : Prop :=
  let timeout := if t_timeout tst =? 0 then 300 else t_timeout tst in
  match LTP_TIMEOUT_MUL E with
  | Some mul => scale_timeout timeout (atof E mul) = Ret t
  | None => t = timeout
  end.

Lemma silent_timeout g : of_lib L g → silent (get_timeout E tst g) timeout_is.
Proof using HL.
  intros Hg. unfold get_timeout, timeout_is. destruct (LTP_TIMEOUT_MUL E); [|done].
  destruct (SFltb _ _); [by apply silent_brk|]. by apply silent_lift.
Qed.

(** What is left of the program: nothing but printing; from [alarm(0)] on; from the
    fork on; from [alarm(timeout)] on; from the beginning. *)
Definition rest (p : prog Empty_set) : Prop := silent p (λ _, True).
Definition after (p : prog Empty_set) : Prop := ∃ p', p = Alarm 0 p' ∧ rest p'.
Definition forking (f : Z → prog Empty_set) : Prop :=
  (∀ v, v < 0 → rest (f v)) ∧ (∀ v, 1 < v → ∃ k, f v = Waitpid v k ∧ ∀ st, after (k st)) ∧ ∃ k, f 0 = Setpgid k.
Definition arming (t : Z) (p : prog Empty_set) : Prop := ∃ f, p = Alarm t (Fork f) ∧ forking f.

Inductive setting_up : prog Empty_set → Prop :=
| su_rest p : rest p → setting_up p
| su_sys n k : (∀ v, setting_up (k v)) → setting_up (Sys n k)
| su_load c k : (∀ v, setting_up (k v)) → setting_up (Load c k)
| su_puts l k : setting_up k → setting_up (Puts l k)
| su_inc c k : setting_up k → setting_up (Inc c k)
| su_getpid k : setting_up (k L) → setting_up (Getpid k)
| su_handlers t k : timeout_is t → arming t k → setting_up (Handlers t k).

Lemma silent_setting_up {A : Type} (p : prog A) (f : A → prog Empty_set) : silent p (λ a, setting_up (f a)) → setting_up (p ≫= f).
Proof.
  unfold mbind, prog_bind.
  induction p as [| | | |A n k IH|A n k IH|A c k IH|A c k IH|A k IH|A k IH|A k IH|A k IH|A q k IH|A t k IH|A t k IH|A k IH|A v body IHb k IH]; simpl; try done.
  - intros _. by apply su_rest.
  - intros _. by apply su_rest.
  - intros _. by apply su_rest.
  - intros H. apply su_sys. intros v. by apply IH.
  - intros H. by apply su_puts, IH.
  - intros H. by apply su_inc, IH.
  - intros H. apply su_load. intros v. by apply IH.
  - intros H. by apply su_getpid, IH.
Qed.

Lemma after_wait_rest g st : of_lib L g → after (after_wait E tst g st).
Proof using HL.
  intros Hg. eexists. split; [reflexivity|]. unfold rest. cbn [bind]. repeat case_match; try apply silent_exit; try by apply silent_brk.
  apply (silent_seq (λ _, True)); [by apply silent_res|]. intros _ _. by apply silent_brk.
Qed.

(** The whole program. *)
Lemma run_tcases_shape : setting_up (tst_run_tcases E tst).
Proof using HL.
  unfold tst_run_tcases. apply su_getpid. apply silent_setting_up. eapply silent_mono; [|by apply silent_setup].
  intros g Hg. apply silent_setting_up. eapply silent_mono; [|by apply silent_timeout]. intros t Ht.
  apply silent_setting_up. eapply silent_mono; [|by apply silent_res]. intros _ _.
  apply su_handlers; [done|]. eexists. split; [reflexivity|]. split_and!.
  - intros v Hv. cbn [bind]. rewrite (proj2 (Z.ltb_lt _ _)) by done. by apply silent_brk.
  - intros v Hv. cbn [bind]. rewrite (proj2 (Z.ltb_ge _ _)), (proj2 (Z.eqb_neq _ _)) by lia.
    eexists. split; [reflexivity|]. intros st. cbn [bind]. by apply after_wait_rest.
  - eexists. reflexivity.
Qed.

(** ** Where the library is *)

(** The timer runs, unless it has gone off. *)
Definition on_time (t : Z) (s : system) : Prop := 0 < t → fired s = 0 → ∃ n, alarm s = Some n ∧ n ≤ t.

(** The test, which leads its group once it has called setpgid. *)
Definition the_test (q : Z) (s : system) : Prop :=
  ∃ pr, procs s !! q = Some pr ∧ ppid pr = L ∧ (pgid pr = q ∨ ∃ k, pst pr = Run (Setpgid k)).

Inductive phase (s : system) : pstate → Prop :=
| ph_setup p : setting_up p → phase s (Run p)
| ph_arming t p : timeout_is t → arming t p → handler s = Some t → phase s (Run p)
| ph_fork t f : timeout_is t → forking f → handler s = Some t → on_time t s → phase s (Run (Fork f))
| ph_wait t q k : timeout_is t → handler s = Some t → test_pid s = q → 1 < q → q ≠ L → on_time t s →
    (∀ st, after (k st)) → the_test q s → phase s (Run (Waitpid q k))
| ph_after p : after p → phase s (Run p)
| ph_dead st : phase s (Zombie st).

Record lib_inv (s : system) : Prop := {
  li_lib : lib s = L;
  li_init : procs s !! 1 = None;
  li_fired : 0 ≤ fired s;
  li_alone : handler s = None → ∀ pid pr, procs s !! pid = Some pr → pid = L;
  li_proc : ∃ pl, procs s !! L = Some pl ∧ ppid pl = 1 ∧ pgid pl = L ∧ phase s (pst pl) }.

Lemma phase_mono s s' st : handler s' = handler s → test_pid s' = test_pid s →
  (∀ t, handler s = Some t → on_time t s → on_time t s') → (∀ q, 1 < q → test_pid s = q → q ≠ L → the_test q s → the_test q s') →
  phase s st → phase s' st.
Proof.
  intros Hh Ht Ho Hc Hp. inversion Hp; subst.
  - by apply ph_setup.
  - eapply ph_arming; [done..|congruence].
  - eapply ph_fork; [done..|congruence|auto].
  - eapply ph_wait; try done; [congruence|auto|auto].
  - by apply ph_after.
  - apply ph_dead.
Qed.

Lemma lib_inv_start : lib_inv (start L (tst_run_tcases E tst)).
Proof using HL.
  split; simpl; [done|by rewrite lookup_singleton_ne by lia|done| |].
  { intros _ pid pr. destruct (decide (pid = L)) as [->|]; [done|]. by rewrite lookup_singleton_ne. }
  rewrite lookup_singleton_eq. eexists. split_and!; [done..|].
  apply ph_setup, run_tcases_shape.
Qed.

(** The library ends. *)
Lemma lib_inv_ends s pl st : lib_inv s → procs s !! L = Some pl → lib_inv (ends_with L pl st s).
Proof using HL.
  intros [Hl H1 Hf Ha (pl' & Hp & Hpp & Hpg & _)] Hpl. simplify_eq. split; simpl; try done.
  - by rewrite lookup_insert_ne, lookup_fmap, H1 by lia.
  - intros Hh pid pr. destruct (decide (pid = L)) as [->|]; [done|]. rewrite lookup_insert_ne, lookup_fmap by done.
    intros (p0 & H0 & _)%fmap_Some_1. by eapply Ha.
  - rewrite lookup_insert_eq. eexists. split_and!; [done..|]. apply ph_dead.
Qed.

(** It goes on, in a state with the same processes. *)
Lemma lib_inv_goes s s1 pl p : lib_inv s → procs s !! L = Some pl → lib s1 = L → procs s1 = procs s → fired s1 = fired s →
  (handler s1 = None → handler s = None) → phase (goes_on L pl p s1) (Run p) → lib_inv (goes_on L pl p s1).
Proof using HL.
  intros [Hl H1 Hf Ha (pl' & Hp & Hpp & Hpg & _)] Hpl El Ep Ef Eh Hph. simplify_eq.
  split; simpl; [done|by rewrite Ep, lookup_insert_ne by lia|lia| |].
  { intros Hh pid pr. destruct (decide (pid = L)) as [->|]; [done|]. rewrite Ep, lookup_insert_ne by done. by apply Ha, Eh. }
  rewrite Ep, lookup_insert_eq. eexists. split_and!; [done..|]. exact Hph.
Qed.

Lemma lib_inv_quiet s pl v p s' : lib_inv s → procs s !! L = Some pl → setting_up p → act L v pl p s = Some s' → lib_inv s'.
Proof using HL.
  intros Hi Hpl Hp Hact. pose proof (li_lib s Hi) as Hl. inversion Hp as [p0 Hr|n k Hk|c k Hk|l k Hk|c k Hk|k Hk|t k Ht Hk]; subst.
  - destruct p as [a|c|sig| |n k|l k|c k|c k|k|k|k|k|q k|t k|n k|k|v0 body k]; simpl in Hact; try done; simplify_eq; try by apply lib_inv_ends.
    all: apply (lib_inv_goes s); try done; apply ph_setup, su_rest; first [apply Hr|done].
  - simpl in Hact. simplify_eq. apply (lib_inv_goes s); try done. apply ph_setup, Hk.
  - simpl in Hact. simplify_eq. apply (lib_inv_goes s); try done. apply ph_setup, Hk.
  - simpl in Hact. simplify_eq. apply (lib_inv_goes s); try done. by apply ph_setup.
  - simpl in Hact. simplify_eq. apply (lib_inv_goes s); try done. by apply ph_setup.
  - simpl in Hact. simplify_eq. apply (lib_inv_goes s); try done. by apply ph_setup.
  - simpl in Hact. rewrite Hl, Z.eqb_refl in Hact. simplify_eq. apply (lib_inv_goes s); try done. by apply (ph_arming _ t).
Qed.

(** The fork: the library waits, and the test is before its call of setpgid. *)
Lemma lib_inv_fork s pl v t f s' : lib_inv s → procs s !! L = Some pl → timeout_is t → forking f → handler s = Some t → on_time t s →
  act L v pl (Fork f) s = Some s' → lib_inv s'.
Proof using HL.
  intros Hi Hpl Ht (Hneg & Hpos & (k0 & Hk0)) Hh Ho Hact. pose proof (li_lib s Hi) as Hl. simpl in Hact. rewrite Hl, Z.eqb_refl in Hact.
  destruct (Z.ltb_spec v 0) as [Hv|Hv].
  { simplify_eq. apply (lib_inv_goes s); try done. by apply ph_setup, su_rest, Hneg. }
  destruct (_ && _) eqn:Eb; [|done]. simplify_eq. bool_hyps. simpl in *.
  assert (Hnew : procs s !! v = None) by (by apply is_set_false). assert (Hne : v ≠ L) by congruence.
  destruct (Hpos v ltac:(lia)) as (k & Hk & Hafter). destruct Hi as [_ H1 Hf _ (pl' & Hp & Hpp & Hpg & _)]. simplify_eq.
  split; simpl; [done|by rewrite !lookup_insert_ne by lia|done|congruence|].
  rewrite lookup_insert_ne, lookup_insert_eq by done. eexists. split_and!; [done..|]. simpl. rewrite Hk.
  apply (ph_wait _ t); try done. eexists. simpl. rewrite lookup_insert_eq. split_and!; [done|done|]. right. exists k0. simpl. by rewrite Hk0.
Qed.

Lemma lib_inv_lib s pl v p s' : lib_inv s → procs s !! L = Some pl → pst pl = Run p → act L v pl p s = Some s' → lib_inv s'.
Proof using HL.
  intros Hi Hpl Hst Hact. pose proof (li_lib s Hi) as Hl. pose proof (li_proc s Hi) as (pl' & Hp & Hpp & Hpg & Hph).
  rewrite Hpl in Hp. injection Hp as <-. rewrite Hst in Hph.
  inversion Hph as [p0 Hs|t p0 Ht (f & -> & Hf) Hh|t f Ht Hf Hh Ho|t q k Ht Hh Htp Hq HqL Ho Hk Hc|p0 (p' & -> & Hr)|]; subst.
  - by eapply lib_inv_quiet.
  - simpl in Hact. rewrite Hl, Z.eqb_refl in Hact. simplify_eq. apply (lib_inv_goes s); try done. apply (ph_fork _ t); try done.
    intros H0 _. simpl. rewrite (proj2 (Z.eqb_neq t 0)) by lia. by exists t.
  - by eapply lib_inv_fork.
  - simpl in Hact. destruct Hc as (pq & Hpq & Hppq & _). rewrite Hpq in Hact. destruct pq as [[|st] pp g]; [done|]. simpl in *.
    rewrite Hppq, Z.eqb_refl in Hact. simplify_eq. destruct Hi as [_ H1 Hf _ _]. split; simpl; [done| |done|congruence|].
    + rewrite lookup_delete_ne, lookup_insert_ne by lia. done.
    + rewrite lookup_delete_ne, lookup_insert_eq by done. eexists. split_and!; [done..|]. by apply ph_after.
  - simpl in Hact. simplify_eq. apply (lib_inv_goes s); try done. by apply ph_setup, su_rest.
Qed.

(** A step of another process. *)
Lemma lib_inv_other s pid v pr p s' : lib_inv s → pid ≠ L → procs s !! pid = Some pr → pst pr = Run p →
  act pid v pr p s = Some s' → lib_inv s'.
Proof using HL.
  intros [Hl H1 Hf Ha (pl & Hpl & Hpp & Hpg & Hph)] Hne Hpid Hrun Hact.
  destruct (handler s) as [t|] eqn:Hh; [|by specialize (Ha eq_refl pid pr Hpid)].
  assert (Hnl : pid ≠ lib s) by congruence.
  destruct (act_fields s s' pid v pr p Hpid Hrun Hact Hnl t Hh) as (El & Eh & Et & Ef & Ea).
  split; [congruence|by eapply (act_init s s' pid v pr p); eauto|congruence|congruence|].
  exists pl. split_and!; [|done|done|].
  { eapply (act_other s s' pid v pr p); eauto. rewrite Hpp. congruence. }
  apply (phase_mono s); [congruence|done| | |done].
  - rewrite Hh. intros t' [= <-] Ho H0 Hf0. rewrite Ef in Hf0. destruct (Ho H0 Hf0) as (n & Hn & Hle).
    destruct Ea as [->|[_ ->]]; [eauto|]. rewrite (proj2 (Z.eqb_neq t 0)) by lia. by exists t.
  - intros q Hq _ HqL (pq & Hpq & Hppq & Hg). destruct (decide (q = pid)) as [->|Hqp].
    + rewrite Hpid in Hpq. injection Hpq as <-. destruct (act_self s s' pid v pr p Hpid Hrun Hact Hnl t Hh) as (pr' & Hpr' & Epp & Eg & Es).
      exists pr'. split_and!; [done|congruence|]. left. destruct Hg as [Hg|(k & Hk)]; [destruct Eg; congruence|].
      apply Es. exists k. congruence.
    + exists pq. split_and!; [|done|done]. eapply (act_other s s' pid v pr p); eauto. congruence.
Qed.

(** The alarm. *)
Lemma kill_lookup q m x px : m !! x = Some px → ∃ pp, kill_group q m !! x =
  Some (Proc (if in_group q px then Zombie SIGKILL else pst px) pp (pgid px)) ∧
  pp = match m !! ppid px with Some parent => if in_group q parent then 1 else ppid px | None => ppid px end.
Proof. intros Hx. unfold kill_group. rewrite lookup_fmap, Hx. eexists. by split. Qed.

Lemma lib_inv_kill q s : lib_inv s → fired s ≠ 0 → (0 < test_pid s → test_pid s = q) → lib_inv (set_procs (kill_group q (procs s)) s).
Proof using HL.
  intros [Hl H1 Hf Ha (pl & Hpl & Hpp & Hpg & Hph)] Hf0 Hq. split; simpl; [done| |done| |].
  - unfold kill_group. by rewrite lookup_fmap, H1.
  - intros Hh pid pr. unfold kill_group. rewrite lookup_fmap. intros (p0 & H0 & _)%fmap_Some_1. by eapply Ha.
  - destruct (kill_lookup q (procs s) L pl Hpl) as (pp & -> & Epp). eexists. split_and!; [done|simpl; by rewrite Epp, Hpp, H1|done|].
    simpl. destruct (in_group q pl) eqn:Eg; [apply ph_dead|]. apply (phase_mono s); [done|done| | |done].
    + intros t Ht Ho _ Hz. done.
    + intros q' Hq1 Htp HqL (pq & Hpq & Hppq & Hg). assert (q' = q) as -> by (rewrite <- Htp; apply Hq; lia).
      destruct (kill_lookup q (procs s) q pq Hpq) as (pp' & E' & Epp'). eexists. split; [exact E'|]. simpl.
      split; [by rewrite Epp', Hppq, Hpl, Eg|]. destruct Hg as [Hg|Hg]; [by left|]. destruct (in_group q pq) eqn:Eg'; [|by right].
      left. unfold in_group in Eg'. destruct (pst pq); [|done]. by apply Z.eqb_eq.
Qed.

Lemma lib_inv_tick s : lib_inv s → lib_inv (tick s).
Proof using HL.
  intros Hi. unfold tick. destruct (alarm s) as [n|] eqn:Ea; [|done]. destruct (Z.ltb_spec 1 n).
  - destruct Hi as [Hl H1 Hf Ha (pl & Hpl & Hpp & Hpg & Hph)]. split; try done. exists pl. split_and!; try done.
    apply (phase_mono s); try done. intros t Ht Ho H0 Hf0. destruct (Ho H0 Hf0) as (m & Hm & Hle). rewrite Ea in Hm. injection Hm as <-.
    exists (n - 1). split; [done|lia].
  - assert (Hi' : lib_inv (set_fired (fired s + 1) (set_alarm None s))).
    { destruct Hi as [Hl H1 Hf Ha (pl & Hpl & Hpp & Hpg & Hph)]. split; try done; [simpl; lia|]. exists pl. split_and!; try done.
      apply (phase_mono s); try done. intros t Ht Ho H0 Hf0. simpl in Hf0. lia. }
    assert (Hf : fired (set_fired (fired s + 1) (set_alarm None s)) ≠ 0) by (pose proof (li_fired s Hi); simpl; lia).
    revert Hi' Hf. generalize (set_fired (fired s + 1) (set_alarm None s)) as s1. clear s n Hi Ea H. intros s Hi Hf.
    unfold signal_lib. rewrite (li_lib s Hi). destruct (li_proc s Hi) as (pl & Hpl & Hpp & Hpg & Hph). rewrite Hpl.
    destruct (pst pl) eqn:Est; [|done]. destruct (handler s) eqn:Hh; [|by apply lib_inv_ends].
    unfold alarm_handler. destruct (Z.eqb_spec (test_pid s) 0); [apply lib_inv_kill; [done|done|lia]|].
    destruct (Z.ltb_spec 0 (test_pid s)); [by apply lib_inv_kill|done].
Qed.

Lemma lib_inv_steps s s' : lib_inv s → steps s s' → lib_inv s'.
Proof using HL.
  intros Hi Hs. induction Hs as [|s1 s2 c Hs IH Hstep]; [done|]. destruct c as [pid v|]; simpl in Hstep; [|simplify_eq; by apply lib_inv_tick].
  destruct (procs s1 !! pid) as [pr|] eqn:Hpid; [|done]. destruct (pst pr) as [p|] eqn:Hst; [|done].
  destruct (decide (pid = L)) as [->|]; [by eapply lib_inv_lib|by eapply lib_inv_other].
Qed.

(** ** Where a run is when the library waits *)

Lemma waiting_some s q : waiting s = Some q ↔ ∃ k pp pg, procs s !! lib s = Some (Proc (Run (Waitpid q k)) pp pg).
Proof using Type.
  unfold waiting. split.
  - intros H. destruct (procs s !! lib s) as [[[p|] pp pg]|]; try done. destruct p; try done. simplify_eq. eauto.
  - by intros (k & pp & pg & ->).
Qed.

(** Every wait of a run is the wait for the test, with the handlers installed and
    the timer running. *)
Lemma run_watches s q t : steps (start L (tst_run_tcases E tst)) s → waiting s = Some q → leads_group q s = true → timeout_is t →
  watches q s ∧ (0 < t → fired s = 0 → ∃ n, alarm s = Some n ∧ n ≤ t).
Proof using HL.
  intros Hs Hw Hlead Ht. destruct (lib_inv_steps _ s lib_inv_start Hs) as [Hl H1 Hf Ha (pl & Hpl & Hpp & Hpg & Hph)].
  pose proof Hw as (k & pp & pg & Hk)%waiting_some. rewrite Hl, Hpl in Hk. injection Hk as ->. simpl in *. subst pp pg.
  inversion Hph as [p0 Hs0|t0 p0 ? (f & ? & ?)|t0 f|t0 q0 k0 Ht0 Hh Htp Hq HqL Ho Hk Hc|p0 (p' & ? & ?)|]; subst; try done.
  { inversion Hs0; by subst. }
  assert (t0 = t) as -> by (unfold timeout_is in Ht, Ht0; destruct (LTP_TIMEOUT_MUL E); congruence).
  destruct Hc as (pq & Hpq & Hppq & Hg). unfold leads_group in Hlead. rewrite Hpq in Hlead.
  split; [|done]. split; [done| |done|by rewrite Hh|].
  - intros pr Hpr. rewrite Hl, Hpl in Hpr. injection Hpr as <-. simpl. auto.
  - exists pq. split_and!; [done|congruence|]. destruct Hg as [?|(k1 & Ek)]; [done|]. destruct pq. simpl in Ek. by subst.
Qed.
End library.

(** ** Until the alarm *)

Lemma watches_step q s s' pid v pr p : watches q s → pid ≠ lib s → procs s !! pid = Some pr → pst pr = Run p →
  act pid v pr p s = Some s' → watches q s'.
Proof.
  intros [Hw Ha H1 ([t Hh] & Htp & Hq1) (pq & Hq & Hpp & Hpg)] Hl Hpid Hrun Hact.
  destruct (act_fields s s' pid v pr p Hpid Hrun Hact Hl t Hh) as (El & Eh & Et & _ & _). apply waiting_some in Hw as (k & pp & pg & HL).
  destruct (Ha _ HL) as [Hg Hp1]. simpl in *.
  assert (HL' : procs s' !! lib s = Some (Proc (Run (Waitpid q k)) pp pg)).
  { eapply (act_other s s' pid v pr p); try done. simpl. congruence. }
  split.
  - apply waiting_some. rewrite El. eauto.
  - rewrite El, HL'. by intros ? [= <-].
  - by eapply (act_init s s' pid v pr p).
  - rewrite Eh, Et, Hh. eauto.
  - rewrite El. destruct (decide (pid = q)) as [E|].
    + rewrite <- E, Hpid in Hq. injection Hq as <-. destruct (act_self s s' pid v pr p Hpid Hrun Hact Hl t Hh) as (pr' & H' & Hpp' & Hpg' & _).
      rewrite <- E in *. exists pr'. split; [done|].
      split; [congruence|]. destruct Hpg'; congruence.
    + exists pq. split; [|done]. eapply (act_other s s' pid v pr p); try done. congruence.
Qed.

Lemma dead_step q s s' pid v pr p : watches q s → pid ≠ lib s → group_dead q s → procs s !! pid = Some pr → pst pr = Run p →
  act pid v pr p s = Some s' → group_dead q s'.
Proof.
  intros [_ _ _ ([t Hh] & _) (pq & Hq & _ & Hpg)] Hl Hd Hpid Hrun Hact.
  assert (Hgr : pgid pr ≠ q) by (specialize (Hd pid pr Hpid); unfold in_group in Hd; rewrite Hrun in Hd; bool_hyps; done).
  assert (Hne : pid ≠ q).
  { intros ->. simplify_eq. }
  intros x px Hx. unfold in_group. destruct (pst px) as [px_p|] eqn:Est; [|done]. apply Z.eqb_neq.
  destruct (decide (x = pid)) as [->|Hxp].
  - destruct (act_self s s' pid v pr p Hpid Hrun Hact Hl t Hh) as (pr' & H' & _ & [Hg|Hg] & _); simplify_eq; congruence.
  - destruct (act_group s s' pid v pr p Hpid Hrun Hact Hl t Hh x px Hxp Hx) as [Hg|(px0 & H0 & E1 & E2)]; [congruence|].
    specialize (Hd x px0 H0). unfold in_group in Hd. rewrite <- E1, Est in Hd. bool_hyps. congruence.
Qed.

Lemma watches_kill q s : watches q s → watches q (set_procs (kill_group q (procs s)) s) ∧ group_dead q (set_procs (kill_group q (procs s)) s).
Proof.
  intros [Hw Ha H1 Hh (pq & Hq & Hpp & Hpg)]. apply waiting_some in Hw as (k & pp & pg & HL). destruct (Ha _ HL) as [Hg Hp1].
  simpl in *. subst pp. assert (Hig : in_group q (Proc (Run (Waitpid q k)) 1 pg) = false) by (by apply Z.eqb_neq).
  split; [split|]; simpl.
  - apply waiting_some. simpl. unfold kill_group. rewrite lookup_fmap, HL. simpl. rewrite Hig. eauto.
  - unfold kill_group. rewrite lookup_fmap, HL. intros ? [= <-]. simpl. by rewrite H1.
  - unfold kill_group. by rewrite lookup_fmap, H1.
  - done.
  - unfold kill_group. rewrite lookup_fmap, Hq. eexists. split; [done|]. simpl. by rewrite Hpp, HL, Hig.
  - intros x px. simpl. unfold kill_group. rewrite lookup_fmap. intros (p0 & H0 & ->)%fmap_Some_1. unfold in_group at 1. simpl.
    destruct (in_group q p0) eqn:E; [done|]. unfold in_group in E. by destruct (pst p0).
Qed.

(** The alarm runs the handler, which kills the group. *)
Lemma watches_alarm q s n : watches q s → alarm s = Some n → n ≤ 1 →
  alarm (tick s) = None ∧ watches q (tick s) ∧ group_dead q (tick s).
Proof.
  intros Hw Ha Hn. unfold tick. rewrite Ha, (proj2 (Z.ltb_ge 1 n)) by lia.
  assert (Hw1 : watches q (set_fired (fired s + 1) (set_alarm None s))) by (by destruct Hw; split).
  assert (Ha1 : alarm (set_fired (fired s + 1) (set_alarm None s)) = None) by done.
  revert Hw1 Ha1. generalize (set_fired (fired s + 1) (set_alarm None s)) as s1. clear s n Hw Ha Hn. intros s Hw Ha.
  destruct (w_handler q s Hw) as ([t Hh] & Htp & Hq). pose proof (w_waits q s Hw) as (k & pp & pg & HL)%waiting_some.
  unfold signal_lib, alarm_handler. rewrite HL. simpl. rewrite Hh, Htp, (proj2 (Z.eqb_neq q 0)), (proj2 (Z.ltb_lt 0 q)) by lia.
  split; [done|]. by apply watches_kill.
Qed.

(** A silent step keeps the watch and the timer. *)
Lemma silent_step q s s' pid v : watches q s → beats (Do pid v) s || of_lib_process (Do pid v) s = false →
  do_step (Do pid v) s = Some s' →
  watches q s' ∧ alarm s' = alarm s ∧ (group_dead q s → group_dead q s').
Proof.
  intros Hw Hs Hstep. apply orb_false_iff in Hs as [Hb Hl]. simpl in *. apply Z.eqb_neq in Hl.
  destruct (procs s !! pid) as [pr|] eqn:Hpid; [|done]. destruct (pst pr) as [p|] eqn:Hrun; [|done].
  assert (Hnb : ∀ k, p ≠ Beat k) by (intros k ->; destruct pr; simpl in Hrun; by subst).
  destruct (w_handler q s Hw) as ([t Hh] & _).
  destruct (act_fields s s' pid v pr p Hpid Hrun Hstep Hl t Hh) as (_ & _ & _ & _ & [Ea|[[k ->] _]]); [|by destruct (Hnb k)].
  split; [by eapply watches_step|]. split; [done|]. intros Hd. by eapply dead_step.
Qed.

(** Once the group is dead and the timer is off, both stay so. *)
Lemma dead_stays q cs : ∀ s s', watches q s → alarm s = None → group_dead q s → run_silent cs s = Some s' → group_dead q s'.
Proof.
  induction cs as [|c cs IH]; intros s s' Hw Ha Hd Hrun; simpl in Hrun; [by simplify_eq|].
  destruct (beats c s || of_lib_process c s) eqn:Es; [done|]. destruct (do_step c s) as [s1|] eqn:E; simpl in Hrun; [|done].
  destruct c as [pid v|].
  - destruct (silent_step q s s1 pid v Hw Es E) as (Hw1 & Ea1 & Hd1). apply (IH s1); [done|congruence|auto|done].
  - simpl in E. unfold tick in E. rewrite Ha in E. simplify_eq. by eapply IH.
Qed.

(** A group that is watched is dead when the timer has run down. *)
Lemma watched_group_dies q cs : ∀ s s' n, watches q s → alarm s = Some n → n ≤ ticks cs → 0 < ticks cs →
  run_silent cs s = Some s' → group_dead q s'.
Proof.
  induction cs as [|c cs IH]; intros s s' n Hw Halarm Hn Hcs Hrun; simpl in *; [lia|].
  destruct (beats c s || of_lib_process c s) eqn:Es; [done|]. destruct (do_step c s) as [s1|] eqn:E; simpl in Hrun; [|done].
  destruct c as [pid v|].
  - destruct (silent_step q s s1 pid v Hw Es E) as (Hw1 & Ea1 & _). apply (IH s1 s' n); try done. congruence.
  - simpl in E. injection E as <-. destruct (Z.ltb_spec 1 n).
    + unfold tick in Hrun. rewrite Halarm, (proj2 (Z.ltb_lt 1 n)) in Hrun by lia.
      apply (IH _ s' (n - 1)) in Hrun; [done|by destruct Hw; split|done|lia|lia].
    + destruct (watches_alarm q s n Hw Halarm ltac:(lia)) as (Ha1 & Hw1 & Hd1). by eapply dead_stays.
Qed.

(** C7: In every run of [tst_run_tcases] in which the library has come to wait for
    the test and the test is past its setpgid, the alarm not having gone off yet:
    when the seconds of the timeout pass without a heartbeat while the library still
    waits, all the processes of the group of the test are dead, whatever they did in
    the meantime. *)
Theorem timeout_kills E tst L q t s s' cs
  (HL : 1 < L) (Hs : steps (start L (tst_run_tcases E tst)) s)
  (Hw : waiting s = Some q) (Hlead : leads_group q s = true) (Hfired : fired s = 0)
  (Ht : timeout_is E tst t) (Hpos : 0 < t) (Hcs : t ≤ ticks cs)
  (Hrun : run_silent cs s = Some s') : group_dead q s'.
Proof.
  destruct (run_watches E tst L HL s q t Hs Hw Hlead Ht) as (Hwatch & Hal). destruct (Hal Hpos Hfired) as (n & Hn & Hle).
  apply (watched_group_dies q cs s s' n Hwatch Hn); [lia|lia|done].
Qed.

(** ** Witness *)

(** The test has become the leader of its group and goes no further. *)
Abbreviation ex_hangs := (drive 1 [50] 50 (drive 1000 [40] 50 (start 40 (tst_run_tcases ex_env (ex_tst ex_pass))))).

Lemma ex_hangs_state : waiting ex_hangs = Some 50 ∧ leads_group 50 ex_hangs = true ∧ fired ex_hangs = 0 ∧
  is_set (run_silent (replicate 300 Tick) ex_hangs) = true.
Proof. vm_compute. done. Qed.

Lemma timeout_kills_witness : ∃ s, run_silent (replicate 300 Tick) ex_hangs = Some s ∧ group_dead 50 s.
Proof.
  destruct ex_hangs_state as (H1 & H2 & H3 & Hr). destruct (run_silent (replicate 300 Tick) ex_hangs) as [s|] eqn:E; [|discriminate].
  exists s. split; [reflexivity|].
  apply (timeout_kills ex_env (ex_tst ex_pass) 40 50 300 ex_hangs s (replicate 300 Tick)).
  - reflexivity.
  - eapply steps_trans; apply drive_steps.
  - exact H1.
  - exact H2.
  - exact H3.
  - reflexivity.
  - reflexivity.
  - vm_compute. discriminate.
  - exact E.
Defined.

(** The test has to lead its group: an alarm that goes off before its setpgid finds no
    such group, and the timer is not started again. *)
Example alarm_before_setpgid :
  let s := drive 1000 [40] 50 (start 40 (tst_run_tcases ex_env (ex_tst ex_pass))) in
  let s' := match run_choices (replicate 300 Tick) s with Some s' => drive 1 [50] 50 s' | None => s end in
  leads_group 50 s = false ∧ fired s' = 1 ∧ alarm s' = None ∧ (in_group 50 <$> procs s' !! 50) = Some true.
Proof. vm_compute. done. Qed.
