(* ===== verification/TstMesg.v ===== *)
(** * Messages and options of the new library

    lib/tst_test.c: the line print_result puts together, and the option string, in
    arrays of fixed size. *)

From S2P Require Import Prelude CInt CMem CString Names TstRes ParseOpts TstTest TstLogic.
Local Open Scope Z_scope.

(** ** The line of a result *)

Definition line_head (file : cstr) (lineno : Z) (name : cstr) : cstr :=
  file ++ str ":" ++ fmt_d lineno ++ str ": " ++ name ++ str ": ".
Definition line_tail (str_errno : option cstr) : cstr := match str_errno with Some e => str ": " ++ e ++ [nl] | None => [nl] end.

(** The array of 1024 characters holds what fits of a text. *)
Definition buf_holds (m x : cstr) : Prop := length m = 1024%nat ∧ starts m (take 1023 x ++ [NUL]).

Lemma snprintf_at m x t : buf_holds m x → (length x ≤ 1024)%nat →
  ∃ m', snprintf_into m (zlength x) (1024 - zlength x) t = Ret (m', zlength t) ∧ buf_holds m' (x ++ t).
Proof.
  intros [Hl Hs] Hx. unfold snprintf_into. destruct (Z.eqb_spec (1024 - zlength x) 0) as [E|E].
  - exists m. split; [done|]. split; [done|]. by rewrite take_app_le by lia.
  - set (d := snprintf_cut (1024 - zlength x) t ++ [NUL]).
    assert (Hd : length d = S (Nat.min (1023 - length x) (length t))).
    { unfold d, snprintf_cut. rewrite length_app, length_take. simpl. lia. }
    assert (Hx0 : starts m x).
    { rewrite take_ge in Hs by lia. unfold starts in *. rewrite length_app in Hs. simpl in Hs.
      apply (f_equal (take (length x))) in Hs. by rewrite take_take, take_app_length, Nat.min_l in Hs by lia. }
    destruct (starts_write m x d Hx0) as (m' & -> & Hs' & Hl'); [lia|]. exists m'. split; [done|]. split; [lia|].
    replace (take 1023 (x ++ t) ++ [NUL]) with (x ++ d); [done|]. unfold d, snprintf_cut.
    rewrite take_app_ge, <- app_assoc by lia. do 3 f_equal. lia.
Qed.

Lemma snprintf_beyond (m x t : cstr) : length m = 1024%nat → (1024 < length x)%nat →
  snprintf_into m (zlength x) (1024 - zlength x) t = Undef.
Proof.
  intros Hl Hx. unfold snprintf_into. rewrite (proj2 (Z.eqb_neq _ 0)) by lia. unfold mem_write.
  destruct (in_bounds m (zlength x) _) eqn:E; [|done]. apply in_bounds_true in E. rewrite length_app in E. simpl in E. lia.
Qed.

Lemma starts_string m x : nonul x → starts m (x ++ [NUL]) → as_string m = x.
Proof.
  intros Hn Hs. unfold starts in Hs. rewrite <- (take_drop (length (x ++ [NUL])) m), Hs, <- app_assoc.
  unfold as_string. rewrite span_app; [done| |done]. eapply Forall_impl; [exact Hn|]. intros c Hc. simpl in Hc. by rewrite Hc.
Qed.

Lemma buf_string m x : nonul x → buf_holds m x → as_string m = take 1023 x.
Proof. intros Hn [_ Hs]. apply starts_string; [by apply nonul_take|done]. Qed.

(** The line of a result is the place, the name of the result, the message and the
    error, cut at the 1023 characters the buffer has room for; when the place and the
    message alone need more than 1024, the rest is written outside the buffer. *)
Theorem result_line_spec E file lineno name str_errno text
  (Hg : length (garbage E) = 1024%nat) (Hn : nonul (line_head file lineno name ++ text ++ line_tail str_errno)) :
  result_line E file lineno name str_errno text =
  if zlength (line_head file lineno name ++ text) <=? 1024
  then Ret (take 1023 (line_head file lineno name ++ text ++ line_tail str_errno)) else Undef.
Proof.
  unfold result_line. fold (line_head file lineno name). fold (line_tail str_errno).
  generalize dependent (line_head file lineno name). intros h Hn. generalize dependent (line_tail str_errno). intros t Hn.
  assert (H0 : ∃ m, snprintf_into (garbage E) 0 1024 h = Ret (m, zlength h) ∧ buf_holds m h).
  { unfold snprintf_into. cbn [Z.eqb]. set (d := snprintf_cut 1024 h ++ [NUL]).
    assert (Hd : (length d ≤ 1024)%nat) by (unfold d, snprintf_cut; rewrite length_app, length_take; cbn [length]; lia).
    destruct (starts_write (garbage E) [] d) as (m & E1 & Hs & Hl); [done|simpl; lia|]. change (zlength []) with 0 in E1. rewrite E1.
    exists m. split; [done|]. split; [lia|done]. }
  destruct H0 as (m & -> & Hm). rewrite res_bind_ret.
  destruct (Z.leb_spec (zlength (h ++ text)) 1024) as [Hfit|Hlong]; rewrite length_app in *.
  - destruct (snprintf_at m h text Hm) as (m1 & -> & Hm1); [lia|]. rewrite res_bind_ret.
    destruct (snprintf_at m1 (h ++ text) t Hm1) as (m2 & E2 & Hm2); [rewrite length_app; lia|].
    rewrite length_app, Nat2Z.inj_add, Z.sub_add_distr in E2. rewrite E2, res_bind_ret. simpl. f_equal.
    rewrite app_assoc. apply buf_string; [by rewrite <- app_assoc|done].
  - destruct (decide (length h ≤ 1024)%nat).
    + destruct (snprintf_at m h text Hm) as (m1 & -> & [Hm1 _]); [lia|]. rewrite res_bind_ret.
      pose proof (snprintf_beyond m1 (h ++ text) t Hm1) as E2. rewrite length_app, Nat2Z.inj_add, Z.sub_add_distr in E2.
      rewrite E2; [done|]. lia.
    + rewrite snprintf_beyond; [done|apply Hm|lia].
Qed.

(** ** The option string *)

Lemma starts_prefix {A} (m x y : list A) : starts m (x ++ y) → starts m x.
Proof.
  unfold starts. intros H. rewrite length_app in H. apply (f_equal (take (length x))) in H.
  by rewrite take_take, take_app_length, Nat.min_l in H by lia.
Qed.

Lemma strcat_opt_ok buf x s : starts buf (x ++ [NUL]) → nonul x → (length x + length s < length buf)%nat →
  ∃ buf', strcat_opt buf s = Ret buf' ∧ starts buf' ((x ++ s) ++ [NUL]) ∧ length buf' = length buf.
Proof.
  intros Hs Hn Hl. unfold strcat_opt. rewrite (starts_string buf x) by done.
  destruct (starts_write buf x (s ++ [NUL])) as (m & E & Hm & Hlm); [by eapply starts_prefix|rewrite length_app; simpl; lia|].
  exists m. by rewrite <- app_assoc.
Qed.

Lemma cat_opts_ok l buf x : starts buf (x ++ [NUL]) → nonul x → Forall nonul l → (length x + length (concat l) < length buf)%nat →
  ∃ buf', cat_opts buf l = Ret buf' ∧ starts buf' ((x ++ concat l) ++ [NUL]) ∧ length buf' = length buf.
Proof.
  revert buf x. induction l as [|s l IH]; intros buf x Hs Hn Hl Hlen; simpl in *.
  - exists buf. by rewrite app_nil_r.
  - rewrite length_app in Hlen. apply Forall_cons in Hl as [Hns Hl].
    destruct (strcat_opt_ok buf x s) as (b1 & -> & Hb1 & Hl1); [done|done|lia|]. rewrite res_bind_ret.
    destruct (IH b1 (x ++ s)) as (b2 & E & Hb2 & Hl2); [done|by apply nonul_app|done|rewrite length_app; lia|].
    exists b2. rewrite app_assoc. split; [done|]. split; [done|lia].
Qed.

Lemma concat_length_le (l : list cstr) : Forall (λ s, (length s ≤ 2)%nat) l → (length (concat l) ≤ 2 * length l)%nat.
Proof. induction 1 as [|s l Hs Hl IH]; simpl; [lia|]. rewrite length_app. lia. Qed.

(** The array of the option string has room for the options of the library and
    those of the test, when each of these is a letter with or without a colon; the
    option string is all of them in order. *)
Theorem opt_string_fits E tst
  (Hjunk : ∀ n, length (junk E n) = n) (Hopts : Forall (λ o, (length (optstr o) ≤ 2)%nat ∧ nonul (optstr o)) (toptions tst)) :
  opt_string E tst = Ret (str "hi:I:C:" ++ concat (map optstr (toptions tst))).
Proof.
  unfold opt_string, count_options. change (zlength lib_options) with 4.
  set (buf0 := junk E _).
  assert (H0 : length buf0 = (8 + 2 * length (toptions tst))%nat) by (unfold buf0; rewrite Hjunk; lia).
  assert (Hlen : (length (concat (map optstr (toptions tst))) ≤ 2 * length (toptions tst))%nat).
  { rewrite <- (length_map optstr (toptions tst)). apply concat_length_le, Forall_map. eapply Forall_impl; [exact Hopts|]. by intros o []. }
  destruct (starts_write buf0 [] [NUL]) as (b1 & E1 & Hb1 & Hl1); [done|simpl; lia|]. change (zlength []) with 0 in E1.
  rewrite E1, res_bind_ret.
  destruct (cat_opts_ok (map fst lib_options) b1 []) as (b2 & -> & Hb2 & Hl2); [done|by apply Forall_nil| |simpl; lia|].
  { repeat (apply Forall_cons; split; [by apply nonul_str|]). by apply Forall_nil. }
  rewrite res_bind_ret. change ([] ++ concat (map fst lib_options)) with (str "hi:I:C:") in Hb2.
  assert (Hlib : nonul (str "hi:I:C:")) by (by apply nonul_str).
  assert (Hno : Forall nonul (map optstr (toptions tst))) by (apply Forall_map; eapply Forall_impl; [exact Hopts|]; by intros o []).
  destruct (cat_opts_ok (map optstr (toptions tst)) b2 (str "hi:I:C:")) as (b3 & -> & Hb3 & Hl3); [done|done|done|change (length (str "hi:I:C:")) with 7%nat; lia|].
  rewrite res_bind_ret. f_equal. apply starts_string; [|done]. apply nonul_app; [done|]. by apply Forall_concat.
Qed.

(** An option with two colons is too long for the array. *)
Example opt_string_overflow :
  opt_string ex_env (TstTest (str "ex") 0 (Some [TstOption (str "a::") true []]) None false false false false false 0 None None None
    (Some ex_pass) None) = Undef.
Proof. vm_compute. reflexivity. Qed.

(** ** Witnesses *)

Lemma result_line_spec_witness :
  result_line ex_env (str "ex.c") 10 (str "PASS") None (str "works") =
  if zlength (line_head (str "ex.c") 10 (str "PASS") ++ str "works") <=? 1024
  then Ret (take 1023 (line_head (str "ex.c") 10 (str "PASS") ++ str "works" ++ line_tail None)) else Undef.
Proof. apply (result_line_spec ex_env (str "ex.c") 10 (str "PASS") None (str "works")); [reflexivity|vm_compute; repeat constructor]. Defined.

Definition ex_opts : tst_test :=
  TstTest (str "ex") 0 (Some [TstOption (str "a:") true []; TstOption (str "b") true []]) None false false false false false 0 None None None
    (Some ex_pass) None.
Lemma opt_string_fits_witness : opt_string ex_env ex_opts = Ret (str "hi:I:C:" ++ concat (map optstr (toptions ex_opts))).
Proof.
  apply (opt_string_fits ex_env ex_opts).
  - intros n. apply length_replicate.
  - repeat (apply Forall_cons; split; [split; [simpl; lia|by apply nonul_str]|]). apply Forall_nil. exact I.
Defined.
