(* ===== verification/Fsx.v ===== *)
(** * The file system exerciser

    testcases/kernel/fs/fsx-linux/fsx-linux.c: random operations on a file, each
    checked against a copy of the data in memory.  The system behind the calls is
    arbitrary: a type with a function that answers calls; [random] is a sequence of
    numbers.  What is printed for the user's information and the times in the log
    are not modelled; the log that is dumped on a failure is.  The counters of type
    int are taken to wrap around. *)

From S2P Require Import Prelude CInt CMem CString.
Local Open Scope Z_scope.

Abbreviation byte := Z (only parsing).

(** ** System calls *)

(** A file is named by its number; a mapping is the one that mmap made last. *)
Inductive call : Type :=
| LseekSet (fd off : Z)
| LseekEnd (fd : Z)
| Read (fd n : Z)
| Write (fd : Z) (d : list byte)
| Ftruncate (fd len : Z)
| Fstat (fd : Z)
| Mmap (fd len off : Z)
| MapLoad (off n : Z)
| MapStore (off : Z) (d : list byte)
| Msync (len : Z)
| Munmap (len : Z)
| Close (fd : Z)
| Open (fd : Z)
| OpenTrunc (fd : Z).

(** The value, or [st_size] for fstat, and what is read. *)
Record answer : Type := Ans { ret : Z; data : list byte }.

Class System (Σ : Type) : Type := sys_call : call → Σ → answer * Σ.

(** ** State *)

Inductive fd_iteration_policy : Type := FD_SINGLE | FD_ROTATE | FD_RANDOM.

Record config : Type := Config {
  maxfilelen : Z; maxoplen : Z; simulatedopcount : Z; closeprob : Z; sizechecks : bool; readbdy : Z; truncbdy : Z;
  writebdy : Z; style : Z; lite : bool; randomoplen : bool; mapped_writes : bool; mapped_reads : bool;
  fd_policy : fd_iteration_policy; num_test_files : Z; page_size : Z }.

Record log_entry : Type := Entry { operation : Z; args : Z * Z * Z }.

Definition LOGSIZE : Z := 1000.
Definition OP_READ : Z := 1.
Definition OP_WRITE : Z := 2.
Definition OP_TRUNCATE : Z := 3.
Definition OP_CLOSEOPEN : Z := 4.
Definition OP_MAPREAD : Z := 5.
Definition OP_MAPWRITE : Z := 6.
Definition OP_SKIPPED : Z := 7.

(** [rnd] is how many random numbers were drawn, [trace] the calls so far with their
    answers, the last one first; [dump] and [saved] what a failure leaves. *)
Record state {Σ : Type} : Type := State {
  env : Σ; good_buf : list byte; temp_buf : list byte; original_buf : list byte; file_size : Z; biggest : Z; testcalls : Z;
  oplog : list log_entry; logptr : Z; logcount : Z; fd_last : Z; badoff : Z; rnd : nat;
  trace : list (call * answer); dump : list (Z * log_entry); saved : list byte }.
Arguments state Σ : clear implicits.

Definition set_env {Σ} e t (s : state Σ) := State Σ e (good_buf s) (temp_buf s) (original_buf s) (file_size s) (biggest s) (testcalls s)
  (oplog s) (logptr s) (logcount s) (fd_last s) (badoff s) (rnd s) t (dump s) (saved s).
Definition set_good {Σ} b (s : state Σ) := State Σ (env s) b (temp_buf s) (original_buf s) (file_size s) (biggest s) (testcalls s)
  (oplog s) (logptr s) (logcount s) (fd_last s) (badoff s) (rnd s) (trace s) (dump s) (saved s).
Definition set_temp {Σ} b (s : state Σ) := State Σ (env s) (good_buf s) b (original_buf s) (file_size s) (biggest s) (testcalls s)
  (oplog s) (logptr s) (logcount s) (fd_last s) (badoff s) (rnd s) (trace s) (dump s) (saved s).
Definition set_size {Σ} n (s : state Σ) := State Σ (env s) (good_buf s) (temp_buf s) (original_buf s) n (biggest s) (testcalls s)
  (oplog s) (logptr s) (logcount s) (fd_last s) (badoff s) (rnd s) (trace s) (dump s) (saved s).
Definition set_biggest {Σ} n (s : state Σ) := State Σ (env s) (good_buf s) (temp_buf s) (original_buf s) (file_size s) n (testcalls s)
  (oplog s) (logptr s) (logcount s) (fd_last s) (badoff s) (rnd s) (trace s) (dump s) (saved s).
Definition set_testcalls {Σ} n (s : state Σ) := State Σ (env s) (good_buf s) (temp_buf s) (original_buf s) (file_size s) (biggest s) n
  (oplog s) (logptr s) (logcount s) (fd_last s) (badoff s) (rnd s) (trace s) (dump s) (saved s).
Definition set_log {Σ} l p c (s : state Σ) := State Σ (env s) (good_buf s) (temp_buf s) (original_buf s) (file_size s) (biggest s)
  (testcalls s) l p c (fd_last s) (badoff s) (rnd s) (trace s) (dump s) (saved s).
Definition set_fd_last {Σ} n (s : state Σ) := State Σ (env s) (good_buf s) (temp_buf s) (original_buf s) (file_size s) (biggest s)
  (testcalls s) (oplog s) (logptr s) (logcount s) n (badoff s) (rnd s) (trace s) (dump s) (saved s).
Definition set_badoff {Σ} n (s : state Σ) := State Σ (env s) (good_buf s) (temp_buf s) (original_buf s) (file_size s) (biggest s)
  (testcalls s) (oplog s) (logptr s) (logcount s) (fd_last s) n (rnd s) (trace s) (dump s) (saved s).
Definition set_rnd {Σ} n (s : state Σ) := State Σ (env s) (good_buf s) (temp_buf s) (original_buf s) (file_size s) (biggest s)
  (testcalls s) (oplog s) (logptr s) (logcount s) (fd_last s) (badoff s) n (trace s) (dump s) (saved s).
Definition set_dump {Σ} d b (s : state Σ) := State Σ (env s) (good_buf s) (temp_buf s) (original_buf s) (file_size s) (biggest s)
  (testcalls s) (oplog s) (logptr s) (logcount s) (fd_last s) (badoff s) (rnd s) (trace s) d b.

Inductive outcome (Σ A : Type) : Type :=
| Next (a : A) (s : state Σ)
| Exits (code : Z) (s : state Σ)
| Bad.
Arguments Next {Σ A} a s.
Arguments Exits {Σ A} code s.
Arguments Bad {Σ A}.

Definition M (Σ A : Type) : Type := state Σ → outcome Σ A.
#[global] Instance M_ret Σ : MRet (M Σ) := λ A a s, Next a s.
#[global] Instance M_bind Σ : MBind (M Σ) := λ A B f m s,
  match m s with Next a s => f a s | Exits c s => Exits c s | Bad => Bad end.
Definition get {Σ A} (f : state Σ → A) : M Σ A := λ s, Next (f s) s.
Definition modify {Σ} (f : state Σ → state Σ) : M Σ () := λ s, Next () (f s).
Definition exit {Σ A} (code : Z) : M Σ A := λ s, Exits code s.
Definition lift {Σ A} (m : res A) : M Σ A := λ s, match m with Ret a => Next a s | _ => Bad end.
Definition fault {Σ A} : M Σ A := λ _, Bad.
Definition when {Σ} (b : bool) (m : M Σ ()) : M Σ () := if b then m else mret ().

Section fsx.
Context {Σ : Type} `{!System Σ} (random : nat → Z) (cfg : config).

Definition sys (c : call) : M Σ answer := λ s,
  let '(a, e) := sys_call c (env s) in Next a (set_env e ((c, a) :: trace s) s).

Definition draw : M Σ Z := λ s, Next (random (rnd s)) (set_rnd (S (rnd s)) s).

(** ** The log *)

Definition log4 (op a0 a1 a2 : Z) : M Σ () := λ s,
  let p := logptr s + 1 in
  Next () (set_log (<[Z.to_nat (logptr s) := Entry op (s32 a0, s32 a1, s32 a2)]> (oplog s))
             (if LOGSIZE <=? p then 0 else p) (s32 (logcount s + 1)) s).

(** The entries in the order in which they are printed, with their numbers. *)
Fixpoint dump_from (count : nat) (i : Z) (logcount : Z) (log : list log_entry) : list (Z * log_entry) :=
  match count with
  | O => []
  | S count =>
      match log !! Z.to_nat i with
      | Some e => (i + 1 + logcount / LOGSIZE * LOGSIZE, e) :: dump_from count (if i + 1 =? LOGSIZE then 0 else i + 1) logcount log
      | None => []
      end
  end.
Definition logdump (s : state Σ) : list (Z * log_entry) :=
  if logcount s <? LOGSIZE then dump_from (Z.to_nat (logcount s)) 0 (logcount s) (oplog s)
  else dump_from (Z.to_nat LOGSIZE) (logptr s) (logcount s) (oplog s).

(** The good data go to a file of their own, which is empty; with -L no more than its
    size is saved. *)
Definition save_buffer (s : state Σ) : list byte := if lite cfg then [] else take (Z.to_nat (file_size s)) (good_buf s).

Definition report_failure {A} (status : Z) : M Σ A :=
  _ ← modify (λ s, set_dump (logdump s) (save_buffer s) s);
  exit status.

(** ** Checking *)

(** The loop over the two buffers: [n] and [badoff]; at the first difference two bytes
    of each are looked at. *)
Fixpoint check_loop (size : nat) (good temp : list byte) (offset i n bad : Z) : res (Z * Z) :=
  match size with
  | O => Ret (n, bad)
  | S size =>
      c ← mem_get good offset;
      t ← mem_get temp i;
      if c =? t then check_loop size good temp (offset + 1) (i + 1) n bad
      else
        _ ← (if n =? 0 then _ ← mem_get temp (i + 1); mem_get good (offset + 1) else Ret 0);
        check_loop size good temp (offset + 1) (i + 1) (n + 1) offset
  end.

Definition check_buffers (offset size : Z) : M Σ () :=
  good ← get good_buf;
  temp ← get temp_buf;
  ne ← lift (memcmp_ne good offset temp 0 size);
  if ne : bool then
    r ← lift (check_loop (Z.to_nat size) good temp offset 0 0 0);
    _ ← modify (set_badoff r.2);
    report_failure 110
  else mret ().

(** ** Files *)

(** One file needs no policy. *)
Definition policy : fd_iteration_policy := if num_test_files cfg =? 1 then FD_SINGLE else fd_policy cfg.

Definition get_tf : M Σ Z :=
  match policy with
  | FD_SINGLE => mret (0 mod num_test_files cfg)
  | FD_ROTATE => i ← get fd_last; _ ← modify (set_fd_last (s32 (i + 1))); mret (u32 i mod num_test_files cfg)
  | FD_RANDOM => i ← draw; mret (u32 i mod num_test_files cfg)
  end.

Definition check_size : M Σ () :=
  fd ← get_tf;
  st ← sys (Fstat fd);
  size_by_seek ← sys (LseekEnd fd);
  size ← get file_size;
  if negb (size =? ret st) || negb (size =? ret size_by_seek) then report_failure 120 else mret ().

Definition check_trunc_hack : M Σ () :=
  fd ← get_tf;
  _ ← sys (Ftruncate fd 0);
  _ ← sys (Ftruncate fd 100000);
  st ← sys (Fstat fd);
  if negb (ret st =? 100000) then exit 130
  else _ ← sys (Ftruncate fd 0); mret ().

(** ** Operations *)

Definition real : M Σ bool := n ← get testcalls; mret (simulatedopcount cfg <? n).

Definition doread (offset size : Z) : M Σ () :=
  fd ← get_tf;
  let offset := offset - offset mod readbdy cfg in
  fsize ← get file_size;
  if size =? 0 then log4 OP_SKIPPED OP_READ offset size
  else if fsize <? u32 (size + offset) then log4 OP_SKIPPED OP_READ offset size
  else
    _ ← log4 OP_READ offset size 0;
    r ← real;
    if negb r then mret ()
    else
      p ← sys (LseekSet fd offset);
      if ret p =? -1 then report_failure 140
      else
        iret ← sys (Read fd size);
        temp ← get temp_buf;
        temp ← lift (mem_write temp 0 (data iret));
        _ ← modify (set_temp temp);
        if negb (u32 (ret iret) =? size) then report_failure 141
        else check_buffers offset size.

Definition page_mask : Z := page_size cfg - 1.

(** A load from the mapping or a store to it outside of what is mapped is a fault. *)
Definition touch (c : call) : M Σ answer := a ← sys c; if ret a <? 0 then fault else mret a.

Definition domapread (offset size : Z) : M Σ () :=
  fd ← get_tf;
  let offset := offset - offset mod readbdy cfg in
  fsize ← get file_size;
  if size =? 0 then log4 OP_SKIPPED OP_MAPREAD offset size
  else if fsize <? u32 (size + offset) then log4 OP_SKIPPED OP_MAPREAD offset size
  else
    _ ← log4 OP_MAPREAD offset size 0;
    r ← real;
    if negb r then mret ()
    else
      let pg_offset := Z.land offset page_mask in
      let map_size := u32 (pg_offset + size) in
      p ← sys (Mmap fd map_size (u32 (offset - pg_offset)));
      if ret p =? -1 then report_failure 190
      else
        m ← touch (MapLoad pg_offset size);
        temp ← get temp_buf;
        temp ← lift (mem_write temp 0 (data m));
        _ ← modify (set_temp temp);
        u ← sys (Munmap map_size);
        if negb (ret u =? 0) then report_failure 191
        else check_buffers offset size.

Fixpoint gendata (size : nat) (testcalls : Z) (original_buf good_buf : list byte) (offset : Z) : res (list byte) :=
  match size with
  | O => Ret good_buf
  | S size =>
      good_buf ← mem_write good_buf offset [u8 testcalls];
      good_buf ← (if offset mod 2 =? 0 then Ret good_buf
                  else g ← mem_get good_buf offset; o ← mem_get original_buf offset; mem_write good_buf offset [u8 (g + o)]);
      gendata size testcalls original_buf good_buf (offset + 1)
  end.

(** The new data, zeros in a hole before them, and the new size of the file, which
    must not change with -L. *)
Definition write_good (offset size lite_status : Z) : M Σ () :=
  good ← get good_buf;
  orig ← get original_buf;
  n ← get testcalls;
  good ← lift (gendata (Z.to_nat size) n orig good offset);
  _ ← modify (set_good good);
  fsize ← get file_size;
  if fsize <? u32 (offset + size) then
    _ ← when (fsize <? offset)
          (good ← get good_buf; good ← lift (memset good fsize 0 (offset - fsize)); modify (set_good good));
    _ ← modify (set_size (u32 (offset + size)));
    when (lite cfg) (report_failure lite_status)
  else mret ().

Definition dowrite (offset size : Z) : M Σ () :=
  fd ← get_tf;
  let offset := offset - offset mod writebdy cfg in
  if size =? 0 then log4 OP_SKIPPED OP_WRITE offset size
  else
    fsize ← get file_size;
    _ ← log4 OP_WRITE offset size fsize;
    _ ← write_good offset size 149;
    r ← real;
    if negb r then mret ()
    else
      p ← sys (LseekSet fd offset);
      if ret p =? -1 then report_failure 150
      else
        good ← get good_buf;
        d ← lift (mem_read good offset size);
        iret ← sys (Write fd d);
        if negb (u32 (ret iret) =? size) then report_failure 151 else mret ().

Definition domapwrite (offset size : Z) : M Σ () :=
  fd ← get_tf;
  let offset := offset - offset mod writebdy cfg in
  if size =? 0 then log4 OP_SKIPPED OP_MAPWRITE offset size
  else
    cur_filesize ← get file_size;
    _ ← log4 OP_MAPWRITE offset size 0;
    _ ← write_good offset size 200;
    r ← real;
    if negb r then mret ()
    else
      fsize ← get file_size;
      _ ← when (cur_filesize <? fsize) (t ← sys (Ftruncate fd fsize); when (ret t =? -1) (exit 201));
      let pg_offset := Z.land offset page_mask in
      let map_size := u32 (pg_offset + size) in
      p ← sys (Mmap fd map_size (u32 (offset - pg_offset)));
      if ret p =? -1 then report_failure 202
      else
        good ← get good_buf;
        d ← lift (mem_read good offset size);
        _ ← touch (MapStore pg_offset d);
        y ← sys (Msync map_size);
        if negb (ret y =? 0) then report_failure 203
        else
          u ← sys (Munmap map_size);
          if negb (ret u =? 0) then report_failure 204 else mret ().

Definition dotruncate (size : Z) : M Σ () :=
  fd ← get_tf;
  let size := size - size mod truncbdy cfg in
  big ← get biggest;
  _ ← when (big <? size) (modify (set_biggest size));
  fsize ← get file_size;
  _ ← log4 OP_TRUNCATE size (u32 fsize) 0;
  _ ← when (fsize <? size)
        (good ← get good_buf; good ← lift (memset good fsize 0 (size - fsize)); modify (set_good good));
  _ ← modify (set_size size);
  r ← real;
  if negb r then mret ()
  else
    t ← sys (Ftruncate fd size);
    if ret t =? -1 then report_failure 160 else mret ().

Definition writefileimage : M Σ () :=
  fd ← get_tf;
  p ← sys (LseekSet fd 0);
  if ret p =? -1 then report_failure 171
  else
    good ← get good_buf;
    fsize ← get file_size;
    d ← lift (mem_read good 0 fsize);
    iret ← sys (Write fd d);
    if negb (ret iret =? fsize) then report_failure 172
    else if lite cfg then mret ()
    else
      t ← sys (Ftruncate fd fsize);
      if ret t =? -1 then report_failure 173 else mret ().

Definition docloseopen : M Σ () :=
  fd ← get_tf;
  r ← real;
  if negb r then mret ()
  else
    fsize ← get file_size;
    _ ← log4 OP_CLOSEOPEN fsize (u32 fsize) 0;
    c ← sys (Close fd);
    if negb (ret c =? 0) then report_failure 180
    else
      o ← sys (Open fd);
      if ret o <? 0 then report_failure 181 else mret ().

(** ** One test *)

(** [a % b] of unsigned numbers. *)
Definition umod (a b : Z) : res Z := if b =? 0 then Undef else Ret (a mod b).

(** A write, mapped or not, stays below the largest size; a read stays in the file. *)
Definition test_write (mapped : bool) (size : Z) : M Σ () :=
  offset ← draw;
  offset ← lift (umod offset (maxfilelen cfg));
  let size := if maxfilelen cfg <? offset + size then maxfilelen cfg - offset else size in
  if mapped then domapwrite (u32 offset) (u32 size) else dowrite (u32 offset) (u32 size).
Definition test_read (mapped : bool) (size : Z) : M Σ () :=
  offset ← draw;
  fsize ← get file_size;
  let offset := if fsize =? 0 then 0 else offset mod fsize in
  let size := if fsize <? offset + size then fsize - offset else size in
  if mapped then domapread (u32 offset) (u32 size) else doread (u32 offset) (u32 size).

Definition test_op (op : Z) : M Σ () :=
  if negb (lite cfg) && (op =? 3) && (Z.land (style cfg) 1 =? 0) then
    r ← draw; size ← lift (umod r (maxfilelen cfg)); dotruncate (u32 size)
  else
    size ← (if randomoplen cfg then r ← draw; mret (r mod (maxoplen cfg + 1)) else mret (maxoplen cfg));
    if negb (lite cfg) && (op =? 3) then dotruncate (u32 size)
    else if (op =? 1) || (op =? (if lite cfg then 3 else 4)) then test_write (negb (op =? 1)) size
    else test_read (negb (op =? 0)) size.

Definition test : M Σ () :=
  rv ← draw;
  let op := rv mod (3 + b2z (negb (lite cfg)) + b2z (mapped_writes cfg)) in
  let op := if (op =? 2) && negb (mapped_reads cfg) then 0 else op in
  n ← get testcalls;
  _ ← when ((0 <? simulatedopcount cfg) && (n =? simulatedopcount cfg)) writefileimage;
  _ ← modify (λ s, set_testcalls (u64 (testcalls s + 1)) s);
  _ ← test_op op;
  r ← real;
  _ ← when (sizechecks cfg && r) check_size;
  when (negb (closeprob cfg =? 0) && (Z.shiftr rv 3 <? 2 ^ 28 / closeprob cfg)) docloseopen.

Fixpoint tests (n : nat) : M Σ () :=
  match n with O => mret () | S n => _ ← test; tests n end.

(** ** The program after its options *)

Fixpoint open_files (n : nat) (i : Z) : M Σ () :=
  match n with
  | O => mret ()
  | S n => a ← sys (if lite cfg then Open i else OpenTrunc i); if ret a <? 0 then exit 91 else open_files n (i + 1)
  end.
Definition open_test_files : M Σ () := open_files (Z.to_nat (num_test_files cfg)) 0.

Fixpoint close_files (n : nat) (i : Z) : M Σ () :=
  match n with
  | O => mret ()
  | S n => a ← sys (Close i); if negb (ret a =? 0) then report_failure 99 else close_files n (i + 1)
  end.
Definition close_test_files : M Σ () := close_files (Z.to_nat (num_test_files cfg)) 0.

Fixpoint fill_original (n : nat) : M Σ (list byte) :=
  match n with O => mret [] | S n => r ← draw; l ← fill_original n; mret (r mod 256 :: l) end.

Definition set_buffers (o : list byte) (s : state Σ) : state Σ :=
  State Σ (env s) (replicate (Z.to_nat (maxfilelen cfg)) 0) (replicate (Z.to_nat (maxoplen cfg)) 0) o (file_size s) (biggest s)
    (testcalls s) (oplog s) (logptr s) (logcount s) (fd_last s) (badoff s) (rnd s) (trace s) (dump s) (saved s).
End fsx.

Definition set_maxfilelen (n : Z) (c : config) : config :=
  Config n (maxoplen c) (simulatedopcount c) (closeprob c) (sizechecks c) (readbdy c) (truncbdy c) (writebdy c) (style c) (lite c)
    (randomoplen c) (mapped_writes c) (mapped_reads c) (fd_policy c) (num_test_files c) (page_size c).

Section main.
Context {Σ : Type} `{!System Σ} (random : nat → Z).

(** With -L the file keeps its size, which becomes the largest one. *)
Definition lite_size (cfg : config) : M Σ config :=
  if lite cfg then
    fd ← get_tf random cfg;
    e ← sys (LseekEnd fd);
    _ ← modify (set_size (ret e));
    if ret e =? -1 then exit 94
    else
      z ← sys (LseekSet fd 0);
      if ret z =? -1 then exit 95 else mret (set_maxfilelen (ret e) cfg)
  else mret cfg.

(** The buffers, and the file as the tests expect it. *)
Definition prepare (cfg : config) : M Σ () :=
  o ← fill_original random (Z.to_nat (maxfilelen cfg));
  _ ← modify (set_buffers cfg o);
  if lite cfg then
    fd ← get_tf random cfg;
    good ← get good_buf;
    w ← sys (Write fd good);
    if negb (ret w =? maxfilelen cfg) then exit 98 else mret ()
  else check_trunc_hack random cfg.

(** [numops] tests. *)
Definition main (cfg : config) (numops : nat) : M Σ () :=
  _ ← open_test_files cfg;
  cfg ← lite_size cfg;
  _ ← prepare cfg;
  _ ← tests random cfg numops;
  close_test_files cfg.
End main.

Definition empty_entry : log_entry := Entry 0 (0, 0, 0).
Definition init {Σ} (e : Σ) : state Σ :=
  State Σ e [] [] [] 0 0 0 (replicate (Z.to_nat LOGSIZE) empty_entry) 0 0 0 (-1) 0 [] [] [].

(** ** A file

    What the calls do on a file, all names of which are names of one file. *)

Record file : Type := File { bytes : list byte; pos : Z → Z; mapping : option (Z * Z) }.

Definition seek (fd p : Z) (f : file) : file := File (bytes f) (λ i, if i =? fd then p else pos f i) (mapping f).
Definition set_bytes (b : list byte) (f : file) : file := File b (pos f) (mapping f).
Definition zeros (n : Z) : list byte := replicate (Z.to_nat n) 0.

(** Data at an offset, with zeros in a hole before them. *)
Definition patch (b : list byte) (off : Z) (d : list byte) : list byte :=
  match d with [] => b | _ => store (b ++ zeros (off - zlength b)) off d end.
Definition resize (b : list byte) (n : Z) : list byte := take (Z.to_nat n) (b ++ zeros (n - zlength b)).

Definition in_map (f : file) (off n : Z) : option Z :=
  match mapping f with
  | Some (m, len) => if (0 <=? off) && (0 <=? m + off) && (0 <=? n) && (off + n <=? len) && (m + off + n <=? zlength (bytes f)) then Some (m + off) else None
  | None => None
  end.

Definition ref_call (page : Z) (c : call) (f : file) : answer * file :=
  match c with
  | LseekSet fd off => (Ans off [], seek fd off f)
  | LseekEnd fd => (Ans (zlength (bytes f)) [], seek fd (zlength (bytes f)) f)
  | Read fd n => let d := slice (bytes f) (pos f fd) n in (Ans (zlength d) d, seek fd (pos f fd + zlength d) f)
  | Write fd d => (Ans (zlength d) [], seek fd (pos f fd + zlength d) (set_bytes (patch (bytes f) (pos f fd) d) f))
  | Ftruncate _ len => (Ans 0 [], set_bytes (resize (bytes f) len) f)
  | Fstat _ => (Ans (zlength (bytes f)) [], f)
  | Mmap _ len off =>
      if (0 <? len) && (0 <=? off) && (off mod page =? 0) then (Ans 0 [], File (bytes f) (pos f) (Some (off, len)))
      else (Ans (-1) [], f)
  | MapLoad off n => match in_map f off n with Some o => (Ans 0 (slice (bytes f) o n), f) | None => (Ans (-1) [], f) end
  | MapStore off d =>
      match in_map f off (zlength d) with
      | Some o => (Ans 0 [], set_bytes (store (bytes f) o d) f)
      | None => (Ans (-1) [], f)
      end
  | Msync _ => (Ans 0 [], f)
  | Munmap _ => (Ans 0 [], File (bytes f) (pos f) None)
  | Close _ => (Ans 0 [], f)
  | Open fd => (Ans 0 [], seek fd 0 f)
  | OpenTrunc fd => (Ans 0 [], seek fd 0 (set_bytes [] f))
  end.

(** The promise of a correct system: its answers are those of a file it holds. *)
Class Posix (Σ : Type) `{!System Σ} (page : Z) : Type := {
  view : Σ → file;
  view_call c σ : (sys_call c σ).1 = (ref_call page c (view σ)).1 ∧ view (sys_call c σ).2 = (ref_call page c (view σ)).2 }.

(** A file in memory keeps it. *)
#[global] Instance file_system page : System file := ref_call page.
#[global] Instance file_posix page : @Posix file (file_system page) page.
Proof. by refine {| view f := f |}. Defined.

(** What any system promises: a read gives as many bytes as it says, a read or a write
    is of no more than asked for, a load from a mapping gives the bytes asked for. *)
Class Sane (Σ : Type) `{!System Σ} : Prop := {
  read_sane fd n σ : 0 ≤ n → let a := (sys_call (Read fd n) σ).1 in -1 ≤ ret a ≤ n ∧ (0 ≤ ret a → zlength (data a) = ret a);
  write_sane fd d σ : -1 ≤ ret (sys_call (Write fd d) σ).1 ≤ zlength d;
  load_sane off n σ : let a := (sys_call (MapLoad off n) σ).1 in 0 ≤ ret a → zlength (data a) = n }.

(** The file that the calls so far have made, the last call first. *)
Fixpoint replay (page : Z) (tr : list (call * answer)) (f0 : file) : file :=
  match tr with [] => f0 | (c, _) :: tr => (ref_call page c (replay page tr f0)).2 end.

(** The answers that tell something about the file are those of a correct one. *)
Definition agrees (page : Z) (f : file) (c : call) (a : answer) : Prop :=
  match c with
  | Read _ _ | MapLoad _ _ => data a = data (ref_call page c f).1
  | Write _ _ | Fstat _ | LseekEnd _ => ret a = ret (ref_call page c f).1
  | _ => True
  end.
Fixpoint conforms (page : Z) (tr : list (call * answer)) (f0 : file) : Prop :=
  match tr with [] => True | (c, a) :: tr => agrees page (replay page tr f0) c a ∧ conforms page tr f0 end.
