(* ===== verification/FsxProof.v ===== *)
(** * Correctness of the file system exerciser

    fsx-linux.c accepts exactly the systems that behave like a file: on a correct one
    every sequence of tests succeeds, and when tests succeed every answer about the
    contents and the size of the file was right. *)

From S2P Require Import Prelude CInt CMem CString Fsx.
Local Open Scope Z_scope.

(** ** Lists of bytes *)

Lemma zeros_length n : length (zeros n) = Z.to_nat n.
Proof. apply length_replicate. Qed.

Lemma zeros_lookup n i : zeros n !! i = if decide (Z.of_nat i < n) then Some 0 else None.
Proof.
  unfold zeros. destruct (decide _); [apply lookup_replicate; lia|]. apply lookup_ge_None. rewrite length_replicate. lia.
Qed.

Lemma resize_length b n : 0 ≤ n → length (resize b n) = Z.to_nat n.
Proof. intros. unfold resize, zeros. rewrite length_take, length_app, length_replicate. lia. Qed.

Lemma resize_lookup b n i : 0 ≤ n →
  resize b n !! i = if decide (Z.of_nat i < n) then if decide (Z.of_nat i < zlength b) then b !! i else Some 0 else None.
Proof.
  intros Hn. destruct (decide (Z.of_nat i < n)); [|apply lookup_ge_None; rewrite resize_length; lia].
  unfold resize. rewrite lookup_take_lt by lia. destruct (decide (Z.of_nat i < zlength b)).
  - apply lookup_app_l. lia.
  - rewrite lookup_app_r, zeros_lookup by lia. by rewrite decide_True by lia.
Qed.

Lemma patch_lookup b off d i : 0 ≤ off → d ≠ [] →
  patch b off d !! i =
  if decide (off ≤ Z.of_nat i < off + zlength d) then d !! (i - Z.to_nat off)%nat
  else if decide (Z.of_nat i < zlength b) then b !! i else if decide (Z.of_nat i < off) then Some 0 else None.
Proof.
  intros Ho Hd. unfold patch. destruct d as [|x d']; [done|]. set (d := x :: d') in *. clearbody d.
  unfold store. set (m := b ++ zeros (off - zlength b)).
  assert (Hm : ∀ j, m !! j = if decide (Z.of_nat j < zlength b) then b !! j else if decide (Z.of_nat j < off) then Some 0 else None).
  { intros j. unfold m. destruct (decide (Z.of_nat j < zlength b)); [apply lookup_app_l; lia|].
    rewrite lookup_app_r, zeros_lookup by lia. by destruct (decide _), (decide _); try lia. }
  assert (Hlm : zlength m = Z.max (zlength b) off) by (unfold m, zeros; rewrite length_app, length_replicate; lia).
  destruct (decide (off ≤ Z.of_nat i < off + zlength d)) as [Hi|Hi].
  - rewrite lookup_app_r, lookup_app_l by (rewrite length_take; lia). f_equal. rewrite length_take. lia.
  - rewrite <- Hm. destruct (decide (Z.of_nat i < off)).
    + rewrite lookup_app_l, lookup_take_lt by (rewrite ?length_take; lia). done.
    + rewrite lookup_app_r by (rewrite length_take; lia). rewrite lookup_app_r by (rewrite length_take; lia).
      rewrite lookup_drop. f_equal. rewrite length_take. lia.
Qed.

Lemma take_lookup {A} (l : list A) n i : 0 ≤ n ≤ zlength l →
  take (Z.to_nat n) l !! i = if decide (Z.of_nat i < n) then l !! i else None.
Proof.
  intros. destruct (decide _); [apply lookup_take_lt; lia|]. apply lookup_ge_None. rewrite length_take. lia.
Qed.

(** ** The good copy after a write

    [good'] has new data at [offset], and zeros between the old end of the file and
    the new data. *)
Record rewritten (fs : Z) (good : list byte) (offset size : Z) (good' : list byte) : Prop := {
  rw_length : length good' = length good;
  rw_lookup i : ¬ (offset ≤ Z.of_nat i < offset + size) →
    good' !! i = if decide (fs ≤ Z.of_nat i < offset) then Some 0 else good !! i }.

Section rewritten.
Context (fs : Z) (good : list byte) (offset size : Z) (good' : list byte).
Context (Hrw : rewritten fs good offset size good') (Hfs : 0 ≤ fs ≤ zlength good) (Ho : 0 ≤ offset) (Hs : 0 < size)
  (Hend : offset + size ≤ zlength good).

Lemma rw_slice : zlength (slice good' offset size) = size.
Proof using All. rewrite slice_length; [lia|lia|lia|]. rewrite (rw_length _ _ _ _ _ Hrw). lia. Qed.

(** The file after the write has the good contents. *)
Lemma patch_rewritten :
  patch (take (Z.to_nat fs) good) offset (slice good' offset size) = take (Z.to_nat (Z.max fs (offset + size))) good'.
Proof using All.
  pose proof rw_slice as Hsl. pose proof (rw_length _ _ _ _ _ Hrw) as Hl.
  apply list_eq. intros i. rewrite patch_lookup; [|lia|by intros E; rewrite E in Hsl; simpl in Hsl; lia].
  rewrite Hsl, length_take, (take_lookup good'), (take_lookup good) by lia.
  destruct (decide (offset ≤ Z.of_nat i < offset + size)) as [Hi|Hi].
  - rewrite decide_True by lia. rewrite slice_lookup by lia. f_equal. lia.
  - rewrite (rw_lookup _ _ _ _ _ Hrw) by done. repeat (destruct (decide _)); try lia; try done.
Qed.

(** The same for a write to a mapping after the file was extended. *)
Lemma store_rewritten :
  store (resize (take (Z.to_nat fs) good) (Z.max fs (offset + size))) offset (slice good' offset size) =
  take (Z.to_nat (Z.max fs (offset + size))) good'.
Proof using All.
  pose proof rw_slice as Hsl. pose proof (rw_length _ _ _ _ _ Hrw) as Hl.
  apply list_eq. intros i. rewrite store_lookup; [|lia|rewrite resize_length; lia].
  rewrite Hsl, resize_lookup, length_take, (take_lookup good'), (take_lookup good) by lia.
  destruct (decide (offset ≤ Z.of_nat i < offset + size)) as [Hi|Hi].
  - rewrite decide_True by lia. rewrite slice_lookup by lia. f_equal. lia.
  - rewrite (rw_lookup _ _ _ _ _ Hrw) by done. repeat (destruct (decide _)); try lia; try done.
Qed.
End rewritten.

Lemma resize_take fs good n : 0 ≤ fs ≤ zlength good → 0 ≤ n ≤ zlength good →
  resize (take (Z.to_nat fs) good) n = take (Z.to_nat n) (if decide (fs < n) then store good fs (zeros (n - fs)) else good).
Proof.
  intros. set (g := if decide _ then _ else _).
  assert (Hg : length g = length good).
  { unfold g. destruct (decide (fs < n)); [|done]. rewrite store_length by (unfold zeros; rewrite ?length_replicate; lia). done. }
  apply list_eq. intros i. rewrite resize_lookup, length_take, (take_lookup g), (take_lookup good) by lia.
  destruct (decide (Z.of_nat i < n)); [|done]. unfold g. destruct (decide (fs < n)).
  - rewrite store_lookup by (unfold zeros; rewrite ?length_replicate; lia). unfold zeros. rewrite length_replicate.
    repeat (destruct (decide _)); try lia; try done. symmetry. apply lookup_replicate. lia.
  - repeat (destruct (decide _)); try lia; done.
Qed.

(** All the bytes of a file are written. *)
Lemma patch_full b d : length b = length d → patch b 0 d = d.
Proof.
  intros Hb. destruct d as [|x d]; [by apply nil_length_inv|]. apply list_eq. intros i. rewrite patch_lookup by done.
  destruct (decide _); [by rewrite Nat.sub_0_r|]. rewrite !decide_False by lia. symmetry. apply lookup_ge_None. lia.
Qed.

Lemma resize_patch b d : resize (patch b 0 d) (zlength d) = d.
Proof.
  apply list_eq. intros i. rewrite resize_lookup by lia. destruct (decide (Z.of_nat i < zlength d)) as [Hi|Hi].
  - assert (d ≠ []) by (intros ->; simpl in Hi; lia).
    assert (Hp : zlength d ≤ zlength (patch b 0 d)).
    { destruct d; [done|]. unfold patch, store, zeros. rewrite !length_app. lia. }
    rewrite decide_True by lia. rewrite patch_lookup by (done || lia). rewrite decide_True by lia. f_equal. lia.
  - symmetry. apply lookup_ge_None. lia.
Qed.

Lemma gendata_ok k n orig good offset : 0 ≤ offset → offset + Z.of_nat k ≤ zlength good → offset + Z.of_nat k ≤ zlength orig →
  ∃ good', gendata k n orig good offset = Ret good' ∧ length good' = length good ∧
    ∀ i, ¬ (offset ≤ Z.of_nat i < offset + Z.of_nat k) → good' !! i = good !! i.
Proof.
  revert good offset. induction k as [|k IH]; intros good offset Ho Hg Hr; [by eexists|].
  assert (Hput : ∀ (m : list Z) x, zlength m = zlength good → ∃ m', mem_write m offset [x] = Ret m' ∧ length m' = length good ∧
    ∀ i, Z.of_nat i ≠ offset → m' !! i = m !! i).
  { intros m x Hm. eexists. split; [apply mem_write_ok; cbn; lia|]. split; [rewrite store_length; cbn; lia|].
    intros i Hi. rewrite store_lookup by (cbn; lia). rewrite decide_False; [done|cbn; lia]. }
  cbn [gendata]. destruct (Hput good (u8 n) eq_refl) as (g1 & E1 & L1 & K1). rewrite E1. cbn [mbind res_bind].
  assert (∃ g2, (if offset mod 2 =? 0 then Ret g1 else g ← mem_get g1 offset; o ← mem_get orig offset; mem_write g1 offset [u8 (g + o)])
    = Ret g2 ∧ length g2 = length good ∧ ∀ i, Z.of_nat i ≠ offset → g2 !! i = good !! i) as (g2 & E2 & L2 & K2).
  { destruct (offset mod 2 =? 0); [by exists g1|].
    destruct (lookup_lt_is_Some_2 g1 (Z.to_nat offset)) as [x Hx]; [lia|].
    destruct (lookup_lt_is_Some_2 orig (Z.to_nat offset)) as [y Hy]; [lia|].
    rewrite (mem_get_lookup g1 offset x), (mem_get_lookup orig offset y) by (done || lia). cbn [mbind res_bind].
    destruct (Hput g1 (u8 (x + y)) ltac:(lia)) as (g2 & E2 & L2 & K2). exists g2. split; [done|]. split; [done|].
    intros i Hi. by rewrite K2, K1. }
  rewrite E2. cbn [mbind res_bind]. destruct (IH g2 (offset + 1)) as (g3 & E3 & L3 & K3); [lia..|].
  exists g3. split; [done|]. split; [lia|]. intros i Hi. rewrite K3, K2 by lia. done.
Qed.

(** ** Programs on a ghost file

    The ghost file is what the calls so far have made of a first file.  In a strict
    setting, where the system holds that very file, every program below succeeds; in
    any setting, when it succeeds, the answers conform to the ghost file. *)

Record ranges_ok (cfg : config) : Prop := {
  ok_maxfilelen : 0 < maxfilelen cfg ≤ INT_MAX; ok_maxoplen : 0 < maxoplen cfg < INT_MAX;
  ok_simulated : 0 ≤ simulatedopcount cfg; ok_readbdy : 0 < readbdy cfg; ok_truncbdy : 0 < truncbdy cfg;
  ok_writebdy : 0 < writebdy cfg; ok_files : 0 < num_test_files cfg;
  ok_style : lite cfg = false → Z.land (style cfg) 1 = 0 ∨ maxoplen cfg ≤ maxfilelen cfg;
  ok_page : ∃ k, 0 ≤ k ∧ page_size cfg = 2 ^ k }.

(** Without -L. *)
Record config_ok (cfg : config) : Prop := { ok_ranges : ranges_ok cfg; ok_lite : lite cfg = false }.

(** With -L the size of the file replaces the largest size. *)
Definition effective (cfg : config) (f : file) : config := if lite cfg then set_maxfilelen (zlength (bytes f)) cfg else cfg.

Section logic.
Context {Σ : Type} `{!System Σ} (random : nat → Z) (cfg : config) (f0 : file) (strict : Prop) (view : Σ → file).
Context (Hposix : strict → ∀ c σ, (sys_call c σ).1 = (ref_call (page_size cfg) c (view σ)).1 ∧
  view (sys_call c σ).2 = (ref_call (page_size cfg) c (view σ)).2).
Context (Hsane : Sane Σ) (Hcfg : ranges_ok cfg) (Hlite : lite cfg = true → strict) (Hrandom : ∀ n, 0 ≤ random n < 2 ^ 31).

Abbreviation page := (page_size cfg).
Definition ghost (s : state Σ) : file := replay page (trace s) f0.

Definition fwp {A} (m : M Σ A) (Q : A → state Σ → Prop) (s : state Σ) : Prop :=
  match m s with Next a s' => Q a s' | _ => ¬ strict end.

Lemma fwp_bind {A B} (m : M Σ A) (k : A → M Σ B) Q s : fwp m (λ a s', fwp (k a) Q s') s → fwp (m ≫= k) Q s.
Proof. unfold fwp, mbind, M_bind. by destruct (m s). Qed.
Lemma fwp_mono {A} (m : M Σ A) (Q Q' : A → state Σ → Prop) s : (∀ a s', Q a s' → Q' a s') → fwp m Q s → fwp m Q' s.
Proof. unfold fwp. destruct (m s); auto. Qed.
Lemma fwp_ret {A} (a : A) (Q : A → state Σ → Prop) s : Q a s → fwp (mret a) Q s.
Proof. done. Qed.
Lemma fwp_get {A B} (f : state Σ → A) (k : A → M Σ B) Q s : fwp (k (f s)) Q s → fwp (get f ≫= k) Q s.
Proof. done. Qed.
Lemma fwp_modify {B} f (k : unit → M Σ B) Q s : fwp (k ()) Q (f s) → fwp (modify f ≫= k) Q s.
Proof. done. Qed.
Lemma fwp_lift {A B} (m : res A) (k : A → M Σ B) Q s :
  (strict → ∃ x, m = Ret x) → (∀ x, m = Ret x → fwp (k x) Q s) → fwp (lift m ≫= k) Q s.
Proof. intros Hs Hk. unfold fwp, lift, mbind, M_bind. destruct m; [by apply Hk|..]; intros H; by destruct (Hs H). Qed.
Lemma fwp_check {A} (b : bool) c (m : M Σ A) Q s :
  (strict → b = false) → (b = false → fwp m Q s) → fwp (if b then report_failure cfg c else m) Q s.
Proof. intros Hs Hk. destruct b; [|by apply Hk]. intros H. by specialize (Hs H). Qed.

(** ** The invariant *)

Record inv (s : state Σ) : Prop := {
  inv_good : zlength (good_buf s) = maxfilelen cfg; inv_temp : zlength (temp_buf s) = maxoplen cfg;
  inv_orig : zlength (original_buf s) = maxfilelen cfg; inv_size : 0 ≤ file_size s ≤ maxfilelen cfg;
  inv_calls : 0 ≤ testcalls s; inv_view : strict → view (env s) = ghost s; inv_conf : conforms page (trace s) f0;
  inv_lite : lite cfg = true → file_size s = maxfilelen cfg }.

Definition synced (s : state Σ) : Prop := bytes (ghost s) = take (Z.to_nat (file_size s)) (good_buf s).
(** With -L the size of the file does not change. *)
Definition sized (s : state Σ) : Prop := lite cfg = true → zlength (bytes (ghost s)) = maxfilelen cfg.

(** The fields the invariant is about. *)
Definition core (s : state Σ) := (env s, good_buf s, temp_buf s, original_buf s, file_size s, testcalls s, trace s).

Lemma inv_core s s' : core s' = core s → inv s → inv s'.
Proof.
  unfold core. intros E []. injection E as E1 E2 E3 E4 E5 E6 E7. split; unfold ghost in *; by rewrite ?E1, ?E2, ?E3, ?E4, ?E5, ?E6, ?E7.
Qed.
Lemma synced_core s s' : core s' = core s → synced s → synced s'.
Proof. unfold core, synced, ghost. intros E H. injection E as E1 E2 E3 E4 E5 E6 E7. by rewrite E2, E5, E7. Qed.

Lemma sized_core s s' : core s' = core s → sized s → sized s'.
Proof. unfold core, sized, ghost. intros E H. injection E as E1 E2 E3 E4 E5 E6 E7. by rewrite E7. Qed.

(** The system holds the ghost file, in a strict setting. *)
Definition linked (s : state Σ) : Prop := strict → view (env s) = ghost s.

Lemma fwp_sys {B} c (k : answer → M Σ B) Q s : linked s →
  (∀ a e, (strict → a = (ref_call page c (ghost s)).1 ∧ view e = (ref_call page c (ghost s)).2) →
    (a, e) = sys_call c (env s) → fwp (k a) Q (set_env e ((c, a) :: trace s) s)) →
  fwp (sys c ≫= k) Q s.
Proof using Hposix.
  intros Hinv Hk. unfold fwp, sys, mbind, M_bind. destruct (sys_call c (env s)) as [a e] eqn:E. apply Hk; [|done].
  intros Hs. rewrite <- (Hinv Hs). pose proof (Hposix Hs c (env s)) as H. by rewrite E in H.
Qed.

(** A program that touches nothing of that. *)
Definition aside {A} (m : M Σ A) : Prop := ∀ s, ∃ a s', m s = Next a s' ∧ core s' = core s.

Lemma fwp_aside {A B} (m : M Σ A) (k : A → M Σ B) Q s : aside m → (∀ a s', core s' = core s → fwp (k a) Q s') → fwp (m ≫= k) Q s.
Proof. intros Hm Hk. destruct (Hm s) as (a & s' & E & Hc). unfold fwp, mbind, M_bind. rewrite E. by apply Hk. Qed.

Lemma aside_tf : aside (get_tf random cfg).
Proof. intros s. unfold get_tf. destruct (policy cfg); by do 2 eexists. Qed.
Lemma aside_log op a0 a1 a2 : aside (log4 (Σ := Σ) op a0 a1 a2).
Proof. intros s. by do 2 eexists. Qed.
Lemma aside_draw : aside (draw random).
Proof. intros s. by do 2 eexists. Qed.

(** Between operations, after [n] calls of test: the invariant, and once operations
    are real the file agrees with the good copy. *)
Definition ready (n : Z) (s : state Σ) : Prop :=
  inv s ∧ testcalls s = n ∧ (simulatedopcount cfg < n → synced s) ∧ (n ≤ simulatedopcount cfg → sized s).

Lemma ready_core n s s' : core s' = core s → ready n s → ready n s'.
Proof.
  intros E (Hi & Hn & Hs & Hz). split; [by eapply inv_core|]. split; [unfold core in E; injection E; congruence|]. split.
  - intros H. by eapply synced_core; [|apply Hs].
  - intros H. by eapply sized_core; [|apply Hz].
Qed.

Lemma aside_ready {A} n (m : M Σ A) s : aside m → ready n s → fwp m (λ _, ready n) s.
Proof. intros Hm Hr. destruct (Hm s) as (a & s' & E & Hc). unfold fwp. rewrite E. by eapply ready_core. Qed.

Lemma fwp_real {B} n (k : bool → M Σ B) Q s : testcalls s = n → fwp (k (simulatedopcount cfg <? n)) Q s → fwp (real cfg ≫= k) Q s.
Proof. intros <-. done. Qed.

Lemma inv_sys c a e s : inv s → (strict → view e = (ref_call page c (ghost s)).2) → agrees page (ghost s) c a →
  inv (set_env e ((c, a) :: trace s) s).
Proof. intros [] Hv Ha. by split. Qed.

Lemma aligned_le x bdy : 0 ≤ x → 0 < bdy → 0 ≤ x - x mod bdy ≤ x.
Proof. intros. pose proof (Z.mod_bound_pos x bdy). pose proof (Z.mod_le x bdy). lia. Qed.

(** ** Reading *)

Lemma check_buffers_ok offset size Q s :
  zlength (good_buf s) = maxfilelen cfg → zlength (temp_buf s) = maxoplen cfg → 0 ≤ offset → 0 ≤ size ≤ maxoplen cfg → offset + size ≤ maxfilelen cfg →
  (strict → slice (good_buf s) offset size = slice (temp_buf s) 0 size) →
  (slice (good_buf s) offset size = slice (temp_buf s) 0 size → Q () s) → fwp (check_buffers cfg offset size) Q s.
Proof.
  intros Hg Ht Ho Hs He Hstrict HQ. unfold check_buffers. apply fwp_get, fwp_get.
  rewrite memcmp_ne_ok by lia. cbn [lift]. unfold fwp at 1. cbn [mbind M_bind lift].
  destruct (bool_decide_reflect (slice (good_buf s) offset size = slice (temp_buf s) 0 size)) as [E|E]; cbn [negb]; [by apply HQ|].
  destruct (check_loop _ _ _ _ _ _ _); cbn; intros H; by apply E, Hstrict.
Qed.

(** The part of a read after the guards. *)
Lemma read_ok n fd o size s : ready n s → simulatedopcount cfg < n → 0 ≤ o → 0 < size ≤ maxoplen cfg → o + size ≤ file_size s →
  fwp (p ← sys (LseekSet fd o);
      if ret p =? -1 then report_failure cfg 140
      else
        iret ← sys (Read fd size);
        temp ← get temp_buf;
        temp ← lift (mem_write temp 0 (data iret));
        _ ← modify (set_temp temp);
        if negb (u32 (ret iret) =? size) then report_failure cfg 141
        else check_buffers cfg o size) (λ _, ready n) s.
Proof using All.
  intros (Hi & Hn & Hsync & Hsized) Hsim Ho Hs He. specialize (Hsync Hsim). pose proof Hi as [Hg Ht Hor Hfs Hc Hv Hconf Hl].
  pose proof (ok_maxfilelen _ Hcfg). pose proof (ok_maxoplen _ Hcfg).
  apply fwp_sys; [done|]. intros a e Ha _. apply fwp_check; [intros Hst; destruct (Ha Hst) as [-> _]; cbn; lia|]. intros _.
  apply fwp_sys; [intros Hst; apply (Ha Hst)|]. intros a' e' Ha' Ee'.
  set (d := slice (good_buf s) o size). assert (Hd : zlength d = size) by (unfold d; rewrite slice_length; lia).
  assert (Href : (ref_call page (Read fd size) (seek fd o (ghost s))).1 = Ans size d).
  { cbn. rewrite Z.eqb_refl. unfold synced in Hsync. rewrite Hsync, slice_take by lia. fold d. by rewrite Hd. }
  change (ghost (set_env e _ s)) with (seek fd o (ghost s)) in Ha'.
  assert (Hsn := read_sane fd size e ltac:(lia)). change (env (set_env e _ s)) with e in Ee'. rewrite <- Ee' in Hsn. cbn [fst] in Hsn.
  destruct Hsn as [Hret Hdata]. apply fwp_get. cbn [temp_buf set_env].
  apply fwp_lift.
  { intros Hst. destruct (Ha' Hst) as [-> _]. rewrite Href. eexists. apply mem_write_ok; cbn [data]; lia. }
  intros t Et. apply fwp_modify, fwp_check; [intros Hst; destruct (Ha' Hst) as [-> _]; rewrite Href; cbn [ret]|].
  { rewrite u32_id by (unfold INT_MAX in *; lia). lia. }
  intros Hrs. assert (ret a' = size) as Hra.
  { destruct (decide (ret a' = -1)) as [E|]; [rewrite E in Hrs; change (u32 (-1)) with 4294967295 in Hrs; unfold INT_MAX in *; lia|].
    rewrite u32_id in Hrs by (unfold INT_MAX in *; lia). lia. }
  rewrite mem_write_ok in Et by lia. injection Et as <-.
  apply check_buffers_ok; cbn; [done|rewrite store_length; lia|lia|lia|lia|..]; rewrite slice_store_same by lia; fold d.
  { intros Hst. destruct (Ha' Hst) as [-> _]. by rewrite Href. }
  intros Ed. split; [|split; [done|split; [done|intros; lia]]].
  split; cbn; [done|rewrite store_length; lia|done|done|done|intros Hst; apply (Ha' Hst)| |done].
  split; [|done]. change (data a' = data (ref_call page (Read fd size) (seek fd o (ghost s))).1). by rewrite Href.
Qed.

Lemma doread_ok n offset size s : ready n s → 0 ≤ offset → 0 ≤ size ≤ maxoplen cfg → offset + size ≤ INT_MAX →
  fwp (doread random cfg offset size) (λ _, ready n) s.
Proof using All.
  intros Hr Ho Hs He. unfold doread. apply fwp_aside; [apply aside_tf|]. intros fd s1 E1.
  apply (ready_core _ _ _ E1) in Hr. clear s E1. apply fwp_get.
  pose proof (aligned_le offset _ Ho (ok_readbdy _ Hcfg)). set (o := offset - _) in *. clearbody o.
  case_match; [by apply aside_ready; [apply aside_log|]|].
  case_match eqn:Hfit; [by apply aside_ready; [apply aside_log|]|].
  rewrite u32_id in Hfit by (unfold INT_MAX in *; lia).
  apply fwp_aside; [apply aside_log|]. intros [] s2 E2. assert (file_size s2 = file_size s1) as Hsz by (by injection E2).
  apply (ready_core _ _ _ E2) in Hr. eapply fwp_real; [apply Hr|]. case_match; [done|]. apply read_ok; [done|lia..].
Qed.

(** ** Mapped reading *)

Lemma fwp_touch {B} c (k : answer → M Σ B) Q s : linked s → (strict → 0 ≤ ret (ref_call page c (ghost s)).1) →
  (∀ a e, (strict → a = (ref_call page c (ghost s)).1 ∧ view e = (ref_call page c (ghost s)).2) →
    (a, e) = sys_call c (env s) → 0 ≤ ret a → fwp (k a) Q (set_env e ((c, a) :: trace s) s)) →
  fwp (touch c ≫= k) Q s.
Proof using Hposix.
  intros Hl Hret Hk. apply fwp_bind. unfold touch. apply fwp_sys; [done|]. intros a e Ha He.
  destruct (Z.ltb_spec (ret a) 0); [intros Hst; destruct (Ha Hst) as [-> _]; specialize (Hret Hst); lia|]. by apply Hk.
Qed.

Lemma page_offset o : 0 ≤ o → Z.land o (page_mask cfg) = o mod page ∧ 0 ≤ o mod page ≤ o ∧ (o - o mod page) mod page = 0.
Proof using Hcfg.
  intros Ho. destruct (ok_page _ Hcfg) as (k & Hk & Ep). unfold page_mask. rewrite Ep.
  assert (0 < 2 ^ k) by lia. rewrite <- Z.land_ones, Z.ones_equiv by lia. rewrite <- Z.sub_1_r. split; [done|].
  rewrite Z.sub_1_r, <- Z.ones_equiv, Z.land_ones by lia. pose proof (aligned_le o (2 ^ k)). pose proof (Z.mod_bound_pos o (2 ^ k)).
  split; [lia|]. rewrite Zminus_mod_idemp_r, Z.sub_diag. apply Z.mod_0_l. lia.
Qed.

(** A mapping of the pages that hold [size] bytes at [o]. *)
Definition map_file (o size : Z) (f : file) : file :=
  File (bytes f) (pos f) (Some (o - o mod page, o mod page + size)).

Lemma mmap_ref fd o size f : 0 ≤ o → 0 < size → o + size ≤ INT_MAX →
  ref_call page (Mmap fd (u32 (o mod page + size)) (u32 (o - o mod page))) f = (Ans 0 [], map_file o size f).
Proof using Hcfg.
  intros Ho Hs He. destruct (page_offset o Ho) as (_ & Hm & Ha). unfold ref_call, map_file.
  rewrite !u32_id by (unfold INT_MAX in *; lia). rewrite Ha, Z.eqb_refl.
  rewrite (proj2 (Z.ltb_lt _ _)), (proj2 (Z.leb_le _ _)) by lia. done.
Qed.
Lemma map_file_in o size f : 0 ≤ o → 0 < size → o + size ≤ zlength (bytes f) → in_map (map_file o size f) (o mod page) size = Some o.
Proof using Hcfg.
  intros Ho Hs He. destruct (page_offset o Ho) as (_ & Hm & Ha). unfold in_map, map_file. cbn [mapping bytes].
  rewrite !(proj2 (Z.leb_le _ _)) by lia. cbn. f_equal. lia.
Qed.

Lemma map_read_ok n fd o size s : ready n s → simulatedopcount cfg < n → 0 ≤ o → 0 < size ≤ maxoplen cfg → o + size ≤ file_size s →
  fwp (let pg_offset := Z.land o (page_mask cfg) in
      let map_size := u32 (pg_offset + size) in
      p ← sys (Mmap fd map_size (u32 (o - pg_offset)));
      if ret p =? -1 then report_failure cfg 190
      else
        m ← touch (MapLoad pg_offset size);
        temp ← get temp_buf;
        temp ← lift (mem_write temp 0 (data m));
        _ ← modify (set_temp temp);
        u ← sys (Munmap map_size);
        if negb (ret u =? 0) then report_failure cfg 191
        else check_buffers cfg o size) (λ _, ready n) s.
Proof using All.
  intros (Hi & Hn & Hsync & Hsized) Hsim Ho Hs He. specialize (Hsync Hsim). pose proof Hi as [Hg Ht Hor Hfs Hc Hv Hconf Hl].
  pose proof (ok_maxfilelen _ Hcfg). pose proof (ok_maxoplen _ Hcfg). cbv zeta. destruct (page_offset o Ho) as (-> & _ & _).
  apply fwp_sys; [done|]. intros a e Ha _. rewrite mmap_ref in Ha by lia. cbn [fst snd] in Ha.
  apply fwp_check; [intros Hst; by destruct (Ha Hst) as [-> _]|]. intros _.
  set (s1 := set_env e _ s).
  assert (Hgh : ghost s1 = map_file o size (ghost s)) by (unfold ghost, s1; cbn [trace set_env replay]; rewrite mmap_ref by lia; done).
  set (d := slice (good_buf s) o size). assert (Hd : zlength d = size) by (unfold d; rewrite slice_length; lia).
  assert (Href : ref_call page (MapLoad (o mod page) size) (ghost s1) = (Ans 0 d, map_file o size (ghost s))).
  { rewrite Hgh. unfold ref_call. rewrite map_file_in by (rewrite ?Hsync, ?length_take; lia). cbn [bytes map_file].
    unfold synced in Hsync. by rewrite Hsync, slice_take by lia. }
  apply fwp_touch; [intros Hst; rewrite Hgh; apply (Ha Hst)|intros _; by rewrite Href|]. intros a' e' Ha' Ee' Hr'.
  rewrite Href in Ha'. cbn [fst snd] in Ha'.
  assert (Hdata := load_sane (o mod page) size (env s1)). rewrite <- Ee' in Hdata. cbn [fst] in Hdata. specialize (Hdata Hr').
  apply fwp_get. cbn [temp_buf set_env s1]. rewrite mem_write_ok by lia. apply fwp_modify.
  set (s2 := set_temp _ _).
  assert (Hgh2 : ghost s2 = map_file o size (ghost s)).
  { change (ghost s2) with (ref_call page (MapLoad (o mod page) size) (ghost s1)).2. by rewrite Href. }
  apply fwp_sys; [intros Hst; rewrite Hgh2; apply (Ha' Hst)|]. intros a2 e2 Ha2 _.
  apply fwp_check; [intros Hst; by destruct (Ha2 Hst) as [-> _]|]. intros _.
  apply check_buffers_ok; cbn; [done|rewrite store_length; lia|lia|lia|lia|..]; rewrite slice_store_same by lia; fold d.
  { intros Hst. by destruct (Ha' Hst) as [-> _]. }
  intros Ed. split; [|split; [done|split; [|intros; lia]]].
  2:{ intros _. change (bytes (ghost s2) = take (Z.to_nat (file_size s)) (good_buf s)). by rewrite Hgh2. }
  split; cbn -[ref_call]; [done|rewrite store_length; lia|done|done|done|intros Hst; apply (Ha2 Hst)| |done].
  split; [done|]. split; [|done]. change (data a' = data (ref_call page (MapLoad (o mod page) size) (ghost s1)).1). by rewrite Href.
Qed.

Lemma domapread_ok n offset size s : ready n s → 0 ≤ offset → 0 ≤ size ≤ maxoplen cfg → offset + size ≤ INT_MAX →
  fwp (domapread random cfg offset size) (λ _, ready n) s.
Proof using All.
  intros Hr Ho Hs He. unfold domapread. apply fwp_aside; [apply aside_tf|]. intros fd s1 E1.
  apply (ready_core _ _ _ E1) in Hr. clear s E1. apply fwp_get.
  pose proof (aligned_le offset _ Ho (ok_readbdy _ Hcfg)). set (o := offset - _) in *. clearbody o.
  case_match; [by apply aside_ready; [apply aside_log|]|].
  case_match eqn:Hfit; [by apply aside_ready; [apply aside_log|]|].
  rewrite u32_id in Hfit by (unfold INT_MAX in *; lia).
  apply fwp_aside; [apply aside_log|]. intros [] s2 E2. assert (file_size s2 = file_size s1) as Hsz by (by injection E2).
  apply (ready_core _ _ _ E2) in Hr. eapply fwp_real; [apply Hr|]. case_match; [done|]. apply map_read_ok; [done|lia..].
Qed.

(** ** Writing *)

Lemma write_good_ok {B} offset size st (k : () → M Σ B) Q s : inv s → 0 ≤ offset → 0 < size → offset + size ≤ maxfilelen cfg →
  (∀ good', rewritten (file_size s) (good_buf s) offset size good' →
    fwp (k ()) Q (set_size (Z.max (file_size s) (offset + size)) (set_good good' s))) →
  fwp (write_good cfg offset size st ≫= k) Q s.
Proof using Hcfg.
  intros [Hg Ht Hor Hfs Hc Hv Hconf Hl0] Ho Hs He Hk. pose proof (ok_maxfilelen _ Hcfg). apply fwp_bind. unfold write_good.
  apply fwp_get, fwp_get, fwp_get.
  destruct (gendata_ok (Z.to_nat size) (testcalls s) (original_buf s) (good_buf s) offset) as (g & -> & Hl & Hlk); [lia..|].
  cbn [lift]. apply fwp_modify, fwp_get. cbn [file_size set_good]. rewrite u32_id by (unfold INT_MAX in *; lia).
  destruct (Z.ltb_spec (file_size s) (offset + size)) as [Hx|Hx].
  - assert (lite cfg = false) as -> by (apply not_true_is_false; intros H1; specialize (Hl0 H1); lia).
    destruct (Z.ltb_spec (file_size s) offset) as [Hy|Hy].
    + cbn [when]. apply fwp_bind, fwp_get. cbn [good_buf set_good]. rewrite memset_ok by lia. unfold fwp. cbn.
      assert (Hw : rewritten (file_size s) (good_buf s) offset size (store g (file_size s) (zeros (offset - file_size s)))).
      { split; [rewrite store_length; rewrite ?zeros_length; lia|]. intros i Hi.
        rewrite store_lookup, zeros_length by (rewrite ?zeros_length; lia).
        destruct (decide (file_size s ≤ Z.of_nat i < offset)).
        - rewrite decide_True by lia. rewrite zeros_lookup. by rewrite decide_True by lia.
        - rewrite decide_False by lia. apply Hlk. lia. }
      specialize (Hk _ Hw). rewrite Z.max_r in Hk by lia. exact Hk.
    + unfold fwp. cbn. assert (Hw : rewritten (file_size s) (good_buf s) offset size g).
      { split; [done|]. intros i Hi. rewrite decide_False by lia. apply Hlk. lia. }
      specialize (Hk _ Hw). rewrite Z.max_r in Hk by lia. exact Hk.
  - unfold fwp. cbn. assert (Hw : rewritten (file_size s) (good_buf s) offset size g).
    { split; [done|]. intros i Hi. rewrite decide_False by lia. apply Hlk. lia. }
    specialize (Hk _ Hw). rewrite Z.max_l in Hk by lia. exact Hk.
Qed.

(** The state in which the good copy has the new data and the system does not. *)
Abbreviation with_good o size g s := (set_size (Z.max (file_size s) (o + size)) (set_good g s)).

Lemma with_good_inv o size g s : inv s → rewritten (file_size s) (good_buf s) o size g → 0 ≤ o → 0 < size → o + size ≤ maxfilelen cfg →
  inv (with_good o size g s).
Proof. intros [] Hw Ho Hs He. split; try done; cbn; [by rewrite (rw_length _ _ _ _ _ Hw)|lia|]. intros Hl. specialize (inv_lite0 Hl). lia. Qed.

Lemma write_ok n fd o size g s : ready n s → rewritten (file_size s) (good_buf s) o size g → simulatedopcount cfg < n →
  0 ≤ o → 0 < size → o + size ≤ maxfilelen cfg →
  fwp (p ← sys (LseekSet fd o);
      if ret p =? -1 then report_failure cfg 150
      else
        good ← get good_buf;
        d ← lift (mem_read good o size);
        iret ← sys (Write fd d);
        if negb (u32 (ret iret) =? size) then report_failure cfg 151 else mret ()) (λ _, ready n) (with_good o size g s).
Proof using All.
  intros (Hi & Hn & Hsync & Hsized) Hw Hsim Ho Hs He. specialize (Hsync Hsim). pose proof Hi as [Hg Ht Hor Hfs Hc Hv Hconf Hl].
  pose proof (with_good_inv _ _ _ _ Hi Hw Ho Hs He) as Hi1. set (s1 := with_good o size g s) in *.
  pose proof (ok_maxfilelen _ Hcfg). pose proof (rw_length _ _ _ _ _ Hw) as Hlg.
  apply fwp_sys; [exact (inv_view _ Hi1)|]. intros a e Ha _. apply fwp_check; [intros Hst; destruct (Ha Hst) as [-> _]; cbn; lia|]. intros _.
  apply fwp_get. cbn [good_buf set_env set_good set_size s1]. rewrite mem_read_ok by lia. cbn [lift].
  set (d := slice g o size). assert (Hd : zlength d = size) by (eapply rw_slice; done || lia).
  apply fwp_sys; [intros Hst; apply (Ha Hst)|]. intros a' e' Ha' Ee'.
  assert (Hsn := write_sane fd d e). change (env (set_env e _ s1)) with e in Ee'. rewrite <- Ee' in Hsn. cbn [fst] in Hsn.
  apply fwp_check; [intros Hst; destruct (Ha' Hst) as [-> _]; cbn [ret ref_call fst]; rewrite Hd, u32_id by (unfold INT_MAX in *; lia); lia|].
  intros Hrs. assert (ret a' = size) as Hra.
  { destruct (decide (ret a' = -1)) as [E|]; [rewrite E in Hrs; change (u32 (-1)) with 4294967295 in Hrs; unfold INT_MAX in *; lia|].
    rewrite u32_id in Hrs by (unfold INT_MAX in *; lia). lia. }
  apply fwp_ret. split; [apply inv_sys; [apply inv_sys; [done|apply Ha|done]|apply Ha'|cbn; lia]|]. split; [done|]. split; [|intros; lia]. intros _.
  unfold synced, ghost. cbn. rewrite Z.eqb_refl. unfold synced, ghost in Hsync. rewrite Hsync. apply patch_rewritten; done || lia.
Qed.

Lemma dowrite_ok n offset size s : ready n s → 0 ≤ offset → 0 ≤ size → offset + size ≤ maxfilelen cfg →
  fwp (dowrite random cfg offset size) (λ _, ready n) s.
Proof using All.
  intros Hr Ho Hs He. unfold dowrite. apply fwp_aside; [apply aside_tf|]. intros fd s1 E1.
  apply (ready_core _ _ _ E1) in Hr. clear s E1.
  pose proof (aligned_le offset _ Ho (ok_writebdy _ Hcfg)). set (o := offset - _) in *. clearbody o.
  case_match; [by apply aside_ready; [apply aside_log|]|]. apply fwp_get.
  apply fwp_aside; [apply aside_log|]. intros [] s2 E2. apply (ready_core _ _ _ E2) in Hr. clear s1 E2.
  apply write_good_ok; [apply Hr|lia..|]. intros g Hw. eapply fwp_real; [apply Hr|].
  case_match; [|apply write_ok; done || lia]. destruct Hr as (Hi & Hn & Hsync & Hsized).
  apply fwp_ret. split; [apply with_good_inv; done || lia|]. split; [done|]. split; [intros; lia|exact Hsized].
Qed.

(** The file is made as long as the good copy. *)
Lemma extend_ok n fd o size g s : ready n s → rewritten (file_size s) (good_buf s) o size g → simulatedopcount cfg < n →
  0 ≤ o → 0 < size → o + size ≤ maxfilelen cfg → let fsize := Z.max (file_size s) (o + size) in
  fwp (when (file_size s <? fsize) (t ← sys (Ftruncate fd fsize); when (ret t =? -1) (exit 201)))
    (λ _ s', ∃ e tr, s' = set_env e tr (with_good o size g s) ∧ inv s' ∧
       bytes (ghost s') = resize (take (Z.to_nat (file_size s)) (good_buf s)) fsize) (with_good o size g s).
Proof using All.
  intros (Hi & Hn & Hsync & Hsized) Hw Hsim Ho Hs He. cbv zeta. specialize (Hsync Hsim). pose proof (inv_size _ Hi).
  pose proof (with_good_inv _ _ _ _ Hi Hw Ho Hs He) as Hi1. set (s1 := with_good o size g s) in *.
  set (fsz := Z.max _ _) in *. destruct (Z.ltb_spec (file_size s) fsz).
  - cbn [when]. apply fwp_sys; [exact (inv_view _ Hi1)|]. intros a e Ha _.
    destruct (ret a =? -1) eqn:E; [intros Hst; destruct (Ha Hst) as [-> _]; done|]. apply fwp_ret.
    do 2 eexists. split; [done|]. split; [by apply inv_sys; [|apply Ha|]|]. cbn. unfold synced, ghost in Hsync. by rewrite Hsync.
  - apply fwp_ret. exists (env s1), (trace s1). split; [done|]. split; [done|]. change (ghost s1) with (ghost s).
    pose proof (inv_good _ Hi). assert (fsz = file_size s) as -> by lia. rewrite Hsync, resize_take, decide_False by lia. done.
Qed.

(** New data go to a file of the right size through a mapping. *)
Lemma map_store_ok n fd o size g fs good s : inv s → testcalls s = n → simulatedopcount cfg < n → good_buf s = g → file_size s = Z.max fs (o + size) →
  rewritten fs good o size g → bytes (ghost s) = resize (take (Z.to_nat fs) good) (Z.max fs (o + size)) →
  0 ≤ o → 0 < size → o + size ≤ maxfilelen cfg → 0 ≤ fs → zlength good = maxfilelen cfg →
  fwp (let pg_offset := Z.land o (page_mask cfg) in
      let map_size := u32 (pg_offset + size) in
      p ← sys (Mmap fd map_size (u32 (o - pg_offset)));
      if ret p =? -1 then report_failure cfg 202
      else
        good ← get good_buf;
        d ← lift (mem_read good o size);
        _ ← touch (MapStore pg_offset d);
        y ← sys (Msync map_size);
        if negb (ret y =? 0) then report_failure cfg 203
        else
          u ← sys (Munmap map_size);
          if negb (ret u =? 0) then report_failure cfg 204 else mret ()) (λ _, ready n) s.
Proof using All.
  intros Hi Hn Hsim Eg Ef Hw Hb Ho Hs He Hfs Hlg. pose proof (ok_maxfilelen _ Hcfg). cbv zeta. destruct (page_offset o Ho) as (-> & _ & _).
  pose proof (inv_size _ Hi). pose proof (rw_length _ _ _ _ _ Hw).
  apply fwp_sys; [exact (inv_view _ Hi)|]. intros a e Ha _. 
  pose proof (inv_sys _ a e s Hi (λ Hst, proj2 (Ha Hst)) I) as Hi1. set (s1 := set_env e _ s) in *.
  assert (Hgh : ghost s1 = map_file o size (ghost s)) by (unfold ghost, s1; cbn [trace set_env replay]; rewrite mmap_ref by lia; done).
  apply fwp_check; [intros Hst; destruct (Ha Hst) as [-> _]; by rewrite mmap_ref by lia|]. intros _.
  apply fwp_get. change (good_buf s1) with (good_buf s). rewrite Eg, mem_read_ok by lia. cbn [lift].
  set (d := slice g o size). assert (Hd : zlength d = size) by (eapply rw_slice; done || lia).
  assert (Href : ref_call page (MapStore (o mod page) d) (ghost s1) =
    (Ans 0 [], set_bytes (take (Z.to_nat (file_size s)) g) (map_file o size (ghost s)))).
  { rewrite Hgh. unfold ref_call. rewrite Hd, map_file_in by (rewrite ?Hb, ?resize_length; lia). cbn [bytes map_file].
    rewrite Hb, Ef. unfold d. rewrite store_rewritten by (done || lia). done. }
  apply fwp_touch; [exact (inv_view _ Hi1)|intros _; by rewrite Href|]. intros a' e' Ha' _ _.
  pose proof (inv_sys _ a' e' s1 Hi1 (λ Hst, proj2 (Ha' Hst)) I) as Hi2.
  assert (Hgh2 : bytes (ghost (set_env e' ((MapStore (o mod page) d, a') :: trace s1) s1)) = take (Z.to_nat (file_size s)) g).
  { change (ghost _) with (ref_call page (MapStore (o mod page) d) (ghost s1)).2. by rewrite Href. }
  set (s2 := set_env e' _ s1) in *. assert (good_buf s2 = g ∧ file_size s2 = file_size s ∧ testcalls s2 = n) as (E2 & E3 & E4) by done.
  clearbody s2. apply fwp_sys; [exact (inv_view _ Hi2)|]. intros a2 e2 Ha2 _.
  apply fwp_check; [intros Hst; by destruct (Ha2 Hst) as [-> _]|]. intros _.
  pose proof (inv_sys _ a2 e2 s2 Hi2 (λ Hst, proj2 (Ha2 Hst)) I) as Hi3.
  apply fwp_sys; [exact (inv_view _ Hi3)|]. intros a3 e3 Ha3 _.
  apply fwp_check; [intros Hst; by destruct (Ha3 Hst) as [-> _]|]. intros _.
  apply fwp_ret. split; [by apply inv_sys; [|apply Ha3|]|]. split; [done|]. split; [intros _|intros; lia].
  unfold synced. cbn [good_buf file_size set_env]. rewrite E2, E3. exact Hgh2.
Qed.

Lemma domapwrite_ok n offset size s : ready n s → 0 ≤ offset → 0 ≤ size → offset + size ≤ maxfilelen cfg →
  fwp (domapwrite random cfg offset size) (λ _, ready n) s.
Proof using All.
  intros Hr Ho Hs He. unfold domapwrite. apply fwp_aside; [apply aside_tf|]. intros fd s1 E1.
  apply (ready_core _ _ _ E1) in Hr. clear s E1.
  pose proof (aligned_le offset _ Ho (ok_writebdy _ Hcfg)). set (o := offset - _) in *. clearbody o.
  case_match; [by apply aside_ready; [apply aside_log|]|]. apply fwp_get.
  apply fwp_aside; [apply aside_log|]. intros [] s2 E2. assert (file_size s1 = file_size s2) as -> by (by injection E2).
  apply (ready_core _ _ _ E2) in Hr. clear s1 E2.
  apply write_good_ok; [apply Hr|lia..|]. intros g Hw. eapply fwp_real; [apply Hr|].
  pose proof Hr as (Hi & Hn & Hsync & Hsized). case_match.
  { apply fwp_ret. split; [apply with_good_inv; done || lia|]. split; [done|]. split; [intros; lia|exact Hsized]. }
  apply fwp_get, fwp_bind. eapply fwp_mono; [|apply (extend_ok n); done || lia].
  intros _ s' (e & tr & -> & Hi' & Hb). pose proof (inv_size _ Hi). pose proof (inv_good _ Hi).
  by eapply map_store_ok; [done|done|lia|done..|lia|lia|lia|lia|done].
Qed.

(** ** The other operations *)

Lemma dotruncate_ok n size s : lite cfg = false → ready n s → 0 ≤ size ≤ maxfilelen cfg → fwp (dotruncate random cfg size) (λ _, ready n) s.
Proof using All.
  intros Hnl Hr Hs. unfold dotruncate. apply fwp_aside; [apply aside_tf|]. intros fd s1 E1.
  apply (ready_core _ _ _ E1) in Hr. clear s E1.
  pose proof (aligned_le size _ (proj1 Hs) (ok_truncbdy _ Hcfg)). set (z := size - _) in *. clearbody z.
  apply fwp_get, fwp_aside; [intros s; unfold when; case_match; by do 2 eexists|]. intros [] s2 E2. apply (ready_core _ _ _ E2) in Hr. clear s1 E2.
  apply fwp_get, fwp_aside; [apply aside_log|]. intros [] s3 E3. assert (file_size s2 = file_size s3) as -> by (by injection E3).
  apply (ready_core _ _ _ E3) in Hr. clear s2 E3. destruct Hr as (Hi & Hn & Hsync & Hsized). pose proof Hi as [Hg Ht Hor Hfs Hc Hv Hconf Hl].
  set (g := if decide (file_size s3 < z) then store (good_buf s3) (file_size s3) (zeros (z - file_size s3)) else good_buf s3).
  assert (length g = length (good_buf s3)) as Hlg.
  { unfold g. case_match; [|done]. apply store_length; rewrite ?zeros_length; lia. }
  apply fwp_bind. eapply (fwp_mono _ (λ _ s', s' = set_good g s3)).
  2:{ unfold g, fwp. destruct (Z.ltb_spec (file_size s3) z); [|by rewrite decide_False by lia; destruct s3].
      rewrite decide_True by lia. unfold when, mbind, M_bind, get. by rewrite memset_ok by lia. }
  intros _ ? ->. apply fwp_modify. set (s4 := set_size z _). assert (Hi4 : inv s4) by (split; cbn; done || lia || congruence).
  eapply fwp_real; [done|]. case_match; [by apply fwp_ret; split; [|split; [|split; [intros; lia|intros _; congruence]]]|].
  apply fwp_sys; [exact (inv_view _ Hi4)|]. intros a e Ha _.
  apply fwp_check; [intros Hst; by destruct (Ha Hst) as [-> _]|]. intros _.
  apply fwp_ret. split; [by apply inv_sys; [|apply Ha|]|]. split; [done|]. split; [intros Hsim|intros _ Hl1; congruence].
  unfold synced, ghost. cbn. specialize (Hsync Hsim). unfold synced, ghost in Hsync. rewrite Hsync. apply resize_take; lia.
Qed.

(** The whole good copy goes to the file. *)
Lemma writefileimage_ok s : inv s → sized s → fwp (writefileimage random cfg) (λ _ s', inv s' ∧ testcalls s' = testcalls s ∧ synced s') s.
Proof using All.
  intros Hi Hsz. unfold writefileimage. apply fwp_aside; [apply aside_tf|]. intros fd s1 E1.
  assert (testcalls s1 = testcalls s) as <- by (by injection E1). apply (inv_core _ _ E1) in Hi. apply (sized_core _ _ E1) in Hsz. clear s E1.
  pose proof Hi as [Hg Ht Hor Hfs Hc Hv Hconf Hl].
  apply fwp_sys; [exact Hv|]. intros a e Ha _. apply fwp_check; [intros Hst; by destruct (Ha Hst) as [-> _]|]. intros _.
  pose proof (inv_sys _ a e s1 Hi (λ Hst, proj2 (Ha Hst)) I) as Hi1.
  apply fwp_get, fwp_get. cbn [good_buf file_size set_env]. rewrite mem_read_ok by lia. cbn [lift]. set (d := slice _ _ _).
  assert (zlength d = file_size s1) as Hd by (unfold d; rewrite slice_length; lia).
  apply fwp_sys; [exact (inv_view _ Hi1)|]. intros a' e' Ha' _.
  apply fwp_check; [intros Hst; destruct (Ha' Hst) as [-> _]; cbn [ret ref_call fst]; lia|]. intros Hra.
  assert (Hi2 : inv (set_env e' ((Write fd d, a') :: trace (set_env e ((LseekSet fd 0, a) :: trace s1) s1)) (set_env e ((LseekSet fd 0, a) :: trace s1) s1))).
  { apply inv_sys; [done|apply Ha'|]. cbn. lia. }
  assert (d = take (Z.to_nat (file_size s1)) (good_buf s1)) as Ed by (unfold d, slice; by rewrite drop_0).
  destruct (lite cfg) eqn:El.
  { apply fwp_ret. split; [done|]. split; [done|]. unfold synced. cbn. rewrite Z.eqb_refl, <- Ed. apply patch_full.
    specialize (Hsz El). specialize (Hl eq_refl). change (replay page (trace s1) f0) with (ghost s1). lia. }
  apply fwp_sys; [exact (inv_view _ Hi2)|]. intros a2 e2 Ha2 _.
  apply fwp_check; [intros Hst; by destruct (Ha2 Hst) as [-> _]|]. intros _.
  apply fwp_ret. split; [by apply inv_sys; [|apply Ha2|]|]. split; [done|].
  unfold synced. cbn. rewrite Z.eqb_refl. fold (ghost s1).
  rewrite <- Ed. clear -Hd Hfs. generalize dependent (bytes (ghost s1)). intros b. rewrite <- Hd.
  apply resize_patch.
Qed.

Lemma docloseopen_ok n s : ready n s → fwp (docloseopen random cfg) (λ _, ready n) s.
Proof using All.
  intros Hr. unfold docloseopen. apply fwp_aside; [apply aside_tf|]. intros fd s1 E1.
  apply (ready_core _ _ _ E1) in Hr. clear s E1. eapply fwp_real; [apply Hr|]. case_match; [done|].
  apply fwp_get, fwp_aside; [apply aside_log|]. intros [] s2 E2. apply (ready_core _ _ _ E2) in Hr. clear s1 E2.
  destruct Hr as (Hi & Hn & Hsync & Hsized). apply fwp_sys; [exact (inv_view _ Hi)|]. intros a e Ha _.
  pose proof (inv_sys _ a e s2 Hi (λ Hst, proj2 (Ha Hst)) I) as Hi1.
  apply fwp_check; [intros Hst; by destruct (Ha Hst) as [-> _]|]. intros _.
  apply fwp_sys; [exact (inv_view _ Hi1)|]. intros a' e' Ha' _.
  apply fwp_check; [intros Hst; by destruct (Ha' Hst) as [-> _]|]. intros _.
  apply fwp_ret. split; [by apply inv_sys; [|apply Ha'|]|]. done.
Qed.

Lemma check_size_ok n s : ready n s → simulatedopcount cfg < n → fwp (check_size random cfg) (λ _, ready n) s.
Proof using All.
  intros Hr Hsim. unfold check_size. apply fwp_aside; [apply aside_tf|]. intros fd s1 E1.
  apply (ready_core _ _ _ E1) in Hr. clear s E1. destruct Hr as (Hi & Hn & Hsync & Hsized). specialize (Hsync Hsim).
  assert (zlength (bytes (ghost s1)) = file_size s1) as Hlen.
  { rewrite Hsync, length_take. pose proof (inv_size _ Hi). pose proof (inv_good _ Hi). lia. }
  apply fwp_sys; [exact (inv_view _ Hi)|]. intros a e Ha _.
  apply fwp_sys; [intros Hst; apply (Ha Hst)|]. intros a' e' Ha' _.
  apply fwp_get. cbn [file_size set_env].
  apply fwp_check; [intros Hst; destruct (Ha Hst) as [-> _], (Ha' Hst) as [-> _]; change (ghost (set_env e _ s1)) with (ghost s1); cbn; lia|].
  intros Hok. apply fwp_ret. split; [|split; [done|split; [done|intros; lia]]]. apply inv_sys; [apply inv_sys; [done|apply Ha|]|apply Ha'|].
  - change (ret a = zlength (bytes (ghost s1))). lia.
  - change (ret a' = zlength (bytes (ghost s1))). lia.
Qed.

(** ** Tests *)

Lemma fwp_draw {B} (k : Z → M Σ B) Q s : (∀ r s', 0 ≤ r < 2 ^ 31 → core s' = core s → fwp (k r) Q s') → fwp (draw random ≫= k) Q s.
Proof using Hrandom. intros Hk. unfold fwp, draw, mbind, M_bind. by apply Hk. Qed.

Lemma test_write_ok n mapped size s : ready n s → 0 ≤ size ≤ maxoplen cfg → fwp (test_write random cfg mapped size) (λ _, ready n) s.
Proof using All.
  intros Hr Hs. unfold test_write. apply fwp_draw. intros r s1 Hrange E. apply (ready_core _ _ _ E) in Hr. clear s E.
  pose proof (ok_maxfilelen _ Hcfg). pose proof (ok_maxoplen _ Hcfg). pose proof (Z.mod_pos_bound r (maxfilelen cfg)).
  unfold umod. rewrite (proj2 (Z.eqb_neq _ 0)) by lia. apply fwp_lift; [eauto|]. intros ? [= <-].
  set (o := r mod _) in *. clearbody o. unfold INT_MAX in *.
  set (z := if maxfilelen cfg <? o + size then _ else _).
  assert (0 ≤ z ∧ o + z ≤ maxfilelen cfg) as [Hz Hoz] by (unfold z; destruct (Z.ltb_spec (maxfilelen cfg) (o + size)); lia).
  clearbody z. cbv zeta. rewrite !u32_id by lia.
  destruct mapped; [apply domapwrite_ok|apply dowrite_ok]; done || lia.
Qed.

Lemma test_read_ok n mapped size s : ready n s → 0 ≤ size ≤ maxoplen cfg → fwp (test_read random cfg mapped size) (λ _, ready n) s.
Proof using All.
  intros Hr Hs. unfold test_read. apply fwp_draw. intros r s1 Hrange E. apply (ready_core _ _ _ E) in Hr. clear s E. apply fwp_get.
  pose proof (inv_size _ (proj1 Hr)) as Hfs. pose proof (ok_maxfilelen _ Hcfg). pose proof (ok_maxoplen _ Hcfg). unfold INT_MAX in *.
  set (o := if file_size s1 =? 0 then 0 else _).
  assert (0 ≤ o ≤ file_size s1) as Ho.
  { unfold o. destruct (Z.eqb_spec (file_size s1) 0); [lia|]. pose proof (Z.mod_pos_bound r (file_size s1)). lia. }
  clearbody o. set (z := if file_size s1 <? o + size then _ else _).
  assert (0 ≤ z ≤ maxoplen cfg ∧ o + z ≤ file_size s1) as [Hz Hoz] by (unfold z; destruct (Z.ltb_spec (file_size s1) (o + size)); lia).
  clearbody z. cbv zeta. rewrite !u32_id by lia.
  destruct mapped; [apply domapread_ok|apply doread_ok]; unfold INT_MAX; done || lia.
Qed.

Lemma test_op_ok n op s : ready n s → fwp (test_op random cfg op) (λ _, ready n) s.
Proof using All.
  intros Hr. unfold test_op. pose proof (ok_maxfilelen _ Hcfg). pose proof (ok_maxoplen _ Hcfg). unfold INT_MAX in *.
  destruct (negb (lite cfg) && (op =? 3) && (Z.land (style cfg) 1 =? 0)) eqn:Etr.
  { apply fwp_draw. intros r s1 Hrange E. pose proof (Z.mod_pos_bound r (maxfilelen cfg)).
    unfold umod. rewrite (proj2 (Z.eqb_neq _ 0)) by lia. apply fwp_lift; [eauto|]. intros ? [= <-]. rewrite u32_id by lia.
    apply dotruncate_ok; [by bool_hyps|by eapply ready_core|lia]. }
  apply fwp_bind. eapply (fwp_mono _ (λ size s', ready n s' ∧ 0 ≤ size ≤ maxoplen cfg)).
  2:{ destruct (randomoplen cfg); [|by apply fwp_ret; split; [|lia]]. apply fwp_draw. intros r s1 Hrange E. apply fwp_ret.
      pose proof (Z.mod_pos_bound r (maxoplen cfg + 1)). split; [by eapply ready_core|lia]. }
  intros size s1 [Hr1 Hs]. destruct (negb (lite cfg) && (op =? 3)) eqn:E3.
  { rewrite u32_id by lia. assert (lite cfg = false) as Hnl by (by bool_hyps).
    apply dotruncate_ok; [done|done|]. pose proof (ok_style _ Hcfg Hnl). simpl in Etr. lia. }
  case_match; [by apply test_write_ok|by apply test_read_ok].
Qed.

(** Before a test. *)
Definition idle (n : Z) (s : state Σ) : Prop := ready n s ∧ (n = simulatedopcount cfg → n = 0 → synced s).

Lemma test_ok n s : idle n s → n + 1 < 2 ^ 64 → fwp (test random cfg) (λ _, idle (n + 1)) s.
Proof using All.
  intros [Hr Hz] Hn. unfold test. apply fwp_draw. intros rv s1 _ E. apply (ready_core _ _ _ E) in Hr.
  assert (n = simulatedopcount cfg → n = 0 → synced s1) as Hz1 by (intros; eapply synced_core; eauto). clear s E Hz.
  apply fwp_get. destruct Hr as (Hi & Hc & Hsync & Hsized). rewrite Hc. pose proof (inv_calls _ Hi) as Hpos. pose proof (ok_simulated _ Hcfg).
  apply fwp_bind. eapply (fwp_mono _ (λ _ s', inv s' ∧ testcalls s' = n ∧ (simulatedopcount cfg < n + 1 → synced s') ∧ (n + 1 ≤ simulatedopcount cfg → sized s'))).
  2:{ destruct (_ && _) eqn:Ew.
      - cbn [when]. eapply fwp_mono; [|apply writefileimage_ok; [done|apply Hsized; bool_hyps; lia]]. intros _ s' (Hi' & Hc' & Hs').
        split; [done|]. split; [lia|]. split; [done|]. bool_hyps. intros. lia.
      - apply fwp_ret. split; [done|]. split; [done|]. split; [|intros; apply Hsized; lia]. intros Hlt. destruct (decide (simulatedopcount cfg < n)) as [|Hge]; [by apply Hsync|].
        apply Hz1; lia. }
  intros _ s2 (Hi2 & Hc2 & Hs2 & Hz2). apply fwp_modify.
  assert (ready (n + 1) (set_testcalls (u64 (testcalls s2 + 1)) s2)) as Hr.
  { rewrite Hc2, u64_id by lia. split; [|by split]. destruct Hi2. split; try done. cbn. lia. }
  apply fwp_bind. eapply fwp_mono; [|by apply (test_op_ok (n + 1))]. intros [] s3 Hr3.
  eapply fwp_real; [apply Hr3|]. apply fwp_bind. eapply (fwp_mono _ (λ _, ready (n + 1))).
  2:{ destruct (sizechecks cfg); [|done]. unfold when. cbn [andb]. destruct (Z.ltb_spec (simulatedopcount cfg) (n + 1)); [|done].
      by apply check_size_ok. }
  intros [] s4 Hr4. eapply (fwp_mono _ (λ _, ready (n + 1))); [intros _ s'; split; [done|]; intros; lia|].
  unfold when. case_match; [by apply docloseopen_ok|done].
Qed.

Lemma tests_ok k n s : idle n s → n + Z.of_nat k < 2 ^ 64 → fwp (tests random cfg k) (λ _, idle (n + Z.of_nat k)) s.
Proof using All.
  revert n s. induction k as [|k IH]; intros n s Hi Hn; [by rewrite Z.add_0_r|]. cbn [tests]. apply fwp_bind.
  eapply fwp_mono; [|apply (test_ok n); [done|lia]]. intros [] s' Hi'. replace (n + Z.of_nat (S k)) with (n + 1 + Z.of_nat k) by lia.
  apply IH; [done|lia].
Qed.

(** ** The program *)

(** The state before the buffers are there. *)
Record fresh (s : state Σ) : Prop := { fresh_calls : testcalls s = 0; fresh_view : linked s; fresh_conf : conforms page (trace s) f0 }.

(** With -L the file is as it was, and the descriptors [0] to [k] are at its beginning. *)
Definition rewound (k : Z) (s : state Σ) : Prop := bytes (ghost s) = bytes f0 ∧ ∀ j, 0 ≤ j < k → pos (ghost s) j = 0.

Lemma fresh_core s s' : core s' = core s → fresh s → fresh s'.
Proof.
  unfold core, linked, ghost. intros E []. injection E as E1 E2 E3 E4 E5 E6 E7. unfold linked, ghost in *.
  split; unfold linked, ghost; by rewrite ?E1, ?E6, ?E7.
Qed.
Lemma rewound_core k s s' : core s' = core s → rewound k s → rewound k s'.
Proof. unfold core, rewound, ghost. intros E H. injection E as E1 E2 E3 E4 E5 E6 E7. by rewrite E7. Qed.

Lemma fresh_sys c a e s : fresh s → (strict → view e = (ref_call page c (ghost s)).2) → agrees page (ghost s) c a →
  fresh (set_env e ((c, a) :: trace s) s).
Proof. intros [] Hv Ha. by split. Qed.

Lemma open_files_ok k i s : fresh s → file_size s = 0 → (lite cfg = true → 0 ≤ i ∧ rewound i s) →
  fwp (open_files cfg k i) (λ _ s', fresh s' ∧ file_size s' = 0 ∧ (lite cfg = true → rewound (i + Z.of_nat k) s')) s.
Proof using Hposix Hlite.
  revert i s. induction k as [|k IH]; intros i s Hf Hs Hw; [by rewrite Z.add_0_r; split_and!; [..|apply Hw]|]. cbn [open_files].
  apply fwp_sys; [apply Hf|]. intros a e Ha _.
  destruct (ret a <? 0) eqn:E; [intros Hst; destruct (Ha Hst) as [-> _]; by destruct (lite cfg)|].
  replace (i + Z.of_nat (S k)) with (i + 1 + Z.of_nat k) by lia.
  apply IH; [apply fresh_sys; [done|apply Ha|by destruct (lite cfg)]|done|]. intros Hl. destruct (Hw Hl) as (Hi & Hb & Hp).
  split; [lia|]. unfold rewound, ghost in *. cbn. rewrite Hl. cbn. split; [done|]. intros j Hj. destruct (Z.eqb_spec j i); [done|]. apply Hp. lia.
Qed.

Lemma tf_range {B} (k : Z → M Σ B) Q s : (∀ fd s', core s' = core s → 0 ≤ fd < num_test_files cfg → fwp (k fd) Q s') → fwp (get_tf random cfg ≫= k) Q s.
Proof using Hcfg.
  intros Hk. pose proof (ok_files _ Hcfg) as Hf. unfold get_tf. destruct (policy cfg).
  - apply fwp_bind, fwp_ret, Hk; [done|]. by apply Z.mod_pos_bound.
  - apply fwp_bind, fwp_get, fwp_modify, fwp_ret, Hk; [done|]. by apply Z.mod_pos_bound.
  - apply fwp_bind. unfold fwp, draw, mbind, M_bind. apply Hk; [done|]. by apply Z.mod_pos_bound.
Qed.

Lemma fill_original_ok k s : ∃ o s', fill_original random k s = Next o s' ∧ length o = k ∧ core s' = core s.
Proof.
  revert s. induction k as [|k IH]; intros s; [by do 2 eexists|]. cbn [fill_original].
  destruct (IH (set_rnd (S (rnd s)) s)) as (o & s' & E & Hl & Hc). exists (random (rnd s) mod 256 :: o), s'.
  unfold mbind, M_bind, draw. rewrite E. split; [done|]. split; [by cbn; f_equal|done].
Qed.

Lemma fwp_truncate {B} fd len (k : answer → M Σ B) Q s : inv s →
  (∀ a s', inv s' → bytes (ghost s') = resize (bytes (ghost s)) len → file_size s' = file_size s → testcalls s' = testcalls s →
    fwp (k a) Q s') → fwp (sys (Ftruncate fd len) ≫= k) Q s.
Proof using Hposix.
  intros Hi Hk. apply fwp_sys; [exact (inv_view _ Hi)|]. intros a e Ha _. apply Hk; [|done..]. by apply inv_sys; [|apply Ha|].
Qed.

Lemma check_trunc_hack_ok s : lite cfg = false → inv s → file_size s = 0 → testcalls s = 0 → fwp (check_trunc_hack random cfg) (λ _, idle 0) s.
Proof using All.
  intros Hnl Hi Hf Hc. unfold check_trunc_hack. apply fwp_aside; [apply aside_tf|]. intros fd s1 E1.
  assert (file_size s1 = 0 ∧ testcalls s1 = 0) as [Hf1 Hc1] by (unfold core in E1; injection E1; intros; split; congruence).
  apply (inv_core _ _ E1) in Hi. clear s E1 Hf Hc.
  apply fwp_truncate; [done|]. intros _ s2 Hi2 _ Hf2 Hc2. apply fwp_truncate; [done|]. intros _ s3 Hi3 Hb3 Hf3 Hc3.
  assert (Hlen : zlength (bytes (ghost s3)) = 100000) by (rewrite Hb3, resize_length; lia).
  apply fwp_sys; [exact (inv_view _ Hi3)|]. intros a e Ha _.
  destruct (Z.eqb_spec (ret a) 100000) as [Hra|Hra]; cbn [negb].
  2:{ intros Hst. apply Hra. destruct (Ha Hst) as [-> _]. exact Hlen. }
  assert (Hi4 : inv (set_env e ((Fstat fd, a) :: trace s3) s3)) by (apply inv_sys; [done|apply Ha|cbn [agrees ref_call fst ret]; lia]).
  apply fwp_truncate; [done|]. intros _ s5 Hi5 Hb5 Hf5 Hc5. cbn [file_size testcalls set_env] in *.
  assert (synced s5) by (unfold synced; rewrite Hb5, Hf5, Hf3, Hf2, Hf1; done).
  apply fwp_ret. split; [split_and!; [done|lia|done|intros _ Hl; congruence]|done].
Qed.

Lemma buffers_inv o s : fresh s → 0 ≤ file_size s ≤ maxfilelen cfg → (lite cfg = true → file_size s = maxfilelen cfg) →
  zlength o = maxfilelen cfg → inv (set_buffers cfg o s).
Proof using Hcfg.
  intros [Hc Hv Hconf] Hf Hl Ho. pose proof (ok_maxoplen _ Hcfg).
  split; cbn; rewrite ?length_replicate; lia || done.
Qed.

Lemma prepare_ok s : (lite cfg = true → zlength (bytes f0) = maxfilelen cfg) → fresh s → file_size s = (if lite cfg then maxfilelen cfg else 0) → (lite cfg = true → rewound (num_test_files cfg) s) →
  fwp (prepare random cfg) (λ _, idle 0) s.
Proof using All.
  intros Hm Hf Hs Hw. unfold prepare. destruct (fill_original_ok (Z.to_nat (maxfilelen cfg)) s) as (o & s1 & E & Hl & Hcore).
  apply fwp_bind. unfold fwp at 1. rewrite E. apply fwp_modify. pose proof (ok_maxfilelen _ Hcfg).
  assert (file_size s1 = file_size s) as Hs1 by (by injection Hcore). apply (fresh_core _ _ Hcore) in Hf.
  assert (Hi : inv (set_buffers cfg o s1)).
  { apply buffers_inv; [done|..|lia]; rewrite Hs1, Hs; clear -H; destruct (lite cfg); done || lia. }
  destruct (bool_dec (lite cfg) true) as [El|El%not_true_is_false]; rewrite El in Hs, Hw |- *; [|apply check_trunc_hack_ok; [done|done|cbn; congruence|apply Hf]].
  apply tf_range. intros fd s2 E2 Hfd. apply (inv_core _ _ E2) in Hi as Hi2. apply fwp_get.
  assert (good_buf s2 = zeros (maxfilelen cfg) ∧ file_size s2 = maxfilelen cfg ∧ testcalls s2 = 0) as (Hg & Hs2 & Hc2).
  { injection E2 as ? ? ? ? ? ? ?. cbn in *. split_and!; [done|lia|by destruct Hf; congruence]. }
  destruct (Hw eq_refl) as [Hb Hp]. assert (ghost s2 = ghost s) as Hgh.
  { unfold ghost. f_equal. injection E2 as ? ? ? ? ? ? ?. injection Hcore as ? ? ? ? ? ? ?. cbn in *. congruence. }
  apply fwp_sys; [exact (inv_view _ Hi2)|]. intros a e Ha _. specialize (Ha (Hlite El)) as [-> Hv].
  assert (Hz : zlength (good_buf s2) = maxfilelen cfg) by (rewrite Hg, zeros_length; lia).
  assert (Hpatch : patch (bytes (ghost s2)) (pos (ghost s2) fd) (good_buf s2) = good_buf s2).
  { rewrite Hgh, Hb, (Hp fd Hfd). apply patch_full. specialize (Hm El). lia. }
  cbn [ref_call fst ret snd] in *. rewrite Hz, Z.eqb_refl. cbn [negb].
  assert (Hi3 : inv (set_env e ((Write fd (good_buf s2), Ans (zlength (good_buf s2)) []) :: trace s2) s2)) by (by apply inv_sys).
  rewrite Hz in Hi3. apply fwp_ret.
  assert (Hsy : synced (set_env e ((Write fd (good_buf s2), Ans (maxfilelen cfg) []) :: trace s2) s2)).
  { unfold synced. cbn. change (replay page (trace s2) f0) with (ghost s2). rewrite Hpatch, Hs2, take_ge; [done|lia]. }
  split; [|done]. split_and!; [done|done|done|]. intros _ _. rewrite Hsy. cbn. rewrite take_ge; lia.
Qed.

Lemma close_files_ok k i n s : idle n s → fwp (close_files cfg k i) (λ _, idle n) s.
Proof using Hposix.
  revert i s. induction k as [|k IH]; intros i s Hi; [done|]. cbn [close_files]. pose proof Hi as [(Hinv & Hn & Hs) Hz].
  apply fwp_sys; [exact (inv_view _ Hinv)|]. intros a e Ha _. apply fwp_check; [intros Hst; by destruct (Ha Hst) as [-> _]|]. intros _.
  apply IH. split; [|done]. split; [by apply inv_sys; [|apply Ha|]|done].
Qed.

(** With -L the program works with the size of the file. *)
Lemma lite_size_ok cfg0 s : cfg = effective cfg0 f0 → fresh s → file_size s = 0 → (lite cfg = true → rewound (num_test_files cfg) s) →
  fwp (lite_size random cfg0) (λ c s', c = cfg ∧ fresh s' ∧ file_size s' = (if lite cfg then maxfilelen cfg else 0) ∧
    (lite cfg = true → rewound (num_test_files cfg) s')) s.
Proof using All.
  intros Ec Hf Hs Hw. assert (lite cfg0 = lite cfg) as El by (rewrite Ec; unfold effective; by destruct (lite cfg0) eqn:?).
  unfold lite_size. rewrite El. destruct (bool_dec (lite cfg) true) as [El1|El1%not_true_is_false]; rewrite El1 in El, Hw |- *; [|apply fwp_ret; split_and!; try done; rewrite Ec; unfold effective; by rewrite El].
  assert (get_tf random cfg0 = get_tf (Σ := Σ) random cfg) as -> by (rewrite Ec; unfold effective; by destruct (lite cfg0)).
  apply tf_range. intros fd s1 E1 Hfd. apply (fresh_core _ _ E1) in Hf. destruct (rewound_core _ _ _ E1 (Hw eq_refl)) as [Hb Hp].
  assert (maxfilelen cfg = zlength (bytes f0)) as Hm by (rewrite Ec; unfold effective; by rewrite El).
  pose proof (ok_maxfilelen _ Hcfg). pose proof (Hlite El1) as Hst.
  apply fwp_sys; [apply Hf|]. intros a e Ha _. destruct (Ha Hst) as [-> Hv]. cbn [ref_call fst ret snd] in *. rewrite Hb, <- Hm in *.
  apply fwp_modify. rewrite (proj2 (Z.eqb_neq _ (-1))) by lia. set (s2 := set_size _ _).
  assert (Hf2 : fresh s2).
  { destruct Hf as [Hc Hl Hcf]. split; [done| |].
    - intros _. unfold ghost. cbn. fold (ghost s1). by rewrite Hb, <- Hm.
    - cbn. split; [|done]. fold (ghost s1). by rewrite Hb. }
  apply fwp_sys; [apply Hf2|]. intros a' e' Ha' _. destruct (Ha' Hst) as [-> Hv']. cbn [ref_call fst ret snd] in *.
  apply fwp_ret. split; [rewrite Hm, Ec; unfold effective; by rewrite El|]. split; [by apply fresh_sys|]. split; [done|]. intros _.
  unfold rewound, ghost. cbn. fold (ghost s1). split; [done|]. intros j Hj. destruct (Z.eqb_spec j fd); [done|]. by apply Hp.
Qed.

Lemma main_ok cfg0 n e : cfg = effective cfg0 f0 → (strict → view e = f0) → Z.of_nat n < 2 ^ 64 →
  fwp (main random cfg0 n) (λ _, idle (Z.of_nat n)) (init e).
Proof using All.
  intros Ec Hv Hn. unfold main. assert (open_test_files cfg0 = open_test_files (Σ := Σ) cfg) as -> by (rewrite Ec; unfold effective; by destruct (lite cfg0)).
  apply fwp_bind. eapply fwp_mono; [|by apply open_files_ok; [done|done|intros _; split; [done|split; [done|intros; lia]]]].
  intros [] s1 (Hf & Hs & Hw). rewrite Z.add_0_l, Z2Nat.id in Hw by (pose proof (ok_files _ Hcfg); lia).
  apply fwp_bind. eapply fwp_mono; [|by apply lite_size_ok]. intros ? s2 (-> & Hf2 & Hs2 & Hw2).
  assert (lite cfg = true → zlength (bytes f0) = maxfilelen cfg) as Hm by (rewrite Ec; unfold effective; destruct (lite cfg0) eqn:Eq; [done|congruence]).
  apply fwp_bind. eapply fwp_mono; [|by apply prepare_ok].
  intros [] s3 Hi. apply fwp_bind. eapply fwp_mono; [|by apply (tests_ok n 0)]. intros [] s4 Hi4. by apply close_files_ok.
Qed.
End logic.

Lemma effective_same cfg f : page_size (effective cfg f) = page_size cfg ∧
  simulatedopcount (effective cfg f) = simulatedopcount cfg ∧ (lite cfg = false → effective cfg f = cfg).
Proof. unfold effective. by destruct (lite cfg). Qed.

(** A correct system is sane. *)
Lemma posix_sane Σ `{!System Σ} page `{!Posix Σ page} : Sane Σ.
Proof.
  split.
  - intros fd n σ Hn. cbv zeta. destruct (view_call (Read fd n) σ) as [-> _]. cbn. unfold slice. rewrite length_take. lia.
  - intros fd d σ. destruct (view_call (Write fd d) σ) as [-> _]. cbn. lia.
  - intros off n σ. cbv zeta. destruct (view_call (MapLoad off n) σ) as [-> _]. cbn. unfold in_map.
    destruct (mapping (view σ)) as [[m len]|]; [|cbn; lia]. destruct (_ && _) eqn:E; [|cbn; lia].
    intros _. cbn [data fst]. rewrite slice_length; lia.
Qed.

(** C8: On a system that behaves like a file, no run of the exerciser fails or is undefined, whatever the random numbers
    are: all the operations are done, the program ends normally and the file has the contents that the exerciser believes
    it has.  The options are in their ranges ([ranges_ok]; accepted command lines give such, by [FsxOpts.options_ranges_ok]), the number
    of operations is one that the int counters can count, and with -L, which works on the file as it is, the file is
    not empty ([lite_empty_file]) and of a size that fits an int. *)
Theorem correct_file_accepted Σ `{!System Σ} (random : nat → Z) cfg `{!Posix Σ (page_size cfg)} n (e : Σ) :
  ranges_ok (effective cfg (view e)) → (∀ i, 0 ≤ random i < 2 ^ 31) → 4 * Z.of_nat n + 1 < 2 ^ 31 →
  ∃ s, main random cfg n (init e) = Next () s ∧ testcalls s = Z.of_nat n ∧
    (simulatedopcount cfg < Z.of_nat n →
     bytes (replay (page_size cfg) (trace s) (view e)) = take (Z.to_nat (file_size s)) (good_buf s)).
Proof.
  intros Hcfg Hr Hn. pose proof (posix_sane Σ (page_size cfg)) as Hsane.
  destruct (effective_same cfg (view e)) as (Ep & Es & _).
  pose proof (main_ok random (effective cfg (view e)) (view e) True view) as H. rewrite Ep in H.
  specialize (H (λ _, view_call) Hsane Hcfg (λ _, I) Hr cfg n e eq_refl (λ _, eq_refl) ltac:(lia)).
  unfold fwp in H. destruct (main random cfg n (init e)) as [[] s|c s|]; [|by destruct H..].
  exists s. destruct H as [(Hi & Hc & Hs & _) _]. unfold synced, ghost in Hs. rewrite Ep, Es in Hs. done.
Qed.

(** C9: Whatever the system is, when a run of the exerciser without -L ends normally, every answer that told it something about the
    file was right: each read, each load from a mapping, each size, each count of bytes written is that of a
    correct file after the calls before it, whatever the file held at first. *)
Theorem wrong_file_detected Σ `{!System Σ} (Hsane : Sane Σ) (random : nat → Z) cfg n (e : Σ) s f0 :
  config_ok cfg → (∀ i, 0 ≤ random i < 2 ^ 31) → 4 * Z.of_nat n + 1 < 2 ^ 31 →
  main random cfg n (init e) = Next () s →
  conforms (page_size cfg) (trace s) f0 ∧ testcalls s = Z.of_nat n.
Proof.
  intros Hcfg Hr Hn E.
  destruct Hcfg as [Hcfg Hl]. assert (Hnl : lite cfg = true → False) by congruence.
  destruct (effective_same cfg f0) as (_ & _ & Ee). specialize (Ee Hl).
  pose proof (main_ok random cfg f0 False (λ _, f0) (False_ind _) Hsane Hcfg Hnl Hr cfg n e (eq_sym Ee) (λ _, eq_refl) ltac:(lia)) as H.
  unfold fwp in H. rewrite E in H. destruct H as [(Hi & Hc & Hs & _) _]. split; [apply Hi|done].
Qed.

(** ** The log *)

(** Logging one operation after the other. *)
Fixpoint log_all {Σ} (l : list (Z * (Z * Z * Z))) : M Σ () :=
  match l with [] => mret () | (op, (a0, a1, a2)) :: l => _ ← log4 op a0 a1 a2; log_all l end.
Definition entry_of (x : Z * (Z * Z * Z)) : log_entry := let '(op, (a0, a1, a2)) := x in Entry op (s32 a0, s32 a1, s32 a2).

(** The log holds the last entries of a history [h], each in its slot. *)
Record ring {Σ} (h : list log_entry) (s : state Σ) : Prop := {
  ring_size : length (oplog s) = Z.to_nat LOGSIZE; ring_count : logcount s = zlength h; ring_ptr : logptr s = zlength h mod LOGSIZE;
  ring_slot j : 0 ≤ j < zlength h → zlength h - LOGSIZE ≤ j → oplog s !! Z.to_nat (j mod LOGSIZE) = h !! Z.to_nat j }.

Lemma mod_inj a b : a mod LOGSIZE = b mod LOGSIZE → a ≤ b < a + LOGSIZE → a = b.
Proof. unfold LOGSIZE. intros. pose proof (Z.div_mod a 1000). pose proof (Z.div_mod b 1000). lia. Qed.

Lemma log4_ring {Σ} (h : list log_entry) op a0 a1 a2 (s : state Σ) : ring h s → zlength h < INT_MAX →
  ∃ s', log4 op a0 a1 a2 s = Next () s' ∧ ring (h ++ [entry_of (op, (a0, a1, a2))]) s'.
Proof.
  intros [Hsz Hc Hp Hslot] Hb. eexists. split; [done|].
  assert (Hm := Z.mod_pos_bound (zlength h) LOGSIZE ltac:(done)).
  split; cbn [oplog logcount logptr set_log]; rewrite ?length_insert, ?length_app; [done|..].
  - rewrite s32_id by (unfold INT_MAX in *; lia). cbn. lia.
  - rewrite Hp, Nat2Z.inj_add. cbn [length]. change (Z.of_nat 1) with 1. unfold LOGSIZE in *.
    pose proof (Z.div_mod (zlength h) 1000). destruct (Z.leb_spec 1000 (zlength h mod 1000 + 1)).
    + apply (Z.mod_unique _ _ (zlength h / 1000 + 1)); lia.
    + apply (Z.mod_unique _ _ (zlength h / 1000)); lia.
  - intros j Hj Hl. cbn [length] in *. rewrite Hp. destruct (decide (j = zlength h)) as [->|Hne].
    + rewrite list_lookup_insert_eq by lia. rewrite lookup_app_r by lia. by rewrite Nat2Z.id, Nat.sub_diag.
    + rewrite list_lookup_insert_ne.
      * rewrite lookup_app_l by lia. apply Hslot; lia.
      * intros E. pose proof (Z.mod_pos_bound j LOGSIZE ltac:(done)).
        apply Hne. apply mod_inj; unfold LOGSIZE in *; lia.
Qed.

Lemma log_all_ring {Σ} (h : list log_entry) l (s : state Σ) : ring h s → zlength h + zlength l ≤ INT_MAX →
  ∃ s', log_all l s = Next () s' ∧ ring (h ++ (entry_of <$> l)) s'.
Proof.
  revert h s. induction l as [|[op [[a0 a1] a2]] l IH]; intros h s Hr Hb; [exists s; by rewrite app_nil_r|].
  cbn [length] in Hb. destruct (log4_ring h op a0 a1 a2 s Hr ltac:(lia)) as (s1 & E & Hr1).
  destruct (IH _ s1 Hr1) as (s' & E' & Hr'); [rewrite length_app; cbn; lia|].
  exists s'. cbn [log_all]. unfold mbind, M_bind. rewrite E. split; [done|]. by rewrite <- app_assoc in Hr'.
Qed.

(** What the loop of logdump prints from slot [j mod LOGSIZE] on. *)
Lemma dump_from_ring {Σ} (h : list log_entry) (s : state Σ) count j c : ring h s → 0 ≤ j → zlength h - LOGSIZE ≤ j →
  j + Z.of_nat count ≤ zlength h →
  (dump_from count (j mod LOGSIZE) c (oplog s)).*2 = take count (drop (Z.to_nat j) h) ∧
  (∀ k x, (dump_from count (j mod LOGSIZE) c (oplog s)).*1 !! k = Some x →
     x = (j + Z.of_nat k) mod LOGSIZE + 1 + c / LOGSIZE * LOGSIZE).
Proof.
  intros Hr. revert j. induction count as [|count IH]; intros j Hj Hl He; [done|]. cbn [dump_from].
  rewrite (ring_slot _ _ Hr) by lia. destruct (lookup_lt_is_Some_2 h (Z.to_nat j)) as [x Hx]; [lia|]. rewrite Hx.
  assert (Hnext : (if j mod LOGSIZE + 1 =? LOGSIZE then 0 else j mod LOGSIZE + 1) = (j + 1) mod LOGSIZE).
  { unfold LOGSIZE. pose proof (Z.div_mod j 1000). pose proof (Z.mod_pos_bound j 1000).
    destruct (Z.eqb_spec (j mod 1000 + 1) 1000); [apply Z.mod_unique with (j / 1000 + 1)|apply Z.mod_unique with (j / 1000)]; lia. }
  rewrite Hnext. destruct (IH (j + 1)) as [IH1 IH2]; [lia..|]. split.
  - rewrite (drop_S _ _ _ Hx). cbn. f_equal. rewrite IH1. do 2 f_equal. lia.
  - intros [|k] y; cbn; [intros [= <-]; by rewrite Z.add_0_r|]. intros Hy. rewrite (IH2 _ _ Hy). by replace (j + 1 + Z.of_nat k) with (j + Z.of_nat (S k)) by lia.
Qed.

(** After any sequence of operations the dump of the log lists the last thousand of them, or all when there are
    fewer, the oldest first.  The number printed for the operation of index [j] is [j + 1] when no multiple of a
    thousand lies between it and the end of the sequence, and is a thousand too large otherwise. *)
Theorem log_dump_last Σ (e : Σ) l : zlength l ≤ INT_MAX →
  ∃ s, log_all l (init e) = Next () s ∧ (logdump s).*2 = drop (length l - Z.to_nat LOGSIZE) (entry_of <$> l) ∧
    ∀ k num, (logdump s).*1 !! k = Some num → let j := Z.of_nat (length l - Z.to_nat LOGSIZE + k) in
      num = j + 1 + (zlength l / LOGSIZE - j / LOGSIZE) * LOGSIZE.
Proof.
  intros Hb. destruct (log_all_ring [] l (init e)) as (s & E & Hr); [by split; [..|intros; cbn in *; lia]|done|].
  cbn [app] in Hr. exists s. split; [done|]. assert (Hlen : zlength (entry_of <$> l) = zlength l) by (by rewrite length_fmap).
  pose proof (ring_count _ _ Hr) as Hc. pose proof (ring_ptr _ _ Hr) as Hp. rewrite Hlen in Hc, Hp.
  set (j0 := Z.of_nat (length l - Z.to_nat LOGSIZE)).
  assert (Hd : logdump s = dump_from (length l - Z.to_nat j0) (j0 mod LOGSIZE) (zlength l) (oplog s)).
  { unfold logdump. rewrite Hc, Hp. destruct (Z.ltb_spec (zlength l) LOGSIZE).
    - assert (j0 = 0) as -> by (unfold j0; lia). f_equal. lia.
    - unfold j0. f_equal; [lia|]. rewrite Nat2Z.inj_sub by lia. rewrite Z2Nat.id by done.
      rewrite <- (Z.mod_add (zlength l - LOGSIZE) 1) by done. f_equal. lia. }
  destruct (dump_from_ring _ s (length l - Z.to_nat j0) j0 (zlength l) Hr) as [H1 H2]; [unfold j0; unfold LOGSIZE; lia..|].
  rewrite Hd. split.
  - rewrite H1. unfold j0. rewrite Nat2Z.id. apply take_ge. rewrite length_drop, length_fmap. lia.
  - intros k num Hk. cbv zeta. rewrite (H2 _ _ Hk). unfold j0. rewrite Nat2Z.inj_add.
    pose proof (Z.div_mod (Z.of_nat (length l - Z.to_nat LOGSIZE) + Z.of_nat k) LOGSIZE). unfold LOGSIZE in *. lia.
Qed.

(** ** A run *)

Definition demo_cfg : config := Config 16 8 1 4 true 1 1 1 0 false true true true FD_ROTATE 2 4.
Definition demo_random (i : nat) : Z := (1103515245 * Z.of_nat i + 12345) / 8 mod 2 ^ 31.
#[local] Instance demo_system : System file := file_system (page_size demo_cfg).
#[local] Instance demo_posix : Posix file (page_size demo_cfg) := file_posix (page_size demo_cfg).
Definition demo_file : file := File [1; 2; 3] (λ _, 0) None.

Lemma demo_ok : config_ok demo_cfg.
Proof. split; [|done]. split; try (cbn; unfold INT_MAX; lia); by exists 2. Qed.
Lemma demo_random_ok i : 0 ≤ demo_random i < 2 ^ 31.
Proof. apply Z.mod_pos_bound. lia. Qed.

(** With -L. *)
Definition lite_cfg : config := Config 16 8 1 4 true 1 1 1 0 true true true true FD_ROTATE 2 4.

Lemma correct_file_accepted_witness :
  (∃ s, main demo_random demo_cfg 12 (init demo_file) = Next () s ∧ testcalls s = 12) ∧
  (∃ s, main demo_random lite_cfg 12 (init demo_file) = Next () s ∧ testcalls s = 12).
Proof.
  split.
  - destruct (correct_file_accepted file demo_random demo_cfg 12 demo_file (ok_ranges _ demo_ok) demo_random_ok ltac:(lia)) as (s & E & Hn & _).
    exists s. split; [exact E|exact Hn].
  - destruct (correct_file_accepted file demo_random lite_cfg 12 demo_file) as (s & E & Hn & _).
    + split; try (cbn; unfold INT_MAX; lia); by exists 2.
    + exact demo_random_ok.
    + lia.
    + exists s. split; [exact E|exact Hn].
Defined.

(** With -L on an empty file the first write divides by zero. *)
Example lite_empty_file : ∃ n, main demo_random lite_cfg n (init (File [] (λ _, 0) None)) = Bad.
Proof. exists 6%nat. vm_compute. reflexivity. Qed.

#[local] Instance demo_sane : Sane file := posix_sane file (page_size demo_cfg).
Lemma wrong_file_detected_witness : ∃ s, main demo_random demo_cfg 14 (init demo_file) = Next () s ∧
  conforms (page_size demo_cfg) (trace s) demo_file ∧ testcalls s = 14.
Proof.
  destruct (main demo_random demo_cfg 14 (init demo_file)) as [[] s|c s|] eqn:E;
    [|exfalso; revert E; vm_compute; discriminate..].
  exists s. split; [reflexivity|].
  exact (wrong_file_detected file demo_sane demo_random demo_cfg 14 demo_file s demo_file demo_ok demo_random_ok ltac:(lia) E).
Defined.

Lemma log_dump_last_witness : ∃ s, log_all (replicate 1000 (OP_READ, (0, 1, 0))) (init ()) = Next () s ∧ length (logdump s).*2 = 1000%nat.
Proof.
  destruct (log_dump_last unit () (replicate 1000 (OP_READ, (0, 1, 0)))) as (s & E & H & _);
    [rewrite length_replicate; unfold INT_MAX; lia|]. exists s. split; [exact E|]. rewrite H. vm_compute. reflexivity.
Defined.

(** The first of a thousand operations is printed as number 1001. *)
Example log_dump_number : match log_all (replicate 1000 (OP_READ, (0, 1, 0))) (init ()) with
  Next _ s => logdump s !! 0%nat | _ => None end = Some (1001, Entry OP_READ (0, 1, 0)).
Proof. vm_compute. reflexivity. Qed.

(** A system that loses the last byte of what is stored through a mapping is found out. *)
Definition lossy : System file := λ c f,
  match c with MapStore off d => ref_call (page_size demo_cfg) (MapStore off (take (length d - 1) d)) f | _ => ref_call (page_size demo_cfg) c f end.
Example lossy_found : match @main file lossy demo_random demo_cfg 40 (init demo_file) with
  Exits c s => c = 110 ∧ testcalls s = 30 | _ => False end.
Proof. vm_compute. done. Qed.

(** The bytes after the first difference are printed too: when the difference is in the
    last byte of the largest read, they are outside of the buffer. *)
Example last_byte_differs : check_loop 2 [5; 6] [5; 7] 0 0 0 0 = Undef.
Proof. reflexivity. Qed.
