(* ===== verification/FsxOpts.v ===== *)
(** * The options of the file system exerciser

    getnum and the loop over the options in main of
    testcases/kernel/fs/fsx-linux/fsx-linux.c, on the results of [getopt].  The names
    of the files for the log and the good data (-P) are not modelled. *)

From S2P Require Import Prelude CInt CMem CString Fsx FsxProof.
Local Open Scope Z_scope.

(** [strtol(s, &end, 0)]: the base is given by a prefix; the value and [end]. *)
Definition base_of (s : cstr) : Z :=
  match (scan_sign (skip_space s)).2 with
  | c :: x :: h :: _ =>
      if c =c "0"%char then if ((x =c "x"%char) || (x =c "X"%char)) && is_base 16 h then 16 else 8 else 10
  | c :: _ => if c =c "0"%char then 8 else 10
  | [] => 10
  end.
Definition strtol0 (s : cstr) : Z * cstr :=
  let '(neg, ds, rest) := scan_number (base_of s) s in
  match ds with
  | [] => (0, s)
  | _ => let v := dval (base_of s) ds in (Z.max LONG_MIN (Z.min LONG_MAX (if neg then - v else v)), rest)
  end.

(** The number, with a unit, and the rest. *)
Definition getnum (s : cstr) : res (Z * cstr) :=
  let '(v, e) := strtol0 s in
  let ret := s32 v in
  match e with
  | c :: e' =>
      if (c =c "b"%char) || (c =c "B"%char) then ret ← ck32 (ret * 512); Ret (ret, e')
      else if (c =c "k"%char) || (c =c "K"%char) then ret ← ck32 (ret * 1024); Ret (ret, e')
      else if (c =c "m"%char) || (c =c "M"%char) then ret ← ck32 (ret * (1024 * 1024)); Ret (ret, e')
      else if (c =c "w"%char) || (c =c "W"%char) then ret ← ck32 (ret * 4); Ret (ret, e')
      else Ret (ret, e)
  | [] => Ret (ret, e)
  end.

(** The variables the options set.  [o_style] is the variable of main, which hides the
    one that test looks at. *)
Record options : Type := Options {
  o_simulatedopcount : Z; o_closeprob : Z; o_debug : Z; o_maxfilelen : Z; o_monitorstart : Z; o_monitorend : Z; o_sizechecks : bool;
  o_maxoplen : Z; o_progressinterval : Z; o_quiet : bool; o_readbdy : Z; o_style : option Z; o_truncbdy : Z; o_writebdy : Z; o_debugstart : Z;
  o_fd_policy : fd_iteration_policy; o_lite : bool; o_numops : Z; o_randomoplen : bool; o_mapped_reads : bool; o_seed : Z; o_mapped_writes : bool }.

Definition defaults : options :=
  Options 0 0 0 (256 * 1024) (-1) (-1) true (64 * 1024) 0 false 1 None 1 1 0 FD_RANDOM false (-1) true true 1 true.

(** [inr code] when the program exits. *)
Abbreviation handled := (res (options + Z)).
Definition usage : handled := Ret (inr 90).

(** [time(0)] is an argument. *)
Definition handle_opt (now : Z) (o : options) (ch : ascii) (optarg : cstr) : handled :=
  let 'Options so cl db ml ms me sc mo pi qu rb st tb wb ds fp li no ro mr se mw := o in
  if ch =c "b"%char then
    n ← getnum optarg;
    if u64 n.1 =? 0 then usage else Ret (inl (Options (u64 n.1 - 1) cl db ml ms me sc mo pi qu rb st tb wb ds fp li no ro mr se mw))
  else if ch =c "c"%char then
    n ← getnum optarg;
    if n.1 <=? 0 then usage else Ret (inl (Options so n.1 db ml ms me sc mo pi qu rb st tb wb ds fp li no ro mr se mw))
  else if ch =c "d"%char then Ret (inl (Options so cl (db + 1) ml ms me sc mo pi qu rb st tb wb ds fp li no ro mr se mw))
  else if ch =c "l"%char then
    n ← getnum optarg;
    if u64 n.1 <=? 0 then usage else Ret (inl (Options so cl db (u64 n.1) ms me sc mo pi qu rb st tb wb ds fp li no ro mr se mw))
  else if ch =c "m"%char then
    n ← getnum optarg;
    if n.1 <? 0 then usage
    else match n.2 with
    | c :: e =>
        if negb (c =c ":"%char) then usage
        else
          m ← getnum e;
          if m.1 <? 0 then usage
          else Ret (inl (Options so cl 1 ml n.1 (if m.1 =? 0 then -1 else m.1) false mo pi qu rb st tb wb ds fp li no ro mr se mw))
    | [] => usage
    end
  else if ch =c "n"%char then Ret (inl (Options so cl db ml ms me false mo pi qu rb st tb wb ds fp li no ro mr se mw))
  else if ch =c "o"%char then
    n ← getnum optarg;
    if n.1 <=? 0 then usage else Ret (inl (Options so cl db ml ms me sc n.1 pi qu rb st tb wb ds fp li no ro mr se mw))
  else if ch =c "p"%char then
    n ← getnum optarg;
    if u64 n.1 <? 0 then usage else Ret (inl (Options so cl db ml ms me sc mo (u64 n.1) qu rb st tb wb ds fp li no ro mr se mw))
  else if ch =c "q"%char then Ret (inl (Options so cl db ml ms me sc mo pi true rb st tb wb ds fp li no ro mr se mw))
  else if ch =c "r"%char then
    n ← getnum optarg;
    if n.1 <=? 0 then usage else Ret (inl (Options so cl db ml ms me sc mo pi qu n.1 st tb wb ds fp li no ro mr se mw))
  else if ch =c "s"%char then
    n ← getnum optarg;
    if (n.1 <? 0) || (1 <? n.1) then usage
    else Ret (inl (Options so cl db ml ms me sc mo pi qu rb (Some n.1) tb wb ds fp li no ro mr se mw))
  else if ch =c "t"%char then
    n ← getnum optarg;
    if n.1 <=? 0 then usage else Ret (inl (Options so cl db ml ms me sc mo pi qu rb st n.1 wb ds fp li no ro mr se mw))
  else if ch =c "w"%char then
    n ← getnum optarg;
    if n.1 <=? 0 then usage else Ret (inl (Options so cl db ml ms me sc mo pi qu rb st tb n.1 ds fp li no ro mr se mw))
  else if ch =c "D"%char then
    n ← getnum optarg;
    if u64 n.1 <? 1 then usage else Ret (inl (Options so cl db ml ms me sc mo pi qu rb st tb wb (u64 n.1) fp li no ro mr se mw))
  else if ch =c "I"%char then
    if bool_decide (optarg = str "random") then Ret (inl (Options so cl db ml ms me sc mo pi qu rb st tb wb ds FD_RANDOM li no ro mr se mw))
    else if bool_decide (optarg = str "rotate") then Ret (inl (Options so cl db ml ms me sc mo pi qu rb st tb wb ds FD_ROTATE li no ro mr se mw))
    else Ret (inr 1)
  else if ch =c "L"%char then Ret (inl (Options so cl db ml ms me sc mo pi qu rb st tb wb ds fp true no ro mr se mw))
  else if ch =c "N"%char then
    n ← getnum optarg;
    if n.1 <? 0 then usage else Ret (inl (Options so cl db ml ms me sc mo pi qu rb st tb wb ds fp li n.1 ro mr se mw))
  else if ch =c "O"%char then Ret (inl (Options so cl db ml ms me sc mo pi qu rb st tb wb ds fp li no false mr se mw))
  else if ch =c "P"%char then Ret (inl o)
  else if ch =c "R"%char then Ret (inl (Options so cl db ml ms me sc mo pi qu rb st tb wb ds fp li no ro false se mw))
  else if ch =c "S"%char then
    n ← getnum optarg;
    let seed := if n.1 =? 0 then now mod 10000 else n.1 in
    if seed <? 0 then usage else Ret (inl (Options so cl db ml ms me sc mo pi qu rb st tb wb ds fp li no ro mr seed mw))
  else if ch =c "W"%char then Ret (inl (Options so cl db ml ms me sc mo pi qu rb st tb wb ds fp li no ro mr se false))
  else usage.

Fixpoint handle_opts (now : Z) (o : options) (l : list (ascii * cstr)) : handled :=
  match l with
  | [] => Ret (inl o)
  | (ch, optarg) :: l => r ← handle_opt now o ch optarg; match r with inl o => handle_opts now o l | inr c => Ret (inr c) end
  end.

(** The options, then at least one file. *)
Definition command_line (now : Z) (l : list (ascii * cstr)) (argc : Z) : handled :=
  r ← handle_opts now defaults l;
  match r with inl o => if argc <? 1 then usage else Ret (inl o) | inr c => Ret (inr c) end.

(** What the tests see. *)
Definition config_of (o : options) (argc page : Z) : config :=
  Config (o_maxfilelen o) (o_maxoplen o) (o_simulatedopcount o) (o_closeprob o) (o_sizechecks o) (o_readbdy o) (o_truncbdy o) (o_writebdy o)
    0 (o_lite o) (o_randomoplen o) (o_mapped_writes o) (o_mapped_reads o) (o_fd_policy o) argc page.

(** ** Accepted options *)

(** The ranges that the options are checked for. *)
Record valid (o : options) : Prop := {
  v_simulated : 0 ≤ o_simulatedopcount o; v_maxfilelen : 0 < o_maxfilelen o; v_maxoplen : 0 < o_maxoplen o; v_readbdy : 0 < o_readbdy o;
  v_truncbdy : 0 < o_truncbdy o; v_writebdy : 0 < o_writebdy o; v_closeprob : 0 ≤ o_closeprob o; v_numops : -1 ≤ o_numops o }.

Ltac step_handled H :=
  match type of H with
  | (?m ≫= _) = Ret _ => let E := fresh "E" in destruct m eqn:E; simpl in H
  | (if ?b then _ else _) = Ret _ => let E := fresh "E" in destruct b eqn:E
  | match ?x with [] => _ | _ => _ end = Ret _ => destruct x
  | usage = Ret _ => discriminate H
  | Ret (inl _) = Ret (inl _) => injection H as <-
  | _ => discriminate H
  end.

Lemma handle_opt_valid now o ch optarg o' : valid o → handle_opt now o ch optarg = Ret (inl o') → valid o'.
Proof.
  intros Hv. destruct o. unfold handle_opt. intros H.
  repeat step_handled H; try done; destruct Hv; split; cbn in *; try lia;
    match goal with |- context [u64 ?x] => pose proof (u64_range x); lia end.
Qed.

Lemma handle_opts_valid now o l o' : valid o → handle_opts now o l = Ret (inl o') → valid o'.
Proof.
  revert o. induction l as [|[ch optarg] l IH]; intros o Hv H; [by injection H as <-|]. cbn [handle_opts] in H.
  destruct (handle_opt now o ch optarg) as [[o1|c]| |] eqn:E; simpl in H; try discriminate.
  apply (IH o1); [|done]. by eapply handle_opt_valid.
Qed.

(** Every accepted command line whose lengths fit an int, with -L on a file that is not empty,
    gives settings in the ranges that the operations need. *)
Lemma options_ranges_ok now l argc o page k f : command_line now l argc = Ret (inl o) →
  (if o_lite o then 0 < zlength (bytes f) ≤ INT_MAX else o_maxfilelen o ≤ INT_MAX) → o_maxoplen o < INT_MAX → 0 ≤ k → page = 2 ^ k →
  ranges_ok (effective (config_of o argc page) f).
Proof.
  intros H Hf Ho Hk Hp. unfold command_line in H.
  destruct (handle_opts now defaults l) as [[o1|c]| |] eqn:E; simpl in H; try discriminate.
  destruct (Z.ltb_spec argc 1); [discriminate|]. injection H as ->.
  destruct (handle_opts_valid now defaults l o) as [? ? ? ? ? ? ? ?]; [by split|done|].
  unfold effective. change (lite (config_of o argc page)) with (o_lite o).
  destruct (o_lite o); split; cbn; (lia || (by left) || (by exists k)).
Qed.

(** A command line that is accepted gives the tests a configuration in which they are defined, when the file may
    change its size and the numbers for the largest file and the largest operation fit their later uses: all sizes
    and boundaries are positive and operations stay inside of the buffers. *)
Theorem options_config_ok now l argc o page k : command_line now l argc = Ret (inl o) →
  o_lite o = false → o_maxfilelen o ≤ INT_MAX → o_maxoplen o < INT_MAX → 0 ≤ k → page = 2 ^ k →
  config_ok (config_of o argc page).
Proof.
  intros H Hl Hf Ho Hk Hp. split; [|done]. pose proof (options_ranges_ok now l argc o page k (File [] (λ _, 0) None) H) as Hr.
  unfold effective in Hr. change (lite (config_of o argc page)) with (o_lite o) in Hr. rewrite Hl in Hr. by apply Hr.
Qed.

Example demo_line : command_line 0 [("l"%char, str "4k"); ("o"%char, str "0x100"); ("N"%char, str "10")] 1 = Ret (inl
  (Options 0 0 0 4096 (-1) (-1) true 256 0 false 1 None 1 1 0 FD_RANDOM false 10 true true 1 true)).
Proof. vm_compute. reflexivity. Qed.

Lemma options_config_ok_witness :
  config_ok (config_of (Options 0 0 0 4096 (-1) (-1) true 256 0 false 1 None 1 1 0 FD_RANDOM false 10 true true 1 true) 1 4096).
Proof. apply (options_config_ok _ _ _ _ 4096 12 demo_line); (reflexivity || done || (unfold INT_MAX; simpl; lia)). Defined.

(** -s changes nothing. *)
Lemma style_ignored now o optarg o' argc page :
  handle_opt now o "s"%char optarg = Ret (inl o') → config_of o' argc page = config_of o argc page.
Proof. destruct o. unfold handle_opt. intros H. repeat step_handled H; done. Qed.

(** A negative length is taken for a very large one. *)
Example negative_length : ∃ o, command_line 0 [("l"%char, str "-1")] 1 = Ret (inl o) ∧ o_maxfilelen o = 2 ^ 64 - 1.
Proof. eexists. split; vm_compute; reflexivity. Qed.

(** A range to monitor turns the checks of the size off. *)
Example monitor_no_checks : ∃ o, command_line 0 [("m"%char, str "0:100")] 1 = Ret (inl o) ∧ o_sizechecks o = false.
Proof. eexists. split; vm_compute; reflexivity. Qed.
