(* ===== verification/CpusetPath.v ===== *)
(** * Paths and lines in libcpuset

    testcases/kernel/controllers/cpuset/cpuset_lib/libcpuset.c: the compression of
    paths in place, the functions that put paths together, and the functions that read
    lines. *)

From S2P Require Import Prelude CInt CMem CString Splitstr.
Local Open Scope Z_scope.

(** ** Path compression *)

Definition slash (m : cstr) (c : Z) : res bool := x ← mem_get m c; Ret (x =c "/"%char).
Definition eocomp (m : cstr) (c : Z) : res bool := x ← mem_get m c; Ret ((x =c "/"%char) || (x =c NUL)).
Definition dot1 (m : cstr) (c : Z) : res bool := x ← mem_get m c; if x =c "."%char then eocomp m (c + 1) else Ret false.

(** [while (slash(++a))]. *)
Fixpoint skip_slashes (fuel : nat) (m : cstr) (a : Z) : res Z :=
  match fuel with
  | O => NoFuel
  | S fuel => s ← slash m (a + 1); if s : bool then skip_slashes fuel m (a + 1) else Ret (a + 1)
  end.

(** [while (!eocomp(a)) *b++ = *a++]: the memory, [a] and [b]. *)
Fixpoint copy_comp (fuel : nat) (m : cstr) (a b : Z) : res (cstr * Z * Z) :=
  match fuel with
  | O => NoFuel
  | S fuel =>
      e ← eocomp m a;
      if e : bool then Ret (m, a, b)
      else x ← mem_get m a; m ← mem_write m b [x]; copy_comp fuel m (a + 1) (b + 1)
  end.

(** The endless loop; [p] is 0. *)
Fixpoint pathcomp_loop (fuel : nat) (m : cstr) (a b : Z) : res cstr :=
  match fuel with
  | O => NoFuel
  | S fuel =>
      a ← (s ← slash m a; if s : bool then skip_slashes (S fuel) m a else Ret a);
      x ← mem_get m a;
      if x =c NUL then
        mb ← (if b =? 0 then m ← mem_write m b ["."%char]; Ret (m, b + 1) else Ret (m, b));
        let '(m, b) := mb in
        mem_write m b [NUL]
      else
        d ← dot1 m a;
        if d : bool then pathcomp_loop fuel m (a + 1) b
        else
          r ← (l ← (if b =? 0 then Ret true else slash m (b - 1));
               mb ← (if l : bool then Ret (m, b) else m ← mem_write m b ["/"%char]; Ret (m, b + 1));
               let '(m, b) := mb in copy_comp (S fuel) m a b);
          let '(m, a, b) := r in
          pathcomp_loop fuel m a b
  end.

Definition pathcomp (m : cstr) : res cstr :=
  x ← mem_get m 0;
  if x =c NUL then Ret m
  else
    s ← slash m 0;
    if s : bool then m ← mem_write m 0 [x]; pathcomp_loop (S (length m)) m 1 1
    else pathcomp_loop (S (length m)) m 0 0.

(** On the array that a snprintf of [t] filled. *)
Definition pathcomp_text (t : cstr) : res cstr := m ← pathcomp (t ++ [NUL]); Ret (as_string m).

Definition pathcat2 (buflen : Z) (name1 name2 : cstr) : res cstr :=
  pathcomp_text (snprintf_cut buflen (name1 ++ str "/" ++ name2)).
Definition pathcat3 (buflen : Z) (name1 name2 name3 : cstr) : res cstr :=
  pathcomp_text (snprintf_cut buflen (name1 ++ str "/" ++ name2 ++ str "/" ++ name3)).

(** ** Lines *)

(** Newlines and carriage returns at the end become zeros. *)
Definition is_eol (c : ascii) : bool := (c =c "010"%char) || (c =c "013"%char).
Definition chomp (s : cstr) : cstr := reverse (span is_eol (reverse s)).2.

Definition streq (s1 s2 : cstr) : bool := bool_decide (s1 = s2).
Definition strprefix (s pre : cstr) : bool := is_prefix pre s.

(** [getc] on what is left of a stream, and [sgetc] on what is left of a string, which
    returns a char: -1 at the end. *)
Definition getc (s : cstr) : Z * cstr := match s with [] => (-1, []) | c :: s => (code c, s) end.
Definition sgetc (s : cstr) : Z * cstr := match s with [] => (-1, []) | c :: s => (s8 (code c), s) end.

Section lgets.
Context (next : cstr → Z * cstr).

(** The first loop, with room for [k] characters: the last value read, what was
    stored, what is left, and whether it was left at a newline. *)
Fixpoint gets_copy (k : nat) (c : Z) (s : cstr) : Z * cstr * cstr * bool :=
  match k with
  | O => (c, [], s, false)
  | S k =>
      let '(c, s) := next s in
      if c <? 0 then (c, [], s, false)
      else if c =? 10 then (c, [], s, true)
      else let '(c', l, s, nl) := gets_copy k c s in (c', chr c :: l, s, nl)
  end.

(** The second loop; every turn takes a character. *)
Fixpoint gets_skip (fuel : nat) (s : cstr) : cstr :=
  match fuel with
  | O => s
  | S fuel => let '(c, s) := next s in if c <? 0 then s else if c =? 10 then s else gets_skip fuel s
  end.

(** The line, or none for the null pointer, and what is left. *)
Definition lgets (buflen : Z) (s : cstr) : option cstr * cstr :=
  let '(c, l, s, nl) := gets_copy (Z.to_nat (buflen - 1)) (-1) s in
  if nl then (Some l, s)
  else if (c <? 0) && bool_decide (l = []) then (None, s)
  else (Some l, if 0 <? c then gets_skip (S (length s)) s else s).
End lgets.

Definition flgets : Z → cstr → option cstr * cstr := lgets getc.
Definition slgets : Z → cstr → option cstr * cstr := lgets sgetc.

(** The lines of a file: flgets until it returns the null pointer.  Every call takes a
    character at least. *)
Fixpoint flines_go (fuel : nat) (buflen : Z) (s : cstr) : list cstr :=
  match fuel with
  | O => []
  | S fuel => match flgets buflen s with (None, _) => [] | (Some l, s) => as_string l :: flines_go fuel buflen s end
  end.
Definition flines (buflen : Z) (s : cstr) : list cstr := flines_go (S (length s)) buflen s.

(** [fgets(buf, n, fp)], the newline kept. *)
Fixpoint fgets_copy (k : nat) (s : cstr) : cstr * cstr :=
  match k, s with
  | O, _ | _, [] => ([], s)
  | S k, c :: s => if c =c "010"%char then ([c], s) else let '(l, s) := fgets_copy k s in (c :: l, s)
  end.
Definition fgets (n : Z) (s : cstr) : option cstr * cstr :=
  if n <=? 0 then (None, s)
  else if n =? 1 then (Some [], s)
  else match s with [] => (None, s) | _ => let '(l, s) := fgets_copy (Z.to_nat (n - 1)) s in (Some l, s) end.

(** A mask is nine characters for each 32 bits. *)
Definition s2nbits (s : cstr) : Z := zlength s * 32 / 9.

(** ** What it computes *)

Definition components (s : cstr) : list cstr := filter (λ w, w ≠ str ".") (strtok_all s (str "/")).

(** A component after what is there already. *)
Definition add_comp (out w : cstr) : cstr :=
  match last out with None => w | Some c => if c =c "/"%char then out ++ w else out ++ "/"%char :: w end.

(** The components with single slashes between them; a leading slash stays, and an
    empty path is a dot. *)
Definition canon (s : cstr) : cstr :=
  match s with
  | [] => []
  | c :: _ =>
      match foldl add_comp (if c =c "/"%char then [c] else []) (components s) with [] => str "." | t => t end
  end.

(** ** Proof *)

Lemma get_at {A} (l : list A) x r n : n = zlength l → mem_get (l ++ x :: r) n = Ret x.
Proof. intros ->. apply mem_get_lookup; [lia|]. rewrite Nat2Z.id. by rewrite lookup_app_r, Nat.sub_diag. Qed.

Lemma put_at {A} (l : list A) x y r n : n = zlength l → mem_write (l ++ x :: r) n [y] = Ret (l ++ y :: r).
Proof.
  intros ->. rewrite mem_write_ok by (rewrite ?length_app; cbn; lia). unfold store. rewrite Nat2Z.id, take_app_length.
  cbn. rewrite drop_app_ge by lia. by replace (length l + 1 - length l)%nat with 1%nat by lia.
Qed.

Definition comp_end (r : cstr) : Prop := match r with [] => True | c :: _ => c = "/"%char end.

(** Slashes, and where they end. *)
Lemma skip_slashes_spec fuel l ss c r : (length ss < fuel)%nat → Forall (λ c, c = "/"%char) ss → c ≠ "/"%char →
  skip_slashes fuel (l ++ "/"%char :: ss ++ c :: r) (zlength l) = Ret (zlength l + 1 + zlength ss).
Proof.
  revert fuel l. induction ss as [|x ss IH]; intros [|fuel] l Hf Hss Hc; try (simpl in Hf; lia).
  - cbn [skip_slashes]. unfold slash. replace (l ++ "/"%char :: [] ++ c :: r) with ((l ++ ["/"%char]) ++ c :: r) by (by rewrite <- app_assoc).
    rewrite get_at by (rewrite length_app; simpl; lia). cbn. destruct (eqc_spec c "/"%char); [done|]. f_equal. lia.
  - inversion Hss as [|? ? -> Hss']; subst. cbn [skip_slashes]. unfold slash.
    replace (l ++ "/"%char :: ("/"%char :: ss) ++ c :: r) with ((l ++ ["/"%char]) ++ "/"%char :: ss ++ c :: r) by (by rewrite <- app_assoc).
    rewrite get_at by (rewrite length_app; simpl; lia). cbn [mbind res_bind]. rewrite eqc_refl. 
    replace (zlength l + 1) with (zlength (l ++ ["/"%char])) by (rewrite length_app; simpl; lia).
    rewrite IH by (done || (simpl in Hf; lia)). f_equal. rewrite length_app. simpl. lia.
Qed.

Definition plain (c : ascii) : Prop := c ≠ "/"%char ∧ c ≠ NUL.

Lemma triple_eq {A B C} (a a' : A) (b b' : B) (c c' : C) : a = a' → b = b' → c = c' → (a, b, c) = (a', b', c').
Proof. congruence. Qed.

(** A component is moved down over what lies between. *)
Lemma copy_comp_spec fuel out junk w e r : (length w < fuel)%nat → Forall plain w → e = "/"%char ∨ e = NUL →
  ∃ junk', length junk' = length junk ∧
    copy_comp fuel (out ++ junk ++ w ++ e :: r) (zlength out + zlength junk) (zlength out) =
    Ret ((out ++ w) ++ junk' ++ e :: r, zlength out + zlength junk + zlength w, zlength out + zlength w).
Proof.
  revert fuel out junk. induction w as [|c w IH]; intros [|fuel] out junk Hf Hw He; try (simpl in Hf; lia).
  - exists junk. split; [done|]. cbn [copy_comp]. unfold eocomp. cbn [app].
    rewrite (app_assoc out junk), get_at by (rewrite length_app; lia). cbn [mbind res_bind].
    assert ((e =c "/"%char) || (e =c NUL) = true) as -> by (by destruct He as [-> | ->]).
    rewrite <- app_assoc, app_nil_r. f_equal. cbn [length]. apply triple_eq; [done|lia|lia].
  - inversion Hw as [|? ? [H1 H2] Hw']; subst. cbn [copy_comp]. unfold eocomp.
    rewrite (app_assoc out junk). cbn [app]. rewrite get_at by (rewrite length_app; lia). cbn [mbind res_bind].
    destruct (eqc_spec c "/"%char); [done|]. destruct (eqc_spec c NUL); [done|]. cbn [orb].
    assert (∃ junk1, length junk1 = length junk ∧ mem_write ((out ++ junk) ++ c :: w ++ e :: r) (zlength out) [c] =
      Ret ((out ++ [c]) ++ junk1 ++ w ++ e :: r)) as (junk1 & L1 & ->).
    { destruct junk as [|x junk].
      - exists []. rewrite app_nil_r, put_at by done. by rewrite <- app_assoc.
      - exists (junk ++ [c]). split; [rewrite length_app; simpl; lia|]. rewrite <- app_assoc. cbn [app].
        rewrite put_at by done. f_equal. rewrite <- !app_assoc. done. }
    cbn [mbind res_bind]. destruct (IH fuel (out ++ [c]) junk1) as (junk' & L' & E); [simpl in Hf; lia|done|done|].
    exists junk'. split; [lia|]. rewrite length_app in E. cbn [length] in E.
    replace (zlength out + zlength junk + 1) with (Z.of_nat (length out + 1) + zlength junk1) by lia.
    replace (zlength out + 1) with (Z.of_nat (length out + 1)) by lia. rewrite E. rewrite <- (app_assoc out). cbn [app length].
    f_equal. apply triple_eq; [done|lia|lia].
Qed.

Lemma plain_mem w : Forall plain w → Forall (λ c, mem c (str "/") = false) w.
Proof. intros Hw. eapply Forall_impl; [exact Hw|]. intros c [H _]. cbn. by destruct (eqc_spec c "/"%char). Qed.

Lemma components_slashes ss s : Forall (λ c, c = "/"%char) ss → components (ss ++ s) = components s.
Proof. intros Hss. unfold components, strtok_all. rewrite strtok_go_seps; [done|]. eapply Forall_impl; [done|]. by intros ? ->. Qed.

Lemma strtok_comp w r : w ≠ [] → Forall plain w → comp_end r → strtok_all (w ++ r) (str "/") = w :: strtok_all r (str "/").
Proof.
  intros Hne Hw Hr. unfold strtok_all. destruct r as [|c r].
  - rewrite strtok_go_word by (by apply plain_mem). rewrite app_nil_r. cbn. destruct (reverse w) eqn:E; [|by rewrite <- E, reverse_involutive].
    apply (f_equal reverse) in E. by rewrite reverse_involutive in E.
  - cbn in Hr. subst c. rewrite strtok_word by (done || by apply plain_mem). done.
Qed.

Lemma components_word w r : w ≠ [] → w ≠ str "." → Forall plain w → comp_end r → components (w ++ r) = w :: components r.
Proof. intros. unfold components. rewrite strtok_comp by done. by rewrite filter_cons_True. Qed.

Lemma components_dot r : comp_end r → components (str "." ++ r) = components r.
Proof.
  intros. unfold components. rewrite strtok_comp; [by rewrite filter_cons_False by auto|done| |done].
  repeat constructor; done.
Qed.

Lemma as_string_cut t r : nonul t → as_string (t ++ NUL :: r) = t.
Proof.
  intros Ht. unfold as_string. rewrite span_app; [done| |done]. eapply Forall_impl; [exact Ht|]. by intros c ->.
Qed.

Lemma add_comp_nonul out w : nonul out → nonul w → nonul (add_comp out w).
Proof.
  intros Ho Hw. unfold add_comp. destruct (last out); [|done]. case_match; apply Forall_app; split; try done. by constructor.
Qed.

Lemma plain_nonul w : Forall plain w → nonul w.
Proof. intros Hw. eapply Forall_impl; [exact Hw|]. intros c [_ H]. by destruct (eqc_spec c NUL). Qed.

(** The end of the loop: the output is cut off behind it. *)
Lemma pathcomp_end out junk r : nonul out → (out = [] → junk ≠ []) →
  ∃ m', (mb ← (if zlength out =? 0 then m ← mem_write (out ++ junk ++ NUL :: r) (zlength out) ["."%char]; Ret (m, zlength out + 1)
               else Ret (out ++ junk ++ NUL :: r, zlength out)); let '(m, b) := mb in mem_write m b [NUL]) = Ret m' ∧
    as_string m' = match out with [] => str "." | _ => out end.
Proof.
  intros Ho Hj. destruct out as [|c out].
  - destruct junk as [|x junk]; [by destruct Hj|]. pose proof (put_at [] x "."%char (junk ++ NUL :: r) 0 eq_refl) as E.
    cbn [length app] in *. change (Z.of_nat 0) with 0. rewrite Z.eqb_refl, E. cbn [mbind res_bind].
    destruct junk as [|y junk]; cbn [app]; (eexists; split; [apply (put_at ["."%char]); done|by rewrite (as_string_cut ["."%char]) by (by constructor)]).
  - rewrite (proj2 (Z.eqb_neq _ _)) by (cbn; lia). cbn [mbind res_bind].
    destruct junk as [|y junk]; cbn [app]; (eexists; split; [apply (put_at (c :: out)); done|by apply (as_string_cut (c :: out))]).
Qed.

(** A path from a component on, after the slashes. *)
Lemma split_comp rest : nonul rest → ∃ ss rest1, rest = ss ++ rest1 ∧ Forall (λ c, c = "/"%char) ss ∧
  match rest1 with [] => True | c :: _ => c ≠ "/"%char end.
Proof.
  intros _. exists (span (λ c, c =c "/"%char) rest).1, (span (λ c, c =c "/"%char) rest).2. split; [by rewrite span_eq|]. split.
  - eapply Forall_impl; [apply span_all|]. intros c H. by apply Ascii.eqb_eq in H.
  - pose proof (span_stop (λ c, c =c "/"%char) rest) as H. destruct (span _ rest).2; [done|]. intros ->. done.
Qed.

Lemma split_word c r : nonul (c :: r) → c ≠ "/"%char → ∃ w r', c :: r = w ++ r' ∧ w ≠ [] ∧ Forall plain w ∧ comp_end r' ∧ head w = Some c.
Proof.
  intros Hn Hc. set (p := λ c, negb (c =c "/"%char)). exists (span p (c :: r)).1, (span p (c :: r)).2.
  split; [by rewrite span_eq|]. assert (p c = true) as Hp by (unfold p; by destruct (eqc_spec c "/"%char)).
  split; [cbn; rewrite Hp; by destruct (span p r)|]. split.
  - assert (nonul (span p (c :: r)).1) as Hw by (rewrite <- (span_eq p (c :: r)) in Hn; by apply Forall_app in Hn as [? _]).
    pose proof (span_all p (c :: r)) as Ha. unfold nonul in Hw. rewrite Forall_forall in *. intros x Hx. specialize (Hw x Hx). specialize (Ha x Hx).
    unfold p in Ha. split; intros ->; done.
  - split; [|cbn; rewrite Hp; by destruct (span p r)].
    pose proof (span_stop p (c :: r)) as H. destruct (span p (c :: r)).2 as [|x ?]; [done|]. cbn. unfold p in H. by destruct (eqc_spec x "/"%char).
Qed.

(** The slashes at the top of the loop. *)
Lemma skip_top fuel out junk ss e r : (length ss ≤ fuel)%nat → Forall (λ c, c = "/"%char) ss → e ≠ "/"%char →
  (s ← slash (out ++ junk ++ ss ++ e :: r) (zlength out + zlength junk);
   if s : bool then skip_slashes (S fuel) (out ++ junk ++ ss ++ e :: r) (zlength out + zlength junk)
   else Ret (zlength out + zlength junk)) = Ret (zlength out + zlength (junk ++ ss)).
Proof.
  intros Hf Hss He. rewrite (app_assoc out junk). unfold slash. destruct ss as [|x ss].
  - cbn [app]. rewrite get_at by (rewrite length_app; lia). cbn [mbind res_bind]. destruct (eqc_spec e "/"%char); [done|].
    by rewrite app_nil_r.
  - inversion Hss as [|? ? -> Hss']; subst. cbn [app]. rewrite get_at by (rewrite length_app; lia). cbn [mbind res_bind].
    rewrite eqc_refl. replace (zlength out + zlength junk) with (zlength (out ++ junk)) by (rewrite length_app; lia).
    rewrite skip_slashes_spec by (done || (simpl in Hf; lia)). f_equal. rewrite !length_app. simpl. lia.
Qed.

(** A component: a slash before it when there must be one, then its characters. *)
Lemma put_comp fuel out junk w e r : (length w ≤ fuel)%nat → Forall plain w → e = "/"%char ∨ e = NUL →
  (∀ c, last out = Some c → c ≠ "/"%char → junk ≠ []) →
  ∃ junk', (l ← (if zlength out =? 0 then Ret true else slash (out ++ junk ++ w ++ e :: r) (zlength out - 1));
     mb ← (if l : bool then Ret (out ++ junk ++ w ++ e :: r, zlength out)
           else m ← mem_write (out ++ junk ++ w ++ e :: r) (zlength out) ["/"%char]; Ret (m, zlength out + 1));
     let '(m, b) := mb in copy_comp (S fuel) m (zlength out + zlength junk) b) =
   Ret (add_comp out w ++ junk' ++ e :: r, zlength (add_comp out w) + zlength junk', zlength (add_comp out w)).
Proof.
  intros Hf Hw He Hj. unfold add_comp. destruct out as [|c out _] using rev_ind.
  - cbn [length last]. change (Z.of_nat 0 =? 0) with true. cbn [mbind res_bind app].
    destruct (copy_comp_spec (S fuel) [] junk w e r) as (j & L & E); [lia|done|done|]. cbn [length app] in E.
    exists j. cbn [app]. rewrite E. f_equal. apply triple_eq; [done|lia|lia].
  - rewrite last_snoc. rewrite length_app. cbn [length]. rewrite (proj2 (Z.eqb_neq _ _)) by lia. unfold slash.
    assert (Em : ∀ t, (out ++ [c]) ++ t = out ++ c :: t) by (intros; by rewrite <- app_assoc).
    rewrite (Em (junk ++ w ++ e :: r)). rewrite get_at by lia. cbn [mbind res_bind]. destruct (eqc_spec c "/"%char) as [->|Hc].
    + destruct (copy_comp_spec (S fuel) (out ++ ["/"%char]) junk w e r) as (j & L & E); [lia|done|done|].
      rewrite <- !app_assoc, length_app in E. cbn [app length] in E. exists j. cbn [mbind res_bind]. rewrite E. f_equal.
      rewrite <- !app_assoc. cbn [app]. apply triple_eq; [done|rewrite !length_app; cbn [length]; lia|rewrite !length_app; cbn [length]; lia].
    + destruct junk as [|x junk]; [by destruct (Hj c); rewrite ?last_snoc|].
      change (out ++ c :: (x :: junk) ++ w ++ e :: r) with (out ++ [c] ++ x :: junk ++ w ++ e :: r). rewrite app_assoc.
      rewrite put_at by (rewrite length_app; cbn; lia). cbn [mbind res_bind].
      destruct (copy_comp_spec (S fuel) ((out ++ [c]) ++ ["/"%char]) junk w e r) as (j & L & E); [lia|done|done|].
      exists j. rewrite <- (app_assoc _ ["/"%char]) in E. cbn [app] in E. rewrite !length_app in E. cbn [length] in *.
      replace (Z.of_nat (length out + 1) + Z.of_nat (S (length junk))) with (Z.of_nat (length out + 1 + 1) + zlength junk) by lia.
      replace (Z.of_nat (length out + 1) + 1) with (Z.of_nat (length out + 1 + 1)) by lia. rewrite E. f_equal.
      rewrite <- !app_assoc. cbn [app]. apply triple_eq; [done|rewrite !length_app; cbn [length]; lia|rewrite !length_app; cbn [length]; lia].
Qed.

(** Whether the component is a dot. *)
Lemma dot1_spec l w e r : w ≠ [] → Forall plain w → e = "/"%char ∨ e = NUL →
  dot1 (l ++ w ++ e :: r) (zlength l) = Ret (bool_decide (w = str ".")).
Proof.
  intros Hne Hw He. unfold dot1. destruct w as [|c w]; [done|]. cbn [app]. rewrite get_at by done. cbn [mbind res_bind].
  destruct (eqc_spec c "."%char) as [->|Hc]; [|rewrite bool_decide_false; [done|cbn; congruence]].
  unfold eocomp. change (l ++ "."%char :: w ++ e :: r) with (l ++ ["."%char] ++ w ++ e :: r). rewrite app_assoc.
  destruct w as [|c w]; cbn [app].
  - rewrite get_at by (rewrite length_app; cbn; lia). cbn [mbind res_bind]. by destruct He as [-> | ->].
  - rewrite get_at by (rewrite length_app; cbn; lia). cbn [mbind res_bind]. inversion Hw as [|? ? _ Hw1]; subst. inversion Hw1 as [|? ? [H1 H2] _]; subst.
    destruct (eqc_spec c "/"%char); [done|]. destruct (eqc_spec c NUL); [done|]. by rewrite bool_decide_false.
Qed.

Lemma pathcomp_loop_spec fuel out junk rest tl : (length rest < fuel)%nat → nonul rest → nonul out →
  (∀ c, last out = Some c → c ≠ "/"%char → comp_end rest) → (out = [] → junk ++ rest ≠ []) →
  ∃ m', pathcomp_loop fuel (out ++ junk ++ rest ++ NUL :: tl) (zlength out + zlength junk) (zlength out) = Ret m' ∧
    as_string m' = match foldl add_comp out (components rest) with [] => str "." | t => t end.
Proof.
  revert out junk rest. induction fuel as [|fuel IH]; intros out junk rest Hf Hn Ho Hlast Hne; [lia|].
  destruct (split_comp rest Hn) as (ss & rest1 & -> & Hss & Hrest1). apply Forall_app in Hn as [_ Hn1].
  rewrite length_app in Hf. rewrite components_slashes by done. cbn [pathcomp_loop]. rewrite <- (app_assoc ss).
  destruct rest1 as [|c r1].
  - cbn [app]. rewrite skip_top by (done || lia). cbn [mbind res_bind].
    rewrite !app_assoc, get_at by (rewrite !length_app; lia). cbn [mbind res_bind]. rewrite eqc_refl, <- !app_assoc.
    rewrite (app_assoc junk). destruct (pathcomp_end out (junk ++ ss) tl Ho) as (m' & E & Es); [intros ->; by rewrite app_nil_r in Hne; apply Hne|].
    exists m'. split; [exact E|]. rewrite Es. by destruct out.
  - cbn [app]. rewrite skip_top by (done || lia). cbn [mbind res_bind].
    destruct (split_word c r1 Hn1 Hrest1) as (w & r & Ew & Hwne & Hw & Hr & Hh).
    set (e := match r with [] => NUL | x :: _ => x end). set (r' := match r with [] => tl | _ :: r0 => r0 ++ NUL :: tl end).
    assert (He : e = "/"%char ∨ e = NUL) by (unfold e; destruct r; [by right|by left]).
    assert (Em : c :: r1 ++ NUL :: tl = w ++ e :: r').
    { change (c :: r1 ++ NUL :: tl) with ((c :: r1) ++ NUL :: tl). rewrite Ew, <- app_assoc. unfold e, r'. by destruct r. }
    assert (Er : e :: r' = r ++ NUL :: tl) by (unfold e, r'; by destruct r).
    rewrite Ew in *. rewrite length_app in Hf. apply Forall_app in Hn1 as [Hnw Hnr]. assert (length w ≠ 0%nat) by (by destruct w).
    rewrite Em. assert (Hg : mem_get (out ++ junk ++ ss ++ w ++ e :: r') (zlength out + zlength (junk ++ ss)) = Ret c).
    { destruct w as [|c' w]; [done|]. injection Hh as ->. cbn [app]. rewrite !app_assoc. apply get_at. rewrite !length_app. lia. }
    rewrite Hg. cbn [mbind res_bind]. destruct (eqc_spec c NUL) as [->|_].
    { destruct w; [done|]. injection Hh as ->. inversion Hw as [|? ? [? ?] ?]; subst. done. }
    replace (out ++ junk ++ ss ++ w ++ e :: r') with ((out ++ junk ++ ss) ++ w ++ e :: r') by (by rewrite <- !app_assoc).
    replace (zlength out + zlength (junk ++ ss)) with (zlength (out ++ junk ++ ss)) by (rewrite !length_app; lia).
    rewrite dot1_spec by done. cbn [mbind res_bind]. destruct (bool_decide_reflect (w = str ".")) as [->|Hdot].
    + rewrite components_dot by done. rewrite Er. cbn [str String.list_ascii_of_string app].
      destruct (IH out (junk ++ ss ++ ["."%char]) r) as (m' & E & Es); [lia|done|done|by intros|by intros _; rewrite <- !app_assoc; destruct junk; [destruct ss|]|].
      exists m'. rewrite <- E. split; [|done]. f_equal; [by rewrite <- !app_assoc|]. rewrite !length_app. cbn [length]. lia.
    + rewrite components_word by done. cbn [foldl].
      destruct (put_comp fuel out (junk ++ ss) w e r') as (j & E); [lia|done|done| |].
      { intros x Hx Hxs Hj. apply app_eq_nil in Hj as [-> ->]. specialize (Hlast x Hx Hxs). cbn in Hlast.
        destruct w; [done|]. cbn in Hlast. by injection Hh as ->. }
      replace ((out ++ junk ++ ss) ++ w ++ e :: r') with (out ++ (junk ++ ss) ++ w ++ e :: r') by (by rewrite <- !app_assoc).
      replace (zlength (out ++ junk ++ ss)) with (zlength out + zlength (junk ++ ss)) by (rewrite !length_app; lia).
      rewrite E. cbn [mbind res_bind]. rewrite Er. apply IH; [lia|done|by apply add_comp_nonul|by intros|].
      intros Hnil. exfalso. clear -Hnil Hwne. unfold add_comp in Hnil. destruct (last out); [|done]. case_match; by destruct out.
Qed.

(** ** Compressing again *)

Lemma strtok_go_sep sep cur x y c : mem c sep = true → strtok_go sep cur (x ++ c :: y) = strtok_go sep cur x ++ strtok_go sep [] y.
Proof.
  intros Hc. revert cur. induction x as [|d x IH]; intros cur; cbn.
  - rewrite Hc. by destruct cur.
  - destruct (mem d sep); [|apply IH]. destruct cur; cbn; by rewrite IH.
Qed.

Lemma strtok_plain w : w ≠ [] → Forall plain w → strtok_all w (str "/") = [w].
Proof. intros. rewrite <- (app_nil_r w) at 1. by rewrite strtok_comp. Qed.

Lemma components_add out w : w ≠ [] → w ≠ str "." → Forall plain w → components (add_comp out w) = components out ++ [w].
Proof.
  intros Hne Hd Hw. unfold add_comp, components. destruct out as [|c out _] using rev_ind.
  - cbn [last]. rewrite strtok_plain by done. by rewrite filter_cons_True.
  - rewrite last_snoc. destruct (eqc_spec c "/"%char) as [->|Hc].
    + rewrite <- app_assoc. cbn [app]. unfold strtok_all. rewrite !strtok_go_sep by done. fold (strtok_all w (str "/")).
      rewrite strtok_plain by done. cbn [strtok_go]. rewrite app_nil_r, filter_app. by rewrite filter_cons_True.
    + unfold strtok_all. rewrite strtok_go_sep by done. fold (strtok_all w (str "/")).
      rewrite strtok_plain by done. rewrite filter_app. by rewrite filter_cons_True.
Qed.

Definition comp_ok (w : cstr) : Prop := w ≠ [] ∧ w ≠ str "." ∧ Forall plain w.

Lemma strtok_go_nonul sep cur s w : nonul s → nonul cur → w ∈ strtok_go sep cur s → nonul w.
Proof.
  intros Hs. revert cur. induction Hs as [|c s Hc Hs IH]; intros cur H0 Hw; cbn [strtok_go] in Hw.
  - destruct cur; [by apply elem_of_nil in Hw|]. apply list_elem_of_singleton in Hw as ->. by apply Forall_reverse.
  - destruct (mem c sep); [|eapply IH; [|exact Hw]; by constructor]. destruct cur; [by eapply IH|].
    apply elem_of_cons in Hw as [->|Hw]; [by apply Forall_reverse|eapply IH; [|exact Hw]; constructor].
Qed.

Lemma components_ok s : nonul s → Forall comp_ok (components s).
Proof.
  intros Hs. unfold components. apply Forall_forall. intros w Hw. apply list_elem_of_filter in Hw as [Hd Hw].
  pose proof (strtok_go_tokens (str "/") [] s (Forall_nil_2 _)) as Ht. rewrite Forall_forall in Ht. destruct (Ht w Hw) as [Hne Hm].
  assert (Hn : nonul w) by (by eapply strtok_go_nonul; [exact Hs| |exact Hw]; constructor).
  split; [done|]. split; [done|]. unfold nonul in Hn. rewrite Forall_forall in *. intros c Hc. specialize (Hn c Hc). specialize (Hm c Hc).
  split; intros ->; [|by rewrite eqc_refl in Hn]. done.
Qed.

Lemma components_foldl out cs : Forall comp_ok cs → components (foldl add_comp out cs) = components out ++ cs.
Proof.
  intros Hcs. induction cs as [|w cs IH] using rev_ind; [by rewrite app_nil_r|].
  apply Forall_app in Hcs as [Hcs Hw]. inversion Hw as [|? ? (H1 & H2 & H3) _]; subst.
  rewrite foldl_app. cbn [foldl]. rewrite components_add by done. by rewrite IH, app_assoc.
Qed.

Lemma foldl_add_head c out cs : Forall comp_ok cs → head (foldl add_comp (c :: out) cs) = Some c.
Proof.
  intros Hcs. induction cs as [|w cs IH] using rev_ind; [done|]. apply Forall_app in Hcs as [Hcs _].
  rewrite foldl_app. cbn [foldl]. specialize (IH Hcs). destruct (foldl add_comp (c :: out) cs) as [|x t]; [done|].
  injection IH as ->. unfold add_comp. destruct (last (c :: t)) eqn:El; [by case_match|by apply last_None in El].
Qed.

Lemma foldl_add_nonul out cs : nonul out → Forall comp_ok cs → nonul (foldl add_comp out cs).
Proof.
  intros Ho Hcs. revert out Ho. induction Hcs as [|w cs (_ & _ & Hw) Hcs IH]; intros out Ho; [done|]. cbn [foldl].
  apply IH, add_comp_nonul; [done|by apply plain_nonul].
Qed.

Lemma canon_nonul s : nonul s → nonul (canon s).
Proof.
  intros Hs. pose proof (components_ok s Hs). unfold canon. destruct s as [|c s]; [constructor|].
  assert (Hn : nonul (foldl add_comp (if c =c "/"%char then [c] else []) (components (c :: s)))).
  { apply foldl_add_nonul; [|done]. case_if; [|constructor]. inversion Hs; by constructor. }
  destruct (foldl _ _ _); [by repeat constructor|done].
Qed.

Lemma canon_idemp s : nonul s → canon (canon s) = canon s.
Proof.
  intros Hs. pose proof (components_ok s Hs) as Hcs. unfold canon at 2 3. destruct s as [|c s]; [done|].
  remember (components (c :: s)) as cs eqn:Ecs. destruct (eqc_spec c "/"%char) as [->|Hc].
  - pose proof (foldl_add_head "/"%char [] cs Hcs) as Hh. pose proof (components_foldl ["/"%char] cs Hcs) as Hc.
    destruct (foldl add_comp ["/"%char] cs) as [|x t] eqn:E; [done|]. injection Hh as ->. unfold canon. rewrite eqc_refl, Hc. cbn [app].
    change (components ["/"%char] ++ cs) with cs. by rewrite E.
  - destruct cs as [|w cs]; [done|]. inversion Hcs as [|? ? (H1 & H2 & H3) Hcs']; subst. cbn [foldl]. change (add_comp [] w) with w.
    destruct w as [|x w]; [done|]. pose proof (foldl_add_head x w cs Hcs') as Hh. pose proof (components_foldl (x :: w) cs Hcs') as Hcf.
    destruct (foldl add_comp (x :: w) cs) as [|y t] eqn:E; [done|]. injection Hh as ->. unfold canon.
    assert ((x =c "/"%char) = false) as -> by (inversion H3 as [|? ? [? ?] _]; subst; by destruct (eqc_spec x "/"%char)).
    rewrite Hcf. unfold components at 1. rewrite strtok_plain by done. rewrite filter_cons_True by done. cbn [app foldl filter list_filter].
    change (add_comp [] (x :: w)) with (x :: w). by rewrite E.
Qed.

Lemma pathcomp_canon s tl : nonul s → ∃ m', pathcomp (s ++ NUL :: tl) = Ret m' ∧ as_string m' = canon s.
Proof.
  intros Hs. unfold pathcomp, canon. destruct s as [|c s]; [exists (NUL :: tl); done|].
  assert (Hc : (c =c NUL) = false) by (by inversion Hs). cbn [app]. unfold slash.
  change (c :: s ++ NUL :: tl) with ([] ++ c :: (s ++ NUL :: tl)). rewrite !get_at by done. cbn [mbind res_bind]. rewrite Hc.
  destruct (eqc_spec c "/"%char) as [->|Hne].
  - rewrite put_at by done. cbn [mbind res_bind app]. 
    destruct (pathcomp_loop_spec (S (length ("/"%char :: s ++ NUL :: tl))) ["/"%char] [] s tl) as (m' & E & Es);
      [cbn; rewrite length_app; lia|by inversion Hs|by repeat constructor|by intros ? [= <-]|done|].
    exists m'. split; [exact E|]. rewrite Es. change ("/"%char :: s) with (["/"%char] ++ s). by rewrite components_slashes by (by repeat constructor).
  - destruct (pathcomp_loop_spec (S (length (c :: s ++ NUL :: tl))) [] [] (c :: s) tl) as (m' & E & Es);
      [cbn; rewrite length_app; lia|done|by constructor|done|done|].
    exists m'. split; [exact E|]. exact Es.
Qed.

Lemma pathcomp_text_canon t : nonul t → pathcomp_text t = Ret (canon t).
Proof. intros Ht. unfold pathcomp_text. destruct (pathcomp_canon t [] Ht) as (m & -> & E). cbn. by rewrite E. Qed.

(** Compressing a path in place, with any path in the buffer, stays inside of it and leaves the path of its
    components: single slashes between them, no components that are a dot, a leading slash kept, a dot where no
    component is left (an empty path stays empty).  The result does not change when it is compressed again. *)
Theorem pathcomp_spec s tl : nonul s →
  (∃ m', pathcomp (s ++ NUL :: tl) = Ret m' ∧ as_string m' = canon s) ∧ canon (canon s) = canon s.
Proof. intros Hs. split; [by apply pathcomp_canon|by apply canon_idemp]. Qed.

Lemma pathcomp_spec_witness : canon (str "//dev/./cpuset//a/") = str "/dev/cpuset/a" ∧
  canon (canon (str "//dev/./cpuset//a/")) = canon (str "//dev/./cpuset//a/").
Proof. split; [reflexivity|]. apply (pathcomp_spec (str "//dev/./cpuset//a/") []). by repeat constructor. Defined.
