(* ===== verification/Cpuset.v ===== *)
(** * The cpuset library

    testcases/kernel/controllers/cpuset/cpuset_lib/libcpuset.c.  The kernel behind the
    calls is arbitrary: a type with a function that answers calls.  The streams of
    stdio read their file to the end at once, a directory or a hierarchy is read when
    it is opened, and memory can always be had.  The locks of get_map and
    cpuset_cpumemdist are not modelled, nor are memory policies for a machine
    without them. *)

From S2P Require Import Prelude CInt CMem CString Bitmask BitmaskText Splitstr CpusetPath.
Local Open Scope Z_scope.

(** ** System calls *)

Record file_stat : Type := FileStat { st_ino : Z; st_dev : Z; st_mtime : Z; st_dir : bool }.

Inductive fts_info : Type := FTS_D | FTS_DNR | FTS_OTHER.
Record ftsent : Type := FtsEnt { fts_path : cstr; fts_kind : fts_info; fts_errno : Z }.

(** A sum is an error number or the result. *)
Inductive call : Set → Type :=
| Stat (path : cstr) : call (Z + file_stat)
| OpenRead (path : cstr) : call (Z + Z)
| OpenWrite (path : cstr) : call (Z + Z)
| Read (fd n : Z) : call (Z + cstr)
| Pread (fd n off : Z) : call (Z + cstr)
| Write (fd : Z) (d : cstr) : call (Z + Z)
| Close (fd : Z) : call unit
| Fopen (path : cstr) : call (Z + Z)
| Fread (fp : Z) : call cstr
| Fclose (fp : Z) : call unit
| Opendir (path : cstr) : call (Z + list cstr)
| FtsOpen (path : cstr) : call (Z + list ftsent)
| Mkdir (path : cstr) (mode : Z) : call (Z + unit)
| Rmdir (path : cstr) : call (Z + unit)
| Mkstemp (template : cstr) : call (Z + Z * cstr)
| Fdopen (fd : Z) : call (Z + Z)
| Fwrite (fp : Z) (d : cstr) : call unit
| Utime (path : cstr) (mtime : Z) : call (Z + unit)
| Rename (from to : cstr) : call (Z + unit)
| Chmod (path : cstr) (mode : Z) : call (Z + unit)
| Unlink (path : cstr) : call (Z + unit)
| Time : call Z
| Getpid : call Z
| Kill (pid sig : Z) : call (Z + unit)
| Sleep (secs : Z) : call Z
| Uname : call (Z + cstr * cstr)
| SetAffinity (pid len : Z) (mask : list Z) : call (Z + unit)
| SetMempolicy (mode : Z) (mask : list Z) (maxnode : Z) : call (Z + unit)
| GetMempolicy (addr : Z) : call (Z + Z).

Class Kernel (Σ : Type) : Type := answer : ∀ A : Set, call A → Σ → A * Σ.

Definition ENOENT : Z := 2.
Definition ESRCH : Z := 3.
Definition ENXIO : Z := 6.
Definition E2BIG : Z := 7.
Definition ENODEV : Z := 19.
Definition EINVAL : Z := 22.
Definition ENOSYS : Z := 38.
Definition ENOTEMPTY : Z := 39.
Definition ETIME : Z := 62.
Definition SIGKILL : Z := 9.
Definition PATH_MAX : Z := 4096.
Definition SMALL_BUFSZ : Z := 16.

(** ** struct cpuset *)

Definition cpuset_version : Z := 3.

(** A field [x] with [x_valid] and [x_dirty]. *)
Record item (A : Type) : Type := Item { value : A; valid : bool; dirty : bool }.
Arguments Item {A} value valid dirty.
Arguments value {A} i.
Arguments valid {A} i.
Arguments dirty {A} i.

Record cpuset : Type := Cpuset {
  cpus : item (option bitmask); mems : item (option bitmask);
  cpu_exclusive : item Z; mem_exclusive : item Z; mem_hardwall : item Z; notify_on_release : item Z;
  memory_migrate : item Z; memory_pressure_enabled : item Z; memory_spread_page : item Z; memory_spread_slab : item Z;
  sched_load_balance : item Z; sched_relax_domain_level : item Z }.

(** The fields that hold a number. *)
Inductive field : Type :=
| CpuExclusive | MemExclusive | MemHardwall | NotifyOnRelease | MemoryMigrate | MemoryPressureEnabled | MemorySpreadPage
| MemorySpreadSlab | SchedLoadBalance | SchedRelaxDomainLevel.

#[global] Instance field_eq_dec : EqDecision field.
Proof. solve_decision. Defined.

Definition fname (f : field) : cstr := str
  match f with
  | CpuExclusive => "cpu_exclusive" | MemExclusive => "mem_exclusive" | MemHardwall => "mem_hardwall"
  | NotifyOnRelease => "notify_on_release" | MemoryMigrate => "memory_migrate"
  | MemoryPressureEnabled => "memory_pressure_enabled" | MemorySpreadPage => "memory_spread_page"
  | MemorySpreadSlab => "memory_spread_slab" | SchedLoadBalance => "sched_load_balance"
  | SchedRelaxDomainLevel => "sched_relax_domain_level"
  end.

Definition get_field (f : field) (cp : cpuset) : item Z :=
  match f with
  | CpuExclusive => cpu_exclusive cp | MemExclusive => mem_exclusive cp | MemHardwall => mem_hardwall cp
  | NotifyOnRelease => notify_on_release cp | MemoryMigrate => memory_migrate cp
  | MemoryPressureEnabled => memory_pressure_enabled cp | MemorySpreadPage => memory_spread_page cp
  | MemorySpreadSlab => memory_spread_slab cp | SchedLoadBalance => sched_load_balance cp
  | SchedRelaxDomainLevel => sched_relax_domain_level cp
  end.

Definition set_field (f : field) (i : item Z) (cp : cpuset) : cpuset :=
  let '(Cpuset c m ce me mh nr mm mp sp ss lb rd) := cp in
  match f with
  | CpuExclusive => Cpuset c m i me mh nr mm mp sp ss lb rd
  | MemExclusive => Cpuset c m ce i mh nr mm mp sp ss lb rd
  | MemHardwall => Cpuset c m ce me i nr mm mp sp ss lb rd
  | NotifyOnRelease => Cpuset c m ce me mh i mm mp sp ss lb rd
  | MemoryMigrate => Cpuset c m ce me mh nr i mp sp ss lb rd
  | MemoryPressureEnabled => Cpuset c m ce me mh nr mm i sp ss lb rd
  | MemorySpreadPage => Cpuset c m ce me mh nr mm mp i ss lb rd
  | MemorySpreadSlab => Cpuset c m ce me mh nr mm mp sp i lb rd
  | SchedLoadBalance => Cpuset c m ce me mh nr mm mp sp ss i rd
  | SchedRelaxDomainLevel => Cpuset c m ce me mh nr mm mp sp ss lb i
  end.

Definition set_cpus_item (i : item (option bitmask)) (cp : cpuset) : cpuset :=
  let '(Cpuset _ m ce me mh nr mm mp sp ss lb rd) := cp in Cpuset i m ce me mh nr mm mp sp ss lb rd.
Definition set_mems_item (i : item (option bitmask)) (cp : cpuset) : cpuset :=
  let '(Cpuset c _ ce me mh nr mm mp sp ss lb rd) := cp in Cpuset c i ce me mh nr mm mp sp ss lb rd.

Lemma get_set_field f f' i cp : get_field f (set_field f' i cp) = if decide (f = f') then i else get_field f cp.
Proof. by destruct cp, f, f'. Qed.

Lemma cpus_set_field f i cp : cpus (set_field f i cp) = cpus cp.
Proof. by destruct cp, f. Qed.
Lemma mems_set_field f i cp : mems (set_field f i cp) = mems cp.
Proof. by destruct cp, f. Qed.
Lemma field_set_cpus f i cp : get_field f (set_cpus_item i cp) = get_field f cp.
Proof. by destruct cp, f. Qed.
Lemma field_set_mems f i cp : get_field f (set_mems_item i cp) = get_field f cp.
Proof. by destruct cp, f. Qed.
Lemma cpus_set_cpus i cp : cpus (set_cpus_item i cp) = i.
Proof. by destruct cp. Qed.
Lemma mems_set_mems i cp : mems (set_mems_item i cp) = i.
Proof. by destruct cp. Qed.
Lemma cpus_set_mems i cp : cpus (set_mems_item i cp) = cpus cp.
Proof. by destruct cp. Qed.
Lemma mems_set_cpus i cp : mems (set_cpus_item i cp) = mems cp.
Proof. by destruct cp. Qed.

Create HintDb cpuset.
#[export] Hint Rewrite get_set_field cpus_set_field mems_set_field field_set_cpus field_set_mems cpus_set_cpus mems_set_mems cpus_set_mems
  mems_set_cpus : cpuset.

(** What calloc leaves. *)
Definition zero_item : item Z := Item 0 false false.
Definition calloc_cpuset : cpuset :=
  Cpuset (Item None false false) (Item None false false) zero_item zero_item zero_item zero_item zero_item zero_item zero_item
    zero_item zero_item zero_item.

(** Masks as values: each operation on a heap that holds its arguments. *)
Definition new_mask (n : Z) : bitmask := default inhabitant (bitmask_alloc true true n).
Definition copy_mask (b1 b2 : bitmask) : bitmask := bitmask_copy (<[1%positive := b1]> {[2%positive := b2]}) 1 2 !!! 1%positive.
Definition clear_mask (b : bitmask) : bitmask := bitmask_clearall {[1%positive := b]} 1 !!! 1%positive.
Definition set_all (b : bitmask) : bitmask := bitmask_setall {[1%positive := b]} 1 !!! 1%positive.
Definition set_bit (b : bitmask) (i : Z) : bitmask := bitmask_setbit {[1%positive := b]} 1 i !!! 1%positive.
Definition parse_list (sfuel : nat) (b : bitmask) (t : cstr) : res (Z * bitmask) :=
  r ← bitmask_parselist sfuel {[1%positive := b]} 1 t; let '(rc, h) := r in Ret (rc, h !!! 1%positive).

(** ** The options *)

(** In the order of the comparisons. *)
Definition iopts : list field :=
  [CpuExclusive; MemExclusive; MemHardwall; NotifyOnRelease; MemoryPressureEnabled; MemoryMigrate; MemorySpreadPage;
   MemorySpreadSlab; SchedLoadBalance; SchedRelaxDomainLevel].
Definition find_iopt (optionname : cstr) : option field := List.find (λ f, streq optionname (fname f)) iopts.

Definition cpuset_set_iopt (cp : cpuset) (optionname : cstr) (value : Z) : Z * cpuset :=
  match find_iopt optionname with
  | Some SchedRelaxDomainLevel => (0, set_field SchedRelaxDomainLevel (Item value true true) cp)
  | Some f => (0, set_field f (Item (b2z (negb (value =? 0))) true true) cp)
  | None => (-2, cp)
  end.
Definition cpuset_set_sopt (cp : cpuset) (optionname value : cstr) : Z := -2.
Definition cpuset_get_iopt (cp : cpuset) (optionname : cstr) : Z :=
  match find_iopt optionname with Some f => value (get_field f cp) | None => -2 end.
Definition cpuset_get_sopt (cp : cpuset) (optionname : cstr) : option cstr := None.

Definition cpuset_setcpus (cp : cpuset) (b : bitmask) : Z * cpuset :=
  (0, set_cpus_item (Item (Some (copy_mask (new_mask (bitmask_nbits b)) b)) true true) cp).
Definition cpuset_setmems (cp : cpuset) (b : bitmask) : Z * cpuset :=
  (0, set_mems_item (Item (Some (copy_mask (new_mask (bitmask_nbits b)) b)) true true) cp).

(** ** Static variables *)

Inductive check_state_t : Type := check_notdone | check_enosys | check_enodev | check_ok.

Record statics : Type := Statics {
  errno : Z; check_state : check_state_t; cpumask_sz : Z; nodemask_sz : Z; map : option (list Z); mtime : Z;
  distmap : option (list Z); tried_before : bool; tried_before_sn : bool; siblings : Z; susceptible_system : Z }.

Definition start : statics := Statics 0 check_notdone 0 0 None 0 None false false 0 (-1).

Definition set_errno e (s : statics) := Statics e (check_state s) (cpumask_sz s) (nodemask_sz s) (map s) (mtime s) (distmap s)
  (tried_before s) (tried_before_sn s) (siblings s) (susceptible_system s).
Definition set_check c (s : statics) := Statics (errno s) c (cpumask_sz s) (nodemask_sz s) (map s) (mtime s) (distmap s)
  (tried_before s) (tried_before_sn s) (siblings s) (susceptible_system s).
Definition set_sizes c n (s : statics) := Statics (errno s) (check_state s) c n (map s) (mtime s) (distmap s)
  (tried_before s) (tried_before_sn s) (siblings s) (susceptible_system s).
Definition set_map m t (s : statics) := Statics (errno s) (check_state s) (cpumask_sz s) (nodemask_sz s) m t (distmap s)
  (tried_before s) (tried_before_sn s) (siblings s) (susceptible_system s).
Definition set_distmap d t u (s : statics) := Statics (errno s) (check_state s) (cpumask_sz s) (nodemask_sz s) (map s) (mtime s) d
  t u (siblings s) (susceptible_system s).
Definition set_siblings n (s : statics) := Statics (errno s) (check_state s) (cpumask_sz s) (nodemask_sz s) (map s) (mtime s) (distmap s)
  (tried_before s) (tried_before_sn s) n (susceptible_system s).
Definition set_susceptible n (s : statics) := Statics (errno s) (check_state s) (cpumask_sz s) (nodemask_sz s) (map s) (mtime s) (distmap s)
  (tried_before s) (tried_before_sn s) (siblings s) n.

(** ** Code with effects *)

Definition M (Σ A : Type) : Type := statics → Σ → res (A * statics * Σ).
#[global] Instance M_ret Σ : MRet (M Σ) := λ A a s k, Ret (a, s, k).
#[global] Instance M_bind Σ : MBind (M Σ) := λ A B f m s k,
  match m s k with Ret (a, s, k) => f a s k | Undef => Undef | NoFuel => NoFuel end.
Definition get {Σ A} (f : statics → A) : M Σ A := λ s k, Ret (f s, s, k).
Definition put {Σ} (f : statics → statics) : M Σ () := λ s k, Ret ((), f s, k).
Definition lift {Σ A} (m : res A) : M Σ A := λ s k, match m with Ret a => Ret (a, s, k) | Undef => Undef | NoFuel => NoFuel end.
Definition when {Σ} (b : bool) (m : M Σ ()) : M Σ () := if b then m else mret ().

Section cpuset_lib.
Context {Σ : Type} `{!Kernel Σ} (sfuel : nat).

Definition sys {A : Set} (c : call A) : M Σ A := λ s k, let '(a, k) := answer A c k in Ret (a, s, k).

(** A call that may fail, which sets errno then. *)
Definition try {A : Set} (c : call (Z + A)) : M Σ (option A) :=
  r ← sys c; match r with inl e => put (set_errno e);; mret None | inr a => mret (Some a) end.
Definition ok {A} (r : option A) : bool := match r with Some _ => true | None => false end.

Definition check : M Σ Z :=
  c ← get check_state;
  (match c with
   | check_notdone =>
       a ← try (Stat (str "/proc/self/cpuset"));
       if negb (ok a) then put (set_check check_enosys)
       else b ← try (Stat (str "/dev/cpuset/tasks"));
            if negb (ok b) then put (set_check check_enodev) else put (set_check check_ok)
   | _ => mret ()
   end);;
  c ← get check_state;
  match c with
  | check_enosys => put (set_errno ENOSYS);; mret (-1)
  | check_enodev => put (set_errno ENODEV);; mret (-1)
  | _ => mret 0
  end.

(** The characters up to the end; the file is rewound after it. *)
Definition filesize (fp : Z) : M Σ Z := t ← sys (Fread fp); mret (zlength t).

Definition get_mtime (path : cstr) : M Σ Z := r ← try (Stat path); mret (match r with Some st => st_mtime st | None => 0 end).
Definition set_mtime (path : cstr) (mtime : Z) : M Σ Z := r ← try (Utime path mtime); mret (if ok r then 0 else -1).
Definition samefile (path1 path2 : cstr) : M Σ bool :=
  a ← try (Stat path1);
  match a with
  | None => mret false
  | Some sb1 =>
      b ← try (Stat path2);
      match b with
      | None => mret false
      | Some sb2 => mret ((st_ino sb1 =? st_ino sb2) && (st_dev sb1 =? st_dev sb2))
      end
  end.
Definition isdir (path : cstr) : M Σ bool := r ← try (Stat path); mret (match r with Some st => st_dir st | None => false end).

(** ** Sizes of masks *)

Definition cpumask_prefix : cstr := str "Cpus_allowed:" ++ ["009"%char].
Definition nodemask_prefix : cstr := str "Mems_allowed:" ++ ["009"%char].

(** The loop over the lines; a file of one character makes fgets return an empty line
    for ever. *)
Fixpoint size_lines (fuel : nat) (fsize : Z) (s : cstr) (c n : Z) : res (Z * Z) :=
  match fuel with
  | O => NoFuel
  | S fuel =>
      match fgets fsize s with
      | (None, _) => Ret (c, n)
      | (Some l, s) =>
          let l := as_string l in
          size_lines fuel fsize s
            (if strprefix l cpumask_prefix then s2nbits (drop (length cpumask_prefix) l) else c)
            (if strprefix l nodemask_prefix then s2nbits (drop (length nodemask_prefix) l) else n)
      end
  end.

Definition update_mask_sizes : M Σ () :=
  fp ← try (Fopen (str "/proc/self/status"));
  (match fp with
   | None => mret ()
   | Some fp =>
       fsize ← filesize fp;
       t ← sys (Fread fp);
       c ← get cpumask_sz; n ← get nodemask_sz;
       r ← lift (size_lines (S (length t)) fsize t c n);
       put (set_sizes r.1 r.2);;
       sys (Fclose fp)
   end);;
  c ← get cpumask_sz; n ← get nodemask_sz;
  put (set_sizes (if c =? 0 then 512 else c) (if n =? 0 then 256 else n)).

Definition cpuset_cpus_nbits : M Σ Z := c ← get cpumask_sz; when (c =? 0) update_mask_sizes;; get cpumask_sz.
Definition cpuset_mems_nbits : M Σ Z := n ← get nodemask_sz; when (n =? 0) update_mask_sizes;; get nodemask_sz.

Definition cpuset_alloc : M Σ cpuset :=
  nc ← cpuset_cpus_nbits; nm ← cpuset_mems_nbits;
  mret (set_cpus_item (Item (Some (new_mask nc)) false false) (set_mems_item (Item (Some (new_mask nm)) false false) calloc_cpuset)).

(** ** Paths of cpusets *)

Definition cpusetmnt : cstr := str "/dev/cpuset".

(** What is in the buffer after it; none when it holds no string. *)
Definition cpuset_getcpusetpath (pid : Z) (buf : cstr) (size : Z) : M Σ (bool * option cstr) :=
  c ← check;
  if c <? 0 then mret (false, Some buf)
  else
    let t := if pid =? 0 then str "/proc/self/cpuset" else str "/proc/" ++ fmt_d pid ++ str "/cpuset" in
    let buf := if size =? 0 then buf else snprintf_cut size t in
    if size <=? zlength t then put (set_errno E2BIG);; mret (false, Some buf)
    else
      fd ← try (OpenRead buf);
      match fd with
      | None =>
          e ← get errno;
          let e := if e =? ENOENT then ESRCH else e in
          fd ← try (OpenRead (str "/proc/self/cpuset"));
          (match fd with
           | None => put (set_errno ENOSYS)
           | Some fd => sys (Close fd);; put (set_errno e)
           end);;
          mret (false, Some buf)
      | Some fd =>
          r ← try (Read fd size);
          sys (Close fd);;
          match r with
          | None => mret (false, Some buf)
          | Some d =>
              if size <=? zlength d then put (set_errno E2BIG);; mret (false, None)
              else mret (true, Some (chomp (as_string d)))
          end
      end.

(** A buffer that must hold a string. *)
Definition text (b : option cstr) : M Σ cstr := match b with Some t => mret t | None => lift Undef end.

(** The end of fullpath and of fullpath2: the name after a slash, when the buffer has
    room for it; the room is computed in size_t. *)
Definition append_name (buf : cstr) (buflen : Z) (name : cstr) : M Σ (Z * option cstr) :=
  if u64 (buflen - 1 - zlength name) <=? zlength buf then put (set_errno E2BIG);; mret (-1, Some buf)
  else
    let t := buf ++ str "/" ++ name in
    if buflen <=? zlength t then lift Undef else p ← lift (pathcomp_text t); mret (0, Some p).

Definition fullpath (buflen : Z) (name : cstr) : M Σ (Z * option cstr) :=
  if bool_decide (head name = Some "/"%char) then
    p ← lift (pathcat2 buflen cpusetmnt name); p ← lift (pathcomp_text p); mret (0, Some p)
  else
    let buf := snprintf_cut buflen (cpusetmnt ++ str "/") in
    r ← cpuset_getcpusetpath 0 [] (buflen - zlength buf);
    let '(found, b) := r in
    if negb found then mret (-1, (λ t, buf ++ t) <$> b)
    else t ← text b; append_name (buf ++ t) buflen name.

Definition fullpath2 (buflen : Z) (name1 name2 : cstr) : M Σ (Z * option cstr) :=
  r ← fullpath buflen name1;
  let '(rc, b) := r in
  if rc <? 0 then mret (-1, b) else t ← text b; append_name t buflen name2.

(** The path in a buffer of PATH_MAX characters, the return value being ignored. *)
Definition full (name : cstr) : M Σ cstr := r ← fullpath PATH_MAX name; text r.2.
Definition full2 (name1 name2 : cstr) : M Σ cstr := r ← fullpath2 PATH_MAX name1 name2; text r.2.

(** ** Files *)

(** atoi of a buffer in which [d] was read: it must end in what was read. *)
Definition atoi_read (d : cstr) : res Z := let '(_, _, rest) := scan_number 10 d in match rest with [] => Undef | _ => Ret (atoi d) end.

(** The number in the first [SMALL_BUFSZ] characters of a file, none for -1. *)
Definition read_number (filepath : cstr) : M Σ (option Z) :=
  fd ← try (OpenRead filepath);
  match fd with
  | None => mret None
  | Some fd =>
      r ← try (Read fd SMALL_BUFSZ);
      match r with
      | None | Some [] => sys (Close fd);; mret None
      | Some d => n ← lift (atoi_read d); sys (Close fd);; mret (Some n)
      end
  end.
Definition read_flag (filepath : cstr) : M Σ (option Z) := n ← read_number filepath; mret ((λ n, b2z (negb (n =? 0))) <$> n).
Definition load_flag (path flag : cstr) : M Σ (option Z) := buf ← lift (pathcat2 PATH_MAX path flag); read_flag buf.
Definition load_number (path file : cstr) : M Σ (option Z) := buf ← lift (pathcat2 PATH_MAX path file); read_number buf.

Definition cpuset_open_memory_pressure (cpusetpath : cstr) : M Σ Z :=
  buf ← full2 cpusetpath (str "memory_pressure"); fd ← try (OpenRead buf); mret (default (-1) fd).
Definition cpuset_read_memory_pressure (han : Z) : M Σ Z :=
  r ← try (Pread han SMALL_BUFSZ 0); match r with None => mret (-1) | Some d => lift (atoi_read d) end.
Definition cpuset_close_memory_pressure (han : Z) : M Σ () := sys (Close han).

(** The mask of a file, none for -1; the buffer has room for the whole file. *)
Definition read_mask (filepath : cstr) (nbits : Z) : M Σ (option bitmask) :=
  fp ← try (Fopen filepath);
  match fp with
  | None => mret None
  | Some fp =>
      n ← filesize fp;
      let buflen := n + 1 in
      t ← sys (Fread fp);
      match (flgets buflen t).1 with
      | None => sys (Fclose fp);; mret None
      | Some l =>
          sys (Fclose fp);;
          let bmp := new_mask nbits in
          let buf := as_string l in
          if bool_decide (buf = []) then mret (Some bmp)
          else r ← lift (parse_list sfuel bmp buf); mret (if r.1 <? 0 then None else Some r.2)
      end
  end.
Definition load_mask (path : cstr) (nbits : Z) (mask : cstr) : M Σ (option bitmask) :=
  buf ← lift (pathcat2 PATH_MAX path mask); read_mask buf nbits.

Definition write_string_file (filepath s : cstr) : M Σ Z :=
  fd ← try (OpenWrite filepath);
  match fd with
  | None => mret (-1)
  | Some fd => r ← try (Write fd s); sys (Close fd);; mret (if ok r then 0 else -1)
  end.

(** The text of a mask, in a buffer of the length that the first call returns. *)
Definition sprint_mask_buf (bmp : bitmask) : res cstr :=
  let fuel := S (Z.to_nat (size bmp)) in
  r ← bitmask_displaylist fuel [NUL] 1 bmp;
  let buflen := r.2 + 1 in
  r ← bitmask_displaylist fuel (replicate (Z.to_nat buflen) NUL) buflen bmp;
  Ret (as_string r.1).

Definition exists_flag (path flag : cstr) : M Σ bool :=
  buf ← lift (pathcat2 PATH_MAX path flag); r ← try (Stat buf); put (set_errno 0);; mret (ok r).
Definition store_flag (path flag : cstr) (val : Z) : M Σ Z :=
  buf ← lift (pathcat2 PATH_MAX path flag); write_string_file buf (if val =? 0 then str "0" else str "1").
Definition store_number (path file : cstr) (val : Z) : M Σ Z :=
  buf ← lift (pathcat2 PATH_MAX path file); write_string_file buf (snprintf_cut SMALL_BUFSZ (fmt_d val)).
Definition store_mask (path mask : cstr) (bmp : option bitmask) : M Σ Z :=
  match bmp with
  | None => mret 0
  | Some bmp =>
      maskpath ← lift (pathcat2 PATH_MAX path mask); bp ← lift (sprint_mask_buf bmp); write_string_file maskpath bp
  end.

Definition cpu_online (cpu : Z) : M Σ Z :=
  r ← read_flag (snprintf_cut PATH_MAX (str "/sys/devices/system/cpu/cpu" ++ fmt_d (s32 cpu) ++ str "/online")); mret (default 0 r).

(** ** The map of cpus to nodes *)

Definition mapfile : cstr := str "/var/run/cpunodemap".
Definition sysdevices : cstr := str "/sys/devices/system".

(** %u in sscanf: the number and what is left. *)
Definition scan_u (s : cstr) : option (Z * cstr) :=
  let '(neg, ds, rest) := scan_number 10 s in
  match ds with
  | [] => None
  | _ => let v := dval 10 ds in Some (u32 (if ULONG_MAX <? v then ULONG_MAX else if neg then - v else v), rest)
  end.
(** A word and %u, as in the names of directories. *)
Definition scan_name (pre s : cstr) : option Z := if is_prefix pre s then fst <$> scan_u (drop (length pre) s) else None.

(** The entries of a node's directory. *)
Definition node_cpus (ncpus nmems mem : Z) (names : list cstr) (m : list Z) : list Z :=
  foldl (λ m name,
    match scan_name (str "cpu") name with
    | None => m
    | Some cpu => if (ncpus <=? cpu) || (nmems <=? mem) then m else <[Z.to_nat cpu := mem]> m
    end) m names.

Fixpoint rebuild_nodes (ncpus nmems : Z) (names : list cstr) (m : list Z) : M Σ (list Z) :=
  match names with
  | [] => mret m
  | name :: names =>
      match scan_name (str "node") name with
      | None => rebuild_nodes ncpus nmems names m
      | Some mem =>
          buf ← lift (pathcat3 PATH_MAX sysdevices (str "node") name);
          d ← try (Opendir buf);
          match d with
          | None => rebuild_nodes ncpus nmems names m
          | Some cpus => rebuild_nodes ncpus nmems names (node_cpus ncpus nmems mem cpus m)
          end
      end
  end.

Definition rebuild_map : M Σ () :=
  ncpus ← cpuset_cpus_nbits; nmems ← cpuset_mems_nbits;
  t ← get mtime;
  let m := replicate (Z.to_nat ncpus) (-1) in
  put (set_map (Some m) t);;
  buf ← lift (pathcat2 PATH_MAX sysdevices (str "node"));
  d ← try (Opendir buf);
  match d with
  | None => mret ()
  | Some names => m ← rebuild_nodes ncpus nmems names m; t ← sys Time; put (set_map (Some m) t)
  end.

Definition map_line (ncpus nmems : Z) (m : list Z) (line : cstr) : list Z :=
  match scan_u line with
  | None => m
  | Some (cpu, rest) =>
      match scan_u rest with
      | None => m
      | Some (mem, _) => if (ncpus <=? cpu) || (nmems <=? mem) then m else <[Z.to_nat cpu := mem]> m
      end
  end.

Definition load_map : M Σ () :=
  ncpus ← cpuset_cpus_nbits; nmems ← cpuset_mems_nbits;
  t ← get_mtime mapfile;
  put (set_map (Some (replicate (Z.to_nat ncpus) 0)) t);;
  fp ← try (Fopen mapfile);
  match fp with
  | None => mret ()
  | Some fp =>
      s ← sys (Fread fp);
      put (set_map (Some (foldl (map_line ncpus nmems) (replicate (Z.to_nat ncpus) nmems) (flines SMALL_BUFSZ s))) t);;
      sys (Fclose fp)
  end.

(** The lines for the cpus from [cpu] on. *)
Fixpoint map_lines (nmems cpu : Z) (m : list Z) : cstr :=
  match m with
  | [] => []
  | mem :: m =>
      (if u32 mem <? nmems then fmt_d cpu ++ str " " ++ fmt_d (u32 mem) ++ ["010"%char] else []) ++ map_lines nmems (cpu + 1) m
  end.

Definition store_map : M Σ () :=
  ncpus ← cpuset_cpus_nbits; nmems ← cpuset_mems_nbits;
  let buf := snprintf_cut PATH_MAX (mapfile ++ str ".XXXXXX") in
  r ← try (Mkstemp buf);
  match r with
  | None => r ← try (Unlink buf); mret ()
  | Some (fd, buf) =>
      r ← try (Fdopen fd);
      match r with
      | None => sys (Close fd);; r ← try (Unlink buf); mret ()
      | Some fp =>
          m ← get map;
          sys (Fwrite fp (map_lines nmems 0 (take (Z.to_nat ncpus) (default [] m))));;
          sys (Fclose fp);;
          t ← get mtime;
          r ← set_mtime buf t;
          r ← try (Rename buf mapfile);
          if ok r then r ← try (Chmod mapfile 292); mret ()
          else lift Undef
      end
  end.

Definition get_map : M Σ Z :=
  m ← get map;
  (match m with
   | None => ncpus ← cpuset_cpus_nbits; t ← get mtime; put (set_map (Some (replicate (Z.to_nat ncpus) 0)) t)
   | Some _ => mret ()
   end);;
  file_mtime ← get_mtime mapfile;
  t ← get mtime;
  when ((t =? 0) && (file_mtime =? 0)) rebuild_map;;
  file_mtime ← get_mtime mapfile;
  t ← get mtime;
  (if t <? file_mtime then load_map else when (file_mtime <? t) store_map);;
  mret 0.

(** [for (cpu = 0; cpu < ncpus; cpu++)] over the map. *)
Definition local_fold (ncpus : Z) (m : list Z) (f : bitmask → Z → Z → bitmask) (b : bitmask) : res bitmask :=
  foldl (λ r cpu, b ← r; node ← mem_get m cpu; Ret (f b cpu (u32 node))) (Ret b) (upto 0 ncpus).

Definition cpuset_localcpus (mems cpus : bitmask) : M Σ (Z * bitmask) :=
  ncpus ← cpuset_cpus_nbits;
  c ← check;
  if c <? 0 then mret (-1, cpus)
  else
    r ← get_map; m ← get map;
    b ← lift (local_fold ncpus (default [] m) (λ b cpu node, if bitmask_isbitset mems node =? 0 then b else set_bit b cpu) (clear_mask cpus));
    mret (0, b).
Definition cpuset_localmems (cpus mems : bitmask) : M Σ (Z * bitmask) :=
  ncpus ← cpuset_cpus_nbits;
  c ← check;
  if c <? 0 then mret (-1, mems)
  else
    r ← get_map; m ← get map;
    b ← lift (local_fold ncpus (default [] m) (λ b cpu node, if bitmask_isbitset cpus cpu =? 0 then b else set_bit b node) (clear_mask mems));
    mret (0, b).

(** ** Distances *)

Definition DISTMAP_MAX : Z := 255.
Definition distance_directory : cstr := str "/sys/devices/system/node".
Definition sn_topology : cstr := str "/proc/sgi_sn/sn_topology".

Fixpoint strpbrk_digits (s : cstr) : option cstr :=
  match s with [] => None | c :: s' => if isdigit c then Some s else strpbrk_digits s' end.
(** strstr, and what follows the text it found. *)
Fixpoint strstr_after (s p : cstr) : option cstr :=
  if is_prefix p s then Some (drop (length p) s) else match s with [] => None | _ :: s => strstr_after s p end.

(** The loop that fills [dists]; [w] is the width of [d]. *)
Fixpoint parse_dists (w : Z → Z) (k : nat) (p : cstr) : list Z :=
  match k with
  | O => []
  | S k' =>
      match strpbrk_digits p with
      | None => replicate k DISTMAP_MAX
      | Some p => let '(d, q) := strtoul 10 p in (if w d <? DISTMAP_MAX then w d else DISTMAP_MAX) :: parse_dists w k' q
      end
  end.

(** The row [dists] for each cpu that is set. *)
Fixpoint fill_rows (fuel : nat) (cpus : bitmask) (ncpus nmems c : Z) (dists dm : list Z) : res (list Z) :=
  match fuel with
  | O => NoFuel
  | S fuel =>
      if c <? ncpus then
        dm ← mem_write dm (c * nmems) dists; fill_rows fuel cpus ncpus nmems (bitmask_next cpus (u32 (c + 1))) dists dm
      else Ret dm
  end.

(** The second half of both parsers. *)
Definition fill_distmap (node : Z) (dists : list Z) : M Σ () :=
  ncpus ← cpuset_cpus_nbits; nmems ← cpuset_mems_nbits;
  let mems := set_bit (new_mask nmems) node in
  r ← cpuset_localcpus mems (new_mask ncpus);
  let cpus := r.2 in
  dm ← get distmap;
  dm ← lift (fill_rows (S (Z.to_nat ncpus)) cpus ncpus nmems (bitmask_first cpus) dists (default [] dm));
  t ← get tried_before; u ← get tried_before_sn;
  put (set_distmap (Some dm) t u).

Definition parse_distmap_line (node : Z) (buf : cstr) : M Σ Z :=
  ncpus ← cpuset_cpus_nbits; nmems ← cpuset_mems_nbits;
  fill_distmap node (parse_dists u32 (Z.to_nat nmems) buf);; mret 0.

Definition parse_distance_file (node : Z) (path : cstr) : M Σ Z :=
  fp ← try (Fopen path);
  match fp with
  | None => mret (-1)
  | Some fp =>
      buflen ← filesize fp;
      t ← sys (Fread fp);
      match (flgets buflen t).1 with
      | None => sys (Fclose fp);; mret (-1)
      | Some l => r ← parse_distmap_line node (as_string l); sys (Fclose fp);; mret (if r <? 0 then -1 else 0)
      end
  end.

(** False for [goto err]. *)
Fixpoint distance_nodes (names : list cstr) : M Σ bool :=
  match names with
  | [] => mret true
  | name :: names =>
      match scan_name (str "node") name with
      | None => distance_nodes names
      | Some node =>
          buf ← lift (pathcat3 PATH_MAX distance_directory name (str "distance"));
          r ← parse_distance_file node buf;
          if r <? 0 then mret false else distance_nodes names
      end
  end.

Definition build_distmap : M Σ () :=
  ncpus ← cpuset_cpus_nbits; nmems ← cpuset_mems_nbits;
  t ← get tried_before; u ← get tried_before_sn;
  if t : bool then put (set_distmap None true u)
  else
    put (set_distmap (Some (replicate (Z.to_nat (ncpus * nmems)) DISTMAP_MAX)) true u);;
    d ← try (Opendir distance_directory);
    good ← (match d with None => mret false | Some names => distance_nodes names end);
    if good : bool then mret () else put (set_distmap None true u).

Definition parse_distmap_line_sn (buf : cstr) : M Σ () :=
  ncpus ← cpuset_cpus_nbits; nmems ← cpuset_mems_nbits;
  match strchr buf " " with
  | None => mret ()
  | Some p =>
      let '(node, q) := strtoul 10 p in
      if nmems <=? node then mret ()
      else
        match strstr_after q (str " dist ") with
        | None => mret ()
        | Some p =>
            let p := (span (λ c, negb (c =c " "%char)) p).1 in
            fill_distmap node (parse_dists id (Z.to_nat nmems) p)
        end
  end.

Fixpoint sn_lines (lines : list cstr) : M Σ () :=
  match lines with
  | [] => mret ()
  | l :: lines => when (strprefix l (str "node ")) (parse_distmap_line_sn l);; sn_lines lines
  end.

Definition build_distmap_sn : M Σ () :=
  ncpus ← cpuset_cpus_nbits; nmems ← cpuset_mems_nbits;
  t ← get tried_before; u ← get tried_before_sn;
  if u : bool then put (set_distmap None t true)
  else
    put (set_distmap None t true);;
    fp ← try (Fopen sn_topology);
    match fp with
    | None => put (set_distmap None t true)
    | Some fp =>
        put (set_distmap (Some (replicate (Z.to_nat (ncpus * nmems)) DISTMAP_MAX)) t true);;
        buflen ← filesize fp;
        s ← sys (Fread fp);
        sn_lines (flines buflen s);;
        sys (Fclose fp)
    end.

Definition cpuset_cpumemdist (cpu mem : Z) : M Σ Z :=
  ncpus ← cpuset_cpus_nbits; nmems ← cpuset_mems_nbits;
  c ← check;
  if c <? 0 then mret DISTMAP_MAX
  else
    d ← get distmap; when (negb (ok d)) build_distmap;;
    d ← get distmap; when (negb (ok d)) build_distmap_sn;;
    d ← get distmap;
    match d with
    | None => mret DISTMAP_MAX
    | Some dm =>
        if (cpu <? 0) || (ncpus <=? cpu) || (mem <? 0) || (nmems <=? mem) then mret DISTMAP_MAX
        else lift (mem_get dm (cpu * nmems + mem))
    end.

Definition cpuset_cpu2node (cpu : Z) : M Σ Z :=
  ncpus ← cpuset_cpus_nbits; nmems ← cpuset_mems_nbits;
  c ← check;
  if c <? 0 then mret (-1)
  else
    r ← cpuset_localmems (set_bit (new_mask ncpus) (u32 cpu)) (new_mask nmems);
    mret (s32 (bitmask_first r.2)).

(** The system call behind it is made when the headers have the flags. *)
Definition cpuset_addr2node (addr : Z) : M Σ Z := r ← try (GetMempolicy addr); mret (default (-1) r).

(** ** Settings *)

(** The fields in the order in which they are written, and whether their files may be
    missing. *)
Definition apply_order : list (field * bool) :=
  [(CpuExclusive, false); (MemExclusive, false); (MemHardwall, false); (NotifyOnRelease, false); (MemoryMigrate, true);
   (MemoryPressureEnabled, true); (MemorySpreadPage, true); (MemorySpreadSlab, true); (SchedLoadBalance, true);
   (SchedRelaxDomainLevel, true)].

Definition store_field (path : cstr) (f : field) (val : Z) : M Σ Z :=
  match f with SchedRelaxDomainLevel => store_number path (fname f) val | _ => store_flag path (fname f) val end.
Definition load_field (path : cstr) (f : field) : M Σ (option Z) :=
  match f with SchedRelaxDomainLevel => load_number path (fname f) | _ => load_flag path (fname f) end.

(** False for [goto err]. *)
Fixpoint apply_fields (path : cstr) (cp : cpuset) (l : list (field * bool)) : M Σ bool :=
  match l with
  | [] => mret true
  | (f, optional) :: l =>
      let i := get_field f cp in
      w ← (if valid i && dirty i then if optional : bool then exists_flag path (fname f) else mret true else mret false);
      if w : bool then r ← store_field path f (value i); if r <? 0 then mret false else apply_fields path cp l
      else apply_fields path cp l
  end.
Definition apply_mask (path name : cstr) (i : item (option bitmask)) : M Σ bool :=
  if valid i && dirty i then r ← store_mask path name (value i); mret (negb (r <? 0)) else mret true.

Definition apply_cpuset_settings (path : cstr) (cp : cpuset) : M Σ Z :=
  a ← apply_fields path cp apply_order;
  if negb a then mret (-1)
  else
    b ← apply_mask path (str "cpus") (cpus cp);
    if negb b then mret (-1)
    else c ← apply_mask path (str "mems") (mems cp); mret (if c : bool then 0 else -1).

(** [sscanf(buf, "siblings : %d", &s)]. *)
Definition scan_siblings (line : cstr) : option Z :=
  if is_prefix (str "siblings") line then
    match skip_space (drop 8 line) with
    | c :: s =>
        if c =c ":"%char then let '(_, ds, _) := scan_number 10 s in match ds with [] => None | _ => Some (s32 (strtol s)) end else None
    | [] => None
    end
  else None.

Definition get_siblings : M Σ Z :=
  n ← get siblings;
  if negb (n =? 0) then mret n
  else
    fp ← try (Fopen (str "/proc/cpuinfo"));
    match fp with
    | None => mret 4
    | Some fp =>
        s ← sys (Fread fp);
        let n := foldl (λ n l, match scan_siblings l with Some s => Z.max n s | None => n end) 0 (flines 32 s) in
        sys (Fclose fp);;
        let n := if n =? 0 then 1 else n in
        put (set_siblings n);; mret n
    end.

(** How many of a package's cpus are set. *)
Definition num_set (b : bitmask) (cpu siblings : Z) : Z :=
  zlength (filter (λ s, bitmask_isbitset b (u32 (cpu + s)) ≠ 0) (upto 0 siblings)).

Fixpoint package_loop (fuel : nat) (b : bitmask) (ncpus siblings cpu : Z) : res bool :=
  match fuel with
  | O => NoFuel
  | S fuel =>
      if cpu <? ncpus then
        let n := num_set b cpu siblings in
        if (n =? 0) || (n =? siblings) then package_loop fuel b ncpus siblings (u32 (cpu + siblings)) else Ret true
      else Ret false
  end.

Definition cpuset_would_crash_kernel (cp : cpuset) : M Σ bool :=
  if value (cpu_exclusive cp) =? 0 then mret false
  else
    s ← get susceptible_system;
    failed ← (if s =? -1 then
                u ← try Uname;
                match u with
                | None => mret true
                | Some (release, machine) =>
                    put (set_susceptible (b2z (strprefix release (str "2.6.16.") &&
                      (streq machine (str "i386") || streq machine (str "x86_64")))));; mret false
                end
              else mret false);
    if failed : bool then mret true
    else
      s ← get susceptible_system;
      if s =? 0 then mret false
      else
        ncpus ← cpuset_cpus_nbits; siblings ← get_siblings;
        match value (cpus cp) with
        | None => lift Undef
        | Some b =>
            bad ← lift (package_loop (S (Z.to_nat ncpus)) b ncpus siblings 0);
            if bad : bool then put (set_errno ENXIO);; mret true else mret false
        end.

(** A field of [cp1] that is valid and differs gets dirty. *)
Definition mark_field (cp2 : cpuset) (cp1 : cpuset) (f : field) : cpuset :=
  let i := get_field f cp1 in
  if valid i && negb (value i =? value (get_field f cp2)) then set_field f (Item (value i) (valid i) true) cp1 else cp1.
Definition mask_equal (a b : option bitmask) : res bool :=
  match a, b with Some a, Some b => Ret (negb (bitmask_equal a b =? 0)) | _, _ => Undef end.
Definition mark_mask (i j : item (option bitmask)) : res (item (option bitmask)) :=
  if valid i then e ← mask_equal (value i) (value j); Ret (if e : bool then i else Item (value i) (valid i) true) else Ret i.
Definition mark_dirty_variable (cp1 cp2 : cpuset) : res cpuset :=
  let cp := foldl (mark_field cp2) cp1 (fst <$> apply_order) in
  c ← mark_mask (cpus cp1) (cpus cp2); m ← mark_mask (mems cp1) (mems cp2);
  Ret (set_cpus_item c (set_mems_item m cp)).

(** ** Query, create, modify, delete *)

Definition query_order : list (field * bool) :=
  [(CpuExclusive, false); (MemExclusive, false); (NotifyOnRelease, false); (MemoryMigrate, true); (MemHardwall, true);
   (MemoryPressureEnabled, true); (MemorySpreadPage, true); (MemorySpreadSlab, true); (SchedLoadBalance, true);
   (SchedRelaxDomainLevel, true)].

Fixpoint query_fields (path : cstr) (cp : cpuset) (l : list (field * bool)) : M Σ (bool * cpuset) :=
  match l with
  | [] => mret (true, cp)
  | (f, optional) :: l =>
      e ← (if optional : bool then exists_flag path (fname f) else mret true);
      if e : bool then
        v ← load_field path f;
        match v with
        | None => mret (false, cp)
        | Some v => query_fields path (set_field f (Item v true (dirty (get_field f cp))) cp) l
        end
      else query_fields path cp l
  end.

Definition cpuset_query (cp : cpuset) (relpath : cstr) : M Σ (Z * cpuset) :=
  c ← check;
  if c <? 0 then mret (-1, cp)
  else
    buf ← full relpath;
    q ← query_fields buf cp query_order;
    let '(good, cp) := q in
    if negb good then mret (-1, cp)
    else
      n ← cpuset_cpus_nbits;
      b ← load_mask buf n (str "cpus");
      match b with
      | None => mret (-1, cp)
      | Some b =>
          let cp := set_cpus_item (Item (Some b) true (dirty (cpus cp))) cp in
          n ← cpuset_mems_nbits;
          b ← load_mask buf n (str "mems");
          match b with
          | None => mret (-1, cp)
          | Some b => mret (0, set_mems_item (Item (Some b) true (dirty (mems cp))) cp)
          end
      end.

(** The error path of cr_or_mod. *)
Definition undo (buf : cstr) (do_rmdir : bool) (cp_sav : option cpuset) : M Σ Z :=
  sav_errno ← get errno;
  (match cp_sav with Some cp => r ← apply_cpuset_settings buf cp; mret () | None => mret () end);;
  (if do_rmdir then r ← try (Rmdir buf); mret () else mret ());;
  put (set_errno sav_errno);; mret (-1).

Definition cr_or_mod (relpath : cstr) (cp : cpuset) (new : bool) : M Σ Z :=
  c ← check;
  if c <? 0 then mret (-1)
  else
    w ← cpuset_would_crash_kernel cp;
    if w : bool then mret (-1)
    else
      buf ← full relpath;
      made ← (if new then r ← try (Mkdir buf 493); mret (ok r) else mret true);
      if negb made then mret (-1)
      else
        cp_sav ← cpuset_alloc;
        q ← cpuset_query cp_sav relpath;
        let '(rc, cp_sav) := q in
        if rc <? 0 then undo buf new None
        else
          cp_sav ← lift (mark_dirty_variable cp_sav cp);
          rc ← apply_cpuset_settings buf cp;
          if rc <? 0 then undo buf new (Some cp_sav) else mret 0.

Definition cpuset_create (relpath : cstr) (cp : cpuset) : M Σ Z := cr_or_mod relpath cp true.
Definition cpuset_modify (relpath : cstr) (cp : cpuset) : M Σ Z := cr_or_mod relpath cp false.
Definition cpuset_delete (relpath : cstr) : M Σ Z :=
  c ← check;
  if c <? 0 then mret (-1) else buf ← full relpath; r ← try (Rmdir buf); mret (if ok r then 0 else -1).
End cpuset_lib.
