(* ===== verification/CpusetTasks.v ===== *)
(** * The cpuset library: tasks, hierarchies, placement

    The part of libcpuset.c that is about the tasks of cpusets, about hierarchies of
    cpusets, and about where the current task runs. *)

From S2P Require Import Prelude CInt CMem CString Bitmask BitmaskText Splitstr CpusetPath Cpuset.
From stdpp Require Import sorting.
Local Open Scope Z_scope.

Section cpuset_tasks.
Context {Σ : Type} `{!Kernel Σ} (sfuel : nat).

(** ** The cpuset of a task *)

Definition cpuset_cpusetofpid (cp : cpuset) (pid : Z) : M Σ (Z * cpuset) :=
  r ← cpuset_getcpusetpath pid [] PATH_MAX;
  let '(found, b) := r in
  if negb found then mret (-1, cp)
  else buf ← text b; q ← cpuset_query sfuel cp buf; mret (if q.1 <? 0 then -1 else 0, q.2).

Definition cpuset_mountpoint : M Σ cstr :=
  c ← check;
  if c <? 0 then
    e ← get errno;
    mret (if e =? ENODEV then str "[cpuset filesystem not mounted]" else str "[cpuset filesystem not supported]")
  else mret cpusetmnt.

(** The cpuset, or that of the current task for the null pointer. *)
Definition resolve_cp (cp : option cpuset) : M Σ (option cpuset) :=
  match cp with
  | Some cp => mret (Some cp)
  | None => cp1 ← cpuset_alloc; q ← cpuset_cpusetofpid cp1 0; mret (if q.1 <? 0 then None else Some q.2)
  end.

Definition resolve_mask (sel : cpuset → item (option bitmask)) (cp : option cpuset) : M Σ (option bitmask) :=
  cp1 ← resolve_cp cp;
  match cp1 with
  | None => mret None
  | Some cp1 => match value (sel cp1) with None => put (set_errno EINVAL);; mret None | Some b => mret (Some b) end
  end.
(** [bitmask_copy(dst, b)], and -1 without it. *)
Definition copy_result (dst : bitmask) (b : option bitmask) : Z * bitmask :=
  match b with None => (-1, dst) | Some b => (0, copy_mask dst b) end.
Definition cpuset_getcpus (cp : option cpuset) (dst : bitmask) : M Σ (Z * bitmask) := b ← resolve_mask cpus cp; mret (copy_result dst b).
Definition cpuset_getmems (cp : option cpuset) (dst : bitmask) : M Σ (Z * bitmask) := b ← resolve_mask mems cp; mret (copy_result dst b).
Definition weight_result (b : option bitmask) : Z := match b with None => -1 | Some b => s32 (bitmask_weight b) end.
Definition cpuset_cpus_weight (cp : option cpuset) : M Σ Z := b ← resolve_mask cpus cp; mret (weight_result b).
Definition cpuset_mems_weight (cp : option cpuset) : M Σ Z := b ← resolve_mask mems cp; mret (weight_result b).

(** strrchr(s, '/'): what is before the last slash and after it. *)
Definition split_last_slash (s : cstr) : option (cstr * cstr) :=
  let '(base, rest) := span (λ c, negb (c =c "/"%char)) (reverse s) in
  match rest with [] => None | _ :: dir => Some (reverse dir, reverse base) end.

(** The masks [cpus1], [cpus2], [mems1] and [mems2]. *)
Record masks4 : Type := Masks4 { mc1 : bitmask; mc2 : bitmask; mm1 : bitmask; mm2 : bitmask }.

(** The loop over the names in the parent; true for [goto collides]. *)
Fixpoint collide_loop (parent base : cstr) (cp1 cp2 : cpuset) (w : masks4) (names : list cstr) : M Σ bool :=
  match names with
  | [] => mret false
  | name :: names =>
      if streq name (str ".") || streq name (str "..") || streq name base then collide_loop parent base cp1 cp2 w names
      else
        child ← lift (pathcat2 PATH_MAX parent name);
        d ← isdir child;
        if negb d then collide_loop parent base cp1 cp2 w names
        else
          q ← cpuset_query sfuel cp2 (drop (length cpusetmnt) child);
          let '(rc, cp2) := q in
          if rc <? 0 then mret false
          else
            w ← (if negb (value (cpu_exclusive cp1) =? 0) || negb (value (cpu_exclusive cp2) =? 0) then
                   a ← cpuset_getcpus (Some cp1) (mc1 w); b ← cpuset_getcpus (Some cp2) (mc2 w);
                   mret (negb (bitmask_intersects a.2 b.2 =? 0), Masks4 a.2 b.2 (mm1 w) (mm2 w))
                 else mret (false, w));
            if (w.1 : bool) then mret true
            else
              let w := w.2 in
              w ← (if negb (value (mem_exclusive cp1) =? 0) || negb (value (mem_exclusive cp2) =? 0) then
                     a ← cpuset_getmems (Some cp1) (mm1 w); b ← cpuset_getmems (Some cp2) (mm2 w);
                     mret (negb (bitmask_intersects a.2 b.2 =? 0), Masks4 (mc1 w) (mc2 w) a.2 b.2)
                   else mret (false, w));
              if (w.1 : bool) then mret true else collide_loop parent base cp1 cp2 w.2 names
  end.

Definition cpuset_collides_exclusive (cpusetpath : cstr) (cp1 : cpuset) : M Σ Z :=
  c ← check;
  if c <? 0 then mret 0
  else
    parent ← full cpusetpath;
    if streq parent cpusetmnt then mret 0
    else
      match split_last_slash parent with
      | None => mret 0
      | Some (parent, base) =>
          if bool_decide (base = []) then mret 0
          else
            d ← try (Opendir parent);
            match d with
            | None => mret 0
            | Some names =>
                cp2 ← cpuset_alloc; nc ← cpuset_cpus_nbits; nm ← cpuset_mems_nbits;
                let w := Masks4 (new_mask nc) (new_mask nc) (new_mask nm) (new_mask nm) in
                r ← collide_loop parent base cp1 cp2 w names;
                mret (b2z r)
            end
      end.

(** ** Hierarchies *)

Inductive cpuset_fts_info : Type := CPUSET_FTS_CPUSET | CPUSET_FTS_ERR_DNR | CPUSET_FTS_ERR_STAT | CPUSET_FTS_ERR_CPUSET.

Record cpuset_fts_entry : Type := FtsEntry {
  e_cpuset : option cpuset; e_stat : option file_stat; e_path : cstr; e_info : cpuset_fts_info; e_err : Z }.

(** The list, and the part of it that cpuset_fts_read has not returned. *)
Record cpuset_fts_tree : Type := FtsTree { tree_head : list cpuset_fts_entry; tree_next : list cpuset_fts_entry }.

(** The entry for a directory; a calloc'd stat or cpuset is there when its call fails,
    too. *)
Definition fts_entry (e : ftsent) : M Σ cpuset_fts_entry :=
  let relpath := drop (length cpusetmnt) (fts_path e) in
  let relpath := if bool_decide (relpath = []) then str "/" else relpath in
  match fts_kind e with
  | FTS_DNR => mret (FtsEntry None None relpath CPUSET_FTS_ERR_DNR (fts_errno e))
  | _ =>
      r ← try (Stat (fts_path e));
      match r with
      | None => mret (FtsEntry None (Some (FileStat 0 0 0 false)) relpath CPUSET_FTS_ERR_STAT (fts_errno e))
      | Some st =>
          q ← cpuset_query sfuel calloc_cpuset relpath;
          err ← get errno;
          mret (if q.1 <? 0 then FtsEntry (Some q.2) (Some st) relpath CPUSET_FTS_ERR_CPUSET err
                else FtsEntry (Some q.2) (Some st) relpath CPUSET_FTS_CPUSET 0)
      end
  end.

Fixpoint fts_entries (l : list ftsent) : M Σ (list cpuset_fts_entry) :=
  match l with
  | [] => mret []
  | e :: l =>
      match fts_kind e with
      | FTS_OTHER => fts_entries l
      | _ => a ← fts_entry e; rest ← fts_entries l; mret (a :: rest)
      end
  end.

Definition cpuset_fts_rewind (t : cpuset_fts_tree) : cpuset_fts_tree := FtsTree (tree_head t) (tree_head t).

Definition cpuset_fts_open (cpusetpath : cstr) : M Σ (option cpuset_fts_tree) :=
  buf ← full cpusetpath;
  r ← try (FtsOpen buf);
  match r with
  | None => mret None
  | Some l => es ← fts_entries l; mret (Some (cpuset_fts_rewind (FtsTree es [])))
  end.

Definition cpuset_fts_read (t : cpuset_fts_tree) : option cpuset_fts_entry * cpuset_fts_tree :=
  match tree_next t with [] => (None, t) | e :: l => (Some e, FtsTree (tree_head t) l) end.

(** [cs2] is what has been turned around, [cs3] what is left. *)
Fixpoint reverse_loop (cs2 cs3 : list cpuset_fts_entry) : list cpuset_fts_entry :=
  match cs3 with [] => cs2 | e :: cs3 => reverse_loop (e :: cs2) cs3 end.
Definition cpuset_fts_reverse (t : cpuset_fts_tree) : cpuset_fts_tree := cpuset_fts_rewind (FtsTree (reverse_loop [] (tree_head t)) (tree_next t)).

Definition cpuset_fts_get_path (e : cpuset_fts_entry) : cstr := e_path e.
Definition cpuset_fts_get_stat (e : cpuset_fts_entry) : option file_stat := e_stat e.
Definition cpuset_fts_get_cpuset (e : cpuset_fts_entry) : option cpuset := e_cpuset e.
Definition cpuset_fts_get_errno (e : cpuset_fts_entry) : Z := e_err e.
Definition cpuset_fts_get_info (e : cpuset_fts_entry) : cpuset_fts_info := e_info e.

(** ** Lists of tasks *)

(** The contents of the files, the last one first.  An empty file is left out. *)
Definition add_pidblock (file : cstr) (pbhead : list cstr) : M Σ (list cstr) :=
  fp ← try (Fopen file);
  match fp with
  | None => mret pbhead
  | Some fp =>
      fsz ← filesize fp;
      if fsz =? 0 then sys (Fclose fp);; mret pbhead
      else
        t ← sys (Fread fp);
        let d := take (Z.to_nat fsz) t in
        sys (Fclose fp);;
        if zlength d =? 0 then mret pbhead
        else if zlength d <? fsz then lift Undef
        else mret (d :: pbhead)
  end.

Definition read_task_file (relpath : cstr) (pbhead : list cstr) : M Σ (list cstr) :=
  buf ← full2 relpath (str "tasks"); add_pidblock buf pbhead.

Definition pidcount (buf : cstr) : Z := zlength (filter (λ c, c = "010"%char) buf).

(** [n] is the index of the next pid. *)
Fixpoint pid_transform (fuel : nat) (a : cstr) (pids : list Z) (n : Z) : res (list Z * Z) :=
  match fuel with
  | O => NoFuel
  | S fuel =>
      match a with
      | [] => Ret (pids, n)
      | _ =>
          let '(p, b) := strtoul 10 a in
          if zlength a =? zlength b then Ret (pids, n)
          else pids ← mem_write pids n [s32 p]; pid_transform fuel b pids (n + 1)
      end
  end.

Definition numericsort (p1 p2 : Z) : Z := s32 (p1 - p2).
#[global] Instance numericsort_dec : RelDecision (λ p1 p2, numericsort p1 p2 ≤ 0) := λ p1 p2, decide (numericsort p1 p2 ≤ 0).

Fixpoint transform_blocks (pbs : list cstr) (pids : list Z) (n : Z) : res (list Z) :=
  match pbs with
  | [] => Ret pids
  | pb :: pbs => r ← pid_transform (S (length pb)) pb pids n; transform_blocks pbs r.1 r.2
  end.
Definition pidlist_of (pbs : list cstr) : res (list Z) :=
  let npids := foldl (λ n pb, n + pidcount pb) 0 pbs in
  pids ← transform_blocks pbs (replicate (Z.to_nat npids) 0) 0;
  Ret (merge_sort (λ p1 p2, numericsort p1 p2 ≤ 0) pids).

Fixpoint read_task_files (es : list cpuset_fts_entry) (pbhead : list cstr) : M Σ (list cstr) :=
  match es with
  | [] => mret pbhead
  | e :: es =>
      match cpuset_fts_get_info e with
      | CPUSET_FTS_CPUSET => pbhead ← read_task_file (cpuset_fts_get_path e) pbhead; read_task_files es pbhead
      | _ => read_task_files es pbhead
      end
  end.

Definition cpuset_init_pidlist (relpath : cstr) (recursiveflag : bool) : M Σ (option (list Z)) :=
  c ← check;
  if c <? 0 then mret None
  else
    pbs ← (if recursiveflag then
             t ← cpuset_fts_open relpath;
             match t with None => mret None | Some t => pbs ← read_task_files (tree_next t) []; mret (Some pbs) end
           else pbs ← read_task_file relpath []; mret (Some pbs));
    match pbs with
    | None => mret None
    | Some pbs => pids ← lift (pidlist_of pbs); mret (Some pids)
    end.

Definition cpuset_pidlist_length (pl : option (list Z)) : Z := match pl with Some l => zlength l | None => 0 end.
Definition cpuset_get_pidlist (pl : option (list Z)) (i : Z) : Z :=
  match pl with
  | Some l => if (0 <=? i) && (i <? zlength l) then l !!! Z.to_nat i else -1
  | None => -1
  end.

(** ** Moving tasks *)

Definition __cpuset_move (pid : Z) (path : cstr) : M Σ Z := write_string_file path (snprintf_cut SMALL_BUFSZ (fmt_d (u32 pid))).

Definition cpuset_move (pid : Z) (relpath : cstr) : M Σ Z :=
  c ← check;
  if c <? 0 then mret (-1)
  else
    pid ← (if pid =? 0 then sys Getpid else mret pid);
    buf ← full2 relpath (str "tasks"); __cpuset_move pid buf.

(** The loop of cpuset_move_all and cpuset_migrate_all. *)
Fixpoint move_loop (pids : list Z) (buf : cstr) (ret : Z) : M Σ Z :=
  match pids with
  | [] => mret ret
  | pid :: pids => r ← __cpuset_move pid buf; move_loop pids buf (if r <? 0 then -1 else ret)
  end.

Definition cpuset_move_all (pl : list Z) (relpath : cstr) : M Σ Z :=
  c ← check;
  if c <? 0 then mret (-1) else buf ← full2 relpath (str "tasks"); move_loop pl buf 0.

Definition cpuset_reattach (relpath : cstr) : M Σ Z :=
  pl ← cpuset_init_pidlist relpath false;
  match pl with None => mret (-1) | Some pl => cpuset_move_all pl relpath end.

Definition NUMBER_MOVE_TASK_ATTEMPTS : nat := 10.

(** One attempt; none for [goto failed], with errno in place. *)
Fixpoint move_each (pids : list Z) (torelpath : cstr) : M Σ bool :=
  match pids with
  | [] => mret true
  | pid :: pids =>
      r ← cpuset_move pid torelpath;
      if r <? 0 then e ← get errno; if e =? ESRCH then move_each pids torelpath else mret false
      else move_each pids torelpath
  end.

Fixpoint move_attempts (n : nat) (fromrelpath torelpath : cstr) : M Σ Z :=
  match n with
  | O => put (set_errno ENOTEMPTY);; mret (-1)
  | S n =>
      pl ← cpuset_init_pidlist fromrelpath false;
      match pl with
      | None => e ← get errno; if e =? ENOENT then put (set_errno 0);; mret 0 else mret (-1)
      | Some l =>
          if cpuset_pidlist_length pl =? 0 then put (set_errno 0);; mret 0
          else good ← move_each l torelpath; if good : bool then move_attempts n fromrelpath torelpath else mret (-1)
      end
  end.

Definition cpuset_move_cpuset_tasks (fromrelpath torelpath : cstr) : M Σ Z :=
  from ← full fromrelpath; to ← full torelpath;
  same ← samefile from to;
  if same : bool then cpuset_reattach fromrelpath else move_attempts NUMBER_MOVE_TASK_ATTEMPTS fromrelpath torelpath.

Definition cpuset_migrate (pid : Z) (relpath : cstr) : M Σ Z :=
  c ← check;
  if c <? 0 then mret (-1)
  else
    pid ← (if pid =? 0 then sys Getpid else mret pid);
    buf2 ← full relpath;
    f ← load_flag buf2 (str "memory_migrate");
    match f with
    | None => mret (-1)
    | Some f =>
        r ← store_flag buf2 (str "memory_migrate") 1;
        if r <? 0 then mret (-1)
        else
          buf ← full2 relpath (str "tasks");
          r ← __cpuset_move pid buf;
          _ ← store_flag buf2 (str "memory_migrate") f;
          mret r
    end.

Definition cpuset_migrate_all (pl : list Z) (relpath : cstr) : M Σ Z :=
  c ← check;
  if c <? 0 then mret (-1)
  else
    buf2 ← full relpath;
    f ← load_flag buf2 (str "memory_migrate");
    match f with
    | None => mret (-1)
    | Some f =>
        r ← store_flag buf2 (str "memory_migrate") 1;
        if r <? 0 then mret (-1)
        else
          buf ← full2 relpath (str "tasks");
          ret ← move_loop pl buf 0;
          r ← store_flag buf2 (str "memory_migrate") f;
          mret (if r <? 0 then -1 else ret)
    end.

(** ** Removing a cpuset *)

(** False for [goto failed]; init is never killed. *)
Fixpoint kill_each (pids : list Z) : M Σ bool :=
  match pids with
  | [] => mret true
  | pid :: pids =>
      if 1 <? pid then
        r ← try (Kill pid SIGKILL); e ← get errno;
        if negb (ok r) && negb (e =? ESRCH) then mret false else kill_each pids
      else kill_each pids
  end.

(** How the first loop ends. *)
Inductive nuke_end : Type := rmdir_cpusets | no_more_cpuset | failed | took_too_long.

Fixpoint nuke_loop (fuel : nat) (relpath : cstr) (secs_left secs_loop : Z) : M Σ nuke_end :=
  match fuel with
  | O => lift NoFuel
  | S fuel =>
      pl ← cpuset_init_pidlist relpath true;
      match pl with
      | None => e ← get errno; mret (if e =? ENOENT then no_more_cpuset else failed)
      | Some l =>
          if cpuset_pidlist_length pl =? 0 then mret rmdir_cpusets
          else
            good ← kill_each l;
            if negb good then mret failed
            else if secs_left =? 0 then mret took_too_long
            else
              r ← sys (Sleep secs_loop);
              let secs_slept := u32 (secs_loop - r) in
              let secs_slept := if secs_slept =? 0 then 1 else secs_slept in
              let secs_slept := if secs_loop <? secs_slept then secs_loop else secs_slept in
              let secs_left := u32 (secs_left - secs_slept) in
              let secs_loop := if secs_loop <? 10 then secs_loop + 1 else secs_loop in
              nuke_loop fuel relpath secs_left (Z.min secs_left secs_loop)
      end
  end.

(** [ret] and [sav_errno]. *)
Fixpoint rmdir_each (es : list cpuset_fts_entry) (ret sav_errno : Z) : M Σ (Z * Z) :=
  match es with
  | [] => mret (ret, sav_errno)
  | e :: es =>
      buf ← full (cpuset_fts_get_path e);
      r ← try (Rmdir buf); err ← get errno;
      if negb (ok r) && negb (err =? ENOENT) then rmdir_each es (-1) err else rmdir_each es ret sav_errno
  end.

Definition nuke_finish (ret sav_errno : Z) : M Σ Z := put (set_errno (if ret =? 0 then 0 else sav_errno));; mret ret.

Definition cpuset_nuke (relpath : cstr) (seconds : Z) : M Σ Z :=
  c ← check;
  if c <? 0 then mret (-1)
  else
    e ← (if seconds =? 0 then mret rmdir_cpusets else nuke_loop (S (Z.to_nat seconds)) relpath seconds 1);
    match e with
    | took_too_long => put (set_errno ETIME);; mret (-1)
    | failed => mret (-1)
    | no_more_cpuset => nuke_finish 0 0
    | rmdir_cpusets =>
        t ← cpuset_fts_open relpath;
        match t with
        | None => err ← get errno; if negb (err =? ENOENT) then mret (-1) else lift Undef
        | Some t => r ← rmdir_each (tree_next (cpuset_fts_reverse t)) 0 0; nuke_finish r.1 r.2
        end
    end.

(** ** Relative numbers *)

Definition c_map (sel : cpuset → item (option bitmask)) (f : bitmask → Z → Z) (cp : option cpuset) (n : Z) : M Σ Z :=
  cp1 ← resolve_cp cp;
  match cp1 with
  | None => mret (-1)
  | Some cp1 => match value (sel cp1) with Some b => mret (s32 (f b (u32 n))) | None => lift Undef end
  end.
Definition cpuset_c_rel_to_sys_cpu : option cpuset → Z → M Σ Z := c_map cpus bitmask_rel_to_abs_pos.
Definition cpuset_c_sys_to_rel_cpu : option cpuset → Z → M Σ Z := c_map cpus bitmask_abs_to_rel_pos.
Definition cpuset_c_rel_to_sys_mem : option cpuset → Z → M Σ Z := c_map mems bitmask_rel_to_abs_pos.
Definition cpuset_c_sys_to_rel_mem : option cpuset → Z → M Σ Z := c_map mems bitmask_abs_to_rel_pos.

Definition p_map (f : option cpuset → Z → M Σ Z) (pid n : Z) : M Σ Z :=
  cp ← cpuset_alloc; q ← cpuset_cpusetofpid cp pid; if q.1 <? 0 then mret (-1) else f (Some q.2) n.
Definition cpuset_p_rel_to_sys_cpu : Z → Z → M Σ Z := p_map cpuset_c_rel_to_sys_cpu.
Definition cpuset_p_sys_to_rel_cpu : Z → Z → M Σ Z := p_map cpuset_c_sys_to_rel_cpu.
Definition cpuset_p_rel_to_sys_mem : Z → Z → M Σ Z := p_map cpuset_c_rel_to_sys_mem.
Definition cpuset_p_sys_to_rel_mem : Z → Z → M Σ Z := p_map cpuset_c_sys_to_rel_mem.

(** ** Placement *)

Record cpuset_placement : Type := Placement { pl_cpus : bitmask; pl_mems : bitmask; pl_path : cstr }.

Definition cpuset_get_placement (pid : Z) : M Σ (option cpuset_placement) :=
  nc ← cpuset_cpus_nbits; nm ← cpuset_mems_nbits;
  cp ← cpuset_alloc;
  r ← cpuset_getcpusetpath pid [] PATH_MAX;
  let '(found, b) := r in
  if negb found then mret None
  else
    buf ← text b;
    q ← cpuset_query sfuel cp buf;
    let '(rc, cp) := q in
    if rc <? 0 then mret None
    else
      match value (cpus cp), value (mems cp) with
      | Some c, Some m => mret (Some (Placement (copy_mask (new_mask nc) c) (copy_mask (new_mask nm) m) buf))
      | _, _ => lift Undef
      end.

Definition cpuset_equal_placement (p1 p2 : option cpuset_placement) : res bool :=
  match p1, p2 with
  | Some p1, Some p2 =>
      Ret (negb (bitmask_equal (pl_cpus p1) (pl_cpus p2) =? 0) && negb (bitmask_equal (pl_mems p1) (pl_mems p2) =? 0) &&
           streq (pl_path p1) (pl_path p2))
  | _, _ => Undef
  end.

Definition cpuset_cpubind (cpu : Z) : M Σ Z :=
  n ← cpuset_cpus_nbits;
  let bmp := set_bit (new_mask n) (u32 cpu) in
  r ← try (SetAffinity 0 (bitmask_nbytes bmp) (bitmask_mask bmp)); mret (if ok r then 0 else -1).

Definition MPOL_DEFAULT : Z := 0.
Definition MPOL_BIND : Z := 2.

Definition cpuset_membind (mem : Z) : M Σ Z :=
  n ← cpuset_mems_nbits;
  let bmp := set_bit (new_mask n) (u32 mem) in
  r ← try (SetMempolicy MPOL_BIND (bitmask_mask bmp) (bitmask_nbits bmp + 1)); mret (if ok r then 0 else -1).

(** Conversions %*s and %*u, and the rest. *)
Definition skip_s (s : cstr) : option cstr := let '(w, rest) := span (λ c, negb (isspace c)) (skip_space s) in match w with [] => None | _ => Some rest end.
Fixpoint skip_us (k : nat) (s : cstr) : option cstr :=
  match k with O => Some s | S k => match scan_u s with Some (_, s) => skip_us k s | None => None end end.
(** The 37th field. *)
Definition scan_cpu (s : cstr) : Z :=
  match s ← skip_s s; s ← skip_us 35 s; scan_u s with Some (cpu, _) => s32 cpu | None => -1 end.
(** strrchr: what follows the last closing parenthesis. *)
Definition after_paren (s : cstr) : option cstr :=
  let '(a, b) := span (λ c, negb (c =c ")"%char)) (reverse s) in match b with [] => None | _ => Some (reverse a) end.

(** [stack] is what the array holds at first: the text that is read is not
    terminated. *)
Definition cpuset_latestcpu (stack : cstr) (pid : Z) : M Σ Z :=
  let t := snprintf_cut PATH_MAX (if pid =? 0 then str "/proc/self/stat" else str "/proc/" ++ fmt_d pid ++ str "/stat") in
  fd ← try (OpenRead t);
  match fd with
  | None => mret (-1)
  | Some fd =>
      r ← try (Read fd PATH_MAX);
      match r with
      | None | Some [] => sys (Close fd);; mret (-1)
      | Some d =>
          sys (Close fd);;
          let buf := store (store stack 0 (t ++ [NUL])) 0 d in
          if negb (mem NUL buf) then lift Undef
          else
            let cpu := match after_paren (as_string buf) with Some s => scan_cpu s | None => -1 end in
            (if cpu <? 0 then put (set_errno EINVAL) else mret ());; mret cpu
      end
  end.

Definition cpuset_unpin : M Σ Z :=
  c ← check;
  if c <? 0 then mret (-1)
  else
    n ← cpuset_cpus_nbits;
    let cpus := set_all (new_mask n) in
    r ← try (SetAffinity 0 (bitmask_nbytes cpus) (bitmask_mask cpus));
    if negb (ok r) then mret (-1)
    else
      n ← cpuset_mems_nbits;
      let mems := new_mask n in
      r ← try (SetMempolicy MPOL_DEFAULT (bitmask_mask mems) (bitmask_nbits mems + 1));
      mret (if ok r then 0 else -1).

(** The loop of cpuset_pin, cpuset_size and cpuset_where: [body] between two looks at
    the placement, until they agree. *)
Fixpoint stable_loop (fuel : nat) (body : M Σ Z) : M Σ Z :=
  match fuel with
  | O => lift NoFuel
  | S fuel =>
      plc1 ← cpuset_get_placement 0;
      r ← body;
      plc2 ← cpuset_get_placement 0;
      e ← lift (cpuset_equal_placement plc1 plc2);
      if e : bool then mret r else stable_loop fuel body
  end.

Definition pin_body (relcpu : Z) : M Σ Z :=
  r1 ← cpuset_unpin;
  cpu ← cpuset_p_rel_to_sys_cpu 0 relcpu;
  r2 ← cpuset_cpubind cpu;
  mret (if (r1 <? 0) || (r2 <? 0) then -1 else 0).

Definition cpuset_pin (fuel : nat) (relcpu : Z) : M Σ Z := c ← check; if c <? 0 then mret (-1) else stable_loop fuel (pin_body relcpu).
Definition cpuset_size (fuel : nat) : M Σ Z := c ← check; if c <? 0 then mret (-1) else stable_loop fuel (cpuset_cpus_weight None).
Definition cpuset_where (stack : cstr) (fuel : nat) : M Σ Z :=
  c ← check;
  if c <? 0 then mret (-1) else stable_loop fuel (cpu ← cpuset_latestcpu stack 0; cpuset_p_sys_to_rel_cpu 0 cpu).

Definition cpuset_pin_ (fuel : nat) (relcpu : Z) : M Σ Z := cpuset_pin fuel relcpu.
Definition cpuset_size_ (fuel : nat) : M Σ Z := cpuset_size fuel.
Definition cpuset_where_ (stack : cstr) (fuel : nat) : M Σ Z := cpuset_where stack fuel.
Definition cpuset_unpin_ : M Σ Z := cpuset_unpin.
End cpuset_tasks.

(** ** Functions by name *)

Definition flist : list string :=
  ["cpuset_version"; "cpuset_alloc"; "cpuset_free"; "cpuset_cpus_nbits"; "cpuset_mems_nbits"; "cpuset_setcpus"; "cpuset_setmems";
   "cpuset_set_iopt"; "cpuset_set_sopt"; "cpuset_getcpus"; "cpuset_getmems"; "cpuset_cpus_weight"; "cpuset_mems_weight";
   "cpuset_get_iopt"; "cpuset_get_sopt"; "cpuset_localcpus"; "cpuset_localmems"; "cpuset_cpumemdist"; "cpuset_cpu2node";
   "cpuset_addr2node"; "cpuset_create"; "cpuset_delete"; "cpuset_query"; "cpuset_modify"; "cpuset_getcpusetpath";
   "cpuset_cpusetofpid"; "cpuset_mountpoint"; "cpuset_collides_exclusive"; "cpuset_nuke"; "cpuset_init_pidlist";
   "cpuset_pidlist_length"; "cpuset_get_pidlist"; "cpuset_freepidlist"; "cpuset_move"; "cpuset_move_all";
   "cpuset_move_cpuset_tasks"; "cpuset_migrate"; "cpuset_migrate_all"; "cpuset_reattach"; "cpuset_open_memory_pressure";
   "cpuset_read_memory_pressure"; "cpuset_close_memory_pressure"; "cpuset_c_rel_to_sys_cpu"; "cpuset_c_sys_to_rel_cpu";
   "cpuset_c_rel_to_sys_mem"; "cpuset_c_sys_to_rel_mem"; "cpuset_p_rel_to_sys_cpu"; "cpuset_p_sys_to_rel_cpu";
   "cpuset_p_rel_to_sys_mem"; "cpuset_p_sys_to_rel_mem"; "cpuset_get_placement"; "cpuset_equal_placement";
   "cpuset_free_placement"; "cpuset_fts_open"; "cpuset_fts_read"; "cpuset_fts_reverse"; "cpuset_fts_rewind";
   "cpuset_fts_get_path"; "cpuset_fts_get_stat"; "cpuset_fts_get_cpuset"; "cpuset_fts_get_errno"; "cpuset_fts_get_info";
   "cpuset_fts_close"; "cpuset_cpubind"; "cpuset_latestcpu"; "cpuset_membind"; "cpuset_export"; "cpuset_import";
   "cpuset_function"; "cpuset_pin"; "cpuset_size"; "cpuset_where"; "cpuset_unpin"].

(** The index of the function, or none for the null pointer. *)
Definition cpuset_function (function_name : cstr) : option nat := fst <$> list_find (λ n, streq function_name (str n) = true) flist.
