(* ===== verification/CpusetText.v ===== *)
(** * The text format of cpusets

    cpuset_export and cpuset_import of libcpuset.c, and that they are inverse to each
    other. *)

From S2P Require Import Prelude CInt CMem CString Bitmask BitmaskText Splitstr CpusetPath Cpuset.
Local Open Scope Z_scope.

(** ** Export *)

Definition export_order : list field :=
  [CpuExclusive; MemExclusive; NotifyOnRelease; MemoryPressureEnabled; MemoryMigrate; MemorySpreadPage; MemorySpreadSlab].

Definition newline : ascii := "010"%char.

(** [n += snprintf(buf + n, max(buflen - n, 0), t)]. *)
Definition export_text (buflen : Z) (st : cstr * Z) (t : cstr) : cstr * Z :=
  let '(buf, n) := st in (snprintf_at buf n (Z.max (buflen - n) 0) t, n + zlength t).

Definition export_flag (cp : cpuset) (buflen : Z) (st : cstr * Z) (f : field) : cstr * Z :=
  if value (get_field f cp) =? 0 then st else export_text buflen st (fname f ++ [newline]).

Definition export_mask (name : cstr) (b : option bitmask) (buflen : Z) (st : cstr * Z) : res (cstr * Z) :=
  match b with
  | None => Undef
  | Some b => tmp ← sprint_mask_buf b; Ret (export_text buflen st (name ++ str " " ++ tmp ++ [newline]))
  end.

Definition cpuset_export (cp : cpuset) (buf : cstr) (buflen : Z) : res (cstr * Z) :=
  let st := foldl (export_flag cp buflen) (buf, 0) export_order in
  st ← export_mask (str "cpus") (value (cpus cp)) buflen st;
  export_mask (str "mems") (value (mems cp)) buflen st.

(** ** Import *)

Definition tolower (c : ascii) : ascii := if (65 <=? code c) && (code c <=? 90) then chr (code c + 32) else c.
Definition stolower (s : cstr) : cstr := tolower <$> s.

Inductive import_error : Type :=
| InvalidList (arg : cstr)
| UnrecognizedToken (tok : cstr)
| SurplusToken (tok : cstr).

Definition emsg_text (e : import_error) : cstr :=
  match e with
  | InvalidList arg => str "Invalid list format: " ++ arg
  | UnrecognizedToken tok => str "Unrecognized token: '" ++ tok ++ str "'"
  | SurplusToken tok => str "Surplus token: '" ++ tok ++ str "'"
  end.

Section import.
Context (sfuel : nat).

(** A null pointer has no terms. *)
Definition import_list (arg : option cstr) (b : bitmask) : res (option import_error * bitmask) :=
  match arg with
  | None => Ret (None, clear_mask b)
  | Some t => r ← parse_list sfuel b t; Ret (if r.1 <? 0 then Some (InvalidList t) else None, r.2)
  end.

(** The comparisons of the first token. *)
Definition import_token (cp : cpuset) (tok : cstr) (arg : option cstr) : res (option import_error * cpuset) :=
  match List.find (λ f, streq tok (fname f)) export_order with
  | Some f => let i := get_field f cp in Ret (None, set_field f (Item 1 (valid i) (dirty i)) cp)
  | None =>
      if streq tok (str "cpu") || streq tok (str "cpus") then
        match value (cpus cp) with
        | None => Undef
        | Some b => r ← import_list arg b; Ret (r.1, set_cpus_item (Item (Some r.2) (valid (cpus cp)) (dirty (cpus cp))) cp)
        end
      else if streq tok (str "mem") || streq tok (str "mems") then
        match value (mems cp) with
        | None => Undef
        | Some b => r ← import_list arg b; Ret (r.1, set_mems_item (Item (Some r.2) (valid (mems cp)) (dirty (mems cp))) cp)
        end
      else Ret (Some (UnrecognizedToken tok), cp)
  end.

Definition import_line (cp : cpuset) (line : cstr) : res (option import_error * cpuset) :=
  let line := (span (λ c, negb (c =c "#"%char)) line).1 in
  match strtok_all line (str " " ++ ["009"%char]) with
  | [] => Ret (None, cp)
  | tok :: toks =>
      r ← import_token cp (stolower tok) (head toks);
      let '(e, cp) := r in
      match e with
      | Some e => Ret (Some e, cp)
      | None => match tail toks with t :: _ => Ret (Some (SurplusToken t), cp) | [] => Ret (None, cp) end
      end
  end.

(** The loop over the lines: the number of the last line, and its error if it had
    one. *)
Fixpoint import_lines (fuel : nat) (linebuflen : Z) (cp : cpuset) (s : cstr) (linenum : Z) : res (option import_error * cpuset * Z) :=
  match fuel with
  | O => NoFuel
  | S fuel =>
      match slgets linebuflen s with
      | (None, _) => Ret (None, cp, linenum)
      | (Some l, s) =>
          r ← import_line cp l;
          match r with
          | (Some e, cp) => Ret (Some e, cp, linenum + 1)
          | (None, cp) => import_lines fuel linebuflen cp s (linenum + 1)
          end
      end
  end.

Definition set_valid (cp : cpuset) (f : field) : cpuset := let i := get_field f cp in set_field f (Item (value i) true (dirty i)) cp.
Definition all_valid (cp : cpuset) : cpuset :=
  let cp := set_cpus_item (Item (value (cpus cp)) true (dirty (cpus cp))) cp in
  let cp := set_mems_item (Item (value (mems cp)) true (dirty (mems cp))) cp in
  foldl set_valid cp [CpuExclusive; MemExclusive; NotifyOnRelease; MemoryMigrate; MemoryPressureEnabled; MemorySpreadPage; MemorySpreadSlab].

Context {Σ : Type} `{!Kernel Σ}.

(** One of the masks from the other one, when just one of them is empty. *)
Definition import_local (cp : cpuset) : M Σ cpuset :=
  match value (cpus cp), value (mems cp) with
  | Some c, Some m =>
      let cz := negb (bitmask_isallclear c =? 0) in
      let mz := negb (bitmask_isallclear m =? 0) in
      if cz && negb mz then
        r ← cpuset_localcpus m c; mret (set_cpus_item (Item (Some r.2) (valid (cpus cp)) (dirty (cpus cp))) cp)
      else if negb cz && mz then
        r ← cpuset_localmems c m; mret (set_mems_item (Item (Some r.2) (valid (mems cp)) (dirty (mems cp))) cp)
      else mret cp
  | _, _ => lift Undef
  end.

(** The return value, the cpuset, the line number and the message of an error. *)
Definition cpuset_import (cp : cpuset) (buf : cstr) (elen : Z) : M Σ (Z * cpuset * option (Z * cstr)) :=
  r ← lift (import_lines (S (length buf)) (zlength buf + 1) cp buf 0);
  match r with
  | (Some e, cp, linenum) => mret (-1, cp, Some (linenum, snprintf_cut elen (emsg_text e)))
  | (None, cp, _) => cp ← import_local cp; mret (0, all_valid cp, None)
  end.
End import.

(** ** The text *)

Definition mask_text (b : bitmask) : cstr :=
  join (List.map term_text (ranges (S (Z.to_nat (size b))) b (bitmask_first b) (bitmask_first b))).

Definition export_lines (cp : cpuset) (bc bm : bitmask) : list cstr :=
  (fname <$> filter (λ f, value (get_field f cp) ≠ 0) export_order) ++ [str "cpus " ++ mask_text bc; str "mems " ++ mask_text bm].

Definition unlines (ls : list cstr) : cstr := ls ≫= λ l, l ++ [newline].

Lemma sprint_mask b : wf b → size b ≤ 2 ^ 31 → sprint_mask_buf b = Ret (mask_text b).
Proof.
  intros Hb Hs. destruct Hb as [Hsz Hb']. assert (Hb : wf b) by done. unfold sprint_mask_buf.
  rewrite displaylist_text by (done || (cbn; lia)). cbn [mbind res_bind snd].
  rewrite displaylist_text by (done || (rewrite ?length_replicate; lia)). cbn [mbind res_bind fst]. f_equal.
  rewrite as_string_hold; [done| |rewrite length_replicate; unfold mask_text; lia].
  eapply terms_no_nul. apply (displaylist_terms (S (Z.to_nat (size b)))); [done|lia].
Qed.

(** The state of an export after the text [t]. *)
Definition holds (buf : cstr) (n : Z) (t : cstr) (st : cstr * Z) : Prop := st = (hold buf n t, zlength t) ∨ t = [] ∧ st = (buf, 0).

Lemma export_text_holds buf n t t' st : 1 ≤ n ≤ zlength buf → t' ≠ [] → holds buf n t st → holds buf n (t ++ t') (export_text n st t').
Proof.
  intros Hn Ht [->|[-> ->]]; left; unfold export_text.
  - rewrite hold_app by done. rewrite length_app. f_equal. lia.
  - unfold snprintf_at. rewrite Z.max_l, Z.sub_0_r by lia. rewrite (proj2 (Z.eqb_neq n 0)) by lia. done.
Qed.

Lemma export_flags_holds cp buf n l t st : 1 ≤ n ≤ zlength buf → holds buf n t st →
  holds buf n (t ++ unlines (fname <$> filter (λ f, value (get_field f cp) ≠ 0) l)) (foldl (export_flag cp n) st l).
Proof.
  intros Hn. revert t st. induction l as [|f l IH]; intros t st Hst; cbn [foldl]; [by rewrite app_nil_r|].
  unfold export_flag at 2. destruct (Z.eqb_spec (value (get_field f cp)) 0) as [E|E].
  - rewrite filter_cons_False by (by intros ?). by apply IH.
  - rewrite filter_cons_True by done. cbn [fmap list_fmap unlines mbind list_bind]. rewrite (app_assoc t). apply IH.
    apply export_text_holds; [done| |done]. by destruct (fname f).
Qed.

Lemma export_spec cp buf n bc bm : 1 ≤ n ≤ zlength buf →
  value (cpus cp) = Some bc → value (mems cp) = Some bm → wf bc → wf bm → size bc ≤ 2 ^ 31 → size bm ≤ 2 ^ 31 →
  let t := unlines (export_lines cp bc bm) in cpuset_export cp buf n = Ret (hold buf n t, zlength t).
Proof.
  intros Hn Ec Em Hc Hm Sc Sm t. unfold cpuset_export, export_mask. rewrite Ec, Em, !sprint_mask by done. cbn [mbind res_bind].
  pose proof (export_flags_holds cp buf n export_order [] (buf, 0) Hn ltac:(by right)) as H1.
  eapply (export_text_holds _ _ _ (str "cpus" ++ str " " ++ mask_text bc ++ [newline])) in H1; [|done|done].
  eapply (export_text_holds _ _ _ (str "mems" ++ str " " ++ mask_text bm ++ [newline])) in H1; [|done|done].
  assert (Et : t = (([] ++ unlines (fname <$> filter (λ f, value (get_field f cp) ≠ 0) export_order)) ++
    str "cpus" ++ str " " ++ mask_text bc ++ [newline]) ++ str "mems" ++ str " " ++ mask_text bm ++ [newline]).
  { unfold t, export_lines, unlines. rewrite bind_app. cbn [mbind list_bind]. rewrite app_nil_r. cbn [app].
    rewrite <- !app_assoc. done. }
  rewrite Et. destruct H1 as [->|[H1 _]]; [done|]. apply app_eq_nil in H1 as [_ H1]. done.
Qed.

(** ** Lines *)

Definition line_char (c : ascii) : bool := (0 <? code c) && (code c <? 128) && negb (c =c newline).

Lemma line_char_s8 c : line_char c = true → s8 (code c) = code c ∧ 0 < code c ∧ code c ≠ 10 ∧ chr (code c) = c.
Proof. destruct c as [[] [] [] [] [] [] [] []]; intros H; try discriminate H; vm_compute; repeat split; discriminate. Qed.

(** For both ways to read a character. *)
Definition reads_chars (next : cstr → Z * cstr) : Prop := ∀ c s, (line_char c = true ∨ c = newline) → next (c :: s) = (code c, s).
Lemma sgetc_reads : reads_chars sgetc.
Proof. intros c s [Hc| ->]; [|done]. unfold sgetc. by destruct (line_char_s8 c Hc) as (-> & _). Qed.
Lemma getc_reads : reads_chars getc.
Proof. done. Qed.

Lemma gets_copy_line next k c l rest : reads_chars next → (length l < k)%nat → Forall (λ c, line_char c = true) l →
  gets_copy next k c (l ++ newline :: rest) = (10, l, rest, true).
Proof.
  intros Hr. revert k c. induction l as [|x l IH]; intros [|k] c Hk Hl; try (simpl in Hk; lia); cbn [gets_copy app].
  - by rewrite Hr by (by right).
  - inversion Hl as [|? ? Hx Hl']; subst. destruct (line_char_s8 x Hx) as (_ & E2 & E3 & E4). rewrite Hr by (by left).
    destruct (Z.ltb_spec (code x) 0); [lia|]. destruct (Z.eqb_spec (code x) 10); [lia|].
    rewrite IH by (done || (simpl in Hk; lia)). by rewrite E4.
Qed.

Lemma lgets_line next n l rest : reads_chars next → zlength l + 1 < n → Forall (λ c, line_char c = true) l → lgets next n (l ++ newline :: rest) = (Some l, rest).
Proof. intros Hr Hn Hl. unfold lgets. by rewrite gets_copy_line by (done || lia). Qed.

Lemma slgets_end n : slgets n [] = (None, []).
Proof. unfold slgets, lgets. by destruct (Z.to_nat (n - 1)). Qed.

(** Lines that are imported one after the other. *)
Fixpoint imports (sfuel : nat) (cp : cpuset) (ls : list cstr) (cp' : cpuset) : Prop :=
  match ls with
  | [] => cp' = cp
  | l :: ls => ∃ cp1, import_line sfuel cp l = Ret (None, cp1) ∧ imports sfuel cp1 ls cp'
  end.

Lemma imports_app sfuel cp l1 l2 cp1 cp2 : imports sfuel cp l1 cp1 → imports sfuel cp1 l2 cp2 → imports sfuel cp (l1 ++ l2) cp2.
Proof. revert cp. induction l1 as [|l l1 IH]; intros cp; cbn; [by intros ->|]. intros (c & E & H) H2. exists c. split; [done|]. by apply IH. Qed.

Lemma import_lines_ok sfuel fuel n cp ls cp' num : (length (unlines ls) < fuel)%nat → zlength (unlines ls) < n →
  Forall (Forall (λ c, line_char c = true)) ls → imports sfuel cp ls cp' →
  import_lines sfuel fuel n cp (unlines ls) num = Ret (None, cp', num + zlength ls).
Proof.
  revert fuel cp num. induction ls as [|l ls IH]; intros fuel cp num Hf Hn Hl Hi; (destruct fuel as [|fuel]; [lia|]); cbn [import_lines].
  - cbn in Hi |- *. rewrite slgets_end, Hi. do 2 f_equal. cbn. lia.
  - inversion Hl as [|? ? Hl1 Hl2]; subst. destruct Hi as (cp1 & E & Hi). change (unlines (l :: ls)) with ((l ++ [newline]) ++ unlines ls) in *.
    rewrite !length_app in *. cbn [length] in *. rewrite <- app_assoc. cbn [app]. unfold slgets. rewrite lgets_line by (apply sgetc_reads || done || lia). rewrite E. cbn [mbind res_bind].
    rewrite (IH fuel cp1) by (done || lia). do 2 f_equal. lia.
Qed.

(** ** The lines of an export *)

Definition mask_char (c : ascii) : bool := isdigit c || (c =c ","%char) || (c =c "-"%char) || (c =c ":"%char).

Lemma mask_char_line c : mask_char c = true →
  line_char c = true ∧ (c =c NUL) = false ∧ (c =c "#"%char) = false ∧ mem c (str " " ++ ["009"%char]) = false.
Proof. destruct c as [[] [] [] [] [] [] [] []]; intros H; try discriminate H; done. Qed.

Lemma digits_chars n : 0 ≤ n → Forall (λ c, mask_char c = true) (digits 10 n).
Proof.
  intros Hn. destruct (digits_spec 10 n ltac:(lia) Hn) as (_ & Hd & _). eapply Forall_impl; [exact Hd|].
  intros c. destruct c as [[] [] [] [] [] [] [] []]; intros H; try discriminate H; done.
Qed.

Lemma term_chars n t : term_ok n t → Forall (λ c, mask_char c = true) (term_text t).
Proof.
  destruct t as [[a b] s]. intros (Ha & Hb & Hs & _).
  assert (Ea := digits_chars a ltac:(lia)). assert (Eb := digits_chars b ltac:(lia)). assert (Es := digits_chars s ltac:(lia)).
  unfold term_text. repeat case_if; repeat first [done|apply Forall_app; split|apply Forall_cons; split].
Qed.

Lemma join_chars (P : ascii → Prop) ws : P ","%char → Forall (Forall P) ws → Forall P (join ws).
Proof.
  intros Hc. induction 1 as [|w ws Hw Hws IH]; [constructor|]. rewrite join_cons. apply Forall_app. split; [done|].
  unfold more. destruct ws; constructor; done.
Qed.

Lemma mask_text_chars b : wf b → Forall (λ c, mask_char c = true) (mask_text b).
Proof.
  intros Hb. pose proof (proj1 Hb). apply join_chars; [done|]. apply Forall_map.
  eapply Forall_impl; [apply (displaylist_terms (S (Z.to_nat (size b)))); [done|lia]|]. intros t. apply term_chars.
Qed.

(** A list gives the bits that it was made of. *)
Lemma parse_mask_text sfuel b b0 : wf b → wf b0 → size b0 = size b → size b < Z.of_nat sfuel → mask_text b ≠ [] →
  ∃ b', parse_list sfuel b0 (mask_text b) = Ret (0, b') ∧ wf b' ∧ size b' = size b ∧ same_bits b' b.
Proof.
  intros Hb H0 Hs Hf Hne. pose proof (proj1 Hb). unfold parse_list.
  set (l := ranges (S (Z.to_nat (size b))) b (bitmask_first b) (bitmask_first b)).
  destruct (displaylist_terms (S (Z.to_nat (size b))) b Hb ltac:(lia)) as [Hok Hbits]. fold l in Hok, Hbits.
  assert (Hh : h_size {[1%positive := b0]} 1 = size b) by (unfold h_size; by rewrite lookup_total_singleton).
  destruct (parselist_text sfuel {[1%positive := b0]} 1 l) as (h' & E & W & _ & S & B).
  - apply hwf_insert; [apply hwf_empty|done].
  - intros El. apply Hne. unfold mask_text. fold l. by rewrite El.
  - by rewrite Hh.
  - rewrite Hh. lia.
  - unfold mask_text. fold l. rewrite E. cbn [mbind res_bind]. exists (h' !!! 1%positive). split; [done|]. split; [apply W|].
    split; [unfold h_size in S; by rewrite S, lookup_total_singleton|]. intros i Hi. apply eq_bool_prop_intro. rewrite B, Hbits by done. done.
Qed.

Lemma clear_mask_spec b : wf b → wf (clear_mask b) ∧ size (clear_mask b) = size b ∧ ∀ i, 0 ≤ i → getb (clear_mask b) i = false.
Proof.
  intros Hb. assert (Hh : hwf {[1%positive := b]}) by (apply hwf_insert; [apply hwf_empty|done]).
  destruct (clearall_assigned _ 1 Hh) as (W & _ & S & B). unfold clear_mask. split; [apply W|].
  split; [unfold h_size in S; by rewrite S, lookup_total_singleton|]. intros i Hi. rewrite B by done. apply andb_false_r.
Qed.

(** Importing the list of a mask. *)
Definition mask_arg (b : bitmask) : option cstr := match mask_text b with [] => None | t => Some t end.

Lemma import_mask sfuel b b0 : wf b → wf b0 → size b0 = size b → size b < Z.of_nat sfuel →
  ∃ b', import_list sfuel (mask_arg b) b0 = Ret (None, b') ∧ wf b' ∧ size b' = size b ∧ same_bits b' b.
Proof.
  intros Hb H0 Hs Hf. unfold mask_arg. destruct (mask_text b) as [|c t] eqn:E; cbn [import_list].
  - destruct (clear_mask_spec b0 H0) as (W & Sz & B). exists (clear_mask b0). split; [done|]. split; [done|]. split; [congruence|].
    intros i Hi. rewrite B by done. symmetry. pose proof (proj1 Hb).
    destruct (displaylist_terms (S (Z.to_nat (size b))) b Hb ltac:(lia)) as [Hok Hbits]. unfold mask_text in E.
    destruct (ranges _ b _ _) as [|t l]; [|exfalso].
    + apply not_true_iff_false. intros Hg. eapply terms_bits_nil. apply Hbits; [done|]. by rewrite Hg.
    + inversion Hok as [|? ? Ht _]; subst. cbn [List.map] in E. rewrite join_cons in E. apply app_eq_nil in E as [E _].
      destruct t as [[a d] s]. destruct Ht as (Ha & _). destruct (digits_spec 10 a ltac:(lia) ltac:(lia)) as (Hd & _).
      unfold term_text in E. repeat case_if_in E; [done|by apply app_eq_nil in E as [E _]..].
  - rewrite <- E. destruct (parse_mask_text sfuel b b0) as (b' & P & ?); [done..|by rewrite E|]. exists b'. by rewrite P.
Qed.

Lemma word_line name w t : name ≠ [] → Forall (λ c, mem c (str " " ++ ["009"%char]) = false ∧ (c =c "#"%char) = false) name →
  Forall (λ c, mask_char c = true) t → w = match t with [] => [] | _ => [t] end →
  strtok_all (span (λ c, negb (c =c "#"%char)) (name ++ " "%char :: t)).1 (str " " ++ ["009"%char]) = name :: w.
Proof.
  intros Hne Hn Ht ->. assert (Hs : span (λ c, negb (c =c "#"%char)) ((name ++ " "%char :: t) ++ []) = (name ++ " "%char :: t, [])).
  { apply span_app; [|done]. apply Forall_app. split; [|constructor; [done|]].
    - eapply Forall_impl; [exact Hn|]. cbn. intros c [_ Hc]. by rewrite Hc.
    - eapply Forall_impl; [exact Ht|]. cbn. intros c Hc. by destruct (mask_char_line c Hc) as (_ & _ & -> & _). }
  rewrite app_nil_r in Hs. rewrite Hs. cbn [fst]. unfold strtok_all.
  rewrite strtok_word; [|done|eapply Forall_impl; [exact Hn|]; by intros c []|done].
  f_equal. destruct t as [|c t]; [done|]. rewrite <- (app_nil_r (c :: t)) at 1. rewrite strtok_go_word.
  - rewrite app_nil_r. cbn [strtok_go]. destruct (reverse (c :: t)) eqn:E; [by apply (f_equal length) in E; rewrite length_reverse in E|]. by rewrite <- E, reverse_involutive.
  - eapply Forall_impl; [exact Ht|]. intros x Hx. by destruct (mask_char_line x Hx) as (_ & _ & _ & ->).
Qed.

Lemma import_flag_line sfuel cp f : f ∈ export_order →
  import_line sfuel cp (fname f) = Ret (None, set_field f (Item 1 (valid (get_field f cp)) (dirty (get_field f cp))) cp).
Proof. intros Hf. unfold export_order in Hf. by repeat (apply elem_of_cons in Hf as [->|Hf]; [reflexivity|]); apply elem_of_nil in Hf. Qed.

Lemma import_token_cpus sfuel cp arg b0 b' : value (cpus cp) = Some b0 → import_list sfuel arg b0 = Ret (None, b') →
  import_token sfuel cp (stolower (str "cpus")) arg = Ret (None, set_cpus_item (Item (Some b') (valid (cpus cp)) (dirty (cpus cp))) cp).
Proof.
  intros E0 Hi. transitivity (match value (cpus cp) with None => Undef | Some b => r ← import_list sfuel arg b;
    Ret (r.1, set_cpus_item (Item (Some r.2) (valid (cpus cp)) (dirty (cpus cp))) cp) end); [reflexivity|]. by rewrite E0, Hi.
Qed.
Lemma import_token_mems sfuel cp arg b0 b' : value (mems cp) = Some b0 → import_list sfuel arg b0 = Ret (None, b') →
  import_token sfuel cp (stolower (str "mems")) arg = Ret (None, set_mems_item (Item (Some b') (valid (mems cp)) (dirty (mems cp))) cp).
Proof.
  intros E0 Hi. transitivity (match value (mems cp) with None => Undef | Some b => r ← import_list sfuel arg b;
    Ret (r.1, set_mems_item (Item (Some r.2) (valid (mems cp)) (dirty (mems cp))) cp) end); [reflexivity|]. by rewrite E0, Hi.
Qed.

(** A line with a word and the list of a mask. *)
Lemma import_mask_line sfuel cp name b cp' : name ≠ [] →
  Forall (λ c, mem c (str " " ++ ["009"%char]) = false ∧ (c =c "#"%char) = false) name → wf b →
  import_token sfuel cp (stolower name) (mask_arg b) = Ret (None, cp') → import_line sfuel cp (name ++ " "%char :: mask_text b) = Ret (None, cp').
Proof.
  intros Hne Hn Hb Hi. unfold import_line. erewrite word_line; [|done|done|by apply mask_text_chars|done].
  unfold mask_arg in Hi. destruct (mask_text b); cbn [head tail]; by rewrite Hi.
Qed.

(** Importing flags on top of zeros. *)
Definition imported_flag (g : field → Z) (cp : cpuset) (f : field) : cpuset :=
  if g f =? 0 then cp else set_field f (Item 1 (valid (get_field f cp)) (dirty (get_field f cp))) cp.

Lemma imports_flags sfuel g cp l : l ⊆ export_order → imports sfuel cp (fname <$> filter (λ f, g f ≠ 0) l) (foldl (imported_flag g) cp l).
Proof.
  revert cp. induction l as [|f l IH]; intros cp Hl; [done|]. cbn [foldl]. unfold imported_flag at 2. destruct (Z.eqb_spec (g f) 0) as [E|E].
  - rewrite filter_cons_False by (by intros ?). apply IH. set_solver.
  - rewrite filter_cons_True by done. cbn [fmap list_fmap imports]. eexists. split; [apply import_flag_line; set_solver|]. apply IH. set_solver.
Qed.

Lemma imported_flags g cp l f : NoDup l → 
  get_field f (foldl (imported_flag g) cp l) =
    if decide (f ∈ l ∧ g f ≠ 0) then Item 1 (valid (get_field f cp)) (dirty (get_field f cp)) else get_field f cp.
Proof.
  revert cp. induction l as [|f' l IH]; intros cp Hl; cbn [foldl]; [rewrite decide_False; [done|]; intros [H _]; by apply elem_of_nil in H|].
  apply NoDup_cons in Hl as [Hn Hl]. rewrite IH by done. unfold imported_flag.
  destruct (Z.eqb_spec (g f') 0) as [E|E]; rewrite ?get_set_field; repeat case_decide; try set_solver; subst; try done; set_solver.
Qed.

Lemma imported_masks g cp l : cpus (foldl (imported_flag g) cp l) = cpus cp ∧ mems (foldl (imported_flag g) cp l) = mems cp.
Proof.
  revert cp. induction l as [|f l IH]; intros cp; [done|]. cbn [foldl]. destruct (IH (imported_flag g cp f)) as [-> ->].
  unfold imported_flag. case_if; by autorewrite with cpuset.
Qed.

(** ** Round trip *)

Lemma isallclear_spec b : 0 ≤ size b → bitmask_isallclear b = 0 ↔ ∃ i, 0 ≤ i ∧ getb b i.
Proof.
  intros Hs. unfold bitmask_isallclear. destruct (forallb _ _) eqn:E; split; try done.
  - intros (i & Hi & Hg). rewrite forallb_forall in E. destruct (Z.lt_ge_cases i (size b)) as [Hl|Hl]; [|by rewrite getb_ge in Hg].
    specialize (E i). rewrite <- list_elem_of_In, elem_of_upto in E. unfold getb in Hg. by rewrite E in Hg by lia.
  - intros _. assert (Hx : existsb (λ i, negb (_getbit b i =? 0)) (upto 0 (size b)) = true) by (by rewrite existsb_negb, E).
    apply existsb_exists in Hx as (i & Hi & Hg). rewrite <- list_elem_of_In, elem_of_upto in Hi. exists i. split; [lia|]. unfold getb. by rewrite Hg.
Qed.

Lemma import_local_none {Σ} `{!Kernel Σ} cp c m (s : statics) (k : Σ) : value (cpus cp) = Some c → value (mems cp) = Some m →
  (bitmask_isallclear c = 0 ↔ bitmask_isallclear m = 0) → import_local cp s k = Ret (cp, s, k).
Proof.
  intros Ec Em Hcm. unfold import_local. rewrite Ec, Em.
  destruct (Z.eqb_spec (bitmask_isallclear c) 0), (Z.eqb_spec (bitmask_isallclear m) 0); try tauto; done.
Qed.

Lemma all_valid_field cp f : f ∈ export_order → get_field f (all_valid cp) = Item (value (get_field f cp)) true (dirty (get_field f cp)).
Proof.
  intros Hf. destruct cp. unfold export_order in Hf.
  by repeat (apply elem_of_cons in Hf as [->|Hf]; [reflexivity|]); apply elem_of_nil in Hf.
Qed.
Lemma all_valid_masks cp : cpus (all_valid cp) = Item (value (cpus cp)) true (dirty (cpus cp)) ∧ mems (all_valid cp) = Item (value (mems cp)) true (dirty (mems cp)).
Proof. by destruct cp. Qed.

Lemma unlines_nonul ls : Forall (Forall (λ c, line_char c = true)) ls → nonul (unlines ls).
Proof.
  induction 1 as [|l ls Hl Hls IH]; [constructor|]. change (unlines (l :: ls)) with ((l ++ [newline]) ++ unlines ls).
  apply nonul_app; [apply nonul_app|done]; [|by repeat constructor]. eapply Forall_impl; [exact Hl|].
  intros c. destruct c as [[] [] [] [] [] [] [] []]; intros H; try discriminate H; done.
Qed.

Lemma export_lines_chars cp bc bm : wf bc → wf bm → Forall (Forall (λ c, line_char c = true)) (export_lines cp bc bm).
Proof.
  intros Hc Hm. assert (Ht : ∀ b, wf b → Forall (λ c, line_char c = true) (mask_text b)).
  { intros b Hb. eapply Forall_impl; [by apply mask_text_chars|]. intros c Hx. by apply mask_char_line in Hx as [? _]. }
  apply Forall_app. split; [|repeat constructor; by apply Ht]. apply Forall_fmap, Forall_forall. intros f _. destruct f; by repeat constructor.
Qed.

(** What an import makes of the text of [cp]. *)
Record imported (cp cp0 cp1 : cpuset) (bc bm : bitmask) : Prop := Imported {
  im_flag f : f ∈ export_order → get_field f cp1 = Item (value (get_field f cp)) true (dirty (get_field f cp0));
  im_cpus : ∃ b, cpus cp1 = Item (Some b) true (dirty (cpus cp0)) ∧ wf b ∧ size b = size bc ∧ same_bits b bc;
  im_mems : ∃ b, mems cp1 = Item (Some b) true (dirty (mems cp0)) ∧ wf b ∧ size b = size bm ∧ same_bits b bm }.

Definition blank (cp0 : cpuset) (bc bm : bitmask) : Prop :=
  (∀ f, f ∈ export_order → value (get_field f cp0) = 0) ∧
  (∃ b, value (cpus cp0) = Some b ∧ wf b ∧ size b = size bc) ∧ (∃ b, value (mems cp0) = Some b ∧ wf b ∧ size b = size bm).

Lemma imports_export sfuel cp cp0 bc bm : blank cp0 bc bm → wf bc → wf bm → size bc < Z.of_nat sfuel → size bm < Z.of_nat sfuel →
  (∀ f, f ∈ export_order → value (get_field f cp) = 0 ∨ value (get_field f cp) = 1) →
  ∃ cp1, imports sfuel cp0 (export_lines cp bc bm) cp1 ∧ imported cp cp0 (all_valid cp1) bc bm.
Proof.
  intros (H0 & (b0 & E0 & W0 & S0) & (b1 & E1 & W1 & S1)) Hc Hm Fc Fm Hv. unfold export_lines.
  set (g f := value (get_field f cp)). destruct (imported_masks g cp0 export_order) as [Ic Im].
  set (cpa := foldl (imported_flag g) cp0 export_order) in *.
  destruct (import_mask sfuel bc b0) as (bc' & P1 & Q1); [done..|]. destruct (import_mask sfuel bm b1) as (bm' & P2 & Q2); [done..|].
  eexists. split.
  - eapply imports_app; [by apply (imports_flags sfuel g)|]. fold cpa. cbn [imports]. eexists. split.
    { apply (import_mask_line sfuel cpa (str "cpus")); [done|by repeat constructor|done|]. eapply import_token_cpus; [by rewrite Ic|done]. }
    eexists. split; [|done].
    apply (import_mask_line _ _ (str "mems")); [done|by repeat constructor|done|]. eapply import_token_mems; [by rewrite mems_set_cpus, Im|done].
  - split.
    + intros f Hf. rewrite all_valid_field by done. autorewrite with cpuset. unfold cpa. rewrite imported_flags by (unfold export_order; by repeat (constructor; [set_solver|]); constructor).
      specialize (Hv f Hf). specialize (H0 f Hf). fold (g f) in Hv |- *. case_decide as Hd; cbn [value dirty].
      * f_equal. destruct Hv; naive_solver.
      * f_equal. destruct (decide (g f = 0)); [congruence|]. exfalso. by apply Hd.
    + rewrite (proj1 (all_valid_masks _)). autorewrite with cpuset. rewrite Ic. exists bc'. done.
    + rewrite (proj2 (all_valid_masks _)). autorewrite with cpuset. rewrite Im. exists bm'. done.
Qed.

(** C18: An export into a buffer with room for it, read back by an import into a cpuset that has none of the flags set
    and masks of the same sizes, gives the same flags and the same masks, for any kernel and without asking it, when
    both masks are empty or none of them is.  What the export returns is the length of the text, whatever the room. *)
Theorem export_import {Σ} `{!Kernel Σ} (sfuel : nat) cp cp0 buf n elen bc bm (s : statics) (k : Σ)
  (Hc : value (cpus cp) = Some bc ∧ wf bc ∧ size bc ≤ 2 ^ 31 ∧ size bc < Z.of_nat sfuel)
  (Hm : value (mems cp) = Some bm ∧ wf bm ∧ size bm ≤ 2 ^ 31 ∧ size bm < Z.of_nat sfuel)
  (Hf : ∀ f, f ∈ export_order → value (get_field f cp) = 0 ∨ value (get_field f cp) = 1)
  (H0 : blank cp0 bc bm) (Hb : (∃ i, 0 ≤ i ∧ getb bc i) ↔ (∃ i, 0 ≤ i ∧ getb bm i)) (Hn : 1 ≤ n ≤ zlength buf) :
  ∃ buf' len, cpuset_export cp buf n = Ret (buf', len) ∧
    (len < n → ∃ cp1, cpuset_import sfuel cp0 (as_string buf') elen s k = Ret ((0, cp1, None), s, k) ∧ imported cp cp0 cp1 bc bm).
Proof.
  destruct Hc as (Ec & Wc & Sc & Fc), Hm as (Em & Wm & Sm & Fm). set (t := unlines (export_lines cp bc bm)).
  exists (hold buf n t), (zlength t). split; [by apply export_spec|]. intros Hl.
  pose proof (export_lines_chars cp bc bm Wc Wm) as Hch.
  rewrite as_string_hold; [|by apply unlines_nonul|lia].
  destruct (imports_export sfuel cp cp0 bc bm) as (cp1 & Hi & Him); [done..|].
  exists (all_valid cp1). split; [|done]. unfold cpuset_import.
  pose proof (import_lines_ok sfuel (S (length t)) (zlength t + 1) cp0 (export_lines cp bc bm) cp1 0) as E. fold t in E.
  rewrite E by (done || lia). clear E.
  destruct Him as [_ (b & E1 & W1 & S1 & B1) (b' & E2 & W2 & S2 & B2)]. destruct (all_valid_masks cp1) as [F1 F2]. rewrite F1 in E1. rewrite F2 in E2.
  cbv beta iota delta [mbind M_bind lift mret M_ret]. injection E1 as E1 _. injection E2 as E2 _. erewrite import_local_none; [done|done|done|].
  rewrite !isallclear_spec by (by apply W1 || by apply W2). split; intros (i & Hi1 & Hi2).
  - rewrite B1 in Hi2 by done. destruct (proj1 Hb) as (j & Hj1 & Hj2); [by exists i|]. exists j. by rewrite B2.
  - rewrite B2 in Hi2 by done. destruct (proj2 Hb) as (j & Hj1 & Hj2); [by exists i|]. exists j. by rewrite B1.
Qed.

(** ** Examples *)

(** A system on which every call fails. *)
#[global] Instance dead_kernel : Kernel () := λ A c k,
  (match c in call A return A with
   | Stat _ => inl ENOSYS | OpenRead _ => inl ENOSYS | OpenWrite _ => inl ENOSYS | Read _ _ => inl ENOSYS
   | Pread _ _ _ => inl ENOSYS | Write _ _ => inl ENOSYS | Close _ => () | Fopen _ => inl ENOSYS | Fread _ => []
   | Fclose _ => () | Opendir _ => inl ENOSYS | FtsOpen _ => inl ENOSYS | Mkdir _ _ => inl ENOSYS | Rmdir _ => inl ENOSYS
   | Mkstemp _ => inl ENOSYS | Fdopen _ => inl ENOSYS | Fwrite _ _ => () | Utime _ _ => inl ENOSYS | Rename _ _ => inl ENOSYS
   | Chmod _ _ => inl ENOSYS | Unlink _ => inl ENOSYS | Time => 0 | Getpid => 1 | Kill _ _ => inl ENOSYS | Sleep _ => 0
   | Uname => inl ENOSYS | SetAffinity _ _ _ => inl ENOSYS | SetMempolicy _ _ _ => inl ENOSYS | GetMempolicy _ => inl ENOSYS
   end, k).

Definition ex_mask (n : Z) (l : list Z) : bitmask := foldl set_bit (new_mask n) l.
Definition ex_cpuset : cpuset :=
  set_cpus_item (Item (Some (ex_mask 8 [0; 1; 2; 5])) true true)
    (set_mems_item (Item (Some (ex_mask 4 [1])) true true) (set_field MemExclusive (Item 1 true true) calloc_cpuset)).
Definition ex_fresh : cpuset :=
  set_cpus_item (Item (Some (new_mask 8)) false false) (set_mems_item (Item (Some (new_mask 4)) false false) calloc_cpuset).

Lemma ex_wf : wf (ex_mask 8 [0; 1; 2; 5]) ∧ wf (ex_mask 4 [1]) ∧ wf (new_mask 8) ∧ wf (new_mask 4).
Proof. unfold wf. apply (bool_decide_unpack _). vm_compute. exact I. Qed.

Lemma export_import_witness :
  ∃ buf' len, cpuset_export ex_cpuset (replicate 64 NUL) 64 = Ret (buf', len) ∧ len = 32 ∧
    ∃ cp1, cpuset_import 9 ex_fresh (as_string buf') 80 start () = Ret ((0, cp1, None), start, ()) ∧
      imported ex_cpuset ex_fresh cp1 (ex_mask 8 [0; 1; 2; 5]) (ex_mask 4 [1]).
Proof.
  destruct ex_wf as (W1 & W2 & W3 & W4).
  destruct (export_import 9 ex_cpuset ex_fresh (replicate 64 NUL) 64 80 (ex_mask 8 [0; 1; 2; 5]) (ex_mask 4 [1]) start ()) as (buf' & len & E & H).
  - split; [reflexivity|]. split; [done|]. split; [vm_compute; discriminate|reflexivity].
  - split; [reflexivity|]. split; [done|]. split; [vm_compute; discriminate|reflexivity].
  - intros f Hf. unfold export_order in Hf. repeat (apply elem_of_cons in Hf as [->|Hf]; [vm_compute; tauto|]). by apply elem_of_nil in Hf.
  - split; [|split; eexists; (split; [reflexivity|]); done]. intros f Hf. unfold export_order in Hf.
    repeat (apply elem_of_cons in Hf as [->|Hf]; [reflexivity|]). by apply elem_of_nil in Hf.
  - split; intros _; [exists 1|exists 0]; split; done.
  - rewrite length_replicate. lia.
  - assert (E' : cpuset_export ex_cpuset (replicate 64 NUL) 64 = Ret (buf', 32)).
    { rewrite E. f_equal. vm_compute in E. injection E as <- <-. done. }
    rewrite E in E'. injection E' as ->. exists buf', 32. split; [done|]. split; [done|]. apply H. lia.
Defined.

(** A second word after a flag is no error. *)
Lemma flag_argument_ignored sfuel cp :
  import_line sfuel cp (str "cpu_exclusive no") = import_line sfuel cp (str "cpu_exclusive").
Proof. reflexivity. Qed.

(** A character beyond ASCII ends the text: what follows is not even read. *)
Lemma non_ascii_ends_import :
  ∃ cp, cpuset_import 9 ex_fresh (str "cpu_exclusive" ++ [newline; "195"%char; newline] ++ str "no such line") 80 start () =
    Ret ((0, cp, None), start, ()).
Proof. eexists. vm_compute. reflexivity. Qed.

(** Settings that are not marked as changed are not written: nothing of a cpuset that
    was filled in by an import or a query. *)
Definition clean (cp : cpuset) : Prop := (∀ f, dirty (get_field f cp) = false) ∧ dirty (cpus cp) = false ∧ dirty (mems cp) = false.

Lemma clean_not_applied {Σ} `{!Kernel Σ} path cp (s : statics) (k : Σ) : clean cp → apply_cpuset_settings path cp s k = Ret (0, s, k).
Proof.
  intros (Hf & Hc & Hm). unfold apply_cpuset_settings.
  assert (Ha : ∀ l, apply_fields path cp l s k = Ret (true, s, k)).
  { induction l as [|[f o] l IH]; [done|]. cbn [apply_fields]. rewrite Hf, andb_false_r. exact IH. }
  cbv beta iota delta [mbind M_bind]. rewrite Ha. cbn [negb]. unfold apply_mask. by rewrite Hc, Hm, !andb_false_r.
Qed.

Lemma clean_field cp f v w : clean cp → clean (set_field f (Item v w (dirty (get_field f cp))) cp).
Proof.
  intros (Hf & Hc & Hm). split; [|by rewrite cpus_set_field, mems_set_field]. intros f'. rewrite get_set_field. case_decide; cbn; auto.
Qed.
Lemma clean_cpus cp v w : clean cp → clean (set_cpus_item (Item v w (dirty (cpus cp))) cp).
Proof. intros (Hf & Hc & Hm). split; [intros f|]; by autorewrite with cpuset. Qed.
Lemma clean_mems cp v w : clean cp → clean (set_mems_item (Item v w (dirty (mems cp))) cp).
Proof. intros (Hf & Hc & Hm). split; [intros f|]; by autorewrite with cpuset. Qed.
#[local] Hint Resolve clean_field clean_cpus clean_mems : core.

Lemma import_token_clean sfuel cp tok arg e cp1 : clean cp → import_token sfuel cp tok arg = Ret (e, cp1) → clean cp1.
Proof.
  intros Hcp. unfold import_token. repeat case_match; try done; intros E; simplify_eq; auto;
    apply res_bind_inv in E as (r & _ & E); simplify_eq; auto.
Qed.

Lemma import_line_clean sfuel cp l e cp1 : clean cp → import_line sfuel cp l = Ret (e, cp1) → clean cp1.
Proof.
  intros Hcp. unfold import_line. case_match; [by intros [= _ <-]|]. intros E. apply res_bind_inv in E as ([e' cp'] & E1 & E2).
  apply import_token_clean in E1; [|done]. repeat case_match; by simplify_eq.
Qed.

Lemma import_lines_clean sfuel fuel n cp s num e cp1 num' : clean cp → import_lines sfuel fuel n cp s num = Ret (e, cp1, num') → clean cp1.
Proof.
  revert cp s num. induction fuel as [|fuel IH]; intros cp s num Hcp; cbn [import_lines]; [done|].
  destruct (slgets n s) as [[l|] s']; [|by intros [= _ <- _]]. intros E. apply res_bind_inv in E as ([[e'|] cp'] & E1 & E2);
    apply import_line_clean in E1; try done; [by simplify_eq|]. by eapply IH.
Qed.

(** Nothing of what was imported is written by the create or modify that follows it,
    whatever the text and the system. *)
Lemma import_not_applied {Σ} `{!Kernel Σ} sfuel cp0 buf elen (s : statics) (k : Σ) rc cp1 err s' k' path s2 (k2 : Σ) : clean cp0 →
  cpuset_import sfuel cp0 buf elen s k = Ret ((rc, cp1, err), s', k') → apply_cpuset_settings path cp1 s2 k2 = Ret (0, s2, k2).
Proof.
  intros H0 E. apply clean_not_applied. unfold cpuset_import in E. cbv beta iota delta [mbind M_bind lift mret M_ret] in E.
  destruct (import_lines _ _ _ _ _ _) as [[[e cpa] num]| |] eqn:E1; try done. apply import_lines_clean in E1; [|done].
  destruct e as [e|]; [by simplify_eq/=|]. unfold import_local in E. destruct (value (cpus cpa)) as [c|]; [|done].
  destruct (value (mems cpa)) as [m|]; [|done].
  assert (Hv : ∀ cp, clean cp → clean (all_valid cp)) by (intros cp (Hf & Hc & Hm); split; [intros f; specialize (Hf f); by destruct cp, f|by destruct cp]).
  repeat case_match; cbv beta iota delta [mbind M_bind mret M_ret] in *; repeat case_match; simplify_eq; auto.
Qed.
