(* ===== verification/CpusetTasksProof.v ===== *)
(** * Tasks of cpusets: proofs

    cpuset_nuke of libcpuset.c sleeps no longer than it was told and comes to an end,
    and cpuset_init_pidlist returns the tasks in order. *)

From S2P Require Import Prelude CInt CMem CString Bitmask BitmaskText Splitstr CpusetPath Cpuset CpusetTasks CpusetText.
From stdpp Require Import sorting.
Local Open Scope Z_scope.

(** ** The time of cpuset_nuke *)

(** The values of [secs_left] and [secs_loop] after a sleep that returned [r]. *)
Definition slept (secs_loop r : Z) : Z :=
  let n := u32 (secs_loop - r) in let n := if n =? 0 then 1 else n in if secs_loop <? n then secs_loop else n.

Definition next_loop_secs (left secs_loop : Z) : Z := Z.min left (if secs_loop <? 10 then secs_loop + 1 else secs_loop).

Lemma slept_range n r : 1 ≤ n → 1 ≤ slept n r ≤ n.
Proof.
  intros Hn. unfold slept. pose proof (u32_range (n - r)) as Hu.  repeat case_if; bool_hyps; lia.
Qed.

Lemma slept_exact n r : 0 ≤ r ≤ n → n < 2 ^ 32 → n - r ≤ slept n r.
Proof. intros Hr Hn. unfold slept. rewrite u32_id by lia. repeat case_if; bool_hyps; lia. Qed.

Section nuke.
Context {Σ : Type} `{!Kernel Σ} (sfuel : nat).

(** As long as there are seconds left the next sleep is at least one second long and not
    longer than they are. *)
Definition secs_ok (left secs_loop : Z) : Prop := 0 ≤ left < 2 ^ 32 ∧ (left = 0 ∨ 1 ≤ secs_loop ≤ left).

Lemma secs_next left n r : secs_ok left n → left ≠ 0 →
  u32 (left - slept n r) = left - slept n r ∧ secs_ok (left - slept n r) (next_loop_secs (left - slept n r) n) ∧ left - slept n r < left.
Proof.
  intros [Hl [H|H]] Hne; [done|]. pose proof (slept_range n r ltac:(lia)). split; [apply u32_id; lia|]. split; [|lia].
  split; [lia|]. unfold next_loop_secs. destruct (decide (left - slept n r = 0)); [by left|right]. case_if; bool_hyps; lia.
Qed.

(** One turn of the loop, with the rest of it. *)
Lemma nuke_turn fuel relpath left n : nuke_loop sfuel (S fuel) relpath left n =
  (pl ← cpuset_init_pidlist sfuel relpath true;
   match pl with
   | None => e ← get errno; mret (if e =? ENOENT then no_more_cpuset else failed)
   | Some l =>
       if cpuset_pidlist_length pl =? 0 then mret rmdir_cpusets
       else good ← kill_each l;
            if negb good then mret failed
            else if left =? 0 then mret took_too_long
            else r ← sys (Sleep n); nuke_loop sfuel fuel relpath (u32 (left - slept n r)) (next_loop_secs (u32 (left - slept n r)) n)
   end).
Proof. done. Qed.

Lemma bind_ext {A B} (m : M Σ A) (f g : A → M Σ B) s k : (∀ a s k, f a s k = g a s k) → (m ≫= f) s k = (m ≫= g) s k.
Proof. intros H. cbv beta delta [mbind M_bind]. destruct (m s k) as [[[a s'] k']| |]; [apply H|done|done]. Qed.

Lemma nuke_loop_fuel fuel fuel' relpath left n s k : secs_ok left n → left < Z.of_nat fuel → left < Z.of_nat fuel' →
  nuke_loop sfuel fuel relpath left n s k = nuke_loop sfuel fuel' relpath left n s k.
Proof.
  revert fuel' left n s k. induction fuel as [|fuel IH]; intros fuel' left n s k Hok H1 H2; [destruct Hok; lia|].
  destruct fuel' as [|fuel']; [destruct Hok; lia|]. rewrite !nuke_turn. apply bind_ext. intros [l|] s1 k1; [|done]. case_if; [done|].
  apply bind_ext. intros good s2 k2. case_if; [done|]. destruct (Z.eqb_spec left 0); [done|]. apply bind_ext. intros r s3 k3.
  destruct (secs_next left n r Hok) as (-> & Hok' & Hlt); [done|]. apply IH; [done|lia|lia].
Qed.
End nuke.

(** ** Code that does not sleep *)

Definition elapsed {A : Set} (c : call A) : A → Z := match c in call A return A → Z with Sleep n => λ r, n - r | _ => λ _, 0 end.

(** A system with a clock that adds up the time that was slept. *)
Definition clocked {Σ} `{!Kernel Σ} : Kernel (Σ * Z) := λ A c k, let '(a, k') := answer A c k.1 in (a, (k', k.2 + elapsed c a)).

Definition silent {A : Set} (c : call A) : Prop := match c with Sleep _ => False | _ => True end.

Lemma clocked_silent {Σ} `{!Kernel Σ} {A : Set} (c : call A) (k : Σ * Z) : silent c → (clocked A c k).2.2 = k.2.
Proof. intros Hc. unfold clocked. destruct (answer A c k.1) as [a k']. cbn [snd]. destruct c; cbn in *; try lia; done. Qed.

Section keeps.
Context {Σ : Type} `{!Kernel Σ} (sfuel : nat).
#[local] Existing Instance clocked.

Definition keeps {A} (m : M (Σ * Z) A) : Prop := ∀ s k a s' k', m s k = Ret (a, s', k') → k'.2 = k.2.

Lemma keeps_ret {A} (a : A) : keeps (mret a).
Proof. intros s k a' s' k' [= _ _ <-]. done. Qed.
Lemma keeps_bind {A B} (m : M (Σ * Z) A) (f : A → M (Σ * Z) B) : keeps m → (∀ a, keeps (f a)) → keeps (m ≫= f).
Proof.
  intros Hm Hf s k a s' k'. cbv beta delta [mbind M_bind]. destruct (m s k) as [[[a1 s1] k1]| |] eqn:E; [|done|done].
  intros E2. rewrite (Hf _ _ _ _ _ _ E2). by eapply Hm.
Qed.
Lemma keeps_get {A} (f : statics → A) : keeps (get f).
Proof. intros s k a s' k' [= _ _ <-]. done. Qed.
Lemma keeps_put f : keeps (put f).
Proof. intros s k a s' k' [= _ _ <-]. done. Qed.
Lemma keeps_lift {A} (m : res A) : keeps (lift m).
Proof. intros s k a s' k'. unfold lift. destruct m; [intros [= _ _ <-]; done|done|done]. Qed.
Lemma keeps_sys {A : Set} (c : call A) : silent c → keeps (sys c).
Proof.
  intros Hc s k a s' k' E. unfold sys in E. pose proof (clocked_silent c k Hc) as Hk. unfold answer in E. destruct (clocked A c k) as [a1 k1]. by injection E as _ _ <-.
Qed.
Lemma keeps_try {A : Set} (c : call (Z + A)) : silent c → keeps (try c).
Proof.
  intros Hc. apply keeps_bind; [by apply keeps_sys|]. intros [e|a]; [|apply keeps_ret]. apply keeps_bind; [apply keeps_put|intros _; apply keeps_ret].
Qed.

Create HintDb keeps.
#[local] Hint Resolve keeps_ret keeps_get keeps_put keeps_lift keeps_sys keeps_try : keeps.
#[local] Hint Extern 1 (silent _) => exact I : keeps.

Ltac keep := repeat first
  [ progress eauto with keeps
  | apply keeps_bind; [|intros ?]
  | match goal with |- keeps (match ?x with _ => _ end) => destruct x end
  | match goal with |- keeps (if ?x then _ else _) => destruct x end
  | match goal with |- keeps (let '(_, _) := ?x in _) => destruct x end ].

Lemma keeps_filesize fp : keeps (filesize fp).
Proof. unfold filesize. keep. Qed.
#[local] Hint Resolve keeps_filesize : keeps.
Lemma keeps_check : keeps check.
Proof. unfold check. keep. Qed.
#[local] Hint Resolve keeps_check : keeps.
Lemma keeps_sizes : keeps update_mask_sizes.
Proof. unfold update_mask_sizes. keep. Qed.
#[local] Hint Resolve keeps_sizes : keeps.
Lemma keeps_when b (m : M (Σ * Z) ()) : keeps m → keeps (when b m).
Proof. intros. unfold when. keep. Qed.
#[local] Hint Resolve keeps_when : keeps.
Lemma keeps_cpus_nbits : keeps cpuset_cpus_nbits.
Proof. unfold cpuset_cpus_nbits. keep. Qed.
Lemma keeps_mems_nbits : keeps cpuset_mems_nbits.
Proof. unfold cpuset_mems_nbits. keep. Qed.
Lemma keeps_getcpusetpath pid buf n : keeps (cpuset_getcpusetpath pid buf n).
Proof. unfold cpuset_getcpusetpath. keep. Qed.
#[local] Hint Resolve keeps_cpus_nbits keeps_mems_nbits keeps_getcpusetpath : keeps.
Lemma keeps_text b : keeps (text b).
Proof. unfold text. keep. Qed.
#[local] Hint Resolve keeps_text : keeps.
Lemma keeps_append buf n name : keeps (append_name buf n name).
Proof. unfold append_name. keep. Qed.
#[local] Hint Resolve keeps_append : keeps.
Lemma keeps_fullpath n name : keeps (fullpath n name).
Proof. unfold fullpath. keep. Qed.
#[local] Hint Resolve keeps_fullpath : keeps.
Lemma keeps_fullpath2 n name1 name2 : keeps (fullpath2 n name1 name2).
Proof. unfold fullpath2. keep. Qed.
#[local] Hint Resolve keeps_fullpath2 : keeps.
Lemma keeps_full name : keeps (full name).
Proof. unfold full. keep. Qed.
Lemma keeps_full2 name1 name2 : keeps (full2 name1 name2).
Proof. unfold full2. keep. Qed.
Lemma keeps_read_number p : keeps (read_number p).
Proof. unfold read_number. keep. Qed.
#[local] Hint Resolve keeps_full keeps_full2 keeps_read_number : keeps.
Lemma keeps_load_field path f : keeps (load_field path f).
Proof. unfold load_field, load_number, load_flag, read_flag. destruct f; keep. Qed.
Lemma keeps_exists path f : keeps (exists_flag path f).
Proof. unfold exists_flag. keep. Qed.
Lemma keeps_load_mask path n name : keeps (load_mask sfuel path n name).
Proof. unfold load_mask, read_mask. keep. Qed.
#[local] Hint Resolve keeps_load_field keeps_exists keeps_load_mask : keeps.
Lemma keeps_query_fields path cp l : keeps (query_fields path cp l).
Proof. revert cp. induction l as [|[f o] l IH]; intros cp; cbn [query_fields]; keep. Qed.
#[local] Hint Resolve keeps_query_fields : keeps.
Lemma keeps_query cp r : keeps (cpuset_query sfuel cp r).
Proof. unfold cpuset_query. keep. Qed.
#[local] Hint Resolve keeps_query : keeps.
Lemma keeps_fts_entry e : keeps (fts_entry sfuel e).
Proof. unfold fts_entry. keep. Qed.
#[local] Hint Resolve keeps_fts_entry : keeps.
Lemma keeps_fts_entries l : keeps (fts_entries sfuel l).
Proof. induction l as [|e l IH]; cbn [fts_entries]; keep. Qed.
#[local] Hint Resolve keeps_fts_entries : keeps.
Lemma keeps_fts_open r : keeps (cpuset_fts_open sfuel r).
Proof. unfold cpuset_fts_open. keep. Qed.
#[local] Hint Resolve keeps_fts_open : keeps.
Lemma keeps_read_task r l : keeps (read_task_file r l).
Proof. unfold read_task_file, add_pidblock. keep. Qed.
#[local] Hint Resolve keeps_read_task : keeps.
Lemma keeps_read_tasks es l : keeps (read_task_files es l).
Proof. revert l. induction es as [|e es IH]; intros l; cbn [read_task_files]; keep. Qed.
#[local] Hint Resolve keeps_read_tasks : keeps.
Lemma keeps_init_pidlist r b : keeps (cpuset_init_pidlist sfuel r b).
Proof. unfold cpuset_init_pidlist. keep. Qed.
Lemma keeps_kill l : keeps (kill_each l).
Proof. induction l as [|p l IH]; cbn [kill_each]; keep. Qed.
Lemma keeps_rmdir es r e : keeps (rmdir_each es r e).
Proof. revert r e. induction es as [|x es IH]; intros r e; cbn [rmdir_each]; keep. Qed.
Lemma keeps_finish r e : keeps (nuke_finish r e).
Proof. unfold nuke_finish. keep. Qed.
#[local] Hint Resolve keeps_init_pidlist keeps_kill keeps_rmdir keeps_finish : keeps.

(** ** The loop *)

Lemma bind_inv {A B} (m : M (Σ * Z) A) (f : A → M (Σ * Z) B) s k r : (m ≫= f) s k = Ret r → ∃ a s1 k1, m s k = Ret (a, s1, k1) ∧ f a s1 k1 = Ret r.
Proof. cbv beta delta [mbind M_bind]. destruct (m s k) as [[[a s1] k1]| |]; [by eauto|done|done]. Qed.

Context (Hsleep : ∀ n (k : Σ), 0 ≤ n → 0 ≤ (answer Z (Sleep n) k).1 ≤ n).

Lemma sleep_time n s k r s' k' : 0 ≤ n → sys (Sleep n) s k = Ret (r, s', k') → k'.2 = k.2 + (n - r) ∧ 0 ≤ r ≤ n.
Proof using Hsleep.
  intros Hn E. unfold sys, answer, clocked in E. specialize (Hsleep n k.1 Hn). destruct (answer Z (Sleep n) k.1) as [a k1]. injection E as <- _ <-. done.
Qed.

Lemma nuke_loop_time fuel relpath left n s k e s' k' : secs_ok left n → nuke_loop sfuel fuel relpath left n s k = Ret (e, s', k') → k.2 ≤ k'.2 ≤ k.2 + left.
Proof using Hsleep.
  revert left n s k. induction fuel as [|fuel IH]; intros left n s k Hok E; [done|]. assert (Hl := proj1 Hok). rewrite nuke_turn in E.
  apply bind_inv in E as (pl & s1 & k1 & E1 & E). apply keeps_init_pidlist in E1. destruct pl as [l|]; [|injection E as _ _ <-; rewrite E1; lia].
  destruct (_ =? 0); [injection E as _ _ <-; rewrite E1; lia|]. apply bind_inv in E as (good & s2 & k2 & E2 & E). apply keeps_kill in E2.
  destruct (negb good); [injection E as _ _ <-; rewrite E2, E1; lia|]. destruct (Z.eqb_spec left 0); [injection E as _ _ <-; rewrite E2, E1; lia|].
  apply bind_inv in E as (r & s3 & k3 & E3 & E). assert (1 ≤ n ≤ left) by (destruct Hok as [_ [?|?]]; [done|lia]). apply sleep_time in E3 as [E3 Hr]; [|lia].
  destruct (secs_next left n r Hok) as (Hu & Hok' & Hlt); [done|]. rewrite Hu in E. apply IH in E; [|done]. pose proof (slept_exact n r Hr ltac:(lia)). lia.
Qed.

Lemma kill_returns l s k : ∃ b s' k', kill_each l s k = Ret (b, s', k').
Proof.
  revert s k. induction l as [|p l IH]; intros s k; cbn [kill_each]; [by eexists _, _, _|]. destruct (1 <? p); [|apply IH].
  cbv beta delta [mbind M_bind try sys put get mret M_ret]. destruct (answer _ (Kill p SIGKILL) k) as [[e|a] k1]; destruct (negb _ && _); [by eexists _, _, _|apply IH|by eexists _, _, _|apply IH].
Qed.

Lemma nuke_loop_returns fuel relpath left n s k : (∀ s k, ∃ pl s' k', cpuset_init_pidlist sfuel relpath true s k = Ret (pl, s', k')) →
  secs_ok left n → left < Z.of_nat fuel → ∃ e s' k', nuke_loop sfuel fuel relpath left n s k = Ret (e, s', k').
Proof.
  intros Hpl. revert left n s k. induction fuel as [|fuel IH]; intros left n s k Hok Hf; [destruct Hok; lia|]. rewrite nuke_turn.
  cbv beta delta [mbind M_bind]. destruct (Hpl s k) as (pl & s1 & k1 & ->). destruct pl as [l|]; [|by eexists _, _, _]. destruct (_ =? 0); [by eexists _, _, _|].
  destruct (kill_returns l s1 k1) as (good & s2 & k2 & ->). destruct (negb good); [by eexists _, _, _|]. destruct (Z.eqb_spec left 0); [by eexists _, _, _|].
  unfold sys. destruct (answer _ (Sleep n) k2) as [r k3]. destruct (secs_next left n r Hok) as (-> & Hok' & Hlt); [done|]. apply IH; [done|lia].
Qed.
End keeps.

(** C35: cpuset_nuke kills for no more turns than it has seconds, so that its loop always comes to an end, if only the
    tasks can be listed; and the time that it sleeps is never more than the seconds it was given, even when its sleeps
    are interrupted. *)
Theorem nuke_in_time {Σ} `{!Kernel Σ} (sfuel : nat) relpath seconds s (k : Σ) (Hs : 0 < seconds < 2 ^ 32)
  (Hsleep : ∀ n (k : Σ), 0 ≤ n → 0 ≤ (answer Z (Sleep n) k).1 ≤ n)
  (Hpl : ∀ s k, ∃ pl s' k', @cpuset_init_pidlist _ clocked sfuel relpath true s k = Ret (pl, s', k')) :
  (∃ e s' k' t, @nuke_loop _ clocked sfuel (S (Z.to_nat seconds)) relpath seconds 1 s (k, 0) = Ret (e, s', (k', t)) ∧ 0 ≤ t ≤ seconds) ∧
  (∀ rc s' k' t, @cpuset_nuke _ clocked sfuel relpath seconds s (k, 0) = Ret (rc, s', (k', t)) → 0 ≤ t ≤ seconds).
Proof.
  assert (Hok : secs_ok seconds 1) by (split; [lia|right; lia]). split.
  - destruct (nuke_loop_returns sfuel (S (Z.to_nat seconds)) relpath seconds 1 s (k, 0) Hpl Hok) as (e & s' & [k' t] & E); [lia|].
    exists e, s', k', t. split; [done|]. apply (nuke_loop_time sfuel Hsleep) in E; [|done]. cbn [snd] in E. lia.
  - intros rc s' k' t E. unfold cpuset_nuke in E. apply bind_inv in E as (c & s1 & k1 & E1 & E). apply keeps_check in E1. cbn [snd] in E1.
    destruct (c <? 0); [injection E as _ _ ->; cbn in E1; lia|]. rewrite (proj2 (Z.eqb_neq seconds 0)) in E by lia.
    apply bind_inv in E as (e & s2 & k2 & E2 & E). apply (nuke_loop_time sfuel Hsleep) in E2; [|done]. rewrite E1 in E2.
    assert (Hk : (k', t).2 = k2.2); [|cbn [snd] in Hk; lia]. revert E. 
    match goal with |- ?m s2 k2 = _ → _ => assert (Hm : keeps m); [|by apply Hm] end. destruct e.
    + apply keeps_bind; [apply keeps_fts_open|]. intros [tr|].
      * apply keeps_bind; [apply keeps_rmdir|]. intros r. apply keeps_finish.
      * apply keeps_bind; [apply keeps_get|]. intros err. case_if; [apply keeps_ret|apply keeps_lift].
    + apply keeps_finish.
    + apply keeps_ret.
    + apply keeps_bind; [apply keeps_put|intros _; apply keeps_ret].
Qed.

Lemma nuke_in_time_witness : ∃ e s' k' t,
  @nuke_loop _ clocked 9 4 (str "/a") 3 1 (Statics 0 check_ok 8 4 None 0 None false false 0 0) ((), 0) = Ret (e, s', (k', t)) ∧ 0 ≤ t ≤ 3.
Proof.
  destruct (nuke_in_time 9 (str "/a") 3 (Statics 0 check_ok 8 4 None 0 None false false 0 0) () ltac:(lia)) as [H _]; [|intros s k|exact H].
  - intros n k Hn. cbn. lia.
  - destruct s as [e c ? ? ? ? ? ? ? ? ?], k as [[] t]. destruct c; by eexists _, _, _.
Defined.

(** ** Lists of tasks *)

#[global] Instance numericsort_total : Total (λ p1 p2, numericsort p1 p2 ≤ 0).
Proof.
  intros a b. unfold numericsort, s32, wrap_s. change (2 ^ (32 - 1)) with 2147483648. change (2 ^ 32) with 4294967296.
  replace (b - a) with (- (a - b)) by lia. generalize (a - b). intros x. zlia.
Qed.

Definition is_pid (p : Z) : Prop := 0 ≤ p ≤ INT_MAX.

Lemma sorted_pids l : Forall is_pid l → Sorted (λ p1 p2, numericsort p1 p2 ≤ 0) l → Sorted Z.le l.
Proof.
  intros Hp. induction 1 as [|x l Hl IH Hd]; [constructor|]. inversion Hp as [|? ? Hx Hp']; subst. constructor; [by apply IH|].
  destruct Hd as [|y l Hxy]; constructor. inversion Hp' as [|? ? Hy _]; subst. unfold numericsort, is_pid, INT_MAX in *. rewrite s32_id in Hxy by lia. lia.
Qed.

(** The text of a tasks file. *)
Definition tasks_text (ps : list Z) : cstr := ps ≫= λ p, digits 10 p ++ [newline].

Lemma strtoul_pid lead p rest : lead = [] ∨ lead = [newline] → is_pid p → strtoul 10 (lead ++ digits 10 p ++ newline :: rest) = (p, newline :: rest).
Proof.
  intros Hl Hp. destruct (digits_spec 10 p ltac:(lia) ltac:(unfold is_pid in Hp; lia)) as (H1 & H2 & H3). unfold strtoul.
  assert (Hs : scan_number 10 (lead ++ digits 10 p ++ newline :: rest) = (false, digits 10 p, newline :: rest)).
  { destruct Hl as [-> | ->]; cbn [app]; [by apply scan_number_digits|]. rewrite <- (scan_number_digits 10 (digits 10 p) (newline :: rest)) by done.
    unfold scan_number. cbn [app]. assert (skip_space (newline :: digits 10 p ++ newline :: rest) = skip_space (digits 10 p ++ newline :: rest)) as ->; [|done].
    unfold skip_space. cbn [span]. change (isspace newline) with true. cbv iota. by destruct (span isspace _). }
  rewrite Hs. destruct (digits 10 p) as [|c t] eqn:Ed; [done|]. rewrite H3. unfold is_pid, INT_MAX, ULONG_MAX in *.
  rewrite (proj2 (Z.ltb_ge _ _)) by lia. done.
Qed.

Lemma pid_transform_spec fuel lead ps out m : lead = [] ∨ lead = [newline] → Forall is_pid ps → (length (lead ++ tasks_text ps) < fuel)%nat →
  pid_transform fuel (lead ++ tasks_text ps) (out ++ replicate (length ps + m) 0) (zlength out) = Ret (out ++ ps ++ replicate m 0, zlength out + zlength ps).
Proof.
  revert fuel lead out. induction ps as [|p ps IH]; intros fuel lead out Hl Hp Hf; (destruct fuel as [|fuel]; [lia|]); cbn [pid_transform].
  - destruct Hl as [-> | ->]; cbn; by rewrite Z.add_0_r.
  - inversion Hp as [|? ? H1 H2]; subst. change (tasks_text (p :: ps)) with ((digits 10 p ++ [newline]) ++ tasks_text ps) in *.
    rewrite <- (app_assoc (digits 10 p)) in *. cbn [app] in *. destruct (lead ++ digits 10 p ++ newline :: tasks_text ps) as [|c t] eqn:Et.
    { exfalso. apply (f_equal length) in Et. rewrite !length_app in Et. cbn in Et. lia. }
    rewrite <- Et in *. rewrite strtoul_pid by done. destruct (digits_spec 10 p ltac:(lia) ltac:(unfold is_pid in H1; lia)) as (Hne & _).
    rewrite (proj2 (Z.eqb_neq _ _)).
    2: { rewrite !length_app. cbn [length]. destruct (digits 10 p); [done|]. cbn [length]. lia. }
    cbn [length Nat.add replicate]. rewrite put_at by done. cbn [mbind res_bind]. rewrite s32_id by (unfold is_pid, INT_MAX in H1; lia).
    replace (out ++ p :: replicate (length ps + m) 0) with ((out ++ [p]) ++ replicate (length ps + m) 0) by (by rewrite <- app_assoc).
    replace (zlength out + 1) with (zlength (out ++ [p])) by (rewrite length_app; cbn; lia).
    change (newline :: tasks_text ps) with ([newline] ++ tasks_text ps). rewrite IH; [|by right|done|].
    + rewrite <- app_assoc. f_equal. f_equal. rewrite length_app. cbn. lia.
    + rewrite !length_app in Hf. cbn [length app] in *. destruct (digits 10 p); [done|]. cbn [length] in Hf. lia.
Qed.

Lemma pidcount_text ps : Forall is_pid ps → pidcount (tasks_text ps) = zlength ps.
Proof.
  unfold pidcount. induction 1 as [|p ps Hp Hps IH]; [done|]. change (tasks_text (p :: ps)) with ((digits 10 p ++ [newline]) ++ tasks_text ps).
  rewrite !filter_app, !length_app. destruct (digits_spec 10 p ltac:(lia) ltac:(unfold is_pid in Hp; lia)) as (_ & Hd & _).
  assert (filter (λ c, c = "010"%char) (digits 10 p) = []) as ->.
  { clear IH. induction Hd as [|c ds Hc Hd IHd]; [done|]. rewrite filter_cons_False; [done|]. by intros ->. }
  rewrite filter_cons_True by done. cbn [length filter list_filter]. lia.
Qed.

Lemma transform_blocks_spec pss out : Forall (Forall is_pid) pss →
  transform_blocks (tasks_text <$> pss) (out ++ replicate (length (concat pss)) 0) (zlength out) = Ret (out ++ concat pss).
Proof.
  intros Hp. revert out. induction Hp as [|ps pss H1 H2 IH]; intros out; cbn [fmap list_fmap transform_blocks concat]; [done|].
  rewrite length_app. pose proof (pid_transform_spec (S (length (tasks_text ps))) [] ps out (length (concat pss))) as E. cbn [app] in E.
  rewrite E by (by left || done || lia). cbn [mbind res_bind fst snd]. rewrite app_assoc.
  replace (zlength out + zlength ps) with (zlength (out ++ ps)) by (rewrite length_app; lia). by rewrite IH, app_assoc.
Qed.

(** The list of the tasks in any number of tasks files, one pid to a line, has the pids of all the files, as often
    as they are there, in ascending order. *)
Theorem pidlist_sorted pss (Hp : Forall (Forall is_pid) pss) :
  ∃ l, pidlist_of (tasks_text <$> pss) = Ret l ∧ Sorted Z.le l ∧ l ≡ₚ concat pss.
Proof.
  unfold pidlist_of. assert (Hn : ∀ n, foldl (λ n pb, n + pidcount pb) n (tasks_text <$> pss) = n + zlength (concat pss)).
  { induction Hp as [|ps pss H1 H2 IH]; intros n; cbn [fmap list_fmap foldl concat]; [cbn; lia|]. rewrite IH, pidcount_text, length_app by done. lia. }
  rewrite Hn, Z.add_0_l, Nat2Z.id. pose proof (transform_blocks_spec pss [] Hp) as E. cbn [app length] in E. change (Z.of_nat 0) with 0 in E. rewrite E. cbn [mbind res_bind].
  eexists. split; [done|]. set (l := merge_sort _ _). assert (Hl : l ≡ₚ concat pss) by apply merge_sort_Permutation. split; [|done].
  apply sorted_pids; [|by apply Sorted_merge_sort; apply _]. rewrite Hl. by apply Forall_concat.
Qed.

Lemma pidlist_sorted_witness : ∃ l, pidlist_of (tasks_text <$> [[12; 7]; [30]; [7]]) = Ret l ∧ Sorted Z.le l ∧ l ≡ₚ [12; 7; 30; 7].
Proof. apply (pidlist_sorted [[12; 7]; [30]; [7]]). unfold is_pid, INT_MAX. repeat constructor; lia. Defined.

(** ** Other loops *)

(** The list is turned around: directories come after what is in them. *)
Lemma reverse_loop_spec cs2 cs3 : reverse_loop cs2 cs3 = reverse cs3 ++ cs2.
Proof. revert cs2. induction cs3 as [|e l IH]; intros cs2; [done|]. cbn [reverse_loop]. by rewrite IH, reverse_cons, <- app_assoc. Qed.

(** The search for a package of which some cpus are set and some are not. *)
Lemma package_loop_spec fuel b ncpus siblings cpu : 1 ≤ siblings → 0 ≤ cpu → ncpus + siblings < 2 ^ 32 → Z.max 0 (ncpus - cpu) < Z.of_nat fuel →
  ∃ r, package_loop fuel b ncpus siblings cpu = Ret r ∧
    (r = true ↔ ∃ i, 0 ≤ i ∧ cpu + i * siblings < ncpus ∧ num_set b (cpu + i * siblings) siblings ≠ 0 ∧ num_set b (cpu + i * siblings) siblings ≠ siblings).
Proof.
  intros Hs. revert cpu. induction fuel as [|fuel IH]; intros cpu Hc Hn Hf; [lia|]. cbn [package_loop]. destruct (Z.ltb_spec cpu ncpus) as [Hl|Hl].
  - destruct ((num_set b cpu siblings =? 0) || (num_set b cpu siblings =? siblings)) eqn:E.
    + rewrite u32_id by lia. destruct (IH (cpu + siblings)) as (r & -> & Hr); [lia|lia|lia|]. exists r. split; [done|]. rewrite Hr. split; intros (i & Hi & H).
      * exists (i + 1). replace (cpu + (i + 1) * siblings) with (cpu + siblings + i * siblings) by ring. split; [lia|done].
      * destruct (decide (i = 0)) as [->|Hne].
        { rewrite Z.mul_0_l, Z.add_0_r in H. apply orb_prop in E as [E|E]; bool_hyps; tauto. }
        exists (i - 1). replace (cpu + siblings + (i - 1) * siblings) with (cpu + i * siblings) by ring. split; [lia|done].
    + exists true. split; [done|]. split; [|done]. intros _. exists 0. rewrite Z.mul_0_l, Z.add_0_r. bool_hyps. done.
  - exists false. split; [done|]. split; [done|]. intros (i & Hi & H & _). nia.
Qed.

(** ** The map file *)

Lemma flines_go_unlines fuel n ls : (length ls < fuel)%nat → Forall (λ l, zlength l + 1 < n ∧ Forall (λ c, line_char c = true) l) ls → flines_go fuel n (unlines ls) = ls.
Proof.
  revert fuel. induction ls as [|l ls IH]; intros fuel Hf Hl; (destruct fuel as [|fuel]; [lia|]); cbn [flines_go].
  - unfold flgets, lgets. cbn [unlines mbind list_bind]. by destruct (Z.to_nat (n - 1)).
  - inversion Hl as [|? ? [H1 H2] H3]; subst. change (unlines (l :: ls)) with ((l ++ [newline]) ++ unlines ls). rewrite <- app_assoc. cbn [app].
    unfold flgets. rewrite lgets_line by (apply getc_reads || done). rewrite IH by (done || (cbn in Hf; lia)). f_equal.
    unfold as_string. rewrite <- (app_nil_r l) at 1. rewrite span_app; [done| |done]. eapply Forall_impl; [exact H2|].
    intros c. destruct c as [[] [] [] [] [] [] [] []]; intros H; try discriminate H; done.
Qed.

Lemma unlines_length ls : (length ls ≤ length (unlines ls))%nat.
Proof. induction ls as [|l ls IH]; [done|]. change (unlines (l :: ls)) with ((l ++ [newline]) ++ unlines ls). rewrite !length_app. cbn [length]. lia. Qed.

(** A line of the map. *)
Definition map_entry (cpu mem : Z) : cstr := digits 10 cpu ++ " "%char :: digits 10 mem.

Fixpoint map_entries (nmems cpu : Z) (m : list Z) : list cstr :=
  match m with [] => [] | mem :: m => (if u32 mem <? nmems then [map_entry cpu (u32 mem)] else []) ++ map_entries nmems (cpu + 1) m end.

Lemma map_lines_unlines nmems cpu m : 0 ≤ cpu → map_lines nmems cpu m = unlines (map_entries nmems cpu m).
Proof.
  revert cpu. induction m as [|x m IH]; intros cpu Hc; [done|]. cbn [map_lines map_entries]. unfold unlines. rewrite bind_app. fold (unlines (map_entries nmems (cpu + 1) m)).
  rewrite <- IH by lia. f_equal. case_if; [|done]. pose proof (u32_range x). cbn [mbind list_bind]. unfold fmt_d. rewrite !(proj2 (Z.ltb_ge _ _)) by lia.
  rewrite app_nil_r. unfold map_entry. by rewrite <- app_assoc.
Qed.

Lemma scan_u_digits n rest : 0 ≤ n < 2 ^ 32 → match rest with [] => True | x :: _ => is_base 10 x = false ∧ (x =c "x"%char) = false ∧ (x =c "X"%char) = false end →
  scan_u (digits 10 n ++ rest) = Some (n, rest).
Proof.
  intros Hn Hr. destruct (digits_spec 10 n ltac:(lia) ltac:(lia)) as (H1 & H2 & H3). unfold scan_u. rewrite scan_number_digits by done.
  destruct (digits 10 n) as [|c t]; [done|]. rewrite H3. unfold ULONG_MAX. rewrite (proj2 (Z.ltb_ge _ _)) by lia. by rewrite u32_id by lia.
Qed.

Lemma scan_u_space s : scan_u (" "%char :: s) = scan_u s.
Proof. unfold scan_u, scan_number, skip_space. cbn [span]. change (isspace " "%char) with true. cbv iota. by destruct (span isspace s). Qed.

Lemma map_line_entry ncpus nmems m cpu mem : 0 ≤ cpu < ncpus → ncpus < 2 ^ 32 → 0 ≤ mem < nmems → nmems < 2 ^ 32 →
  map_line ncpus nmems m (map_entry cpu mem) = <[Z.to_nat cpu := mem]> m.
Proof.
  intros. unfold map_line, map_entry. rewrite scan_u_digits by (done || lia). rewrite scan_u_space. rewrite <- (app_nil_r (digits 10 mem)), scan_u_digits by (done || lia).
  by rewrite !(proj2 (Z.leb_gt _ _)) by lia.
Qed.

Definition map_value (nmems mem : Z) : Z := if u32 mem <? nmems then u32 mem else nmems.

Lemma map_lines_back ncpus nmems out m : ncpus < 2 ^ 32 → nmems < 2 ^ 32 → zlength out + zlength m ≤ ncpus →
  foldl (map_line ncpus nmems) (out ++ replicate (length m) nmems) (map_entries nmems (zlength out) m) = out ++ (map_value nmems <$> m).
Proof.
  intros Hc Hm. revert out. induction m as [|x m IH]; intros out Hl; [done|]. cbn [map_entries length replicate fmap list_fmap] in *. rewrite foldl_app.
  assert (E : foldl (map_line ncpus nmems) (out ++ nmems :: replicate (length m) nmems) (if u32 x <? nmems then [map_entry (zlength out) (u32 x)] else []) =
    (out ++ [map_value nmems x]) ++ replicate (length m) nmems).
  { unfold map_value. pose proof (u32_range x). destruct (Z.ltb_spec (u32 x) nmems); cbn [foldl]; [|by rewrite <- app_assoc].
    rewrite map_line_entry by lia. rewrite Nat2Z.id, insert_app_r_alt, Nat.sub_diag by lia. cbn. by rewrite <- app_assoc. }
  rewrite E. replace (zlength out + 1) with (zlength (out ++ [map_value nmems x])) by (rewrite length_app; cbn; lia).
  rewrite IH by (rewrite length_app; cbn; lia). by rewrite <- app_assoc.
Qed.

Lemma map_entries_ok ncpus nmems cpu m : 0 ≤ cpu → cpu + zlength m ≤ ncpus → ncpus ≤ 1000000 → nmems ≤ 1000000 →
  Forall (λ l, zlength l + 1 < SMALL_BUFSZ ∧ Forall (λ c, line_char c = true) l) (map_entries nmems cpu m).
Proof.
  intros Hc. revert cpu Hc. induction m as [|x m IH]; intros cpu Hc Hl Hn Hm; cbn [map_entries]; [constructor|]. cbn [length] in Hl.
  apply Forall_app. split; [|apply IH; lia]. pose proof (u32_range x). destruct (Z.ltb_spec (u32 x) nmems); [|constructor]. apply Forall_singleton. unfold map_entry.
  pose proof (digits_length 10 cpu 6 ltac:(lia) ltac:(lia) ltac:(lia)). pose proof (digits_length 10 (u32 x) 6 ltac:(lia) ltac:(lia) ltac:(lia)). split.
  - rewrite length_app. cbn [length]. unfold SMALL_BUFSZ. lia.
  - assert (Hd : ∀ n, 0 ≤ n → Forall (λ c, line_char c = true) (digits 10 n)).
    { intros n Hn0. eapply Forall_impl; [by apply digits_chars|]. intros c Hx. by apply mask_char_line in Hx as [? _]. }
    apply Forall_app. split; [by apply Hd|]. constructor; [done|]. apply Hd. lia.
Qed.

(** What store_map writes is what load_map reads: the short buffer for a line is long
    enough for a million cpus, and what is no node becomes the number of nodes. *)
Lemma map_file_roundtrip ncpus nmems m : zlength m = ncpus → ncpus ≤ 1000000 → 0 ≤ nmems ≤ 1000000 →
  foldl (map_line ncpus nmems) (replicate (Z.to_nat ncpus) nmems) (flines SMALL_BUFSZ (map_lines nmems 0 m)) = map_value nmems <$> m.
Proof.
  intros Hl Hn Hm. rewrite map_lines_unlines by lia. unfold flines. rewrite flines_go_unlines.
  - subst ncpus. rewrite Nat2Z.id. pose proof (map_lines_back (zlength m) nmems [] m ltac:(lia) ltac:(lia)) as E. cbn [app length] in E. change (Z.of_nat 0) with 0 in E.
    apply E. lia.
  - pose proof (unlines_length (map_entries nmems 0 m)). lia.
  - apply (map_entries_ok ncpus); lia.
Qed.

(** ** Tasks that cannot be killed *)

(** One task that stays, whatever is done to it. *)
#[local] Instance stuck_kernel : Kernel () := λ A c k,
  (match c in call A return A with
   | Stat _ => inr (FileStat 1 1 1 true) | OpenRead _ => inr 3 | OpenWrite _ => inr 3 | Read _ _ => inr (str "1" ++ [newline])
   | Pread _ _ _ => inr (str "1" ++ [newline]) | Write _ d => inr (zlength d) | Close _ => () | Fopen _ => inr 3 | Fread _ => str "3" ++ [newline]
   | Fclose _ => () | Opendir _ => inr [] | FtsOpen p => inr [FtsEnt p FTS_D 0] | Mkdir _ _ => inr () | Rmdir _ => inr ()
   | Mkstemp _ => inl ENOSYS | Fdopen _ => inl ENOSYS | Fwrite _ _ => () | Utime _ _ => inr () | Rename _ _ => inr ()
   | Chmod _ _ => inr () | Unlink _ => inr () | Time => 0 | Getpid => 1 | Kill _ _ => inr () | Sleep _ => 0
   | Uname => inl ENOSYS | SetAffinity _ _ _ => inr () | SetMempolicy _ _ _ => inr () | GetMempolicy _ => inl ENOSYS
   end, k).

(** Seven seconds: sleeps of one, two, three seconds and of the one second that is left. *)
Lemma stuck_task_times_out :
  match @cpuset_nuke _ clocked 9 (str "/a") 7 (Statics 0 check_ok 8 4 None 0 None false false 0 0) ((), 0) with
  | Ret (rc, s, (_, t)) => rc = -1 ∧ errno s = ETIME ∧ t = 7
  | _ => False
  end.
Proof. vm_compute. done. Qed.
