(* ===== verification/OpenFlags.v ===== *)
(** * Names of open flags: lib/open_flags.c

    A list of symbols separated by commas is turned into the bits for open(2) and back.
    The table is the one that is compiled on Linux for x86-64; the text is built in an
    array of 512 characters. *)

From S2P Require Import Prelude CInt CMem CString.
Local Open Scope Z_scope.

Definition UNKNOWN_SYMBOL : cstr := str "UNKNOWN".

Definition O_RDONLY : Z := 0.
Definition O_WRONLY : Z := 1.
Definition O_RDWR : Z := 2.
Definition O_CREAT : Z := 64.
Definition O_EXCL : Z := 128.
Definition O_NOCTTY : Z := 256.
Definition O_TRUNC : Z := 512.
Definition O_APPEND : Z := 1024.
Definition O_NONBLOCK : Z := 2048.
Definition O_DSYNC : Z := 4096.
Definition O_ASYNC : Z := 8192.
Definition O_SYNC : Z := 1052672.

Record open_flag_t : Type := OpenFlag { symbol : cstr; flag : Z }.

#[global] Instance open_flag_t_eq_dec : EqDecision open_flag_t.
Proof. solve_decision. Defined.

Definition Open_flags : list open_flag_t :=
  [OpenFlag (str "O_RDONLY") O_RDONLY; OpenFlag (str "O_WRONLY") O_WRONLY; OpenFlag (str "O_RDWR") O_RDWR;
   OpenFlag (str "O_SYNC") O_SYNC; OpenFlag (str "O_CREAT") O_CREAT; OpenFlag (str "O_TRUNC") O_TRUNC;
   OpenFlag (str "O_EXCL") O_EXCL; OpenFlag (str "O_APPEND") O_APPEND; OpenFlag (str "O_NONBLOCK") O_NONBLOCK;
   OpenFlag (str "O_NOCTTY") O_NOCTTY; OpenFlag (str "O_DSYNC") O_DSYNC; OpenFlag (str "O_RSYNC") O_SYNC;
   OpenFlag (str "O_ASYNC") O_ASYNC; OpenFlag (str "O_NDELAY") O_NONBLOCK].

Definition find_flag (name : cstr) : option open_flag_t := List.find (λ f, bool_decide (name = symbol f)) Open_flags.

(** The bits, or what [*badname] points to for the result -1: the bad symbol and all
    that follows it. *)
Fixpoint parse_flags_loop (fuel : nat) (name : cstr) (bits : Z) : res (Z + cstr) :=
  match fuel with
  | O => NoFuel
  | S fuel =>
      let '(sym, rest) := span (λ c, negb (c =c ","%char)) name in
      match find_flag sym with
      | None => Ret (inr name)
      | Some f =>
          let bits := Z.lor bits (flag f) in
          match rest with [] => Ret (inl bits) | _ :: name => parse_flags_loop fuel name bits end
      end
  end.
Definition parse_open_flags (string : cstr) : res (Z + cstr) := parse_flags_loop (S (length string)) string 0.

(** The loop over the table: the text, whether there is some, and the bits left. *)
Fixpoint symbols_loop (l : list open_flag_t) (sep text : cstr) (havesome : bool) (bits : Z) : cstr * bool * Z :=
  match l with
  | [] => (text, havesome, bits)
  | f :: l =>
      if Z.land bits (flag f) =? flag f then
        symbols_loop l sep (text ++ (if havesome then sep else []) ++ symbol f) true (Z.land bits (Z.lnot (flag f)))
      else symbols_loop l sep text havesome bits
  end.

Definition openflags2symbols (openflags : Z) (sep : cstr) (mode : Z) : res cstr :=
  let '(text, havesome) := if Z.land openflags (Z.lor O_WRONLY O_RDWR) =? 0 then (str "O_RDONLY", true) else ([], false) in
  let '(text, havesome, bits) := symbols_loop (tail Open_flags) sep text havesome openflags in
  let text := if negb (bits =? 0) && (mode =? 1) then text ++ (if havesome then sep else []) ++ UNKNOWN_SYMBOL else text in
  if zlength text <? 512 then Ret text else Undef.

(** ** Facts *)

(** What the loop picks from the table, and what it leaves. *)
Fixpoint picked (l : list open_flag_t) (bits : Z) : list open_flag_t :=
  match l with
  | [] => []
  | f :: l => if Z.land bits (flag f) =? flag f then f :: picked l (Z.land bits (Z.lnot (flag f))) else picked l bits
  end.
Definition unpicked (l : list open_flag_t) (bits : Z) : Z := foldl (λ b f, Z.land b (Z.lnot (flag f))) bits (picked l bits).
Definition union (l : list open_flag_t) : Z := foldr (λ f b, Z.lor (flag f) b) 0 l.

(** The bits of [openflags] that no symbol stands for. *)
Definition leftover (openflags : Z) : Z := unpicked (tail Open_flags) openflags.

Fixpoint join (sep : cstr) (l : list cstr) : cstr :=
  match l with [] => [] | [x] => x | x :: l => x ++ sep ++ join sep l end.

Lemma symbols_join_snoc sep l x : join sep (l ++ [x]) = match l with [] => x | _ => join sep l ++ sep ++ x end.
Proof.
  induction l as [|y l IH]; [done|]. destruct l as [|z l]; [done|].
  change (y ++ sep ++ join sep ((z :: l) ++ [x]) = (y ++ sep ++ join sep (z :: l)) ++ sep ++ x). rewrite IH. by rewrite !app_assoc.
Qed.

Lemma symbols_join_cons sep x l : l ≠ [] → join sep (x :: l) = x ++ sep ++ join sep l.
Proof. by destruct l. Qed.

Lemma symbols_loop_spec l sep names bits :
  symbols_loop l sep (join sep names) (bool_decide (names ≠ [])) bits =
  (join sep (names ++ (symbol <$> picked l bits)), bool_decide (names ++ (symbol <$> picked l bits) ≠ []), unpicked l bits).
Proof.
  unfold unpicked. revert names bits. induction l as [|f l IH]; intros names bits; simpl; [by rewrite app_nil_r|].
  case_if; [|apply IH].
  replace (join sep names ++ _ ++ symbol f) with (join sep (names ++ [symbol f])); [|rewrite symbols_join_snoc; by destruct names].
  specialize (IH (names ++ [symbol f]) (Z.land bits (Z.lnot (flag f)))).
  rewrite bool_decide_eq_true_2 in IH by (by destruct names). rewrite IH, <-app_assoc. done.
Qed.

(** Taking out bits that are there and putting them back. *)
Lemma take_put b f : Z.land b f = f → Z.lor f (Z.land b (Z.lnot f)) = b.
Proof.
  intros H. apply Z.bits_inj'. intros n Hn. rewrite Z.lor_spec, Z.land_spec, Z.lnot_spec by done.
  rewrite <-H, Z.land_spec. by destruct (Z.testbit b n), (Z.testbit f n).
Qed.

Lemma picked_union l bits : Z.lor (union (picked l bits)) (unpicked l bits) = bits.
Proof.
  unfold unpicked. revert bits. induction l as [|f l IH]; intros bits; simpl; [done|].
  case_if; [|apply IH]. simpl. rewrite <-Z.lor_assoc, IH. by apply take_put.
Qed.

Lemma remove_bits l b n : 0 ≤ n →
  Z.testbit (foldl (λ b f, Z.land b (Z.lnot (flag f))) b l) n = Z.testbit b n && negb (Z.testbit (union l) n).
Proof.
  intros Hn. revert b. induction l as [|f l IH]; intros b; cbn [foldl union foldr]; [by rewrite Z.bits_0, andb_true_r|].
  rewrite IH, Z.land_spec, Z.lnot_spec, Z.lor_spec, negb_orb, andb_assoc by done. done.
Qed.

Lemma picked_sub l bits f : f ∈ picked l bits → f ∈ l.
Proof.
  revert bits. induction l as [|g l IH]; intros bits; simpl; [done|].
  case_if; [rewrite elem_of_cons|]; intros; set_solver.
Qed.

(** Each symbol is found under its name, which has no comma. *)
Lemma table_ok f : f ∈ Open_flags → find_flag (symbol f) = Some f ∧ Forall (λ c, (negb (c =c ","%char)) = true) (symbol f).
Proof.
  intros Hf. assert (Hall : forallb (λ f, bool_decide (find_flag (symbol f) = Some f ∧
    Forall (λ c, (negb (c =c ","%char)) = true) (symbol f))) Open_flags = true) by (vm_compute; reflexivity).
  rewrite forallb_forall in Hall. apply (bool_decide_unpack _), Is_true_true, Hall, list_elem_of_In, Hf.
Qed.

Lemma parse_loop_join fuel bits l : l ≠ [] → Forall (λ f, f ∈ Open_flags) l → (length l ≤ fuel)%nat →
  parse_flags_loop fuel (join (str ",") (symbol <$> l)) bits = Ret (inl (Z.lor bits (union l))).
Proof.
  intros Hne Hl. revert fuel bits. induction Hl as [|f l Hf Hl IH]; [done|]. intros [|fuel] bits Hlen; [simpl in Hlen; lia|].
  destruct (table_ok f Hf) as [Hfind Hc]. destruct l as [|g l].
  - simpl. rewrite <-(app_nil_r (symbol f)), span_app by done. rewrite app_nil_r, Hfind. by rewrite Z.lor_0_r.
  - assert (E : span (λ c, negb (c =c ","%char)) (join (str ",") (symbol <$> f :: g :: l)) =
      (symbol f, ","%char :: join (str ",") (symbol <$> g :: l))).
    { rewrite fmap_cons, symbols_join_cons by done. by apply (span_app (λ c, negb (c =c ","%char)) (symbol f)). }
    cbn [parse_flags_loop]. rewrite E, Hfind. rewrite IH by (done || (simpl in Hlen |- *; lia)).
    change (union (f :: g :: l)) with (Z.lor (flag f) (union (g :: l))). by rewrite Z.lor_assoc.
Qed.

(** With UNKNOWN at the end the parser stops there. *)
Lemma parse_loop_unknown fuel bits l : l ≠ [] → Forall (λ f, f ∈ Open_flags) l → (length l < fuel)%nat →
  parse_flags_loop fuel (join (str ",") ((symbol <$> l) ++ [UNKNOWN_SYMBOL])) bits = Ret (inr UNKNOWN_SYMBOL).
Proof.
  intros Hne Hl. revert fuel bits. induction Hl as [|f l Hf Hl IH]; [done|]. intros [|fuel] bits Hlen; [simpl in Hlen; lia|].
  destruct (table_ok f Hf) as [Hfind Hc].
  assert (E : span (λ c, negb (c =c ","%char)) (join (str ",") ((symbol <$> f :: l) ++ [UNKNOWN_SYMBOL])) =
    (symbol f, ","%char :: join (str ",") ((symbol <$> l) ++ [UNKNOWN_SYMBOL]))).
  { rewrite fmap_cons, <-app_comm_cons, symbols_join_cons by (by destruct l). by apply (span_app (λ c, negb (c =c ","%char)) (symbol f)). }
  cbn [parse_flags_loop]. rewrite E, Hfind. destruct l as [|g l]; [|apply IH; [done|simpl in *; lia]].
  destruct fuel as [|fuel]; [simpl in Hlen; lia|done].
Qed.

Lemma symbols_join_length sep l n : Forall (λ x, (length x ≤ n)%nat) l → (length (join sep l) ≤ length l * (n + length sep))%nat.
Proof.
  induction 1 as [|x l Hx Hl IH]; [done|]. destruct l as [|y l]; [simpl in *; lia|].
  change (length (x ++ sep ++ join sep (y :: l)) ≤ S (length (y :: l)) * (n + length sep))%nat. rewrite !length_app. lia.
Qed.

Lemma symbols_join_longer sep l : Forall (λ x : cstr, x ≠ []) l → (length l ≤ length (join sep l))%nat.
Proof.
  induction 1 as [|x l Hx Hl IH]; [done|]. destruct x as [|c x]; [done|]. destruct l as [|y l]; [simpl in *; lia|].
  change (S (length (y :: l)) ≤ length ((c :: x) ++ sep ++ join sep (y :: l)))%nat. rewrite !length_app. simpl in *. lia.
Qed.

Lemma picked_length l bits : (length (picked l bits) ≤ length l)%nat.
Proof.
  revert bits. induction l as [|f l IH]; intros bits; cbn [picked]; [simpl; lia|].
  case_if; cbn [length]; [apply le_n_S|apply le_S]; apply IH.
Qed.

Lemma picked_nil f l bits : picked (f :: l) bits = [] → Z.land bits (flag f) ≠ flag f ∧ picked l bits = [].
Proof. cbn [picked]. case_if; [done|]. intros; split; done. Qed.

#[local] Arguments picked : simpl never.

(** The symbols that are printed. *)
Definition symbols_of (openflags : Z) : list open_flag_t :=
  (if Z.land openflags (Z.lor O_WRONLY O_RDWR) =? 0 then [OpenFlag (str "O_RDONLY") O_RDONLY] else []) ++
  picked (tail Open_flags) openflags.

Lemma symbols_of_table openflags : Forall (λ f, f ∈ Open_flags) (symbols_of openflags).
Proof.
  unfold symbols_of. apply Forall_app. split.
  - case_if; repeat constructor.
  - apply Forall_forall. intros f Hf%picked_sub. by right.
Qed.

Lemma symbols_of_union openflags : union (symbols_of openflags) = Z.land openflags (Z.lnot (leftover openflags)).
Proof.
  assert (E : union (symbols_of openflags) = union (picked (tail Open_flags) openflags)) by (unfold symbols_of; by destruct (_ =? 0)).
  rewrite E. pose proof (picked_union (tail Open_flags) openflags) as Hu. apply Z.bits_inj'. intros n Hn.
  rewrite Z.land_spec, Z.lnot_spec by done. unfold leftover, unpicked. rewrite remove_bits by done.
  apply (f_equal (λ z, Z.testbit z n)) in Hu. rewrite Z.lor_spec in Hu. unfold unpicked in Hu. rewrite remove_bits in Hu by done.
  by destruct (Z.testbit openflags n), (Z.testbit (union _) n).
Qed.

Lemma lacks_bit b i : 0 ≤ i → Z.land b (2 ^ i) ≠ 2 ^ i → Z.testbit b i = false.
Proof.
  intros Hi Hne. destruct (Z.testbit b i) eqn:Hb; [|done]. destruct Hne. apply Z.bits_inj'. intros n Hn.
  rewrite Z.land_spec, Z.pow2_bits_eqb by done. destruct (Z.eqb_spec i n) as [->|]; [by rewrite Hb|by rewrite andb_false_r].
Qed.

Lemma symbols_of_nonempty openflags : symbols_of openflags ≠ [].
Proof.
  unfold symbols_of. destruct (Z.eqb_spec (Z.land openflags (Z.lor O_WRONLY O_RDWR)) 0) as [|Hne]; [done|]. intros [_ Hp]%app_eq_nil.
  apply picked_nil in Hp as [H1 Hp]. apply picked_nil in Hp as [H2 _].
  pose proof (lacks_bit openflags 0 ltac:(lia) H1) as B0. pose proof (lacks_bit openflags 1 ltac:(lia) H2) as B1.
  apply Hne, Z.bits_inj'. intros n Hn. rewrite Z.land_spec, Z.bits_0. change (Z.lor O_WRONLY O_RDWR) with (Z.ones 2).
  destruct (decide (n < 2)); [|rewrite Z.ones_spec_high, andb_false_r by lia; done].
  assert (n = 0 ∨ n = 1) as [->| ->] by lia; by rewrite ?B0, ?B1.
Qed.

(** Every symbol is short. *)
Lemma symbol_length f : f ∈ Open_flags → (1 ≤ length (symbol f) ≤ 10)%nat.
Proof.
  intros Hf. assert (Hall : forallb (λ f, bool_decide (1 ≤ length (symbol f) ≤ 10)%nat) Open_flags = true) by (vm_compute; reflexivity).
  rewrite forallb_forall in Hall. apply (bool_decide_unpack _), Is_true_true, Hall, list_elem_of_In, Hf.
Qed.

Lemma symbols_text openflags sep mode : (length sep ≤ 1)%nat →
  openflags2symbols openflags sep mode =
  Ret (join sep ((symbol <$> symbols_of openflags) ++
    if negb (leftover openflags =? 0) && (mode =? 1) then [UNKNOWN_SYMBOL] else [])).
Proof.
  intros Hsep. unfold openflags2symbols.
  set (names := if Z.land openflags (Z.lor O_WRONLY O_RDWR) =? 0 then [str "O_RDONLY"] else [] : list cstr).
  replace (if Z.land openflags (Z.lor O_WRONLY O_RDWR) =? 0 then (str "O_RDONLY", true) else ([], false))
    with (join sep names, bool_decide (names ≠ [])) by (unfold names; by case_if).
  rewrite symbols_loop_spec. fold (leftover openflags).
  assert (En : names ++ (symbol <$> picked (tail Open_flags) openflags) = symbol <$> symbols_of openflags).
  { unfold names, symbols_of. rewrite fmap_app. by case_if. }
  rewrite En, (bool_decide_eq_true_2 (symbol <$> symbols_of openflags ≠ []))
    by (intros H%fmap_nil_inv; by apply (symbols_of_nonempty openflags)).
  set (more := negb (leftover openflags =? 0) && (mode =? 1)).
  replace (if more then _ else _) with (join sep ((symbol <$> symbols_of openflags) ++ if more then [UNKNOWN_SYMBOL] else [])).
  2: { destruct more; [|by rewrite app_nil_r]. rewrite symbols_join_snoc. pose proof (symbols_of_nonempty openflags).
       by destruct (symbols_of openflags). }
  rewrite (proj2 (Z.ltb_lt _ _)); [done|].
  pose proof (picked_length (tail Open_flags) openflags) as Hp. change (length (tail Open_flags)) with 13%nat in Hp.
  match goal with |- Z.of_nat (length (join sep ?l)) < _ => pose proof (symbols_join_length sep l 10) as Hl end.
  assert (Hn : (length (symbols_of openflags) ≤ 14)%nat) by (unfold symbols_of; rewrite length_app; destruct (_ =? 0); cbn [length]; lia).
  assert (Hm : (length (if more then [UNKNOWN_SYMBOL] else [] : list cstr) ≤ 1)%nat) by (destruct more; simpl; lia).
  rewrite length_app, length_fmap in Hl. apply (Z.le_lt_trans _ (Z.of_nat 165)); [|done]. etransitivity; [apply inj_le, Hl|nia].
  apply Forall_app. split; [|destruct more; repeat constructor].
  apply Forall_fmap. eapply Forall_impl; [apply symbols_of_table|]. intros f Hf. apply symbol_length, Hf.
Qed.

(** C39: What is printed for open flags is parsed back: with commas between them the symbols
    give all the bits that have a symbol.  When bits are left over, mode 1 adds UNKNOWN,
    which the parser rejects and points to. *)
Theorem open_flags_roundtrip openflags mode :
  ∃ t, openflags2symbols openflags (str ",") mode = Ret t ∧
    parse_open_flags t =
      if negb (leftover openflags =? 0) && (mode =? 1) then Ret (inr UNKNOWN_SYMBOL)
      else Ret (inl (Z.land openflags (Z.lnot (leftover openflags)))).
Proof.
  eexists. split; [by apply symbols_text|]. unfold parse_open_flags.
  pose proof (symbols_of_table openflags) as Ht. pose proof (symbols_of_nonempty openflags) as Hne.
  assert (Hlen : ∀ more : list cstr, Forall (λ x : cstr, x ≠ []) more → (length (symbols_of openflags) + length more ≤
    length (join (str ",") ((symbol <$> symbols_of openflags) ++ more)))%nat).
  { intros more Hm. etransitivity; [|apply symbols_join_longer]; [by rewrite length_app, length_fmap|]. apply Forall_app. split; [|done].
    apply Forall_fmap. eapply Forall_impl; [apply Ht|]. intros f Hf%symbol_length. simpl. intros E. rewrite E in Hf. simpl in Hf. lia. }
  case_if.
  - apply parse_loop_unknown; [done..|]. specialize (Hlen [UNKNOWN_SYMBOL]). rewrite length_cons in Hlen. apply le_n_S.
    etransitivity; [|apply Hlen; by repeat constructor]. lia.
  - specialize (Hlen [] ltac:(constructor)). rewrite app_nil_r in *. rewrite parse_loop_join by (done || simpl in *; lia).
    by rewrite Z.lor_0_l, symbols_of_union.
Qed.

(** Flags that a test passes to open(2) have no bits left over. *)
Example common_flags : leftover (Z.lor O_RDWR (Z.lor O_CREAT (Z.lor O_TRUNC O_SYNC))) = 0 ∧
  openflags2symbols (Z.lor O_RDWR (Z.lor O_CREAT O_SYNC)) (str ",") 1 = Ret (str "O_RDWR,O_SYNC,O_CREAT").
Proof. split; vm_compute; reflexivity. Qed.

(** The bit of O_SYNC that is not O_DSYNC has no symbol of its own. *)
Example sync_bit_unknown : openflags2symbols 1048576 (str ",") 1 = Ret (str "O_RDONLY,UNKNOWN").
Proof. vm_compute. reflexivity. Qed.
