(* ===== verification/BytesPrefix.v ===== *)
(** * Sizes with a suffix: lib/bytes_by_prefix.c

    A decimal number is read as a float (or a double) and multiplied by what the letter
    after it stands for.  Floating point is that of IEEE 754 with rounding to nearest:
    a finite number is an integer times a power of two, an operation rounds the exact
    result.  The conversion to an integer type is undefined outside of its range.  The
    input of %f is the one the C standard defines: decimal or hexadecimal numbers,
    infinities and NaNs. *)

From S2P Require Import Prelude CInt CMem CString.
Local Open Scope Z_scope.

(** ** Floating point *)

(** Precision, least exponent, and the exponent of the first power that is too large. *)
Record format : Type := Format { prec : Z; emin : Z; emax : Z }.
Definition float_t : format := Format 24 (-149) 128.
Definition double_t : format := Format 53 (-1074) 1024.

(** [Fin m e] is m * 2^e. *)
Inductive number : Type :=
| Fin (m e : Z)
| Inf (neg : bool)
| NaN.

(** The integer nearest to n / d, the even one of two. *)
Definition nearest (n d : Z) : Z :=
  let q := n / d in
  match 2 * (n mod d) ?= d with
  | Lt => q
  | Gt => q + 1
  | Eq => if Z.even q then q else q + 1
  end.

(** n / d * 2^(-e), as a fraction. *)
Definition scale (n d e : Z) : Z * Z := if e <? 0 then (n * 2 ^ (- e), d) else (n, d * 2 ^ e).

(** The exponent of n / d: the greatest l with 2^l <= n / d. *)
Definition exponent (n d : Z) : Z :=
  let l := Z.log2 n - Z.log2 d in
  let '(a, b) := scale n d l in if a <? b then l - 1 else l.

(** n / d rounded; n is not negative, d is positive. *)
Definition round (f : format) (neg : bool) (n d : Z) : number :=
  if n =? 0 then Fin 0 0
  else
    let e := Z.max (exponent n d - prec f + 1) (emin f) in
    let '(a, b) := scale n d e in
    let m := nearest a b in
    if emax f - prec f <? e then Inf neg
    else if (e =? emax f - prec f) && (m =? 2 ^ prec f) then Inf neg
    else Fin (if neg then - m else m) e.

(** A product with a finite positive number. *)
Definition fmul (f : format) (x : number) (k : Z) : number :=
  match x with
  | Fin m e => let '(a, b) := scale (Z.abs m * k) 1 (- e) in round f (m <? 0) a b
  | _ => x
  end.

(** To an integer type with the greatest value [lim]. *)
Definition to_integer (lim : Z) (x : number) : res Z :=
  match x with
  | Fin m e =>
      let v := Z.sgn m * (if e <? 0 then Z.abs m / 2 ^ (- e) else Z.abs m * 2 ^ e) in
      if (- lim - 1 <=? v) && (v <=? lim) then Ret v else Undef
  | _ => Undef
  end.

(** ** Input *)

Definition lower (c : ascii) : ascii := if (65 <=? code c) && (code c <=? 90) then chr (code c + 32) else c.

(** How many characters of [w] the text starts with, in either case, and the rest. *)
Fixpoint match_word (w s : cstr) : nat * cstr :=
  match w, s with
  | a :: w, c :: s' => if lower c =c a then let '(n, r) := match_word w s' in (S n, r) else (O, s)
  | _, _ => (O, s)
  end.

Definition isalnum_ (c : ascii) : bool := isdigit c || ((97 <=? code (lower c)) && (code (lower c) <=? 122)) || (c =c "_"%char).

(** The exponent: letter, sign, digits; none when the digits are missing. *)
Definition scan_exponent (letter : ascii) (s : cstr) : option (Z * cstr) :=
  match s with
  | c :: s' =>
      if lower c =c letter then
        let '(neg, s2) := scan_sign s' in
        let '(ds, rest) := span isdigit s2 in
        match ds with [] => None | _ => Some (if neg then - dval 10 ds else dval 10 ds, rest) end
      else Some (0, s)
  | [] => Some (0, s)
  end.

(** A number with digits of base [base] and an exponent of base [ebase]. *)
Definition scan_digits (f : format) (base ebase : Z) (letter : ascii) (neg : bool) (s : cstr) : option (number * cstr) :=
  let '(ds, s1) := span (is_base base) s in
  let '(fs, s2) := match s1 with
                   | c :: r => if c =c "."%char then span (is_base base) r else ([], s1)
                   | [] => ([], s1)
                   end in
  match ds ++ fs with
  | [] => None
  | all =>
      match scan_exponent letter s2 with
      | None => None
      | Some (x, rest) =>
          let n := dval base all in
          let d := base ^ zlength fs in
          Some (if x <? 0 then round f neg n (d * ebase ^ (- x)) else round f neg (n * ebase ^ x) d, rest)
      end
  end.

(** %f: the number and the rest, none when the text is no number. *)
Definition scan_float (f : format) (s : cstr) : option (number * cstr) :=
  let '(neg, s1) := scan_sign s in
  match match_word (str "infinity") s1, match_word (str "nan") s1 with
  | (3%nat, rest), _ | (8%nat, rest), _ => Some (Inf neg, rest)
  | (S _, _), _ => None
  | (O, _), (3%nat, rest) =>
      match rest with
      | c :: r =>
          if c =c "("%char then
            match span isalnum_ r with (_, c :: r) => if c =c ")"%char then Some (NaN, r) else None | (_, []) => None end
          else Some (NaN, rest)
      | [] => Some (NaN, rest)
      end
  | (O, _), (S _, _) => None
  | (O, _), (O, _) =>
      match s1 with
      | z :: x :: r =>
          if (z =c "0"%char) && (lower x =c "x"%char) then scan_digits f 16 2 "p"%char neg r
          else scan_digits f 10 10 "e"%char neg s1
      | _ => scan_digits f 10 10 "e"%char neg s1
      end
  end.

(** [sscanf(s, "%f%c%c", &num, &mult, &junk)]: what is converted; nothing is when the text ends
    before the number. *)
Inductive scan_fcc : Type :=
| FccEOF
| Fcc0
| Fcc1 (num : number)
| Fcc2 (num : number) (mult : ascii)
| Fcc3.
Definition sscanf_fcc (f : format) (s : cstr) : scan_fcc :=
  match skip_space s with
  | [] => FccEOF
  | s =>
      match scan_float f s with
      | None => Fcc0
      | Some (x, []) => Fcc1 x
      | Some (x, [c]) => Fcc2 x c
      | Some (x, _) => Fcc3
      end
  end.

(** ** The functions *)

Definition B_MULT : Z := 512.
Definition K_MULT : Z := 1024.
Definition M_MULT : Z := 1048576.
Definition G_MULT : Z := 1073741824.

(** The product for a suffix, with the multiplications that are made. *)
Definition times (f : format) (num : number) (mult : ascii) : option number :=
  if mult =c "b"%char then Some (fmul f num B_MULT)
  else if mult =c "k"%char then Some (fmul f num K_MULT)
  else if mult =c "K"%char then Some (fmul f (fmul f num K_MULT) 8)
  else if mult =c "m"%char then Some (fmul f num M_MULT)
  else if mult =c "M"%char then Some (fmul f (fmul f num M_MULT) 8)
  else if mult =c "g"%char then Some (fmul f num G_MULT)
  else if mult =c "G"%char then Some (fmul f (fmul f num G_MULT) 8)
  else None.

(** The text of all three: the type of [num] and the greatest value of the type of the
    result.  For a text without a number the switch reads [mult], which was never set. *)
Definition by_prefix (f : format) (lim : Z) (s : cstr) : res Z :=
  match sscanf_fcc f s with
  | FccEOF => Undef
  | Fcc0 | Fcc3 => Ret (-1)
  | Fcc1 num => result ← to_integer lim num; Ret (if result <? 0 then -1 else result)
  | Fcc2 num mult =>
      match times f num mult with
      | None => Ret (-1)
      | Some x => result ← to_integer lim x; Ret (if result <? 0 then -1 else result)
      end
  end.

Definition bytes_by_prefix (s : cstr) : res Z := by_prefix float_t INT_MAX s.
Definition lbytes_by_prefix (s : cstr) : res Z := by_prefix float_t LONG_MAX s.
Definition llbytes_by_prefix (s : cstr) : res Z := by_prefix double_t LONG_MAX s.

(** ** Exact numbers *)

(** A format whose range holds all that is computed here. *)
Definition wide (f : format) : Prop := 0 < prec f ∧ emin f ≤ 0 ∧ prec f + 40 < emax f.

(** [x] is exactly u * 2^j. *)
Definition exactly (f : format) (x : number) (u j : Z) : Prop :=
  ∃ e, x = Fin (u * 2 ^ (j - e)) e ∧ e ≤ j ∧ 0 ≤ u < 2 ^ prec f ∧ 0 ≤ j.

Lemma nearest_exact q d : 0 < d → nearest (q * d) d = q.
Proof. intros. unfold nearest. rewrite Z.div_mul, Z.mod_mul by lia. simpl. by destruct d. Qed.

Lemma exponent_exact u k s : 0 < u → 0 ≤ k → 0 ≤ s → exponent (u * 2 ^ (k + s)) (2 ^ s) = Z.log2 u + k.
Proof.
  intros Hu Hk Hs. unfold exponent. rewrite Z.log2_mul_pow2, Z.log2_pow2 by lia.
  pose proof (Z.log2_nonneg u). pose proof (Z.log2_spec u Hu) as [Hl _].
  replace (k + s + Z.log2 u - s) with (Z.log2 u + k) by lia. unfold scale. rewrite (proj2 (Z.ltb_ge _ 0)) by lia.
  rewrite (proj2 (Z.ltb_ge _ _)); [done|]. rewrite <-Z.pow_add_r by lia.
  replace (s + (Z.log2 u + k)) with (Z.log2 u + (k + s)) by lia. rewrite Z.pow_add_r by lia. apply Z.mul_le_mono_nonneg_r; lia.
Qed.

Lemma round_exact f neg u k s : wide f → 0 < u < 2 ^ prec f → 0 ≤ k ≤ 40 → 0 ≤ s →
  ∃ e, e ≤ k ∧ round f neg (u * 2 ^ (k + s)) (2 ^ s) = Fin (if neg then - (u * 2 ^ (k - e)) else u * 2 ^ (k - e)) e.
Proof.
  intros (Hp & He & Hx) Hu Hk Hs. assert (Hl : Z.log2 u < prec f) by (apply Z.log2_lt_pow2; lia).
  pose proof (Z.log2_nonneg u). pose proof (Z.pow_pos_nonneg 2 (k + s)). unfold round.
  rewrite (proj2 (Z.eqb_neq _ _)) by nia. rewrite exponent_exact by lia.
  set (e := Z.max (Z.log2 u + k - prec f + 1) (emin f)). exists e. split; [lia|].
  assert (Hn : (let '(a, b) := scale (u * 2 ^ (k + s)) (2 ^ s) e in nearest a b) = u * 2 ^ (k - e)).
  { unfold scale. destruct (Z.ltb_spec e 0).
    - rewrite <-(nearest_exact (u * 2 ^ (k - e)) (2 ^ s)) by (apply Z.pow_pos_nonneg; lia). f_equal.
      rewrite <-!Z.mul_assoc, <-!Z.pow_add_r by lia. f_equal. f_equal. lia.
    - rewrite <-(nearest_exact (u * 2 ^ (k - e)) (2 ^ s * 2 ^ e)) by (rewrite <-Z.pow_add_r by lia; apply Z.pow_pos_nonneg; lia). f_equal.
      rewrite <-!Z.mul_assoc, <-!Z.pow_add_r by lia. f_equal. f_equal. lia. }
  destruct (scale _ _ e) as [a b]. rewrite Hn.
  rewrite (proj2 (Z.ltb_ge _ _)) by lia. rewrite (proj2 (Z.eqb_neq e _)) by lia. done.
Qed.

Lemma round_exactly f u : wide f → 0 ≤ u < 2 ^ prec f → exactly f (round f false u 1) u 0.
Proof.
  intros Hw Hu. destruct (decide (u = 0)) as [->|]; [exists 0; split_and!; try lia; done|].
  destruct (round_exact f false u 0 0) as (e & He & Hr); [done|lia..|]. change (2 ^ (0 + 0)) with 1 in Hr. change (2 ^ 0) with 1 in Hr.
  rewrite Z.mul_1_r in Hr. exists e. rewrite Hr. split_and!; [done|lia..].
Qed.

Lemma fmul_exactly f x u j i : wide f → exactly f x u j → 0 ≤ i → j + i ≤ 40 → exactly f (fmul f x (2 ^ i)) u (j + i).
Proof.
  intros Hw (e & -> & He & Hu & Hj) Hi Hji. unfold fmul. pose proof (Z.pow_pos_nonneg 2 (j - e)).
  rewrite Z.abs_eq, (proj2 (Z.ltb_ge _ 0)) by nia. destruct (decide (u = 0)) as [->|].
  { exists 0. unfold scale. case_if; split_and!; rewrite ?Z.mul_0_l; try lia; done. }
  assert (Hs : ∃ s, 0 ≤ s ∧ scale (u * 2 ^ (j - e) * 2 ^ i) 1 (- e) = (u * 2 ^ (j + i + s), 2 ^ s)).
  { unfold scale. destruct (Z.ltb_spec (- e) 0).
    - exists 0. split; [lia|]. f_equal. rewrite <-!Z.mul_assoc, <-!Z.pow_add_r by lia. f_equal. f_equal. lia.
    - exists (- e). split; [lia|]. rewrite Z.mul_1_l. f_equal. rewrite <-!Z.mul_assoc, <-!Z.pow_add_r by lia. f_equal. f_equal. lia. }
  destruct Hs as (s & Hs & ->). destruct (round_exact f false u (j + i) s) as (e' & He' & ->); [done|lia..|].
  exists e'. split_and!; [done|lia..].
Qed.

Lemma to_integer_exactly f lim x u j : exactly f x u j → 0 ≤ lim →
  to_integer lim x = if u * 2 ^ j <=? lim then Ret (u * 2 ^ j) else Undef.
Proof.
  intros (e & -> & He & Hu & Hj) Hlim. unfold to_integer. pose proof (Z.pow_pos_nonneg 2 (j - e)). pose proof (Z.pow_pos_nonneg 2 j).
  assert (Hv : Z.sgn (u * 2 ^ (j - e)) * (if e <? 0 then Z.abs (u * 2 ^ (j - e)) / 2 ^ (- e) else Z.abs (u * 2 ^ (j - e)) * 2 ^ e) = u * 2 ^ j).
  { rewrite Z.abs_eq by nia. destruct (decide (u = 0)) as [->|]; [by rewrite !Z.mul_0_l|].
    rewrite Z.sgn_pos, Z.mul_1_l by nia. destruct (Z.ltb_spec e 0).
    - replace (j - e) with (j + - e) by lia. rewrite Z.pow_add_r, Z.mul_assoc by lia. apply Z.div_mul. apply Z.pow_nonzero; lia.
    - rewrite <-Z.mul_assoc, <-Z.pow_add_r by lia. f_equal. f_equal. lia. }
  rewrite Hv, (proj2 (Z.leb_le (- lim - 1) _)) by nia. done.
Qed.

(** ** Numbers with a suffix *)

(** Each suffix and the power of two that it stands for. *)
Definition suffixes : list (cstr * Z) :=
  [([], 0); (str "b", 9); (str "k", 10); (str "K", 13); (str "m", 20); (str "M", 23); (str "g", 30); (str "G", 33)].

Lemma scan_digits_text f n rest : 0 ≤ n →
  match rest with [] => True | c :: _ => is_base 10 c = false ∧ (c =c "."%char) = false ∧ (lower c =c "e"%char) = false end →
  scan_digits f 10 10 "e"%char false (digits 10 n ++ rest) = Some (round f false n 1, rest).
Proof.
  intros Hn Hr. destruct (digits_spec 10 n ltac:(lia) Hn) as (Hne & Hd & Hv). unfold scan_digits.
  rewrite span_app; [|done|by destruct rest; naive_solver].
  replace (match rest with [] => _ | c :: r => _ end) with ([] : cstr, rest) by (destruct rest as [|c r]; [done|by rewrite (proj1 (proj2 Hr))]).
  rewrite app_nil_r. destruct (digits 10 n) as [|d ds] eqn:E; [done|].
  replace (scan_exponent "e"%char rest) with (Some (0, rest)).
  2: { destruct rest as [|c r]; [done|]. unfold scan_exponent. by rewrite (proj2 (proj2 Hr)). }
  rewrite Hv. simpl. by rewrite Z.mul_1_r.
Qed.

(** A character that starts no word. *)
Lemma digit_plain c : is_base 10 c = true →
  isspace c = false ∧ (c =c "-"%char) = false ∧ (c =c "+"%char) = false ∧ (lower c =c "i"%char) = false ∧
  (lower c =c "n"%char) = false ∧ (lower c =c "x"%char) = false.
Proof. by destruct c as [[] [] [] [] [] [] [] []]. Qed.

Lemma sscanf_digits f n rest : 0 ≤ n →
  match rest with
  | [] => True
  | c :: _ => is_base 10 c = false ∧ (c =c "."%char) = false ∧ (lower c =c "e"%char) = false ∧ (lower c =c "x"%char) = false
  end →
  sscanf_fcc f (digits 10 n ++ rest) =
  match rest with [] => Fcc1 (round f false n 1) | [c] => Fcc2 (round f false n 1) c | _ => Fcc3 end.
Proof.
  intros Hn Hr. destruct (digits_spec 10 n ltac:(lia) Hn) as (Hne & Hd & Hv).
  pose proof (scan_digits_text f n rest Hn ltac:(destruct rest; naive_solver)) as Hs.
  destruct (digits 10 n) as [|d ds] eqn:E; [done|]. apply Forall_cons in Hd as [Hd1 Hds].
  destruct (digit_plain d Hd1) as (P1 & P2 & P3 & P4 & P5 & P6).
  assert (Hf : scan_float f ((d :: ds) ++ rest) = Some (round f false n 1, rest)).
  { assert (Hz : (λ s1, match s1 with
        | z :: x :: r => if (z =c "0"%char) && (lower x =c "x"%char) then scan_digits f 16 2 "p"%char false r else scan_digits f 10 10 "e"%char false s1
        | _ => scan_digits f 10 10 "e"%char false s1 end) ((d :: ds) ++ rest) = Some (round f false n 1, rest)).
    { cbn [app] in Hs |- *. destruct (ds ++ rest) as [|x r] eqn:Ex; [exact Hs|].
      replace (lower x =c "x"%char) with false; [by rewrite andb_false_r|]. symmetry.
      destruct ds as [|y ds]; simpl in Ex; [by subst rest; naive_solver|]. injection Ex as <- _.
      apply Forall_cons in Hds as [Hx _]. by apply digit_plain. }
    unfold scan_float, scan_sign. cbn [app] in *. rewrite P2, P3. cbn [orb].
    change (str "infinity") with ("i"%char :: str "nfinity"). change (str "nan") with ("n"%char :: str "an").
    cbn [match_word]. rewrite P4, P5. exact Hz. }
  unfold sscanf_fcc, skip_space. cbn [app span]. rewrite P1. cbn [snd]. change (d :: ds ++ rest) with ((d :: ds) ++ rest).
  rewrite Hf. by destruct rest as [|c [|? ?]].
Qed.

Lemma by_prefix_digits f lim n suf j : wide f → 0 ≤ lim → (suf, j) ∈ suffixes → 0 ≤ n < 2 ^ prec f →
  by_prefix f lim (digits 10 n ++ suf) = if n * 2 ^ j <=? lim then Ret (n * 2 ^ j) else Undef.
Proof.
  intros Hw Hlim Hsuf Hn. pose proof (round_exactly f n Hw Hn) as Hx. unfold by_prefix.
  assert (Hfin : ∀ x, exactly f x n j → (result ← to_integer lim x; Ret (if result <? 0 then -1 else result)) =
    if n * 2 ^ j <=? lim then Ret (n * 2 ^ j) else Undef).
  { intros x Hex. rewrite (to_integer_exactly f lim x n j Hex Hlim). case_if; [|done]. rewrite res_bind_ret.
    destruct Hex as (? & _ & _ & ? & ?). pose proof (Z.pow_pos_nonneg 2 j). by rewrite (proj2 (Z.ltb_ge _ _)) by nia. }
  rewrite sscanf_digits by (lia || (unfold suffixes in Hsuf; set_unfold; naive_solver)).
  assert (Hmul : ∀ i, 0 ≤ i ≤ 30 → exactly f (fmul f (round f false n 1) (2 ^ i)) n i).
  { intros i Hi. apply (fmul_exactly f _ n 0 i); [done|exact Hx|lia..]. }
  assert (Hmul8 : ∀ i, 0 ≤ i ≤ 30 → exactly f (fmul f (fmul f (round f false n 1) (2 ^ i)) 8) n (i + 3)).
  { intros i Hi. apply (fmul_exactly f _ n i 3); [done|by apply Hmul|lia..]. }
  unfold suffixes in Hsuf. set_unfold. destruct_or!; simplify_eq; apply Hfin.
  - exact Hx.
  - by apply (Hmul 9).
  - by apply (Hmul 10).
  - by apply (Hmul8 10).
  - by apply (Hmul 20).
  - by apply (Hmul8 20).
  - by apply (Hmul 30).
  - by apply (Hmul8 30).
Qed.

(** C40: For a whole number below 2^24 with one of the suffixes, or none, the result is exactly the
    number of bytes when the type of the result holds it, and undefined when it does not; with
    a double this is so below 2^53. *)
Theorem bytes_by_prefix_exact n suf j : (suf, j) ∈ suffixes → 0 ≤ n < 2 ^ 53 →
  (n < 2 ^ 24 → bytes_by_prefix (digits 10 n ++ suf) = (if n * 2 ^ j <=? INT_MAX then Ret (n * 2 ^ j) else Undef) ∧
                lbytes_by_prefix (digits 10 n ++ suf) = Ret (n * 2 ^ j)) ∧
  llbytes_by_prefix (digits 10 n ++ suf) = (if n * 2 ^ j <=? LONG_MAX then Ret (n * 2 ^ j) else Undef).
Proof.
  intros Hsuf Hn. assert (wide float_t ∧ wide double_t) as [Hf Hd] by (unfold wide; simpl; lia).
  split; [|by apply (by_prefix_digits double_t)]. intros Hn'.
  split; [apply (by_prefix_digits float_t); [done..|simpl; lia]|]. unfold lbytes_by_prefix.
  rewrite (by_prefix_digits float_t LONG_MAX n suf j) by (done || simpl; lia).
  rewrite (proj2 (Z.leb_le _ _)); [done|]. assert (0 ≤ 2 ^ j ≤ 2 ^ 33); [|unfold LONG_MAX; nia].
  unfold suffixes in Hsuf. set_unfold. destruct_or!; simplify_eq; done.
Qed.

Lemma bytes_by_prefix_exact_witness : bytes_by_prefix (digits 10 12 ++ str "k") = Ret 12288 ∧
  bytes_by_prefix (digits 10 2 ++ str "g") = Undef.
Proof.
  split; [apply (bytes_by_prefix_exact 12 (str "k") 10)|apply (bytes_by_prefix_exact 2 (str "g") 30)]; (lia || (unfold suffixes; set_solver)).
Defined.

(** A float does not hold every int: the result for a number from 2^24 on may be another one. *)
Example odd_number_rounded : bytes_by_prefix (str "16777217") = Ret 16777216.
Proof. vm_compute. reflexivity. Qed.

(** Without a number the multiplier is read before it was set. *)
Example empty_text_undefined : bytes_by_prefix [] = Undef ∧ bytes_by_prefix (str " ") = Undef.
Proof. done. Qed.

(** What is rejected: a letter that is no suffix, more than one letter, no number, negative ones. *)
Example texts_rejected : Forall (λ s, bytes_by_prefix (str s) = Ret (-1)) ["1q"; "1kb"; "k"; "-1"; "-2k"; "1e"].
Proof. repeat constructor; vm_compute; reflexivity. Qed.
