(* ===== verification/CProg.v ===== *)
(** * Programs that make system calls

    A C program with global variables [G] on a system with states [Σ]: a function of
    both that returns a value or ends with exit(2), or has undefined behaviour.  The
    calls are an indexed family; a system is a function that answers them.  A weakest
    precondition gives the rules with which programs are verified. *)

From S2P Require Import Prelude.
Local Open Scope Z_scope.

Class System (call : Set → Type) (Σ : Type) : Type := reply : ∀ R : Set, call R → Σ → R * Σ.
Arguments reply {call Σ _ R} c k.

Inductive outcome (A : Type) : Type :=
| Val (a : A)
| Exit (status : Z).
Arguments Val {A} a.
Arguments Exit {A} status.

Definition prog (G Σ A : Type) : Type := G → Σ → res (outcome A * G * Σ).

#[global] Instance prog_ret G Σ : MRet (prog G Σ) := λ A a g k, Ret (Val a, g, k).
#[global] Instance prog_bind G Σ : MBind (prog G Σ) := λ A B f m g k,
  match m g k with
  | Ret (Val a, g, k) => f a g k
  | Ret (Exit n, g, k) => Ret (Exit n, g, k)
  | Undef => Undef
  | NoFuel => NoFuel
  end.

Section prog.
Context {call : Set → Type} {G Σ : Type} `{!System call Σ}.

Definition sys {R : Set} (c : call R) : prog G Σ R := λ g k, let '(r, k) := reply c k in Ret (Val r, g, k).
Definition exit_ {A} (status : Z) : prog G Σ A := λ g k, Ret (Exit status, g, k).
Definition lift {A} (m : res A) : prog G Σ A := λ g k,
  match m with Ret a => Ret (Val a, g, k) | Undef => Undef | NoFuel => NoFuel end.
Definition get {A} (f : G → A) : prog G Σ A := λ g k, Ret (Val (f g), g, k).
Definition modify (f : G → G) : prog G Σ () := λ g k, Ret (Val (), f g, k).
Definition when (b : bool) (m : prog G Σ ()) : prog G Σ () := if b then m else mret ().
Fixpoint each {A} (l : list A) (f : A → prog G Σ ()) : prog G Σ () :=
  match l with [] => mret () | a :: l => f a ≫= λ _, each l f end.

(** ** Weakest preconditions *)

(** [m] does not go wrong; [Q] holds when it returns, [E] when it exits. *)
Definition wp {A} (m : prog G Σ A) (Q : A → G → Σ → Prop) (E : Z → G → Σ → Prop) (g : G) (k : Σ) : Prop :=
  match m g k with
  | Ret (Val a, g, k) => Q a g k
  | Ret (Exit n, g, k) => E n g k
  | _ => False
  end.

Lemma pwp_bind {A B} (m : prog G Σ A) (f : A → prog G Σ B) Q E g k :
  wp m (λ a, wp (f a) Q E) E g k → wp (m ≫= f) Q E g k.
Proof. unfold wp, mbind, prog_bind. by destruct (m g k) as [[[[] ?] ?]| |]. Qed.

Lemma pwp_mono {A} (m : prog G Σ A) (Q Q' : A → G → Σ → Prop) (E E' : Z → G → Σ → Prop) g k :
  wp m Q E g k → (∀ a g k, Q a g k → Q' a g k) → (∀ n g k, E n g k → E' n g k) → wp m Q' E' g k.
Proof. unfold wp. destruct (m g k) as [[[[] ?] ?]| |]; naive_solver. Qed.

Lemma pwp_ret {A} (a : A) (Q : A → G → Σ → Prop) E g k : Q a g k → wp (mret a) Q E g k.
Proof. done. Qed.

Lemma pwp_sys {R : Set} (c : call R) (Q : R → G → Σ → Prop) E g k : Q (reply c k).1 g (reply c k).2 → wp (sys c) Q E g k.
Proof. unfold wp, sys. by destruct (reply c k). Qed.

Lemma pwp_lift {A} (m : res A) (a : A) (Q : A → G → Σ → Prop) E g k : m = Ret a → Q a g k → wp (lift m) Q E g k.
Proof. intros ->. done. Qed.

Lemma pwp_get {A} (f : G → A) (Q : A → G → Σ → Prop) E g k : Q (f g) g k → wp (get f) Q E g k.
Proof. done. Qed.

Lemma pwp_modify (f : G → G) (Q : () → G → Σ → Prop) E g k : Q () (f g) k → wp (modify f) Q E g k.
Proof. done. Qed.

Lemma pwp_exit {A} n (Q : A → G → Σ → Prop) (E : Z → G → Σ → Prop) g k : E n g k → wp (exit_ n) Q E g k.
Proof. done. Qed.

(** A loop that keeps an invariant. *)
Lemma pwp_each {A} (l : list A) (f : A → prog G Σ ()) (I : G → Σ → Prop) Q E g k : I g k →
  (∀ a g k, a ∈ l → I g k → wp (f a) (λ _, I) E g k) → (∀ g k, I g k → Q () g k) → wp (each l f) Q E g k.
Proof.
  intros HI Hf HQ. revert g k HI. induction l as [|a l IH]; intros g k HI; cbn [each]; [by apply pwp_ret, HQ|].
  apply pwp_bind. eapply pwp_mono; [apply (Hf a); [by left|done]| |done]. intros u g' k' HI'. apply IH; [|done].
  intros b g2 k2 Hb. apply Hf. by right.
Qed.

(** ** Runs, backwards *)

Lemma prog_bind_val {A B} (m : prog G Σ A) (f : A → prog G Σ B) g k b g' k' :
  (m ≫= f) g k = Ret (Val b, g', k') → ∃ a g1 k1, m g k = Ret (Val a, g1, k1) ∧ f a g1 k1 = Ret (Val b, g', k').
Proof. unfold mbind, prog_bind. destruct (m g k) as [[[[] ?] ?]| |]; naive_solver. Qed.

Lemma sys_val {R : Set} (c : call R) g k r g' k' : sys c g k = Ret (Val r, g', k') → reply c k = (r, k') ∧ g' = g.
Proof. unfold sys. destruct (reply c k). naive_solver. Qed.

Lemma lift_val {A} (m : res A) (g : G) (k : Σ) a g' k' : lift m g k = Ret (Val a, g', k') → m = Ret a ∧ g' = g ∧ k' = k.
Proof. unfold lift. destruct m; naive_solver. Qed.
End prog.

(** The steps that need no thought. *)
Ltac wp_step :=
  lazymatch goal with
  | |- wp (mbind _ _) _ _ _ _ => apply pwp_bind
  | |- wp (mret _) _ _ _ _ => apply pwp_ret
  | |- wp (sys _) _ _ _ _ => apply pwp_sys
  | |- wp (get _) _ _ _ _ => apply pwp_get
  | |- wp (modify _) _ _ _ _ => apply pwp_modify
  | |- wp (exit_ _) _ _ _ _ => apply pwp_exit
  end.
