(* ===== verification/IoReq.v ===== *)
(** * Requests between iogen and doio: testcases/kernel/fs/doio/doio.h

    A request is the memory of a [struct io_req] as it goes through the pipe: 184 bytes,
    with integers of four bytes, least significant first, and the members of the union
    at the same place.  A member is read and written at its offset. *)

From S2P Require Import Prelude CInt CMem CString.
Local Open Scope Z_scope.

Definition READ : Z := 1.
Definition WRITE : Z := 2.
Definition READA : Z := 3.
Definition WRITEA : Z := 4.
Definition SSREAD : Z := 5.
Definition SSWRITE : Z := 6.
Definition LISTIO : Z := 7.
Definition LREAD : Z := 10.
Definition LREADA : Z := 11.
Definition LWRITE : Z := 12.
Definition LWRITEA : Z := 13.
Definition LSREAD : Z := 14.
Definition LSREADA : Z := 15.
Definition LSWRITE : Z := 16.
Definition LSWRITEA : Z := 17.
Definition LEREAD : Z := 18.
Definition LEREADA : Z := 19.
Definition LEWRITE : Z := 20.
Definition LEWRITEA : Z := 21.
Definition PREAD : Z := 100.
Definition PWRITE : Z := 101.
Definition READV : Z := 102.
Definition WRITEV : Z := 103.
Definition AREAD : Z := 104.
Definition AWRITE : Z := 105.
Definition MMAPR : Z := 120.
Definition MMAPW : Z := 121.
Definition RESVSP : Z := 122.
Definition UNRESVSP : Z := 123.
Definition DFFSYNC : Z := 124.
Definition FSYNC2 : Z := 125.
Definition FDATASYNC : Z := 126.

Definition DOIO_MAGIC : Z := 1875329.
Definition F_WORD_ALIGNED : Z := 1.
Definition E_NORMAL : Z := 0.
Definition E_USAGE : Z := 1.
Definition E_SETUP : Z := 2.
Definition E_COMPARE : Z := 4.
Definition E_INTERNAL : Z := 8.
Definition E_SIGNAL : Z := 32.
Definition MAX_FNAME_LENGTH : Z := 128.

(** ** The layout *)

(** [sizeof(struct io_req)] *)
Definition sizeof_io_req : Z := 184.
Definition r_type : Z := 0.
Definition r_magic : Z := 4.
(** The name of the file, in all of the members. *)
Definition r_file : Z := 8.

Module read_req.
Definition r_oflags : Z := 136.
Definition r_offset : Z := 140.
Definition r_nbytes : Z := 144.
Definition r_uflags : Z := 148.
Definition r_aio_strat : Z := 152.
Definition r_nstrides : Z := 156.
Definition r_nent : Z := 160.
End read_req.

Module write_req.
Definition r_oflags : Z := 136.
Definition r_offset : Z := 140.
Definition r_nbytes : Z := 144.
Definition r_pattern : Z := 148.
Definition r_uflags : Z := 152.
Definition r_aio_strat : Z := 156.
Definition r_nstrides : Z := 160.
Definition r_nent : Z := 164.
End write_req.

(** [struct rw_req] *)
Module listio_req.
Definition r_cmd : Z := 136.
Definition r_offset : Z := 140.
Definition r_opcode : Z := 144.
Definition r_nbytes : Z := 148.
Definition r_nstrides : Z := 152.
Definition r_nent : Z := 156.
Definition r_filestride : Z := 160.
Definition r_memstride : Z := 164.
Definition r_pattern : Z := 168.
Definition r_oflags : Z := 172.
Definition r_aio_strat : Z := 176.
Definition r_uflags : Z := 180.
End listio_req.

(** ** Members *)

Definition int_bytes (v : Z) : cstr :=
  let w := u32 v in [chr (w mod 256); chr (w / 256 mod 256); chr (w / 65536 mod 256); chr (w / 16777216)].
Definition bytes_int (b : cstr) : Z :=
  match b with [b0; b1; b2; b3] => s32 (code b0 + 256 * code b1 + 65536 * code b2 + 16777216 * code b3) | _ => 0 end.

Definition get_int (req : cstr) (off : Z) : Z := bytes_int (slice req off 4).
Definition put_int (off v : Z) (req : cstr) : cstr := store req off (int_bytes v).
Definition get_char (req : cstr) (off : Z) : ascii := default NUL (req !! Z.to_nat off).
Definition put_char (off : Z) (c : ascii) (req : cstr) : cstr := store req off [c].

(** [strcpy] to the array for the name; the string in it must end inside of the request. *)
Definition put_file (s : cstr) (req : cstr) : res cstr :=
  if zlength s <? MAX_FNAME_LENGTH then Ret (store req r_file (s ++ [NUL])) else Undef.
Definition get_file (req : cstr) : res cstr :=
  let t := drop (Z.to_nat r_file) req in if mem NUL t then Ret (as_string t) else Undef.

(** ** Facts *)

Lemma chr_code c : chr (code c) = c.
Proof. by destruct c as [[] [] [] [] [] [] [] []]. Qed.

Lemma code_chr z : 0 ≤ z < 256 → code (chr z) = z.
Proof. intros. unfold code, chr. rewrite N_ascii_embedding by lia. lia. Qed.

Lemma int_bytes_length v : length (int_bytes v) = 4%nat.
Proof. done. Qed.

Lemma bytes_int_bytes v : in_s 32 v → bytes_int (int_bytes v) = v.
Proof.
  intros Hv. unfold int_bytes, bytes_int. pose proof (u32_range v) as Hw.
  rewrite !code_chr by (zlia). transitivity (s32 (u32 v)); [f_equal; zlia|].
  unfold s32, u32, wrap_u, wrap_s, in_s in *. simpl in *. zlia.
Qed.

(** The request has its size. *)
Definition sized (req : cstr) : Prop := length req = Z.to_nat sizeof_io_req.

Section members.
Implicit Types req : cstr.
Implicit Types off : Z.

Lemma put_int_sized off v req : sized req → 0 ≤ off → off + 4 ≤ sizeof_io_req → sized (put_int off v req).
Proof. unfold sized, put_int, sizeof_io_req. intros Hs ? ?. rewrite store_length; rewrite ?int_bytes_length, ?Hs; simpl; lia. Qed.

Lemma put_char_sized off c req : sized req → 0 ≤ off → off + 1 ≤ sizeof_io_req → sized (put_char off c req).
Proof. unfold sized, put_char, sizeof_io_req. intros Hs ? ?. rewrite store_length; rewrite ?Hs; simpl; lia. Qed.

Lemma get_put_int off off' v req : sized req → 0 ≤ off → off + 4 ≤ sizeof_io_req → 0 ≤ off' →
  off = off' ∨ off' + 4 ≤ off ∨ off + 4 ≤ off' →
  get_int (put_int off v req) off' = if off =? off' then s32 v else get_int req off'.
Proof.
  unfold sized, get_int, put_int, sizeof_io_req. intros Hs Ho He Ho' Hd. destruct (Z.eqb_spec off off') as [<-|Hne].
  - change 4 with (zlength (int_bytes v)) at 1.
    rewrite slice_store_same by (rewrite ?int_bytes_length, ?Hs; simpl; lia).
    rewrite <-(bytes_int_bytes (s32 v)); [|apply wrap_s_range; lia]. f_equal. unfold int_bytes.
    replace (u32 (s32 v)) with (u32 v); [done|]. symmetry. apply wrap_s_mod. lia.
  - rewrite slice_store_other; rewrite ?int_bytes_length, ?Hs; simpl; try done; lia.
Qed.

Lemma get_put_int_char off off' c req : sized req → 0 ≤ off → off + 1 ≤ sizeof_io_req → 0 ≤ off' →
  off' + 4 ≤ off ∨ off + 1 ≤ off' → get_int (put_char off c req) off' = get_int req off'.
Proof. unfold sized, get_int, put_char, sizeof_io_req. intros Hs ? ? ? ?. rewrite slice_store_other; rewrite ?Hs; simpl; try done; lia. Qed.

Lemma get_put_char_int off off' v req : sized req → 0 ≤ off → off + 4 ≤ sizeof_io_req → 0 ≤ off' →
  off' + 1 ≤ off ∨ off + 4 ≤ off' → get_char (put_int off v req) off' = get_char req off'.
Proof.
  unfold sized, get_char, put_int, sizeof_io_req. intros Hs ? ? ? ?. rewrite store_lookup; rewrite ?int_bytes_length, ?Hs; simpl; try lia.
  rewrite decide_False by lia. done.
Qed.

Lemma get_put_char off c req : sized req → 0 ≤ off → off + 1 ≤ sizeof_io_req → get_char (put_char off c req) off = c.
Proof.
  unfold sized, get_char, put_char, sizeof_io_req. intros Hs ? ?. rewrite store_lookup; rewrite ?Hs; simpl; try lia.
  rewrite decide_True by lia. by rewrite Nat.sub_diag.
Qed.
End members.

(** The name in a request. *)
Definition names (req s : cstr) : Prop :=
  nonul s ∧ zlength s < MAX_FNAME_LENGTH ∧ slice req r_file (zlength s + 1) = s ++ [NUL].

Lemma names_get req s : names req s → get_file req = Ret s.
Proof.
  intros (Hn & Hl & Hs). unfold get_file. set (t := drop (Z.to_nat r_file) req).
  assert (Ht : t = s ++ NUL :: drop (Z.to_nat (zlength s + 1)) t).
  { transitivity ((s ++ [NUL]) ++ drop (Z.to_nat (zlength s + 1)) t); [|by rewrite <-app_assoc].
    rewrite <-Hs. unfold slice. fold t. by rewrite take_drop. }
  rewrite Ht. unfold mem. rewrite existsb_app. simpl. rewrite orb_true_r. f_equal.
  unfold as_string. rewrite span_app; [done| |done]. eapply Forall_impl; [apply Hn|]. simpl. by intros x ->.
Qed.

Lemma names_store req s off d : sized req → names req s → 0 ≤ off → off + zlength d ≤ sizeof_io_req →
  off + zlength d ≤ r_file ∨ r_file + MAX_FNAME_LENGTH ≤ off → names (store req off d) s.
Proof.
  unfold sized, names, sizeof_io_req, MAX_FNAME_LENGTH, r_file. intros Hs (Hn & Hl & Hf) ? ? ?. split_and!; [done..|].
  rewrite slice_store_other; rewrite ?Hs; simpl; try done; lia.
Qed.

Lemma names_put_int req s off v : sized req → names req s → 0 ≤ off → off + 4 ≤ sizeof_io_req →
  off + 4 ≤ r_file ∨ r_file + MAX_FNAME_LENGTH ≤ off → names (put_int off v req) s.
Proof. intros. by apply names_store. Qed.

Lemma names_put_char req s off c : sized req → names req s → r_file + MAX_FNAME_LENGTH ≤ off → off + 1 ≤ sizeof_io_req →
  names (put_char off c req) s.
Proof. intros ? ? H ?. apply names_store; try done; [unfold r_file, MAX_FNAME_LENGTH in H; lia|by right]. Qed.

Lemma put_file_ok req s : sized req → nonul s → zlength s < MAX_FNAME_LENGTH →
  ∃ req', put_file s req = Ret req' ∧ sized req' ∧ names req' s ∧ ∀ off, 0 ≤ off → off + 4 ≤ r_file → get_int req' off = get_int req off.
Proof.
  unfold put_file, MAX_FNAME_LENGTH. intros Hs Hn Hl. rewrite (proj2 (Z.ltb_lt _ _)) by done. eexists. split; [done|].
  unfold sized, sizeof_io_req, r_file in *.
  assert (Hb : 8 + zlength (s ++ [NUL]) ≤ zlength req) by (rewrite Hs, length_app; simpl; lia).
  split_and!.
  - by rewrite store_length by lia.
  - split_and!; [done..|]. replace (zlength s + 1) with (zlength (s ++ [NUL])) by (rewrite length_app; simpl; lia).
    by rewrite slice_store_same by (done || lia).
  - intros off ? ?. unfold get_int. by rewrite slice_store_other by lia.
Qed.

(** ** Requests that doio can carry out *)

Definition req_type (req : cstr) : Z := get_int req r_type.
(** Requests with the record for read(2) or write(2); all others have a [struct rw_req]. *)
Definition is_rw (t : Z) : bool := bool_decide (t ∈ [READ; READA; WRITE; WRITEA]).
(** In all of the members. *)
Definition req_offset (req : cstr) : Z := get_int req listio_req.r_offset.
Definition req_nbytes (req : cstr) : Z := get_int req (if is_rw (req_type req) then read_req.r_nbytes else listio_req.r_nbytes).
Definition req_oflags (req : cstr) : Z := get_int req (if is_rw (req_type req) then read_req.r_oflags else listio_req.r_oflags).
Definition req_pattern (req : cstr) : ascii := get_char req (if is_rw (req_type req) then write_req.r_pattern else listio_req.r_pattern).

(** The types for Linux, with the access mode that each of them asks for. *)
Definition access_modes : list (Z * Z) :=
  [(READ, 0); (WRITE, 1); (READV, 0); (WRITEV, 1); (MMAPR, 0); (MMAPW, 2); (FSYNC2, 1); (FDATASYNC, 1)].

(** A request for a transfer inside of a file of that length, buffered or with O_SYNC. *)
Record request_ok (path : cstr) (flen : Z) (req : cstr) : Prop := {
  ro_sized : sized req;
  ro_magic : get_int req r_magic = DOIO_MAGIC;
  ro_names : names req path;
  ro_access : ∃ acc, (req_type req, acc) ∈ access_modes ∧ (req_oflags req = acc ∨ req_oflags req = Z.lor acc 1052672);
  ro_place : 0 ≤ req_offset req ∧ 0 ≤ req_nbytes req ∧ req_offset req + req_nbytes req ≤ flen;
  ro_single : is_rw (req_type req) = false → get_int req listio_req.r_nstrides = 1 ∧ get_int req listio_req.r_nent = 1 }.

(** ** Reading members of a request that was filled in *)

Lemma get_put_int_same off v req : sized req → 0 ≤ off → off + 4 ≤ sizeof_io_req → in_s 32 v → get_int (put_int off v req) off = v.
Proof. intros. rewrite get_put_int, Z.eqb_refl by (done || by left). by apply wrap_s_id. Qed.

Lemma get_put_int_other off off' v req : sized req → 0 ≤ off → off + 4 ≤ sizeof_io_req → 0 ≤ off' →
  off' + 4 ≤ off ∨ off + 4 ≤ off' → get_int (put_int off v req) off' = get_int req off'.
Proof. intros. rewrite get_put_int by (assumption || lia). by rewrite (proj2 (Z.eqb_neq _ _)) by lia. Qed.

(** Constants of the layout, for [lia]. *)
Ltac layout :=
  unfold req_type, req_offset, read_req.r_oflags, read_req.r_offset, read_req.r_nbytes, read_req.r_uflags, read_req.r_aio_strat,
    read_req.r_nstrides, read_req.r_nent, write_req.r_oflags, write_req.r_offset, write_req.r_nbytes, write_req.r_pattern,
    write_req.r_uflags, write_req.r_aio_strat, write_req.r_nstrides, write_req.r_nent, listio_req.r_offset, listio_req.r_nbytes,
    listio_req.r_nstrides, listio_req.r_nent, listio_req.r_pattern, listio_req.r_oflags, listio_req.r_aio_strat,
    listio_req.r_uflags, sizeof_io_req, r_type, r_magic, r_file, MAX_FNAME_LENGTH in *.

Ltac sized :=
  lazymatch goal with
  | |- IoReq.sized (put_int _ _ _) => apply put_int_sized; [sized|layout; lia..]
  | |- IoReq.sized (put_char _ _ _) => apply put_char_sized; [sized|layout; lia..]
  | |- _ => assumption
  end.

(** The value of a member, and the name. *)
Ltac members :=
  repeat first
    [ rewrite get_put_int_same by (first [sized|assumption|layout; lia|done])
    | rewrite get_put_int_other by (first [sized|layout; lia])
    | rewrite get_put_int_char by (first [sized|layout; lia])
    | rewrite get_put_char_int by (first [sized|layout; lia])
    | rewrite get_put_char by (first [sized|layout; lia]) ].
Ltac named :=
  lazymatch goal with
  | |- names (put_int _ _ _) _ => apply names_put_int; [sized|named|layout; lia..]
  | |- names (put_char _ _ _) _ => apply names_put_char; [sized|named|layout; lia..]
  | |- _ => assumption
  end.
