(* ===== verification/Iogen.v ===== *)
(** * The generator of I/O requests: testcases/kernel/fs/doio/iogen.c

    The program for Linux (the code for other systems is not compiled there).  Options
    are the results of [getopt] and the arguments behind them; the system is arbitrary.
    What is printed is kept as the kind of the message; startup_info, help and usage
    only print. *)

From S2P Require Import Prelude CInt CMem CString Splitstr RandomRange OpenFlags BytesPrefix CProg IoReq.
Local Open Scope Z_scope.

Definition BSIZE : Z := 512.
Definition S_IFMT : Z := 61440.
Definition S_IFREG : Z := 32768.
Definition S_IFIFO : Z := 4096.
Definition ENOENT : Z := 2.

(** ** System calls *)

Inductive note : Type :=
| RandomRangeFailed (min max mult : Z)
| FormFailed
| WriteFailed
| StatFailed (path : cstr)
| NotRegular (path : cstr)
| CreateFailed (path : cstr)
| TruncateFailed (path : cstr)
| SeekFailed (path : cstr)
| ExtendFailed (path : cstr)
| FifoFailed (path : cstr)
| NameTooLong (path : cstr)
| ShortFile (path : cstr)
| NoCwd
| NoFileInfo (path : cstr)
| TooSmall (path : cstr)
| BadArgument (opt : ascii) (arg : cstr)
| NoFiles.

(** A sum is an error number or the result. *)
Inductive call : Set → Type :=
| Lrand48 : call Z
| Gettimeofday : call Z
| Stat (path : cstr) : call (Z + Z * Z)
| Open (path : cstr) (flags mode : Z) : call (Z + Z)
| Ftruncate (fd n : Z) : call (Z + unit)
| Lseek (fd off : Z) : call (Z + Z)
| Write (fd : Z) (d : cstr) : call (Z + Z)
| Fstat (fd : Z) : call (Z + Z * Z)
| Close (fd : Z) : call unit
| Access (path : cstr) : call (Z + unit)
| Getcwd (size : Z) : call (Z + cstr)
| Mkfifo (path : cstr) (mode : Z) : call (Z + unit)
| Say (m : note) : call unit.

(** ** Data *)

Record file_info : Type := FileInfo {
  f_path : cstr; f_length : Z; f_iou : Z; f_riou : Z; f_dalign : Z; f_nextoff : Z; f_type : Z; f_lastoffset : Z; f_lastlength : Z }.

(** What memset leaves. *)
Definition no_file : file_info := FileInfo [] 0 0 0 0 0 0 0 0.

Record strmap : Type := Strmap { m_string : string; m_value : Z; m_flags : Z }.

Definition Aio_Strat_Map : list strmap := [Strmap "none" 0 0].

Definition M_RANDOM : Z := 1.
Definition M_SEQUENTIAL : Z := 2.
Definition M_REVERSE : Z := 3.
Definition Omode_Map : list strmap := [Strmap "random" M_RANDOM 0; Strmap "sequential" M_SEQUENTIAL 0; Strmap "reverse" M_REVERSE 0].

Definition SY_ASYNC : Z := 1.
Definition SY_WRITE : Z := 2.
Definition SY_NENT : Z := 64.
Definition Syscall_Map : list strmap :=
  [Strmap "read" READ 0; Strmap "write" WRITE SY_WRITE; Strmap "readv" READV 0; Strmap "writev" WRITEV SY_WRITE;
   Strmap "mmread" MMAPR 0; Strmap "mmwrite" MMAPW SY_WRITE; Strmap "fsync2" FSYNC2 SY_WRITE; Strmap "fdatasync" FDATASYNC SY_WRITE].

Definition FLG_RAW : Z := 1.
Definition Flag_Map : list strmap := [Strmap "buffered" 0 0; Strmap "sync" O_SYNC 0].

Definition Byte_Patterns : cstr := str "ABCDEFGHIJKLMNOPQRSTUVWXYZ".

(** An array of entries; the entry that ends it has the value [last]. *)
Definition str_to_value (map : list strmap) (last : Z) (s : cstr) : Z :=
  match List.find (λ m, bool_decide (str (m_string m) = s)) map with Some m => m_value m | None => last end.
Definition str_lookup (map : list strmap) (s : cstr) : option strmap := List.find (λ m, bool_decide (str (m_string m) = s)) map.
Definition value_to_string (map : list strmap) (val : Z) : option string :=
  m_string <$> List.find (λ m, m_value m =? val) map.

(** ** Global variables *)

Record iogen : Type := Iogen {
  o_opt : bool; m_opt : bool; i_opt : bool; r_opt : bool; s_opt : bool; t_opt : bool; T_opt : bool; f_opt : bool; O_opt : bool; q_opt : bool;
  Offset_Mode : option strmap; Iterations : Z; Time_Mode : bool; Outpipe : option cstr; Mintrans : Z; Maxtrans : Z; Rawmult : Z; Minstrides : Z; Maxstrides : Z;
  Oflags : Z; Fileio : Z; TagName : cstr; Flag_List : list strmap; Syscall_List : list strmap; Aio_Strat_List : list strmap; File_List : list file_info }.

Definition set_o_opt (x : bool) (g : iogen) : iogen :=
  Iogen x (m_opt g) (i_opt g) (r_opt g) (s_opt g) (t_opt g) (T_opt g) (f_opt g) (O_opt g) (q_opt g) (Offset_Mode g) (Iterations g) (Time_Mode g) (Outpipe g) (Mintrans g) (Maxtrans g) (Rawmult g) (Minstrides g) (Maxstrides g) (Oflags g) (Fileio g) (TagName g) (Flag_List g) (Syscall_List g) (Aio_Strat_List g) (File_List g).
Definition set_m_opt (x : bool) (g : iogen) : iogen :=
  Iogen (o_opt g) x (i_opt g) (r_opt g) (s_opt g) (t_opt g) (T_opt g) (f_opt g) (O_opt g) (q_opt g) (Offset_Mode g) (Iterations g) (Time_Mode g) (Outpipe g) (Mintrans g) (Maxtrans g) (Rawmult g) (Minstrides g) (Maxstrides g) (Oflags g) (Fileio g) (TagName g) (Flag_List g) (Syscall_List g) (Aio_Strat_List g) (File_List g).
Definition set_i_opt (x : bool) (g : iogen) : iogen :=
  Iogen (o_opt g) (m_opt g) x (r_opt g) (s_opt g) (t_opt g) (T_opt g) (f_opt g) (O_opt g) (q_opt g) (Offset_Mode g) (Iterations g) (Time_Mode g) (Outpipe g) (Mintrans g) (Maxtrans g) (Rawmult g) (Minstrides g) (Maxstrides g) (Oflags g) (Fileio g) (TagName g) (Flag_List g) (Syscall_List g) (Aio_Strat_List g) (File_List g).
Definition set_r_opt (x : bool) (g : iogen) : iogen :=
  Iogen (o_opt g) (m_opt g) (i_opt g) x (s_opt g) (t_opt g) (T_opt g) (f_opt g) (O_opt g) (q_opt g) (Offset_Mode g) (Iterations g) (Time_Mode g) (Outpipe g) (Mintrans g) (Maxtrans g) (Rawmult g) (Minstrides g) (Maxstrides g) (Oflags g) (Fileio g) (TagName g) (Flag_List g) (Syscall_List g) (Aio_Strat_List g) (File_List g).
Definition set_s_opt (x : bool) (g : iogen) : iogen :=
  Iogen (o_opt g) (m_opt g) (i_opt g) (r_opt g) x (t_opt g) (T_opt g) (f_opt g) (O_opt g) (q_opt g) (Offset_Mode g) (Iterations g) (Time_Mode g) (Outpipe g) (Mintrans g) (Maxtrans g) (Rawmult g) (Minstrides g) (Maxstrides g) (Oflags g) (Fileio g) (TagName g) (Flag_List g) (Syscall_List g) (Aio_Strat_List g) (File_List g).
Definition set_t_opt (x : bool) (g : iogen) : iogen :=
  Iogen (o_opt g) (m_opt g) (i_opt g) (r_opt g) (s_opt g) x (T_opt g) (f_opt g) (O_opt g) (q_opt g) (Offset_Mode g) (Iterations g) (Time_Mode g) (Outpipe g) (Mintrans g) (Maxtrans g) (Rawmult g) (Minstrides g) (Maxstrides g) (Oflags g) (Fileio g) (TagName g) (Flag_List g) (Syscall_List g) (Aio_Strat_List g) (File_List g).
Definition set_T_opt (x : bool) (g : iogen) : iogen :=
  Iogen (o_opt g) (m_opt g) (i_opt g) (r_opt g) (s_opt g) (t_opt g) x (f_opt g) (O_opt g) (q_opt g) (Offset_Mode g) (Iterations g) (Time_Mode g) (Outpipe g) (Mintrans g) (Maxtrans g) (Rawmult g) (Minstrides g) (Maxstrides g) (Oflags g) (Fileio g) (TagName g) (Flag_List g) (Syscall_List g) (Aio_Strat_List g) (File_List g).
Definition set_f_opt (x : bool) (g : iogen) : iogen :=
  Iogen (o_opt g) (m_opt g) (i_opt g) (r_opt g) (s_opt g) (t_opt g) (T_opt g) x (O_opt g) (q_opt g) (Offset_Mode g) (Iterations g) (Time_Mode g) (Outpipe g) (Mintrans g) (Maxtrans g) (Rawmult g) (Minstrides g) (Maxstrides g) (Oflags g) (Fileio g) (TagName g) (Flag_List g) (Syscall_List g) (Aio_Strat_List g) (File_List g).
Definition set_O_opt (x : bool) (g : iogen) : iogen :=
  Iogen (o_opt g) (m_opt g) (i_opt g) (r_opt g) (s_opt g) (t_opt g) (T_opt g) (f_opt g) x (q_opt g) (Offset_Mode g) (Iterations g) (Time_Mode g) (Outpipe g) (Mintrans g) (Maxtrans g) (Rawmult g) (Minstrides g) (Maxstrides g) (Oflags g) (Fileio g) (TagName g) (Flag_List g) (Syscall_List g) (Aio_Strat_List g) (File_List g).
Definition set_q_opt (x : bool) (g : iogen) : iogen :=
  Iogen (o_opt g) (m_opt g) (i_opt g) (r_opt g) (s_opt g) (t_opt g) (T_opt g) (f_opt g) (O_opt g) x (Offset_Mode g) (Iterations g) (Time_Mode g) (Outpipe g) (Mintrans g) (Maxtrans g) (Rawmult g) (Minstrides g) (Maxstrides g) (Oflags g) (Fileio g) (TagName g) (Flag_List g) (Syscall_List g) (Aio_Strat_List g) (File_List g).
Definition set_Offset_Mode (x : option strmap) (g : iogen) : iogen :=
  Iogen (o_opt g) (m_opt g) (i_opt g) (r_opt g) (s_opt g) (t_opt g) (T_opt g) (f_opt g) (O_opt g) (q_opt g) x (Iterations g) (Time_Mode g) (Outpipe g) (Mintrans g) (Maxtrans g) (Rawmult g) (Minstrides g) (Maxstrides g) (Oflags g) (Fileio g) (TagName g) (Flag_List g) (Syscall_List g) (Aio_Strat_List g) (File_List g).
Definition set_Iterations (x : Z) (g : iogen) : iogen :=
  Iogen (o_opt g) (m_opt g) (i_opt g) (r_opt g) (s_opt g) (t_opt g) (T_opt g) (f_opt g) (O_opt g) (q_opt g) (Offset_Mode g) x (Time_Mode g) (Outpipe g) (Mintrans g) (Maxtrans g) (Rawmult g) (Minstrides g) (Maxstrides g) (Oflags g) (Fileio g) (TagName g) (Flag_List g) (Syscall_List g) (Aio_Strat_List g) (File_List g).
Definition set_Time_Mode (x : bool) (g : iogen) : iogen :=
  Iogen (o_opt g) (m_opt g) (i_opt g) (r_opt g) (s_opt g) (t_opt g) (T_opt g) (f_opt g) (O_opt g) (q_opt g) (Offset_Mode g) (Iterations g) x (Outpipe g) (Mintrans g) (Maxtrans g) (Rawmult g) (Minstrides g) (Maxstrides g) (Oflags g) (Fileio g) (TagName g) (Flag_List g) (Syscall_List g) (Aio_Strat_List g) (File_List g).
Definition set_Outpipe (x : option cstr) (g : iogen) : iogen :=
  Iogen (o_opt g) (m_opt g) (i_opt g) (r_opt g) (s_opt g) (t_opt g) (T_opt g) (f_opt g) (O_opt g) (q_opt g) (Offset_Mode g) (Iterations g) (Time_Mode g) x (Mintrans g) (Maxtrans g) (Rawmult g) (Minstrides g) (Maxstrides g) (Oflags g) (Fileio g) (TagName g) (Flag_List g) (Syscall_List g) (Aio_Strat_List g) (File_List g).
Definition set_Mintrans (x : Z) (g : iogen) : iogen :=
  Iogen (o_opt g) (m_opt g) (i_opt g) (r_opt g) (s_opt g) (t_opt g) (T_opt g) (f_opt g) (O_opt g) (q_opt g) (Offset_Mode g) (Iterations g) (Time_Mode g) (Outpipe g) x (Maxtrans g) (Rawmult g) (Minstrides g) (Maxstrides g) (Oflags g) (Fileio g) (TagName g) (Flag_List g) (Syscall_List g) (Aio_Strat_List g) (File_List g).
Definition set_Maxtrans (x : Z) (g : iogen) : iogen :=
  Iogen (o_opt g) (m_opt g) (i_opt g) (r_opt g) (s_opt g) (t_opt g) (T_opt g) (f_opt g) (O_opt g) (q_opt g) (Offset_Mode g) (Iterations g) (Time_Mode g) (Outpipe g) (Mintrans g) x (Rawmult g) (Minstrides g) (Maxstrides g) (Oflags g) (Fileio g) (TagName g) (Flag_List g) (Syscall_List g) (Aio_Strat_List g) (File_List g).
Definition set_Rawmult (x : Z) (g : iogen) : iogen :=
  Iogen (o_opt g) (m_opt g) (i_opt g) (r_opt g) (s_opt g) (t_opt g) (T_opt g) (f_opt g) (O_opt g) (q_opt g) (Offset_Mode g) (Iterations g) (Time_Mode g) (Outpipe g) (Mintrans g) (Maxtrans g) x (Minstrides g) (Maxstrides g) (Oflags g) (Fileio g) (TagName g) (Flag_List g) (Syscall_List g) (Aio_Strat_List g) (File_List g).
Definition set_Minstrides (x : Z) (g : iogen) : iogen :=
  Iogen (o_opt g) (m_opt g) (i_opt g) (r_opt g) (s_opt g) (t_opt g) (T_opt g) (f_opt g) (O_opt g) (q_opt g) (Offset_Mode g) (Iterations g) (Time_Mode g) (Outpipe g) (Mintrans g) (Maxtrans g) (Rawmult g) x (Maxstrides g) (Oflags g) (Fileio g) (TagName g) (Flag_List g) (Syscall_List g) (Aio_Strat_List g) (File_List g).
Definition set_Maxstrides (x : Z) (g : iogen) : iogen :=
  Iogen (o_opt g) (m_opt g) (i_opt g) (r_opt g) (s_opt g) (t_opt g) (T_opt g) (f_opt g) (O_opt g) (q_opt g) (Offset_Mode g) (Iterations g) (Time_Mode g) (Outpipe g) (Mintrans g) (Maxtrans g) (Rawmult g) (Minstrides g) x (Oflags g) (Fileio g) (TagName g) (Flag_List g) (Syscall_List g) (Aio_Strat_List g) (File_List g).
Definition set_Oflags (x : Z) (g : iogen) : iogen :=
  Iogen (o_opt g) (m_opt g) (i_opt g) (r_opt g) (s_opt g) (t_opt g) (T_opt g) (f_opt g) (O_opt g) (q_opt g) (Offset_Mode g) (Iterations g) (Time_Mode g) (Outpipe g) (Mintrans g) (Maxtrans g) (Rawmult g) (Minstrides g) (Maxstrides g) x (Fileio g) (TagName g) (Flag_List g) (Syscall_List g) (Aio_Strat_List g) (File_List g).
Definition set_Fileio (x : Z) (g : iogen) : iogen :=
  Iogen (o_opt g) (m_opt g) (i_opt g) (r_opt g) (s_opt g) (t_opt g) (T_opt g) (f_opt g) (O_opt g) (q_opt g) (Offset_Mode g) (Iterations g) (Time_Mode g) (Outpipe g) (Mintrans g) (Maxtrans g) (Rawmult g) (Minstrides g) (Maxstrides g) (Oflags g) x (TagName g) (Flag_List g) (Syscall_List g) (Aio_Strat_List g) (File_List g).
Definition set_TagName (x : cstr) (g : iogen) : iogen :=
  Iogen (o_opt g) (m_opt g) (i_opt g) (r_opt g) (s_opt g) (t_opt g) (T_opt g) (f_opt g) (O_opt g) (q_opt g) (Offset_Mode g) (Iterations g) (Time_Mode g) (Outpipe g) (Mintrans g) (Maxtrans g) (Rawmult g) (Minstrides g) (Maxstrides g) (Oflags g) (Fileio g) x (Flag_List g) (Syscall_List g) (Aio_Strat_List g) (File_List g).
Definition set_Flag_List (x : list strmap) (g : iogen) : iogen :=
  Iogen (o_opt g) (m_opt g) (i_opt g) (r_opt g) (s_opt g) (t_opt g) (T_opt g) (f_opt g) (O_opt g) (q_opt g) (Offset_Mode g) (Iterations g) (Time_Mode g) (Outpipe g) (Mintrans g) (Maxtrans g) (Rawmult g) (Minstrides g) (Maxstrides g) (Oflags g) (Fileio g) (TagName g) x (Syscall_List g) (Aio_Strat_List g) (File_List g).
Definition set_Syscall_List (x : list strmap) (g : iogen) : iogen :=
  Iogen (o_opt g) (m_opt g) (i_opt g) (r_opt g) (s_opt g) (t_opt g) (T_opt g) (f_opt g) (O_opt g) (q_opt g) (Offset_Mode g) (Iterations g) (Time_Mode g) (Outpipe g) (Mintrans g) (Maxtrans g) (Rawmult g) (Minstrides g) (Maxstrides g) (Oflags g) (Fileio g) (TagName g) (Flag_List g) x (Aio_Strat_List g) (File_List g).
Definition set_Aio_Strat_List (x : list strmap) (g : iogen) : iogen :=
  Iogen (o_opt g) (m_opt g) (i_opt g) (r_opt g) (s_opt g) (t_opt g) (T_opt g) (f_opt g) (O_opt g) (q_opt g) (Offset_Mode g) (Iterations g) (Time_Mode g) (Outpipe g) (Mintrans g) (Maxtrans g) (Rawmult g) (Minstrides g) (Maxstrides g) (Oflags g) (Fileio g) (TagName g) (Flag_List g) (Syscall_List g) x (File_List g).
Definition set_File_List (x : list file_info) (g : iogen) : iogen :=
  Iogen (o_opt g) (m_opt g) (i_opt g) (r_opt g) (s_opt g) (t_opt g) (T_opt g) (f_opt g) (O_opt g) (q_opt g) (Offset_Mode g) (Iterations g) (Time_Mode g) (Outpipe g) (Mintrans g) (Maxtrans g) (Rawmult g) (Minstrides g) (Maxstrides g) (Oflags g) (Fileio g) (TagName g) (Flag_List g) (Syscall_List g) (Aio_Strat_List g) x.

(** As they are at the start. *)
Definition start : iogen :=
  Iogen false false false false false false false false false false None 0 false None 0 0 0 0 0 0 0 [] [] [] [] [].

Section iogen.
Context {Σ : Type} `{!System call Σ}.

Abbreviation P := (prog iogen Σ).

(** [random_range]: a random number is taken only when there is a multiple; whether an
    error was reported. *)
Definition random (min max mult : Z) : P (Z * bool) :=
  e ← lift (random_range 0 min max mult);
  match e.2 with
  | Some _ => mret (-1, true)
  | None => rnd ← sys Lrand48; r ← lift (random_range rnd min max mult); mret (s32 r.1, false)
  end.

Definition cdiv (a b : Z) : res Z := if b =? 0 then Undef else Ret (a %/ b).

(** An element of one of the arrays. *)
Definition pick {A} (l : list A) : P A := i ← random 0 (zlength l - 1) 1; lift (mem_get l i.1).

(** ** form_iorequest *)

(** The next multiple. *)
Definition round_up (offset mult : Z) : res Z :=
  if offset =? 0 then Ret offset
  else r ← crem offset mult; if r =? 0 then Ret offset else d ← ck32 (mult - r); ck32 (offset + d).

(** Offset and length; none when there is no multiple. *)
Definition length_of (offset minlength maxlength mult : Z) : P (option (Z * Z)) :=
  r ← random minlength maxlength mult;
  if r.2 : bool then sys (Say (RandomRangeFailed minlength maxlength mult));; mret None else mret (Some (offset, r.1)).

Definition sequential (fptr : file_info) (mult minlength laststart lastend : Z) : P (option (Z * Z)) :=
  o ← get o_opt; maxtrans ← get Maxtrans;
  offset ← (if o && (laststart <? lastend) then r ← random laststart lastend 1; mret r.1 else lift (ck32 (lastend + 1)));
  offset ← lift (round_up offset mult);
  left ← lift (ck32 (f_length fptr - offset));
  let offset := if left <? minlength then 0 else offset in
  maxlength ← lift (ck32 (f_length fptr - offset));
  length_of offset minlength (Z.min maxlength maxtrans) mult.

Definition reverse_ (fptr : file_info) (mult minlength laststart lastend : Z) : P (option (Z * Z)) :=
  o ← get o_opt; maxtrans ← get Maxtrans;
  let maxlength := Z.min laststart maxtrans in
  let '(laststart, lastend, maxlength) :=
    if maxlength <? minlength then (f_length fptr, f_length fptr, maxtrans) else (laststart, lastend, maxlength) in
  r ← length_of 0 minlength maxlength mult;
  match r with
  | None => mret None
  | Some (_, length) =>
      offset ← lift (ck32 (laststart - length));
      offset ← (if o && (laststart <? lastend) then
                  d ← lift (ck32 (lastend - laststart)); r ← random 1 d 1; lift (ck32 (offset + r.1))
                else mret offset);
      offset ← (if offset =? 0 then mret offset
                else r ← lift (crem offset mult); if r =? 0 then mret offset else lift (ck32 (offset - r)));
      mret (Some (offset, length))
  end.

Definition random_ (fptr : file_info) (mult laststart lastend : Z) : P (option (Z * Z)) :=
  o ← get o_opt; mintrans ← get Mintrans; maxtrans ← get Maxtrans;
  l ← random mintrans maxtrans mult;
  let length := l.1 in
  b ← (if o && (laststart <? lastend) then
         d ← lift (ck32 (laststart - length)); d ← lift (ck32 (d + 1));
         e ← lift (ck32 (lastend + length));
         maxoffset ← (if f_length fptr <? e then lift (ck32 (f_length fptr - length)) else mret lastend);
         mret (if d <? 0 then 0 else d, maxoffset)
       else maxoffset ← lift (ck32 (f_length fptr - length)); mret (0, maxoffset));
  let '(minoffset, maxoffset) := b in
  let minoffset := if minoffset <? 0 then 0 else minoffset in
  r ← random minoffset maxoffset mult;
  if r.2 : bool then sys (Say (RandomRangeFailed minoffset maxoffset mult));; mret None else mret (Some (r.1, length)).

(** The record for a request of one stride. *)
Definition fill_read (fptr : file_info) (flags : strmap) (aio : Z) (offset length : Z) (req : cstr) : res cstr :=
  req ← put_file (f_path fptr) req;
  Ret (put_int read_req.r_nent 1 (put_int read_req.r_nstrides 1 (put_int read_req.r_aio_strat aio
    (put_int read_req.r_uflags (if negb (Z.land (m_flags flags) FLG_RAW =? 0) then F_WORD_ALIGNED else 0)
    (put_int read_req.r_nbytes length (put_int read_req.r_offset offset
    (put_int read_req.r_oflags (Z.lor O_RDONLY (m_value flags)) req))))))).

Definition fill_write (fptr : file_info) (flags : strmap) (pattern : ascii) (aio : Z) (offset length : Z) (req : cstr) : res cstr :=
  req ← put_file (f_path fptr) req;
  Ret (put_int write_req.r_nent 1 (put_int write_req.r_nstrides 1 (put_int write_req.r_aio_strat aio
    (put_int write_req.r_uflags (if negb (Z.land (m_flags flags) FLG_RAW =? 0) then F_WORD_ALIGNED else 0)
    (put_char write_req.r_pattern pattern
    (put_int write_req.r_nbytes length (put_int write_req.r_offset offset
    (put_int write_req.r_oflags (Z.lor O_WRONLY (m_value flags)) req)))))))).

Definition fill_io (fptr : file_info) (oflags uflags : Z) (pattern : ascii) (aio offset length nstrides nent : Z) (req : cstr) : res cstr :=
  req ← put_file (f_path fptr) req;
  Ret (put_int listio_req.r_nent nent (put_int listio_req.r_nstrides nstrides (put_int listio_req.r_aio_strat aio
    (put_int listio_req.r_uflags uflags (put_char listio_req.r_pattern pattern
    (put_int listio_req.r_nbytes length (put_int listio_req.r_offset offset
    (put_int listio_req.r_oflags oflags req)))))))).

(** How many strides of which length; none when there is no number. *)
Definition strides (length mult : Z) : P (option (Z * Z)) :=
  q ← lift (cdiv length mult); maxstrides ← get Maxstrides;
  let maxstride := Z.min q maxstrides in
  n ← get Minstrides; when (n =? 0) (modify (set_Minstrides 1));;
  minstrides ← get Minstrides;
  r ← random minstrides maxstride 1;
  if r.2 : bool then sys (Say (RandomRangeFailed minstrides maxstride 1));; mret None
  else
    let nstrides := r.1 in
    slength ← lift (cdiv length nstrides);
    m ← lift (crem slength mult);
    if m =? 0 then mret (Some (slength, nstrides))
    else
      let slength := if slength <? mult then mult else slength - m in
      n ← lift (cdiv length slength);
      mret (Some (slength, Z.min n maxstrides)).

(** The record for a system call; none when no number of strides is found. *)
Definition fill (sc flags : strmap) (fptr : file_info) (pattern : ascii) (aio mult offset length : Z) (req : cstr) : P (option cstr) :=
  let t := m_value sc in
  let wr := negb (Z.land (m_flags sc) SY_WRITE =? 0) in
  let oflags := Z.lor (if wr then O_WRONLY else O_RDONLY) (m_value flags) in
  let uflags := if negb (Z.land (m_flags flags) FLG_RAW =? 0) then F_WORD_ALIGNED else 0 in
  if bool_decide (t ∈ [READ; READA]) then r ← lift (fill_read fptr flags aio offset length req); mret (Some r)
  else if bool_decide (t ∈ [WRITE; WRITEA]) then r ← lift (fill_write fptr flags pattern aio offset length req); mret (Some r)
  else if bool_decide (t ∈ [READV; AREAD; PREAD; WRITEV; AWRITE; PWRITE; LREAD; LREADA; LWRITE; LWRITEA; RESVSP; UNRESVSP; DFFSYNC; FSYNC2; FDATASYNC])
  then r ← lift (fill_io fptr oflags uflags pattern aio offset length 1 1 req); mret (Some r)
  else if bool_decide (t ∈ [MMAPR; MMAPW]) then
    r ← lift (fill_io fptr (Z.lor (if wr then O_RDWR else O_RDONLY) (m_value flags)) uflags pattern aio offset length 1 1 req); mret (Some r)
  else if bool_decide (t ∈ [LSREAD; LSREADA; LEREAD; LEREADA; LSWRITE; LSWRITEA; LEWRITE; LEWRITEA]) then
    s ← strides length mult;
    match s with
    | None => mret None
    | Some (slength, n) =>
        let ent := negb (Z.land (m_flags sc) SY_NENT =? 0) in
        r ← lift (fill_io fptr oflags uflags pattern aio offset slength (if ent then 1 else n) (if ent then n else 1) req); mret (Some r)
    end
  else mret (Some req).

(** [File_List\[i\]] with the last offset and length. *)
Definition set_last (offset length : Z) (f : file_info) : file_info :=
  FileInfo (f_path f) (f_length f) (f_iou f) (f_riou f) (f_dalign f) (f_nextoff f) (f_type f) offset length.

Definition form_iorequest (req : cstr) : P (option cstr) :=
  calls ← get Syscall_List; sc ← pick calls;
  let req := put_int r_type (m_value sc) req in
  pattern ← (if negb (Z.land (m_flags sc) SY_WRITE =? 0) then pick Byte_Patterns else mret NUL);
  files ← get File_List;
  i ← random 0 (zlength files - 1) 1;
  fptr ← lift (mem_get files i.1);
  fl ← get Flag_List; flags ← pick fl;
  let mult := if (f_type fptr =? S_IFREG) && negb (Z.land (m_flags flags) FLG_RAW =? 0) then f_riou fptr else f_iou fptr in
  let laststart := f_lastoffset fptr in
  e ← lift (ck32 (f_lastoffset fptr + f_lastlength fptr)); lastend ← lift (ck32 (e - 1));
  mintrans ← get Mintrans;
  let minlength := if mult <? mintrans then mintrans else mult in
  mode ← get Offset_Mode;
  place ← (match mode with
           | None => lift Undef
           | Some mode =>
               if m_value mode =? M_SEQUENTIAL then sequential fptr mult minlength laststart lastend
               else if m_value mode =? M_REVERSE then reverse_ fptr mult minlength laststart lastend
               else if m_value mode =? M_RANDOM then random_ fptr mult laststart lastend
               else mret (Some (0, 0))
           end);
  match place with
  | None => mret None
  | Some (offset, length) =>
      modify (λ g, set_File_List (alter (set_last offset length) (Z.to_nat i.1) (File_List g)) g);;
      strat ← get Aio_Strat_List;
      aio ← (if negb (Z.land (m_flags sc) SY_ASYNC =? 0) then a ← pick strat; mret (m_value a) else mret 0);
      fill sc flags fptr pattern aio mult offset length req
  end.

(** ** Files *)

(** The result 0 or -1, and the record. *)
Definition get_file_info (rec : file_info) : P (Z * file_info) :=
  r ← sys (Stat (f_path rec));
  match r with
  | inl _ => sys (Say (StatFailed (f_path rec)));; mret (-1, rec)
  | inr (st_mode, st_size) =>
      let 'FileInfo p len iou riou da no ty lo ll := rec in
      let ty := Z.land st_mode S_IFMT in
      if ty =? S_IFREG then
        r ← get r_opt; rawmult ← get Rawmult;
        mret (0, FileInfo p (s32 st_size) 1 (if r : bool then rawmult else BSIZE) da no ty lo ll)
      else mret (0, FileInfo p BSIZE iou BSIZE da no ty lo ll)
  end.

(** The final size, or -1.  The byte that is written was never set: it is what [junk] is. *)
Definition create_file (junk : ascii) (path : cstr) (nbytes : Z) : P Z :=
  r ← sys (Stat path);
  size ← (match r with
          | inl e => if e =? ENOENT then mret (Some 0) else sys (Say (StatFailed path));; mret None
          | inr (st_mode, st_size) =>
              if Z.land st_mode S_IFMT =? S_IFREG then mret (Some st_size) else sys (Say (NotRegular path));; mret None
          end);
  match size with
  | None => mret (-1)
  | Some st_size =>
      if st_size =? nbytes then mret nbytes
      else
        modify (λ g, set_Oflags (Z.lor (Oflags g) (Z.lor O_CREAT O_WRONLY)) g);;
        flags ← get Oflags;
        f ← sys (Open path flags 438);
        match f with
        | inl _ => sys (Say (CreateFailed path));; mret (-1)
        | inr fd =>
            bad ← (if nbytes <? st_size then
                     t ← sys (Ftruncate fd nbytes);
                     match t with inl _ => sys (Say (TruncateFailed path));; mret true | inr _ => mret false end
                   else
                     s ← sys (Lseek fd (nbytes - 1));
                     match s with
                     | inl _ => sys (Say (SeekFailed path));; mret true
                     | inr _ =>
                         w ← sys (Write fd [junk]);
                         match w with
                         | inr 1 => mret false
                         | _ => sys (Say (ExtendFailed path));; mret true
                         end
                     end);
            if bad : bool then sys (Close fd);; mret (-1)
            else
              st ← sys (Fstat fd);
              sys (Close fd);;
              mret (s32 (match st with inr (_, st_size) => st_size | inl _ => st_size end))
        end
  end.

(** ** Options *)

(** All entries of that name. *)
Definition lookup_all (map : list strmap) (s : cstr) : list strmap := List.filter (λ m, bool_decide (str (m_string m) = s)) map.

(** An array of 128 pointers. *)
Definition append128 (l x : list strmap) : res (list strmap) := if zlength (l ++ x) <=? 128 then Ret (l ++ x) else Undef.

Fixpoint add_flags (toks : list cstr) (arg : cstr) : P () :=
  match toks with
  | [] => mret ()
  | t :: toks =>
      match str_lookup Flag_Map t with
      | None => sys (Say (BadArgument "f"%char t));; exit_ 2
      | Some f => l ← get Flag_List; l ← lift (append128 l [f]); modify (set_Flag_List l);; add_flags toks arg
      end
  end.

Fixpoint add_syscalls (toks : list cstr) : P () :=
  match toks with
  | [] => mret ()
  | t :: toks =>
      match lookup_all Syscall_Map t with
      | [] => sys (Say (BadArgument "s"%char t));; exit_ 2
      | scs =>
          let io := List.filter (λ sc, negb (m_value sc =? SSREAD) && negb (m_value sc =? SSWRITE)) scs in
          n ← get Fileio; modify (set_Fileio (n + zlength io));;
          l ← get Syscall_List; l ← lift (append128 l scs); modify (set_Syscall_List l);; add_syscalls toks
      end
  end.

Definition bad_arg {A} (opt : ascii) (arg : cstr) (status : Z) : P A := sys (Say (BadArgument opt arg));; exit_ status.

(** One result of [getopt]. *)
Definition handle_option (o : ascii) (optarg : cstr) : P () :=
  if o =c "a"%char then bad_arg o [] 2
  else if o =c "f"%char then add_flags (strtok_all optarg (str ",")) optarg;; modify (set_f_opt true)
  else if o =c "h"%char then exit_ 0
  else if o =c "i"%char then
    match sscanf_ic optarg with
    | Scan1 n => if n <? 0 then bad_arg o optarg 1 else modify (set_Iterations n);; modify (set_Time_Mode false);; modify (set_i_opt true)
    | Scan2 n c =>
        if negb (c =c "s"%char) || (n <? 0) then bad_arg o optarg 1
        else modify (set_Iterations n);; modify (set_Time_Mode true);; modify (set_i_opt true)
    | _ => bad_arg o optarg 1
    end
  else if o =c "L"%char then bad_arg o [] 2
  else if o =c "m"%char then
    match str_lookup Omode_Map optarg with
    | None => bad_arg o optarg 1
    | Some m => modify (set_Offset_Mode (Some m));; modify (set_m_opt true)
    end
  else if o =c "N"%char then
    let tag := str "(" ++ take 39 optarg ++ str ")" in
    if zlength tag <? 40 then modify (set_TagName tag) else lift Undef
  else if o =c "o"%char then modify (set_o_opt true)
  else if o =c "O"%char then
    t ← lift (string_to_tokens optarg (Some (replicate 5 Uninit)) 4 (Some (str ":/")));
    match t.1 with
    | Tok s :: _ =>
        f ← lift (parse_open_flags s);
        match f with inr _ => bad_arg o optarg 1 | inl f => modify (set_Oflags f);; modify (set_O_opt true) end
    | _ => lift Undef
    end
  else if o =c "p"%char then modify (set_Outpipe (Some optarg))
  else if o =c "r"%char then
    n ← lift (bytes_by_prefix optarg);
    if (n =? -1) || (n <? 11) || negb (n %% BSIZE =? 0) then bad_arg o optarg 1
    else modify (set_Rawmult n);; modify (set_r_opt true)
  else if o =c "s"%char then add_syscalls (strtok_all optarg (str ","));; modify (set_s_opt true)
  else if o =c "t"%char then
    n ← lift (bytes_by_prefix optarg);
    if n =? -1 then bad_arg o optarg 1 else modify (set_Mintrans n);; modify (set_t_opt true)
  else if o =c "T"%char then
    n ← lift (bytes_by_prefix optarg);
    if n =? -1 then bad_arg o optarg 1 else modify (set_Maxtrans n);; modify (set_T_opt true)
  else if o =c "q"%char then modify (set_q_opt true)
  else if o =c "?"%char then exit_ 1
  else mret ().

Fixpoint handle_options (l : list (ascii * cstr)) : P () :=
  match l with [] => mret () | (o, arg) :: l => handle_option o arg;; handle_options l end.

Definition entries (map : list strmap) (names : list string) : list strmap := omap (λ n, str_lookup map (str n)) names.

Definition defaults : P () :=
  modify (set_Minstrides 1);; modify (set_Maxstrides 255);;
  m ← get m_opt; when (negb m) (modify (set_Offset_Mode (str_lookup Omode_Map (str "sequential"))));;
  i ← get i_opt; when (negb i) (modify (set_Iterations 0));;
  t ← get t_opt; when (negb t) (modify (set_Mintrans 1));;
  t ← get T_opt; when (negb t) (modify (set_Maxtrans (256 * BSIZE)));;
  o ← get O_opt; when (negb o) (modify (set_Oflags 0));;
  a ← get Aio_Strat_List; a ← lift (append128 a Aio_Strat_Map); modify (set_Aio_Strat_List a);;
  s ← get s_opt;
  when (negb s) (modify (set_Syscall_List (entries Syscall_Map ["read"; "write"; "readv"; "writev"; "mmread"; "mmwrite"]%string));;
                 modify (set_Fileio 1)).

(** Where the last transfer was, for a file that is not used yet. *)
Definition start_place (mode : option strmap) (f : file_info) : file_info :=
  match mode with
  | Some m =>
      if m_value m =? M_SEQUENTIAL then set_last 0 0 f
      else if m_value m =? M_REVERSE then set_last (f_length f) 0 f
      else if m_value m =? M_RANDOM then set_last (f_length f %/ 2) 0 f
      else f
  | None => f
  end.

Definition path_of (file : cstr) : P cstr :=
  let absolute := match file with c :: _ => c =c "/"%char | [] => false end in
  p ← (if absolute then mret file
       else
         r ← sys (Getcwd 128);
         dir ← (match r with inl _ => sys (Say NoCwd);; mret [] | inr d => mret d end);
         mret (dir ++ str "/" ++ file));
  if zlength p <=? 128 then mret p else lift Undef.

(** The record for a file argument: it replaces [slot], that of an argument that was
    given up, or is appended to the list. *)
Definition add_file (file : cstr) (slot : file_info) : P file_info :=
  p ← path_of file;
  let 'FileInfo _ len iou riou da no ty lo ll := slot in
  i ← get_file_info (FileInfo p len iou riou da no ty lo ll);
  let '(rc, f) := i in
  if rc =? -1 then sys (Say (NoFileInfo file));; mret f
  else
    mintrans ← get Mintrans; maxtrans ← get Maxtrans; mode ← get Offset_Mode;
    if f_length f <? mintrans then sys (Say (TooSmall (f_path f)));; mret f
    else if f_length f <? maxtrans then sys (Say (TooSmall (f_path f)));; mret f
    else if 0 <? f_length f then
      l ← get File_List; modify (set_File_List (l ++ [start_place mode f]));; mret no_file
    else mret f.

Fixpoint add_files (junk : ascii) (args : list cstr) (slot : file_info) : P () :=
  match args with
  | [] => mret ()
  | arg :: args =>
      match span (λ c, negb (c =c ":"%char)) arg with
      | (n, _ :: file) =>
          len ← lift (bytes_by_prefix n);
          if len =? -1 then bad_arg ":"%char arg 2
          else if MAX_FNAME_LENGTH <? zlength file then sys (Say (NameTooLong file));; add_files junk args slot
          else
            nb ← create_file junk file len;
            when (nb <? len) (sys (Say (ShortFile file)));;
            if (nb <? len) && (nb <=? 0) then add_files junk args slot
            else slot ← add_file file slot; add_files junk args slot
      | (_, []) =>
          a ← sys (Access arg);
          match a with
          | inl _ => bad_arg " "%char arg 2
          | inr _ => slot ← add_file arg slot; add_files junk args slot
          end
      end
  end.

Definition parse_cmdline (junk : ascii) (opts : list (ascii * cstr)) (args : list cstr) : P () :=
  handle_options opts;; defaults;;
  io ← get Fileio; f ← get f_opt;
  if negb (io =? 0) then
    when (bool_decide (args = [])) (sys (Say NoFiles);; exit_ 1);;
    when (negb f) (modify (set_Flag_List (entries Flag_Map ["buffered"; "sync"]%string)));;
    add_files junk args no_file;;
    l ← get File_List;
    when (bool_decide (l = [])) (sys (Say NoFiles);; exit_ 2)
  else mret ().

(** ** The program *)

Definition init_output (outpipe : cstr) : P Z :=
  s ← sys (Stat outpipe);
  (match s with
   | inl e =>
       if e =? ENOENT then
         m ← sys (Mkfifo outpipe 438);
         match m with inl _ => sys (Say (FifoFailed outpipe));; exit_ 2 | inr _ => mret () end
       else sys (Say (FifoFailed outpipe));; exit_ 2
   | inr (st_mode, _) => when (negb (Z.land st_mode S_IFMT =? S_IFIFO)) (sys (Say (FifoFailed outpipe));; exit_ 2)
   end);;
  f ← sys (Open outpipe O_RDWR 0);
  match f with inl _ => sys (Say (FifoFailed outpipe));; exit_ 2 | inr fd => mret fd end.

(** One turn of the loop. *)
Definition generate (outfd : Z) : P () :=
  r ← form_iorequest (replicate (Z.to_nat sizeof_io_req) NUL);
  match r with
  | None => sys (Say FormFailed)
  | Some req =>
      w ← sys (Write outfd (put_int r_magic DOIO_MAGIC req));
      match w with inl _ => sys (Say WriteFailed) | inr _ => mret () end
  end.

(** The loop, with the seconds of the last look at the clock. *)
Fixpoint main_loop (fuel : nat) (outfd start_time now : Z) (infinite : bool) : P () :=
  match fuel with
  | O => lift NoFuel
  | S fuel =>
      n ← get Iterations; timed ← get Time_Mode;
      when (negb infinite && negb timed) (modify (set_Iterations (n - 1)));;
      if infinite || (negb timed && negb (n =? 0)) || (timed && (now - start_time <=? n)) then
        now ← sys Gettimeofday;
        generate outfd;;
        main_loop fuel outfd start_time now infinite
      else mret ()
  end.

Definition main (fuel : nat) (junk : ascii) (opts : list (ascii * cstr)) (args : list cstr) : P () :=
  parse_cmdline junk opts args;;
  p ← get Outpipe;
  outfd ← (match p with None => mret 1 | Some path => init_output path end);
  start_time ← sys Gettimeofday;
  n ← get Iterations;
  now ← sys Gettimeofday;
  main_loop fuel outfd start_time now (n =? 0);;
  exit_ 0.
End iogen.
