(* ===== verification/IogenProof.v ===== *)
(** * What the generator promises

    The requests that testcases/kernel/fs/doio/iogen.c writes: each names one of the files
    and lies inside of it, and follows the one before it in the file as the mode says.
    The system is arbitrary but for the range of [lrand48]; a predicate on its states
    counts the requests that are written. *)

From S2P Require Import Prelude CInt CMem CString RandomRange OpenFlags CProg IoReq Iogen.
Local Open Scope Z_scope.

(** ** Places *)

(** A transfer that the code may choose: inside of the file and aligned. *)
Record place_ok (flen mult offset length : Z) : Prop := {
  pl_offset : 0 ≤ offset; pl_length : 0 ≤ length; pl_end : offset + length ≤ flen;
  pl_aligned : offset mod mult = 0; pl_multiple : length mod mult = 0 }.

(** How a transfer follows the one from [laststart] to [lastend] in the same file.
    Sequential: it starts behind that one, or with -o in it; only when less than
    [minlength] bytes are left there it starts anew at 0.  Reverse: it ends before that one,
    or with -o in it; only when there is too little room before that one it ends at the end
    of the file.  Random: with -o the two overlap.  (-o needs a transfer of two bytes.) *)
Definition follows (mode : Z) (o : bool) (minlength maxtrans flen laststart lastend offset length : Z) : Prop :=
  let overlap := o && (laststart <? lastend) in
  if mode =? M_SEQUENTIAL then
    let next x := if overlap then laststart ≤ x ≤ lastend else x = lastend + 1 in
    next offset ∧ minlength ≤ flen - offset ∨ offset = 0 ∧ ∃ x, next x ∧ flen - x < minlength
  else if mode =? M_REVERSE then
    if Z.min laststart maxtrans <? minlength then offset + length = flen
    else if overlap then laststart < offset + length ≤ lastend else offset + length = laststart
  else overlap = true → laststart < offset + length ∧ offset ≤ lastend.

(** Decisions about constants. *)
Ltac decide_bool c :=
  let b := eval vm_compute in c in lazymatch b with true => change c with true | false => change c with false end.
Ltac decide_all :=
  repeat match goal with
  | |- context [bool_decide ?P] => decide_bool (bool_decide P)
  | |- context [negb (Z.land ?a ?b =? 0)] => decide_bool (negb (Z.land a b =? 0))
  end; cbn iota.
Ltac decide_mem := apply (bool_decide_unpack _); vm_compute; exact I.

(** ** The state of the generator *)

Record file_ok (g : iogen) (f : file_info) : Prop := {
  fo_path : nonul (f_path f) ∧ zlength (f_path f) < MAX_FNAME_LENGTH;
  fo_iou : f_iou f = 1;
  fo_length : Mintrans g ≤ f_length f ∧ Maxtrans g ≤ f_length f < 2 ^ 30;
  fo_last : 0 ≤ f_lastoffset f ∧ 0 ≤ f_lastlength f ∧ f_lastoffset f + f_lastlength f ≤ f_length f }.

(** Regular files of less than a gigabyte that hold the transfers, options from the tables. *)
Record gen_ok (g : iogen) : Prop := {
  go_calls : Syscall_List g ≠ [] ∧ Syscall_List g ⊆ Syscall_Map ∧ zlength (Syscall_List g) ≤ 128;
  go_flags : Flag_List g ≠ [] ∧ Flag_List g ⊆ Flag_Map ∧ zlength (Flag_List g) ≤ 128;
  go_files : File_List g ≠ [] ∧ Forall (file_ok g) (File_List g) ∧ zlength (File_List g) < 2 ^ 30;
  go_mode : ∃ m, Offset_Mode g = Some m ∧ m ∈ Omode_Map;
  go_trans : 0 ≤ Mintrans g ∧ 1 ≤ Maxtrans g }.

(** What is known of the files: names and lengths. *)
Definition files_of (g : iogen) : list (cstr * Z) := (λ f, (f_path f, f_length f)) <$> File_List g.

Section generator.
Context {Σ : Type} `{!System call Σ}.

(** [Inv n] holds when [n] requests have been written. *)
Context (Inv : nat → Σ → Prop).
Hypothesis Inv_rand : ∀ n k, Inv n k → 0 ≤ (reply Lrand48 k).1 < 2 ^ 31 ∧ Inv n (reply Lrand48 k).2.
Hypothesis Inv_time : ∀ n k, Inv n k → Inv n (reply Gettimeofday k).2.
Hypothesis Inv_say : ∀ n k m, Inv n k → Inv n (reply (Say m) k).2.

Implicit Types g : iogen.
Implicit Types k : Σ.

Lemma wp_random n min max mult Q E g k : Inv n k → 0 ≤ min → 0 ≤ max → 1 ≤ mult → Z.max min max + mult ≤ INT_MAX →
  (∀ v k', Inv n k' → Z.min min max ≤ v ≤ Z.max min max → v mod mult = 0 → Q (v, false) g k') →
  ((∀ v, Z.min min max ≤ v ≤ Z.max min max → v mod mult ≠ 0) → Q (-1, true) g k) →
  wp (random min max mult) Q E g k.
Proof.
  intros Hk Hmin Hmax Hm Hi Hok Herr. unfold random.
  assert (Hc := λ rnd, choose_multiple_spec INT_MAX (pick_lrand48 rnd) min max mult ltac:(lia) Hi ltac:(done) Hm). cbn zeta in Hc.
  assert (Hb := λ v, multiples_between (Z.min min max) (Z.max min max) mult v Hm).
  set (lo := first_mult _ _) in *. set (hi := last_mult _ _) in *. destruct (hi <? lo) eqn:E0; bool_hyps.
  - destruct (Hc 0) as [msg Hc0]. wp_step. eapply pwp_lift; [exact Hc0|]. apply Herr. intros v Hv Hz.
    destruct (proj1 (Hb v) (conj Hv Hz)) as (j & Hj & -> & Hle). nia.
  - assert (Hn : 0 < (hi - lo) / mult + 1) by (pose proof (Z.div_pos (hi - lo) mult); lia).
    assert (Hr : ∀ rnd, 0 ≤ rnd → ∃ v, random_range rnd min max mult = Ret (v, None) ∧
      Z.min min max ≤ v ≤ Z.max min max ∧ v mod mult = 0).
    { intros rnd Hrnd. destruct (Hc rnd (rnd mod ((hi - lo) / mult + 1))) as [Hv Hle]; [by apply pick_lrand48_ok|by apply Z.mod_pos_bound|].
      eexists. split; [exact Hv|]. apply Hb. exists (rnd mod ((hi - lo) / mult + 1)). split; [|done]. by apply Z.mod_pos_bound. }
    destruct (Hr 0) as (v0 & Hv0 & _); [lia|]. wp_step. eapply pwp_lift; [exact Hv0|]. cbn [snd].
    wp_step. wp_step. destruct (Inv_rand n k Hk) as [Hrnd Hk']. destruct (Hr (reply Lrand48 k).1) as (v & Hv & Hb1 & Hb2); [lia|].
    wp_step. eapply pwp_lift; [exact Hv|]. wp_step. cbn [fst]. rewrite s32_id by (unfold INT_MAX in Hi; lia). by apply Hok.
Qed.

(** With a step of 1 there always is a number. *)
Lemma wp_random1 n min max Q E g k : Inv n k → 0 ≤ min → 0 ≤ max → Z.max min max < INT_MAX →
  (∀ v k', Inv n k' → Z.min min max ≤ v ≤ Z.max min max → Q (v, false) g k') → wp (random min max 1) Q E g k.
Proof.
  intros Hk Hmin Hmax Hi Hok. apply (wp_random n); [done|lia..| |]; [intros; by apply Hok|].
  intros Hno. destruct (Hno (Z.min min max)); [lia|apply Z.mod_1_r].
Qed.

Lemma wp_pick {A} n (l : list A) Q E g k : Inv n k → l ≠ [] → zlength l < 2 ^ 30 →
  (∀ x k', Inv n k' → x ∈ l → Q x g k') → wp (pick l) Q E g k.
Proof.
  intros Hk Hl Hlen HQ. unfold pick. wp_step. assert (0 < zlength l) by (destruct l; [done|simpl; lia]).
  apply (wp_random1 n); [done|lia|lia|unfold INT_MAX; lia|].
  intros v k' Hk' Hv. cbn [fst]. destruct (lookup_lt_is_Some_2 l (Z.to_nat v)) as [x Hx]; [lia|].
  eapply pwp_lift; [apply mem_get_lookup; [lia|exact Hx]|]. apply HQ; [done|]. by eapply list_elem_of_lookup_2.
Qed.

(** ** The three modes *)

Section modes.
Context (g : iogen) (fptr : file_info) (mult : Z).
Let flen := f_length fptr.
Let minlength := if mult <? Mintrans g then Mintrans g else mult.
Let laststart := f_lastoffset fptr.
Let lastend := f_lastoffset fptr + f_lastlength fptr - 1.
Hypothesis Hmult : 1 ≤ mult ≤ flen.
Hypothesis Hflen : flen < 2 ^ 30.
Hypothesis Htrans : 0 ≤ Mintrans g ≤ flen ∧ 1 ≤ Maxtrans g ≤ flen.
Hypothesis Hlast : 0 ≤ laststart ∧ 0 ≤ f_lastlength fptr ∧ laststart + f_lastlength fptr ≤ flen.

Lemma minlength_bounds : 1 ≤ minlength ≤ flen ∧ minlength = Z.max (Mintrans g) mult.
Proof. unfold minlength. case_if; lia. Qed.

Lemma lastend_bounds : laststart - 1 ≤ lastend < flen.
Proof. unfold lastend, laststart in *. lia. Qed.

Lemma wp_length_of n offset maxlength Q E k : Inv n k → 0 ≤ maxlength ≤ flen →
  (∀ v k', Inv n k' → Z.min minlength maxlength ≤ v ≤ Z.max minlength maxlength → v mod mult = 0 → Q (Some (offset, v)) g k') →
  (∀ k', Inv n k' → mult ≠ 1 → Q None g k') →
  wp (length_of offset minlength maxlength mult) Q E g k.
Proof.
  intros Hk Hmax Hok Hno. pose proof minlength_bounds. unfold length_of. wp_step.
  apply (wp_random n); [done|lia|lia|lia|unfold INT_MAX; lia| |].
  - intros v k' Hk' Hv Hz. cbn [snd]. wp_step. by apply Hok.
  - intros Hne. cbn [snd]. wp_step. wp_step. wp_step. apply Hno; [by apply Inv_say|]. intros H1.
    apply (Hne (Z.min minlength maxlength)); [lia|]. rewrite H1. apply Z.mod_1_r.
Qed.

Lemma wp_round_up n offset Q E k : Inv n k → 0 ≤ offset ≤ flen →
  (∀ o, offset ≤ o < offset + mult → o mod mult = 0 → (mult = 1 → o = offset) → Q o g k) →
  wp (lift (round_up offset mult)) Q E g k.
Proof.
  intros Hk Ho HQ. pose proof (Z.mod_pos_bound offset mult ltac:(lia)) as Hb.
  assert (Hr : ∃ o, round_up offset mult = Ret o ∧ offset ≤ o < offset + mult ∧ o mod mult = 0 ∧ (mult = 1 → o = offset)).
  { unfold round_up. case_if; [exists offset; subst; split_and!; [done|lia|lia|by apply Z.mod_0_l; lia|done]|].
    rewrite crem_ok, res_bind_ret by lia. case_if; [exists offset; split_and!; [done|lia|lia|done|done]|].
    rewrite ck32_ok, res_bind_ret, ck32_ok by (unfold INT_MIN, INT_MAX; lia). eexists. split; [done|]. split_and!; [lia|lia| |].
    - replace (offset + (mult - offset mod mult)) with (0 + (offset / mult + 1) * mult) by (pose proof (Z.div_mod offset mult); lia).
      rewrite Z.mod_add by lia. apply Z.mod_0_l. lia.
    - intros ->. rewrite Z.mod_1_r in *. done. }
  destruct Hr as (o & Hr & H1 & H2 & H3). eapply pwp_lift; [exact Hr|]. by apply HQ.
Qed.

(** What a mode may choose. *)
Definition chosen (mode offset length : Z) : Prop :=
  place_ok flen mult offset length ∧ Z.min (Mintrans g) (Maxtrans g) ≤ length ≤ Z.max minlength (Maxtrans g) ∧
  (mult = 1 → follows mode (o_opt g) (Z.max 1 (Mintrans g)) (Maxtrans g) flen laststart lastend offset length).

Lemma minlength_one : mult = 1 → minlength = Z.max 1 (Mintrans g).
Proof. intros ->. unfold minlength. destruct (Z.ltb_spec 1 (Mintrans g)); lia. Qed.

Lemma wp_sequential n Q E k : Inv n k →
  (∀ o l k', Inv n k' → chosen M_SEQUENTIAL o l → Q (Some (o, l)) g k') → (∀ k', Inv n k' → mult ≠ 1 → Q None g k') →
  wp (sequential fptr mult minlength laststart lastend) Q E g k.
Proof.
  intros Hk Hok Hno. pose proof minlength_bounds as Hmin. pose proof lastend_bounds as Hend. unfold sequential.
  do 4 wp_step. wp_step.
  assert (Hrest : ∀ offset k1, Inv n k1 → 0 ≤ offset ≤ flen →
    (if o_opt g && (laststart <? lastend) then laststart ≤ offset ≤ lastend else offset = lastend + 1) →
    wp (offset ← lift (round_up offset mult);
        left ← lift (ck32 (f_length fptr - offset));
        (let offset := if left <? minlength then 0 else offset in
         maxlength ← lift (ck32 (f_length fptr - offset)); length_of offset minlength (Z.min maxlength (Maxtrans g)) mult)) Q E g k1).
  { intros offset k1 Hk1 Hoff Hf. wp_step. apply (wp_round_up n); [done..|]. intros o Ho Hz H1.
    wp_step. eapply pwp_lift; [apply ck32_ok; unfold INT_MIN, INT_MAX; fold flen; lia|]. fold flen. cbn zeta.
    set (o' := if flen - o <? minlength then 0 else o).
    assert (Ho' : 0 ≤ o' ∧ minlength ≤ flen - o' ∧ o' mod mult = 0) by (unfold o'; case_if; rewrite ?Z.mod_0_l by lia; split_and!; done || lia).
    wp_step. eapply pwp_lift; [apply ck32_ok; unfold INT_MIN, INT_MAX; lia|].
    apply (wp_length_of n); [done|lia| |done]. intros v k' Hk' Hv Hvz. apply Hok; [done|]. split_and!.
    - split; try lia.
    - lia.
    - lia.
    - intros Hm1. rewrite <- (minlength_one Hm1). unfold follows. simpl. unfold o'. rewrite (H1 Hm1).
      destruct (Z.ltb_spec (flen - offset) minlength); [right; split; [done|by exists offset]|by left; split]. }
  destruct (o_opt g && (laststart <? lastend)) eqn:Eo.
  - apply andb_true_iff in Eo as [Eo El]. bool_hyps. wp_step.
    apply (wp_random1 n); [done|lia|lia|unfold INT_MAX; lia|]. intros v k1 Hk1 Hv. wp_step. apply Hrest; [done|cbn [fst]; lia..].
  - eapply pwp_lift; [apply ck32_ok; unfold INT_MIN, INT_MAX; lia|]. apply Hrest; [done|lia|done].
Qed.

Lemma wp_reverse n Q E k : Inv n k →
  (∀ o l k', Inv n k' → chosen M_REVERSE o l → Q (Some (o, l)) g k') → (∀ k', Inv n k' → mult ≠ 1 → Q None g k') →
  wp (reverse_ fptr mult minlength laststart lastend) Q E g k.
Proof.
  intros Hk Hok Hno. pose proof minlength_bounds as Hmin. pose proof lastend_bounds as Hend. unfold reverse_. fold flen.
  do 4 wp_step.
  assert (Hst : ∃ ls le ml, (if Z.min laststart (Maxtrans g) <? minlength then (flen, flen, Maxtrans g)
      else (laststart, lastend, Z.min laststart (Maxtrans g))) = (ls, le, ml) ∧ (0 ≤ ml ≤ ls ∧ ml ≤ Maxtrans g ∧ (minlength ≤ ml ∨ ml = Maxtrans g)) ∧ minlength ≤ ls ∧ ls ≤ flen ∧ le ≤ flen ∧
      (if Z.min laststart (Maxtrans g) <? minlength then ls = flen ∧ le = flen else ls = laststart ∧ le = lastend)).
  { case_if; eexists _, _, _; (split; [done|]); lia. }
  destruct Hst as (ls & le & ml & -> & Hml & Hmls & Hls & Hle & Hcase). wp_step.
  apply (wp_length_of n); [done|lia| |intros; wp_step; by apply Hno].
  intros length k1 Hk1 Hl Hlz. wp_step. eapply pwp_lift; [apply ck32_ok; unfold INT_MIN, INT_MAX; lia|].
  assert (Hrest : ∀ offset k2, Inv n k2 → 0 ≤ offset → offset + length ≤ flen →
    (if o_opt g && (ls <? le) then ls < offset + length ≤ le else offset + length = ls) →
    wp (offset ← (if offset =? 0 then mret offset
                  else r ← lift (crem offset mult); if r =? 0 then mret offset else lift (ck32 (offset - r)));
        mret (Some (offset, length))) Q E g k2).
  { intros offset k2 Hk2 Ho Hoe Hf. pose proof (Z.mod_pos_bound offset mult ltac:(lia)) as Hb. pose proof (Z.mod_le offset mult ltac:(lia) ltac:(lia)).
    assert (Hfin : ∀ o, 0 ≤ o ≤ offset → o mod mult = 0 → (mult = 1 → o = offset) → Q (Some (o, length)) g k2).
    { intros o H1 H2 H3. apply Hok; [done|]. split; [split; lia|].
      split; [lia|]. intros Hm1. rewrite (H3 Hm1). unfold follows. simpl. rewrite <- (minlength_one Hm1).
      destruct (Z.min laststart (Maxtrans g) <? minlength); destruct Hcase as [-> ->]; [|done]. by rewrite Z.ltb_irrefl, andb_false_r in Hf. }
    wp_step. case_if.
    - wp_step. wp_step. apply Hfin; [lia|subst; apply Z.mod_0_l; lia|done].
    - wp_step. eapply pwp_lift; [apply crem_ok; lia|]. case_if.
      + wp_step. wp_step. by apply Hfin; [lia|..].
      + eapply pwp_lift; [apply ck32_ok; unfold INT_MIN, INT_MAX; lia|]. wp_step. apply Hfin; [lia| |].
        * rewrite <-Zminus_mod_idemp_l, Z.sub_diag. apply Z.mod_0_l. lia.
        * intros Hm1. by rewrite Hm1, Z.mod_1_r in *. }
  wp_step. destruct (o_opt g && (ls <? le)) eqn:Eo.
  - apply andb_true_iff in Eo as [Eo El]. bool_hyps. wp_step. eapply pwp_lift; [apply ck32_ok; unfold INT_MIN, INT_MAX; lia|]. wp_step.
    apply (wp_random1 n); [done|lia|lia|unfold INT_MAX; lia|]. intros v k2 Hk2 Hv. cbn [fst].
    eapply pwp_lift; [apply ck32_ok; unfold INT_MIN, INT_MAX; lia|]. apply Hrest; [done|lia..].
  - wp_step. apply Hrest; [done|lia..].
Qed.

Lemma wp_random_mode n Q E k : Inv n k →
  (∃ v, Z.min (Mintrans g) (Maxtrans g) ≤ v ≤ Z.max (Mintrans g) (Maxtrans g) ∧ v mod mult = 0) →
  (∀ o l k', Inv n k' → chosen M_RANDOM o l → Q (Some (o, l)) g k') → (∀ k', Inv n k' → mult ≠ 1 → Q None g k') →
  wp (random_ fptr mult laststart lastend) Q E g k.
Proof.
  intros Hk (w & Hw & Hwz) Hok Hno. pose proof lastend_bounds as Hend. unfold random_. fold flen. do 6 wp_step. wp_step.
  apply (wp_random n); [done|lia|lia|lia|unfold INT_MAX; lia| |intros Hn; by destruct (Hn w)].
  intros length k1 Hk1 Hl Hlz. cbn [fst].
  assert (Hrest : ∀ lo hi k2, Inv n k2 → 0 ≤ lo ≤ hi → hi + length ≤ flen →
    (o_opt g && (laststart <? lastend) = true → laststart < lo + length ∧ hi ≤ lastend) →
    wp (r ← random (if lo <? 0 then 0 else lo) hi mult;
        if r.2 : bool then sys (Say (RandomRangeFailed (if lo <? 0 then 0 else lo) hi mult));; mret None else mret (Some (r.1, length))) Q E g k2).
  { intros lo hi k2 Hk2 Hlo Hhi Hf. rewrite (proj2 (Z.ltb_ge lo 0)) by lia. wp_step.
    apply (wp_random n); [done|lia|lia|lia|unfold INT_MAX; lia| |].
    - intros v k3 Hk3 Hv Hvz. cbn [snd fst]. wp_step. apply Hok; [done|].
      split; [split; lia|]. pose proof minlength_bounds. split; [lia|]. intros _. unfold follows. simpl. intros Ho. specialize (Hf Ho). lia.
    - intros Hne. cbn [snd]. do 3 wp_step. apply Hno; [by apply Inv_say|]. intros H1.
      apply (Hne (Z.min lo hi)); [lia|]. rewrite H1. apply Z.mod_1_r. }
  wp_step. destruct (o_opt g && (laststart <? lastend)) eqn:Eo.
  - apply andb_true_iff in Eo as [Eo El]. bool_hyps.
    do 3 (wp_step; eapply pwp_lift; [apply ck32_ok; unfold INT_MIN, INT_MAX; lia|]).
    wp_step. destruct (Z.ltb_spec flen (lastend + length)).
    + eapply pwp_lift; [apply ck32_ok; unfold INT_MIN, INT_MAX; lia|]. wp_step.
      destruct (Z.ltb_spec (laststart - length + 1) 0); apply Hrest; try done; lia.
    + wp_step. wp_step. destruct (Z.ltb_spec (laststart - length + 1) 0); apply Hrest; try done; lia.
  - wp_step. eapply pwp_lift; [apply ck32_ok; unfold INT_MIN, INT_MAX; lia|]. wp_step. apply Hrest; [done|lia|lia|done].
Qed.
End modes.


(** ** Requests *)

(** What is true of a request before its magic number is set. *)
Record filled (path : cstr) (t acc fl offset length : Z) (req : cstr) : Prop := {
  fi_sized : sized req;
  fi_names : names req path;
  fi_type : req_type req = t;
  fi_oflags : req_oflags req = Z.lor acc fl;
  fi_offset : req_offset req = offset;
  fi_nbytes : req_nbytes req = length;
  fi_single : is_rw t = false → get_int req listio_req.r_nstrides = 1 ∧ get_int req listio_req.r_nent = 1 }.

Lemma filled_intro path t acc fl offset length req : sized req → names req path → get_int req r_type = t →
  get_int req (if is_rw t then read_req.r_oflags else listio_req.r_oflags) = Z.lor acc fl → get_int req listio_req.r_offset = offset →
  get_int req (if is_rw t then read_req.r_nbytes else listio_req.r_nbytes) = length →
  (is_rw t = false → get_int req listio_req.r_nstrides = 1 ∧ get_int req listio_req.r_nent = 1) → filled path t acc fl offset length req.
Proof. intros ? ? Ht **. split; unfold req_oflags, req_nbytes, req_type; rewrite ?Ht; done. Qed.

Lemma flags_in_s acc fl : acc ∈ [0; 1; 2] → fl ∈ [0; O_SYNC] → in_s 32 (Z.lor acc fl).
Proof. unfold in_s. intros Ha Hf. set_unfold. destruct_or!; subst; split; vm_compute; done. Qed.

Section fill.
Context (fptr : file_info) (flags : strmap) (pattern : ascii) (aio offset length : Z) (req : cstr).
Hypothesis Hpath : nonul (f_path fptr) ∧ zlength (f_path fptr) < MAX_FNAME_LENGTH.
Hypothesis Hoff : in_s 32 offset.
Hypothesis Hlen : in_s 32 length.
Hypothesis Hreq : sized req.
Hypothesis Hfl : m_value flags ∈ [0; O_SYNC].

Lemma fill_read_ok : get_int req r_type = READ →
  ∃ req', fill_read fptr flags aio offset length req = Ret req' ∧ filled (f_path fptr) READ O_RDONLY (m_value flags) offset length req'.
Proof.
  intros Ht. destruct (put_file_ok req (f_path fptr)) as (r1 & Hr1 & Hs1 & Hn1 & Ho1); [done|apply Hpath..|].
  unfold fill_read. rewrite Hr1, res_bind_ret. eexists. split; [done|].
  pose proof (flags_in_s O_RDONLY (m_value flags) ltac:(set_solver) Hfl) as Hfs. rewrite <-(Ho1 r_type) in Ht by (layout; lia).
  apply filled_intro; [sized|named|by members|change (is_rw READ) with true; by members|by members|change (is_rw READ) with true; by members|done].
Qed.

Lemma fill_write_ok : get_int req r_type = WRITE →
  ∃ req', fill_write fptr flags pattern aio offset length req = Ret req' ∧ filled (f_path fptr) WRITE O_WRONLY (m_value flags) offset length req'.
Proof.
  intros Ht. destruct (put_file_ok req (f_path fptr)) as (r1 & Hr1 & Hs1 & Hn1 & Ho1); [done|apply Hpath..|].
  unfold fill_write. rewrite Hr1, res_bind_ret. eexists. split; [done|].
  pose proof (flags_in_s O_WRONLY (m_value flags) ltac:(set_solver) Hfl) as Hfs. rewrite <-(Ho1 r_type) in Ht by (layout; lia).
  apply filled_intro; [sized|named|by members|change (is_rw WRITE) with true; by members|by members|change (is_rw WRITE) with true; by members|done].
Qed.

Lemma fill_io_ok t acc uflags : get_int req r_type = t → is_rw t = false → acc ∈ [0; 1; 2] →
  ∃ req', fill_io fptr (Z.lor acc (m_value flags)) uflags pattern aio offset length 1 1 req = Ret req' ∧
    filled (f_path fptr) t acc (m_value flags) offset length req'.
Proof.
  intros Ht Hrw Hacc. destruct (put_file_ok req (f_path fptr)) as (r1 & Hr1 & Hs1 & Hn1 & Ho1); [done|apply Hpath..|].
  unfold fill_io. rewrite Hr1, res_bind_ret. eexists. split; [done|].
  pose proof (flags_in_s acc (m_value flags) Hacc Hfl) as Hfs. rewrite <-(Ho1 r_type) in Ht by (layout; lia).
  assert (in_s 32 1) by done.
  apply filled_intro; [sized|named|by members|rewrite Hrw; by members|by members|rewrite Hrw; by members|intros _; split; by members].
Qed.

(** The record for each of the system calls. *)
Lemma wp_fill sc mult Q E g k : sc ∈ Syscall_Map → get_int req r_type = m_value sc →
  (∀ acc req', (m_value sc, acc) ∈ access_modes → filled (f_path fptr) (m_value sc) acc (m_value flags) offset length req' → Q (Some req') g k) →
  wp (fill sc flags fptr pattern aio mult offset length req) Q E g k.
Proof.
  intros Hsc Ht HQ.
  assert (Hio : ∀ acc uflags, is_rw (m_value sc) = false → acc ∈ [0; 1; 2] → (m_value sc, acc) ∈ access_modes →
    wp (r ← lift (fill_io fptr (Z.lor acc (m_value flags)) uflags pattern aio offset length 1 1 req); mret (Some r)) Q E g k).
  { intros acc uflags Hrw Hacc Hm. destruct (fill_io_ok (m_value sc) acc uflags Ht Hrw Hacc) as (r & Hr & Hf).
    wp_step. eapply pwp_lift; [exact Hr|]. wp_step. by eapply HQ. }
  unfold Syscall_Map in Hsc. set_unfold in Hsc. unfold fill.
  destruct_or!; subst sc; cbn [m_value m_flags] in *; decide_all.
  - destruct fill_read_ok as (r & Hr & Hf); [done|]. wp_step. eapply pwp_lift; [exact Hr|]. wp_step. by eapply HQ; [|exact Hf]; left.
  - destruct fill_write_ok as (r & Hr & Hf); [done|]. wp_step. eapply pwp_lift; [exact Hr|]. wp_step. eapply HQ; [|exact Hf]. right. by left.
  - apply (Hio 0); [reflexivity|decide_mem..].
  - apply (Hio 1); [reflexivity|decide_mem..].
  - apply (Hio 0); [reflexivity|decide_mem..].
  - apply (Hio 2); [reflexivity|decide_mem..].
  - apply (Hio 1); [reflexivity|decide_mem..].
  - apply (Hio 1); [reflexivity|decide_mem..].
Qed.
End fill.

Lemma flag_values flags : flags ∈ Flag_Map → m_flags flags = 0 ∧ m_value flags ∈ [0; O_SYNC].
Proof. unfold Flag_Map. rewrite !elem_of_cons, elem_of_nil. intros [->|[->|[]]]; (split; [done|decide_mem]). Qed.

Lemma call_flags sc : sc ∈ Syscall_Map → Z.land (m_flags sc) SY_ASYNC =? 0 = true ∧ in_s 32 (m_value sc).
Proof.
  unfold Syscall_Map. rewrite !elem_of_cons, elem_of_nil. intros H. destruct_or!; try done; subst; by vm_compute.
Qed.

(** The place in the file, in each of the modes. *)
Lemma wp_place n g f mode Q E k : Inv n k → 0 ≤ Mintrans g → 1 ≤ Maxtrans g → file_ok g f → mode ∈ Omode_Map →
  (∀ o l k', Inv n k' → chosen g f 1 (m_value mode) o l → Q (Some (o, l)) g k') →
  wp (if m_value mode =? M_SEQUENTIAL then
        sequential f 1 (if 1 <? Mintrans g then Mintrans g else 1) (f_lastoffset f) (f_lastoffset f + f_lastlength f - 1)
      else if m_value mode =? M_REVERSE then
        reverse_ f 1 (if 1 <? Mintrans g then Mintrans g else 1) (f_lastoffset f) (f_lastoffset f + f_lastlength f - 1)
      else if m_value mode =? M_RANDOM then random_ f 1 (f_lastoffset f) (f_lastoffset f + f_lastlength f - 1)
      else mret (Some (0, 0))) Q E g k.
Proof.
  intros Hk Hmin Hmax [Hp Hi [Hl1 Hl2] Hla] Hm HQ. unfold Omode_Map in Hm. rewrite !elem_of_cons, elem_of_nil in Hm.
  destruct Hm as [->|[->|[->|[]]]]; cbn [m_value] in *.
  - apply (wp_random_mode g f 1) with (n := n); [lia..|done| |done|done]. exists (Z.min (Mintrans g) (Maxtrans g)). split; [lia|apply Z.mod_1_r].
  - apply (wp_sequential g f 1) with (n := n); [lia..|done|done|done].
  - apply (wp_reverse g f 1) with (n := n); [lia..|done|done|done].
Qed.

(** What form_iorequest does: it picks a file and a place in it, notes the place, and fills
    in the request. *)
Record formed (g g' : iogen) (i : nat) (f : file_info) (req : cstr) : Prop := {
  fm_file : File_List g !! i = Some f;
  fm_state : g' = set_File_List (alter (set_last (req_offset req) (req_nbytes req)) i (File_List g)) g;
  fm_place : place_ok (f_length f) 1 (req_offset req) (req_nbytes req);
  fm_trans : Z.min (Mintrans g) (Maxtrans g) ≤ req_nbytes req ≤ Z.max 1 (Z.max (Mintrans g) (Maxtrans g));
  fm_follows : follows (from_option m_value 0 (Offset_Mode g)) (o_opt g) (Z.max 1 (Mintrans g)) (Maxtrans g) (f_length f)
    (f_lastoffset f) (f_lastoffset f + f_lastlength f - 1) (req_offset req) (req_nbytes req);
  fm_filled : ∃ acc fl, (req_type req, acc) ∈ access_modes ∧ fl ∈ [0; O_SYNC] ∧
    filled (f_path f) (req_type req) acc fl (req_offset req) (req_nbytes req) req }.

Lemma wp_form n req Q E g k : gen_ok g → Inv n k → sized req →
  (∀ i f req' g' k', Inv n k' → formed g g' i f req' → Q (Some req') g' k') →
  wp (form_iorequest req) Q E g k.
Proof.
  intros Hg Hk Hreq HQ. destruct (go_calls g Hg) as (Hc1 & Hc2 & Hc3). destruct (go_flags g Hg) as (Hf1 & Hf2 & Hf3).
  destruct (go_files g Hg) as (Hl1 & Hl2 & Hl3). destruct (go_mode g Hg) as (mode & Hmode & Hmm). destruct (go_trans g Hg) as [Ht1 Ht2].
  unfold form_iorequest. do 2 wp_step. wp_step. apply (wp_pick n); [done..|lia|]. intros sc k1 Hk1 Hsc. apply Hc2 in Hsc.
  wp_step.
  assert (Hpat : ∀ Q', (∀ c k2, Inv n k2 → Q' c g k2) →
    wp (if negb (Z.land (m_flags sc) SY_WRITE =? 0) then pick Byte_Patterns else mret NUL) Q' E g k1).
  { intros Q' HQ'. case_if; [|wp_step; by apply HQ']. apply (wp_pick n); [done..|]. intros c k2 Hk2 _. by apply HQ'. }
  apply Hpat. intros c k2 Hk2. do 2 wp_step. wp_step.
  assert (0 < zlength (File_List g)) by (destruct (File_List g); [done|simpl; lia]).
  apply (wp_random1 n); [done|lia|lia|unfold INT_MAX; lia|]. intros i k3 Hk3 Hi. cbn [fst].
  destruct (lookup_lt_is_Some_2 (File_List g) (Z.to_nat i)) as [f Hf]; [lia|]. pose proof (Forall_lookup_1 _ _ _ _ Hl2 Hf) as Hfo.
  wp_step. eapply pwp_lift; [apply mem_get_lookup; [lia|exact Hf]|]. do 2 wp_step. wp_step.
  apply (wp_pick n); [done..|lia|]. intros flags k4 Hk4 Hflag. apply Hf2 in Hflag.
  destruct (flag_values flags Hflag) as [Hfl0 Hflv]. rewrite Hfl0. change (negb (Z.land 0 FLG_RAW =? 0)) with false. rewrite andb_false_r. rewrite (fo_iou g f Hfo).
  destruct (fo_length g f Hfo) as [Hlen1 Hlen2]. destruct (fo_last g f Hfo) as (Hla1 & Hla2 & Hla3).
  do 2 (wp_step; eapply pwp_lift; [apply ck32_ok; unfold INT_MIN, INT_MAX; lia|]). do 2 wp_step. do 2 wp_step. rewrite Hmode. wp_step.
  apply (wp_place n); [done..|]. intros o l k5 Hk5 (Hpl & Hll & Hfo'). do 2 wp_step. do 2 wp_step. wp_step.
  destruct (call_flags sc Hsc) as [Hsy Hsr]. rewrite Hsy. cbn [negb]. wp_step.
  assert (Hn : f_length f < 2 ^ 31) by lia.
  apply wp_fill; [apply (fo_path g f Hfo)|destruct Hpl; unfold in_s; simpl; lia..|sized|done|done| |].
  { apply get_put_int_same; [done|layout; lia..|done]. }
  intros acc req' Hacc Hfd. apply (HQ (Z.to_nat i) f); [done|]. pose proof Hfd as [F1 F2 F3 F4 F5 F6 F7].
  split; rewrite ?F3, ?F5, ?F6; [done|done|done| | |by exists acc, (m_value flags)].
  { destruct (Z.ltb_spec 1 (Mintrans g)); lia. }
  rewrite Hmode. by apply Hfo'.
Qed.

Lemma gen_ok_iterations g n : gen_ok g → gen_ok (set_Iterations n g).
Proof.
  intros [H1 H2 (L1 & L2 & L3) H4 H5]. split; try done. split_and!; [done| |done].
  eapply Forall_impl; [exact L2|]. intros f [A1 A2 A3 A4]. by split.
Qed.

(** A step keeps the state as it should be. *)
Lemma formed_gen_ok g g' i f req : gen_ok g → formed g g' i f req → gen_ok g' ∧ files_of g' = files_of g ∧ Iterations g' = Iterations g ∧ Time_Mode g' = Time_Mode g.
Proof.
  intros [H1 H2 (L1 & L2 & L3) H4 H5] [F1 -> [P1 P2 P3 _ _] _ _ _]. split_and!; [split; try done|..|done|done].
  - split_and!.
    + simpl. intros Hnil. apply L1. apply (f_equal length) in Hnil. rewrite length_alter in Hnil. by destruct (File_List g).
    + simpl. apply Forall_lookup_2. intros j x Hx. destruct (decide (i = j)) as [<-|Hne].
      * rewrite list_lookup_alter_eq, F1 in Hx. simplify_eq/=. destruct (Forall_lookup_1 _ _ _ _ L2 F1) as [A1 A2 A3 A4]. by split.
      * rewrite list_lookup_alter_ne in Hx by done. destruct (Forall_lookup_1 _ _ _ _ L2 Hx) as [A1 A2 A3 A4]. by split.
    + simpl. by rewrite length_alter.
  - unfold files_of. simpl. apply list_eq. intros j. rewrite !list_lookup_fmap.
    destruct (decide (i = j)) as [<-|Hne]; [rewrite list_lookup_alter_eq, F1; done|by rewrite list_lookup_alter_ne].
Qed.

Lemma formed_request_ok g g' i f req : gen_ok g → formed g g' i f req → request_ok (f_path f) (f_length f) (put_int r_magic DOIO_MAGIC req).
Proof.
  intros Hg [F1 _ [P1 P2 P3 _ _] _ _ (acc & fl & Hacc & Hfl & [S1 S2 S3 S4 S5 S6 S7])].
  assert (Ht : req_type (put_int r_magic DOIO_MAGIC req) = req_type req) by (unfold req_type; by members).
  split; [sized|by members|named|..].
  - exists acc. unfold req_oflags. rewrite Ht. split; [done|]. fold (req_oflags req).
    assert (Ho : get_int (put_int r_magic DOIO_MAGIC req) (if is_rw (req_type req) then read_req.r_oflags else listio_req.r_oflags) = req_oflags req)
      by (unfold req_oflags; destruct (is_rw _); by members).
    rewrite Ho, S4. rewrite !elem_of_cons, elem_of_nil in Hfl. destruct Hfl as [->|[->|[]]]; [left; apply Z.lor_0_r|by right].
  - assert (Hn : req_nbytes (put_int r_magic DOIO_MAGIC req) = req_nbytes req)
      by (unfold req_nbytes; rewrite Ht; destruct (is_rw _); by members).
    assert (Ho : req_offset (put_int r_magic DOIO_MAGIC req) = req_offset req) by (unfold req_offset; by members).
    rewrite Hn, Ho. lia.
  - rewrite Ht. intros Hrw. destruct (S7 Hrw). split; by members.
Qed.

(** ** The loop *)

Context (files : list (cstr * Z)).
Definition good (d : cstr) : Prop := ∃ path flen, (path, flen) ∈ files ∧ request_ok path flen d.
Hypothesis Inv_write : ∀ n k fd d, Inv n k → good d → Inv (S n) (reply (Write fd d) k).2.

Lemma wp_generate n outfd Q E g k : gen_ok g → files_of g = files → Inv n k →
  (∀ g' k', gen_ok g' → files_of g' = files → Iterations g' = Iterations g → Time_Mode g' = Time_Mode g → Inv (S n) k' → Q () g' k') →
  wp (generate outfd) Q E g k.
Proof.
  intros Hg Hfiles Hk HQ. unfold generate. wp_step. apply (wp_form n); [done..|].
  intros i f req g' k' Hk' Hf. destruct (formed_gen_ok _ _ _ _ _ Hg Hf) as (Hg' & Hfs & Hit & Htm).
  assert (Hgood : good (put_int r_magic DOIO_MAGIC req)).
  { exists (f_path f), (f_length f). split; [|exact (formed_request_ok _ _ _ _ _ Hg Hf)]. rewrite <-Hfiles. unfold files_of.
    apply (list_elem_of_fmap_2' _ _ f); [|done]. eapply list_elem_of_lookup_2, fm_file, Hf. }
  wp_step. wp_step. pose proof (Inv_write n k' outfd _ Hk' Hgood) as Hk2.
  destruct (reply (Write outfd _) k').1; [wp_step; destruct (reply (Say _) _).1 eqn:Hu; apply HQ; [done|by rewrite Hfs|done|done|by apply Inv_say]|wp_step].
  apply HQ; [done|by rewrite Hfs|done..].
Qed.

Lemma wp_main_loop n m outfd start_time now Q E g k : gen_ok g → files_of g = files → Inv n k →
  Time_Mode g = false → Iterations g = Z.of_nat m →
  (∀ g' k', gen_ok g' → files_of g' = files → Inv (n + m) k' → Q () g' k') →
  wp (main_loop (S m) outfd start_time now false) Q E g k.
Proof.
  revert n now g k. induction m as [|m IH]; intros n now g k Hg Hfiles Hk Htm Hit HQ.
  - cbn [main_loop]. do 5 wp_step. rewrite Htm, Hit. cbn [when negb andb orb]. wp_step. change (Z.of_nat 0 =? 0) with true. cbn [negb orb]. wp_step.
    apply HQ; [by apply gen_ok_iterations|done|by rewrite Nat.add_0_r].
  - cbn [main_loop]. do 5 wp_step. rewrite Htm, Hit. cbn [when negb andb orb]. wp_step.
    change (Z.of_nat (S m) =? 0) with false. cbn [negb andb orb]. do 3 wp_step.
    apply (wp_generate n); [by apply gen_ok_iterations|done|by apply Inv_time|]. intros g' k' Hg' Hf' Hit' Htm' Hk'. cbn in Hit', Htm'.
    apply (IH (S n)); [done..|by rewrite Htm'|rewrite Hit'; lia|]. intros g2 k2 Hg2 Hf2 Hk2. apply HQ; [done..|by rewrite <-plus_n_Sm].
Qed.
End generator.

(** ** The requests that are written *)

(** A system with a record of what has been written: no other call changes it, and
    [lrand48] gives 31 bits. *)
Class Recorder (Σ : Type) `{!System call Σ} := {
  written : Σ → list cstr;
  rec_rand : ∀ k, 0 ≤ (reply Lrand48 k).1 < 2 ^ 31 ∧ written (reply Lrand48 k).2 = written k;
  rec_time : ∀ k, written (reply Gettimeofday k).2 = written k;
  rec_say : ∀ k m, written (reply (Say m) k).2 = written k;
  rec_write : ∀ k fd d, written (reply (Write fd d) k).2 = written k ++ [d] }.

Section requests.
Context {Σ : Type} `{!System call Σ} `{!Recorder Σ}.

Lemma wp_requests n outfd start_time now g (k : Σ) :
  gen_ok g → Time_Mode g = false → Iterations g = Z.of_nat n →
  wp (main_loop (S n) outfd start_time now false) (λ _ g' k', ∃ reqs,
    written k' = written k ++ reqs ∧ length reqs = n ∧ Forall (good (files_of g)) reqs ∧ gen_ok g' ∧ files_of g' = files_of g)
    (λ _ _ _, False) g k.
Proof.
  intros Hg Htm Hn.
  apply (wp_main_loop (λ i k', ∃ reqs, written k' = written k ++ reqs ∧ length reqs = i ∧ Forall (good (files_of g)) reqs)) with (files := files_of g) (n := 0%nat).
  - intros i k' H. destruct (rec_rand k') as [Hr Hw]. by rewrite Hw.
  - intros i k' H. by rewrite rec_time.
  - intros i k' m H. by rewrite rec_say.
  - intros i k' fd d (reqs & Hw & Hl & Hall) Hd. exists (reqs ++ [d]). rewrite rec_write, Hw, length_app, Hl, Forall_app, <-app_assoc.
    split_and!; [done|simpl; lia|done|by constructor].
  - done.
  - done.
  - exists []. by rewrite app_nil_r.
  - done.
  - done.
  - intros g' k' Hg' Hf (reqs & Hw & Hl & Hall). by exists reqs.
Qed.

(** C24: the loop of main ends after as many turns as asked for, with that many requests written to
    the pipe; each of them has the magic number, names one of the files and is for a
    transfer inside of that file, opened as its call needs it. *)
Theorem requests_in_file n outfd start_time now g (k : Σ) :
  gen_ok g → Time_Mode g = false → Iterations g = Z.of_nat n →
  wp (main_loop (S n) outfd start_time now false) (λ _ g' k', ∃ reqs,
    written k' = written k ++ reqs ∧ length reqs = n ∧ Forall (good (files_of g)) reqs ∧ gen_ok g' ∧ files_of g' = files_of g)
    (λ _ _ _, False) g k.
Proof. apply wp_requests. Qed.

(** C27: a request that form_iorequest makes is for one of the files; its transfer is inside of
    it, of a length that -t and -T allow (a length of one byte excepted), and follows the
    transfer that the file had before as -m and -o say ([follows]): it starts anew at the
    other end of the file exactly when too little room is left.  The place is noted in the
    file's entry and nothing else changes. *)
Theorem request_follows req g (k : Σ) : gen_ok g → sized req →
  wp (form_iorequest req) (λ r g' k', written k' = written k ∧ ∃ req' i f, r = Some req' ∧ formed g g' i f req') (λ _ _ _, False) g k.
Proof.
  intros Hg Hs. apply (wp_form (λ _ k', written k' = written k)) with (n := 0%nat); [..|done|done|done|].
  - intros i k' H. destruct (rec_rand k') as [Hr Hw]. by rewrite Hw.
  - intros i k' H. by rewrite rec_time.
  - intros i k' m H. by rewrite rec_say.
  - intros i f req' g' k' Hw Hf. split; [done|]. by exists req', i, f.
Qed.
End requests.

(** ** A system to run on *)

(** The state of [lrand48], the files with their lengths, and what has been written. *)
Record sim : Type := Sim { sim_seed : Z; sim_files : list (cstr * Z); sim_out : list cstr }.

#[global] Instance sim_system : System call sim := λ R c k,
  match c in call R return R * sim with
  | Lrand48 => let s := (sim_seed k * 25214903917 + 11) mod 2 ^ 48 in (s / 2 ^ 17, Sim s (sim_files k) (sim_out k))
  | Gettimeofday => (0, k)
  | Stat path => (match list_find (λ x, x.1 = path) (sim_files k) with Some (_, (_, n)) => inr (S_IFREG, n) | None => inl ENOENT end, k)
  | Open _ _ _ => (inr 3, k)
  | Ftruncate _ _ => (inr (), k)
  | Lseek _ off => (inr off, k)
  | Write _ d => (inr (zlength d), Sim (sim_seed k) (sim_files k) (sim_out k ++ [d]))
  | Fstat _ => (inl ENOENT, k)
  | Close _ => ((), k)
  | Access path => (if bool_decide (path ∈ (sim_files k).*1) then inr () else inl ENOENT, k)
  | Getcwd _ => (inr (str "/tmp"), k)
  | Mkfifo _ _ => (inr (), k)
  | Say _ => ((), k)
  end.

#[global] Program Instance sim_recorder : Recorder sim := {| written := sim_out |}.
Next Obligation.
  intros k. cbn. split; [|done]. pose proof (Z.mod_pos_bound (sim_seed k * 25214903917 + 11) (2 ^ 48) ltac:(lia)).
  split; [apply Z.div_pos; lia|apply Z.div_lt_upper_bound; lia].
Qed.
Next Obligation. done. Qed.
Next Obligation. done. Qed.
Next Obligation. done. Qed.

Definition sim0 : sim := Sim 1 [(str "/tmp/a", 4096)] [].
(** iogen -i 3 -m random -s read,mmwrite -t 1 -T 100 /tmp/a *)
Definition options : list (ascii * cstr) :=
  [("i", str "3"); ("m", str "random"); ("s", str "read,mmwrite"); ("t", str "1"); ("T", str "100")]%char.
Definition ready : iogen :=
  Iogen false true true false true true true false false false (Some (Strmap "random" M_RANDOM 0)) 3 false None 1 100 0 1 255 0 2 []
    Flag_Map [Strmap "read" READ 0; Strmap "mmwrite" MMAPW SY_WRITE] Aio_Strat_Map
    [FileInfo (str "/tmp/a") 4096 1 512 0 0 S_IFREG 2048 0].
Definition summary (req : cstr) : Z * Z * Z := (req_type req, req_offset req, req_nbytes req).

Example options_parsed : parse_cmdline NUL options [str "/tmp/a"] start sim0 = Ret (Val (), ready, sim0).
Proof. vm_compute. reflexivity. Qed.

Example iogen_run : match main 5 NUL options [str "/tmp/a"] start sim0 with
  | Ret (Exit n, _, k) => (n, summary <$> written k) = (0, [(READ, 3615, 21); (READ, 3369, 53); (MMAPW, 1421, 20)])
  | _ => False
  end.
Proof. vm_compute. reflexivity. Qed.

Lemma ready_ok : gen_ok ready.
Proof.
  split.
  - split_and!; [done| |by vm_compute]. intros x. cbn [ready Syscall_List]. unfold Syscall_Map. rewrite !elem_of_cons. tauto.
  - split_and!; [done|done|by vm_compute].
  - split_and!; [done| |by vm_compute]. constructor; [|constructor].
    split; [|done|by vm_compute..]. split; [repeat constructor|by vm_compute].
  - eexists. split; [reflexivity|by left].
  - by vm_compute.
Qed.

Lemma requests_in_file_witness : gen_ok ready ∧ Iterations ready = 3 ∧
  wp (main_loop (Σ := sim) 4 1 0 0 false) (λ _ g' k', ∃ reqs,
    written k' = written sim0 ++ reqs ∧ length reqs = 3%nat ∧ Forall (good (files_of ready)) reqs ∧ gen_ok g' ∧ files_of g' = files_of ready)
    (λ _ _ _, False) ready sim0.
Proof. split; [apply ready_ok|]. split; [done|]. exact (requests_in_file 3 1 0 0 ready sim0 ready_ok eq_refl eq_refl). Defined.

Lemma request_follows_witness : gen_ok ready ∧ wp (form_iorequest (Σ := sim) (replicate 184 NUL))
  (λ r g' k', written k' = written sim0 ∧ ∃ req' i f, r = Some req' ∧ formed ready g' i f req') (λ _ _ _, False) ready sim0.
Proof. split; [apply ready_ok|]. apply (request_follows (replicate 184 NUL) ready sim0); [apply ready_ok|done]. Defined.
