(* ===== verification/Doio.v ===== *)
(** * The program that carries out requests: testcases/kernel/fs/doio/doio.c, the operations

    The program for Linux (the code for other systems is not compiled there), up to the
    function for each type of request; DoioMain.v has the loop and the command line.
    Memory that is reached through pointers (the buffers, files that are mapped) belongs
    to the system: a pointer is an address, and reading or writing at it is a call that
    may raise a signal.  What is printed is kept as the kind of the message with its
    values; the functions that only make text for messages (format_rw, fmt_ioreq,
    fmt_readv, hms) are left out, but for what they do besides. *)

From S2P Require Import Prelude CInt CMem CString Pattern RandomRange OpenFlags WriteLog CProg IoReq.
Local Open Scope Z_scope.

Definition NMEMALLOC : Z := 32.
Definition MEM_DATA : Z := 1.
Definition MEM_SHMEM : Z := 2.
Definition MEM_MMAP : Z := 4.
Definition MEMF_PRIVATE : Z := 1.
Definition MEMF_AUTORESRV : Z := 2.
Definition MEMF_LOCAL : Z := 4.
Definition MEMF_SHARED : Z := 8.
Definition MEMF_FIXADDR : Z := 64.
Definition MEMF_ADDR : Z := 128.
Definition MEMF_AUTOGROW : Z := 256.
Definition MEMF_FILE : Z := 512.
Definition MEMF_MPIN : Z := 4096.

Definition SKIP_REQ : Z := -2.
Definition FD_ALLOC_INCR : Z := 32.
(** [sizeof(struct fd_cache)] *)
Definition sizeof_fd_cache : Z := 168.
Definition MAX_AIO : Z := 256.
(** [wtob(1)] *)
Definition wtob1 : Z := 8.
Definition U_CORRUPTION : Z := 1.
Definition U_IOSW : Z := 2.
Definition U_RVAL : Z := 4.
Definition U_ALL : Z := 7.

Definition EMFILE : Z := 24.
Definition MAP_SHARED : Z := 1.
Definition MAP_PRIVATE : Z := 2.
Definition PROT_READ : Z := 1.
Definition PROT_WRITE : Z := 2.
Definition F_WRLCK : Z := 1.
Definition F_UNLCK : Z := 2.
Definition IPC_PRIVATE : Z := 0.
Definition IPC_CREAT : Z := 512.
Definition SHM_RND : Z := 8192.

(** The flags of the entries of [syscalls]. *)
Definition SY_WRITE : Z := 1.

(** ** System calls *)

(** What check_file finds; the last one with the message of doio_pat_check. *)
Inductive complaint : Type :=
| CannotOpen
| CannotSeek
| CannotRead
| WrongCount (nb : Z)
| Differs (msg : cstr).

(** What doio_fprintf is called with. *)
Inductive note : Type :=
| SeekFailed (fd offset : Z)
| ReadFailed (req : cstr) (fd : Z)
| ReadShort (req : cstr) (fd nbytes rval : Z)
| WriteFailed (req : cstr) (fd : Z)
| WriteShort (req : cstr) (fd nbytes rval : Z)
| CallFailed (req : cstr) (fd : Z)
| CallShort (req : cstr) (fd nbytes rval : Z)
| LogFailed
| LockFailed (fd type start nbytes : Z)
| FileLockFailed (req : cstr) (fd min_byte max_byte : Z)
| TooManyEntries (nents : Z)
| UnknownRw (type : Z)
| NoMemory (nbytes : Z)
| FstatFailed (errno : Z)
| MmapFailed (errno : Z)
| BufferOpenFailed (errno : Z) (name : cstr)
| BufferMapFailed (errno size flags : Z)
| ShmgetFailed (key size errno : Z)
| ShmatFailed (shmid errno : Z)
| UnknownSpace (memtype index : Z)
| OpenFailed (file : option cstr) (oflags errno : Z)
| NoCache
| Miscompare (msg : complaint)
| UpanicFailed
| Terminating (sig : Z)
| ParentGone
| InputFailed (errno : Z)
| InputShort (nbytes : Z)
| BadMagic (magic : Z)
| UnknownType (type : Z)
| Returned (type : Z)
| Progress (reqno skipped : Z)
| NoLog
| NoInput (file : cstr)
| ForkFailed (n errno : Z)
| ExecFailed (errno : Z)
| ChildInternal (pid : Z)
| ChildSetup (pid : Z)
| ChildCompare (pid : Z)
| ChildUsage (pid : Z)
| ChildUnknown (pid status : Z)
| ChildSignal (pid sig : Z)
| BadOption (opt : ascii) (arg : cstr)
| Usage
| Help
| TooManyMemory (n : Z)
| UnknownMemory (arg : cstr)
| ExtraDelay.

(** The actions that are installed for signals. *)
Inductive action : Type := Default | Ignore | Cleanup | Die | Sigbus | Noop | Sigint | Old (id : Z).

(** An access to memory: SIGBUS for a page of a mapping that its file does not have. *)
Inductive access (A : Type) : Type := Done (a : A) | Bus | Segv.
Arguments Done {A} a.
Arguments Bus {A}.
Arguments Segv {A}.

(** A sum is an error number or the result. *)
Inductive call : Set → Type :=
| Getpid : call Z
| Getppid : call Z
(** The bytes of the array. *)
| Gethostname (len : Z) : call cstr
| Open (path : option cstr) (flags mode : Z) : call (Z + Z)
| Close (fd : Z) : call unit
| Unlink (path : cstr) : call unit
| Lseek (fd off : Z) : call (Z + Z)
| Read (fd addr n : Z) : call (Z + Z)
| Write (fd addr n : Z) : call (Z + Z)
| Readv (fd addr n : Z) : call (Z + Z)
| Writev (fd addr n : Z) : call (Z + Z)
| SetLkw (fd type start len : Z) : call (Z + unit)
| Fsync (fd : Z) : call (Z + unit)
| Fdatasync (fd : Z) : call (Z + unit)
(** The size. *)
| Fstat (fd : Z) : call (Z + Z)
| Mmap (len prot flags fd : Z) : call (Z + Z)
| Munmap (addr len : Z) : call unit
| Msync (addr len : Z) : call unit
(** The buffers; [More] is for small structures, whose memory is not modelled. *)
| Malloc (n : Z) : call (option Z)
| Free (addr : Z) : call unit
| More (n : Z) : call bool
| Shmget (key size flags : Z) : call (Z + Z)
| Shmat (shmid flags : Z) : call (Z + Z)
| Shmdt (addr : Z) : call unit
| Shmctl_rmid (shmid : Z) : call unit
| Peek (addr n : Z) : call (access cstr)
| Poke (addr : Z) (d : cstr) : call (access unit)
| Lrand48 : call Z
| Srand48 (seed : Z) : call unit
(** The next bytes of the input. *)
| ReadIn (fd n : Z) : call (Z + cstr)
(** What a record on the stack holds; and for the log whether calls work, what the
    buffer on the stack holds, and the file. *)
| Stack : call wlog_rec
| LogState : call (wlog_env * list Z * option (list Z))
| LogSet (file : option (list Z)) : call unit
| Umask (mask : Z) : call unit
| Sigaction (sig : Z) (act : action) : call unit
| Sigblock (sig : Z) : call unit
| Select (sec usec : Z) : call unit
| Sleep (sec : Z) : call unit
| Alarm (sec : Z) : call unit
| Sigsuspend : call unit
| Kill (pid sig : Z) : call unit
| Fork : call (Z + Z)
| Execvp (path : cstr) : call (Z + unit)
| Wait : call (Z + Z * Z)
| Say (m : note) : call unit.

(** ** Data *)

Record memalloc : Type := Mem {
  m_memtype : Z; m_flags : Z; m_nblks : Z; m_name : option cstr; m_space : Z; m_fd : Z; m_size : Z }.

Definition set_m_memtype (x : Z) (m : memalloc) : memalloc :=
  Mem x (m_flags m) (m_nblks m) (m_name m) (m_space m) (m_fd m) (m_size m).
Definition set_m_flags (x : Z) (m : memalloc) : memalloc :=
  Mem (m_memtype m) x (m_nblks m) (m_name m) (m_space m) (m_fd m) (m_size m).
Definition set_m_nblks (x : Z) (m : memalloc) : memalloc :=
  Mem (m_memtype m) (m_flags m) x (m_name m) (m_space m) (m_fd m) (m_size m).
Definition set_m_name (x : option cstr) (m : memalloc) : memalloc :=
  Mem (m_memtype m) (m_flags m) (m_nblks m) x (m_space m) (m_fd m) (m_size m).
Definition set_m_space (x : Z) (m : memalloc) : memalloc :=
  Mem (m_memtype m) (m_flags m) (m_nblks m) (m_name m) x (m_fd m) (m_size m).
Definition set_m_fd (x : Z) (m : memalloc) : memalloc :=
  Mem (m_memtype m) (m_flags m) (m_nblks m) (m_name m) (m_space m) x (m_size m).
Definition set_m_size (x : Z) (m : memalloc) : memalloc :=
  Mem (m_memtype m) (m_flags m) (m_nblks m) (m_name m) (m_space m) (m_fd m) x.

Definition no_memalloc : memalloc := Mem 0 0 0 None 0 0 0.

(** A slot that has not been used has an indeterminate address. *)
Inductive pointer : Type := Indet | Addr (a : Z).

Record fd_cache : Type := Slot {
  c_file : cstr; c_oflags : Z; c_fd : Z; c_rtc : Z; c_memaddr : pointer; c_memlen : Z }.

Definition set_c_file (x : cstr) (s : fd_cache) : fd_cache :=
  Slot x (c_oflags s) (c_fd s) (c_rtc s) (c_memaddr s) (c_memlen s).
Definition set_c_oflags (x : Z) (s : fd_cache) : fd_cache :=
  Slot (c_file s) x (c_fd s) (c_rtc s) (c_memaddr s) (c_memlen s).
Definition set_c_fd (x : Z) (s : fd_cache) : fd_cache :=
  Slot (c_file s) (c_oflags s) x (c_rtc s) (c_memaddr s) (c_memlen s).
Definition set_c_rtc (x : Z) (s : fd_cache) : fd_cache :=
  Slot (c_file s) (c_oflags s) (c_fd s) x (c_memaddr s) (c_memlen s).
Definition set_c_memaddr (x : pointer) (s : fd_cache) : fd_cache :=
  Slot (c_file s) (c_oflags s) (c_fd s) (c_rtc s) x (c_memlen s).
Definition set_c_memlen (x : Z) (s : fd_cache) : fd_cache :=
  Slot (c_file s) (c_oflags s) (c_fd s) (c_rtc s) (c_memaddr s) x.

(** Slots that were just allocated. *)
Definition new_slot : fd_cache := Slot [] 0 (-1) 0 Indet 0.

(** Set by parse_cmdline. *)
Record options : Type := Options {
  a_opt : bool; e_opt : bool; C_opt : bool; k_opt : bool; m_opt : bool; n_opt : bool; r_opt : bool; w_opt : bool; v_opt : bool; U_opt :
  bool; V_opt : bool; M_opt : bool; TagName : cstr; Prog : cstr; Upanic_Conditions : Z; Release_Interval : Z; Nprocs : Z; Write_Log : option
  cstr; Infile : option cstr; Execd : bool; Message_Interval : Z; Validation_Flags : Z; delayop : Z; delaytime : Z }.

Definition set_a_opt (x : bool) (o : options) : options :=
  Options x (e_opt o) (C_opt o) (k_opt o) (m_opt o) (n_opt o) (r_opt o) (w_opt o) (v_opt o) (U_opt o) (V_opt o) (M_opt o) (TagName o) (Prog o)
    (Upanic_Conditions o) (Release_Interval o) (Nprocs o) (Write_Log o) (Infile o) (Execd o) (Message_Interval o) (Validation_Flags o) (delayop o)
    (delaytime o).
Definition set_e_opt (x : bool) (o : options) : options :=
  Options (a_opt o) x (C_opt o) (k_opt o) (m_opt o) (n_opt o) (r_opt o) (w_opt o) (v_opt o) (U_opt o) (V_opt o) (M_opt o) (TagName o) (Prog o)
    (Upanic_Conditions o) (Release_Interval o) (Nprocs o) (Write_Log o) (Infile o) (Execd o) (Message_Interval o) (Validation_Flags o) (delayop o)
    (delaytime o).
Definition set_C_opt (x : bool) (o : options) : options :=
  Options (a_opt o) (e_opt o) x (k_opt o) (m_opt o) (n_opt o) (r_opt o) (w_opt o) (v_opt o) (U_opt o) (V_opt o) (M_opt o) (TagName o) (Prog o)
    (Upanic_Conditions o) (Release_Interval o) (Nprocs o) (Write_Log o) (Infile o) (Execd o) (Message_Interval o) (Validation_Flags o) (delayop o)
    (delaytime o).
Definition set_k_opt (x : bool) (o : options) : options :=
  Options (a_opt o) (e_opt o) (C_opt o) x (m_opt o) (n_opt o) (r_opt o) (w_opt o) (v_opt o) (U_opt o) (V_opt o) (M_opt o) (TagName o) (Prog o)
    (Upanic_Conditions o) (Release_Interval o) (Nprocs o) (Write_Log o) (Infile o) (Execd o) (Message_Interval o) (Validation_Flags o) (delayop o)
    (delaytime o).
Definition set_m_opt (x : bool) (o : options) : options :=
  Options (a_opt o) (e_opt o) (C_opt o) (k_opt o) x (n_opt o) (r_opt o) (w_opt o) (v_opt o) (U_opt o) (V_opt o) (M_opt o) (TagName o) (Prog o)
    (Upanic_Conditions o) (Release_Interval o) (Nprocs o) (Write_Log o) (Infile o) (Execd o) (Message_Interval o) (Validation_Flags o) (delayop o)
    (delaytime o).
Definition set_n_opt (x : bool) (o : options) : options :=
  Options (a_opt o) (e_opt o) (C_opt o) (k_opt o) (m_opt o) x (r_opt o) (w_opt o) (v_opt o) (U_opt o) (V_opt o) (M_opt o) (TagName o) (Prog o)
    (Upanic_Conditions o) (Release_Interval o) (Nprocs o) (Write_Log o) (Infile o) (Execd o) (Message_Interval o) (Validation_Flags o) (delayop o)
    (delaytime o).
Definition set_r_opt (x : bool) (o : options) : options :=
  Options (a_opt o) (e_opt o) (C_opt o) (k_opt o) (m_opt o) (n_opt o) x (w_opt o) (v_opt o) (U_opt o) (V_opt o) (M_opt o) (TagName o) (Prog o)
    (Upanic_Conditions o) (Release_Interval o) (Nprocs o) (Write_Log o) (Infile o) (Execd o) (Message_Interval o) (Validation_Flags o) (delayop o)
    (delaytime o).
Definition set_w_opt (x : bool) (o : options) : options :=
  Options (a_opt o) (e_opt o) (C_opt o) (k_opt o) (m_opt o) (n_opt o) (r_opt o) x (v_opt o) (U_opt o) (V_opt o) (M_opt o) (TagName o) (Prog o)
    (Upanic_Conditions o) (Release_Interval o) (Nprocs o) (Write_Log o) (Infile o) (Execd o) (Message_Interval o) (Validation_Flags o) (delayop o)
    (delaytime o).
Definition set_v_opt (x : bool) (o : options) : options :=
  Options (a_opt o) (e_opt o) (C_opt o) (k_opt o) (m_opt o) (n_opt o) (r_opt o) (w_opt o) x (U_opt o) (V_opt o) (M_opt o) (TagName o) (Prog o)
    (Upanic_Conditions o) (Release_Interval o) (Nprocs o) (Write_Log o) (Infile o) (Execd o) (Message_Interval o) (Validation_Flags o) (delayop o)
    (delaytime o).
Definition set_U_opt (x : bool) (o : options) : options :=
  Options (a_opt o) (e_opt o) (C_opt o) (k_opt o) (m_opt o) (n_opt o) (r_opt o) (w_opt o) (v_opt o) x (V_opt o) (M_opt o) (TagName o) (Prog o)
    (Upanic_Conditions o) (Release_Interval o) (Nprocs o) (Write_Log o) (Infile o) (Execd o) (Message_Interval o) (Validation_Flags o) (delayop o)
    (delaytime o).
Definition set_V_opt (x : bool) (o : options) : options :=
  Options (a_opt o) (e_opt o) (C_opt o) (k_opt o) (m_opt o) (n_opt o) (r_opt o) (w_opt o) (v_opt o) (U_opt o) x (M_opt o) (TagName o) (Prog o)
    (Upanic_Conditions o) (Release_Interval o) (Nprocs o) (Write_Log o) (Infile o) (Execd o) (Message_Interval o) (Validation_Flags o) (delayop o)
    (delaytime o).
Definition set_M_opt (x : bool) (o : options) : options :=
  Options (a_opt o) (e_opt o) (C_opt o) (k_opt o) (m_opt o) (n_opt o) (r_opt o) (w_opt o) (v_opt o) (U_opt o) (V_opt o) x (TagName o) (Prog o)
    (Upanic_Conditions o) (Release_Interval o) (Nprocs o) (Write_Log o) (Infile o) (Execd o) (Message_Interval o) (Validation_Flags o) (delayop o)
    (delaytime o).
Definition set_TagName (x : cstr) (o : options) : options :=
  Options (a_opt o) (e_opt o) (C_opt o) (k_opt o) (m_opt o) (n_opt o) (r_opt o) (w_opt o) (v_opt o) (U_opt o) (V_opt o) (M_opt o) x (Prog o)
    (Upanic_Conditions o) (Release_Interval o) (Nprocs o) (Write_Log o) (Infile o) (Execd o) (Message_Interval o) (Validation_Flags o) (delayop o)
    (delaytime o).
Definition set_Prog (x : cstr) (o : options) : options :=
  Options (a_opt o) (e_opt o) (C_opt o) (k_opt o) (m_opt o) (n_opt o) (r_opt o) (w_opt o) (v_opt o) (U_opt o) (V_opt o) (M_opt o) (TagName o) x
    (Upanic_Conditions o) (Release_Interval o) (Nprocs o) (Write_Log o) (Infile o) (Execd o) (Message_Interval o) (Validation_Flags o) (delayop o)
    (delaytime o).
Definition set_Upanic_Conditions (x : Z) (o : options) : options :=
  Options (a_opt o) (e_opt o) (C_opt o) (k_opt o) (m_opt o) (n_opt o) (r_opt o) (w_opt o) (v_opt o) (U_opt o) (V_opt o) (M_opt o) (TagName o) (Prog o)
    x (Release_Interval o) (Nprocs o) (Write_Log o) (Infile o) (Execd o) (Message_Interval o) (Validation_Flags o) (delayop o) (delaytime o).
Definition set_Release_Interval (x : Z) (o : options) : options :=
  Options (a_opt o) (e_opt o) (C_opt o) (k_opt o) (m_opt o) (n_opt o) (r_opt o) (w_opt o) (v_opt o) (U_opt o) (V_opt o) (M_opt o) (TagName o) (Prog o)
    (Upanic_Conditions o) x (Nprocs o) (Write_Log o) (Infile o) (Execd o) (Message_Interval o) (Validation_Flags o) (delayop o) (delaytime o).
Definition set_Nprocs (x : Z) (o : options) : options :=
  Options (a_opt o) (e_opt o) (C_opt o) (k_opt o) (m_opt o) (n_opt o) (r_opt o) (w_opt o) (v_opt o) (U_opt o) (V_opt o) (M_opt o) (TagName o) (Prog o)
    (Upanic_Conditions o) (Release_Interval o) x (Write_Log o) (Infile o) (Execd o) (Message_Interval o) (Validation_Flags o) (delayop o) (delaytime
    o).
Definition set_Write_Log (x : option cstr) (o : options) : options :=
  Options (a_opt o) (e_opt o) (C_opt o) (k_opt o) (m_opt o) (n_opt o) (r_opt o) (w_opt o) (v_opt o) (U_opt o) (V_opt o) (M_opt o) (TagName o) (Prog o)
    (Upanic_Conditions o) (Release_Interval o) (Nprocs o) x (Infile o) (Execd o) (Message_Interval o) (Validation_Flags o) (delayop o) (delaytime o).
Definition set_Infile (x : option cstr) (o : options) : options :=
  Options (a_opt o) (e_opt o) (C_opt o) (k_opt o) (m_opt o) (n_opt o) (r_opt o) (w_opt o) (v_opt o) (U_opt o) (V_opt o) (M_opt o) (TagName o) (Prog o)
    (Upanic_Conditions o) (Release_Interval o) (Nprocs o) (Write_Log o) x (Execd o) (Message_Interval o) (Validation_Flags o) (delayop o) (delaytime
    o).
Definition set_Execd (x : bool) (o : options) : options :=
  Options (a_opt o) (e_opt o) (C_opt o) (k_opt o) (m_opt o) (n_opt o) (r_opt o) (w_opt o) (v_opt o) (U_opt o) (V_opt o) (M_opt o) (TagName o) (Prog o)
    (Upanic_Conditions o) (Release_Interval o) (Nprocs o) (Write_Log o) (Infile o) x (Message_Interval o) (Validation_Flags o) (delayop o) (delaytime
    o).
Definition set_Message_Interval (x : Z) (o : options) : options :=
  Options (a_opt o) (e_opt o) (C_opt o) (k_opt o) (m_opt o) (n_opt o) (r_opt o) (w_opt o) (v_opt o) (U_opt o) (V_opt o) (M_opt o) (TagName o) (Prog o)
    (Upanic_Conditions o) (Release_Interval o) (Nprocs o) (Write_Log o) (Infile o) (Execd o) x (Validation_Flags o) (delayop o) (delaytime o).
Definition set_Validation_Flags (x : Z) (o : options) : options :=
  Options (a_opt o) (e_opt o) (C_opt o) (k_opt o) (m_opt o) (n_opt o) (r_opt o) (w_opt o) (v_opt o) (U_opt o) (V_opt o) (M_opt o) (TagName o) (Prog o)
    (Upanic_Conditions o) (Release_Interval o) (Nprocs o) (Write_Log o) (Infile o) (Execd o) (Message_Interval o) x (delayop o) (delaytime o).
Definition set_delayop (x : Z) (o : options) : options :=
  Options (a_opt o) (e_opt o) (C_opt o) (k_opt o) (m_opt o) (n_opt o) (r_opt o) (w_opt o) (v_opt o) (U_opt o) (V_opt o) (M_opt o) (TagName o) (Prog o)
    (Upanic_Conditions o) (Release_Interval o) (Nprocs o) (Write_Log o) (Infile o) (Execd o) (Message_Interval o) (Validation_Flags o) x (delaytime
    o).
Definition set_delaytime (x : Z) (o : options) : options :=
  Options (a_opt o) (e_opt o) (C_opt o) (k_opt o) (m_opt o) (n_opt o) (r_opt o) (w_opt o) (v_opt o) (U_opt o) (V_opt o) (M_opt o) (TagName o) (Prog o)
    (Upanic_Conditions o) (Release_Interval o) (Nprocs o) (Write_Log o) (Infile o) (Execd o) (Message_Interval o) (Validation_Flags o) (delayop o) x.

(** Global variables and those that are [static]; the pattern has Pattern_Length bytes. *)
Record doio_t : Type := Doio {
  opts : options; Children : list Z; Reqno : Z; Reqskipcnt : Z; Memalloc : list memalloc; Nmemalloc : Z; active_mmap_rw : bool; havesigint :
  bool; Memptr : Z; Memsize : Z; Host : cstr; Pattern : cstr; mturn : Z; cache : list fd_cache; write_pid : Z; rw_pid : Z }.

Definition set_opts (x : options) (g : doio_t) : doio_t :=
  Doio x (Children g) (Reqno g) (Reqskipcnt g) (Memalloc g) (Nmemalloc g) (active_mmap_rw g) (havesigint g) (Memptr g) (Memsize g) (Host g) (Pattern
    g) (mturn g) (cache g) (write_pid g) (rw_pid g).
Definition set_Children (x : list Z) (g : doio_t) : doio_t :=
  Doio (opts g) x (Reqno g) (Reqskipcnt g) (Memalloc g) (Nmemalloc g) (active_mmap_rw g) (havesigint g) (Memptr g) (Memsize g) (Host g) (Pattern g)
    (mturn g) (cache g) (write_pid g) (rw_pid g).
Definition set_Reqno (x : Z) (g : doio_t) : doio_t :=
  Doio (opts g) (Children g) x (Reqskipcnt g) (Memalloc g) (Nmemalloc g) (active_mmap_rw g) (havesigint g) (Memptr g) (Memsize g) (Host g) (Pattern g)
    (mturn g) (cache g) (write_pid g) (rw_pid g).
Definition set_Reqskipcnt (x : Z) (g : doio_t) : doio_t :=
  Doio (opts g) (Children g) (Reqno g) x (Memalloc g) (Nmemalloc g) (active_mmap_rw g) (havesigint g) (Memptr g) (Memsize g) (Host g) (Pattern g)
    (mturn g) (cache g) (write_pid g) (rw_pid g).
Definition set_Memalloc (x : list memalloc) (g : doio_t) : doio_t :=
  Doio (opts g) (Children g) (Reqno g) (Reqskipcnt g) x (Nmemalloc g) (active_mmap_rw g) (havesigint g) (Memptr g) (Memsize g) (Host g) (Pattern g)
    (mturn g) (cache g) (write_pid g) (rw_pid g).
Definition set_Nmemalloc (x : Z) (g : doio_t) : doio_t :=
  Doio (opts g) (Children g) (Reqno g) (Reqskipcnt g) (Memalloc g) x (active_mmap_rw g) (havesigint g) (Memptr g) (Memsize g) (Host g) (Pattern g)
    (mturn g) (cache g) (write_pid g) (rw_pid g).
Definition set_active_mmap_rw (x : bool) (g : doio_t) : doio_t :=
  Doio (opts g) (Children g) (Reqno g) (Reqskipcnt g) (Memalloc g) (Nmemalloc g) x (havesigint g) (Memptr g) (Memsize g) (Host g) (Pattern g) (mturn
    g) (cache g) (write_pid g) (rw_pid g).
Definition set_havesigint (x : bool) (g : doio_t) : doio_t :=
  Doio (opts g) (Children g) (Reqno g) (Reqskipcnt g) (Memalloc g) (Nmemalloc g) (active_mmap_rw g) x (Memptr g) (Memsize g) (Host g) (Pattern g)
    (mturn g) (cache g) (write_pid g) (rw_pid g).
Definition set_Memptr (x : Z) (g : doio_t) : doio_t :=
  Doio (opts g) (Children g) (Reqno g) (Reqskipcnt g) (Memalloc g) (Nmemalloc g) (active_mmap_rw g) (havesigint g) x (Memsize g) (Host g) (Pattern g)
    (mturn g) (cache g) (write_pid g) (rw_pid g).
Definition set_Memsize (x : Z) (g : doio_t) : doio_t :=
  Doio (opts g) (Children g) (Reqno g) (Reqskipcnt g) (Memalloc g) (Nmemalloc g) (active_mmap_rw g) (havesigint g) (Memptr g) x (Host g) (Pattern g)
    (mturn g) (cache g) (write_pid g) (rw_pid g).
Definition set_Host (x : cstr) (g : doio_t) : doio_t :=
  Doio (opts g) (Children g) (Reqno g) (Reqskipcnt g) (Memalloc g) (Nmemalloc g) (active_mmap_rw g) (havesigint g) (Memptr g) (Memsize g) x (Pattern
    g) (mturn g) (cache g) (write_pid g) (rw_pid g).
Definition set_Pattern (x : cstr) (g : doio_t) : doio_t :=
  Doio (opts g) (Children g) (Reqno g) (Reqskipcnt g) (Memalloc g) (Nmemalloc g) (active_mmap_rw g) (havesigint g) (Memptr g) (Memsize g) (Host g) x
    (mturn g) (cache g) (write_pid g) (rw_pid g).
Definition set_mturn (x : Z) (g : doio_t) : doio_t :=
  Doio (opts g) (Children g) (Reqno g) (Reqskipcnt g) (Memalloc g) (Nmemalloc g) (active_mmap_rw g) (havesigint g) (Memptr g) (Memsize g) (Host g)
    (Pattern g) x (cache g) (write_pid g) (rw_pid g).
Definition set_cache (x : list fd_cache) (g : doio_t) : doio_t :=
  Doio (opts g) (Children g) (Reqno g) (Reqskipcnt g) (Memalloc g) (Nmemalloc g) (active_mmap_rw g) (havesigint g) (Memptr g) (Memsize g) (Host g)
    (Pattern g) (mturn g) x (write_pid g) (rw_pid g).
Definition set_write_pid (x : Z) (g : doio_t) : doio_t :=
  Doio (opts g) (Children g) (Reqno g) (Reqskipcnt g) (Memalloc g) (Nmemalloc g) (active_mmap_rw g) (havesigint g) (Memptr g) (Memsize g) (Host g)
    (Pattern g) (mturn g) (cache g) x (rw_pid g).
Definition set_rw_pid (x : Z) (g : doio_t) : doio_t :=
  Doio (opts g) (Children g) (Reqno g) (Reqskipcnt g) (Memalloc g) (Nmemalloc g) (active_mmap_rw g) (havesigint g) (Memptr g) (Memsize g) (Host g)
    (Pattern g) (mturn g) (cache g) (write_pid g) x.

Definition start_options : options :=
  Options false false false false false false false false false false false false [] [] 0 0 0 None None false 0 0 0 0.
Definition start : doio_t := Doio start_options [] 1 0 (replicate 32 no_memalloc) 0 false false 0 0 [] [] 0 [] (-1) (-1).

Section doio.
Context {Σ : Type} `{!System call Σ}.

Abbreviation P := (prog doio_t Σ).

Definition opt {A} (f : options → A) : P A := get (λ g, f (opts g)).
Definition say (m : note) : P () := sys (Say m).

(** ** Buffers *)

(** alloc_mem(-1): one entry. *)
Definition free_space (me : Z) (M : memalloc) : P () :=
  let update := modify (λ g, set_Memalloc (<[Z.to_nat me := set_m_space 0 M]> (Memalloc g)) g) in
  if m_space M =? 0 then mret ()
  else if m_memtype M =? MEM_DATA then
    sys (Free (m_space M));; update;; modify (set_Memptr 0);; modify (set_Memsize 0)
  else if m_memtype M =? MEM_SHMEM then
    sys (Shmdt (m_space M));; update;; sys (Shmctl_rmid (m_fd M))
  else if m_memtype M =? MEM_MMAP then
    sys (Munmap (m_space M) (u64 (m_size M)));; sys (Close (m_fd M));;
    when (negb (Z.land (m_flags M) MEMF_FILE =? 0)) (match m_name M with Some n => sys (Unlink n) | None => lift Undef end);;
    update
  else say (UnknownSpace (m_memtype M) me).

Definition free_mem : P () :=
  n ← get Nmemalloc; l ← get Memalloc;
  each (seqZ 0 n) (λ me, M ← lift (mem_get l me); free_space me M).

(** [sprintf(filename, name, pid)] with plain conversions; a second one has no argument. *)
Fixpoint expand (s : cstr) (pid : option Z) : res cstr :=
  match s with
  | [] => Ret []
  | c :: s =>
      if c =c "%"%char then
        match s, pid with
        | d :: s, _ =>
            if d =c "%"%char then t ← expand s pid; Ret (d :: t)
            else
              match pid with
              | None => Undef
              | Some n =>
                  if (d =c "d"%char) || (d =c "i"%char) || (d =c "u"%char) then t ← expand s None; Ret (fmt_d n ++ t)
                  else if d =c "x"%char then t ← expand s None; Ret (digits 16 n ++ t)
                  else if d =c "o"%char then t ← expand s None; Ret (digits 8 n ++ t)
                  else Undef
              end
        | [], _ => Undef
        end
      else t ← expand s pid; Ret (c :: t)
  end.

(** Enough of [nbytes]: the entry as alloc_mem leaves it, and the result. *)
Definition alloc_data (M : memalloc) (nbytes : Z) : P (memalloc * Z) :=
  M ← (if m_size M <? nbytes then
         when (negb (m_space M =? 0)) (sys (Free (m_space M)));;
         mret (set_m_size 0 (set_m_space 0 M))
       else mret M);
  if m_space M =? 0 then
    p ← sys (Malloc (u64 nbytes));
    match p with
    | None => say (NoMemory nbytes);; mret (M, -1)
    | Some cp => mret (set_m_size nbytes (set_m_space cp M), 0)
    end
  else mret (M, 0).

Definition alloc_mmap (M : memalloc) (nbytes : Z) : P (memalloc * Z) :=
  M ← (if m_size M <? nbytes then
         when (negb (m_space M =? 0))
           (sys (Munmap (m_space M) (u64 (m_size M)));; sys (Close (m_fd M));;
            when (negb (Z.land (m_flags M) MEMF_FILE =? 0)) (match m_name M with Some n => sys (Unlink n) | None => lift Undef end));;
         mret (set_m_size 0 (set_m_space 0 M))
       else mret M);
  if m_space M =? 0 then
    name ← lift (match m_name M with Some n => Ret n | None => Undef end);
    name ← (if mem "%"%char name then
              pid ← sys Getpid; n ← lift (expand name (Some pid));
              if zlength n <? 255 then mret n else lift Undef
            else mret name);
    let M := set_m_name (Some name) M in
    r ← sys (Open (Some name) (Z.lor O_CREAT O_RDWR) 438);
    match r with
    | inl e => say (BufferOpenFailed e name);; mret (set_m_fd (-1) M, -1)
    | inr fd =>
        len ← lift (ck32 (nbytes * 4));
        let M := set_m_size len (set_m_fd fd M) in
        let flags := Z.lor (if negb (Z.land (m_flags M) MEMF_PRIVATE =? 0) then MAP_PRIVATE else 0)
                           (if negb (Z.land (m_flags M) MEMF_SHARED =? 0) then MAP_SHARED else 0) in
        a ← sys (Mmap (u64 len) (Z.lor PROT_READ PROT_WRITE) flags fd);
        match a with
        | inl e => say (BufferMapFailed e len flags);; mret (set_m_space (-1) M, -1)
        | inr a => mret (set_m_space a M, 0)
        end
    end
  else mret (M, 0).

Definition alloc_shmem (M : memalloc) (nbytes : Z) : P (memalloc * Z) :=
  M ← (if m_size M <? nbytes then
         when (negb (m_space M =? 0)) (sys (Shmdt (m_space M));; sys (Shmctl_rmid (m_fd M)));;
         mret (set_m_size 0 (set_m_space 0 M))
       else mret M);
  if m_space M =? 0 then
    name ← lift (match m_name M with Some n => Ret n | None => Undef end);
    key ← lift (if bool_decide (name = str "private") then Ret IPC_PRIVATE
                else match sscanf_ic name with Scan1 a | Scan2 a _ => Ret a | _ => Undef end);
    len ← lift (if m_nblks M =? 0 then Ret nbytes else ck32 (m_nblks M * 512));
    let M := set_m_size len M in
    if len <? nbytes then mret (M, SKIP_REQ)
    else
      r ← sys (Shmget key (u64 len) (Z.lor IPC_CREAT 438));
      match r with
      | inl e => say (ShmgetFailed key len e);; mret (M, -1)
      | inr shmid =>
          let M := set_m_fd shmid M in
          a ← sys (Shmat shmid SHM_RND);
          match a with
          | inl e => say (ShmatFailed shmid e);; mret (set_m_space (-1) M, -1)
          | inr a => mret (set_m_space a M, 0)
          end
      end
  else mret (M, 0).

Definition alloc_mem (nbytes : Z) : P Z :=
  if nbytes =? -1 then free_mem;; mret 0
  else
    t ← get mturn; n ← get Nmemalloc;
    let turn := if n <=? t then 0 else t in
    modify (set_mturn turn);;
    l ← get Memalloc; M ← lift (mem_get l turn);
    r ← (if m_memtype M =? MEM_DATA then alloc_data M nbytes
         else if m_memtype M =? MEM_MMAP then alloc_mmap M nbytes
         else if m_memtype M =? MEM_SHMEM then alloc_shmem M nbytes
         else
           M0 ← lift (mem_get l 0);
           say (UnknownSpace (m_memtype M0) turn);; mret (M, 0));
    let '(M, rval) := (r : memalloc * Z) in
    modify (λ g, set_Memalloc (<[Z.to_nat turn := M]> (Memalloc g)) g);;
    if rval <? 0 then mret rval
    else
      modify (set_Memptr (m_space M));; modify (set_Memsize (m_size M));; modify (set_mturn (turn + 1));; mret 0.

(** [alloc_mem(-1); exit(status)] *)
Definition quit {A} (status : Z) : P A := alloc_mem (-1);; exit_ status.

(** ** Signals *)

Definition cleanup_handler {A} (sig : Z) : P A := modify (set_havesigint true);; quit 0.
Definition die_handler {A} (sig : Z) : P A := say (Terminating sig);; quit 1.
Definition SIGBUS : Z := 7.
Definition sigbus_handler {A} (sig : Z) : P A :=
  a ← get active_mmap_rw; h ← get havesigint;
  if a && h then cleanup_handler sig else die_handler sig.

(** Access to [n] bytes at an address. *)
Definition peek (addr n : Z) : P cstr :=
  if n <? 0 then lift Undef
  else if n =? 0 then mret []
  else
    r ← sys (Peek addr n);
    match r with Done d => mret d | Bus => sigbus_handler SIGBUS | Segv => lift Undef end.
Definition poke (addr : Z) (d : cstr) : P () :=
  match d with
  | [] => mret ()
  | _ =>
      r ← sys (Poke addr d);
      match r with Done _ => mret () | Bus => sigbus_handler SIGBUS | Segv => lift Undef end
  end.
(** [memcpy], and [memmove]. *)
Definition copy (dst src n : Z) : P () := d ← peek src n; poke dst d.

(** ** Patterns *)

(** [( *Data_Fill)], of which there is one. *)
Definition doio_pat_fill (addr mem_needed : Z) (pattern : cstr) : P () :=
  buf ← (if mem_needed <? 0 then mret [] else peek addr mem_needed);
  r ← lift (pattern_fill (S (Z.to_nat mem_needed)) buf mem_needed pattern (zlength pattern) 0);
  poke addr r.2.

Definition isprint (c : ascii) : bool := (32 <=? code c) && (code c <=? 126).
Definition printable (c : ascii) : ascii := if isprint c then c else "."%char.

(** The loop of doio_pat_check: where the first byte is that differs, with the bytes that
    were expected there and those that are. *)
Fixpoint first_corrupt (buf : cstr) (at_ : Z) (pattern : cstr) (index : Z) : res (option (Z * cstr * cstr)) :=
  match buf with
  | [] => Ret None
  | c :: rest =>
      p ← mem_get pattern index;
      if c =c p then
        first_corrupt rest (at_ + 1) pattern (if index + 1 =? zlength pattern then 0 else index + 1)
      else
        let nb := if 32 <? zlength buf then 32 else zlength buf in
        expected ← mapM (λ i, p ← mem_get pattern ((index + i) %% zlength pattern); Ret (printable p)) (seqZ 0 nb);
        Ret (Some (at_, expected, printable <$> take (Z.to_nat nb) buf))
  end.

(** The text of the message; its first two lines, and those about the place. *)
Definition corrupt_text : cstr :=
  str "Corrupt regions follow - unprintable chars are represented as '.'" ++ ["010"%char] ++
  str "-----------------------------------------------------------------" ++ ["010"%char].
Definition fmt_2d (n : Z) : cstr := (if n <? 10 then [" "%char] else []) ++ fmt_d n.
Definition place_text (offset nb : Z) (expected actual : cstr) : cstr :=
  str "corrupt bytes starting at file offset " ++ fmt_d offset ++ ["010"%char] ++
  str "    1st " ++ fmt_2d nb ++ str " expected bytes:  " ++ expected ++ ["010"%char] ++
  str "    1st " ++ fmt_2d nb ++ str " actual bytes:    " ++ actual ++ ["010"%char].

(** [None] when the bytes are those of the pattern. *)
Definition doio_pat_check (buf : cstr) (offset length : Z) (pattern : cstr) (patshift : Z) : res (option cstr) :=
  r ← pattern_check (S (Z.to_nat length)) buf length pattern (zlength pattern) patshift;
  if r =? 0 then Ret None
  else
    index ← crem patshift (zlength pattern);
    f ← first_corrupt (take (Z.to_nat length) buf) 0 pattern index;
    match f with
    | None => Ret (Some corrupt_text)
    | Some (i, expected, actual) =>
        place ← ck32 (offset + i);
        Ret (Some (corrupt_text ++ place_text place (zlength actual) expected actual))
    end.

(** ** Descriptors *)

(** Look for a descriptor in the cache: the slot; or a free one and the oldest one. *)
Fixpoint find_slot (l : list fd_cache) (i : nat) (file : cstr) (oflags : Z) (free_slot : option nat) (oldest_slot : option (nat * Z))
  : nat + option nat * option (nat * Z) :=
  match l with
  | [] => inr (free_slot, oldest_slot)
  | cp :: l =>
      if negb (c_fd cp =? -1) && (c_oflags cp =? oflags) && bool_decide (c_file cp = file) then inl i
      else if c_fd cp =? -1 then
        find_slot l (S i) file oflags (match free_slot with None => Some i | Some j => Some j end) oldest_slot
      else
        find_slot l (S i) file oflags free_slot
          (match oldest_slot with
           | None => Some (i, c_rtc cp)
           | Some (j, t) => if c_rtc cp <? t then Some (i, c_rtc cp) else Some (j, t)
           end)
  end.

Definition update_slot (i : nat) (f : fd_cache → fd_cache) : P () := modify (λ g, set_cache (alter f i (cache g)) g).

Definition release_slot (cp : fd_cache) : P () :=
  when (negb (c_fd cp =? -1)) (sys (Close (c_fd cp)));;
  match c_memaddr cp with
  | Indet => lift Undef
  | Addr a => when (negb (a =? 0)) (sys (Munmap a (u64 (c_memlen cp))))
  end.

Definition open_failed {A} (file : option cstr) (oflags errno : Z) : P A := say (OpenFailed file oflags errno);; quit E_SETUP.

(** [open], and once more when the oldest descriptor is closed: the descriptor and the slot for it. *)
Definition open_slot (file : option cstr) (oflags : Z) (free_slot : option nat) (oldest_slot : option (nat * Z)) : P (Z * option nat) :=
  r ← sys (Open file oflags 438);
  match r with
  | inr fd => mret (fd, free_slot)
  | inl e =>
      if negb (e =? EMFILE) then open_failed file oflags e
      else
        match oldest_slot with
        | None => lift Undef
        | Some (i, _) =>
            l ← get cache; s ← lift (mem_get l (Z.of_nat i));
            sys (Close (c_fd s));;
            update_slot i (set_c_fd (-1));;
            r ← sys (Open file oflags 438);
            match r with inl e => open_failed file oflags e | inr fd => mret (fd, Some i) end
        end
  end.

Definition grow_cache : P nat :=
  l ← get cache;
  ok ← sys (More (sizeof_fd_cache * (FD_ALLOC_INCR + zlength l)));
  if negb ok then say NoCache;; quit E_SETUP
  else
    modify (set_cache (l ++ replicate (Z.to_nat FD_ALLOC_INCR) new_slot));;
    mret (length l).

(** The descriptor goes to the free slot, or to the first one of those that are added. *)
Definition fill_slot (file : option cstr) (oflags fd : Z) (free_slot : option nat) : P (option nat) :=
  i ← (match free_slot with Some i => mret i | None => grow_cache end);
  reqno ← get Reqno;
  match file with
  | None => lift Undef
  | Some f =>
      (if zlength f <? MAX_FNAME_LENGTH + 1 then mret () else lift Undef);;
      update_slot i (λ _, Slot f oflags fd reqno (Addr 0) 0);;
      mret (Some i)
  end.

(** The slot, by its index. *)
Definition alloc_fdcache (file : option cstr) (oflags : Z) : P (option nat) :=
  l ← get cache; reqno ← get Reqno;
  match file, l with
  | None, _ :: _ => each l release_slot;; modify (set_cache []);; mret None
  | _, _ =>
      match find_slot l 0 (default [] file) oflags None None with
      | inl i => update_slot i (set_c_rtc reqno);; mret (Some i)
      | inr (free_slot, oldest_slot) =>
          r ← open_slot file oflags free_slot oldest_slot;
          fill_slot file oflags r.1 r.2
      end
  end.

Definition slot_at (i : nat) : P fd_cache := l ← get cache; lift (mem_get l (Z.of_nat i)).

Definition alloc_fd (file : option cstr) (oflags : Z) : P Z :=
  r ← alloc_fdcache file oflags;
  match r with Some i => s ← slot_at i; mret (c_fd s) | None => mret (-1) end.

(** ** Helpers of the requests *)

Definition doio_upanic (mask : Z) : P () :=
  u ← opt U_opt; c ← opt Upanic_Conditions;
  if negb u || (Z.land mask c =? 0) then mret () else say UpanicFailed.

Definition lock_file_region (fd type start nbytes : Z) : P Z :=
  r ← sys (SetLkw fd type start nbytes);
  match r with inl _ => say (LockFailed fd type start nbytes);; mret (-1) | inr _ => mret 0 end.

(** The message, [None] when the file holds the pattern. *)
Definition check_file (file : cstr) (offset length : Z) (pattern : cstr) (patshift : Z) : P (option complaint) :=
  buf ← get Memptr;
  V ← opt V_opt; vf ← opt Validation_Flags;
  let flags := if V : bool then Z.lor vf O_RDONLY else O_RDONLY in
  fd ← alloc_fd (Some file) flags;
  if fd =? -1 then mret (Some CannotOpen)
  else
    s ← sys (Lseek fd offset);
    match s with
    | inl _ => mret (Some CannotSeek)
    | inr _ =>
        r ← sys (Read fd buf (u64 length));
        match r with
        | inl _ => mret (Some CannotRead)
        | inr nb =>
            if negb (s32 nb =? length) then mret (Some (WrongCount (s32 nb)))
            else
              d ← peek buf length;
              em ← lift (doio_pat_check d offset length pattern patshift);
              match em with
              | Some em => mret (Some (Differs em))
              | None => mret None
              end
        end
    end.

(** *** The log *)

(** The record that is written before the operation. *)
Definition fill_wrec (wrec : wlog_rec) (async oflags pid offset nbytes : Z) (file host pattern : cstr) : res wlog_rec :=
  path ← mem_write (w_path wrec) 0 (code <$> file);
  hst ← mem_write (w_host wrec) 0 (code <$> host);
  pat ← mem_write (w_pattern wrec) 0 (code <$> pattern);
  Ret (Rec pid offset nbytes oflags 0 async hst (zlength host) path (zlength file) pat (zlength pattern)).
Definition set_w_done (r : wlog_rec) : wlog_rec :=
  Rec (w_pid r) (w_offset r) (w_nbytes r) (w_oflags r) 1 (w_async r) (w_host r) (w_hostlen r) (w_path r) (w_pathlen r)
    (w_pattern r) (w_patternlen r).

Definition record_write (wrec : wlog_rec) (offset : Z) : P Z :=
  s ← sys LogState;
  let '(env, wbuf, file) := (s : wlog_env * list Z * option (list Z)) in
  r ← lift (wlog_record_write env wbuf wrec offset (default [] file));
  sys (LogSet (Some r.2));; mret r.1.

(** The variable [pid] of do_write, and that of do_rw. *)
Definition static_pid (var : doio_t → Z) (set : Z → doio_t → doio_t) : P Z :=
  p ← get var; when (p =? -1) (p ← sys Getpid; modify (set p));; get var.

(** The preliminary entry: the record and where it is. *)
Definition log_before (pid async oflags offset nbytes : Z) (file : cstr) : P (option (wlog_rec * Z)) :=
  junk ← sys Stack; host ← get Host; pattern ← get Pattern;
  wrec ← lift (fill_wrec junk async oflags pid offset nbytes file host pattern);
  woffset ← record_write wrec (-1);
  if woffset =? -1 then say LogFailed;; mret None else mret (Some (wrec, woffset)).

Definition log_after (logged : option (wlog_rec * Z)) : P () :=
  match logged with
  | None => mret ()
  | Some (wrec, woffset) => record_write (set_w_done wrec) woffset;; mret ()
  end.

(** ** read(2) and write(2) *)

(** [alloc_mem(nbytes + wtob(1) * 2)]: the sum is an [unsigned long]. *)
Definition alloc_buffer (nbytes : Z) : P Z := alloc_mem (s32 (nbytes + wtob1 * 2)).

Definition do_read (req : cstr) : P Z :=
  file ← lift (get_file req);
  let oflags := get_int req read_req.r_oflags in
  let offset := get_int req read_req.r_offset in
  let nbytes := get_int req read_req.r_nbytes in
  fd ← alloc_fd (Some file) oflags;
  if fd =? -1 then mret (-1)
  else
    rval ← alloc_buffer nbytes;
    if rval <? 0 then mret rval
    else
      addr ← get Memptr;
      if req_type req =? READ then
        s ← sys (Lseek fd offset);
        match s with
        | inl _ => say (SeekFailed fd offset);; mret (-1)
        | inr _ =>
            r ← sys (Read fd addr (u64 nbytes));
            match r with
            | inl _ => say (ReadFailed req fd);; doio_upanic U_RVAL;; mret (-1)
            | inr n =>
                if negb (s32 n =? nbytes) then
                  say (ReadShort req fd nbytes (s32 n));; doio_upanic U_RVAL;; mret (-1)
                else mret 0
            end
        end
      else mret 0.

(** The system call of do_write: its value, [None] when the function returns at once. *)
Definition write_call (req : cstr) (fd addr offset nbytes : Z) : P (option Z) :=
  if req_type req =? WRITE then
    s ← sys (Lseek fd offset);
    match s with
    | inl _ => say (SeekFailed fd offset);; mret None
    | inr _ =>
        r ← sys (Write fd addr (u64 nbytes));
        match r with
        | inl _ => say (WriteFailed req fd);; say (WriteFailed req fd);; doio_upanic U_RVAL;; mret (Some (-1))
        | inr n =>
            if negb (s32 n =? nbytes) then say (WriteShort req fd nbytes (s32 n));; doio_upanic U_RVAL;; mret (Some (-1))
            else mret (Some (s32 n))
        end
    end
  else mret (Some (-1)).

(** What follows the system call: a comparison that fails ends the program. *)
Definition verify (file : cstr) (offset length : Z) (fmt : P ()) : P () :=
  pattern ← get Pattern;
  msg ← check_file file offset length pattern 0;
  match msg with
  | Some msg => fmt;; say (Miscompare msg);; doio_upanic U_CORRUPTION;; exit_ E_COMPARE
  | None => mret ()
  end.

Definition do_write (req : cstr) : P Z :=
  file ← lift (get_file req);
  let nbytes := get_int req write_req.r_nbytes in
  let offset := get_int req write_req.r_offset in
  let pattern := get_char req write_req.r_pattern in
  let oflags := get_int req write_req.r_oflags in
  modify (λ g, set_Pattern (<[0%nat := pattern]> (Pattern g)) g);;
  fd ← alloc_fd (Some file) oflags;
  if fd =? -1 then mret (-1)
  else
    rval ← alloc_buffer nbytes;
    if rval <? 0 then mret rval
    else
      addr ← get Memptr; pat ← get Pattern;
      doio_pat_fill addr nbytes pat;;
      k ← opt k_opt; w ← opt w_opt; v ← opt v_opt;
      when k (r ← lock_file_region fd F_WRLCK offset nbytes; when (r <? 0) (quit E_INTERNAL));;
      logged ← (if w : bool then
                  pid ← static_pid write_pid set_write_pid;
                  log_before pid (if req_type req =? WRITEA then 1 else 0) oflags offset nbytes file
                else mret None);
      r ← write_call req fd addr offset nbytes;
      match r with
      | None => mret (-1)
      | Some rval =>
          when v (verify file offset nbytes (mret ()));;
          log_after logged;;
          when k (r ← lock_file_region fd F_UNLCK offset nbytes; when (r <? 0) (quit E_INTERNAL));;
          mret (if rval =? -1 then -1 else 0)
      end.

(** ** The other calls *)

(** [struct status]: the value of the call. *)
Definition sy_rwv (req : cstr) (fd addr : Z) (rw : bool) : P Z :=
  ok ← sys (More 24);
  if negb ok then lift Undef
  else
    s ← sys (Lseek fd (get_int req listio_req.r_offset));
    match s with
    | inl _ => mret (-1)
    | inr _ =>
        let n := u64 (get_int req listio_req.r_nbytes) in
        r ← (if rw then sys (Writev fd addr n) else sys (Readv fd addr n));
        match r with inl _ => mret (-1) | inr n => mret (s32 n) end
    end.
Definition sy_readv (req : cstr) (fd addr : Z) : P Z := sy_rwv req fd addr false.
Definition sy_writev (req : cstr) (fd addr : Z) : P Z := sy_rwv req fd addr true.

(** Map the file, unless it is mapped already: [None] when that fails. *)
Definition map_file (i : nat) (fd : Z) (rw v : bool) : P (option Z) :=
  s ← slot_at i;
  a ← lift (match c_memaddr s with Indet => Undef | Addr a => Ret a end);
  if v || (a =? 0) then
    st ← sys (Fstat fd);
    match st with
    | inl e => say (FstatFailed e);; mret None
    | inr st_size =>
        let len := s32 st_size in
        update_slot i (set_c_memlen len);;
        r ← sys (Mmap (u64 len) (if rw then Z.lor PROT_WRITE PROT_READ else PROT_READ) MAP_SHARED fd);
        match r with
        | inl e => say (MmapFailed e);; mret None
        | inr mrc => update_slot i (set_c_memaddr (Addr mrc));; mret (Some mrc)
        end
    end
  else mret (Some a).

(** The transfer, from or to the mapping at [base]. *)
Definition mm_copy (req : cstr) (i : nat) (base addr : Z) (rw v : bool) : P Z :=
  let nbytes := get_int req listio_req.r_nbytes in
  let memaddr := base + get_int req listio_req.r_offset in
  s ← slot_at i;
  modify (set_active_mmap_rw true);;
  (if rw then copy memaddr addr nbytes else copy addr memaddr nbytes);;
  when v (sys (Msync base (u64 (c_memlen s))));;
  modify (set_active_mmap_rw false);;
  when v (sys (Munmap base (u64 (c_memlen s))));;
  mret nbytes.

Definition sy_mmrw (req : cstr) (fd addr : Z) (rw : bool) : P Z :=
  ok ← sys (More 24);
  if negb ok then lift Undef
  else
    file ← lift (get_file req);
    r ← alloc_fdcache (Some file) (get_int req listio_req.r_oflags);
    i ← lift (match r with Some i => Ret i | None => Undef end);
    v ← opt v_opt;
    m ← map_file i fd rw v;
    match m with
    | None => mret (-1)
    | Some base => mm_copy req i base addr rw v
    end.
Definition sy_mmread (req : cstr) (fd addr : Z) : P Z := sy_mmrw req fd addr false.
Definition sy_mmwrite (req : cstr) (fd addr : Z) : P Z := sy_mmrw req fd addr true.

(** fmt_readv only makes text; fmt_mmrw looks for the mapping of the file. *)
Definition fmt_readv (req : cstr) : P () := mret ().
Definition fmt_mmrw (req : cstr) : P () :=
  file ← lift (get_file req); alloc_fdcache (Some file) (get_int req listio_req.r_oflags);; mret ().

Record syscall_info : Type := Sys { sy_type : Z; sy_syscall : cstr → Z → Z → P Z; sy_format : cstr → P (); sy_flags : Z }.
Definition syscalls : list syscall_info :=
  [Sys READV sy_readv fmt_readv 0; Sys WRITEV sy_writev fmt_readv SY_WRITE;
   Sys MMAPR sy_mmread fmt_mmrw 0; Sys MMAPW sy_mmwrite fmt_mmrw SY_WRITE].

(** The address at which the transfer starts, up to a word behind the buffer's. *)
Definition bump (req : cstr) (addr : Z) : P Z :=
  if Z.land (get_int req listio_req.r_uflags) F_WORD_ALIGNED =? 0 then
    rnd ← sys Lrand48; r ← lift (random_range rnd 0 (wtob1 - 1) 1); mret (addr + r.1)
  else mret addr.

Definition fill_buffer (memptr addr mem_needed : Z) : P () :=
  pattern ← get Pattern;
  doio_pat_fill memptr mem_needed pattern;;
  when (negb (addr =? memptr)) (copy addr memptr mem_needed).

Definition do_rw (req : cstr) : P Z :=
  file ← lift (get_file req);
  let oflags := get_int req listio_req.r_oflags in
  let offset := get_int req listio_req.r_offset in
  let nbytes := get_int req listio_req.r_nbytes in
  let nstrides := get_int req listio_req.r_nstrides in
  let nents := get_int req listio_req.r_nent in
  let pattern := get_char req listio_req.r_pattern in
  if MAX_AIO <=? nents then say (TooManyEntries nents);; mret (-1)
  else
    match List.find (λ sy, sy_type sy =? req_type req) syscalls with
    | None => say (UnknownRw (req_type req));; mret (-1)
    | Some sy =>
        fd ← alloc_fd (Some file) oflags;
        if fd =? -1 then mret (-1)
        else
          rval ← alloc_buffer nbytes;
          if rval <? 0 then mret rval
          else
            modify (λ g, set_Pattern (<[0%nat := pattern]> (Pattern g)) g);;
            memptr ← get Memptr;
            addr ← bump req memptr;
            let write := negb (Z.land (sy_flags sy) SY_WRITE =? 0) in
            when write (fill_buffer memptr addr nbytes);;
            k ← opt k_opt; w ← opt w_opt; v ← opt v_opt;
            lock ← (if write && k then
                      max_byte ← lift (t ← ck32 (nbytes * nstrides); t ← ck32 (t * nents); ck32 (offset + t));
                      len ← lift (t ← ck32 (max_byte - offset); ck32 (t + 1));
                      r ← lock_file_region fd F_WRLCK offset len;
                      when (r <? 0) (say (FileLockFailed req fd offset max_byte);; quit E_INTERNAL);;
                      mret (Some len)
                    else mret None);
            logged ← (if write && w then
                        pid ← static_pid rw_pid set_rw_pid;
                        log_before pid 0 oflags offset nbytes file
                      else mret None);
            s ← sy_syscall sy req fd addr;
            rval ← (if s =? -1 then
                      sy_format sy req;; say (CallFailed req fd);; doio_upanic U_RVAL;; mret (-1)
                    else if negb (s =? nbytes) then
                      sy_format sy req;; say (CallShort req fd nbytes s);; doio_upanic U_RVAL;; mret (-1)
                    else mret 0);
            when ((rval =? 0) && write && v)
              (length ← lift (t ← ck32 (nbytes * nstrides); ck32 (t * nents));
               verify file offset length (sy_format sy req));;
            log_after logged;;
            match lock with
            | None => mret ()
            | Some len => r ← lock_file_region fd F_UNLCK offset len; when (r <? 0) (quit E_INTERNAL)
            end;;
            mret (if rval =? -1 then -1 else 0)
    end.

Definition do_sync (req : cstr) : P Z :=
  file ← lift (get_file req);
  let oflags := get_int req listio_req.r_oflags in
  fd ← alloc_fd (Some file) oflags;
  if fd =? -1 then mret (-1)
  else
    r ← (if req_type req =? FSYNC2 then sys (Fsync fd)
         else if req_type req =? FDATASYNC then sys (Fdatasync fd)
         else mret (inl 0));
    match r with inl _ => mret (-1) | inr _ => mret 0 end.
End doio.
