(* ===== verification/DoioMain.v ===== *)
(** * The program that carries out requests: testcases/kernel/fs/doio/doio.c, the loop and the command line

    The child that reads requests, the parent that waits for its children, and the
    options.  The results of [getopt] are an argument; what a signal does to a process
    that is not waiting for it is not modelled, the handlers are. *)

From S2P Require Import Prelude CInt CMem CString Splitstr RandomRange OpenFlags BytesPrefix WriteLog CProg IoReq Doio.
Local Open Scope Z_scope.

Definition PPID_CHECK_INTERVAL : Z := 5.
Definition DEF_RELEASE_INTERVAL : Z := 0.
Definition DELAY_SELECT : Z := 1.
Definition DELAY_SLEEP : Z := 2.
Definition DELAY_ALARM : Z := 4.
Definition C_DEFAULT : Z := 1.

Definition SIGHUP : Z := 1.
Definition SIGINT : Z := 2.
Definition SIGQUIT : Z := 3.
Definition SIGUSR1 : Z := 10.
Definition SIGSEGV : Z := 11.
Definition SIGUSR2 : Z := 12.
Definition SIGPIPE : Z := 13.
Definition SIGALRM : Z := 14.
Definition SIGTERM : Z := 15.
Definition SIGCLD : Z := 17.
Definition SIGCONT : Z := 18.
Definition SIGSTOP : Z := 19.
Definition SIGTSTP : Z := 20.
Definition SIGURG : Z := 23.
Definition SIGIO : Z := 29.
Definition NSIG : Z := 65.
Definition EINTR : Z := 4.

(** [struct smap] *)
Definition smap : Type := list (string * Z).
Definition Upanic_Args : smap := [("corruption"%string, U_CORRUPTION); ("iosw"%string, U_IOSW); ("rval"%string, U_RVAL); ("all"%string, U_ALL)].
Definition checkmap : smap := [("default"%string, C_DEFAULT)].
Definition delaymap : smap := [("select"%string, DELAY_SELECT); ("sleep"%string, DELAY_SLEEP); ("alarm"%string, DELAY_ALARM)].
Definition smap_find (m : smap) (s : cstr) : option Z := snd <$> List.find (λ e, bool_decide (str e.1 = s)) m.

(** [strtol(s, &end, 10)] *)
Definition strtol_end (s : cstr) : Z * cstr :=
  let '(_, ds, rest) := scan_number 10 s in
  match ds with [] => (0, s) | _ => (strtol s, rest) end.

(** The part behind the last slash. *)
Fixpoint base_name (s : cstr) : cstr :=
  match s with
  | [] => []
  | c :: s' => if mem "/"%char s' then base_name s' else if c =c "/"%char then s' else s
  end.

Definition strcasecmp_eq (s t : cstr) : bool := bool_decide (lower <$> s = lower <$> t).

Section main.
Context {Σ : Type} `{!System call Σ}.

Abbreviation P := (prog doio_t Σ).

Definition set_opt (f : options → options) : P () := modify (λ g, set_opts (f (opts g)) g).
Definition bad_option {A} (o : ascii) (arg : cstr) (status : Z) : P A := say (BadOption o arg);; exit_ status.

(** ** The command line *)

(** A token of string_to_tokens; the array has [NULL] behind the last one. *)
Definition token (arr : list cell) (i : Z) : res cstr :=
  c ← mem_get arr i; match c with Tok t => Ret t | _ => Undef end.
Definition tokens (s sep : cstr) : res (list cell * Z) :=
  string_to_tokens s (Some (replicate (Z.to_nat NMEMALLOC) Uninit)) 32 (Some sep).

Definition flag_if (c : ascii) (t : cstr) (f flags : Z) : Z := if mem c t then Z.lor flags f else flags.

(** The entry for one memory type, from its fields; [None] for an unknown type. *)
Definition parse_space (M : memalloc) (arr : list cell) (nalloc : Z) : res (option memalloc) :=
  kind ← token arr 0;
  if bool_decide (kind = str "data") then
    let M := Mem MEM_DATA 0 (m_nblks M) None 0 (m_fd M) (m_size M) in
    if 2 <=? nalloc then t ← token arr 1; Ret (Some (set_m_flags (flag_if "p" t MEMF_MPIN (m_flags M)) M)) else Ret (Some M)
  else if bool_decide (kind = str "mmap") then
    flags ← (if 1 <=? nalloc then
               t ← token arr 1;
               Ret (flag_if "U" t MEMF_FILE (flag_if "G" t MEMF_AUTOGROW (flag_if "A" t MEMF_ADDR (flag_if "f" t MEMF_FIXADDR
                     (flag_if "s" t MEMF_SHARED (flag_if "l" t MEMF_LOCAL (flag_if "a" t MEMF_AUTORESRV (flag_if "p" t MEMF_PRIVATE 0))))))))
             else Ret MEMF_PRIVATE);
    let devzero := if negb (Z.land flags (if Z.lor MEMF_PRIVATE MEMF_LOCAL =? 0 then 1 else 0) =? 0) then Z.lor flags MEMF_PRIVATE else flags in
    let space name flags := Mem MEM_MMAP flags (m_nblks M) (Some name) 0 (m_fd M) (m_size M) in
    if 2 <? nalloc then
      t ← token arr 2;
      Ret (Some (if bool_decide (t = str "devzero") then space (str "/dev/zero") devzero else space t flags))
    else Ret (Some (space (str "/dev/zero") devzero))
  else if bool_decide (kind = str "shmem") then
    name ← (if 2 <=? nalloc then t ← token arr 1; Ret (Some t) else Ret None);
    nblks ← (if 3 <=? nalloc then t ← token arr 2; Ret (match sscanf_ic t with Scan1 a | Scan2 a _ => a | _ => m_nblks M end) else Ret 0);
    flags ← (if 4 <=? nalloc then t ← token arr 3; Ret (flag_if "p" t MEMF_MPIN 0) else Ret 0);
    Ret (Some (Mem MEM_SHMEM flags nblks name 0 (m_fd M) (m_size M)))
  else Ret None.

Definition parse_memalloc (arg : cstr) : P () :=
  n ← get Nmemalloc; l ← get Memalloc;
  if NMEMALLOC <=? n then say (TooManyMemory n)
  else
    M ← lift (mem_get l n);
    t ← lift (tokens arg (str ":"));
    let '(arr, nalloc) := (t : list cell * Z) in
    r ← lift (parse_space M arr nalloc);
    match r with
    | Some M => modify (set_Memalloc (<[Z.to_nat n := M]> l));; modify (set_Nmemalloc (n + 1))
    | None => say (UnknownMemory arg);; exit_ 1
    end.

Definition parse_delay (arg : cstr) : P () :=
  t ← lift (tokens arg (str ":"));
  let '(arr, ndelay) := (t : list cell * Z) in
  if ndelay <? 2 then bad_option "d" arg 1
  else
    op ← lift (token arr 0);
    match smap_find delaymap op with
    | None => bad_option "d" arg 1
    | Some v =>
        set_opt (set_delayop v);;
        s ← lift (token arr 1);
        match sscanf_ic s with Scan1 a | Scan2 a _ => set_opt (set_delaytime a) | _ => mret () end;;
        when (2 <? ndelay) (say ExtraDelay)
    end.

Fixpoint add_conditions (toks : list cstr) : P () :=
  match toks with
  | [] => mret ()
  | t :: toks =>
      match smap_find Upanic_Args t with
      | None => bad_option "U" t 1
      | Some v => set_opt (λ o, set_Upanic_Conditions (Z.lor (Upanic_Conditions o) v) o);; add_conditions toks
      end
  end.

Definition count_option (o : ascii) (optarg : cstr) (least : Z) (set : Z → options → options) (status : Z) : P () :=
  let '(v, rest) := strtol_end optarg in
  match rest with
  | [] => set_opt (set (s32 v));; when (s32 v <? least) (bad_option o optarg status)
  | _ => bad_option o optarg status
  end.

(** One result of [getopt]. *)
Definition handle_option (o : ascii) (optarg : cstr) : P () :=
  if o =c "a"%char then set_opt (set_a_opt true)
  else if o =c "C"%char then
    set_opt (set_C_opt true);;
    when (bool_decide (smap_find checkmap optarg ≠ Some C_DEFAULT)) (bad_option o optarg 1)
  else if o =c "d"%char then parse_delay optarg
  else if o =c "e"%char then set_opt (set_e_opt true)
  else if o =c "h"%char then say Help;; exit_ 0
  else if o =c "k"%char then set_opt (set_k_opt true)
  else if o =c "m"%char then count_option o optarg 0 set_Message_Interval 1;; set_opt (set_m_opt true)
  else if o =c "M"%char then
    t ← lift (tokens optarg (str ","));
    let '(arr, n) := (t : list cell * Z) in
    each (seqZ 0 n) (λ i, a ← lift (token arr i); parse_memalloc a);;
    set_opt (set_M_opt true)
  else if o =c "N"%char then
    let tag := str "(" ++ take 39 optarg ++ str ")" in
    if zlength tag <? 40 then set_opt (set_TagName tag) else lift Undef
  else if o =c "n"%char then count_option o optarg 1 set_Nprocs E_USAGE;; set_opt (set_n_opt true)
  else if o =c "r"%char then count_option o optarg 0 set_Release_Interval E_USAGE;; set_opt (set_r_opt true)
  else if o =c "w"%char then set_opt (set_Write_Log (Some optarg));; set_opt (set_w_opt true)
  else if o =c "v"%char then set_opt (set_v_opt true)
  else if o =c "V"%char then
    (if strcasecmp_eq optarg (str "sync") then set_opt (set_Validation_Flags O_SYNC)
     else if strcasecmp_eq optarg (str "buffered") then set_opt (set_Validation_Flags 0)
     else match sscanf_ic optarg with Scan1 a => set_opt (set_Validation_Flags a) | _ => bad_option o optarg E_USAGE end);;
    set_opt (set_V_opt true)
  else if o =c "U"%char then add_conditions (strtok_all optarg (str ","));; set_opt (set_U_opt true)
  else if o =c "?"%char then say Usage;; exit_ E_USAGE
  else mret ().

Fixpoint handle_options (l : list (ascii * cstr)) : P () :=
  match l with [] => mret () | (o, arg) :: l => handle_option o arg;; handle_options l end.

Definition defaults : P () :=
  u ← opt U_opt; when (negb u) (set_opt (set_Upanic_Conditions 0));;
  n ← opt n_opt; when (negb n) (set_opt (set_Nprocs 1));;
  r ← opt r_opt; when (negb r) (set_opt (set_Release_Interval DEF_RELEASE_INTERVAL));;
  m ← opt M_opt;
  when (negb m)
    (n ← get Nmemalloc; l ← get Memalloc;
     M ← lift (mem_get l n);
     modify (set_Memalloc (<[Z.to_nat n := Mem MEM_DATA 0 (m_nblks M) None 0 (m_fd M) (m_size M)]> l));;
     modify (set_Nmemalloc (n + 1))).

Definition parse_cmdline (argv0 : cstr) (opts : list (ascii * cstr)) (args : list cstr) : P () :=
  argv0 ← lift (match argv0 with
                | c :: s => if c =c "-"%char then Ret (s, true) else Ret (argv0, false)
                | [] => Ret ([], false)
                end);
  set_opt (set_Execd argv0.2);;
  set_opt (set_Prog (base_name argv0.1));;
  handle_options opts;;
  defaults;;
  match args with
  | [] => set_opt (set_Infile None)
  | [f] => set_opt (set_Infile (Some f))
  | f :: _ => set_opt (set_Infile (Some f));; say Usage;; exit_ E_USAGE
  end.

(** ** The child *)

(** The name of the host up to the first dot, in an array of 16 bytes. *)
Definition host_of (buf : cstr) : res cstr :=
  let '(h, rest) := span (λ c, negb ((c =c "."%char) || (c =c NUL))) buf in
  match rest with [] => Undef | _ => Ret h end.

Definition pattern_text (pid : Z) (host prog tail : cstr) : res cstr :=
  let t := str "-:" ++ fmt_d pid ++ str ":" ++ host ++ str ":" ++ prog ++ tail in
  if zlength t <? 128 then Ret t else Undef.

Definition init_pattern : P () :=
  h ← sys (Gethostname 16);
  host ← lift (host_of h);
  modify (set_Host host);;
  prog ← opt Prog; pid ← sys Getpid;
  t ← lift (pattern_text pid host prog (str "*"));
  t ← (if zlength t %% 16 =? 0 then pid ← sys Getpid; lift (pattern_text pid host prog (str "**")) else mret t);
  modify (set_Pattern t).

Definition open_log (trunc : bool) (status : Z) : P () :=
  name ← opt Write_Log;
  match name with
  | None => lift Undef
  | Some n =>
      (if zlength n <? 1024 then mret () else lift Undef);;
      s ← sys LogState;
      let '(env, _, file) := (s : wlog_env * list Z * option (list Z)) in
      let '(r, file) := wlog_open env trunc file in
      sys (LogSet file);;
      when (r <? 0) (say NoLog;; exit_ status)
  end.

Definition child_action (i : Z) : action :=
  if i =? SIGINT then Cleanup
  else if i =? SIGBUS then Sigbus
  else if bool_decide (i ∈ [SIGSTOP; SIGCONT]) then Ignore
  else if bool_decide (i ∈ [SIGURG; SIGHUP; SIGTERM; SIGPIPE; SIGIO; SIGUSR1; SIGUSR2]) then Die
  else Default.

Definition doio_delay : P () :=
  op ← opt delayop; t ← opt delaytime;
  if op =? DELAY_SELECT then sys (Select (t %/ 1000000) (t %% 1000000))
  else if op =? DELAY_SLEEP then sys (Sleep (u32 t))
  else if op =? DELAY_ALARM then
    sys (Sigaction SIGALRM Noop);; sys (Alarm (u32 t));; sys Sigsuspend;; sys (Sigaction SIGALRM (Old SIGALRM))
  else mret ().

(** The types for which do_rw is called. *)
Definition rw_types : list Z :=
  [READV; AREAD; PREAD; LREAD; LREADA; LSREAD; LSREADA; WRITEV; AWRITE; PWRITE; MMAPR; MMAPW; LWRITE; LWRITEA; LSWRITE; LSWRITEA;
   LEREAD; LEREADA; LEWRITE; LEWRITEA].

Definition do_request (req : cstr) : P Z :=
  let t := req_type req in
  if bool_decide (t ∈ [READ; READA]) then do_read req
  else if bool_decide (t ∈ [WRITE; WRITEA]) then do_write req
  else if bool_decide (t ∈ rw_types) then do_rw req
  else if bool_decide (t ∈ [FSYNC2; FDATASYNC]) then do_sync req
  else say (UnknownType t);; quit E_SETUP.

Definition release : P () :=
  n ← get Reqno; r ← opt Release_Interval;
  when (negb (n =? 0) && negb (r =? 0) && (n %% r =? 0))
    (m ← get Memsize; when (negb (m =? 0)) (alloc_mem (-1);; mret ());; alloc_fd None 0;; mret ()).

Definition check_parent : P () :=
  n ← get Reqno;
  when (negb (n =? 0) && (n %% PPID_CHECK_INTERVAL =? 0))
    (p ← sys Getppid; when (p =? 1) (say ParentGone;; quit E_SETUP)).

(** What follows an operation. *)
Definition finish (type rval : Z) : P () :=
  (if rval =? SKIP_REQ then
     n ← get Reqskipcnt; n ← lift (ck32 (n + 1)); modify (set_Reqskipcnt n)
   else when (negb (rval =? 0)) (alloc_mem (-1);; say (Returned type);; exit_ E_SETUP));;
  m ← opt Message_Interval; n ← get Reqno; s ← get Reqskipcnt;
  when (negb (m =? 0) && (n %% m =? 0)) (say (Progress n s));;
  n ← lift (ck32 (n + 1));
  modify (set_Reqno n);;
  d ← opt delayop;
  when (negb (d =? 0)) doio_delay.

(** One turn of the loop: the request is there. *)
Definition turn (req : cstr) : P () :=
  if negb (zlength req =? sizeof_io_req) then say (InputShort (zlength req));; quit E_SETUP
  else if negb (get_int req r_magic =? DOIO_MAGIC) then say (BadMagic (get_int req r_magic));; quit E_SETUP
  else
    release;;
    rval ← do_request req;
    finish (req_type req) rval.

Fixpoint doio_loop (fuel : nat) (infd : Z) : P () :=
  match fuel with
  | O => lift NoFuel
  | S fuel =>
      r ← sys (ReadIn infd sizeof_io_req);
      match r with
      | inr [] => mret ()
      | inl e => check_parent;; say (InputFailed e);; quit E_SETUP
      | inr req => check_parent;; turn req;; doio_loop fuel infd
      end
  end.

Definition doio {A} (fuel : nat) : P A :=
  modify (set_Memsize 0);;
  init_pattern;;
  w ← opt w_opt; when w (open_log false E_SETUP);;
  inf ← opt Infile;
  infd ← (match inf with
          | None => mret 0
          | Some f =>
              r ← sys (Open (Some f) O_RDWR 0);
              match r with inl _ => say (NoInput f);; exit_ E_SETUP | inr fd => mret fd end
          end);
  each (seqZ 1 NSIG) (λ i, sys (Sigaction i (child_action i)));;
  doio_loop fuel infd;;
  quit E_NORMAL.

(** ** The parent *)

Definition main_signals : list Z :=
  filter (λ i, i ∉ [SIGTSTP; SIGSTOP; SIGCONT; SIGCLD; SIGBUS; SIGSEGV; SIGQUIT]) (seqZ 1 NSIG).

Definition WIFEXITED (stat : Z) : bool := Z.land stat 127 =? 0.
Definition WEXITSTATUS (stat : Z) : Z := Z.land (Z.shiftr stat 8) 255.
Definition WTERMSIG (stat : Z) : Z := Z.land stat 127.
Definition WIFSIGNALED (stat : Z) : bool := 0 <? Z.shiftr (s8 (Z.land stat 127 + 1)) 1.

(** The parent's handler for SIGINT. *)
Definition sigint_handler (sig : Z) : P () :=
  l ← get Children; each l (λ c, when (negb (c =? -1)) (sys (Kill c SIGINT))).

(** What the status of a child adds to that of the parent. *)
Definition child_status (a : bool) (pid stat : Z) : P Z :=
  if WIFEXITED stat then
    let s := WEXITSTATUS stat in
    if s =? E_NORMAL then mret 0
    else if s =? E_INTERNAL then say (ChildInternal pid);; mret E_INTERNAL
    else if s =? E_SETUP then say (ChildSetup pid);; mret E_SETUP
    else if s =? E_COMPARE then say (ChildCompare pid);; when a (sys (Kill 0 SIGINT));; mret E_COMPARE
    else if s =? E_USAGE then say (ChildUsage pid);; mret E_USAGE
    else say (ChildUnknown pid s);; mret E_INTERNAL
  else if WIFSIGNALED stat && negb (WTERMSIG stat =? SIGINT) then say (ChildSignal pid (WTERMSIG stat));; mret E_SIGNAL
  else mret 0.

(** The status is indeterminate until [wait] has stored one. *)
Fixpoint wait_loop (fuel : nat) (nprocs : Z) (stat : option Z) (ex_stat : Z) : P Z :=
  match fuel with
  | O => lift NoFuel
  | S fuel =>
      if nprocs =? 0 then mret ex_stat
      else
        r ← sys Wait;
        match r with
        | inl e =>
            if e =? EINTR then wait_loop fuel nprocs stat ex_stat
            else
              st ← lift (match stat with Some s => Ret s | None => Undef end);
              a ← opt a_opt;
              s ← child_status a (-1) st;
              wait_loop fuel (nprocs - 1) stat (Z.lor ex_stat s)
        | inr (pid, st) =>
            modify (λ g, set_Children ((λ c, if c =? pid then -1 else c) <$> Children g) g);;
            a ← opt a_opt;
            s ← child_status a pid st;
            wait_loop fuel (nprocs - 1) (Some st) (Z.lor ex_stat s)
        end
  end.

(** The program that a child executes anew. *)
Definition execd {A} (fuel : nat) (argv0 : cstr) (opts : list (ascii * cstr)) (args : list cstr) : P A :=
  modify (λ _, start);;
  sys (Umask 0);;
  parse_cmdline ("-"%char :: argv0) opts args;;
  pid ← sys Getpid; sys (Srand48 pid);;
  doio fuel.

Definition fork_child (fuel : nat) (argv0 : cstr) (opts : list (ascii * cstr)) (args : list cstr) (i : Z) : P () :=
  r ← sys Fork;
  match r with
  | inl e => say (ForkFailed (i + 1) e);; exit_ E_SETUP
  | inr pid =>
      modify (λ g, set_Children (Children g ++ [pid]) g);;
      when (pid =? 0)
        (e ← opt e_opt;
         if e : bool then
           r ← sys (Execvp argv0);
           match r with inl e => say (ExecFailed e);; exit_ E_SETUP | inr _ => execd fuel argv0 opts args end
         else doio fuel)
  end.

Definition main (fuel : nat) (argv0 : cstr) (opts : list (ascii * cstr)) (args : list cstr) : P () :=
  sys (Umask 0);;
  set_opt (set_TagName []);;
  parse_cmdline argv0 opts args;;
  pid ← sys Getpid; sys (Srand48 pid);;
  x ← opt Execd;
  if x : bool then doio fuel
  else
    each main_signals (λ i, sys (Sigaction i Sigint));;
    w ← opt w_opt; when w (open_log true 2);;
    n ← opt Nprocs;
    ok ← sys (More (4 * n));
    (if ok : bool then mret () else lift Undef);;
    sys (Sigblock SIGCLD);;
    if n =? 1 then doio fuel
    else
      each (seqZ 0 n) (fork_child fuel argv0 opts args);;
      st ← wait_loop fuel n None E_NORMAL;
      exit_ st.
End main.
