(* ===== verification/DoioPosix.v ===== *)
(** * The system on which doio is verified

    What POSIX says of the calls that testcases/kernel/fs/doio/doio.c makes, for regular
    files that exist: a view of the state (files, open files, memory, mappings, input, the
    log), and for each call how it answers and changes the view.  Only what doio relies on
    is said; descriptors, addresses and what fresh memory holds are up to the system.  A
    system may be [faulty]: then what a write leaves in the file is arbitrary, which is what
    doio is there to detect.  At the end a system of this kind is given. *)

From S2P Require Import Prelude CInt CMem CString OpenFlags WriteLog CProg Doio.
Local Open Scope Z_scope.

(** ** The view *)

Record ofile : Type := OFile { of_path : cstr; of_flags : Z; of_pos : Z }.
(** A mapping of a file from its start on. *)
Record vmap : Type := VMap { vm_path : cstr; vm_len : Z; vm_write : bool }.

Record view : Type := View {
  v_files : gmap cstr cstr; v_fds : gmap Z ofile; v_heap : gmap Z cstr; v_maps : gmap Z vmap;
  v_in : list cstr; v_log : option (list Z); v_pid : Z; v_host : cstr }.

Definition set_files (x : gmap cstr cstr) (v : view) : view := View x (v_fds v) (v_heap v) (v_maps v) (v_in v) (v_log v) (v_pid v) (v_host v).
Definition set_fds (x : gmap Z ofile) (v : view) : view := View (v_files v) x (v_heap v) (v_maps v) (v_in v) (v_log v) (v_pid v) (v_host v).
Definition set_heap (x : gmap Z cstr) (v : view) : view := View (v_files v) (v_fds v) x (v_maps v) (v_in v) (v_log v) (v_pid v) (v_host v).
Definition set_maps (x : gmap Z vmap) (v : view) : view := View (v_files v) (v_fds v) (v_heap v) x (v_in v) (v_log v) (v_pid v) (v_host v).
Definition set_in (x : list cstr) (v : view) : view := View (v_files v) (v_fds v) (v_heap v) (v_maps v) x (v_log v) (v_pid v) (v_host v).
Definition set_log (x : option (list Z)) (v : view) : view := View (v_files v) (v_fds v) (v_heap v) (v_maps v) (v_in v) x (v_pid v) (v_host v).

(** ** The calls *)

(** Flags that neither create nor change a file. *)
Definition plain (flags : Z) : bool := Z.land flags (Z.lor (Z.lor O_CREAT O_EXCL) (Z.lor O_TRUNC O_APPEND)) =? 0.
Definition can_read (flags : Z) : bool := bool_decide (Z.land flags 3 ∈ [O_RDONLY; O_RDWR]).
Definition can_write (flags : Z) : bool := bool_decide (Z.land flags 3 ∈ [O_WRONLY; O_RDWR]).

(** The [n] bytes at [a] lie in the block at [b]. *)
Definition in_block (v : view) (b : Z) (blk : cstr) (a n : Z) : Prop :=
  v_heap v !! b = Some blk ∧ b ≤ a ∧ 0 ≤ n ∧ a + n ≤ b + zlength blk.
(** They lie in the mapping at [b] of a file with this contents. *)
Definition in_map (v : view) (b : Z) (m : vmap) (data : cstr) (a n : Z) : Prop :=
  v_maps v !! b = Some m ∧ v_files v !! vm_path m = Some data ∧ b ≤ a ∧ 0 ≤ n ∧ a + n ≤ b + vm_len m ∧ vm_len m ≤ zlength data.

(** An open file and its contents. *)
Definition opened (v : view) (fd : Z) (o : ofile) (data : cstr) : Prop :=
  v_fds v !! fd = Some o ∧ v_files v !! of_path o = Some data.

Section spec.
Context (faulty : bool) (limit : nat).

(** What a write of [d] at [off] makes of the contents. *)
Definition written_as (data : cstr) (off : Z) (d data' : cstr) : Prop :=
  length data' = length data ∧ (faulty = false → data' = store data off d).

Definition open_spec (path : cstr) (flags : Z) (v : view) (r : Z + Z) (v' : view) : Prop :=
  is_Some (v_files v !! path) → plain flags = true →
  (r = inl EMFILE ∧ v' = v ∧ (limit ≤ size (v_fds v))%nat) ∨
  (∃ fd, 0 ≤ fd ∧ v_fds v !! fd = None ∧ r = inr fd ∧ v' = set_fds (<[fd := OFile path flags 0]> (v_fds v)) v) ∧ (size (v_fds v) < limit)%nat.

Definition read_spec (fd a n : Z) (v : view) (r : Z + Z) (v' : view) : Prop :=
  ∀ o data b blk, opened v fd o data → can_read (of_flags o) = true → in_block v b blk a n →
    0 ≤ of_pos o → of_pos o + n ≤ zlength data →
    r = inr n ∧
    v' = set_fds (<[fd := OFile (of_path o) (of_flags o) (of_pos o + n)]> (v_fds v))
           (set_heap (<[b := store blk (a - b) (slice data (of_pos o) n)]> (v_heap v)) v).

Definition write_spec (fd a n : Z) (v : view) (r : Z + Z) (v' : view) : Prop :=
  ∀ o data b blk, opened v fd o data → can_write (of_flags o) = true → in_block v b blk a n →
    0 ≤ of_pos o → of_pos o + n ≤ zlength data →
    r = inr n ∧ ∃ data', written_as data (of_pos o) (slice blk (a - b) n) data' ∧
      v' = set_fds (<[fd := OFile (of_path o) (of_flags o) (of_pos o + n)]> (v_fds v))
             (set_files (<[of_path o := data']> (v_files v)) v).

Definition mmap_spec (len prot flags fd : Z) (v : view) (r : Z + Z) (v' : view) : Prop :=
  let w := negb (Z.land prot PROT_WRITE =? 0) in
  ∀ o data, opened v fd o data → can_read (of_flags o) = true → (w = true → can_write (of_flags o) = true) →
    flags = MAP_SHARED → len = zlength data → 0 < len →
    ∃ a, 0 < a ∧ v_maps v !! a = None ∧ r = inr a ∧ v' = set_maps (<[a := VMap (of_path o) len w]> (v_maps v)) v.

Definition peek_spec (a n : Z) (v : view) (r : access cstr) (v' : view) : Prop :=
  v' = v ∧
  (∀ b blk, in_block v b blk a n → r = Done (slice blk (a - b) n)) ∧
  (∀ b m data, in_map v b m data a n → r = Done (slice data (a - b) n)).

Definition poke_spec (a : Z) (d : cstr) (v : view) (r : access unit) (v' : view) : Prop :=
  (∀ b blk, in_block v b blk a (zlength d) → r = Done () ∧ v' = set_heap (<[b := store blk (a - b) d]> (v_heap v)) v) ∧
  (∀ b m data, in_map v b m data a (zlength d) → vm_write m = true →
     r = Done () ∧ ∃ data', written_as data (a - b) d data' ∧ v' = set_files (<[vm_path m := data']> (v_files v)) v).

Definition malloc_spec (n : Z) (v : view) (r : option Z) (v' : view) : Prop :=
  0 < n < 2 ^ 31 → ∃ a blk, 0 < a ∧ v_heap v !! a = None ∧ zlength blk = n ∧ r = Some a ∧ v' = set_heap (<[a := blk]> (v_heap v)) v.

Definition arrays_ok (r : wlog_rec) : Prop :=
  zlength (w_host r) = 9 ∧ zlength (w_path r) = 129 ∧ zlength (w_pattern r) = 65 ∧
  Forall is_byte (w_host r) ∧ Forall is_byte (w_path r) ∧ Forall is_byte (w_pattern r).

Definition posix_spec {R} (c : call R) (v : view) : R → view → Prop :=
  match c in call R return R → view → Prop with
  | Getpid => λ r v', v' = v ∧ r = v_pid v
  | Getppid => λ r v', v' = v ∧ r ≠ 1
  | Gethostname _ => λ r v', v' = v ∧ r = v_host v
  | Open (Some path) flags _ => open_spec path flags v
  | Close fd => λ _ v', v' = set_fds (delete fd (v_fds v)) v
  | Lseek fd off => λ r v', ∀ o, v_fds v !! fd = Some o → 0 ≤ off →
      r = inr off ∧ v' = set_fds (<[fd := OFile (of_path o) (of_flags o) off]> (v_fds v)) v
  | Read fd a n | Readv fd a n => read_spec fd a n v
  | Write fd a n | Writev fd a n => write_spec fd a n v
  | SetLkw fd _ _ _ => λ r v', v' = v ∧ (is_Some (v_fds v !! fd) → r = inr ())
  | Fsync fd | Fdatasync fd => λ r v', v' = v ∧ (is_Some (v_fds v !! fd) → r = inr ())
  | Fstat fd => λ r v', v' = v ∧ ∀ o data, opened v fd o data → r = inr (zlength data)
  | Mmap len prot flags fd => mmap_spec len prot flags fd v
  | Munmap a len => λ _ v', ∀ m, v_maps v !! a = Some m → vm_len m = len → v' = set_maps (delete a (v_maps v)) v
  | Msync _ _ => λ _ v', v' = v
  | Malloc n => malloc_spec n v
  | Free a => λ _ v', is_Some (v_heap v !! a) → v' = set_heap (delete a (v_heap v)) v
  | More _ => λ r v', v' = v ∧ r = true
  | Peek a n => peek_spec a n v
  | Poke a d => poke_spec a d v
  | Lrand48 => λ r v', v' = v ∧ 0 ≤ r < 2 ^ 31
  | ReadIn _ n => λ r v',
      match v_in v with
      | [] => r = inr [] ∧ v' = v
      | d :: rest => zlength d = n → r = inr d ∧ v' = set_in rest v
      end
  | Stack => λ r v', v' = v ∧ arrays_ok r
  | LogState => λ r v', v' = v ∧ ∃ wbuf, length wbuf = 452%nat ∧ Forall is_byte wbuf ∧ r = (env_ok, wbuf, v_log v)
  | LogSet f => λ _ v', v' = set_log f v
  | Srand48 _ | Umask _ | Sigaction _ _ | Sigblock _ | Select _ _ | Sleep _ | Alarm _ | Sigsuspend | Say _ => λ _ v', v' = v
  | _ => λ _ _, True
  end.
End spec.

Class Posix (faulty : bool) (limit : nat) (Σ : Type) `{!System call Σ} := {
  view_of : Σ → view;
  valid : Σ → Prop;
  posix {R} (c : call R) k : valid k →
    valid (reply c k).2 ∧ posix_spec faulty limit c (view_of k) (reply c k).1 (view_of (reply c k).2) }.

(** ** A system *)

(** Blocks of memory and mappings have numbers; each has a part of the address space. *)
Definition region : Z := 2 ^ 40.

(** [y_lose] counts the writes until one is lost. *)
Record vsys : Type := VSys { y_view : view; y_next : Z; y_seed : Z; y_lose : option nat; y_said : list note }.

Definition set_view (v : view) (k : vsys) : vsys := VSys v (y_next k) (y_seed k) (y_lose k) (y_said k).
Definition used (k : vsys) : vsys := VSys (y_view k) (y_next k + 1) (y_seed k) (y_lose k) (y_said k).

Definition EBADF : Z := 9.
Definition EINVAL : Z := 22.
Definition ENOMEM : Z := 12.
Definition ENOENT : Z := 2.

(** The block or the mapping that an address lies in, with its bytes; a mapping with the
    file that it shows. *)
Definition segment (v : view) (a : Z) : option (Z * cstr * option vmap) :=
  let b := a / region * region in
  match v_heap v !! b with
  | Some blk => Some (b, blk, None)
  | None =>
      m ← v_maps v !! b; data ← v_files v !! vm_path m;
      Some (b, take (Z.to_nat (vm_len m)) data, Some m)
  end.

(** What the next write leaves in a file. *)
Definition file_write (k : vsys) (p : cstr) (off : Z) (d : cstr) : vsys :=
  let v := y_view k in
  match v_files v !! p with
  | None => k
  | Some data =>
      match y_lose k with
      | Some O => VSys v (y_next k) (y_seed k) None (y_said k)
      | l => VSys (set_files (<[p := store data off d]> (v_files v)) v) (y_next k) (y_seed k) (pred <$> l) (y_said k)
      end
  end.

Definition sys_peek (k : vsys) (a n : Z) : access cstr :=
  match segment (y_view k) a with
  | Some (b, d, _) => if (0 <=? n) && (a - b + n <=? zlength d) then Done (slice d (a - b) n) else Segv
  | None => Segv
  end.

Definition sys_poke (k : vsys) (a : Z) (d : cstr) : access unit * vsys :=
  let v := y_view k in
  match segment v a with
  | Some (b, x, m) =>
      if a - b + zlength d <=? zlength x then
        match m with
        | None => (Done (), set_view (set_heap (<[b := store x (a - b) d]> (v_heap v)) v) k)
        | Some m => if vm_write m then (Done (), file_write k (vm_path m) (a - b) d) else (Segv, k)
        end
      else (Segv, k)
  | None => (Segv, k)
  end.

Definition seek_to (k : vsys) (fd pos : Z) : vsys :=
  let v := y_view k in
  match v_fds v !! fd with
  | Some o => set_view (set_fds (<[fd := OFile (of_path o) (of_flags o) pos]> (v_fds v)) v) k
  | None => k
  end.

Definition sys_open (limit : nat) (k : vsys) (path : option cstr) (flags : Z) : (Z + Z) * vsys :=
  let v := y_view k in
  match path with
  | Some p =>
      if bool_decide (is_Some (v_files v !! p)) && plain flags then
        if (size (v_fds v) <? limit)%nat then
          (inr (y_next k), used (set_view (set_fds (<[y_next k := OFile p flags 0]> (v_fds v)) v) k))
        else (inl EMFILE, k)
      else (inl ENOENT, k)
  | None => (inl EINVAL, k)
  end.

Definition sys_read (k : vsys) (fd a n : Z) : (Z + Z) * vsys :=
  let v := y_view k in
  match (o ← v_fds v !! fd; data ← v_files v !! of_path o; Some (o, data)) with
  | Some (o, data) =>
      if can_read (of_flags o) && (0 <=? n) && (0 <=? of_pos o) && (of_pos o + n <=? zlength data) then
        match sys_poke k a (slice data (of_pos o) n) with
        | (Done _, k') => (inr n, seek_to k' fd (of_pos o + n))
        | _ => (inl EINVAL, k)
        end
      else (inl EINVAL, k)
  | None => (inl EBADF, k)
  end.

Definition sys_write (k : vsys) (fd a n : Z) : (Z + Z) * vsys :=
  let v := y_view k in
  match (o ← v_fds v !! fd; data ← v_files v !! of_path o; Some (o, data)) with
  | Some (o, data) =>
      if can_write (of_flags o) && (0 <=? n) && (0 <=? of_pos o) && (of_pos o + n <=? zlength data) then
        match sys_peek k a n with
        | Done d => (inr n, seek_to (file_write k (of_path o) (of_pos o) d) fd (of_pos o + n))
        | _ => (inl EINVAL, k)
        end
      else (inl EINVAL, k)
  | None => (inl EBADF, k)
  end.

Definition sys_mmap (k : vsys) (len prot fd : Z) : (Z + Z) * vsys :=
  let v := y_view k in
  match (o ← v_fds v !! fd; data ← v_files v !! of_path o; Some (o, data)) with
  | Some (o, data) =>
      if len =? zlength data then
        (inr (y_next k * region),
         used (set_view (set_maps (<[y_next k * region := VMap (of_path o) len (negb (Z.land prot PROT_WRITE =? 0))]> (v_maps v)) v) k))
      else (inl EINVAL, k)
  | None => (inl EBADF, k)
  end.

Definition sys_malloc (k : vsys) (n : Z) : option Z * vsys :=
  let v := y_view k in
  if (0 <? n) && (n <? 2 ^ 31) then
    (Some (y_next k * region), used (set_view (set_heap (<[y_next k * region := replicate (Z.to_nat n) "?"%char]> (v_heap v)) v) k))
  else (None, k).

Definition junk_rec : wlog_rec := Rec 0 0 0 0 0 0 (replicate 9 85) 0 (replicate 129 85) 0 (replicate 65 85) 0.

Definition vsys_reply (limit : nat) {R} (c : call R) (k : vsys) : R * vsys :=
  let v := y_view k in
  let has fd := bool_decide (is_Some (v_fds v !! fd)) in
  match c in call R return R * vsys with
  | Getpid => (v_pid v, k)
  | Getppid => (2, k)
  | Gethostname _ => (v_host v, k)
  | Open path flags _ => sys_open limit k path flags
  | Close fd => ((), set_view (set_fds (delete fd (v_fds v)) v) k)
  | Unlink _ => ((), k)
  | Lseek fd off => if has fd && (0 <=? off) then (inr off, seek_to k fd off) else (inl EINVAL, k)
  | Read fd a n | Readv fd a n => sys_read k fd a n
  | Write fd a n | Writev fd a n => sys_write k fd a n
  | SetLkw fd _ _ _ | Fsync fd | Fdatasync fd => (if has fd then inr () else inl EBADF, k)
  | Fstat fd => (match (o ← v_fds v !! fd; v_files v !! of_path o) with Some data => inr (zlength data) | None => inl EBADF end, k)
  | Mmap len prot _ fd => sys_mmap k len prot fd
  | Munmap a _ => ((), set_view (set_maps (delete a (v_maps v)) v) k)
  | Msync _ _ => ((), k)
  | Malloc n => sys_malloc k n
  | Free a => ((), set_view (set_heap (delete a (v_heap v)) v) k)
  | More _ => (true, k)
  | Shmget _ _ _ | Shmat _ _ => (inl EINVAL, k)
  | Shmdt _ | Shmctl_rmid _ => ((), k)
  | Peek a n => (sys_peek k a n, k)
  | Poke a d => sys_poke k a d
  | Lrand48 =>
      let s := (y_seed k * 25214903917 + 11) mod 2 ^ 48 in (s / 2 ^ 17, VSys v (y_next k) s (y_lose k) (y_said k))
  | Srand48 s => ((), VSys v (y_next k) (s mod 2 ^ 32 * 65536 + 13070) (y_lose k) (y_said k))
  | ReadIn _ n => match v_in v with [] => (inr [], k) | d :: rest => (inr d, set_view (set_in rest v) k) end
  | Stack => (junk_rec, k)
  | LogState => ((env_ok, replicate 452 0, v_log v), k)
  | LogSet f => ((), set_view (set_log f v) k)
  | Umask _ | Sigaction _ _ | Sigblock _ | Select _ _ | Sleep _ | Alarm _ | Sigsuspend | Kill _ _ => ((), k)
  | Fork => (inl 11, k)
  | Execvp _ => (inl ENOENT, k)
  | Wait => (inl 10, k)
  | Say m => ((), VSys v (y_next k) (y_seed k) (y_lose k) (y_said k ++ [m]))
  end.

(** Five descriptors, so that the cache has to close files. *)
Definition fd_limit : nat := 5.
#[global] Instance vsys_system : System call vsys := λ R, vsys_reply fd_limit.

(** Numbers are used once; contents fit into a part of the address space. *)
Record fits (faulty : bool) (k : vsys) : Prop := {
  fit_next : 0 < y_next k;
  fit_files : ∀ p d, v_files (y_view k) !! p = Some d → zlength d < region;
  fit_fds : ∀ fd o, v_fds (y_view k) !! fd = Some o → fd < y_next k;
  fit_heap : ∀ a blk, v_heap (y_view k) !! a = Some blk → zlength blk < region ∧ v_maps (y_view k) !! a = None ∧ ∃ i, i < y_next k ∧ a = i * region;
  fit_maps : ∀ a m, v_maps (y_view k) !! a = Some m → vm_len m < region ∧ ∃ i, i < y_next k ∧ a = i * region;
  fit_lose : faulty = false → y_lose k = None }.

Section posix.
Context (faulty : bool).
Implicit Types k : vsys.

Lemma region_base a i n : i * region ≤ a → a + n ≤ i * region + (region - 1) → 0 ≤ n → a / region * region = i * region.
Proof. unfold region. intros. assert (a / 2 ^ 40 = i) as ->; [|done]. symmetry. apply Z.div_unique with (a - i * 2 ^ 40); lia. Qed.

Lemma segment_block k b blk a n : fits faulty k → in_block (y_view k) b blk a n → segment (y_view k) a = Some (b, blk, None).
Proof.
  intros Hf (Hb & H1 & H2 & H3). destruct (fit_heap _ _ Hf _ _ Hb) as (Hl & _ & i & _ & ->). unfold segment.
  rewrite (region_base a i n) by lia. by rewrite Hb.
Qed.

Lemma segment_map k b m data a n : fits faulty k → in_map (y_view k) b m data a n →
  segment (y_view k) a = Some (b, take (Z.to_nat (vm_len m)) data, Some m).
Proof.
  intros Hf (Hb & Hd & H1 & H2 & H3 & H4). destruct (fit_maps _ _ Hf _ _ Hb) as (Hl & i & _ & ->). unfold segment.
  rewrite (region_base a i n) by lia. destruct (v_heap (y_view k) !! (i * region)) as [blk|] eqn:E.
  - destruct (fit_heap _ _ Hf _ _ E) as (_ & ? & _). congruence.
  - rewrite Hb. cbn. by rewrite Hd.
Qed.

Lemma peek_block k b blk a n : fits faulty k → in_block (y_view k) b blk a n → sys_peek k a n = Done (slice blk (a - b) n).
Proof.
  intros Hf Hb. unfold sys_peek. rewrite (segment_block _ _ _ _ _ Hf Hb). destruct Hb as (_ & H1 & H2 & H3).
  rewrite (proj2 (Z.leb_le 0 n)), (proj2 (Z.leb_le _ _)) by lia. done.
Qed.

Lemma peek_map k b m data a n : fits faulty k → in_map (y_view k) b m data a n → sys_peek k a n = Done (slice data (a - b) n).
Proof.
  intros Hf Hb. unfold sys_peek. rewrite (segment_map _ _ _ _ _ _ Hf Hb). destruct Hb as (_ & _ & H1 & H2 & H3 & H4).
  rewrite length_take, (proj2 (Z.leb_le 0 n)), (proj2 (Z.leb_le _ _)) by lia. cbn [andb]. by rewrite slice_take by lia.
Qed.

(** ** What is kept *)

Lemma fits_view k v : fits faulty k → (∀ p, length <$> v_files v !! p = length <$> v_files (y_view k) !! p) →
  (∀ fd, is_Some (v_fds v !! fd) → is_Some (v_fds (y_view k) !! fd)) →
  (∀ a, length <$> v_heap v !! a = length <$> v_heap (y_view k) !! a ∨ v_heap v !! a = None) →
  (∀ a m, v_maps v !! a = Some m → v_maps (y_view k) !! a = Some m) → fits faulty (set_view v k).
Proof.
  intros [F1 F2 F3 F4 F5 F6] Hfi Hfd Hh Hm. split; cbn; [done| | | | |done].
  - intros p d Hp. specialize (Hfi p). rewrite Hp in Hfi. cbn in Hfi. destruct (v_files (y_view k) !! p) as [d'|] eqn:E; [|done].
    injection Hfi as ->. by apply (F2 p).
  - intros fd o Ho. destruct (Hfd fd) as [o' ?]; [by rewrite Ho|]. by apply (F3 fd o').
  - intros a blk Ha. destruct (Hh a) as [H|H]; rewrite Ha in H; [|done]. cbn in H. destruct (v_heap (y_view k) !! a) as [blk'|] eqn:E; [|done].
    injection H as ->. destruct (F4 a blk' E) as (? & Hn & ?). split_and!; [done| |done].
    destruct (v_maps v !! a) as [m|] eqn:Em; [|done]. apply Hm in Em. congruence.
  - intros a m Ha. apply (F5 a m). by apply Hm.
Qed.

Lemma fits_seek k fd pos : fits faulty k → fits faulty (seek_to k fd pos).
Proof.
  intros Hf. unfold seek_to. destruct (v_fds (y_view k) !! fd) as [o|] eqn:E; [|done]. apply fits_view; cbn; try done; [|by left].
  intros fd'. destruct (decide (fd = fd')) as [->|]; [by rewrite E|by rewrite lookup_insert_ne].
Qed.

Lemma fits_write k p off d : fits faulty k → (∀ data, v_files (y_view k) !! p = Some data → 0 ≤ off ∧ off + zlength d ≤ zlength data) →
  fits faulty (file_write k p off d).
Proof.
  intros Hf Hb. unfold file_write. destruct (v_files (y_view k) !! p) as [data|] eqn:E; [|done]. destruct (Hb data eq_refl) as [B1 B2].
  assert (H : fits faulty (set_view (set_files (<[p := store data off d]> (v_files (y_view k))) (y_view k)) k)).
  { apply fits_view; cbn; try done; [|by left]. intros q. destruct (decide (p = q)) as [->|]; [|by rewrite lookup_insert_ne].
    rewrite lookup_insert_eq, E. cbn. by rewrite store_length by lia. }
  destruct (y_lose k) as [[|n]|] eqn:El; [destruct Hf|destruct H|destruct H]; split; try done; intros Hn; specialize (fit_lose0 Hn); cbn in *; congruence.
Qed.

Lemma written_write k p off d data : fits faulty k → v_files (y_view k) !! p = Some data → 0 ≤ off → off + zlength d ≤ zlength data →
  ∃ data', written_as faulty data off d data' ∧ y_view (file_write k p off d) = set_files (<[p := data']> (v_files (y_view k))) (y_view k).
Proof.
  intros Hf Hd H1 H2. unfold file_write. rewrite Hd. destruct (y_lose k) as [[|n]|] eqn:El.
  - exists data. split; [split; [done|]|]; [intros Hn; pose proof (fit_lose _ _ Hf Hn); congruence|].
    rewrite insert_id by done. cbn. by destruct (y_view k).
  - exists (store data off d). split; [|done]. split; [by rewrite store_length by lia|done].
  - exists (store data off d). split; [|done]. split; [by rewrite store_length by lia|done].
Qed.

Lemma segment_le v a b d m : segment v a = Some (b, d, m) → 0 ≤ a - b ∧ (m = None → v_heap v !! b = Some d) ∧
  (∀ m', m = Some m' → ∀ data, v_files v !! vm_path m' = Some data → zlength d ≤ zlength data).
Proof.
  unfold segment. intros H. assert (Hle : 0 ≤ a - a / region * region).
  { pose proof (Z.mul_div_le a region). unfold region in *. lia. }
  destruct (v_heap v !! _) as [blk|] eqn:E; [by injection H as <- <- <-|]. destruct (v_maps v !! _) as [m0|]; [cbn in H|done].
  destruct (v_files v !! vm_path m0) as [data|] eqn:Ed; [cbn in H|done]. injection H as <- <- <-. split_and!; [done|done|].
  intros m' [= <-] data' Hd. rewrite Ed in Hd. injection Hd as <-. rewrite length_take. lia.
Qed.

Lemma fits_heap_store k b blk off d : fits faulty k → v_heap (y_view k) !! b = Some blk → 0 ≤ off → off + zlength d ≤ zlength blk →
  fits faulty (set_view (set_heap (<[b := store blk off d]> (v_heap (y_view k))) (y_view k)) k).
Proof.
  intros Hf Hb H1 H2. apply fits_view; cbn; try done. intros a. left. destruct (decide (b = a)) as [->|]; [|by rewrite lookup_insert_ne].
  rewrite lookup_insert_eq, Hb. cbn. by rewrite store_length by lia.
Qed.

Lemma fits_poke k a d : fits faulty k → fits faulty (sys_poke k a d).2.
Proof.
  intros Hf. unfold sys_poke. destruct (segment (y_view k) a) as [[[b x] m]|] eqn:E; [|done]. destruct (segment_le _ _ _ _ _ E) as (H1 & H2 & H3).
  destruct (Z.leb_spec (a - b + zlength d) (zlength x)); [|done]. destruct m as [m|].
  - destruct (vm_write m); [|done]. apply fits_write; [done|]. intros data Hd. specialize (H3 m eq_refl data Hd). lia.
  - apply fits_heap_store; [done|by apply H2|done|lia].
Qed.

Lemma fits_used k v : fits faulty k → v_files v = v_files (y_view k) →
  (∀ fd o, v_fds v !! fd = Some o → fd = y_next k ∨ v_fds (y_view k) !! fd = Some o) →
  (∀ a blk, v_heap v !! a = Some blk → v_heap (y_view k) !! a = Some blk ∧ (a = y_next k * region → v_maps v !! a = None) ∨
     a = y_next k * region ∧ zlength blk < region ∧ v_maps v !! a = None) →
  (∀ a m, v_maps v !! a = Some m → v_maps (y_view k) !! a = Some m ∨ a = y_next k * region ∧ vm_len m < region) →
  fits faulty (used (set_view v k)).
Proof.
  intros [F1 F2 F3 F4 F5 F6] Hfi Hfd Hh Hm. split; cbn; [lia|by rewrite Hfi| | | |done].
  - intros fd o Ho. destruct (Hfd fd o Ho) as [->|H]; [lia|]. specialize (F3 _ _ H). lia.
  - intros a blk Ha. destruct (Hh a blk Ha) as [[H Hn]|(-> & Hl & Hn)]; [|split_and!; [done|done|exists (y_next k); lia]].
    destruct (F4 a blk H) as (Hl & Hm0 & i & Hi & ->). split_and!; [done| |exists i; lia].
    destruct (v_maps v !! (i * region)) as [m|] eqn:Em; [|done]. destruct (Hm _ _ Em) as [?|[Hi' _]]; [congruence|].
    specialize (Hn Hi'). congruence.
  - intros a m Ha. destruct (Hm a m Ha) as [H|[-> Hl]]; [|split; [done|exists (y_next k); lia]].
    destruct (F5 a m H) as (? & i & ? & ?). split; [done|]. exists i. lia.
Qed.

(** A number that has not been used is free. *)
Lemma fresh_addr k : fits faulty k → v_heap (y_view k) !! (y_next k * region) = None ∧ v_maps (y_view k) !! (y_next k * region) = None.
Proof.
  intros [F1 F2 F3 F4 F5 F6]. split; apply eq_None_not_Some; intros [x Hx].
  - destruct (F4 _ _ Hx) as (_ & _ & i & Hi & Ha). unfold region in Ha. lia.
  - destruct (F5 _ _ Hx) as (_ & i & Hi & Ha). unfold region in Ha. lia.
Qed.
Lemma fresh_fd k : fits faulty k → v_fds (y_view k) !! y_next k = None.
Proof. intros Hf. apply eq_None_not_Some. intros [o Ho]. pose proof (fit_fds _ _ Hf _ _ Ho). lia. Qed.

(** ** The calls *)

Abbreviation meets c k := (fits faulty (vsys_reply fd_limit c k).2 ∧ posix_spec faulty fd_limit c (y_view k) (vsys_reply fd_limit c k).1 (y_view (vsys_reply fd_limit c k).2)).

Lemma open_meets k path flags mode : fits faulty k → meets (Open path flags mode) k.
Proof.
  intros Hf. cbn. unfold sys_open. destruct path as [p|]; [|done]. split.
  - destruct (_ && _); [|done]. destruct (_ <? _)%nat; [|done]. cbn. apply fits_used; try done; cbn; [| |by left].
    + intros fd o. destruct (decide (fd = y_next k)) as [->|]; [by left|]. rewrite lookup_insert_ne by done. by right.
    + intros a blk Ha. left. split; [done|]. intros ->. by apply fresh_addr.
  - intros Hp Hpl. rewrite bool_decide_true, Hpl by done. cbn [andb]. destruct (Nat.ltb_spec (size (v_fds (y_view k))) fd_limit); [right|by left].
    split; [|done]. exists (y_next k). split_and!; [apply Z.lt_le_incl, Hf|by apply fresh_fd|done|done].
Qed.

Lemma seek_view k fd pos o : v_fds (y_view k) !! fd = Some o →
  y_view (seek_to k fd pos) = set_fds (<[fd := OFile (of_path o) (of_flags o) pos]> (v_fds (y_view k))) (y_view k).
Proof. intros H. unfold seek_to. by rewrite H. Qed.

Lemma poke_block k b blk a d : fits faulty k → in_block (y_view k) b blk a (zlength d) →
  sys_poke k a d = (Done (), set_view (set_heap (<[b := store blk (a - b) d]> (v_heap (y_view k))) (y_view k)) k).
Proof.
  intros Hf Hb. unfold sys_poke. rewrite (segment_block _ _ _ _ _ Hf Hb). destruct Hb as (_ & H1 & H2 & H3).
  by rewrite (proj2 (Z.leb_le _ _)) by lia.
Qed.

Lemma poke_meets k a d : fits faulty k → meets (Poke a d) k.
Proof.
  intros Hf. split; [by apply fits_poke|]. cbn. split.
  - intros b blk Hb. by rewrite (poke_block _ _ _ _ _ Hf Hb).
  - intros b m data Hm Hw. unfold sys_poke. rewrite (segment_map _ _ _ _ _ _ Hf Hm). destruct Hm as (_ & Hd & H1 & H2 & H3 & H4).
    rewrite length_take, (proj2 (Z.leb_le _ _)), Hw by lia. split; [done|]. by apply written_write; [..|lia|lia].
Qed.

Lemma read_meets k fd a n : fits faulty k →
  fits faulty (sys_read k fd a n).2 ∧ read_spec fd a n (y_view k) (sys_read k fd a n).1 (y_view (sys_read k fd a n).2).
Proof.
  intros Hf. unfold sys_read. split.
  - destruct (_ ≫= _) as [[o data]|]; [|done]. destruct (_ && _); [|done]. pose proof (fits_poke k a (slice data (of_pos o) n) Hf) as Hp.
    destruct (sys_poke _ _ _) as [[[]| |] k']; [|done|done]. by apply fits_seek.
  - intros o data b blk [Ho Hd] Hr Hb Hp Hn. rewrite Ho. cbn. rewrite Hd. cbn. pose proof Hb as (Hh & B1 & B2 & B3).
    rewrite Hr, !(proj2 (Z.leb_le _ _)) by lia. cbn [andb].
    assert (zlength (slice data (of_pos o) n) = n) as Hs by (rewrite slice_length; lia).
    rewrite (poke_block k b blk); [|done|by rewrite Hs]. cbn. split; [done|]. by erewrite seek_view by done.
Qed.

Lemma write_meets k fd a n : fits faulty k →
  fits faulty (sys_write k fd a n).2 ∧ write_spec faulty fd a n (y_view k) (sys_write k fd a n).1 (y_view (sys_write k fd a n).2).
Proof.
  intros Hf. unfold sys_write. split.
  - destruct (v_fds (y_view k) !! fd) as [o|]; [cbn|done]. destruct (v_files (y_view k) !! of_path o) as [data|] eqn:Hd; [cbn|done].
    destruct (_ && (of_pos o + n <=? zlength data)) eqn:E; [|done]. bool_hyps. destruct (sys_peek k a n) as [d| |] eqn:Ep; [|done|done].
    apply fits_seek, fits_write; [done|]. intros data' Hd'. rewrite Hd in Hd'. injection Hd' as <-. unfold sys_peek in Ep.
    destruct (segment _ _) as [[[b x] m]|] eqn:Es; [|done]. destruct (_ && _) eqn:E2; [|done]. bool_hyps. injection Ep as <-.
    destruct (segment_le _ _ _ _ _ Es) as (? & _). rewrite slice_length; lia.
  - intros o data b blk [Ho Hd] Hr Hb Hp Hn. rewrite Ho. cbn. rewrite Hd. cbn. pose proof Hb as (Hh & B1 & B2 & B3).
    rewrite Hr, !(proj2 (Z.leb_le _ _)) by lia. cbn [andb]. rewrite (peek_block _ _ _ _ _ Hf Hb). cbn. split; [done|].
    destruct (written_write k (of_path o) (of_pos o) (slice blk (a - b) n) data) as (data' & Hw & Hv);
      [done|done|done|rewrite slice_length; lia|]. exists data'. split; [done|].
    rewrite (seek_view _ _ _ o) by (by rewrite Hv). by rewrite Hv.
Qed.

Lemma mmap_meets k len prot flags fd : fits faulty k → meets (Mmap len prot flags fd) k.
Proof.
  intros Hf. cbn. unfold sys_mmap. destruct (fresh_addr k Hf) as [A1 A2]. split.
  - destruct (v_fds (y_view k) !! fd) as [o|]; [cbn|done]. destruct (v_files (y_view k) !! of_path o) as [data|] eqn:Hd; [cbn|done].
    destruct (Z.eqb_spec len (zlength data)); [|done]. cbn. apply fits_used; try done; cbn; [by right| |].
    + intros a blk Ha. left. split; [done|]. intros ->. congruence.
    + intros a m. destruct (decide (a = y_next k * region)) as [->|].
      * rewrite lookup_insert_eq. intros [= <-]. right. split; [done|]. cbn. subst. by apply (fit_files _ _ Hf (of_path o)).
      * rewrite lookup_insert_ne by done. by left.
  - intros o data [Ho Hd] _ _ _ Hl Hpos. rewrite Ho. cbn. rewrite Hd. cbn. rewrite (proj2 (Z.eqb_eq _ _) Hl).
    exists (y_next k * region). split_and!; [|done|done|done]. pose proof (fit_next _ _ Hf). unfold region. lia.
Qed.

Lemma malloc_meets k n : fits faulty k → meets (Malloc n) k.
Proof.
  intros Hf. cbn. unfold sys_malloc. destruct (fresh_addr k Hf) as [A1 A2]. split.
  - destruct (_ && _) eqn:E; [|done]. bool_hyps. cbn. apply fits_used; try done; cbn; [by right| |by left].
    intros a blk. destruct (decide (a = y_next k * region)) as [->|].
    + rewrite lookup_insert_eq. intros [= <-]. right. rewrite length_replicate. unfold region. split_and!; [done|lia|done].
    + rewrite lookup_insert_ne by done. intros Ha. by left.
  - intros Hn. rewrite !(proj2 (Z.ltb_lt _ _)) by lia. cbn [andb]. do 2 eexists. split_and!; [|exact A1| |done|done].
    + pose proof (fit_next _ _ Hf). unfold region. lia.
    + rewrite length_replicate. lia.
Qed.

Lemma fits_same k v : fits faulty k → v_files v = v_files (y_view k) → v_heap v = v_heap (y_view k) → v_maps v ⊆ v_maps (y_view k) →
  v_fds v ⊆ v_fds (y_view k) → fits faulty (set_view v k).
Proof.
  intros Hf Hfi Hh Hm Hfd. apply fits_view; try done; [by rewrite Hfi| |rewrite Hh; by left|].
  - intros fd [o Ho]. exists o. by eapply lookup_weaken.
  - intros a m Ha. by eapply lookup_weaken.
Qed.

Lemma lseek_meets k fd off : fits faulty k → meets (Lseek fd off) k.
Proof.
  intros Hf. cbn. split.
  - destruct (_ && _); [by apply fits_seek|done].
  - intros o Ho Hoff. rewrite bool_decide_true, (proj2 (Z.leb_le _ _) Hoff) by done. cbn. split; [done|]. by apply seek_view.
Qed.

Lemma small_bytes n x : is_byte x → Forall is_byte (replicate n x).
Proof. intros. by apply Forall_replicate. Qed.

Lemma vsys_meets {R} (c : call R) k : fits faulty k → meets c k.
Proof.
  intros Hf. destruct c;
    first [by apply open_meets|by apply lseek_meets|by apply read_meets|by apply write_meets|by apply mmap_meets|by apply malloc_meets
          |by apply poke_meets|by split|idtac]; cbn.
  - split; [|done]. apply fits_same; try done. apply delete_subseteq.
  - split; [done|]. split; [done|]. intros H. by rewrite bool_decide_true.
  - split; [done|]. split; [done|]. intros H. by rewrite bool_decide_true.
  - split; [done|]. split; [done|]. intros H. by rewrite bool_decide_true.
  - split; [done|]. split; [done|]. intros o data [Ho Hd]. rewrite Ho. cbn. by rewrite Hd.
  - split; [|done]. apply fits_same; try done. apply delete_subseteq.
  - split; [|done]. apply fits_view; cbn; try done. intros a. destruct (decide (addr = a)) as [->|]; [right; by rewrite lookup_delete_eq|].
    left. by rewrite lookup_delete_ne.
  - split; [done|]. split; [done|]. split; intros; [by eapply peek_block|by eapply peek_map].
  - split; [by destruct Hf|]. split; [done|]. pose proof (Z.mod_pos_bound (y_seed k * 25214903917 + 11) (2 ^ 48) ltac:(lia)).
    split; [apply Z.div_pos; lia|apply Z.div_lt_upper_bound; lia].
  - split; [by destruct Hf|done].
  - destruct (v_in (y_view k)); [done|]. split; [by apply fits_same|done].
  - split; [done|]. split; [done|]. split_and!; try done; by apply small_bytes.
  - split; [done|]. split; [done|]. exists (replicate 452 0). split_and!; [done|by apply small_bytes|done].
  - split; [by apply fits_same|done].
  - split; [by destruct Hf|done].
Qed.
End posix.

#[global] Instance vsys_posix faulty : Posix faulty fd_limit vsys :=
  {| view_of := y_view; valid := fits faulty; posix R c k Hk := vsys_meets faulty c k Hk |}.
