(* ===== verification/DoioProof.v ===== *)
(** * The operations of doio are right

    On a system that keeps to POSIX, the operations of testcases/kernel/fs/doio/doio.c carry
    out the requests that iogen makes: the cache of descriptors, the buffers, the calls,
    the verification and the log. *)

From S2P Require Import Prelude CInt CMem CString Pattern RandomRange OpenFlags WriteLog CProg IoReq Doio DoioMain DoioPosix.
Local Open Scope Z_scope.

(** The steps that need no thought. *)
Ltac dstep :=
  lazymatch goal with
  | |- wp (update_slot _ _) _ _ _ _ => unfold update_slot; apply pwp_modify
  | |- wp (opt _) _ _ _ _ => unfold opt; apply pwp_get
  | |- wp (if true then _ else _) _ _ _ _ => cbv iota
  | |- wp (if false then _ else _) _ _ _ _ => cbv iota
  | |- wp (when true _) _ _ _ _ => cbn [when]
  | |- wp (when false _) _ _ _ _ => cbn [when]
  | |- wp (sys _) _ _ _ _ => fail
  | _ => wp_step
  end.
Ltac dsteps := repeat dstep.

(** ** The cache of descriptors *)

Definition active (s : fd_cache) : Prop := c_fd s ≠ -1.
#[global] Instance active_dec s : Decision (active s).
Proof. unfold active. apply _. Defined.

(** What find_slot does. *)
Record searched (l : list fd_cache) (i : nat) (file : cstr) (oflags : Z) (free : option nat) (oldest : option (nat * Z)) : Prop := {
  se_miss : ∀ j s, (j < i)%nat → l !! j = Some s → active s → c_file s = file → c_oflags s = oflags → False;
  se_free : ∀ j, free = Some j → ∃ s, l !! j = Some s ∧ ¬ active s;
  se_old : ∀ j t, oldest = Some (j, t) → ∃ s, l !! j = Some s ∧ active s ∧ c_rtc s = t;
  se_least : ∀ j s, (j < i)%nat → l !! j = Some s → active s → ∃ n t, oldest = Some (n, t) ∧ t ≤ c_rtc s }.

Lemma search_spec l file oflags : 
  match find_slot l 0 file oflags None None with
  | inl i => ∃ s, l !! i = Some s ∧ active s ∧ c_file s = file ∧ c_oflags s = oflags
  | inr (free, oldest) => searched l (length l) file oflags free oldest
  end.
Proof.
  assert (H : ∀ rest pre free oldest, searched (pre ++ rest) (length pre) file oflags free oldest →
    match find_slot rest (length pre) file oflags free oldest with
    | inl i => ∃ s, (pre ++ rest) !! i = Some s ∧ active s ∧ c_file s = file ∧ c_oflags s = oflags
    | inr (free, oldest) => searched (pre ++ rest) (length (pre ++ rest)) file oflags free oldest
    end).
  { induction rest as [|cp rest IH]; intros pre free oldest Hs; cbn [find_slot]; [by rewrite app_nil_r in *|].
    assert (Hcp : (pre ++ cp :: rest) !! length pre = Some cp) by (rewrite lookup_app_r, Nat.sub_diag by lia; done).
    pose proof (IH (pre ++ [cp])) as IH'. rewrite <-!app_assoc, length_app, Nat.add_comm in IH'. cbn [app length Nat.add] in IH'.
    destruct Hs as [S1 S2 S3 S4].
    assert (Hlast : ∀ j s, (j < S (length pre))%nat → (pre ++ cp :: rest) !! j = Some s → (j < length pre)%nat ∨ s = cp).
    { intros j s Hj Hl. destruct (decide (j = length pre)) as [->|]; [right; by simplify_eq|left; lia]. }
    destruct (decide (active cp)) as [Ha|Ha].
    - rewrite (proj2 (Z.eqb_neq (c_fd cp) (-1)) Ha). cbn [negb andb].
      destruct (decide (c_oflags cp = oflags ∧ c_file cp = file)) as [[Eo Ef]|Em].
      { rewrite Eo, Z.eqb_refl, bool_decide_eq_true_2 by done. by exists cp. }
      assert (Hno : (c_oflags cp =? oflags) && bool_decide (c_file cp = file) = false).
      { apply andb_false_iff. rewrite Z.eqb_neq, bool_decide_eq_false. destruct (decide (c_oflags cp = oflags)); naive_solver. }
      rewrite Hno.
      apply IH'. split; [|done|..].
      + intros j s Hj Hl Hs Hf Ho. destruct (Hlast j s Hj Hl) as [?| ->]; [by eapply S1|]. by apply Em.
      + intros j t. destruct oldest as [[n u]|]; [case_if|]; intros [= <- <-]; eauto.
      + intros j s Hj Hl Hs. destruct (Hlast j s Hj Hl) as [Hj'| ->].
        * destruct (S4 j s Hj' Hl Hs) as (n & t & -> & Ht). case_if; eexists _, _; (split; [done|]); lia.
        * destruct oldest as [[n u]|]; [case_if|]; eexists _, _; (split; [done|]); lia.
    - assert (Hfd : c_fd cp = -1) by (unfold active in Ha; lia). rewrite Hfd. cbn [Z.eqb negb andb].
      apply IH'. split; [..|done|].
      + intros j s Hj Hl Hs Hf Ho. destruct (Hlast j s Hj Hl) as [?| ->]; [by eapply S1|done].
      + intros j. destruct free as [m|]; intros [= <-]; eauto.
      + intros j s Hj Hl Hs. destruct (Hlast j s Hj Hl) as [?| ->]; [by eapply S4|done]. }
  apply (H l [] None None). split; intros; simplify_eq/=; lia.
Qed.

(** ** What holds of the slots *)

Section invariant.
(** Whether -v is used (files are then mapped for each request), the descriptors that are
    not in the cache, and how many there may be. *)
Context (verify : bool) (base : gset Z) (limit : nat).

(** The mapping that a slot has. *)
Definition mapped (v : view) (s : fd_cache) (data : cstr) (a : Z) : Prop :=
  ∃ w, v_maps v !! a = Some (VMap (c_file s) (c_memlen s) w) ∧ c_memlen s = zlength data ∧ (Z.land (c_oflags s) 3 = O_RDWR → w = true).

Record slot_ok (v : view) (s : fd_cache) : Prop := {
  sl_fd : ∃ pos, v_fds v !! c_fd s = Some (OFile (c_file s) (c_oflags s) pos);
  sl_file : is_Some (v_files v !! c_file s);
  sl_map : ∃ a, c_memaddr s = Addr a ∧ (verify = false → a ≠ 0 → ∀ data, v_files v !! c_file s = Some data → mapped v s data a) }.

(** [cur] are the slots that the request at hand uses. *)
Record cache_ok (v : view) (reqno : Z) (cur : list nat) (l : list fd_cache) : Prop := {
  ca_slot : ∀ i s, l !! i = Some s → active s → slot_ok v s;
  ca_old : ∀ i s, l !! i = Some s → active s → c_rtc s ≤ reqno ∧ (c_rtc s = reqno ↔ i ∈ cur);
  ca_fd : ∀ i j s t, l !! i = Some s → l !! j = Some t → active s → c_fd s = c_fd t → i = j;
  ca_key : ∀ i j s t, l !! i = Some s → l !! j = Some t → active s → active t → c_file s = c_file t → c_oflags s = c_oflags t → i = j;
  ca_all : ∀ fd, is_Some (v_fds v !! fd) → fd ∈ base ∨ ∃ i s, l !! i = Some s ∧ active s ∧ c_fd s = fd;
  ca_base : ∀ i s, l !! i = Some s → active s → c_fd s ∉ base;
  ca_open : ∀ fd, fd ∈ base → is_Some (v_fds v !! fd);
  ca_size : (size (v_fds v) ≤ limit)%nat }.

(** The changes of the system that the cache does not notice: positions, contents of the
    same length, new mappings. *)
Record ext (v v' : view) : Prop := {
  ext_fd : ∀ fd o, v_fds v !! fd = Some o → ∃ pos, v_fds v' !! fd = Some (OFile (of_path o) (of_flags o) pos);
  ext_all : ∀ fd, is_Some (v_fds v' !! fd) → is_Some (v_fds v !! fd);
  ext_files : ∀ p, length <$> v_files v' !! p = length <$> v_files v !! p;
  ext_maps : verify = false → v_maps v ⊆ v_maps v' }.

Lemma ext_refl v : ext v v.
Proof. split; [|done..]. intros fd [p f pos] H. by exists pos. Qed.

Lemma ext_trans v1 v2 v3 : ext v1 v2 → ext v2 v3 → ext v1 v3.
Proof.
  intros [A1 A2 A3 A4] [B1 B2 B3 B4]. split.
  - intros fd o H. destruct (A1 fd o H) as [p Hp]. destruct (B1 _ _ Hp) as [p' Hp']. by exists p'.
  - auto.
  - intros p. by rewrite B3.
  - intros Hv. transitivity (v_maps v2); auto.
Qed.

Lemma ext_file v v' p data : ext v v' → v_files v !! p = Some data → ∃ data', v_files v' !! p = Some data' ∧ length data' = length data.
Proof.
  intros [_ _ Hf _] H. specialize (Hf p). rewrite H in Hf. destruct (v_files v' !! p) as [d|]; [|done].
  exists d. split; [done|]. by inversion Hf.
Qed.

Lemma ext_file_inv v v' p data : ext v v' → v_files v' !! p = Some data → ∃ data', v_files v !! p = Some data' ∧ length data = length data'.
Proof.
  intros [_ _ Hf _] H. specialize (Hf p). rewrite H in Hf. destruct (v_files v !! p) as [d|]; [|done].
  exists d. split; [done|]. by inversion Hf.
Qed.

Lemma slot_ok_ext v v' s : ext v v' → slot_ok v s → slot_ok v' s.
Proof.
  intros He [[pos Hfd] [d Hd] (a & Ha & Hm)]. split.
  - by apply (ext_fd v v' He) in Hfd.
  - destruct (ext_file v v' _ d He Hd) as (d' & H & _). by exists d'.
  - exists a. split; [done|]. intros Hv Hn data Hdata. destruct (ext_file_inv v v' _ data He Hdata) as (d' & Hd' & Hl).
    destruct (Hm Hv Hn d' Hd') as (w & H1 & H2 & H3). exists w. split_and!; [|by rewrite Hl|done].
    eapply lookup_weaken; [exact H1|]. by apply (ext_maps v v' He).
Qed.

Lemma cache_ok_ext v v' reqno cur l : ext v v' → cache_ok v reqno cur l → cache_ok v' reqno cur l.
Proof.
  intros He [C1 C2 C3 C4 C5 C6 C7 C8]. split; try done.
  - intros i s Hi Hs. by eapply slot_ok_ext, C1.
  - intros fd Hfd. apply C5. by apply (ext_all v v' He).
  - intros fd Hfd. destruct (C7 fd Hfd) as [o Ho]. destruct (ext_fd v v' He fd o Ho) as [pos Hp]. by eexists.
  - assert (Hd : dom (v_fds v') ⊆ dom (v_fds v)) by (intros fd; rewrite !elem_of_dom; apply (ext_all v v' He)).
    apply subseteq_size in Hd. rewrite !size_dom in Hd. lia.
Qed.

(** *** The changes of the cache *)

Lemma cache_ok_touch v reqno cur l i : cache_ok v reqno cur l → cache_ok v reqno (i :: cur) (alter (set_c_rtc reqno) i l).
Proof.
  intros [C1 C2 C3 C4 C5 C6 C7 C8].
  assert (Hl : ∀ j s, alter (set_c_rtc reqno) i l !! j = Some s → ∃ t, l !! j = Some t ∧ s = (if decide (i = j) then set_c_rtc reqno t else t)).
  { intros j s. destruct (decide (i = j)) as [<-|]; [rewrite list_lookup_alter_eq|rewrite list_lookup_alter_ne by done; by eauto].
    destruct (l !! i); intros [= <-]. by eexists. }
  split; [..|done|done].
  - intros j s Hj Hs. destruct (Hl j s Hj) as (t & Ht & ->). destruct (decide (i = j)); [|by apply (C1 j)]. destruct (C1 j t Ht Hs). by split.
  - intros j s Hj Hs. destruct (Hl j s Hj) as (t & Ht & ->). destruct (decide (i = j)) as [<-|Hne]; [split; [simpl; lia|simpl; set_solver]|].
    destruct (C2 j t Ht Hs) as [H1 H2]. split; [done|]. rewrite H2. set_solver.
  - intros j1 j2 s1 s2 H1 H2. destruct (Hl _ _ H1) as (t1 & Ht1 & ->). destruct (Hl _ _ H2) as (t2 & Ht2 & ->).
    intros Ha He. apply (C3 j1 j2 t1 t2); [done|done|by destruct (decide (i = j1))|by destruct (decide (i = j1)), (decide (i = j2))].
  - intros j1 j2 s1 s2 H1 H2. destruct (Hl _ _ H1) as (t1 & Ht1 & ->). destruct (Hl _ _ H2) as (t2 & Ht2 & ->).
    intros Ha1 Ha2 Hf Ho. apply (C4 j1 j2 t1 t2); [done|done|by destruct (decide (i = j1))|by destruct (decide (i = j2))|..];
      by destruct (decide (i = j1)), (decide (i = j2)).
  - intros fd Hfd. destruct (C5 fd Hfd) as [?|(j & s & Hj & Ha & Hs)]; [by left|right].
    exists j. destruct (decide (i = j)) as [<-|Hne]; [rewrite list_lookup_alter_eq, Hj|rewrite list_lookup_alter_ne, Hj by done]; by eexists.
  - intros j s Hj Hs. destruct (Hl j s Hj) as (t & Ht & ->). destruct (decide (i = j)); by apply (C6 j t Ht).
Qed.

Lemma cache_ok_grow v reqno cur l n : cache_ok v reqno cur l → cache_ok v reqno cur (l ++ replicate n new_slot).
Proof.
  intros [C1 C2 C3 C4 C5 C6 C7 C8].
  assert (Hl : ∀ j s, (l ++ replicate n new_slot) !! j = Some s → active s → l !! j = Some s).
  { intros j s [?|[? Hr]]%lookup_app_Some Ha; [done|]. apply lookup_replicate in Hr as [-> _]. done. }
  split; [eauto|eauto| | | | |done|done].
  - intros i j s t Hi Hj Ha He. apply (C3 i j s t); [by apply Hl|apply Hl; [done|]|done|done]. unfold active in *. by rewrite <-He.
  - intros i j s t Hi Hj Ha Ha'. apply C4; [by apply Hl|by apply Hl|done|done].
  - intros fd Hfd. destruct (C5 fd Hfd) as [?|(j & s & Hj & Ha & Hs)]; [by left|right]. exists j, s. split; [|done]. by apply lookup_app_l_Some.
  - intros i s Hi Ha. by eapply C6, Ha; apply Hl.
Qed.

(** Closing the descriptor of a slot. *)
Lemma cache_ok_close v reqno cur l i s0 : cache_ok v reqno cur l → l !! i = Some s0 → active s0 →
  cache_ok (set_fds (delete (c_fd s0) (v_fds v)) v) reqno cur (alter (set_c_fd (-1)) i l).
Proof.
  intros [C1 C2 C3 C4 C5 C6 C7 C8] Hi0 Ha0.
  assert (Hl : ∀ j s, alter (set_c_fd (-1)) i l !! j = Some s → active s → j ≠ i ∧ l !! j = Some s).
  { intros j s. destruct (decide (i = j)) as [<-|]; [rewrite list_lookup_alter_eq, Hi0; intros [= <-] []; done|].
    rewrite list_lookup_alter_ne by done. done. }
  assert (Hfd : ∀ j s, j ≠ i → l !! j = Some s → active s → c_fd s0 ≠ c_fd s).
  { intros j s Hne Hj Ha He. apply Hne. by eapply C3. }
  split.
  - intros j s Hj Ha. destruct (Hl j s Hj Ha) as [Hne Hj']. destruct (C1 j s Hj' Ha) as [[pos Hp] Hf Hm].
    split; [|done..]. exists pos. simpl. by rewrite lookup_delete_ne by (by eapply Hfd).
  - intros j s Hj Ha. destruct (Hl j s Hj Ha). eauto.
  - intros j1 j2 s1 s2 H1 H2 Ha He. destruct (Hl _ _ H1 Ha) as [? ?]. destruct (Hl _ _ H2) as [? ?]; [unfold active in *; by rewrite <-He|]. eauto.
  - intros j1 j2 s1 s2 H1 H2 Ha1 Ha2. destruct (Hl _ _ H1 Ha1), (Hl _ _ H2 Ha2). by apply C4.
  - intros fd Hd. simpl in Hd. apply lookup_delete_is_Some in Hd as [Hne Hd]. destruct (C5 fd Hd) as [?|(j & s & Hj & Ha & <-)]; [by left|].
    right. exists j, s. split; [|done]. rewrite list_lookup_alter_ne; [done|]. intros ->. by simplify_eq.
  - intros j s Hj Ha. destruct (Hl j s Hj Ha). eauto.
  - intros fd Hd. simpl. rewrite lookup_delete_ne; [by apply C7|]. intros <-. by destruct (C6 i s0 Hi0 Ha0).
  - simpl. destruct (sl_fd _ _ (C1 i s0 Hi0 Ha0)) as [pos Hp]. rewrite (map_size_delete_Some _ _ (mk_is_Some _ _ Hp)). lia.
Qed.

(** A new descriptor in a slot that was free. *)
Lemma cache_ok_add v reqno cur l i s0 f fl fd : cache_ok v reqno cur l → l !! i = Some s0 → ¬ active s0 →
  (∀ j s, l !! j = Some s → active s → c_file s = f → c_oflags s = fl → False) →
  v_fds v !! fd = None → 0 ≤ fd → is_Some (v_files v !! f) → (size (v_fds v) < limit)%nat →
  cache_ok (set_fds (<[fd := OFile f fl 0]> (v_fds v)) v) reqno (i :: cur) (alter (λ _, Slot f fl fd reqno (Addr 0) 0) i l).
Proof.
  intros [C1 C2 C3 C4 C5 C6 C7 C8] Hi0 Hn0 Hkey Hfd Hpos Hf Hroom. set (new := Slot f fl fd reqno (Addr 0) 0).
  assert (Hl : ∀ j s, alter (λ _, new) i l !! j = Some s → (j = i ∧ s = new) ∨ (j ≠ i ∧ l !! j = Some s)).
  { intros j s. destruct (decide (i = j)) as [<-|]; [rewrite list_lookup_alter_eq, Hi0; intros [= <-]; by left|].
    rewrite list_lookup_alter_ne by done. by right. }
  assert (Hne : ∀ j s, l !! j = Some s → active s → fd ≠ c_fd s).
  { intros j s Hj Ha ->. destruct (sl_fd _ _ (C1 j s Hj Ha)) as [pos Hp]. congruence. }
  split.
  - intros j s Hj Ha. destruct (Hl j s Hj) as [[-> ->]|[_ Hj']].
    + split; [exists 0; simpl; by rewrite lookup_insert_eq|done|]. exists 0. done.
    + destruct (C1 j s Hj' Ha) as [[pos Hp] Hff Hm]. split; [|done..]. exists pos. simpl. rewrite lookup_insert_ne; [done|by eapply Hne].
  - intros j s Hj Ha. destruct (Hl j s Hj) as [[-> ->]|[Hji Hj']]; [split; [simpl; lia|simpl; set_solver]|].
    destruct (C2 j s Hj' Ha) as [H1 H2]. split; [done|]. rewrite H2. set_solver.
  - intros j1 j2 s1 s2 H1 H2 Ha He. destruct (Hl _ _ H1) as [[-> ->]|[? ?]], (Hl _ _ H2) as [[-> ->]|[? ?]]; [done|..].
    + exfalso. eapply (Hne j2 s2); [done| |done]. unfold active in *. by rewrite <-He.
    + exfalso. by eapply (Hne j1 s1).
    + eauto.
  - intros j1 j2 s1 s2 H1 H2 Ha1 Ha2 Hff Ho. destruct (Hl _ _ H1) as [[-> ->]|[? ?]], (Hl _ _ H2) as [[-> ->]|[? ?]]; [done|..].
    + exfalso. by eapply (Hkey j2 s2).
    + exfalso. by eapply (Hkey j1 s1).
    + eauto.
  - intros fd' Hd. simpl in Hd. destruct (decide (fd = fd')) as [<-|Hn].
    + right. exists i, new. rewrite list_lookup_alter_eq, Hi0. split_and!; [done|unfold active; simpl; lia|done].
    + rewrite lookup_insert_ne in Hd by done. destruct (C5 fd' Hd) as [?|(j & s & Hj & Ha & <-)]; [by left|].
      right. exists j, s. split; [|done]. rewrite list_lookup_alter_ne; [done|]. intros ->. by simplify_eq.
  - intros j s Hj Ha. destruct (Hl j s Hj) as [[-> ->]|[_ Hj']]; [|eauto]. simpl. intros Hb. destruct (C7 fd Hb) as [o Ho]. congruence.
  - intros fd' Hd. simpl. destruct (C7 fd' Hd) as [o Ho]. rewrite lookup_insert_ne; [by eexists|]. intros <-. congruence.
  - simpl. rewrite map_size_insert_None by done. lia.
Qed.

Lemma cache_ok_cur v reqno cur cur' l : (∀ i, i ∈ cur ↔ i ∈ cur') → cache_ok v reqno cur l → cache_ok v reqno cur' l.
Proof. intros Hcur [C1 C2 C3 C4 C5 C6 C7 C8]. split; try done. intros i s Hi Ha. rewrite <-Hcur. eauto. Qed.

(** Another mapping for a slot. *)
Lemma cache_ok_remap v reqno cur l i s a len : cache_ok v reqno cur l → l !! i = Some s → active s →
  slot_ok v (set_c_memaddr a (set_c_memlen len s)) →
  cache_ok v reqno cur (alter (set_c_memaddr a) i (alter (set_c_memlen len) i l)).
Proof.
  intros [C1 C2 C3 C4 C5 C6 C7 C8] Hi Ha Hok.
  assert (Hl : ∀ j t, alter (set_c_memaddr a) i (alter (set_c_memlen len) i l) !! j = Some t →
    ∃ t0, l !! j = Some t0 ∧ t = (if decide (i = j) then set_c_memaddr a (set_c_memlen len t0) else t0)).
  { intros j t. destruct (decide (i = j)) as [<-|]; [rewrite !list_lookup_alter_eq|rewrite !list_lookup_alter_ne by done; by eauto].
    destruct (l !! i); intros Hx; simplify_eq/=. by eexists. }
  split; [..|done|done].
  - intros j t Hj Ht. destruct (Hl j t Hj) as (t0 & Ht0 & ->). destruct (decide (i = j)) as [<-|]; [by simplify_eq|by apply (C1 j)].
  - intros j t Hj Ht. destruct (Hl j t Hj) as (t0 & Ht0 & ->). destruct (decide (i = j)); by apply (C2 j t0 Ht0).
  - intros j1 j2 s1 s2 H1 H2. destruct (Hl _ _ H1) as (t1 & Ht1 & ->). destruct (Hl _ _ H2) as (t2 & Ht2 & ->).
    intros Ha1 He. apply (C3 j1 j2 t1 t2); [done|done|by destruct (decide (i = j1))|by destruct (decide (i = j1)), (decide (i = j2))].
  - intros j1 j2 s1 s2 H1 H2. destruct (Hl _ _ H1) as (t1 & Ht1 & ->). destruct (Hl _ _ H2) as (t2 & Ht2 & ->).
    intros Ha1 Ha2 Hf Ho. apply (C4 j1 j2 t1 t2); [done|done|by destruct (decide (i = j1))|by destruct (decide (i = j2))|..];
      by destruct (decide (i = j1)), (decide (i = j2)).
  - intros fd Hfd. destruct (C5 fd Hfd) as [?|(j & t & Hj & Hat & Ht)]; [by left|right].
    exists j. destruct (decide (i = j)) as [<-|Hne]; [rewrite !list_lookup_alter_eq, Hj|rewrite !list_lookup_alter_ne, Hj by done]; by eexists.
  - intros j t Hj Ht. destruct (Hl j t Hj) as (t0 & Ht0 & ->). destruct (decide (i = j)); by apply (C6 j t0 Ht0).
Qed.

(** When no more files can be opened, there is a slot that can be given up. *)
Hypothesis Hlimit : (size base + 2 ≤ limit)%nat.

Lemma victim v reqno cur l : cache_ok v reqno cur l → (length cur ≤ 1)%nat → (limit ≤ size (v_fds v))%nat →
  ∃ i s, l !! i = Some s ∧ active s ∧ i ∉ cur.
Proof.
  intros Hc Hcur Hfull.
  pose (free i := match l !! i with Some s => i ∉ cur ∧ active s | None => False end).
  assert (Hdec : ∀ i, Decision (free i)) by (intros i; unfold free; destruct (l !! i); apply _).
  destruct (decide (Exists free (seq 0 (length l)))) as [He|Hno].
  { apply Exists_exists in He as (i & _ & Hi). unfold free in Hi. destruct (l !! i) as [s|] eqn:E; [|done]. exists i, s. naive_solver. }
  exfalso. pose (fds := list_to_set (omap (λ i, c_fd <$> l !! i) cur) : gset Z).
  assert (Hsub : dom (v_fds v) ⊆ base ∪ fds).
  { intros fd Hfd. apply elem_of_dom in Hfd. destruct (ca_all _ _ _ _ Hc fd Hfd) as [?|(i & s & Hi & Ha & Hs)]; [set_solver|].
    destruct (decide (i ∈ cur)) as [Hin|Hn].
    - apply elem_of_union_r. apply elem_of_list_to_set, list_elem_of_omap. exists i. split; [done|]. rewrite Hi. by subst.
    - destruct Hno. apply Exists_exists. exists i. unfold free. rewrite Hi. split; [|done].
      apply elem_of_seq. apply lookup_lt_Some in Hi. lia. }
  apply subseteq_size in Hsub. rewrite size_dom in Hsub. pose proof (size_union_alt base fds).
  assert (size fds ≤ 1)%nat.
  { assert (Hl : (length (omap (λ i, c_fd <$> l !! i) cur) ≤ 1)%nat) by (destruct cur as [|i [|]]; cbn in *; [lia|destruct (l !! i); cbn; lia|lia]).
    unfold fds. rewrite size_list_to_set; [done|]. destruct (omap _ cur) as [|x [|]]; [constructor|apply NoDup_singleton|cbn in Hl; lia]. }
  assert (size (fds ∖ base) ≤ size fds)%nat by (apply subseteq_size; set_solver). lia.
Qed.
End invariant.

Arguments ca_slot {verify base limit v reqno cur l} _.
Arguments ca_old {verify base limit v reqno cur l} _.
Arguments ca_key {verify base limit v reqno cur l} _.
Arguments ca_size {verify base limit v reqno cur l} _.
Arguments sl_fd {verify v s} _.
Arguments sl_file {verify v s} _.
Arguments sl_map {verify v s} _.

(** ** Patterns *)

Definition pat_bytes (p : cstr) (n : Z) : cstr := (λ i, default NUL (pattern_at p 0 i)) <$> seqZ 0 n.

Lemma pat_bytes_length p n : 0 ≤ n → zlength (pat_bytes p n) = n.
Proof. intros. unfold pat_bytes. rewrite length_fmap, length_seqZ. lia. Qed.

Lemma matches_pat_bytes p buf n : 0 < zlength p → zlength buf = n → matches buf p 0 n ↔ buf = pat_bytes p n.
Proof.
  intros Hp Hl.
  assert (Hget : ∀ i : nat, Z.of_nat i < n → pat_bytes p n !! i = pattern_at p 0 (Z.of_nat i)).
  { intros i Hi. unfold pat_bytes. rewrite list_lookup_fmap, lookup_seqZ_lt, !Z.add_0_l by lia. cbn. unfold pattern_at.
    destruct (lookup_lt_is_Some_2 p (Z.to_nat ((0 + Z.of_nat i) mod zlength p))) as [c Hc]; [pose proof (Z.mod_pos_bound (0 + Z.of_nat i) (zlength p)); lia|].
    by rewrite Hc. }
  split.
  - intros Hm. apply list_eq. intros i. destruct (decide (Z.of_nat i < n)) as [Hi|Hi].
    + rewrite Hget by done. rewrite <-Hm by lia. by rewrite Nat2Z.id.
    + rewrite !lookup_ge_None_2; [done| |lia]. pose proof (pat_bytes_length p n). lia.
  - intros -> i Hi. rewrite Hget by lia. by rewrite Z2Nat.id by lia.
Qed.

(** ** Messages about corruption *)

Lemma mapM_ret {A B} (f : A → res B) (h : A → B) l : (∀ x, x ∈ l → f x = Ret (h x)) → mapM f l = Ret (h <$> l).
Proof.
  induction l as [|x l IH]; intros H; [done|]. cbn. rewrite (H x), IH by (by left || (intros y Hy; apply H; by right)). done.
Qed.

(** The byte of the repeated pattern. *)
Definition pat_byte (p : cstr) (i : Z) : ascii := default NUL (pattern_at p 0 i).

Lemma mem_get_pattern p i : 0 < zlength p → 0 ≤ i < zlength p → mem_get p i = Ret (pat_byte p i).
Proof.
  intros Hp Hi. destruct (lookup_lt_is_Some_2 p (Z.to_nat i)) as [c Hc]; [lia|]. rewrite (mem_get_lookup p i c) by (done || lia).
  unfold pat_byte, pattern_at. by rewrite Z.add_0_l, Z.mod_small, Hc by lia.
Qed.

Lemma pat_byte_mod p i : pat_byte p (i mod zlength p) = pat_byte p i.
Proof. unfold pat_byte, pattern_at. by rewrite !Z.add_0_l, Zmod_mod. Qed.

(** Where the first byte differs, with up to 32 bytes from there on. *)
Definition points_at (buf : cstr) (at_ : Z) (p : cstr) (index : Z) (r : Z * cstr * cstr) : Prop :=
  ∃ j c, r.1.1 = at_ + Z.of_nat j ∧ buf !! j = Some c ∧ c ≠ pat_byte p (index + Z.of_nat j) ∧
    (∀ j', (j' < j)%nat → buf !! j' = Some (pat_byte p (index + Z.of_nat j'))) ∧
    r.2 = printable <$> take 32 (drop j buf) ∧
    r.1.2 = (λ i, printable (pat_byte p (index + Z.of_nat j + i))) <$> seqZ 0 (zlength r.2).

Lemma first_corrupt_spec p : 0 < zlength p → ∀ buf at_ index, 0 ≤ index < zlength p →
  ∃ r, first_corrupt buf at_ p index = Ret r ∧
    match r with
    | None => ∀ j, (j < length buf)%nat → buf !! j = Some (pat_byte p (index + Z.of_nat j))
    | Some x => points_at buf at_ p index x
    end.
Proof.
  intros Hp buf. induction buf as [|c buf IH]; intros at_ index Hi; [exists None; split; [done|]; simpl; lia|].
  cbn [first_corrupt]. rewrite mem_get_pattern, res_bind_ret by done. destruct (Ascii.eqb_spec c (pat_byte p index)) as [->|Hne].
  - set (next := if index + 1 =? zlength p then 0 else index + 1).
    assert (Hnext : ∀ j, pat_byte p (next + j) = pat_byte p (index + (j + 1))).
    { intros j. unfold next. case_if; bool_hyps; [|f_equal; lia]. rewrite <-(pat_byte_mod p (index + (j + 1))).
      replace (index + (j + 1)) with (0 + j + 1 * zlength p) by lia. by rewrite Z_mod_plus_full, pat_byte_mod. }
    destruct (IH (at_ + 1) next) as (r & -> & Hr); [unfold next; case_if; lia|]. exists r. split; [done|]. destruct r as [[[i e] a]|].
    + destruct Hr as (j & c & H1 & H2 & H3 & H4 & H5 & H6). exists (S j), c. cbn [fst snd] in *. split_and!; [lia|done| |..].
      * rewrite Hnext in H3. by replace (index + Z.of_nat (S j)) with (index + (Z.of_nat j + 1)) by lia.
      * intros [|j'] Hj'; [cbn; do 2 f_equal; lia|]. cbn. rewrite H4, Hnext by lia. do 2 f_equal. lia.
      * done.
      * rewrite H6. apply list_fmap_ext. intros _ x _. rewrite <-Z.add_assoc, Hnext. do 2 f_equal. lia.
    + intros [|j] Hj; cbn in *; [do 2 f_equal; lia|]. rewrite Hr, Hnext by lia. do 2 f_equal. lia.
  - set (nb := if 32 <? zlength (c :: buf) then 32 else zlength (c :: buf)).
    assert (Hnb : zlength (take (Z.to_nat nb) (c :: buf)) = nb ∧ take (Z.to_nat nb) (c :: buf) = take 32 (c :: buf)).
    { unfold nb. rewrite length_take. case_if; [split; [lia|done]|]. split; [lia|]. rewrite !take_ge by lia. done. }
    rewrite (mapM_ret _ (λ i, printable (pat_byte p (index + i)))).
    2: { intros i Hin. rewrite elem_of_seqZ in Hin. rewrite Z.rem_mod_nonneg, mem_get_pattern, pat_byte_mod by (lia || by apply Z.mod_pos_bound). done. }
    rewrite res_bind_ret. eexists. split; [done|]. exists 0%nat, c. cbn [fst snd]. rewrite !Z.add_0_r, length_fmap, (proj1 Hnb).
    split_and!; [done|done|done|lia|by rewrite (proj2 Hnb)|done].
Qed.

Lemma pat_bytes_lookup p n (i : nat) : Z.of_nat i < n → pat_bytes p n !! i = Some (pat_byte p (Z.of_nat i)).
Proof. intros Hi. unfold pat_bytes. by rewrite list_lookup_fmap, lookup_seqZ_lt, Z.add_0_l by lia. Qed.

(** doio_pat_check tells whether the bytes are those of the pattern; its message is about
    the first one that is not. *)
Lemma pat_check_ok buf offset n pattern : 0 < zlength pattern → zlength buf = n → 0 ≤ offset → offset + n < 2 ^ 31 →
  ∃ r, doio_pat_check buf offset n pattern 0 = Ret r ∧
    match r with
    | None => buf = pat_bytes pattern n
    | Some msg => buf ≠ pat_bytes pattern n ∧ ∃ i e a, points_at buf 0 pattern 0 (i, e, a) ∧
        msg = corrupt_text ++ place_text (offset + i) (zlength a) e a
    end.
Proof.
  intros Hp Hl Ho Hs. unfold doio_pat_check.
  destruct (pattern_check_verdict (S (Z.to_nat n)) buf pattern 0 n) as (r & -> & [[-> Hm]|[-> Hm]]); [lia..| |]; rewrite res_bind_ret.
  - exists None. split; [done|]. by apply matches_pat_bytes.
  - change (-1 =? 0) with false. cbv iota. unfold crem. rewrite (proj2 (Z.eqb_neq (zlength pattern) 0)) by lia.
    rewrite Z.rem_0_l, res_bind_ret by lia. rewrite take_ge by lia.
    destruct (first_corrupt_spec pattern Hp buf 0 0) as (r & -> & Hr); [lia|]. rewrite res_bind_ret. rewrite matches_pat_bytes in Hm by done.
    destruct r as [[[i e] a]|].
    + pose proof Hr as (j & c & H1 & H2 & _). cbn in H1. apply lookup_lt_Some in H2. rewrite ck32_ok by (unfold INT_MIN, INT_MAX; lia). rewrite res_bind_ret.
      eexists. split; [done|]. split; [done|]. by exists i, e, a.
    + destruct Hm. apply list_eq. intros j. destruct (decide (j < length buf)%nat) as [Hj|Hj].
      * rewrite pat_bytes_lookup by lia. by apply Hr.
      * rewrite !lookup_ge_None_2; [done| |lia]. pose proof (pat_bytes_length pattern n). lia.
Qed.

(** ** The operations *)

Section operations.
Context (faulty : bool) (limit : nat) {Σ : Type} `{!System call Σ} `{!Posix faulty limit Σ}.
Context (o : options) (base : gset Z).
Hypothesis Hlimit : (size base + 2 ≤ limit)%nat.

Implicit Types g : doio_t.
Implicit Types k : Σ.
Implicit Types v : view.

Abbreviation cache_ok := (cache_ok (v_opt o) base limit).
Abbreviation ext := (ext (v_opt o)).

Lemma wp_call {R : Set} (c : call R) (Q : R → doio_t → Σ → Prop) E g k : valid k →
  (∀ r k', valid k' → posix_spec faulty limit c (view_of k) r (view_of k') → Q r g k') → wp (sys c) Q E g k.
Proof. intros Hk HQ. apply pwp_sys. destruct (posix c k Hk) as [Hv Hs]. by apply HQ. Qed.

Lemma wp_say m (Q : () → doio_t → Σ → Prop) E g k : valid k → (∀ k', valid k' → view_of k' = view_of k → Q () g k') → wp (say m) Q E g k.
Proof. intros Hk HQ. apply wp_call; [done|]. intros [] k' Hk' Hs. by apply HQ. Qed.

(** *** alloc_fdcache *)

(** What a call does to the system besides opening and closing files. *)
Definition only_fds v v' : Prop := v' = set_fds (v_fds v') v.

Lemma only_fds_refl v : only_fds v v.
Proof. by destruct v. Qed.
Lemma only_fds_set v x : only_fds v (set_fds x v).
Proof. done. Qed.
Lemma only_fds_trans v1 v2 v3 : only_fds v1 v2 → only_fds v2 v3 → only_fds v1 v3.
Proof. unfold only_fds. intros -> ->. done. Qed.

Lemma wp_fill_slot cur f fl fd free Q E g k v : valid k → zlength f < 129 → 0 ≤ fd →
  cache_ok v (Reqno g) cur (cache g) → is_Some (v_files v !! f) → v_fds v !! fd = None → (size (v_fds v) < limit)%nat →
  view_of k = set_fds (<[fd := OFile f fl 0]> (v_fds v)) v →
  (∀ j s, cache g !! j = Some s → active s → c_file s = f → c_oflags s = fl → False) →
  (∀ j, free = Some j → ∃ s, cache g !! j = Some s ∧ ¬ active s) →
  (∀ i s l' k', valid k' → view_of k' = view_of k → cache_ok (view_of k') (Reqno g) (i :: cur) l' → l' !! i = Some s → active s →
     c_file s = f → c_oflags s = fl → (∀ j t, cache g !! j = Some t → active t → l' !! j = Some t) → Q (Some i) (set_cache l' g) k') →
  wp (fill_slot (Some f) fl fd free) Q E g k.
Proof.
  intros Hk Hlen Hfd Hc Hf Hnone Hroom Hv Hkey Hfree HQ. unfold fill_slot. wp_step.
  assert (Hgo : ∀ i s0 l1 k1, valid k1 → view_of k1 = view_of k → cache_ok v (Reqno g) cur l1 → l1 !! i = Some s0 → ¬ active s0 →
    (∀ j s, l1 !! j = Some s → active s → c_file s = f → c_oflags s = fl → False) →
    (∀ j t, cache g !! j = Some t → active t → l1 !! j = Some t) →
    Q (Some i) (set_cache (alter (λ _, Slot f fl fd (Reqno g) (Addr 0) 0) i l1) g) k1).
  { intros i s0 l1 k1 Hk1 Hv1 Hc1 Hi Hn Hkey1 Hkeep. apply (HQ i (Slot f fl fd (Reqno g) (Addr 0) 0)); [done|done| | |unfold active; simpl; lia|done|done|].
    - rewrite Hv1, Hv. by eapply cache_ok_add.
    - by rewrite list_lookup_alter_eq, Hi.
    - intros j t Hj Ha. rewrite list_lookup_alter_ne; [by apply Hkeep|]. intros <-. apply Hkeep in Hj; [|done]. by simplify_eq. }
  assert (Hlt : (zlength f <? MAX_FNAME_LENGTH + 1) = true) by (apply Z.ltb_lt; unfold MAX_FNAME_LENGTH; lia).
  destruct free as [i|].
  - destruct (Hfree i eq_refl) as (s0 & Hi & Hn). dsteps. rewrite Hlt. dsteps. by apply (Hgo i s0).
  - unfold grow_cache. dsteps. apply wp_call; [done|]. intros r k1 Hk1 [Hv1 ->]. cbn [negb]. dsteps. rewrite Hlt. dsteps.
    apply (Hgo _ new_slot (cache g ++ replicate (Z.to_nat FD_ALLOC_INCR) new_slot)); [done|done|by apply cache_ok_grow|rewrite lookup_app_r, Nat.sub_diag by lia; apply lookup_replicate_2; unfold FD_ALLOC_INCR; lia| |..].
    + unfold active. simpl. lia.
    + intros j s [Hj|[_ Hr]]%lookup_app_Some; [by apply (Hkey j)|]. apply lookup_replicate in Hr as [-> _]. done.
    + intros j t Hj _. by apply lookup_app_l_Some.
Qed.

(** A descriptor that is in the cache. *)
Lemma wp_hit cur f fl i s Q E g k v : cache_ok v (Reqno g) cur (cache g) → cache g !! i = Some s → active s → c_file s = f → c_oflags s = fl →
  Q (Some i) (set_cache (alter (set_c_rtc (Reqno g)) i (cache g)) g) k → wp (alloc_fdcache (Some f) fl) Q E g k.
Proof.
  intros Hc Hi Ha Hf Ho HQ. unfold alloc_fdcache. dsteps. pose proof (search_spec (cache g) f fl) as Hs. change (default [] (Some f)) with f.
  destruct (find_slot (cache g) 0 f fl None None) as [j|[free oldest]].
  - destruct Hs as (t & Hj & Hat & Hft & Hot). replace j with i by (eapply (ca_key Hc i j s t); congruence). dsteps. done.
  - exfalso. eapply se_miss; [exact Hs| |exact Hi|done..]. by eapply lookup_lt_Some.
Qed.

(** A file that exists gets a descriptor, from the cache or a new one; slots that are in
    use keep theirs. *)
Lemma wp_alloc_fdcache cur f fl Q E g k : valid k → cache_ok (view_of k) (Reqno g) cur (cache g) → (length cur ≤ 1)%nat →
  zlength f < 129 → is_Some (v_files (view_of k) !! f) → plain fl = true →
  (∀ i s l' k', valid k' → only_fds (view_of k) (view_of k') → cache_ok (view_of k') (Reqno g) (i :: cur) l' → l' !! i = Some s → active s →
     c_file s = f → c_oflags s = fl →
     (∀ j t, j ∈ cur → cache g !! j = Some t → active t → ∃ rtc, l' !! j = Some (set_c_rtc rtc t)) → Q (Some i) (set_cache l' g) k') →
  wp (alloc_fdcache (Some f) fl) Q E g k.
Proof.
  intros Hk Hc Hcur Hlen Hf Hpl HQ. unfold alloc_fdcache. dsteps. pose proof (search_spec (cache g) f fl) as Hs. change (default [] (Some f)) with f.
  destruct (find_slot (cache g) 0 f fl None None) as [i|[free oldest]].
  { destruct Hs as (s & Hi & Ha & Hff & Ho). dsteps.
    apply (HQ i (set_c_rtc (Reqno g) s)); [done|apply only_fds_refl|by apply cache_ok_touch|by rewrite list_lookup_alter_eq, Hi|done..|].
    intros j t Hj Ht _. destruct (decide (i = j)) as [<-|Hne].
    - exists (Reqno g). rewrite list_lookup_alter_eq, Hi. by simplify_eq.
    - exists (c_rtc t). rewrite list_lookup_alter_ne, Ht by done. by destruct t. }
  assert (Hkey : ∀ j s, cache g !! j = Some s → active s → c_file s = f → c_oflags s = fl → False).
  { intros j s Hj. apply (se_miss _ _ _ _ _ _ Hs j s); [by eapply lookup_lt_Some|done]. }
  assert (Hkeep : ∀ t : fd_cache, t = set_c_rtc (c_rtc t) t) by by intros [].
  wp_step. unfold open_slot. dsteps. apply wp_call; [done|]. intros r k1 Hk1 Hopen. cbn in Hopen.
  destruct (Hopen Hf Hpl) as [(-> & Hv1 & Hfull)|[(fd & Hpos & Hnone & -> & Hv1) Hroom]].
  - change (negb (EMFILE =? EMFILE)) with false. dstep.
    destruct (victim (v_opt o) base limit Hlimit _ _ _ _ Hc Hcur Hfull) as (j & t & Hj & Hat & Hjc).
    destruct (se_least _ _ _ _ _ _ Hs j t) as (i & rt & -> & Hle); [by eapply lookup_lt_Some|done|done|].
    destruct (se_old _ _ _ _ _ _ Hs i rt eq_refl) as (s & Hi & Has & <-).
    assert (Hic : i ∉ cur).
    { intros Hin. pose proof (ca_old Hc j t Hj Hat) as [Ht1 Ht2]. pose proof (ca_old Hc i s Hi Has) as [_ Hs2].
      apply Hjc, Ht2. apply Hs2 in Hin. lia. }
    do 3 dstep. eapply pwp_lift; [apply mem_get_lookup; [lia|rewrite Nat2Z.id; exact Hi]|]. dsteps.
    apply wp_call; [done|]. intros [] k2 Hk2 Hv2. cbn in Hv2. rewrite Hv1 in Hv2. dsteps.
    assert (Hc2 := cache_ok_close _ _ _ _ _ _ _ _ _ Hc Hi Has). rewrite <-Hv2 in Hc2.
    apply wp_call; [done|]. intros r k3 Hk3 Hopen3. cbn in Hopen3.
    assert (Hf2 : is_Some (v_files (view_of k2) !! f)) by (by rewrite Hv2).
    destruct (Hopen3 Hf2 Hpl) as [(_ & _ & Hfull2)|[(fd & Hpos & Hnone & -> & Hv3) Hroom2]].
    { exfalso. destruct (sl_fd (ca_slot Hc i s Hi Has)) as [pos Hp].
      rewrite Hv2 in Hfull2. cbn in Hfull2.
      pose proof (ca_size Hc). pose proof (map_size_delete_Some _ _ (mk_is_Some _ _ Hp)). pose proof (map_size_ne_0_lookup_2 _ _ (mk_is_Some _ _ Hp)). lia. }
    wp_step. cbn [fst snd].
    apply (wp_fill_slot cur _ _ _ _ _ _ _ _ (view_of k2)); cbn [cache set_cache Reqno];
      [done..| | |].
    + intros j' s' Hj' Ha'. destruct (decide (i = j')) as [<-|Hne]; [rewrite list_lookup_alter_eq, Hi in Hj'; simplify_eq/=; unfold active in Ha'; simpl in Ha'; lia|].
      rewrite list_lookup_alter_ne in Hj' by done. by apply (Hkey j').
    + intros j' [= <-]. rewrite list_lookup_alter_eq, Hi. eexists. split; [done|]. unfold active. simpl. lia.
    + intros j' s' l' k' Hk' Hv' Hc' Hj' Ha' Hf' Ho' Hold. apply (HQ j' s'); [done| |done..|].
      * rewrite Hv', Hv3, Hv2. done.
      * intros c u Hcc Hu Hau. exists (c_rtc u). rewrite <-Hkeep. apply Hold; [|done]. rewrite list_lookup_alter_ne; [done|]. by intros ->.
  - dsteps. cbn [fst snd]. apply (wp_fill_slot cur _ _ _ _ _ _ _ _ (view_of k)); [done..| |].
    + intros j. by apply (se_free _ _ _ _ _ _ Hs).
    + intros j' s' l' k' Hk' Hv' Hc' Hj' Ha' Hf' Ho' Hold. apply (HQ j' s'); [done| |done..|].
      * rewrite Hv', Hv1. done.
      * intros c u Hcc Hu Hau. exists (c_rtc u). rewrite <-Hkeep. by apply Hold.
Qed.

Lemma wp_slot_at i s Q E g k : cache g !! i = Some s → Q s g k → wp (slot_at (Σ := Σ) i) Q E g k.
Proof. intros Hi HQ. unfold slot_at. dsteps. eapply pwp_lift; [apply mem_get_lookup; [lia|rewrite Nat2Z.id; exact Hi]|done]. Qed.

(** *** alloc_mem *)

(** Buffers from malloc, one block for each entry. *)
Record mem_ok (heap : gmap Z cstr) (l : list memalloc) (n : Z) : Prop := {
  mo_n : 0 < n ≤ zlength l;
  mo_data : ∀ i M, Z.of_nat i < n → l !! i = Some M → m_memtype M = MEM_DATA ∧
    (m_space M ≠ 0 → ∃ blk, heap !! m_space M = Some blk ∧ zlength blk = m_size M);
  mo_distinct : ∀ i j M N, Z.of_nat i < n → Z.of_nat j < n → l !! i = Some M → l !! j = Some N →
    m_space M ≠ 0 → m_space M = m_space N → i = j }.

Lemma wp_free_all l idxs Q E g k heap : valid k → v_heap (view_of k) = heap → NoDup idxs →
  (∀ me, me ∈ idxs → 0 ≤ me ∧ ∃ M, l !! Z.to_nat me = Some M ∧ m_memtype M = MEM_DATA ∧ (m_space M ≠ 0 → is_Some (heap !! m_space M))) →
  (∀ i j M N, i ∈ idxs → j ∈ idxs → l !! Z.to_nat i = Some M → l !! Z.to_nat j = Some N → m_space M ≠ 0 → m_space M = m_space N → i = j) →
  (∀ g' k' heap', valid k' → view_of k' = set_heap heap' (view_of k) → Q () g' k') →
  wp (each idxs (λ me, M ← lift (mem_get l me); free_space (Σ := Σ) me M)) Q E g k.
Proof.
  intros Hk Hh Hnd. revert g k heap Hk Hh. induction Hnd as [|me idxs Hme Hnd IH]; intros g k heap Hk Hh Hok Hdist HQ; cbn [each].
  { dsteps. apply (HQ g k heap); [done|]. rewrite <-Hh. by destruct (view_of k). }
  destruct (Hok me) as (Hpos & M & HM & Ht & Hsp); [by left|]. wp_step. wp_step. eapply pwp_lift; [by apply mem_get_lookup|].
  assert (Hnext : ∀ g1 k1 heap1, valid k1 → view_of k1 = set_heap heap1 (view_of k) →
    (∀ a, a = m_space M ∨ heap1 !! a = heap !! a) → wp (each idxs (λ me, M ← lift (mem_get l me); free_space (Σ := Σ) me M)) Q E g1 k1).
  { intros g1 k1 heap1 Hk1 Hv1 Hh1. apply (IH g1 k1 heap1); [done|by rewrite Hv1| | |].
    - intros i Hi. destruct (Hok i) as (H1 & N & HN & H2 & H3); [by right|]. split; [done|]. exists N. split_and!; [done|done|].
      intros Hn. destruct (Hh1 (m_space N)) as [He|He]; [|rewrite He; by apply H3].
      exfalso. apply Hme. replace me with i; [done|]. by eapply (Hdist i me N M); [right|left|..].
    - intros i j N N' Hi Hj. apply Hdist; by right.
    - intros g' k' heap' Hk' Hv'. apply (HQ g' k' heap'); [done|]. by rewrite Hv', Hv1. }
  unfold free_space. destruct (Z.eqb_spec (m_space M) 0) as [Hz|Hz].
  - dsteps. apply (Hnext g k heap); [done| |by right]. rewrite <-Hh. by destruct (view_of k).
  - rewrite Ht. cbn [Z.eqb MEM_DATA Pos.eqb]. dsteps. apply wp_call; [done|]. intros [] k1 Hk1 Hv1. cbn in Hv1. dsteps.
    apply (Hnext _ k1 (delete (m_space M) heap)); [done|rewrite Hv1, Hh; [done|by rewrite Hh; apply Hsp]|].
    intros a. destruct (decide (m_space M = a)) as [->|]; [by left|right; by rewrite lookup_delete_ne].
Qed.

(** Giving up ends the program; files and the log stay. *)
Lemma wp_quit {A} n (Q : A → doio_t → Σ → Prop) E g k : valid k → mem_ok (v_heap (view_of k)) (Memalloc g) (Nmemalloc g) →
  (∀ g' k' heap', valid k' → view_of k' = set_heap heap' (view_of k) → E n g' k') → wp (quit n) Q E g k.
Proof.
  intros Hk [Hn Hd Hdist] HE. unfold quit, alloc_mem. cbn [Z.eqb Pos.eqb]. wp_step. wp_step. unfold free_mem. do 4 dstep.
  assert (Hin : ∀ me, me ∈ seqZ 0 (Nmemalloc g) → 0 ≤ me < Nmemalloc g) by (intros me; rewrite elem_of_seqZ; lia).
  apply (wp_free_all _ _ _ _ _ _ (v_heap (view_of k))); [done|done|apply NoDup_seqZ| | |].
  - intros me Hme. apply Hin in Hme. split; [lia|]. destruct (lookup_lt_is_Some_2 (Memalloc g) (Z.to_nat me)) as [M HM]; [lia|].
    exists M. split; [done|]. destruct (Hd (Z.to_nat me) M) as [H1 H2]; [lia|done|]. split; [done|]. intros Hs. destruct (H2 Hs) as (b & Hb & _). by exists b.
  - intros i j M N Hi Hj HM HN Hs He. apply Hin in Hi, Hj. apply Z2Nat.inj; [lia..|]. by apply (Hdist _ _ M N); [lia|lia|..].
  - intros g' k' heap' Hk' Hv'. dsteps. by eapply HE.
Qed.

(** An entry that gets a block of its own. *)
Lemma mem_ok_entry heap heap' l n i M M' : mem_ok heap l n → l !! i = Some M → Z.of_nat i < n →
  m_memtype M' = MEM_DATA → (∃ blk, heap' !! m_space M' = Some blk ∧ zlength blk = m_size M') →
  (∀ j N, j ≠ i → Z.of_nat j < n → l !! j = Some N → m_space N ≠ 0 → m_space N ≠ m_space M' ∧ heap' !! m_space N = heap !! m_space N) →
  mem_ok heap' (<[i := M']> l) n.
Proof.
  intros [Hn Hd Hdist] Hi Hin Ht Hb Hother. assert (Hl : (i < length l)%nat) by (by eapply lookup_lt_Some).
  split; [by rewrite length_insert|..].
  - intros j N Hj HN. destruct (decide (i = j)) as [<-|Hne].
    + rewrite list_lookup_insert_eq in HN by done. simplify_eq. done.
    + rewrite list_lookup_insert_ne in HN by done. destruct (Hd j N Hj HN) as [H1 H2]. split; [done|]. intros Hs.
      destruct (Hother j N) as [_ He]; [done..|]. rewrite He. by apply H2.
  - intros j1 j2 N1 N2 H1 H2 HN1 HN2 Hs He. destruct (decide (i = j1)) as [<-|Hne1], (decide (i = j2)) as [<-|Hne2]; [done|..].
    + rewrite list_lookup_insert_eq in HN1 by done. rewrite list_lookup_insert_ne in HN2 by done. simplify_eq.
      destruct (Hother j2 N2) as [H _]; [done..|congruence|congruence].
    + rewrite list_lookup_insert_ne in HN1 by done. rewrite list_lookup_insert_eq in HN2 by done. simplify_eq.
      destruct (Hother j1 N1) as [H _]; [done..|congruence].
    + rewrite list_lookup_insert_ne in HN1, HN2 by done. by eapply Hdist.
Qed.

Lemma wp_alloc_data l n i M nbytes Q E g k : valid k → mem_ok (v_heap (view_of k)) l n → l !! i = Some M → Z.of_nat i < n → 0 < nbytes < 2 ^ 31 →
  (∀ M' heap' blk k', valid k' → view_of k' = set_heap heap' (view_of k) → mem_ok heap' (<[i := M']> l) n →
     heap' !! m_space M' = Some blk → nbytes ≤ zlength blk → Q (M', 0) g k') →
  wp (alloc_data M nbytes) Q E g k.
Proof.
  intros Hk Hok Hi Hin Hnb HQ. pose proof Hok as [Hn Hd Hdist]. destruct (Hd i M Hin Hi) as [Ht Hsp]. unfold alloc_data. wp_step.
  assert (Hnew : ∀ k1 heap1 M1, valid k1 → view_of k1 = set_heap heap1 (view_of k) → m_memtype M1 = MEM_DATA → m_space M1 = 0 →
    (∀ j N, j ≠ i → Z.of_nat j < n → l !! j = Some N → m_space N ≠ 0 → heap1 !! m_space N = v_heap (view_of k) !! m_space N) →
    wp (if m_space M1 =? 0 then
          p ← sys (Malloc (u64 nbytes));
          match p with None => say (NoMemory nbytes);; mret (M1, -1) | Some cp => mret (set_m_size nbytes (set_m_space cp M1), 0) end
        else mret (M1, 0)) Q E g k1).
  { intros k1 heap1 M1 Hk1 Hv1 Ht1 Hz Hh1. rewrite Hz. change (0 =? 0) with true. dsteps. apply wp_call; [done|]. intros r k2 Hk2 Hm. cbn in Hm.
    rewrite u64_id in Hm by lia. destruct (Hm Hnb) as (a & blk & Ha & Hnone & Hlen & -> & Hv2). dsteps. rewrite Hv1 in Hv2, Hnone. cbn in Hv2, Hnone.
    apply (HQ _ (<[a := blk]> heap1) blk); [done|done| |by rewrite lookup_insert_eq|lia].
    eapply mem_ok_entry; [exact Hok|done|done|done|exists blk; split; [by rewrite lookup_insert_eq|done]|].
    intros j N Hj Hjn HN Hs. simpl. destruct (proj2 (Hd j N Hjn HN) Hs) as (b & Hb & _).
    assert (Hb1 : heap1 !! m_space N = Some b) by (by rewrite (Hh1 j)).
    assert (a ≠ m_space N) by (intros ->; congruence). split; [done|]. rewrite lookup_insert_ne by done. by rewrite (Hh1 j). }
  destruct (Z.ltb_spec (m_size M) nbytes) as [Hlt|Hge].
  - dstep. destruct (Z.eqb_spec (m_space M) 0) as [Hz|Hz]; cbn [negb]; dsteps.
    + apply (Hnew k (v_heap (view_of k))); [done|by destruct (view_of k)|done|done|done].
    + apply wp_call; [done|]. intros [] k1 Hk1 Hv1. cbn in Hv1. destruct (Hsp Hz) as (b & Hb & _). specialize (Hv1 ltac:(by eexists)). dsteps.
      apply (Hnew k1 _ _ Hk1 Hv1); [done|done|]. intros j N Hj Hjn HN Hs. rewrite lookup_delete_ne; [done|]. intros He. apply Hj. by eapply Hdist.
  - dsteps. destruct (Z.eqb_spec (m_space M) 0) as [Hz|Hz].
    + rewrite <-Z.eqb_eq in Hz. pose proof (Hnew k (v_heap (view_of k)) M) as H. rewrite Hz in H. apply H; [done|by destruct (view_of k)|done| |done]. by apply Z.eqb_eq.
    + dsteps. destruct (Hsp Hz) as (b & Hb & Hlb). apply (HQ M (v_heap (view_of k)) b); [done|by destruct (view_of k)| |done|lia].
      rewrite list_insert_id by done. done.
Qed.

Lemma wp_alloc_buffer nbytes Q E g k : valid k → mem_ok (v_heap (view_of k)) (Memalloc g) (Nmemalloc g) → 0 ≤ mturn g → 0 ≤ nbytes < 2 ^ 30 →
  (∀ M p s t heap' blk k', valid k' → view_of k' = set_heap heap' (view_of k) → mem_ok heap' M (Nmemalloc g) → 0 ≤ t →
     heap' !! p = Some blk → nbytes + 16 ≤ zlength blk → Q 0 (set_mturn t (set_Memsize s (set_Memptr p (set_Memalloc M g)))) k') →
  wp (alloc_buffer nbytes) Q E g k.
Proof.
  intros Hk Hok Ht Hnb HQ. unfold alloc_buffer, alloc_mem, wtob1. rewrite s32_id by (unfold in_s; lia).
  rewrite (proj2 (Z.eqb_neq (nbytes + 8 * 2) (-1))) by lia. dsteps.
  set (turn := if Nmemalloc g <=? mturn g then 0 else mturn g).
  assert (Hturn : 0 ≤ turn < Nmemalloc g) by (pose proof (mo_n _ _ _ Hok); unfold turn; case_if; lia).
  destruct (lookup_lt_is_Some_2 (Memalloc g) (Z.to_nat turn)) as [M HM]; [pose proof (mo_n _ _ _ Hok); lia|].
  eapply pwp_lift; [apply mem_get_lookup; [lia|exact HM]|]. wp_step.
  destruct (mo_data _ _ _ Hok (Z.to_nat turn) M) as [Hty _]; [lia|done|]. rewrite Hty. cbn [Z.eqb MEM_DATA Pos.eqb].
  apply (wp_alloc_data (Memalloc g) (Nmemalloc g) (Z.to_nat turn)); [done|done|done|lia|lia|].
  intros M' heap' blk k' Hk' Hv' Hok' Hb Hlb. dsteps. change (0 <? 0) with false. dsteps.
  apply (HQ (<[Z.to_nat turn := M']> (Memalloc g)) (m_space M') (m_size M') (turn + 1) heap' blk); [done|done|done|lia|done|lia].
Qed.

(** *** Memory *)

Lemma wp_peek_block b blk a n Q E g k : valid k → in_block (view_of k) b blk a n →
  (∀ k', valid k' → view_of k' = view_of k → Q (slice blk (a - b) n) g k') → wp (peek a n) Q E g k.
Proof.
  intros Hk Hb HQ. pose proof Hb as (_ & _ & Hn & _). unfold peek. rewrite (proj2 (Z.ltb_ge n 0)) by done.
  destruct (Z.eqb_spec n 0) as [->|Hz]; [dsteps; by apply HQ|]. dsteps. apply wp_call; [done|].
  intros r k' Hk' (Hv & Hblk & _). rewrite (Hblk b blk Hb). dsteps. by apply HQ.
Qed.

Lemma wp_peek_map b m data a n Q E g k : valid k → in_map (view_of k) b m data a n →
  (∀ k', valid k' → view_of k' = view_of k → Q (slice data (a - b) n) g k') → wp (peek a n) Q E g k.
Proof.
  intros Hk Hb HQ. pose proof Hb as (_ & _ & _ & Hn & _). unfold peek. rewrite (proj2 (Z.ltb_ge n 0)) by done.
  destruct (Z.eqb_spec n 0) as [->|Hz]; [dsteps; by apply HQ|]. dsteps. apply wp_call; [done|].
  intros r k' Hk' (Hv & _ & Hmap). rewrite (Hmap b m data Hb). dsteps. by apply HQ.
Qed.

Lemma wp_poke_block b blk a d Q E g k : valid k → in_block (view_of k) b blk a (zlength d) →
  (∀ k', valid k' → view_of k' = set_heap (<[b := store blk (a - b) d]> (v_heap (view_of k))) (view_of k) → Q () g k') → wp (poke a d) Q E g k.
Proof.
  intros Hk Hb HQ. unfold poke. destruct d as [|c d].
  - dsteps. apply HQ; [done|]. rewrite store_nil, insert_id by apply Hb. by destruct (view_of k).
  - dsteps. apply wp_call; [done|]. intros r k' Hk' [Hblk _]. destruct (Hblk b blk Hb) as [-> Hv]. dsteps. by apply HQ.
Qed.

Lemma wp_poke_map b m data a d Q E g k : valid k → in_map (view_of k) b m data a (zlength d) → vm_write m = true →
  (∀ k' data', valid k' → written_as faulty data (a - b) d data' →
     view_of k' = set_files (<[vm_path m := data']> (v_files (view_of k))) (view_of k) → Q () g k') → wp (poke a d) Q E g k.
Proof.
  intros Hk Hb Hw HQ. unfold poke. destruct d as [|c d].
  - dsteps. apply (HQ k data); [done|split; [done|by rewrite store_nil]|]. rewrite insert_id by apply Hb. by destruct (view_of k).
  - dsteps. apply wp_call; [done|]. intros r k' Hk' [_ Hmap]. destruct (Hmap b m data Hb Hw) as [-> (data' & Hd & Hv)]. dsteps. by apply (HQ k' data').
Qed.

(** *** Patterns *)

Lemma wp_pat_fill memptr blk n pattern Q E g k : valid k → in_block (view_of k) memptr blk memptr n → 0 < zlength pattern →
  (∀ k', valid k' → view_of k' = set_heap (<[memptr := store blk 0 (pat_bytes pattern n)]> (v_heap (view_of k))) (view_of k) → Q () g k') →
  wp (doio_pat_fill memptr n pattern) Q E g k.
Proof.
  intros Hk Hb Hp HQ. pose proof Hb as (Hh & _ & Hn & Hlen). unfold doio_pat_fill. rewrite (proj2 (Z.ltb_ge n 0)) by done. wp_step.
  apply (wp_peek_block memptr blk); [done..|]. intros k1 Hk1 Hv1. rewrite Z.sub_diag. wp_step.
  assert (Hsl : zlength (slice blk 0 n) = n) by (rewrite slice_length by lia; lia).
  destruct (pattern_fill_ok (S (Z.to_nat n)) (slice blk 0 n) pattern 0 n) as (buf' & Hfill & Hfl & Hm & _); [lia..|].
  eapply pwp_lift; [exact Hfill|]. cbn [snd]. apply matches_pat_bytes in Hm; [|done|lia]. subst buf'.
  apply (wp_poke_block memptr blk); [done|rewrite Hv1, pat_bytes_length by done; done|]. intros k2 Hk2 Hv2. rewrite Z.sub_diag, Hv1 in Hv2. by apply HQ.
Qed.

(** *** The state between the steps of a request *)

Context (ptail host : cstr) (pid : Z).

Record st (fs : gmap cstr cstr) (log : option (list Z)) (inp : list cstr) (reqno : Z) (cur : list nat) (g : doio_t) (v : view) : Prop := {
  st_opts : opts g = o;
  st_reqno : Reqno g = reqno;
  st_cache : cache_ok v reqno cur (cache g);
  st_mem : mem_ok (v_heap v) (Memalloc g) (Nmemalloc g);
  st_turn : 0 ≤ mturn g;
  st_pattern : ∃ c, Pattern g = c :: ptail;
  st_host : Host g = host;
  st_pids : (write_pid g = -1 ∨ write_pid g = pid) ∧ (rw_pid g = -1 ∨ rw_pid g = pid);
  st_pid : v_pid v = pid;
  st_files : v_files v = fs;
  st_log : v_log v = log;
  st_in : v_in v = inp }.

(** Blocks keep their places and lengths. *)
Definition heap_ext (h h' : gmap Z cstr) : Prop := ∀ a blk, h !! a = Some blk → ∃ blk', h' !! a = Some blk' ∧ length blk' = length blk.

Lemma heap_ext_refl h : heap_ext h h.
Proof. intros a blk H. by exists blk. Qed.
Lemma heap_ext_insert h b blk blk' : h !! b = Some blk → length blk' = length blk → heap_ext h (<[b := blk']> h).
Proof.
  intros Hb Hl a x Hx. destruct (decide (b = a)) as [<-|]; [exists blk'; rewrite lookup_insert_eq; by simplify_eq|].
  exists x. by rewrite lookup_insert_ne.
Qed.

Lemma mem_ok_heap h h' l n : heap_ext h h' → mem_ok h l n → mem_ok h' l n.
Proof.
  intros He [H1 H2 H3]. split; [done| |done]. intros i M Hi HM. destruct (H2 i M Hi HM) as [Ht Hs]. split; [done|]. intros Hz.
  destruct (Hs Hz) as (b & Hb & Hl). destruct (He _ _ Hb) as (b' & Hb' & Hl'). exists b'. split; [done|]. lia.
Qed.

Lemma st_change fs log inp reqno cur g v v' : st fs log inp reqno cur g v → ext v v' → heap_ext (v_heap v) (v_heap v') → v_pid v' = v_pid v →
  st (v_files v') (v_log v') (v_in v') reqno cur g v'.
Proof.
  intros [] He Hh Hp. split; try done; [by eapply cache_ok_ext|by eapply mem_ok_heap|by rewrite Hp].
Qed.

(** The changes that calls make. *)
Lemma ext_heap v h : ext v (set_heap h v).
Proof. split; simpl; [|done..]. intros fd [] H. by eexists. Qed.
Lemma ext_pos v fd f pos : v_fds v !! fd = Some f → ext v (set_fds (<[fd := OFile (of_path f) (of_flags f) pos]> (v_fds v)) v).
Proof.
  intros Hf. split; simpl; [| |done|done].
  - intros fd' f' H. destruct (decide (fd = fd')) as [<-|]; [exists pos; rewrite lookup_insert_eq; by simplify_eq|].
    rewrite lookup_insert_ne, H by done. destruct f'. by eexists.
  - intros fd'. destruct (decide (fd = fd')) as [<-|]; [by eexists|by rewrite lookup_insert_ne].
Qed.
Lemma ext_file_set v p data data' : v_files v !! p = Some data → length data' = length data → ext v (set_files (<[p := data']> (v_files v)) v).
Proof.
  intros Hp Hl. split; simpl; [|done| |done].
  - intros fd [] H. by eexists.
  - intros q. destruct (decide (p = q)) as [<-|]; [rewrite lookup_insert_eq, Hp; cbn; by rewrite Hl|by rewrite lookup_insert_ne].
Qed.
Lemma ext_map v a m : v_maps v !! a = None → ext v (set_maps (<[a := m]> (v_maps v)) v).
Proof. intros Ha. split; simpl; [|done|done|]. - intros fd [] H. by eexists. - intros _. by apply insert_subseteq. Qed.

(** A slot in use. *)
Definition uses (g : doio_t) (i : nat) (f : cstr) (fl fd : Z) : Prop :=
  ∃ s, cache g !! i = Some s ∧ active s ∧ c_file s = f ∧ c_oflags s = fl ∧ c_fd s = fd.

Lemma uses_open fs log inp reqno cur g v i f fl fd : st fs log inp reqno cur g v → uses g i f fl fd → ∃ pos, v_fds v !! fd = Some (OFile f fl pos).
Proof. intros Hst (s & Hi & Ha & <- & <- & <-). apply (sl_fd (ca_slot (st_cache _ _ _ _ _ _ _ Hst) i s Hi Ha)). Qed.

Lemma wp_alloc_fd fs log inp reqno cur f fl Q E g k : valid k → st fs log inp reqno cur g (view_of k) → (length cur ≤ 1)%nat →
  zlength f < 129 → is_Some (fs !! f) → plain fl = true →
  (∀ i fd l' k', valid k' → st fs log inp reqno (i :: cur) (set_cache l' g) (view_of k') → v_heap (view_of k') = v_heap (view_of k) →
     uses (set_cache l' g) i f fl fd →
     (∀ j f' fl' fd', j ∈ cur → uses g j f' fl' fd' → uses (set_cache l' g) j f' fl' fd') → fd ≠ -1 → Q fd (set_cache l' g) k') →
  wp (alloc_fd (Some f) fl) Q E g k.
Proof.
  intros Hk Hst Hcur Hlen Hf Hpl HQ. pose proof Hst as []. unfold alloc_fd. wp_step.
  apply (wp_alloc_fdcache cur); [done|by rewrite st_reqno0|done|done|by rewrite st_files0|done|].
  intros i s l' k' Hk' Honly Hc' Hi Ha Hff Hoo Hold. rewrite st_reqno0 in Hc'. unfold only_fds in Honly. wp_step.
  eapply wp_slot_at; [exact Hi|]. dsteps. apply (HQ i); [done| |by rewrite Honly|by exists s| |done].
  - split; try done; rewrite Honly; done.
  - intros j f' fl' fd' Hj (t & Ht & Hat & <- & <- & <-). destruct (Hold j t Hj Ht Hat) as [rtc Hr]. by exists (set_c_rtc rtc t).
Qed.

(** *** Calls with a descriptor *)

Lemma wp_lseek fs log inp reqno cur f fl fd off Q E g k : valid k → st fs log inp reqno cur g (view_of k) →
  (∃ pos, v_fds (view_of k) !! fd = Some (OFile f fl pos)) → 0 ≤ off →
  (∀ k', valid k' → st fs log inp reqno cur g (view_of k') → v_heap (view_of k') = v_heap (view_of k) → v_maps (view_of k') = v_maps (view_of k) →
     v_fds (view_of k') !! fd = Some (OFile f fl off) → Q (inr off) g k') → wp (sys (Lseek fd off)) Q E g k.
Proof.
  intros Hk Hst [pos Hfd] Hoff HQ. apply wp_call; [done|]. intros r k' Hk' Hs. cbn in Hs. destruct (Hs _ Hfd Hoff) as [-> Hv]. cbn in Hv.
  pose proof (st_change _ _ _ _ _ _ _ _ Hst (ext_pos _ _ _ off Hfd) (heap_ext_refl _) eq_refl) as Hst'. cbn in Hst'. rewrite <-Hv in Hst'.
  destruct Hst. apply HQ; [done|by subst|by rewrite Hv|by rewrite Hv|by rewrite Hv; cbn; rewrite lookup_insert_eq].
Qed.

Lemma wp_read c fs log inp reqno cur f fl fd off n b blk a data Q E g k : valid k → st fs log inp reqno cur g (view_of k) →
  posix_spec faulty limit c = read_spec fd a n →
  v_fds (view_of k) !! fd = Some (OFile f fl off) → fs !! f = Some data → can_read fl = true → 0 ≤ off → off + n ≤ zlength data →
  in_block (view_of k) b blk a n →
  (∀ k', valid k' → st fs log inp reqno cur g (view_of k') → v_heap (view_of k') = <[b := store blk (a - b) (slice data off n)]> (v_heap (view_of k)) →
     Q (inr n) g k') → wp (sys c) Q E g k.
Proof.
  intros Hk Hst Hc Hfd Hf Hr Hoff Hend Hb HQ. apply wp_call; [done|]. intros r k' Hk' Hs. rewrite Hc in Hs. pose proof Hb as (Hblk & Hb1 & Hn & Hb2).
  assert (Ho : opened (view_of k) fd (OFile f fl off) data) by (split; [done|]; destruct Hst; subst; done).
  destruct (Hs _ _ _ _ Ho Hr Hb Hoff Hend) as [-> Hv]. cbn in Hv.
  assert (Hl : length (store blk (a - b) (slice data off n)) = length blk) by (rewrite store_length; rewrite ?slice_length by lia; lia).
  pose proof (st_change _ _ _ _ _ _ _ _ Hst (ext_heap _ (<[b := store blk (a - b) (slice data off n)]> (v_heap (view_of k))))
    (heap_ext_insert _ _ _ _ Hblk Hl) eq_refl) as Hst1.
  pose proof (st_change _ _ _ _ _ _ _ _ Hst1 (ext_pos (set_heap _ (view_of k)) fd (OFile f fl off) (off + n) Hfd) (heap_ext_refl _) eq_refl) as Hst'. cbn in Hst'. rewrite <-Hv in Hst'.
  destruct Hst. apply HQ; [done|by subst|by rewrite Hv].
Qed.

Lemma wp_posix_write c fs log inp reqno cur f fl fd off n b blk a data Q E g k : valid k → st fs log inp reqno cur g (view_of k) →
  posix_spec faulty limit c = write_spec faulty fd a n →
  v_fds (view_of k) !! fd = Some (OFile f fl off) → fs !! f = Some data → can_write fl = true → 0 ≤ off → off + n ≤ zlength data →
  in_block (view_of k) b blk a n →
  (∀ k' data', valid k' → written_as faulty data off (slice blk (a - b) n) data' → st (<[f := data']> fs) log inp reqno cur g (view_of k') →
     v_heap (view_of k') = v_heap (view_of k) → Q (inr n) g k') → wp (sys c) Q E g k.
Proof.
  intros Hk Hst Hc Hfd Hf Hr Hoff Hend Hb HQ. apply wp_call; [done|]. intros r k' Hk' Hs. rewrite Hc in Hs.
  assert (Ho : opened (view_of k) fd (OFile f fl off) data) by (split; [done|]; destruct Hst; subst; done).
  destruct (Hs _ _ _ _ Ho Hr Hb Hoff Hend) as [-> (data' & Hd & Hv)]. cbn in Hd, Hv.
  pose proof (st_change _ _ _ _ _ _ _ _ Hst (ext_file_set _ f data data' (proj2 Ho) (proj1 Hd)) (heap_ext_refl _) eq_refl) as Hst1.
  pose proof (st_change _ _ _ _ _ _ _ _ Hst1 (ext_pos (set_files _ (view_of k)) fd (OFile f fl off) (off + n) Hfd) (heap_ext_refl _) eq_refl) as Hst'. cbn in Hst'. rewrite <-Hv in Hst'.
  destruct Hst. apply (HQ k' data'); [done|done|by subst|by rewrite Hv].
Qed.

(** *** check_file *)

Hypothesis HV : V_opt o = true → Validation_Flags o ∈ [0; O_SYNC].

Definition check_flags : Z := if V_opt o then Z.lor (Validation_Flags o) O_RDONLY else O_RDONLY.

Lemma check_flags_ok : plain check_flags = true ∧ can_read check_flags = true.
Proof.
  unfold check_flags. destruct (V_opt o); [|done]. specialize (HV eq_refl). rewrite !elem_of_cons, elem_of_nil in HV. by destruct HV as [->|[->|[]]].
Qed.

(** It finds out whether the file holds the pattern; its memory is the buffer. *)
Lemma wp_check_file fs log inp reqno cur f data offset n blk Q E g k : valid k → st fs log inp reqno cur g (view_of k) → (length cur ≤ 1)%nat →
  zlength f < 129 → fs !! f = Some data → 0 ≤ offset → 0 ≤ n → offset + n ≤ zlength data → zlength data < 2 ^ 30 →
  v_heap (view_of k) !! Memptr g = Some blk → n ≤ zlength blk →
  (∀ r l' cur' k', valid k' → st fs log inp reqno cur' (set_cache l' g) (view_of k') →
     (∀ j f' fl' fd', j ∈ cur → uses g j f' fl' fd' → uses (set_cache l' g) j f' fl' fd') →
     (r = None ↔ slice data offset n = pat_bytes (Pattern g) n) → Q r (set_cache l' g) k') →
  wp (check_file f offset n (Pattern g) 0) Q E g k.
Proof.
  intros Hk Hst Hcur Hlen Hf Ho Hn Hend Hmax Hblk Hbl HQ. destruct check_flags_ok as [Hpl Hrd].
  unfold check_file. do 6 dstep. rewrite (st_opts _ _ _ _ _ _ _ Hst). fold check_flags.
  wp_step. apply (wp_alloc_fd fs log inp reqno cur); [done|done|done|done|by eexists|done|].
  intros i fd l' k1 Hk1 Hst1 Hh1 Huse Hkeep Hfd. rewrite (proj2 (Z.eqb_neq fd (-1))) by done. wp_step.
  apply (wp_lseek fs log inp reqno (i :: cur) f check_flags); [done|done|by eapply uses_open|done|].
  intros k2 Hk2 Hst2 Hh2 _ Hpos. wp_step. rewrite u64_id by lia.
  assert (Hb2 : in_block (view_of k2) (Memptr g) blk (Memptr g) n) by (split; [by rewrite Hh2, Hh1|lia]).
  apply (wp_read _ fs log inp reqno (i :: cur) f check_flags fd offset n (Memptr g) blk (Memptr g) data); [done..|].
  intros k3 Hk3 Hst3 Hh3. rewrite Z.sub_diag in Hh3. rewrite s32_id, Z.eqb_refl by lia. cbn [negb]. wp_step.
  assert (Hsl : zlength (slice data offset n) = n) by (rewrite slice_length by lia; lia).
  apply (wp_peek_block (Memptr g) (store blk 0 (slice data offset n))); [done| |].
  { split; [by rewrite Hh3, lookup_insert_eq|]. rewrite store_length by lia. lia. }
  intros k4 Hk4 Hv4. rewrite Z.sub_diag. wp_step.
  rewrite slice_store_same by lia.
  destruct (st_pattern _ _ _ _ _ _ _ Hst) as [c Hpat].
  destruct (pat_check_ok (slice data offset n) offset n (Pattern g)) as (r & Hr & Hres); [rewrite Hpat; simpl; lia|done|done|lia|].
  eapply pwp_lift; [exact Hr|]. destruct r as [msg|]; wp_step; apply (HQ _ l' (i :: cur)); try done; try by rewrite Hv4.
  split; [done|]. intros Heq. by destruct (proj1 Hres).
Qed.

(** *** The log *)

Definition pad (n : nat) (l : list Z) : list Z := l ++ replicate (n - length l) 0.

(** The record of a write as it is read back. *)
Definition log_rec (oflags offset nbytes : Z) (file pattern : cstr) (done : Z) : wlog_rec :=
  Rec pid offset nbytes oflags done 0 (pad 9 (code <$> host)) (zlength host) (pad 129 (code <$> file)) (zlength file)
    (pad 65 (code <$> pattern)) (zlength pattern).

(** The one on the stack differs from it behind the texts. *)
Record alike (r r' : wlog_rec) : Prop := {
  al_nums : w_pid r = w_pid r' ∧ w_offset r = w_offset r' ∧ w_nbytes r = w_nbytes r' ∧ w_oflags r = w_oflags r' ∧ w_done r = w_done r' ∧ w_async r = w_async r';
  al_lens : w_hostlen r = w_hostlen r' ∧ w_pathlen r = w_pathlen r' ∧ w_patternlen r = w_patternlen r';
  al_host : mem_read (w_host r) 0 (w_hostlen r) = mem_read (w_host r') 0 (w_hostlen r);
  al_path : mem_read (w_path r) 0 (w_pathlen r) = mem_read (w_path r') 0 (w_pathlen r);
  al_pattern : mem_read (w_pattern r) 0 (w_patternlen r) = mem_read (w_pattern r') 0 (w_patternlen r);
  al_small : 0 ≤ w_hostlen r < 2 ^ 4 ∧ 0 ≤ w_pathlen r < 2 ^ 7 ∧ 0 ≤ w_patternlen r < 2 ^ 6 }.

Lemma write_alike r r' env wbuf off file : alike r r' → wlog_record_write env wbuf r off file = wlog_record_write env wbuf r' off file.
Proof.
  intros [(H1 & H2 & H3 & H4 & H5 & H6) (L1 & L2 & L3) Ah Ap At (S1 & S2 & S3)].
  assert (Hp : ∀ fl, wlog_rec_pack r wbuf fl = wlog_rec_pack r' wbuf fl); [|unfold wlog_record_write; by rewrite Hp].
  intros fl. unfold wlog_rec_pack, field_bytes. rewrite <-H1, <-H2, <-H3, <-H4, <-H5, <-H6, <-L1, <-L2, <-L3.
  rewrite !len_field by (done || lia). by rewrite Ah, Ap, At.
Qed.

Lemma code_byte c : is_byte (code c).
Proof. clear Hlimit. unfold is_byte, code. pose proof (N_ascii_bounded c). lia. Qed.

Lemma padded_pad n (t : cstr) len : len = zlength t → (length t ≤ n)%nat → padded (Z.of_nat n) len (pad n (code <$> t)).
Proof.
  clear Hlimit. intros -> Hn. unfold pad. rewrite length_fmap. split.
  - rewrite length_app, length_fmap, length_replicate. lia.
  - rewrite Nat2Z.id, take_app_length' by (by rewrite length_fmap). do 2 f_equal. lia.
  - apply Forall_app. split; [apply Forall_fmap, Forall_true; apply code_byte|]. by apply Forall_replicate.
Qed.

Hypothesis Hlog : w_opt o = true → in_u 17 pid ∧ zlength host ≤ 8 ∧ zlength ptail ≤ 62.

Lemma log_rec_ok oflags offset nbytes file c done : w_opt o = true → in_s 32 oflags → in_s 32 offset → in_s 32 nbytes → zlength file ≤ 127 →
  in_u 1 done → rec_ok (log_rec oflags offset nbytes file (c :: ptail) done).
Proof.
  clear Hlimit. intros Hw Ho Hoff Hn Hf Hd. destruct (Hlog Hw) as (Hp & Hh & Ht). split; cbn [log_rec w_pid w_offset w_nbytes w_oflags w_done w_async w_host w_hostlen w_path w_pathlen w_pattern w_patternlen]; try done.
  - apply (padded_pad 9); [done|lia].
  - apply (padded_pad 129); [done|lia].
  - apply (padded_pad 65); [done|simpl; lia].
  - lia.
  - lia.
  - simpl. lia.
Qed.

Lemma read_store_pad n (junk : list Z) (t : cstr) : zlength junk = Z.of_nat n → (length t ≤ n)%nat →
  mem_write junk 0 (code <$> t) = Ret (store junk 0 (code <$> t)) ∧
  mem_read (store junk 0 (code <$> t)) 0 (zlength t) = mem_read (pad n (code <$> t)) 0 (zlength t).
Proof.
  intros Hj Ht. assert (Hl : zlength (code <$> t) = zlength t) by (by rewrite length_fmap). split; [apply mem_write_ok; lia|].
  rewrite !mem_read_ok; [|lia|lia|unfold pad; rewrite length_app; lia|lia|lia|rewrite store_length by lia; lia].
  f_equal. rewrite <-Hl, slice_store_same by lia. unfold pad, slice. rewrite Nat2Z.id. cbn. by rewrite drop_0, take_app_length.
Qed.

Lemma fill_wrec_ok junk oflags offset nbytes file c : w_opt o = true → arrays_ok junk → zlength file ≤ 127 →
  ∃ r, fill_wrec junk 0 oflags pid offset nbytes file host (c :: ptail) = Ret r ∧
    alike r (log_rec oflags offset nbytes file (c :: ptail) 0) ∧ alike (set_w_done r) (log_rec oflags offset nbytes file (c :: ptail) 1).
Proof.
  intros Hw (J1 & J2 & J3 & _) Hf. destruct (Hlog Hw) as (Hp & Hh & Ht).
  destruct (read_store_pad 129 (w_path junk) file) as [W1 R1]; [lia|lia|].
  destruct (read_store_pad 9 (w_host junk) host) as [W2 R2]; [lia|lia|].
  destruct (read_store_pad 65 (w_pattern junk) (c :: ptail)) as [W3 R3]; [lia|simpl; lia|].
  unfold fill_wrec. rewrite W1, W2, W3, !res_bind_ret. eexists. split; [done|].
  split; (split; cbn [log_rec set_w_done w_pid w_offset w_nbytes w_oflags w_done w_async w_host w_hostlen w_path w_pathlen w_pattern w_patternlen];
    [done|done|done|done|done|split_and!; simpl; lia]).
Qed.

Lemma ext_log v l : ext v (set_log l v).
Proof. split; simpl; [|done..]. intros fd [] H. by eexists. Qed.

Lemma st_set_log fs log inp reqno cur g v l : st fs log inp reqno cur g v → st fs l inp reqno cur g (set_log l v).
Proof. intros Hst. pose proof (st_change _ _ _ _ _ _ _ _ Hst (ext_log v l) (heap_ext_refl _) eq_refl) as H. destruct Hst. by subst. Qed.

(** Writing a record when [wlog_record_write] does. *)
Lemma wp_record_write r off l (l' : list Z → list Z) res fs inp reqno cur Q E g k : valid k → st fs (Some l) inp reqno cur g (view_of k) →
  (∀ wbuf, length wbuf = 452%nat → Forall is_byte wbuf → ∃ bs, wlog_record_write env_ok wbuf r off l = Ret (res, l' bs) ∧
     ∀ k', valid k' → view_of k' = set_log (Some (l' bs)) (view_of k) → Q res g k') →
  wp (record_write r off) Q E g k.
Proof.
  intros Hk Hst Hw. unfold record_write. wp_step. apply wp_call; [done|]. intros x k1 Hk1 [Hv1 (wbuf & Hl & Hb & ->)].
  rewrite (st_log _ _ _ _ _ _ _ Hst). cbv beta iota. change (default [] (Some l)) with l. destruct (Hw wbuf Hl Hb) as (bs & Hwr & HQ).
  wp_step. eapply pwp_lift; [exact Hwr|]. cbn [fst snd]. wp_step. apply wp_call; [done|]. intros [] k2 Hk2 Hv2. cbn in Hv2. dsteps.
  apply HQ; [done|]. by rewrite Hv2, Hv1.
Qed.

Section logging.
Context (oflags offset nbytes : Z) (file : cstr) (c : ascii) (l : list Z).
Hypothesis Hw : w_opt o = true.
Hypothesis Hof : in_s 32 oflags.
Hypothesis Hoff : in_s 32 offset.
Hypothesis Hnb : in_s 32 nbytes.
Hypothesis Hfile : zlength file ≤ 127.
Hypothesis Hl : zlength l < 2 ^ 31.

Lemma wp_log_before fs inp reqno cur Q E g k : valid k → st fs (Some l) inp reqno cur g (view_of k) → Pattern g = c :: ptail →
  (∀ r bs k', valid k' → view_of k' = set_log (Some (l ++ bs)) (view_of k) → stored (log_rec oflags offset nbytes file (c :: ptail) 0) bs →
     alike (set_w_done r) (log_rec oflags offset nbytes file (c :: ptail) 1) → Q (Some (r, zlength l)) g k') →
  wp (log_before pid 0 oflags offset nbytes file) Q E g k.
Proof.
  intros Hk Hst Hpat HQ. unfold log_before. wp_step. apply wp_call; [done|]. intros junk k1 Hk1 [Hv1 Hj]. dsteps.
  rewrite (st_host _ _ _ _ _ _ _ Hst), Hpat. destruct (fill_wrec_ok junk oflags offset nbytes file c Hw Hj Hfile) as (r & Hr & Ha & Ha').
  eapply pwp_lift; [exact Hr|]. wp_step. rewrite <-Hv1 in Hst.
  apply (wp_record_write r (-1) l (λ bs, l ++ bs) (zlength l) fs inp reqno cur); [done|done|].
  intros wbuf Hwl Hwb. rewrite (write_alike _ _ _ _ _ _ Ha).
  destruct (append_ok (log_rec oflags offset nbytes file (c :: ptail) 0) wbuf l) as (bs & Hbs & ->); [by apply log_rec_ok|done..|].
  exists bs. split; [done|]. intros k' Hk' Hv'. rewrite (proj2 (Z.eqb_neq (zlength l) (-1))) by lia. dsteps. apply (HQ r bs); [done|by rewrite Hv', Hv1|done..].
Qed.

Lemma wp_log_after r bs fs inp reqno cur Q E g k : valid k → st fs (Some (l ++ bs)) inp reqno cur g (view_of k) →
  stored (log_rec oflags offset nbytes file (c :: ptail) 0) bs → alike (set_w_done r) (log_rec oflags offset nbytes file (c :: ptail) 1) →
  (∀ bs' k', valid k' → view_of k' = set_log (Some (l ++ bs')) (view_of k) → stored (log_rec oflags offset nbytes file (c :: ptail) 1) bs' → Q () g k') →
  wp (log_after (Some (r, zlength l))) Q E g k.
Proof.
  intros Hk Hst Hbs Ha HQ. unfold log_after. wp_step.
  apply (wp_record_write (set_w_done r) (zlength l) (l ++ bs) (λ bs', l ++ bs') (zlength l) fs inp reqno cur); [done|done|].
  intros wbuf Hwl Hwb. rewrite (write_alike _ _ _ _ _ _ Ha).
  destruct (overlay_ok (log_rec oflags offset nbytes file (c :: ptail) 0) (log_rec oflags offset nbytes file (c :: ptail) 1) wbuf l bs [])
    as (bs' & Hwr & Hbs'); [by apply log_rec_ok|by apply log_rec_ok|done|done|done|done|done|done|]. rewrite !app_nil_r in Hwr.
  exists bs'. split; [done|]. intros k' Hk' Hv'. dsteps. by apply (HQ bs').
Qed.
End logging.

(** ** Requests *)

Lemma wp_buffer nbytes fs log inp reqno cur Q E g k : valid k → st fs log inp reqno cur g (view_of k) → 0 ≤ nbytes < 2 ^ 30 →
  (∀ g' blk k', valid k' → st fs log inp reqno cur g' (view_of k') → cache g' = cache g → Pattern g' = Pattern g →
     v_heap (view_of k') !! Memptr g' = Some blk → nbytes + 16 ≤ zlength blk → Q 0 g' k') →
  wp (alloc_buffer nbytes) Q E g k.
Proof.
  intros Hk Hst Hn HQ. pose proof Hst as []. apply wp_alloc_buffer; [done..|].
  intros M p s t heap' blk k' Hk' Hv' Hm Ht Hp Hlen. apply (HQ _ blk); [done| |done|done|by rewrite Hv'|done].
  rewrite Hv'. split; try done. by eapply cache_ok_ext; [apply ext_heap|].
Qed.

(** The types that change a file. *)
Definition writes (t : Z) : bool := bool_decide (t ∈ [WRITE; WRITEV; MMAPW]).

Record flags_ok (t fl : Z) : Prop := {
  fl_plain : plain fl = true;
  fl_range : in_s 32 fl;
  fl_read : t ∈ [READ; READV; MMAPR; MMAPW] → can_read fl = true;
  fl_write : t ∈ [WRITE; WRITEV; MMAPW] → can_write fl = true;
  fl_mapr : t = MMAPR → Z.land fl 3 = O_RDONLY;
  fl_mapw : t = MMAPW → Z.land fl 3 = O_RDWR }.

Lemma request_flags path n req : request_ok path n req → flags_ok (req_type req) (req_oflags req).
Proof.
  intros [_ _ _ (acc & Ha & Hfl) _ _]. revert Ha Hfl. generalize (req_type req) (req_oflags req). intros t fl Ha Hfl.
  unfold access_modes in Ha. rewrite !elem_of_cons, elem_of_nil in Ha.
  assert (Hlist : ∀ x l, bool_decide (x ∈ l) = false → x ∈ (l : list Z) → False) by (intros x l Hf Hin; by rewrite bool_decide_eq_true_2 in Hf).
  destruct_or?; simplify_eq; split; try (vm_compute; done); try (intros Hin; exfalso; eapply Hlist; [|exact Hin]; vm_compute; done).
Qed.

Section request.
Context (fs : gmap cstr cstr) (log : option (list Z)) (inp : list cstr) (reqno : Z) (req path data : cstr).
Hypothesis Hreq : request_ok path (zlength data) req.
Hypothesis Hdata : fs !! path = Some data.
Hypothesis Hlen : 0 < zlength data < 2 ^ 30.

Abbreviation fl := (req_oflags req).
Abbreviation off := (req_offset req).
Abbreviation nb := (req_nbytes req).

Lemma path_short : zlength path < 128.
Proof. clear Hlimit Hlog. destruct (ro_names _ _ _ Hreq) as (_ & H & _). unfold MAX_FNAME_LENGTH in H. lia. Qed.

Lemma place : 0 ≤ off ∧ 0 ≤ nb ∧ off + nb ≤ zlength data.
Proof. clear Hlimit Hlog. apply (ro_place _ _ _ Hreq). Qed.

Lemma wp_file {A} (m : cstr → prog doio_t Σ A) Q E g k : wp (m path) Q E g k → wp (f ← lift (get_file req); m f) Q E g k.
Proof. intros Hm. wp_step. eapply pwp_lift; [|exact Hm]. apply names_get, (ro_names _ _ _ Hreq). Qed.

(** The descriptor that an operation starts with. *)
Lemma wp_descriptor Q E g k : valid k → st fs log inp reqno [] g (view_of k) →
  (∀ i fd l' k', valid k' → st fs log inp reqno [i] (set_cache l' g) (view_of k') → v_heap (view_of k') = v_heap (view_of k) →
     uses (set_cache l' g) i path fl fd → (fd =? -1) = false → Q fd (set_cache l' g) k') →
  wp (alloc_fd (Some path) fl) Q E g k.
Proof.
  intros Hk Hst HQ. pose proof path_short.
  apply (wp_alloc_fd fs log inp reqno []); [done|done|simpl; lia|lia|by eexists|apply (fl_plain _ _ (request_flags _ _ _ Hreq))|].
  intros i fd l' k' Hk' Hst' Hh Hu _ Hfd. apply (HQ i); [done|done|done|done|]. by apply Z.eqb_neq.
Qed.

Lemma do_read_ok Q E g k : req_type req = READ → valid k → st fs log inp reqno [] g (view_of k) →
  (∀ cur g' k', valid k' → st fs log inp reqno cur g' (view_of k') → Q 0 g' k') → wp (do_read req) Q E g k.
Proof.
  intros Ht Hk Hst HQ. pose proof place as (P1 & P2 & P3). pose proof (request_flags _ _ _ Hreq) as Hfl.
  assert (Hofl : get_int req read_req.r_oflags = fl) by (unfold req_oflags; by rewrite Ht).
  assert (Hnb : get_int req read_req.r_nbytes = nb) by (unfold req_nbytes; by rewrite Ht).
  unfold do_read. apply wp_file. cbv zeta. rewrite Hofl, Hnb. change (get_int req read_req.r_offset) with off. wp_step.
  apply wp_descriptor; [done|done|]. intros i fd l' k1 Hk1 Hst1 Hh1 Hu ->. wp_step.
  apply (wp_buffer nb fs log inp reqno [i]); [done|done|lia|]. intros g2 blk k2 Hk2 Hst2 Hca Hpa Hblk Hbl. change (0 <? 0) with false. cbv iota. dsteps.
  rewrite Ht. change (READ =? READ) with true. dsteps.
  assert (Hu2 : uses g2 i path fl fd) by (unfold uses in *; by rewrite Hca).
  apply (wp_lseek fs log inp reqno [i] path fl); [done|done|by eapply uses_open|done|]. intros k3 Hk3 Hst3 Hh3 _ Hpos. wp_step.
  rewrite u64_id by lia.
  apply (wp_read _ fs log inp reqno [i] path fl fd off nb (Memptr g2) blk (Memptr g2) data); [done|done|done|done|done| |done|lia| |].
  { apply (fl_read _ _ Hfl). rewrite Ht. by left. }
  { split; [by rewrite Hh3|lia]. }
  intros k4 Hk4 Hst4 _. rewrite s32_id, Z.eqb_refl by lia. dsteps. by apply (HQ [i]).
Qed.

Lemma do_sync_ok Q E g k : req_type req = FSYNC2 ∨ req_type req = FDATASYNC → valid k → st fs log inp reqno [] g (view_of k) →
  (∀ cur g' k', valid k' → st fs log inp reqno cur g' (view_of k') → Q 0 g' k') → wp (do_sync req) Q E g k.
Proof.
  intros Ht Hk Hst HQ. assert (Hofl : get_int req listio_req.r_oflags = fl) by (unfold req_oflags; by destruct Ht as [->| ->]).
  unfold do_sync. apply wp_file. cbv zeta. rewrite Hofl. wp_step.
  apply wp_descriptor; [done|done|]. intros i fd l' k1 Hk1 Hst1 Hh1 Hu ->. wp_step.
  assert (Hopen : is_Some (v_fds (view_of k1) !! fd)) by (destruct (uses_open _ _ _ _ _ _ _ _ _ _ _ Hst1 Hu) as [pos Hp]; by eexists).
  destruct Ht as [->| ->]; [change (FSYNC2 =? FSYNC2) with true|change (FDATASYNC =? FSYNC2) with false; change (FDATASYNC =? FDATASYNC) with true]; cbv iota;
    (apply wp_call; [done|]; intros r k2 Hk2 [Hv2 Hr]; rewrite (Hr Hopen); dsteps; apply (HQ [i]); [done|by rewrite Hv2]).
Qed.

(** *** Steps that do_write and do_rw share *)

Lemma wp_upanic m (Q : () → doio_t → Σ → Prop) E g k : valid k → (∀ k', valid k' → view_of k' = view_of k → Q () g k') → wp (doio_upanic m) Q E g k.
Proof. intros Hk HQ. unfold doio_upanic. dsteps. case_if; [dsteps; by apply HQ|]. by apply wp_say. Qed.

Lemma wp_lock fd t start n (Q : Z → doio_t → Σ → Prop) E g k : valid k → is_Some (v_fds (view_of k) !! fd) →
  (∀ k', valid k' → view_of k' = view_of k → Q 0 g k') → wp (lock_file_region fd t start n) Q E g k.
Proof.
  intros Hk Hfd HQ. unfold lock_file_region. wp_step. apply wp_call; [done|]. intros r k1 Hk1 [Hv1 Hr]. rewrite (Hr Hfd). dsteps. by apply HQ.
Qed.

Lemma wp_locked (b : bool) fd t start n m (Q : () → doio_t → Σ → Prop) E g k : valid k → is_Some (v_fds (view_of k) !! fd) →
  (∀ k', valid k' → view_of k' = view_of k → Q () g k') → wp (when b (r ← lock_file_region fd t start n; when (r <? 0) m)) Q E g k.
Proof.
  intros Hk Hfd HQ. destruct b; cbn [when]; [|dsteps; by apply HQ]. wp_step. apply wp_lock; [done|done|]. intros k' Hk' Hv'.
  change (0 <? 0) with false. dsteps. by apply HQ.
Qed.

(** The record for the request. *)
Abbreviation rec := (log_rec fl off nb path (req_pattern req :: ptail)).

(** What the log is like between the two entries, and after them. *)
Definition prelogged (write : bool) (logged : option (wlog_rec * Z)) (log' : option (list Z)) : Prop :=
  if write && w_opt o then ∃ l r bs, log = Some l ∧ zlength l < 2 ^ 31 ∧ logged = Some (r, zlength l) ∧ log' = Some (l ++ bs) ∧ stored (rec 0) bs ∧ alike (set_w_done r) (rec 1)
  else logged = None ∧ log' = log.
Definition postlogged (write : bool) (log' : option (list Z)) : Prop :=
  if write && w_opt o then ∃ l bs, log = Some l ∧ log' = Some (l ++ bs) ∧ stored (rec 1) bs else log' = log.

Hypothesis Hopen : w_opt o = true → ∃ l, log = Some l ∧ zlength l < 2 ^ 31.

Lemma ranges : in_s 32 fl ∧ in_s 32 off ∧ in_s 32 nb ∧ zlength path ≤ 127.
Proof. clear Hlimit Hlog. pose proof place. pose proof path_short. split; [apply (fl_range _ _ (request_flags _ _ _ Hreq))|]. unfold in_s. simpl. lia. Qed.

Lemma wp_prelog write var set cur Q E g k : valid k → st fs log inp reqno cur g (view_of k) → Pattern g = req_pattern req :: ptail →
  (∀ p, p = pid → st fs log inp reqno cur (set p g) (view_of k) ∧ var (set p g) = pid ∧ Pattern (set p g) = Pattern g ∧ cache (set p g) = cache g ∧ Memptr (set p g) = Memptr g) →
  (var g = -1 ∨ var g = pid) →
  (∀ logged log' g' k', valid k' → prelogged write logged log' → st fs log' inp reqno cur g' (view_of k') → view_of k' = set_log log' (view_of k) →
     Pattern g' = Pattern g → cache g' = cache g → Memptr g' = Memptr g → Q logged g' k') →
  wp (if write && w_opt o then p ← static_pid var set; log_before p 0 fl off nb path else mret None) Q E g k.
Proof.
  intros Hk Hst Hpat Hset Hvar HQ. destruct (write && w_opt o) eqn:Hw.
  2: { dsteps. apply (HQ None log); [done|by unfold prelogged; rewrite Hw|done| |done..]. rewrite <-(st_log _ _ _ _ _ _ _ Hst). by destruct (view_of k). }
  apply andb_true_iff in Hw as Hw'. destruct Hw' as [_ Hw']. destruct (Hopen Hw') as (l & Hl & Hll). pose proof ranges as (R1 & R2 & R3 & R4).
  assert (Hlogged : ∀ g1 k1, valid k1 → view_of k1 = view_of k → st fs log inp reqno cur g1 (view_of k1) → var g1 = pid → Pattern g1 = Pattern g → cache g1 = cache g → Memptr g1 = Memptr g →
    wp (log_before (var g1) 0 fl off nb path) Q E g1 k1).
  { intros g1 k1 Hk1 Hv1 Hst1 Hv Hp Hc Hm. rewrite Hl in Hst1. rewrite Hv. apply (wp_log_before fl off nb path (req_pattern req) l Hw' R1 R2 R3 R4 Hll fs inp reqno cur); [done|done|by rewrite Hp|].
    intros r bs k2 Hk2 Hv2 Hbs Ha. apply (HQ _ (Some (l ++ bs))); [done|unfold prelogged; rewrite Hw; by exists l, r, bs|rewrite Hv2; by eapply st_set_log|by rewrite Hv2, Hv1|done..]. }
  wp_step. unfold static_pid. dsteps. destruct Hvar as [Hv|Hv].
  - rewrite Hv. change (-1 =? -1) with true. dsteps. apply wp_call; [done|]. intros p k1 Hk1 [Hv1 ->]. dsteps.
    destruct (Hset _ (st_pid _ _ _ _ _ _ _ Hst)) as (H1 & H2 & H3 & H4 & H5). apply Hlogged; try done. by rewrite Hv1.
  - destruct (Z.eqb_spec (var g) (-1)) as [He|He]; dsteps; [|by apply Hlogged].
    apply wp_call; [done|]. intros p k1 Hk1 [Hv1 ->]. dsteps.
    destruct (Hset _ (st_pid _ _ _ _ _ _ _ Hst)) as (H1 & H2 & H3 & H4 & H5). apply Hlogged; try done. by rewrite Hv1.
Qed.

Lemma wp_postlog write logged log' fs' cur Q E g k : valid k → prelogged write logged log' → st fs' log' inp reqno cur g (view_of k) →
  (∀ log2 k', valid k' → postlogged write log2 → view_of k' = set_log log2 (view_of k) → st fs' log2 inp reqno cur g (view_of k') → Q () g k') →
  wp (log_after logged) Q E g k.
Proof.
  intros Hk Hpre Hst HQ. unfold prelogged in Hpre. destruct (write && w_opt o) eqn:Hw.
  - destruct Hpre as (l & r & bs & Hl & Hll & -> & -> & Hbs & Ha). apply andb_true_iff in Hw as Hw'. destruct Hw' as [_ Hw']. pose proof ranges as (R1 & R2 & R3 & R4).
    apply (wp_log_after fl off nb path (req_pattern req) l Hw' R1 R2 R3 R4 Hll r bs fs' inp reqno cur); [done..|]. intros bs' k' Hk' Hv' Hbs'.
    apply (HQ (Some (l ++ bs'))); [done|unfold postlogged; rewrite Hw; by exists l, bs'|done|rewrite Hv'; by eapply st_set_log].
  - destruct Hpre as [-> ->]. unfold log_after. dsteps. apply (HQ log); [done|unfold postlogged; by rewrite Hw| |done].
    rewrite <-(st_log _ _ _ _ _ _ _ Hst). by destruct (view_of k).
Qed.

(** The bytes that the request writes. *)
Definition payload : cstr := pat_bytes (req_pattern req :: ptail) nb.

Lemma payload_length : zlength payload = nb.
Proof. apply pat_bytes_length. apply place. Qed.

(** doio ends because the file does not hold what was written. *)
Definition miscompared (n : Z) (g : doio_t) (k : Σ) : Prop :=
  n = E_COMPARE ∧ v_opt o = true ∧ faulty = true ∧ ∃ data', v_files (view_of k) = <[path := data']> fs ∧ slice data' off nb ≠ payload.

(** What a request leaves in its file. *)
Definition stored_as (data' : cstr) : Prop :=
  written_as faulty data off payload data' ∧ (v_opt o = true → slice data' off nb = payload).

Lemma wp_verify (b : bool) fmt data' log' cur blk Q (E : Z → doio_t → Σ → Prop) g k : valid k → st (<[path := data']> fs) log' inp reqno cur g (view_of k) →
  b = v_opt o → (length cur ≤ 1)%nat → written_as faulty data off payload data' →
  v_heap (view_of k) !! Memptr g = Some blk → nb ≤ zlength blk → Pattern g = req_pattern req :: ptail →
  (∀ l' cur' k1 Q', valid k1 → st (<[path := data']> fs) log' inp reqno cur' (set_cache l' g) (view_of k1) →
     (∀ j f' fl' fd', j ∈ cur → uses g j f' fl' fd' → uses (set_cache l' g) j f' fl' fd') →
     (∀ g2 k2, valid k2 → v_files (view_of k2) = v_files (view_of k1) → Q' () g2 k2) → wp fmt Q' E (set_cache l' g) k1) →
  (∀ n g' k', miscompared n g' k' → E n g' k') →
  (∀ l' cur' k', valid k' → st (<[path := data']> fs) log' inp reqno cur' (set_cache l' g) (view_of k') →
     (∀ j f' fl' fd', j ∈ cur → uses g j f' fl' fd' → uses (set_cache l' g) j f' fl' fd') → stored_as data' → Q () (set_cache l' g) k') →
  wp (when b (verify path off nb fmt)) Q E g k.
Proof.
  intros Hk Hst -> Hcur Hd Hblk Hbl Hpat Hfmt HE HQ. pose proof place as (P1 & P2 & P3). pose proof path_short.
  assert (Hl' : zlength data' = zlength data) by (destruct Hd; lia). destruct (v_opt o) eqn:Hv.
  2: { dsteps. destruct g as []. apply (HQ _ cur); [done|done|done|]. by split; [|rewrite Hv]. }
  cbn [when]. unfold verify. dsteps.
  apply (wp_check_file (<[path := data']> fs) log' inp reqno cur path data' off nb blk); [done|done|done|lia|by rewrite lookup_insert_eq|lia..|done|done|].
  intros r l' cur' k1 Hk1 Hst1 Hkeep Hr. rewrite Hpat in Hr. fold payload in Hr. destruct r as [msg|].
  - assert (Hne : slice data' off nb ≠ payload) by (intros He; by apply Hr in He).
    wp_step. apply (Hfmt l' cur'); [done|done|done|]. intros g2 k2 Hk2 Hf2. wp_step. apply wp_say; [done|]. intros k3 Hk3 Hv3. wp_step.
    apply wp_upanic; [done|]. intros k4 Hk4 Hv4. dsteps. apply HE. split_and!; [done|done| |].
    + destruct (decide (faulty = true)) as [|Hf]; [done|]. apply not_true_is_false in Hf. destruct Hne. rewrite (proj2 Hd Hf).
      rewrite <-payload_length at 1. apply slice_store_same; rewrite ?payload_length; lia.
    + exists data'. split; [|done]. rewrite Hv4, Hv3, Hf2. apply (st_files _ _ _ _ _ _ _ Hst1).
  - dsteps. apply (HQ l' cur'); [done|done|done|]. split; [done|]. intros _. by apply Hr.
Qed.

Lemma do_write_ok Q (E : Z → doio_t → Σ → Prop) g k : req_type req = WRITE → valid k → st fs log inp reqno [] g (view_of k) →
  (∀ n g' k', miscompared n g' k' → E n g' k') →
  (∀ data' log' cur g' k', valid k' → st (<[path := data']> fs) log' inp reqno cur g' (view_of k') → stored_as data' → postlogged true log' → Q 0 g' k') →
  wp (do_write req) Q E g k.
Proof.
  intros Ht Hk Hst HE HQ. pose proof place as (P1 & P2 & P3). pose proof (request_flags _ _ _ Hreq) as Hfl.
  assert (Hofl : get_int req write_req.r_oflags = fl) by (unfold req_oflags; by rewrite Ht).
  assert (Hnb : get_int req write_req.r_nbytes = nb) by (unfold req_nbytes; by rewrite Ht).
  assert (Hpt : get_char req write_req.r_pattern = req_pattern req) by (unfold req_pattern; by rewrite Ht).
  unfold do_write. apply wp_file. cbv zeta. rewrite Hofl, Hnb, Hpt. change (get_int req write_req.r_offset) with off. dsteps.
  destruct (st_pattern _ _ _ _ _ _ _ Hst) as [c Hpat].
  set (g0 := set_Pattern _ g). assert (Hpat0 : Pattern g0 = req_pattern req :: ptail) by (unfold g0; simpl; by rewrite Hpat).
  assert (Hst0 : st fs log inp reqno [] g0 (view_of k)) by (destruct Hst; split; try done; by eexists).
  apply wp_descriptor; [done|done|]. intros i fd l' k1 Hk1 Hst1 Hh1 Hu ->. wp_step.
  apply (wp_buffer nb fs log inp reqno [i]); [done|done|lia|]. intros g2 blk k2 Hk2 Hst2 Hca Hpa Hblk Hbl. change (0 <? 0) with false. cbv iota. dsteps.
  assert (Hpat2 : Pattern g2 = req_pattern req :: ptail) by (by rewrite Hpa).
  assert (Hu2 : uses g2 i path fl fd) by (unfold uses in *; by rewrite Hca).
  apply (wp_pat_fill (Memptr g2) blk); [done|split; [done|lia]|rewrite Hpat2; simpl; lia|]. intros k3 Hk3 Hv3. rewrite Hpat2 in Hv3. fold payload in Hv3.
  set (blk3 := store blk 0 payload) in *. assert (Hl3 : length blk3 = length blk) by (apply store_length; rewrite ?payload_length; lia).
  pose proof (st_change _ _ _ _ _ _ _ _ Hst2 (ext_heap _ _) (heap_ext_insert _ _ _ blk3 Hblk Hl3) eq_refl) as Hst3. cbn in Hst3. rewrite <-Hv3 in Hst3.
  rewrite (st_files _ _ _ _ _ _ _ Hst2), (st_log _ _ _ _ _ _ _ Hst2), (st_in _ _ _ _ _ _ _ Hst2) in Hst3. dsteps.
  assert (Hfd : ∃ pos, v_fds (view_of k3) !! fd = Some (OFile path fl pos)) by (by eapply uses_open).
  rewrite (st_opts _ _ _ _ _ _ _ Hst2). apply wp_locked; [done|destruct Hfd; by eexists|]. intros k4 Hk4 Hv4. rewrite <-Hv4 in Hst3. wp_step.
  rewrite Ht. change (WRITE =? WRITEA) with false. cbv iota.
  apply (wp_prelog true write_pid set_write_pid [i]); [done|done|done| |apply (st_pids _ _ _ _ _ _ _ Hst3)|].
  { intros p ->. split_and!; try done. destruct Hst3 as [A1 A2 A3 A4 A5 A6 A7 [A8 A9] A10 A11 A12 A13]. split; try done. split; [by right|done]. }
  intros logged log' g5 k5 Hk5 Hpre Hst5 Hv5 Hpa5 Hca5 Hm5. wp_step. unfold write_call. rewrite Ht. change (WRITE =? WRITE) with true. dsteps.
  apply (wp_lseek fs log' inp reqno [i] path fl); [done|done|by rewrite Hv5, Hv4|done|]. intros k6 Hk6 Hst6 Hh6 _ Hpos. wp_step. rewrite u64_id by lia.
  assert (Hblk6 : v_heap (view_of k6) !! Memptr g2 = Some blk3) by (by rewrite Hh6, Hv5, Hv4, Hv3; cbn; rewrite lookup_insert_eq).
  apply (wp_posix_write _ fs log' inp reqno [i] path fl fd off nb (Memptr g2) blk3 (Memptr g2) data); [done|done|done|done|done| |done|lia|split; [done|lia]|].
  { apply (fl_write _ _ Hfl). rewrite Ht. by left. }
  intros k7 data' Hk7 Hd Hst7 Hh7. rewrite Z.sub_diag in Hd.
  assert (Hpl : slice blk3 0 nb = payload) by (rewrite <-payload_length at 1; apply slice_store_same; rewrite ?payload_length; lia). rewrite Hpl in Hd.
  rewrite s32_id, Z.eqb_refl by lia. cbn [negb]. dsteps.
  apply (wp_verify (v_opt o) (mret ()) data' log' [i] blk3); [done|done|done|simpl; lia|done|by rewrite Hh7, Hm5|lia|by rewrite Hpa5|..].
  { intros l1 cur1 k1' Q' Hk1' Hst1' _ HQ'. dsteps. by apply HQ'. }
  { done. }
  intros l8 cur8 k8 Hk8 Hst8 Hkeep Hst8d. wp_step. apply (wp_postlog true logged log' (<[path := data']> fs) cur8); [done..|].
  intros log9 k9 Hk9 Hpost Hv9 Hst9. wp_step.
  assert (Hu9 : uses (set_cache l8 g5) i path fl fd) by (apply Hkeep; [by left|]; unfold uses in *; by rewrite Hca5).
  destruct (uses_open _ _ _ _ _ _ _ _ _ _ _ Hst9 Hu9) as [pos9 Hp9].
  apply wp_locked; [done|by eexists|]. intros k10 Hk10 Hv10. rewrite <-Hv10 in Hst9. dsteps. rewrite (proj2 (Z.eqb_neq nb (-1))) by lia.
  by apply (HQ data' log9 cur8).
Qed.

(** *** The system calls of do_rw *)

Lemma wp_map_file i fd (rw : bool) log' Q E g k : valid k → st fs log' inp reqno [i] g (view_of k) → uses g i path fl fd →
  can_read fl = true → (rw = true → can_write fl = true) → (Z.land fl 3 = O_RDWR → rw = true) → (rw = true → Z.land fl 3 = O_RDWR) →
  (∀ base l' k', valid k' → st fs log' inp reqno [i] (set_cache l' g) (view_of k') → uses (set_cache l' g) i path fl fd →
     v_heap (view_of k') = v_heap (view_of k) → (∃ w, v_maps (view_of k') !! base = Some (VMap path (zlength data) w) ∧ (rw = true → w = true)) →
     (∃ s, l' !! i = Some s ∧ c_memlen s = zlength data) → Q (Some base) (set_cache l' g) k') →
  wp (map_file i fd rw (v_opt o)) Q E g k.
Proof.
  intros Hk Hst (s & Hi & Ha & Hsf & Hso & Hsfd) Hr Hw Hrd Hwr HQ. unfold map_file. wp_step. eapply wp_slot_at; [exact Hi|]. wp_step.
  pose proof (ca_slot (st_cache _ _ _ _ _ _ _ Hst) i s Hi Ha) as [[pos Hpos] _ (a & Hma & Hmap)]. rewrite Hma. eapply pwp_lift; [done|].
  rewrite Hsf, Hso, Hsfd in Hpos. pose proof (st_files _ _ _ _ _ _ _ Hst) as Hfs.
  destruct (v_opt o || (a =? 0)) eqn:Hmode.
  - assert (Ho : opened (view_of k) fd (OFile path fl pos) data) by (split; [done|by rewrite Hfs]).
    wp_step. apply wp_call; [done|]. intros r k1 Hk1 [Hv1 Hr1]. rewrite (Hr1 _ _ Ho), s32_id by lia. dsteps.
    apply wp_call; [done|]. intros r2 k2 Hk2 Hm. rewrite Hv1 in Hm. rewrite u64_id in Hm by lia.
    set (prot := if rw then Z.lor PROT_WRITE PROT_READ else PROT_READ) in *.
    assert (Hpr : negb (Z.land prot PROT_WRITE =? 0) = rw) by (unfold prot; by destruct rw). cbn in Hm. unfold mmap_spec in Hm. rewrite Hpr in Hm.
    destruct (Hm _ _ Ho Hr Hw eq_refl eq_refl ltac:(lia)) as (b & Hb & Hnone & -> & Hv2). cbn in Hv2. dsteps.
    assert (Hext : ext (view_of k) (view_of k2)) by (rewrite Hv2; by apply ext_map).
    pose proof (st_change _ _ _ _ _ _ _ _ Hst Hext) as Hst2. specialize (Hst2 ltac:(rewrite Hv2; apply heap_ext_refl) ltac:(by rewrite Hv2)).
    assert (Hmb : v_maps (view_of k2) !! b = Some (VMap path (zlength data) rw)) by (by rewrite Hv2; cbn; rewrite lookup_insert_eq).
    assert (Hf2 : v_files (view_of k2) = fs) by (by rewrite Hv2).
    apply (HQ b (alter (set_c_memaddr (Addr b)) i (alter (set_c_memlen (zlength data)) i (cache g))));
      [done| |by exists (set_c_memaddr (Addr b) (set_c_memlen (zlength data) s)); cbn; rewrite !list_lookup_alter_eq, Hi|by rewrite Hv2|by exists rw|].
    + destruct Hst2. split; try done; [|by rewrite Hv2; apply (st_log _ _ _ _ _ _ _ Hst)|by rewrite Hv2; apply (st_in _ _ _ _ _ _ _ Hst)].
      cbn. eapply cache_ok_remap; [done|exact Hi|done|]. destruct (ca_slot st_cache0 i s Hi Ha) as [S1 S2 _]. split; [done|done|].
      exists b. split; [done|]. intros _ _ data0 Hd0. cbn in Hd0. rewrite Hsf, Hf2, Hdata in Hd0. injection Hd0 as <-. exists rw. cbn. rewrite Hsf, Hso. done.
    + eexists. by rewrite !list_lookup_alter_eq, Hi.
  - apply orb_false_iff in Hmode as [Hv Haz]. apply Z.eqb_neq in Haz. dsteps.
    destruct (Hmap Hv Haz data) as (w & Hm & Hlen' & Hrw); [by rewrite Hsf, Hfs|]. rewrite Hsf, Hlen' in Hm. rewrite Hso in Hrw.
    assert (Hg : set_cache (cache g) g = g) by (by destruct g). pose proof (HQ a (cache g) k) as HQ'. rewrite Hg in HQ'.
    apply HQ'; [done|done|by exists s|done|exists w; split; [done|]; auto|by exists s].
Qed.

Section listio.
Hypothesis Hlist : is_rw (req_type req) = false.

Lemma list_fields : get_int req listio_req.r_oflags = fl ∧ get_int req listio_req.r_nbytes = nb ∧ get_char req listio_req.r_pattern = req_pattern req ∧
  get_int req listio_req.r_nstrides = 1 ∧ get_int req listio_req.r_nent = 1.
Proof. unfold req_oflags, req_nbytes, req_pattern. rewrite Hlist. destruct (ro_single _ _ _ Hreq Hlist). done. Qed.

(** A call that reads to the buffer. *)
Definition reader (m : Z → Z → prog doio_t Σ Z) : Prop := ∀ i fd b blk addr log' Q E g k, valid k → st fs log' inp reqno [i] g (view_of k) →
  uses g i path fl fd → in_block (view_of k) b blk addr nb →
  (∀ g' k', valid k' → st fs log' inp reqno [i] g' (view_of k') → uses g' i path fl fd → Q nb g' k') → wp (m fd addr) Q E g k.

(** A call that writes the payload from the buffer. *)
Definition writer (m : Z → Z → prog doio_t Σ Z) : Prop := ∀ i fd b blk addr log' Q E g k, valid k → st fs log' inp reqno [i] g (view_of k) →
  uses g i path fl fd → in_block (view_of k) b blk addr nb → slice blk (addr - b) nb = payload →
  (∀ data' g' k', valid k' → written_as faulty data off payload data' → st (<[path := data']> fs) log' inp reqno [i] g' (view_of k') →
     uses g' i path fl fd → v_heap (view_of k') = v_heap (view_of k) → Pattern g' = Pattern g → Memptr g' = Memptr g → Q nb g' k') → wp (m fd addr) Q E g k.

Lemma readv_ok : can_read fl = true → reader (sy_readv req).
Proof.
  intros Hr i fd b blk addr log' Q E g k Hk Hst Hu Hb HQ. pose proof place as (P1 & P2 & P3). destruct list_fields as (_ & Hn & _).
  unfold sy_readv, sy_rwv. wp_step. apply wp_call; [done|]. intros r k1 Hk1 [Hv1 ->]. cbn [negb]. rewrite <-Hv1 in Hst, Hb. dsteps.
  apply (wp_lseek fs log' inp reqno [i] path fl); [done|done|by eapply uses_open|done|]. intros k2 Hk2 Hst2 Hh2 _ Hpos. wp_step.
  rewrite Hn, u64_id by lia.
  apply (wp_read _ fs log' inp reqno [i] path fl fd off nb b blk addr data); [done|done|done|done|done|done|done|lia| |].
  { destruct Hb as (H1 & H2 & H3 & H4). split; [by rewrite Hh2|done]. }
  intros k3 Hk3 Hst3 _. dsteps. rewrite s32_id by lia. by apply HQ.
Qed.

Lemma writev_ok : can_write fl = true → writer (sy_writev req).
Proof.
  intros Hr i fd b blk addr log' Q E g k Hk Hst Hu Hb Hpl HQ. pose proof place as (P1 & P2 & P3). destruct list_fields as (_ & Hn & _).
  unfold sy_writev, sy_rwv. wp_step. apply wp_call; [done|]. intros r k1 Hk1 [Hv1 ->]. cbn [negb]. rewrite <-Hv1 in Hst, Hb. dsteps.
  apply (wp_lseek fs log' inp reqno [i] path fl); [done|done|by eapply uses_open|done|]. intros k2 Hk2 Hst2 Hh2 _ Hpos. wp_step.
  rewrite Hn, u64_id by lia.
  apply (wp_posix_write _ fs log' inp reqno [i] path fl fd off nb b blk addr data); [done|done|done|done|done|done|done|lia| |].
  { destruct Hb as (H1 & H2 & H3 & H4). split; [by rewrite Hh2|done]. }
  intros k3 data' Hk3 Hd Hst3 Hh3. rewrite Hpl in Hd. dsteps. rewrite s32_id by lia. apply (HQ data'); try done. by rewrite Hh3, Hh2, Hv1.
Qed.

Lemma st_touch fs' log' i g v : st fs' log' inp reqno [i] g v → st fs' log' inp reqno [i] (set_cache (alter (set_c_rtc (Reqno g)) i (cache g)) g) v.
Proof.
  intros []. split; try done. cbn. rewrite st_reqno0. apply (cache_ok_cur _ _ _ _ _ [i; i]); [set_solver|]. by apply cache_ok_touch.
Qed.

Lemma uses_touch g i t j f' fl' fd' : uses g j f' fl' fd' → uses (set_cache (alter (set_c_rtc t) i (cache g)) g) j f' fl' fd'.
Proof.
  intros (s & Hi & H). destruct (decide (i = j)) as [<-|]; [exists (set_c_rtc t s); cbn; by rewrite list_lookup_alter_eq, Hi|].
  exists s. cbn. by rewrite list_lookup_alter_ne.
Qed.

Lemma st_active fs' log' i g v b : st fs' log' inp reqno [i] g v → st fs' log' inp reqno [i] (set_active_mmap_rw b g) v.
Proof. intros []. by split. Qed.

(** sy_mmrw up to the copy. *)
Lemma wp_mapped (rw : bool) i fd addr log' Q E g k : valid k → st fs log' inp reqno [i] g (view_of k) → uses g i path fl fd →
  can_read fl = true → (rw = true → can_write fl = true) → (Z.land fl 3 = O_RDWR → rw = true) → (rw = true → Z.land fl 3 = O_RDWR) →
  (∀ base w g' k', valid k' → st fs log' inp reqno [i] g' (view_of k') → uses g' i path fl fd → v_heap (view_of k') = v_heap (view_of k) →
     v_maps (view_of k') !! base = Some (VMap path (zlength data) w) → (rw = true → w = true) → (∃ s, cache g' !! i = Some s ∧ c_memlen s = zlength data) →
     Pattern g' = Pattern g → Memptr g' = Memptr g → wp (mm_copy req i base addr rw (v_opt o)) Q E g' k') →
  wp (sy_mmrw req fd addr rw) Q E g k.
Proof.
  intros Hk Hst Hu Hr Hw Hrd Hwr HQ. destruct list_fields as (Hofl & _). unfold sy_mmrw. wp_step. apply wp_call; [done|]. intros r k1 Hk1 [Hv1 ->].
  cbn [negb]. rewrite <-Hv1 in Hst. apply wp_file. rewrite Hofl. wp_step. pose proof Hu as (s & Hi & Ha & Hf & Ho & Hfd).
  eapply wp_hit; [by rewrite (st_reqno _ _ _ _ _ _ _ Hst); apply (st_cache _ _ _ _ _ _ _ Hst)|exact Hi|done|done|done|].
  pose proof (st_touch _ _ _ _ _ Hst) as Hst2. set (g2 := set_cache _ g) in *. wp_step. eapply pwp_lift; [done|]. do 3 dstep.
  rewrite (st_opts _ _ _ _ _ _ _ Hst2).
  apply (wp_map_file i fd rw log'); [done|done|by apply uses_touch|done..|]. intros mb l' k3 Hk3 Hst3 Hu3 Hh3 (w & Hm & Hrw) Hs.
  apply (HQ mb w); try done. by rewrite Hh3, Hv1.
Qed.

(** What follows the copy: with -v the file is unmapped. *)
Lemma wp_unmap fs' log' i g s mb w Q E k : valid k → st fs' log' inp reqno [i] g (view_of k) → c_memlen s = zlength data →
  v_maps (view_of k) !! mb = Some (VMap path (zlength data) w) →
  (∀ k', valid k' → st fs' log' inp reqno [i] (set_active_mmap_rw false g) (view_of k') → v_heap (view_of k') = v_heap (view_of k) →
     Q nb (set_active_mmap_rw false g) k') →
  wp (when (v_opt o) (sys (Msync mb (u64 (c_memlen s))));;
      modify (set_active_mmap_rw false);;
      when (v_opt o) (sys (Munmap mb (u64 (c_memlen s))));;
      mret nb) Q E g k.
Proof.
  intros Hk Hst Hs Hm HQ. destruct (v_opt o) eqn:Hv; cbn [when]; [|dsteps; apply HQ; [done|by apply st_active|done]].
  wp_step. apply wp_call; [done|]. intros [] k1 Hk1 Hv1. cbn in Hv1. dsteps. apply wp_call; [done|]. intros [] k2 Hk2 Hm2. cbn in Hm2.
  rewrite Hs, u64_id, Hv1 in Hm2 by lia. specialize (Hm2 _ Hm eq_refl). dsteps. apply HQ; [done| |by rewrite Hm2].
  assert (Hext : ext (view_of k) (view_of k2)).
  { rewrite Hm2. split; cbn; [|done|done|by rewrite Hv]. intros fd' [] H. by eexists. }
  pose proof (st_change _ _ _ _ _ _ _ _ Hst Hext) as Hst2. rewrite Hm2 in Hst2. specialize (Hst2 (heap_ext_refl _) eq_refl). cbn in Hst2.
  rewrite (st_files _ _ _ _ _ _ _ Hst), (st_log _ _ _ _ _ _ _ Hst), (st_in _ _ _ _ _ _ _ Hst) in Hst2. rewrite Hm2. by apply st_active.
Qed.

Lemma mapped_place v mb w : v_maps v !! mb = Some (VMap path (zlength data) w) → v_files v !! path = Some data →
  in_map v mb (VMap path (zlength data) w) data (mb + off) nb.
Proof. intros Hm Hf. pose proof place. split_and!; cbn; try done; lia. Qed.

Lemma mmread_ok : req_type req = MMAPR → reader (sy_mmread req).
Proof.
  intros Ht i fd b blk addr log' Q E g k Hk Hst Hu Hb HQ. pose proof place as (P1 & P2 & P3). pose proof (request_flags _ _ _ Hreq) as Hfl.
  destruct list_fields as (_ & Hn & _). assert (Hr : can_read fl = true) by (apply (fl_read _ _ Hfl); rewrite Ht; set_solver).
  assert (Hacc : Z.land fl 3 = O_RDONLY) by (by apply (fl_mapr _ _ Hfl)).
  unfold sy_mmread. apply (wp_mapped false i fd addr log'); [done|done|done|done|done|by rewrite Hacc|done|].
  intros mb w g1 k1 Hk1 Hst1 Hu1 Hh1 Hm _ (s & Hs & Hsl) _ _. unfold mm_copy. rewrite Hn. wp_step. eapply wp_slot_at; [exact Hs|]. dsteps. unfold copy. wp_step.
  apply (wp_peek_map mb (VMap path (zlength data) w) data); [done| |].
  { apply mapped_place; [done|]. by rewrite (st_files _ _ _ _ _ _ _ Hst1). }
  intros k2 Hk2 Hv2. replace (mb + get_int req listio_req.r_offset - mb) with off by (unfold req_offset; lia).
  assert (Hsz : zlength (slice data off nb) = nb) by (rewrite slice_length by lia; lia).
  destruct Hb as (H1 & H2 & H3 & H4). rewrite <-Hh1, <-Hv2 in H1.
  apply (wp_poke_block b blk); [done|split; [done|lia]|]. intros k3 Hk3 Hv3.
  assert (Hl3 : length (store blk (addr - b) (slice data off nb)) = length blk) by (apply store_length; lia).
  rewrite <-Hv2 in Hst1, Hm. pose proof (st_change _ _ _ _ _ _ _ _ Hst1 (ext_heap _ _) (heap_ext_insert _ _ _ _ H1 Hl3) eq_refl) as Hst3. cbn in Hst3. rewrite <-Hv3 in Hst3.
  rewrite (st_files _ _ _ _ _ _ _ Hst1), (st_log _ _ _ _ _ _ _ Hst1), (st_in _ _ _ _ _ _ _ Hst1) in Hst3.
  apply (wp_unmap fs log' i _ s mb w); [done|by apply st_active|done|by rewrite Hv3|]. intros k4 Hk4 Hst4 _. by apply HQ.
Qed.

Lemma mmwrite_ok : req_type req = MMAPW → writer (sy_mmwrite req).
Proof.
  intros Ht i fd b blk addr log' Q E g k Hk Hst Hu Hb Hpl HQ. pose proof place as (P1 & P2 & P3). pose proof (request_flags _ _ _ Hreq) as Hfl.
  destruct list_fields as (_ & Hn & _). assert (Hr : can_read fl = true) by (apply (fl_read _ _ Hfl); rewrite Ht; set_solver).
  assert (Hw : can_write fl = true) by (apply (fl_write _ _ Hfl); rewrite Ht; set_solver).
  assert (Hacc : Z.land fl 3 = O_RDWR) by (by apply (fl_mapw _ _ Hfl)).
  unfold sy_mmwrite. apply (wp_mapped true i fd addr log'); [done..|].
  intros mb w g1 k1 Hk1 Hst1 Hu1 Hh1 Hm Hrw (s & Hs & Hsl) Hp1 Hm1. unfold mm_copy. rewrite Hn. wp_step. eapply wp_slot_at; [exact Hs|]. dsteps. unfold copy. wp_step.
  destruct Hb as (H1 & H2 & H3 & H4). rewrite <-Hh1 in H1. apply (wp_peek_block b blk); [done|done|]. intros k2 Hk2 Hv2. rewrite Hpl.
  apply (wp_poke_map mb (VMap path (zlength data) w) data); [done| |by apply Hrw|].
  { rewrite payload_length. apply mapped_place; [by rewrite Hv2|]. rewrite Hv2. by rewrite (st_files _ _ _ _ _ _ _ Hst1). }
  intros k3 data' Hk3 Hd Hv3. replace (mb + get_int req listio_req.r_offset - mb) with off in Hd by (unfold req_offset; lia). cbn in Hv3.
  assert (Hfd2 : v_files (view_of k2) !! path = Some data) by (by rewrite Hv2, (st_files _ _ _ _ _ _ _ Hst1)). rewrite <-Hv2 in Hst1, Hm.
  pose proof (st_change _ _ _ _ _ _ _ _ Hst1 (ext_file_set _ path data data' Hfd2 (proj1 Hd)) (heap_ext_refl _) eq_refl) as Hst3. cbn in Hst3. rewrite <-Hv3 in Hst3.
  rewrite (st_files _ _ _ _ _ _ _ Hst1), (st_log _ _ _ _ _ _ _ Hst1), (st_in _ _ _ _ _ _ _ Hst1) in Hst3.
  apply (wp_unmap (<[path := data']> fs) log' i _ s mb w); [done|by apply st_active|done|by rewrite Hv3|]. intros k4 Hk4 Hst4 Hh4.
  apply (HQ data'); try done. rewrite Hh4, Hv3, Hv2. done.
Qed.

(** Text for messages. *)
Definition formatter (fmt : prog doio_t Σ ()) : Prop := ∀ i fd fs' log' cur Q E g k, valid k → st fs' log' inp reqno cur g (view_of k) → uses g i path fl fd →
  (∀ g' k', valid k' → v_files (view_of k') = v_files (view_of k) → Q () g' k') → wp fmt Q E g k.

Lemma fmt_readv_ok : formatter (fmt_readv req).
Proof. intros i fd fs' log' cur Q E g k Hk Hst Hu HQ. unfold fmt_readv. dsteps. by apply HQ. Qed.

Lemma fmt_mmrw_ok : formatter (fmt_mmrw req).
Proof.
  intros i fd fs' log' cur Q E g k Hk Hst (s & Hi & Ha & Hf & Ho & _) HQ. unfold fmt_mmrw. apply wp_file. destruct list_fields as (-> & _). wp_step.
  eapply wp_hit; [by rewrite (st_reqno _ _ _ _ _ _ _ Hst); apply (st_cache _ _ _ _ _ _ _ Hst)|exact Hi|done|done|done|]. dsteps. by apply HQ.
Qed.

Lemma random_word rnd : 0 ≤ rnd → ∃ n, random_range rnd 0 7 1 = Ret (n, None) ∧ 0 ≤ n ≤ 7.
Proof.
  intros Hr. pose proof (choose_multiple_spec INT_MAX (pick_lrand48 rnd) 0 7 1 ltac:(lia) ltac:(unfold INT_MAX; lia) ltac:(done) ltac:(lia)) as H.
  cbn zeta in H. change (first_mult (Z.min 0 7) 1) with 0 in H. change (last_mult (Z.max 0 7) 1) with 7 in H. change (7 <? 0) with false in H.
  change ((7 - 0) / 1 + 1) with 8 in H. cbv iota in H.
  assert (Hm : 0 ≤ rnd mod 8 < 8) by (apply Z.mod_pos_bound; lia). destruct (H (rnd mod 8)) as [Hv _]; [by apply pick_lrand48_ok|lia|].
  eexists. split; [exact Hv|]. lia.
Qed.

Lemma wp_bump memptr (Q : Z → doio_t → Σ → Prop) E g k : valid k →
  (∀ addr k', valid k' → view_of k' = view_of k → memptr ≤ addr ≤ memptr + 7 → Q addr g k') → wp (bump req memptr) Q E g k.
Proof.
  intros Hk HQ. unfold bump. case_if; [|dsteps; apply HQ; [done|done|lia]]. wp_step. apply wp_call; [done|]. intros rnd k1 Hk1 [Hv1 Hr].
  destruct (random_word rnd) as (n & Hn & Hb); [lia|]. wp_step. eapply pwp_lift; [exact Hn|]. dsteps. cbn. apply HQ; [done|done|lia].
Qed.

(** The buffer with the payload at its place. *)
Lemma wp_fill_buffer addr blk (Q : () → doio_t → Σ → Prop) E g k : valid k → v_heap (view_of k) !! Memptr g = Some blk → nb + 16 ≤ zlength blk →
  Memptr g ≤ addr ≤ Memptr g + 7 → Pattern g = req_pattern req :: ptail →
  (∀ blk' k', valid k' → view_of k' = set_heap (<[Memptr g := blk']> (v_heap (view_of k))) (view_of k) → length blk' = length blk →
     slice blk' (addr - Memptr g) nb = payload → Q () g k') → wp (fill_buffer (Memptr g) addr nb) Q E g k.
Proof.
  intros Hk Hblk Hbl Haddr Hpat HQ. pose proof place as (P1 & P2 & P3). pose proof payload_length as Hp. unfold fill_buffer. dsteps. rewrite Hpat.
  apply (wp_pat_fill (Memptr g) blk); [done|split; [done|lia]|simpl; lia|]. fold payload. intros k1 Hk1 Hv1.
  set (blk1 := store blk 0 payload) in *. assert (Hl1 : length blk1 = length blk) by (apply store_length; lia).
  assert (Hs1 : slice blk1 0 nb = payload) by (rewrite <-Hp at 1; apply slice_store_same; lia).
  destruct (Z.eqb_spec addr (Memptr g)) as [->|Hne]; cbn [negb].
  { dsteps. apply (HQ blk1); [done|done|done|]. by rewrite Z.sub_diag. }
  cbn [when]. unfold copy. wp_step.
  assert (Hb1 : v_heap (view_of k1) !! Memptr g = Some blk1) by (by rewrite Hv1; cbn; rewrite lookup_insert_eq).
  apply (wp_peek_block (Memptr g) blk1); [done|split; [done|lia]|]. intros k2 Hk2 Hv2. rewrite Z.sub_diag, Hs1. rewrite <-Hv2 in Hb1.
  apply (wp_poke_block (Memptr g) blk1); [done|split; [done|lia]|]. intros k3 Hk3 Hv3.
  apply (HQ (store blk1 (addr - Memptr g) payload)); [done| |by rewrite store_length by lia|rewrite <-Hp at 1; apply slice_store_same; lia].
  rewrite Hv3, Hv2, Hv1. cbn. by rewrite insert_insert_eq.
Qed.

Lemma region_length : (t ← ck32 (nb * 1); ck32 (t * 1)) = Ret nb.
Proof.
  pose proof place as (P1 & P2 & P3). rewrite Z.mul_1_r. rewrite ck32_ok by (unfold INT_MIN, INT_MAX; lia). rewrite res_bind_ret, Z.mul_1_r.
  apply ck32_ok; unfold INT_MIN, INT_MAX; lia.
Qed.

Lemma region_max : (t ← ck32 (nb * 1); t ← ck32 (t * 1); ck32 (off + t)) = Ret (off + nb).
Proof.
  pose proof place as (P1 & P2 & P3). rewrite Z.mul_1_r. rewrite ck32_ok by (unfold INT_MIN, INT_MAX; lia). rewrite res_bind_ret, Z.mul_1_r.
  rewrite ck32_ok by (unfold INT_MIN, INT_MAX; lia). rewrite res_bind_ret. apply ck32_ok; unfold INT_MIN, INT_MAX; lia.
Qed.

Lemma region_bytes : (t ← ck32 (off + nb - off); ck32 (t + 1)) = Ret (nb + 1).
Proof.
  pose proof place as (P1 & P2 & P3). rewrite Z.add_simpl_l. rewrite ck32_ok by (unfold INT_MIN, INT_MAX; lia). rewrite res_bind_ret.
  apply ck32_ok; unfold INT_MIN, INT_MAX; lia.
Qed.

Lemma wp_lock_region (b : bool) fd (Q : option Z → doio_t → Σ → Prop) E g k : valid k → is_Some (v_fds (view_of k) !! fd) →
  (∀ lock k', valid k' → view_of k' = view_of k → Q lock g k') →
  wp (if b then
        max_byte ← lift (t ← ck32 (nb * 1); t ← ck32 (t * 1); ck32 (off + t));
        len ← lift (t ← ck32 (max_byte - off); ck32 (t + 1));
        r ← lock_file_region fd F_WRLCK off len;
        when (r <? 0) (say (FileLockFailed req fd off max_byte);; quit E_INTERNAL);;
        mret (Some len)
      else mret None) Q E g k.
Proof.
  intros Hk Hfd HQ. pose proof place as (P1 & P2 & P3). destruct b; [|dsteps; by apply HQ].
  wp_step. eapply pwp_lift; [apply region_max|]. wp_step. eapply pwp_lift; [apply region_bytes|].
  wp_step. apply wp_lock; [done|done|]. intros k1 Hk1 Hv1. change (0 <? 0) with false. dsteps. by apply HQ.
Qed.

Lemma wp_unlock (lock : option Z) fd (Q : () → doio_t → Σ → Prop) E g k : valid k → is_Some (v_fds (view_of k) !! fd) →
  (∀ k', valid k' → view_of k' = view_of k → Q () g k') →
  wp (match lock with None => mret () | Some len => r ← lock_file_region fd F_UNLCK off len; when (r <? 0) (quit E_INTERNAL) end) Q E g k.
Proof.
  intros Hk Hfd HQ. destruct lock as [len|]; [|dsteps; by apply HQ]. wp_step. apply wp_lock; [done|done|]. intros k1 Hk1 Hv1.
  change (0 <? 0) with false. dsteps. by apply HQ.
Qed.

Lemma wp_rw_fill (write : bool) i addr blk (Q : () → doio_t → Σ → Prop) E g k : valid k → st fs log inp reqno [i] g (view_of k) →
  v_heap (view_of k) !! Memptr g = Some blk → nb + 16 ≤ zlength blk → Memptr g ≤ addr ≤ Memptr g + 7 → Pattern g = req_pattern req :: ptail →
  (∀ blk' k', valid k' → st fs log inp reqno [i] g (view_of k') → v_heap (view_of k') !! Memptr g = Some blk' → nb + 16 ≤ zlength blk' →
     (write = true → slice blk' (addr - Memptr g) nb = payload) → Q () g k') → wp (when write (fill_buffer (Memptr g) addr nb)) Q E g k.
Proof.
  intros Hk Hst Hblk Hbl Haddr Hpat HQ. destruct write; cbn [when]; [|dsteps; by apply (HQ blk)].
  apply (wp_fill_buffer addr blk); [done|done|done|done|done|]. intros blk' k' Hk' Hv' Hl' Hs'.
  pose proof (st_change _ _ _ _ _ _ _ _ Hst (ext_heap _ _) (heap_ext_insert _ _ _ blk' Hblk Hl') eq_refl) as Hst'. cbn in Hst'. rewrite <-Hv' in Hst'.
  rewrite (st_files _ _ _ _ _ _ _ Hst), (st_log _ _ _ _ _ _ _ Hst), (st_in _ _ _ _ _ _ _ Hst) in Hst'.
  apply (HQ blk'); [done|done|by rewrite Hv'; cbn; rewrite lookup_insert_eq|lia|done].
Qed.

(** The second entry in the log, and the lock. *)
Lemma wp_rw_end (write : bool) data' logged log' lock i fd cur (Q : Z → doio_t → Σ → Prop) E g k : valid k →
  st (<[path := data']> fs) log' inp reqno cur g (view_of k) → prelogged write logged log' → uses g i path fl fd →
  (∀ log2 k', valid k' → postlogged write log2 → st (<[path := data']> fs) log2 inp reqno cur g (view_of k') → Q 0 g k') →
  wp (log_after logged;;
      match lock with None => mret () | Some len => r ← lock_file_region fd F_UNLCK off len; when (r <? 0) (quit E_INTERNAL) end;;
      mret 0) Q E g k.
Proof.
  intros Hk Hst Hpre Hu HQ. wp_step. apply (wp_postlog write logged log' (<[path := data']> fs) cur); [done..|].
  intros log2 k2 Hk2 Hpost Hv2 Hst2. destruct (uses_open _ _ _ _ _ _ _ _ _ _ _ Hst2 Hu) as [pos Hp]. wp_step.
  apply wp_unlock; [done|by eexists|]. intros k3 Hk3 Hv3. rewrite <-Hv3 in Hst2. dsteps. by apply (HQ log2).
Qed.

Lemma wp_verify_length (b : bool) fmt Q E g k : wp (when b (verify path off nb fmt)) Q E g k →
  wp (when b (l ← lift (t ← ck32 (nb * 1); ck32 (t * 1)); verify path off l fmt)) Q E g k.
Proof. intros H. rewrite region_length. by destruct b. Qed.

(** do_rw, for an entry of the table. *)
Lemma do_rw_ok sy (write : bool) Q (E : Z → doio_t → Σ → Prop) g k : List.find (λ sy, sy_type sy =? req_type req) syscalls = Some sy →
  negb (Z.land (sy_flags sy) SY_WRITE =? 0) = write → (if write then writer (sy_syscall sy req) else reader (sy_syscall sy req)) → formatter (sy_format sy req) →
  valid k → st fs log inp reqno [] g (view_of k) →
  (∀ n g' k', miscompared n g' k' → E n g' k') →
  (∀ data' log' cur g' k', valid k' → (if write then stored_as data' else data' = data) → postlogged write log' →
     st (<[path := data']> fs) log' inp reqno cur g' (view_of k') → Q 0 g' k') →
  wp (do_rw req) Q E g k.
Proof.
  intros Hfind Hwr Hcall Hfmt Hk Hst HE HQ. pose proof place as (P1 & P2 & P3). destruct list_fields as (Hofl & Hnb & Hpt & Hns & Hne).
  unfold do_rw. apply wp_file. cbv zeta. rewrite Hofl, Hnb, Hpt, Hns, Hne. change (get_int req listio_req.r_offset) with off.
  change (MAX_AIO <=? 1) with false. rewrite Hfind. dsteps. rewrite Hwr.
  apply wp_descriptor; [done|done|]. intros i fd l' k1 Hk1 Hst1 Hh1 Hu ->. wp_step.
  apply (wp_buffer nb fs log inp reqno [i]); [done|done|lia|]. intros g1 blk k2 Hk2 Hst2 Hca Hpa Hblk Hbl. change (0 <? 0) with false. cbv iota. dsteps.
  destruct (st_pattern _ _ _ _ _ _ _ Hst2) as [c Hpat].
  set (g2 := set_Pattern _ g1). assert (Hpat2 : Pattern g2 = req_pattern req :: ptail) by (unfold g2; simpl; by rewrite Hpat).
  assert (Hst2' : st fs log inp reqno [i] g2 (view_of k2)) by (destruct Hst2; split; try done; by eexists).
  assert (Hu2 : uses g2 i path fl fd) by (unfold uses in *; change (cache g2) with (cache g1); by rewrite Hca).
  change (Memptr g1) with (Memptr g2) in *. clearbody g2. apply wp_bump; [done|]. intros addr k3 Hk3 Hv3 Haddr. rewrite <-Hv3 in Hst2', Hblk. wp_step.
  apply (wp_rw_fill write i addr blk); [done..|]. intros blk4 k4 Hk4 Hst4 Hblk4 Hbl4 Hpl4. dsteps. rewrite (st_opts _ _ _ _ _ _ _ Hst4).
  destruct (uses_open _ _ _ _ _ _ _ _ _ _ _ Hst4 Hu2) as [pos4 Hpos4].
  apply wp_lock_region; [done|by eexists|]. intros lock k5 Hk5 Hv5. rewrite <-Hv5 in Hst4, Hblk4. wp_step.
  apply (wp_prelog write rw_pid set_rw_pid [i]); [done|done|done| |apply (st_pids _ _ _ _ _ _ _ Hst4)|].
  { intros p ->. split_and!; try done. destruct Hst4 as [A1 A2 A3 A4 A5 A6 A7 [A8 A9] A10 A11 A12 A13]. split; try done. split; [done|by right]. }
  intros logged log6 g6 k6 Hk6 Hpre Hst6 Hv6 Hpa6 Hca6 Hm6. wp_step.
  assert (Hu6 : uses g6 i path fl fd) by (unfold uses in *; by rewrite Hca6).
  assert (Hin6 : in_block (view_of k6) (Memptr g2) blk4 addr nb) by (split; [by rewrite Hv6|lia]). destruct write.
  - apply (Hcall i fd (Memptr g2) blk4 addr log6); [done|done|done|done|by apply Hpl4|].
    intros data' g7 k7 Hk7 Hd Hst7 Hu7 Hh7 Hpa7 Hm7. rewrite (proj2 (Z.eqb_neq nb (-1))), Z.eqb_refl by lia. cbn [negb]. dsteps.
    change (0 =? 0) with true. cbn [andb]. apply wp_verify_length.
    apply (wp_verify (v_opt o) _ data' log6 [i] blk4); [done|done|done|simpl; lia|done|by rewrite Hh7, Hm7, Hm6, Hv6|lia|by rewrite Hpa7, Hpa6| |done|].
    { intros l1 cur1 k8 Q' Hk8 Hst8 Hkeep HQ'. apply (Hfmt i fd (<[path := data']> fs) log6 cur1); [done|done|apply Hkeep; [by left|done]|done]. }
    intros l8 cur8 k8 Hk8 Hst8 Hkeep Hst8d. apply (wp_rw_end true data' logged log6 lock i fd cur8); [done|done|done|apply Hkeep; [by left|done]|].
    intros log9 k9 Hk9 Hpost Hst9. by apply (HQ data' log9 cur8).
  - apply (Hcall i fd (Memptr g2) blk4 addr log6); [done|done|done|done|]. intros g7 k7 Hk7 Hst7 Hu7.
    rewrite (proj2 (Z.eqb_neq nb (-1))), Z.eqb_refl by lia. cbn [negb]. dsteps. change (0 =? 0) with true. cbn [andb when]. dstep.
    apply (wp_rw_end false data logged log6 lock i fd [i]); [done|by rewrite insert_id|done|done|]. intros log9 k9 Hk9 Hpost Hst9. by apply (HQ data log9 [i]).
Qed.

(** The four types. *)
Lemma do_rw_types Q (E : Z → doio_t → Σ → Prop) g k : req_type req ∈ [READV; WRITEV; MMAPR; MMAPW] → valid k → st fs log inp reqno [] g (view_of k) →
  (∀ n g' k', miscompared n g' k' → E n g' k') →
  (∀ data' log' cur g' k', valid k' → (if writes (req_type req) then stored_as data' else data' = data) → postlogged (writes (req_type req)) log' →
     st (<[path := data']> fs) log' inp reqno cur g' (view_of k') → Q 0 g' k') →
  wp (do_rw req) Q E g k.
Proof.
  intros Ht Hk Hst HE HQ. pose proof (request_flags _ _ _ Hreq) as Hfl. rewrite !elem_of_cons, elem_of_nil in Ht. destruct Ht as [Ht|[Ht|[Ht|[Ht|[]]]]]; rewrite Ht in HQ.
  - apply (do_rw_ok (Sys READV sy_readv fmt_readv 0) false); [by rewrite Ht|done| |apply fmt_readv_ok|done..].
    apply readv_ok. apply (fl_read _ _ Hfl). rewrite Ht. set_solver.
  - apply (do_rw_ok (Sys WRITEV sy_writev fmt_readv SY_WRITE) true); [by rewrite Ht|done| |apply fmt_readv_ok|done..].
    apply writev_ok. apply (fl_write _ _ Hfl). rewrite Ht. set_solver.
  - apply (do_rw_ok (Sys MMAPR sy_mmread fmt_mmrw 0) false); [by rewrite Ht|done|by apply mmread_ok|apply fmt_mmrw_ok|done..].
  - apply (do_rw_ok (Sys MMAPW sy_mmwrite fmt_mmrw SY_WRITE) true); [by rewrite Ht|done|by apply mmwrite_ok|apply fmt_mmrw_ok|done..].
Qed.
End listio.
End request.

(** *** Requests *)

(** Memberships of closed values. *)
Ltac decided := repeat match goal with |- context [bool_decide ?P] => let b := eval vm_compute in (bool_decide P) in change (bool_decide P) with b end; cbn [negb].

(** A request for a file that exists. *)
Definition acceptable (fs : gmap cstr cstr) (req : cstr) : Prop :=
  ∃ path data, fs !! path = Some data ∧ request_ok path (zlength data) req ∧ 0 < zlength data < 2 ^ 30.

(** What carrying out a request makes of the files and the log. *)
Definition carries (req : cstr) (fs : gmap cstr cstr) (log : option (list Z)) (fs' : gmap cstr cstr) (log' : option (list Z)) : Prop :=
  ∃ path data data', names req path ∧ fs !! path = Some data ∧ fs' = <[path := data']> fs ∧
    (if writes (req_type req) then stored_as req data data' else data' = data) ∧ postlogged log req path (writes (req_type req)) log'.

(** The file of a request does not hold what it has written. *)
Definition spoiled (req : cstr) (fs : gmap cstr cstr) (n : Z) (v : view) : Prop :=
  n = E_COMPARE ∧ v_opt o = true ∧ faulty = true ∧
  ∃ path data', names req path ∧ v_files v = <[path := data']> fs ∧ slice data' (req_offset req) (req_nbytes req) ≠ payload req.

Definition log_open (n : nat) (log : option (list Z)) : Prop := w_opt o = true → ∃ l, log = Some l ∧ zlength l + 300 * Z.of_nat n < 2 ^ 31.

Lemma do_request_ok req fs log inp reqno n Q (E : Z → doio_t → Σ → Prop) g k : acceptable fs req → log_open (S n) log →
  valid k → st fs log inp reqno [] g (view_of k) →
  (∀ n g' k', spoiled req fs n (view_of k') → E n g' k') →
  (∀ fs' log' cur g' k', valid k' → carries req fs log fs' log' → st fs' log' inp reqno cur g' (view_of k') → Q 0 g' k') →
  wp (do_request req) Q E g k.
Proof.
  intros (path & data & Hp & Hreq & Hlen) Hopen Hk Hst HE HQ.
  assert (Hopen' : w_opt o = true → ∃ l, log = Some l ∧ zlength l < 2 ^ 31) by (intros Hw; destruct (Hopen Hw) as (l & ? & ?); exists l; lia || (split; [done|lia])).
  assert (HE' : ∀ n g' k', miscompared fs req path n g' k' → E n g' k').
  { intros m g' k' (? & ? & ? & data' & ? & ?). apply HE. split_and!; try done. exists path, data'. split_and!; try done. apply Hreq. }
  assert (Hread : writes (req_type req) = false → ∀ cur g' k', valid k' → st fs log inp reqno cur g' (view_of k') → Q 0 g' k').
  { intros Hw cur g' k' Hk' Hst'. apply (HQ fs log cur); [done| |done]. exists path, data, data. rewrite Hw.
    split_and!; [apply Hreq|done|by rewrite insert_id|done|done]. }
  assert (Hdone : ∀ data' log' cur g' k', valid k' → (if writes (req_type req) then stored_as req data data' else data' = data) →
    postlogged log req path (writes (req_type req)) log' → st (<[path := data']> fs) log' inp reqno cur g' (view_of k') → Q 0 g' k').
  { intros data' log' cur g' k' Hk' Hd Hl Hst'. apply (HQ (<[path := data']> fs) log' cur); [done| |done]. exists path, data, data'.
    split_and!; try done. apply Hreq. }
  unfold do_request. destruct (ro_access _ _ _ Hreq) as (acc & Hin & _). unfold access_modes in Hin.
  rewrite !elem_of_cons, elem_of_nil in Hin.
  repeat destruct Hin as [Hin|Hin]; try done; injection Hin as Ht _; rewrite Ht in *; decided.
  - apply (do_read_ok fs log inp reqno req path data); try done. by apply Hread.
  - apply (do_write_ok fs log inp reqno req path data); try done. intros data' log' cur g' k' ? ? ? ?. by apply (Hdone data' log' cur).
  - apply (do_rw_types fs log inp reqno req path data); try done; rewrite Ht; [done|set_solver|done].
  - apply (do_rw_types fs log inp reqno req path data); try done; rewrite Ht; [done|set_solver|done].
  - apply (do_rw_types fs log inp reqno req path data); try done; rewrite Ht; [done|set_solver|done].
  - apply (do_rw_types fs log inp reqno req path data); try done; rewrite Ht; [done|set_solver|done].
  - apply (do_sync_ok fs log inp reqno req path data); try done; [by left|by apply Hread].
  - apply (do_sync_ok fs log inp reqno req path data); try done; [by right|by apply Hread].
Qed.

Lemma stored_length r bs : rec_ok r → stored r bs → zlength bs = reclen r + 2.
Proof. intros Hr (b & Henc & ->). apply encodes_length in Henc; [|done]. rewrite length_app, Nat2Z.inj_add. by f_equal. Qed.

(** The lengths of files do not change, and a record takes less than 300 bytes. *)
Lemma carries_acceptable req fs log fs' log' r : carries req fs log fs' log' → acceptable fs r → acceptable fs' r.
Proof.
  intros (path & data & data' & _ & Hp & -> & Hd & _) (p & d & Hf & Hr & Hl). destruct (decide (p = path)) as [->|Hne].
  - rewrite Hp in Hf. injection Hf as <-. exists path, data'. rewrite lookup_insert_eq.
    assert (length data' = length data) as E by (destruct (writes (req_type req)); [apply Hd|by subst]).
    rewrite E. done.
  - exists p, d. by rewrite lookup_insert_ne.
Qed.

Lemma carries_log req fs log fs' log' n : acceptable fs req → carries req fs log fs' log' → log_open (S n) log → log_open n log'.
Proof.
  intros (p & d & _ & Hr & Hlen) (path & data & data' & Hnm & _ & _ & _ & Hl) Hopen Hw. destruct (Hopen Hw) as (l & -> & Hs).
  unfold postlogged in Hl. rewrite Hw, andb_true_r in Hl. destruct (writes (req_type req)); [|exists l; split; [done|lia]].
  destruct Hl as (l' & bs & [= <-] & -> & Hst). exists (l ++ bs). split; [done|].
  assert (path = p) as -> by (apply names_get in Hnm; pose proof (names_get _ _ (ro_names _ _ _ Hr)); congruence).
  destruct (ranges req p d Hr Hlen) as (R1 & R2 & R3 & R4). apply stored_length in Hst; [|by apply log_rec_ok].
  destruct (Hlog Hw) as (_ & Hh & Ht). unfold reclen in Hst. cbn [log_rec w_hostlen w_pathlen w_patternlen] in Hst.
  unfold sizeof_disk in *. rewrite length_app. cbn [length] in *. lia.
Qed.

Lemma cache_ok_next v reqno cur l : cache_ok v reqno cur l → cache_ok v (reqno + 1) [] l.
Proof.
  intros [C1 C2 C3 C4 C5 C6 C7 C8]. split; try done. intros i s Hi Ha. destruct (C2 i s Hi Ha). split; [lia|].
  split; [lia|]. by intros ?%elem_of_nil.
Qed.

Lemma st_set_in fs log inp reqno cur g v inp' : st fs log inp reqno cur g v → st fs log inp' reqno cur g (set_in inp' v).
Proof. intros []. split; try done. eapply cache_ok_ext; [|done]. split; [|done..]. intros fd [] H. by eexists. Qed.

Lemma st_next fs log inp reqno cur g v : st fs log inp reqno cur g v → st fs log inp (reqno + 1) [] (set_Reqno (reqno + 1) g) v.
Proof. intros []. split; try done. by apply cache_ok_next with cur. Qed.

Lemma wp_delay (Q : () → doio_t → Σ → Prop) E g k : valid k → (∀ k', valid k' → view_of k' = view_of k → Q () g k') → wp doio_delay Q E g k.
Proof.
  intros Hk HQ. unfold doio_delay. dsteps. repeat case_if.
  - apply wp_call; [done|]. intros [] k' Hk' Hs. by apply HQ.
  - apply wp_call; [done|]. intros [] k' Hk' Hs. by apply HQ.
  - do 3 (apply pwp_bind; apply wp_call; [done|]; intros ? ? ? ?; simpl in * ). apply wp_call; [done|]. intros [] k4 Hk4 Hs. simpl in Hs.
    apply HQ; [done|congruence].
  - wp_step. by apply HQ.
Qed.

Lemma wp_finish type fs log inp reqno cur (Q : () → doio_t → Σ → Prop) E g k : valid k → st fs log inp reqno cur g (view_of k) → 0 ≤ reqno < 2 ^ 31 - 1 →
  (∀ g' k', valid k' → st fs log inp (reqno + 1) [] g' (view_of k') → Q () g' k') → wp (finish type 0) Q E g k.
Proof.
  intros Hk Hst Hr HQ. unfold finish. change (0 =? SKIP_REQ) with false. change (negb (0 =? 0)) with false. cbv iota. dsteps.
  eapply (pwp_mono _ (λ _ g' k', g' = g ∧ valid k' ∧ view_of k' = view_of k) _ E);
    [destruct (_ && _); dsteps; [by apply wp_say|done]| |done].
  intros [] g' k' (-> & Hk' & Hv). rewrite (st_reqno _ _ _ _ _ _ _ Hst). rewrite ck32_ok by (unfold INT_MIN, INT_MAX; lia). apply pwp_bind; eapply pwp_lift; [done|]. dsteps.
  apply st_next in Hst. rewrite <-Hv in Hst.
  destruct (negb _); dsteps; [|by apply HQ]. apply wp_delay; [done|]. intros k2 Hk2 Hv2. apply HQ; [done|]. by rewrite Hv2.
Qed.

Lemma wp_check_parent fs log inp reqno (Q : () → doio_t → Σ → Prop) E g k : valid k → st fs log inp reqno [] g (view_of k) →
  (∀ k', valid k' → st fs log inp reqno [] g (view_of k') → Q () g k') → wp check_parent Q E g k.
Proof.
  intros Hk Hst HQ. unfold check_parent. dsteps. destruct (_ && _); dsteps; [|by apply HQ].
  apply wp_call; [done|]. intros p k' Hk' [Hv Hp]. rewrite (proj2 (Z.eqb_neq _ _) Hp). dsteps. apply HQ; [done|]. by rewrite Hv.
Qed.

(** *** The loop *)

Inductive ran : list cstr → gmap cstr cstr → option (list Z) → gmap cstr cstr → option (list Z) → Prop :=
| ran_nil fs log : ran [] fs log fs log
| ran_cons req reqs fs log fs1 log1 fs' log' : carries req fs log fs1 log1 → ran reqs fs1 log1 fs' log' → ran (req :: reqs) fs log fs' log'.

(** The first request whose data is spoiled ends the run. *)
Inductive stopped : list cstr → gmap cstr cstr → option (list Z) → Z → view → Prop :=
| stopped_here req reqs fs log n v : spoiled req fs n v → stopped (req :: reqs) fs log n v
| stopped_later req reqs fs log fs1 log1 n v : carries req fs log fs1 log1 → stopped reqs fs1 log1 n v → stopped (req :: reqs) fs log n v.

Hypothesis Hrelease : Release_Interval o = 0.

Lemma wp_turn req fs log inp reqno n (Q : () → doio_t → Σ → Prop) (E : Z → doio_t → Σ → Prop) g k : acceptable fs req → log_open (S n) log →
  0 ≤ reqno < 2 ^ 31 - 1 → valid k → st fs log inp reqno [] g (view_of k) →
  (∀ n g' k', spoiled req fs n (view_of k') → E n g' k') →
  (∀ fs' log' g' k', valid k' → carries req fs log fs' log' → st fs' log' inp (reqno + 1) [] g' (view_of k') → Q () g' k') →
  wp (turn req) Q E g k.
Proof.
  intros Hacc Hopen Hr Hk Hst HE HQ. pose proof Hacc as (path & data & _ & Hreq & _). unfold turn.
  rewrite (ro_sized _ _ _ Hreq), (ro_magic _ _ _ Hreq), !Z.eqb_refl. cbn [negb]. unfold release. dsteps.
  rewrite (st_opts _ _ _ _ _ _ _ Hst), Hrelease. change (negb (0 =? 0)) with false. rewrite andb_false_r. cbn [andb]. dsteps.
  apply (do_request_ok req fs log inp reqno n); try done. intros fs' log' cur g' k' Hk' Hc Hst'.
  apply (wp_finish _ fs' log' inp reqno cur); try done. intros g2 k2 Hk2 Hst2. by apply (HQ fs' log').
Qed.

Lemma wp_doio_loop infd reqs : ∀ fs log reqno (Q : () → doio_t → Σ → Prop) (E : Z → doio_t → Σ → Prop) g k,
  Forall (acceptable fs) reqs → log_open (length reqs) log → 0 ≤ reqno → reqno + zlength reqs < 2 ^ 31 →
  valid k → st fs log reqs reqno [] g (view_of k) →
  (∀ n g' k', stopped reqs fs log n (view_of k') → E n g' k') →
  (∀ fs' log' g' k', valid k' → ran reqs fs log fs' log' → st fs' log' [] (reqno + zlength reqs) [] g' (view_of k') → Q () g' k') →
  wp (doio_loop (S (length reqs)) infd) Q E g k.
Proof.
  induction reqs as [|req reqs IH]; intros fs log reqno Q E g k Hacc Hopen Hr Hmax Hk Hst HE HQ; cbn [doio_loop]; cbn [length] in *;
    apply pwp_bind, wp_call; try done; intros r k' Hk' Hs; simpl in Hs; rewrite (st_in _ _ _ _ _ _ _ Hst) in Hs.
  { destruct Hs as [-> Hs]. wp_step. apply (HQ fs log); [done|constructor|]. rewrite Z.add_0_r. by rewrite Hs. }
  apply Forall_cons in Hacc as [Hreq Hacc]. pose proof Hreq as (path & data & _ & Hok & _).
  destruct Hs as [-> Hv]; [by rewrite (ro_sized _ _ _ Hok)|]. apply (st_set_in _ _ _ _ _ _ _ reqs) in Hst. rewrite <-Hv in Hst.
  assert (Hne : req ≠ []) by (intros ->; by pose proof (ro_sized _ _ _ Hok)). destruct req as [|c req0] eqn:Ereq; [done|]. rewrite <-Ereq in *. clear Ereq Hne.
  apply pwp_bind, (wp_check_parent fs log reqs reqno); try done. intros k2 Hk2 Hst2.
  apply pwp_bind, (wp_turn req fs log reqs reqno (length reqs)); try done; [lia|intros; by apply HE; constructor|].
  intros fs1 log1 g1 k3 Hk3 Hc Hst3. apply (IH fs1 log1 (reqno + 1)); try done; try lia.
  - eapply Forall_impl; [done|]. intros ? ?. by eapply carries_acceptable.
  - by eapply carries_log.
  - intros n g' k4 Hstop. apply HE. by eapply stopped_later.
  - intros fs' log' g' k4 Hk4 Hran Hst4. apply (HQ fs' log'); [done|by eapply ran_cons|].
    by replace (reqno + Z.of_nat (S (length reqs))) with (reqno + 1 + zlength reqs) by lia.
Qed.
End operations.
