(* ===== verification/DoioRun.v ===== *)
(** * doio from its start to its exit

    A child of doio that reads its requests from a pipe: it carries them all out, or stops
    at the first one whose file does not hold what was written.  What that means for the
    files and for the log; what the descriptors of the cache are; where the check of the
    contents points; and the requests that iogen writes, carried out by doio. *)

From S2P Require Import Prelude CInt CMem CString OpenFlags WriteLog CProg IoReq Doio DoioMain DoioPosix DoioProof.
Local Open Scope Z_scope.

(** ** One child *)

(** The pattern that init_pattern prepares. *)
Definition pattern_of (pid : Z) (host prog : cstr) : res cstr :=
  t ← pattern_text pid host prog (str "*");
  if zlength t %% 16 =? 0 then pattern_text pid host prog (str "**") else Ret t.

(** What is there when a child starts, and what its options say: two descriptors to spare,
    memory of the data segment, requests read from the standard input and [n] of them. *)
Record set_up (limit : nat) (host ptail : cstr) (n : Z) (g : doio_t) (v : view) : Prop := {
  be_fds : (size (v_fds v) + 2 ≤ limit)%nat;
  be_mem : mem_ok (v_heap v) (Memalloc g) (Nmemalloc g);
  be_state : cache g = [] ∧ 0 ≤ Reqno g ∧ Reqno g + n < 2 ^ 31 ∧ 0 ≤ mturn g ∧ write_pid g = -1 ∧ rw_pid g = -1;
  be_opts : Infile (opts g) = None ∧ Release_Interval (opts g) = 0 ∧ (V_opt (opts g) = true → Validation_Flags (opts g) ∈ [0; O_SYNC]);
  be_host : host_of (v_host v) = Ret host;
  be_pattern : ∃ c, pattern_of (v_pid v) host (Prog (opts g)) = Ret (c :: ptail);
  be_log : w_opt (opts g) = true → in_u 17 (v_pid v) ∧ zlength host ≤ 8 ∧ zlength ptail ≤ 62 ∧
    (∃ name, Write_Log (opts g) = Some name ∧ zlength name < 1024) ∧ zlength (default [] (v_log v)) + 300 * n < 2 ^ 31 }.

(** The requests are for files that exist. *)
Definition begins (limit : nat) (host ptail : cstr) (reqs : list cstr) (g : doio_t) (v : view) : Prop :=
  v_in v = reqs ∧ Forall (acceptable (v_files v)) reqs ∧ set_up limit host ptail (zlength reqs) g v.

(** The log once it is open. *)
Definition open_log_of (o : options) (v : view) : option (list Z) := if w_opt o then Some (default [] (v_log v)) else v_log v.

Section child.
Context (faulty : bool) (limit : nat) {Σ : Type} `{!System call Σ} `{!Posix faulty limit Σ}.

Lemma wp_init_pattern host t (Q : () → doio_t → Σ → Prop) E g k : valid k → host_of (v_host (view_of k)) = Ret host →
  pattern_of (v_pid (view_of k)) host (Prog (opts g)) = Ret t →
  (∀ k', valid k' → view_of k' = view_of k → Q () (set_Pattern t (set_Host host g)) k') → wp init_pattern Q E g k.
Proof.
  intros Hk Hh Ht HQ. unfold pattern_of in Ht. apply res_bind_inv in Ht as (t1 & H1 & Ht). unfold init_pattern.
  apply pwp_bind, (wp_call faulty limit); [done|]. intros h k1 Hk1 [V1 ->]. apply pwp_bind. eapply pwp_lift; [done|]. dsteps.
  apply (wp_call faulty limit); [done|]. intros p k2 Hk2 [V2 ->]. rewrite V1. apply pwp_bind. eapply pwp_lift; [exact H1|].
  apply pwp_bind. destruct (_ =? 0).
  - apply pwp_bind, (wp_call faulty limit); [done|]. intros p k3 Hk3 [V3 ->]. rewrite V2, V1. eapply pwp_lift; [exact Ht|]. dsteps.
    apply HQ; [done|congruence].
  - dsteps. injection Ht as ->. apply HQ; [done|congruence].
Qed.

Lemma wp_open_log name (Q : () → doio_t → Σ → Prop) E g k : valid k → Write_Log (opts g) = Some name → zlength name < 1024 →
  (∀ k', valid k' → view_of k' = set_log (Some (default [] (v_log (view_of k)))) (view_of k) → Q () g k') → wp (open_log false E_SETUP) Q E g k.
Proof.
  intros Hk Hn Hl HQ. unfold open_log. dsteps. rewrite Hn, (proj2 (Z.ltb_lt _ _) Hl). dsteps.
  apply (wp_call faulty limit); [done|]. intros s k1 Hk1 (V1 & wbuf & _ & _ & ->). cbn.
  apply pwp_bind, (wp_call faulty limit); [done|]. intros [] k2 Hk2 V2. dsteps. apply HQ; [done|]. cbn in V2. rewrite V2, V1.
  by destruct (v_log (view_of k)).
Qed.

Lemma wp_signals (Q : () → doio_t → Σ → Prop) E g k : valid k → (∀ k', valid k' → view_of k' = view_of k → Q () g k') →
  wp (each (seqZ 1 NSIG) (λ i, sys (Sigaction i (child_action i)))) Q E g k.
Proof.
  intros Hk HQ. apply (pwp_each _ _ (λ g' k', g' = g ∧ valid k' ∧ view_of k' = view_of k)); [done| |naive_solver].
  intros i g' k1 _ (-> & Hk1 & V1). apply (wp_call faulty limit); [done|]. intros [] k2 Hk2 V2. cbn in V2. split_and!; [done|done|congruence].
Qed.

Lemma begins_cache host ptail reqs g k o' : begins limit host ptail reqs g (view_of k) →
  cache_ok o' (dom (v_fds (view_of k))) limit (view_of k) (Reqno g) [] [].
Proof.
  intros (_ & _ & Hb). pose proof (be_fds _ _ _ _ _ _ Hb). split; try done.
  - intros fd Hfd. left. by apply elem_of_dom.
  - intros fd Hfd. by apply elem_of_dom in Hfd.
  - lia.
Qed.

(** How a child may end. *)
Definition outcome_of (host ptail : cstr) (reqs : list cstr) (o : options) (v : view) (n : Z) (v' : view) : Prop :=
  n = E_NORMAL ∧ v_in v' = [] ∧ ran faulty o ptail host (v_pid v) reqs (v_files v) (open_log_of o v) (v_files v') (v_log v') ∨
  stopped faulty o ptail host (v_pid v) reqs (v_files v) (open_log_of o v) n v'.

Lemma wp_doio {A} host ptail reqs (Q : A → doio_t → Σ → Prop) g k : valid k → begins limit host ptail reqs g (view_of k) →
  wp (doio (S (length reqs))) Q (λ n _ k', outcome_of host ptail reqs (opts g) (view_of k) n (view_of k')) g k.
Proof.
  intros Hk Hbegin. pose proof Hbegin as (Hinp & Hreqs & Hb). destruct (be_opts _ _ _ _ _ _ Hb) as (Hin & Hrel & HV). destruct (be_pattern _ _ _ _ _ _ Hb) as (c & Hpat).
  destruct (be_state _ _ _ _ _ _ Hb) as (S1 & S2 & S3 & S4 & S5 & S6).
  unfold doio. dsteps. apply (wp_init_pattern host (c :: ptail)); [done|apply Hb|done|]. intros k1 Hk1 V1. dsteps.
  set (g1 := set_Pattern _ _).
  assert (Hlogged : wp (when (w_opt (opts g)) (open_log false E_SETUP))
    (λ _ g' k', g' = g1 ∧ valid k' ∧ view_of k' = set_log (open_log_of (opts g) (view_of k)) (view_of k)) (λ _ _ _, False) g1 k1).
  { unfold open_log_of. destruct (w_opt (opts g)) eqn:Hw; dsteps.
    - destruct (be_log _ _ _ _ _ _ Hb Hw) as (_ & _ & _ & (name & Hn & Hl) & _). apply (wp_open_log name); try done.
      intros k2 Hk2 V2. rewrite V2, V1. done.
    - split_and!; [done|done|]. rewrite V1. by destruct (view_of k). }
  eapply pwp_mono; [exact Hlogged| |done]. intros [] g' k2 (-> & Hk2 & V2). dsteps.
  change (Infile (opts g1)) with (Infile (opts g)). rewrite Hin. dsteps.
  apply wp_signals; [done|]. intros k3 Hk3 V3. dsteps. rewrite V2 in V3.
  assert (Hroom : (size (dom (v_fds (view_of k)) : gset Z) + 2 ≤ limit)%nat) by (rewrite size_dom; apply Hb).
  assert (Hw : w_opt (opts g) = true → in_u 17 (v_pid (view_of k)) ∧ zlength host ≤ 8 ∧ zlength ptail ≤ 62) by (intros Hw; by destruct (be_log _ _ _ _ _ _ Hb Hw) as (? & ? & ? & _)).
  apply (wp_doio_loop faulty limit (opts g) (dom (v_fds (view_of k))) Hroom ptail host (v_pid (view_of k)) HV Hw Hrel 0 reqs (v_files (view_of k)) (open_log_of (opts g) (view_of k)) (Reqno g));
    try done.
  - intros Hwo. destruct (be_log _ _ _ _ _ _ Hb Hwo) as (_ & _ & _ & _ & Hl). unfold open_log_of. rewrite Hwo. by eexists.
  - rewrite V3. split; try done; [|apply Hb|by eexists|by (split; left)].
    change (cache g1) with (cache g). rewrite S1. eapply cache_ok_ext; [apply ext_log|by eapply begins_cache].
  - intros n g' k' Hs. by right.
  - intros fs' log' g' k' Hk' Hran Hst. apply (wp_quit faulty limit (dom (v_fds (view_of k))) Hroom); [done|apply Hst|].
    intros g2 k4 heap' Hk4 V4. left. rewrite V4. destruct Hst as [? ? ? ? ? ? ? ? ? Hf Hl Hi]. cbn. rewrite Hf, Hl, Hi. done.
Qed.
End child.

(** ** What the requests do *)

(** The files after a request on a system that keeps what is written. *)
Definition replay (ptail : cstr) (fs : gmap cstr cstr) (req : cstr) : gmap cstr cstr :=
  match get_file req with
  | Ret path => if writes (req_type req) then alter (λ data, store data (req_offset req) (payload ptail req)) path fs else fs
  | _ => fs
  end.

(** What the log says of it, once it is done. *)
Definition record_of (host ptail : cstr) (pid : Z) (req : cstr) : option wlog_rec :=
  match get_file req with
  | Ret path =>
      if writes (req_type req) then
        Some (log_rec host pid (req_oflags req) (req_offset req) (req_nbytes req) path (req_pattern req :: ptail) 1)
      else None
  | _ => None
  end.

Lemma carries_replay o ptail host pid req fs log fs' log' : carries false o ptail host pid req fs log fs' log' → fs' = replay ptail fs req.
Proof.
  intros (path & data & data' & Hn & Hd & -> & Hw & _). unfold replay. rewrite (names_get _ _ Hn). destruct (writes (req_type req)).
  - destruct Hw as [[_ Hs] _]. rewrite (Hs eq_refl). apply map_eq. intros q. destruct (decide (path = q)) as [->|].
    + by rewrite lookup_insert_eq, lookup_alter_eq, Hd.
    + by rewrite lookup_insert_ne, lookup_alter_ne.
  - subst. by rewrite insert_id.
Qed.

Lemma ran_replay o ptail host pid reqs fs log fs' log' : ran false o ptail host pid reqs fs log fs' log' → fs' = foldl (replay ptail) fs reqs.
Proof. induction 1 as [|req reqs fs log fs1 log1 fs' log' Hc _ IH]; [done|]. cbn. apply carries_replay in Hc. by subst. Qed.

Lemma stopped_faulty faulty o ptail host pid reqs fs log n v : stopped faulty o ptail host pid reqs fs log n v →
  n = E_COMPARE ∧ v_opt o = true ∧ faulty = true.
Proof. induction 1 as [? ? ? ? ? ? (? & ? & ? & _)|]; done. Qed.

Section log.
Context (faulty : bool) (o : options) (ptail host : cstr) (pid : Z).
Hypothesis Hw : w_opt o = true.
Hypothesis Hlog : in_u 17 pid ∧ zlength host ≤ 8 ∧ zlength ptail ≤ 62.

Lemma ran_log reqs fs l fs' log' : ran faulty o ptail host pid reqs fs (Some l) fs' log' → Forall (acceptable fs) reqs →
  ∃ ss, log' = Some (l ++ concat ss) ∧ Forall2 (λ r s, rec_ok r ∧ stored r s) (omap (record_of host ptail pid) reqs) ss.
Proof using Hw Hlog.
  remember (Some l) as log eqn:El. intros Hran. revert l El.
  induction Hran as [fs log|req reqs fs log fs1 log1 fs' log' Hc _ IH]; intros l -> Hacc.
  { exists []. cbn. by rewrite app_nil_r. }
  apply Forall_cons in Hacc as [Hreq Hacc].
  assert (Hnext : Forall (acceptable fs1) reqs) by (eapply Forall_impl; [done|]; intros ? ?; by eapply carries_acceptable).
  destruct Hc as (path & data & data' & Hn & _ & _ & _ & Hp). unfold postlogged in Hp. rewrite Hw, andb_true_r in Hp.
  cbn [omap list_omap]. unfold record_of at 1. rewrite (names_get _ _ Hn).
  destruct (writes (req_type req)); [|subst; by destruct (IH l eq_refl Hnext) as (ss & ? & ?); exists ss].
  destruct Hp as (l0 & bs & [= <-] & -> & Hs). destruct (IH (l ++ bs) eq_refl Hnext) as (ss & -> & Hall).
  exists (bs :: ss). cbn [concat]. rewrite <-app_assoc. split; [done|]. constructor; [split; [|done]|done].
  destruct Hreq as (p & d & _ & Hr & Hl).
  assert (path = p) as -> by (apply names_get in Hn; pose proof (names_get _ _ (ro_names _ _ _ Hr)); congruence).
  destruct (ranges req p d Hr Hl) as (R1 & R2 & R3 & R4). by apply (log_rec_ok o).
Qed.
End log.

Lemma scan_logged_records rs ss : Forall2 (λ r s, rec_ok r ∧ stored r s) rs ss → Forall (λ r, reclen r < 128) rs →
  Forall2 logged rs ss ∧ zlength (concat ss) ≤ 130 * zlength rs.
Proof.
  induction 1 as [|r s rs ss [Hr Hs] _ IH]; intros Hshort; [by split|]. apply Forall_cons in Hshort as [Hl Hshort].
  destruct (IH Hshort) as [H1 H2]. split; [by constructor|]. cbn [concat length]. rewrite length_app.
  pose proof (stored_length r s Hr Hs). lia.
Qed.

Lemma ran_last faulty o ptail host pid pre req fs log fs' log' : ran faulty o ptail host pid (pre ++ [req]) fs log fs' log' →
  ∃ fs0 log0 fs1 log1, carries faulty o ptail host pid req fs0 log0 fs1 log1 ∧ fs1 = fs'.
Proof.
  revert fs log. induction pre as [|q pre IH]; intros fs log Hran; inversion Hran as [|? ? ? ? fs1 log1 ? ? Hc Hr]; subst.
  - inversion Hr; subst. by do 4 eexists.
  - by eapply IH.
Qed.

(** ** Properties *)

Section correct.
Context (limit : nat) {Σ : Type} `{!System call Σ} `{!Posix false limit Σ}.

Lemma wp_doio_correct {A} host ptail reqs (Q : A → doio_t → Σ → Prop) g k : valid k → begins limit host ptail reqs g (view_of k) →
  wp (doio (S (length reqs))) Q (λ n _ k', n = E_NORMAL ∧ v_in (view_of k') = [] ∧
    v_files (view_of k') = foldl (replay ptail) (v_files (view_of k)) reqs) g k.
Proof.
  intros Hk Hb. eapply pwp_mono; [by apply (wp_doio false limit host ptail)|done|].
  intros n g' k' [(-> & Hin & Hran)|(_ & _ & ?)%stopped_faulty]; [|done]. split_and!; [done|done|by eapply ran_replay].
Qed.

(** C10: on a system that keeps what is written a child carries out all the requests on its
    input, one after the other, and exits with E_NORMAL: the files then hold what the
    writes of the requests (by write, writev or a mapping) make of them, and nothing else
    has changed.  It ends, accesses no memory that is not its own and complains of nothing,
    whatever descriptors the cache has to close on the way. *)
Theorem requests_carried_out {A} host ptail reqs (Q : A → doio_t → Σ → Prop) g k : valid k → begins limit host ptail reqs g (view_of k) →
  wp (doio (S (length reqs))) Q (λ n _ k', n = E_NORMAL ∧ v_in (view_of k') = [] ∧
    v_files (view_of k') = foldl (replay ptail) (v_files (view_of k)) reqs) g k.
Proof. apply wp_doio_correct. Qed.

(** C13: with -w and a log that is empty at first, the log holds a record of each write when
    the child has ended, marked as done; a program that reads the log backwards, with a
    function that does not stop the scan, gets these records, the last one first, with the
    file, the place, the length and the pattern of the request.  The records are shorter
    than 128 bytes (longer ones cannot be scanned, [WriteLog.long_record_undefined]), and
    pid, host name and pattern fit their fields ([be_log]). *)
Theorem writes_logged {A B} host ptail reqs (Q : A → doio_t → Σ → Prop) g k (func : wlog_rec → B → B * Z) buf albuf b :
  valid k → begins limit host ptail reqs g (view_of k) → w_opt (opts g) = true → default [] (v_log (view_of k)) = [] →
  let recs := omap (record_of host ptail (v_pid (view_of k))) reqs in
  Forall (λ r, reclen r < 128) recs → (∀ r b, (func r b).2 ≠ WLOG_STOP_SCAN) → length buf = Z.to_nat bufsize → length albuf = 450%nat →
  wp (doio (S (length reqs))) Q (λ n _ k', n = E_NORMAL ∧ ∃ file, v_log (view_of k') = Some file ∧
    wlog_scan_backward func 0 true true file buf albuf b = Ret (Some (visit func b (rev recs)))) g k.
Proof.
  intros Hk Hb Hw Hempty recs Hshort Hfunc Hbuf Halbuf. eapply pwp_mono; [by apply (wp_doio false limit host ptail)|done|].
  intros n g' k' [(-> & _ & Hran)|(_ & _ & ?)%stopped_faulty]; [|done]. split; [done|]. destruct Hb as (_ & Hacc & Hset).
  destruct (be_log _ _ _ _ _ _ Hset Hw) as (L1 & L2 & L3 & _ & Hmax).
  unfold open_log_of in Hran. rewrite Hw, Hempty in Hran. apply ran_log in Hran as (ss & -> & Hss); [|done..].
  exists (concat ss). split; [done|]. rewrite Hempty in Hmax. fold recs in Hss.
  apply scan_logged_records with (1 := Hss) in Hshort as [Hl Hlen]. apply (scan_logged func 0 recs ss); try done.
  assert (length recs ≤ length reqs)%nat by (subst recs; clear; induction reqs as [|q reqs IH]; cbn; [done|]; destruct (record_of _ _ _ q); cbn; lia).
  change (zlength []) with 0 in Hmax. lia.
Qed.
End correct.

Section checking.
Context (faulty : bool) (limit : nat) {Σ : Type} `{!System call Σ} `{!Posix faulty limit Σ}.

(** C11: with -v, on a system that may lose or spoil what is written, a child tells whether
    that has happened: it exits with E_NORMAL exactly when after each write, before the
    next request, the place of the file held the bytes that were written; else it stops
    at the first request of which this is not so and exits with E_COMPARE, the file being
    left as it is. *)
Theorem corruption_detected {A} host ptail reqs (Q : A → doio_t → Σ → Prop) g k : valid k → begins limit host ptail reqs g (view_of k) →
  v_opt (opts g) = true →
  let o := opts g in let v := view_of k in
  wp (doio (S (length reqs))) Q (λ n _ k',
    n = E_NORMAL ∧ ran faulty o ptail host (v_pid v) reqs (v_files v) (open_log_of o v) (v_files (view_of k')) (v_log (view_of k')) ∧
      (∀ pre req path, reqs = pre ++ [req] → writes (req_type req) = true → names req path →
         ∃ data, v_files (view_of k') !! path = Some data ∧ slice data (req_offset req) (req_nbytes req) = payload ptail req) ∨
    n = E_COMPARE ∧ stopped faulty o ptail host (v_pid v) reqs (v_files v) (open_log_of o v) n (view_of k')) g k.
Proof.
  intros Hk Hb Hv o v. eapply pwp_mono; [by apply (wp_doio faulty limit host ptail)|done|].
  intros n g' k' [(-> & _ & Hran)|Hs]; [left|right; split; [by destruct (stopped_faulty _ _ _ _ _ _ _ _ _ _ Hs)|done]].
  split_and!; [done|done|]. intros pre req path -> Hw Hn. apply ran_last in Hran as (fs & log & fs' & log' & Hc & <-).
  destruct Hc as (path' & data & data' & Hn' & _ & -> & Hd & _). rewrite Hw in Hd.
  assert (path' = path) as -> by (apply names_get in Hn, Hn'; congruence). exists data'. rewrite lookup_insert_eq. split; [done|]. by apply Hd.
Qed.

(** C23: the cache of descriptors hands out a descriptor that is open on the wanted file with
    the wanted flags, whatever the cache holds and also when no more files can be opened
    (the one that was not used for the longest time is then closed); the slots stay
    consistent with what the system has open, and no descriptor is lost. *)
Theorem descriptor_found (o : options) (base : gset Z) f fl (E : Z → doio_t → Σ → Prop) g k :
  (size base + 2 ≤ limit)%nat → valid k → cache_ok (v_opt o) base limit (view_of k) (Reqno g) [] (cache g) →
  zlength f < 129 → is_Some (v_files (view_of k) !! f) → plain fl = true → opts g = o →
  wp (alloc_fd (Some f) fl) (λ fd g' k', (∃ pos, v_fds (view_of k') !! fd = Some (OFile f fl pos)) ∧
    (∃ i, cache_ok (v_opt o) base limit (view_of k') (Reqno g) [i] (cache g')) ∧ only_fds (view_of k) (view_of k')) E g k.
Proof.
  intros Hroom Hk Hc Hf He Hp Ho. unfold alloc_fd. apply pwp_bind, (wp_alloc_fdcache faulty limit o base Hroom []); [done..|cbn; lia|done|done|done|].
  intros i s l' k' Hk' Hfds Hc' Hi Ha <- <- _. cbv beta iota. apply pwp_bind. unfold slot_at. dsteps.
  eapply pwp_lift; [apply mem_get_lookup; [lia|rewrite Nat2Z.id; exact Hi]|]. dsteps.
  split_and!; [by destruct (sl_fd (ca_slot Hc' i s Hi Ha)) as (pos & ?); exists pos|by exists i|done].
Qed.

(** C28: doio_pat_check accepts a buffer exactly when it holds the repeated pattern; else its
    message gives the offset in the file of the first byte that differs, and up to 32 bytes
    from there on as they should be and as they are. *)
Theorem miscompare_located buf offset n pattern : 0 < zlength pattern → zlength buf = n → 0 ≤ offset → offset + n < 2 ^ 31 →
  ∃ r, doio_pat_check buf offset n pattern 0 = Ret r ∧
    match r with
    | None => buf = pat_bytes pattern n
    | Some msg => buf ≠ pat_bytes pattern n ∧ ∃ i e a, points_at buf 0 pattern 0 (i, e, a) ∧
        msg = corrupt_text ++ place_text (offset + i) (zlength a) e a
    end.
Proof. apply pat_check_ok. Qed.
End checking.

(** ** The parent *)

(** What a child's status counts as. *)
Definition status_of (stat : Z) : Z :=
  if WIFEXITED stat then
    let s := WEXITSTATUS stat in if bool_decide (s ∈ [E_NORMAL; E_USAGE; E_SETUP; E_COMPARE; E_INTERNAL]) then s else E_INTERNAL
  else if WIFSIGNALED stat && negb (WTERMSIG stat =? SIGINT) then E_SIGNAL
  else 0.

(** The children that [wait] is going to report; [None] is an interruption. *)
Class Parent (Σ : Type) `{!System call Σ} := {
  ended : Σ → list (option (Z * Z));
  ended_wait k x rest : ended k = x :: rest →
    ended (reply Wait k).2 = rest ∧ (reply Wait k).1 = match x with Some r => inr r | None => inl EINTR end;
  ended_say k m : ended (reply (Say m) k).2 = ended k;
  ended_kill k p s : ended (reply (Kill p s) k).2 = ended k }.

Section parent.
Context {Σ : Type} `{!System call Σ} `{!Parent Σ}.

Lemma wp_child_status a pid st Q E g (k : Σ) : (∀ k', ended k' = ended k → Q (status_of st) g k') → wp (child_status a pid st) Q E g k.
Proof.
  intros HQ. unfold child_status, status_of in *.
  assert (Hsay : ∀ m n, Q n g (reply (Say m) k).2 → wp (say m;; mret n) Q E g k) by (intros m n H; by wp_step; apply pwp_sys; wp_step).
  destruct (WIFEXITED st).
  - set (s := WEXITSTATUS st) in *. clearbody s. destruct (Z.eqb_spec s E_NORMAL) as [->|N1]; [wp_step; by apply HQ|].
    destruct (Z.eqb_spec s E_INTERNAL) as [->|N2]; [apply Hsay, HQ, ended_say|].
    destruct (Z.eqb_spec s E_SETUP) as [->|N3]; [apply Hsay, HQ, ended_say|].
    destruct (Z.eqb_spec s E_COMPARE) as [->|N4].
    { wp_step. apply pwp_sys. destruct a; cbn [when]; dsteps; [|apply HQ, ended_say]. apply pwp_sys. wp_step.
      apply HQ. by rewrite ended_kill, ended_say. }
    destruct (Z.eqb_spec s E_USAGE) as [->|N5]; [apply Hsay, HQ, ended_say|].
    rewrite bool_decide_false in HQ by (rewrite !elem_of_cons, elem_of_nil; tauto). apply Hsay, HQ, ended_say.
  - destruct (_ && _); [apply Hsay, HQ, ended_say|wp_step; by apply HQ].
Qed.

Lemma wp_wait_loop : ∀ fuel n stat ex Q E g (k : Σ), (length (ended k) < fuel)%nat → zlength (omap id (ended k)) = n →
  (∀ g' k', Q (foldl (λ x s, Z.lor x (status_of s.2)) ex (omap id (ended k))) g' k') → wp (wait_loop fuel n stat ex) Q E g k.
Proof.
  induction fuel as [|fuel IH]; intros n stat ex Q E g k Hfuel Hn HQ; [lia|]. cbn [wait_loop].
  destruct (Z.eqb_spec n 0) as [->|Hne]. { destruct (omap id (ended k)); [|done]. by wp_step. }
  destruct (ended k) as [|x rest] eqn:Hend; [cbn in Hn; lia|]. destruct (ended_wait k x rest Hend) as [Hrest Hres].
  apply pwp_bind, pwp_sys. rewrite Hres. cbn [length] in Hfuel. destruct x as [[pid st]|].
  - cbn [omap list_omap id] in *. dsteps. apply wp_child_status. intros k' Hk'. rewrite Hrest in Hk'.
    apply IH; rewrite Hk'; [lia|cbn in Hn; unfold omap in *; lia|]. intros g' k2. apply HQ.
  - change (EINTR =? EINTR) with true. cbv iota. apply IH; rewrite Hrest; [lia|done|]. intros g' k2. apply HQ.
Qed.

(** Bits of a combination of statuses. *)
Lemma combined_bit b l : 0 ≤ b → ∀ ex, Z.testbit (foldl (λ x s, Z.lor x (status_of s.2)) ex l) b = true ↔
  Z.testbit ex b = true ∨ ∃ c : Z * Z, c ∈ l ∧ Z.testbit (status_of c.2) b = true.
Proof.
  intros Hb. induction l as [|c l IH]; intros ex; cbn [foldl]; [set_solver|]. rewrite IH, Z.lor_spec, orb_true_iff. set_solver.
Qed.

Lemma compare_bit st : Z.testbit (status_of st) 2 = true ↔ WIFEXITED st = true ∧ WEXITSTATUS st = E_COMPARE.
Proof.
  unfold status_of. destruct (WIFEXITED st).
  - case_bool_decide as H; [|split; [done|]; intros [_ H']; destruct H; rewrite H'; set_solver].
    rewrite !elem_of_cons, elem_of_nil in H. destruct H as [H|[H|[H|[H|[H|[]]]]]]; rewrite H; by vm_compute; naive_solver.
  - destruct (_ && _); by split; [|intros [? _]].
Qed.

(** C29: the parent waits for all its children, also when [wait] is interrupted, and its exit
    status combines theirs: it is zero exactly when no child has failed, and has the bit
    of E_COMPARE exactly when a child has found corruption. *)
Theorem children_reported fuel E g (k : Σ) : (length (ended k) < fuel)%nat →
  let l := omap id (ended k) in
  wp (wait_loop fuel (zlength l) None E_NORMAL) (λ r _ _,
    (r = 0 ↔ ∀ c, c ∈ l → status_of c.2 = 0) ∧
    (Z.testbit r 2 = true ↔ ∃ c, c ∈ l ∧ WIFEXITED c.2 = true ∧ WEXITSTATUS c.2 = E_COMPARE)) E g k.
Proof.
  intros Hfuel l. apply wp_wait_loop; [done|done|]. intros _ _. fold l. split.
  - split.
    + intros H c Hc. apply Z.bits_inj'. intros b Hb. rewrite Z.bits_0. destruct (Z.testbit (status_of c.2) b) eqn:Eb; [|done].
      assert (Z.testbit 0 b = true) as Ht by (rewrite <-H; apply combined_bit; [done|]; right; by exists c). by rewrite Z.bits_0 in Ht.
    + intros H. apply Z.bits_inj'. intros b Hb. rewrite Z.bits_0. apply not_true_iff_false. rewrite combined_bit by done.
      intros [He|(c & Hc & Ht)]; [by rewrite Z.bits_0 in He|]. by rewrite (H c Hc), Z.bits_0 in Ht.
  - rewrite combined_bit by done. split.
    + intros [He|(c & Hc & Ht)]; [done|]. exists c. split; [done|]. by apply compare_bit.
    + intros (c & Hc & Ht). right. exists c. split; [done|]. by apply compare_bit.
Qed.
End parent.

(** ** A run *)

Definition demo_request (t fl off n : Z) (c : ascii) (path : cstr) : cstr :=
  let r := put_int r_type t (put_int r_magic DOIO_MAGIC (replicate 184 NUL)) in
  let r := store r r_file (path ++ [NUL]) in
  if is_rw t then
    put_int read_req.r_oflags fl (put_int read_req.r_offset off (put_int read_req.r_nbytes n (put_char write_req.r_pattern c r)))
  else
    put_int listio_req.r_oflags fl (put_int listio_req.r_offset off (put_int listio_req.r_nbytes n
      (put_int listio_req.r_nstrides 1 (put_int listio_req.r_nent 1 (put_char listio_req.r_pattern c r))))).

Definition demo_path : cstr := str "/tmp/a".
Definition demo_requests : list cstr :=
  [demo_request WRITE 1 3 20 "A" demo_path; demo_request READ 0 0 40 "B" demo_path; demo_request MMAPW 2 10 8 "C" demo_path;
   demo_request WRITEV 1052673 30 5 "D" demo_path; demo_request FSYNC2 1 0 0 "E" demo_path]%char.

Definition demo_view (reqs : list cstr) : view :=
  View {[demo_path := replicate 48 "."%char]} {[0 := OFile (str "/dev/stdin") 0 0]} ∅ ∅ reqs None 17 (str "box" ++ replicate 13 NUL).
Definition demo (lose : option nat) (reqs : list cstr) : vsys := VSys (demo_view reqs) 1 1 lose [].
(** doio -v -w log *)
Definition demo_options : list (ascii * cstr) := [("v", []); ("w", str "log")]%char.
Definition demo_state : doio_t :=
  Doio (Options false false false false false false false true true false false false [] (str "doio") 0 0 1 (Some (str "log")) None false 0 0 0 0)
    [] 1 0 (Mem MEM_DATA 0 0 None 0 0 0 :: replicate 31 no_memalloc) 1 false false 0 0 [] [] 0 [] (-1) (-1).

Example demo_parsed : match parse_cmdline (str "/usr/bin/doio") demo_options [] start (demo None demo_requests) with
  | Ret (Val _, g, k) => g = demo_state
  | _ => False
  end.
Proof. vm_compute. reflexivity. Qed.

(** What is left: the exit status, the file and the messages. *)
Definition ending {A} (r : res (outcome A * doio_t * vsys)) : option (Z * option cstr * list note) :=
  match r with Ret (Exit n, _, k) => Some (n, v_files (y_view k) !! demo_path, y_said k) | _ => None end.

Example demo_run : ending (main 6 (str "/usr/bin/doio") demo_options [] start (demo None demo_requests)) =
  Some (E_NORMAL, Some (str "...A:17:boC:17:box:17:b.......D:17:............."), []).
Proof. vm_compute. reflexivity. Qed.

(** The third write is lost. *)
Example lossy_run : ending (main 6 (str "/usr/bin/doio") demo_options [] start (demo (Some 2%nat) demo_requests)) =
  Some (E_COMPARE, Some (str "...A:17:boC:17:box:17:b........................."),
    [Miscompare (Differs (corrupt_text ++ place_text 30 5 (str "D:17:") (str ".....")))]).
Proof. vm_compute. reflexivity. Qed.

Definition demo_tail : cstr := str ":17:box:doio*".

(** A test for requests to this file. *)
Definition demo_test (r : cstr) : bool :=
  bool_decide (length r = 184%nat ∧ get_int r r_magic = DOIO_MAGIC ∧ slice r r_file 7 = demo_path ++ [NUL] ∧
    Exists (λ x, x.1 = req_type r ∧ (req_oflags r = x.2 ∨ req_oflags r = Z.lor x.2 1052672)) access_modes ∧
    (0 ≤ req_offset r ∧ 0 ≤ req_nbytes r ∧ req_offset r + req_nbytes r ≤ 48) ∧
    (is_rw (req_type r) = true ∨ get_int r listio_req.r_nstrides = 1 ∧ get_int r listio_req.r_nent = 1)).

Lemma demo_test_ok r : demo_test r = true → request_ok demo_path 48 r.
Proof.
  intros (H1 & H2 & H3 & H4 & H5 & H6)%bool_decide_eq_true. split; try done.
  - split_and!; [repeat constructor|by vm_compute|exact H3].
  - apply Exists_exists in H4 as ([t' acc] & Hin & Ht & Hfl). exists acc. cbn in Ht. by rewrite <-Ht.
  - intros Hn. destruct H6 as [H6|H6]; [congruence|done].
Qed.

Lemma demo_fits faulty lose reqs : (faulty = false → lose = None) → fits faulty (demo lose reqs).
Proof.
  intros Hl. split; cbn; try done.
  - intros p d [<- <-]%lookup_singleton_Some. done.
  - intros fd o [<- <-]%lookup_singleton_Some. done.
Qed.

Lemma demo_begins : begins fd_limit (str "box") demo_tail demo_requests demo_state (demo_view demo_requests).
Proof.
  split; [done|]. split.
  - assert (Hacc : ∀ r, request_ok demo_path 48 r → acceptable (v_files (demo_view demo_requests)) r).
    { intros r Hr. exists demo_path, (replicate 48 "."%char). split_and!; [by vm_compute|exact Hr|by vm_compute|by vm_compute]. }
    repeat (constructor; [apply Hacc, demo_test_ok; by vm_compute|]). constructor.
  - split.
    + by vm_compute; lia.
    + split; [by vm_compute| |].
      * intros [|i] M Hi HM; [injection HM as <-; split; [done|]; by intros []|]. cbn in Hi. lia.
      * intros i j M N Hi Hj. cbn in Hi, Hj. lia.
    + by split_and!; vm_compute.
    + by split_and!.
    + by vm_compute.
    + exists "-"%char. by vm_compute.
    + intros _. split_and!; [by vm_compute..|by eexists|by vm_compute].
Qed.

(** *** The properties on it *)

Lemma requests_carried_out_witness :
  wp (Σ := vsys) (doio (A := ()) 6) (λ _ _ _, False) (λ n _ k', n = E_NORMAL ∧ v_in (y_view k') = [] ∧
    v_files (y_view k') = foldl (replay demo_tail) (v_files (demo_view demo_requests)) demo_requests) demo_state (demo None demo_requests).
Proof.
  exact (requests_carried_out fd_limit (str "box") demo_tail demo_requests (λ _ _ _, False) demo_state (demo None demo_requests)
    (demo_fits false None demo_requests (λ _, eq_refl)) demo_begins).
Defined.

Lemma demo_short : Forall (λ r, reclen r < 128) (omap (record_of (str "box") demo_tail 17) demo_requests).
Proof. vm_compute omap. by repeat constructor. Qed.

Lemma writes_logged_witness :
  let recs := omap (record_of (str "box") demo_tail 17) demo_requests in
  length recs = 3%nat ∧
  wp (Σ := vsys) (doio (A := ()) 6) (λ _ _ _, False) (λ n _ k', n = E_NORMAL ∧ ∃ file, v_log (y_view k') = Some file ∧
    wlog_scan_backward (λ r l, (l ++ [r], 1)) 0 true true file (replicate (Z.to_nat bufsize) 0) (replicate 450 0) [] =
    Ret (Some (visit (λ r l, (l ++ [r], 1)) [] (rev recs)))) demo_state (demo None demo_requests).
Proof.
  split; [by vm_compute|].
  assert (Hfunc : ∀ (r : wlog_rec) (l : list wlog_rec), (l ++ [r], 1).2 ≠ WLOG_STOP_SCAN) by done.
  assert (Hbuf : length (replicate (Z.to_nat bufsize) 0) = Z.to_nat bufsize) by apply length_replicate.
  exact (writes_logged fd_limit (str "box") demo_tail demo_requests (λ _ _ _, False) demo_state (demo None demo_requests)
    (λ r l, (l ++ [r], 1)) (replicate (Z.to_nat bufsize) 0) (replicate 450 0) [] (demo_fits false None demo_requests (λ _, eq_refl)) demo_begins
    eq_refl eq_refl demo_short Hfunc Hbuf eq_refl).
Defined.

Lemma corruption_detected_witness :
  let v := demo_view demo_requests in
  wp (Σ := vsys) (doio (A := ()) 6) (λ _ _ _, False) (λ n _ k',
    n = E_NORMAL ∧ ran true (opts demo_state) demo_tail (str "box") (v_pid v) demo_requests (v_files v) (open_log_of (opts demo_state) v) (v_files (y_view k')) (v_log (y_view k')) ∧
      (∀ pre req path, demo_requests = pre ++ [req] → writes (req_type req) = true → names req path →
         ∃ data, v_files (y_view k') !! path = Some data ∧ slice data (req_offset req) (req_nbytes req) = payload demo_tail req) ∨
    n = E_COMPARE ∧ stopped true (opts demo_state) demo_tail (str "box") (v_pid v) demo_requests (v_files v) (open_log_of (opts demo_state) v) n (y_view k'))
    demo_state (demo (Some 2%nat) demo_requests).
Proof.
  assert (Hk : valid (demo (Some 2%nat) demo_requests)) by (by apply (demo_fits true)).
  pose proof (corruption_detected (A := ()) true fd_limit (str "box") demo_tail demo_requests (λ _ _ _, False) demo_state (demo (Some 2%nat) demo_requests)
    Hk demo_begins eq_refl) as H.
  cbv zeta in *. exact H.
Defined.

Lemma demo_room : (size ({[0%Z]} : gset Z) + 2 ≤ fd_limit)%nat.
Proof. by vm_compute; lia. Qed.
Lemma demo_there : is_Some (v_files (demo_view []) !! demo_path).
Proof. by vm_compute; eexists. Qed.
Lemma demo_cache : cache_ok true {[0]} fd_limit (demo_view []) 1 [] [].
Proof.
  split; try done.
  - intros fd [o Ho]. cbn in Ho. apply lookup_singleton_Some in Ho as [<- _]. left. by apply elem_of_singleton.
  - intros fd ->%elem_of_singleton. by vm_compute; eexists.
  - by vm_compute; lia.
Qed.

Lemma descriptor_found_witness :
  wp (Σ := vsys) (alloc_fd (Some demo_path) 1) (λ fd g' k', (∃ pos, v_fds (y_view k') !! fd = Some (OFile demo_path 1 pos)) ∧
    (∃ i, cache_ok true {[0]} fd_limit (y_view k') 1 [i] (cache g')) ∧ only_fds (demo_view []) (y_view k')) (λ _ _ _, False)
    demo_state (demo None []).
Proof.
  exact (descriptor_found false fd_limit (opts demo_state) {[0]} demo_path 1 (λ _ _ _, False) demo_state (demo None [])
    demo_room (demo_fits false None [] (λ _, eq_refl)) demo_cache eq_refl demo_there eq_refl eq_refl).
Defined.

Lemma miscompare_located_witness :
  ∃ r, doio_pat_check (str "abXa") 100 4 (str "abc") 0 = Ret r ∧
    match r with
    | None => str "abXa" = pat_bytes (str "abc") 4
    | Some msg => str "abXa" ≠ pat_bytes (str "abc") 4 ∧ ∃ i e a, points_at (str "abXa") 0 (str "abc") 0 (i, e, a) ∧
        msg = corrupt_text ++ place_text (100 + i) (zlength a) e a
    end.
Proof. apply (miscompare_located (str "abXa") 100 4 (str "abc")); by vm_compute. Defined.

(** A parent with three children, one of which has found corruption; one [wait] is interrupted. *)
#[global] Instance family_system : System call (list (option (Z * Z))) := λ R c k,
  match c in call R return R * list (option (Z * Z)) with
  | Wait => match k with Some r :: k' => (inr r, k') | None :: k' => (inl EINTR, k') | [] => (inl 10, []) end
  | c => ((vsys_reply fd_limit c (demo None [])).1, k)
  end.
#[global] Instance family_parent : Parent (list (option (Z * Z))).
Proof. refine {| ended := λ k, k |}; [by intros k [r|] rest ->|done|done]. Defined.

Lemma children_reported_witness :
  let l := [(101, 0); (102, 1024); (103, 2)] in
  wp (Σ := list (option (Z * Z))) (wait_loop 5 3 None E_NORMAL) (λ r _ _,
    (r = 0 ↔ ∀ c, c ∈ l → status_of c.2 = 0) ∧
    (Z.testbit r 2 = true ↔ ∃ c, c ∈ l ∧ WIFEXITED c.2 = true ∧ WEXITSTATUS c.2 = E_COMPARE)) (λ _ _ _, False) start
    [Some (101, 0); None; Some (102, 1024); Some (103, 2)].
Proof.
  exact (children_reported 5 (λ _ _ _, False) start [Some (101, 0); None; Some (102, 1024); Some (103, 2)] (Nat.lt_succ_diag_r 4)).
Defined.

(** ** Defects *)

(** -r: the first request finds no cache to release, and open(NULL) ends the run. *)
Example release_at_once : (λ x, x.1.1) <$> ending (main 6 (str "doio") [("r", str "1")]%char [] start (demo None demo_requests)) = Some E_SETUP.
Proof. vm_compute. reflexivity. Qed.

(** -N with 38 characters or more writes behind TagName. *)
Example tag_overflows : parse_cmdline (str "doio") [("N", replicate 38 "x")]%char [] start (demo None []) = Undef.
Proof. vm_compute. reflexivity. Qed.

(** -w on a host whose name has 10 characters or more writes behind w_host. *)
Example host_overflows :
  main 6 (str "doio") demo_options [] start
    (VSys (View (v_files (demo_view [])) (v_fds (demo_view [])) ∅ ∅ demo_requests None 17 (str "verylonghost" ++ replicate 4 NUL)) 1 1 None []) = Undef.
Proof. vm_compute. reflexivity. Qed.

(** A request for READA is done without reading anything. *)
Example reada_does_nothing : ending (main 2 (str "doio") [] [] start (demo None [demo_request READA 0 0 4000000 "A" demo_path])%char) =
  Some (E_NORMAL, Some (replicate 48 "."%char), []).
Proof. vm_compute. reflexivity. Qed.

(** -M mmap without flags reads a pointer that was never set. *)
Example memory_flags_indeterminate : parse_cmdline (str "doio") [("M", str "mmap")]%char [] start (demo None []) = Undef.
Proof. vm_compute. reflexivity. Qed.

(** A name of 128 characters, which iogen allows, does not fit into a request. *)
Example name_does_not_fit : put_file (replicate 128 "x"%char) (replicate 184 NUL) = Undef.
Proof. vm_compute. reflexivity. Qed.
