(* ===== verification/IogenDoio.v ===== *)
(** * iogen and doio connected by a pipe

    The requests that iogen writes are such that doio carries them out. *)

From S2P Require Import Prelude CInt CMem CString WriteLog CProg IoReq Iogen IogenProof OpenFlags Doio DoioMain DoioPosix DoioProof DoioRun.
Local Open Scope Z_scope.

Section pipe.
Context {Σ1 : Type} `{!System Iogen.call Σ1} `{!Recorder Σ1}.
Context (limit : nat) {Σ2 : Type} `{!System call Σ2} `{!Posix false limit Σ2}.

(** Both programs see the same files. *)
Definition same_files (g : iogen) (v : view) : Prop :=
  ∀ path flen, (path, flen) ∈ files_of g → ∃ data, v_files v !! path = Some data ∧ zlength data = flen.

Lemma good_acceptable gi v req : gen_ok gi → same_files gi v → good (files_of gi) req → acceptable (v_files v) req.
Proof.
  intros Hg Hs (path & flen & Hin & Hreq). destruct (Hs path flen Hin) as (data & Hd & <-). exists path, data. split; [done|]. split; [done|].
  apply list_elem_of_fmap in Hin as (f & [= -> Hlen] & Hf). destruct Hg as [_ _ (_ & Hfiles & _) _ [_ Hmax]].
  rewrite Forall_forall in Hfiles. specialize (Hfiles f Hf). rewrite Hlen. destruct Hfiles as [_ _ [_ Hl] _]. lia.
Qed.

(** C12: iogen -i n piped into doio: iogen writes n requests and ends; doio, reading them, carries
    out every one of them and exits with E_NORMAL, the files holding what the writes among
    them make of them. *)
Theorem pipe_carried_out {A} n outfd start_time now gi ki host ptail (Q : A → doio_t → Σ2 → Prop) g v :
  gen_ok gi → Time_Mode gi = false → Iterations gi = Z.of_nat n →
  same_files gi v → set_up limit host ptail (Z.of_nat n) g v →
  wp (main_loop (S n) outfd start_time now false) (λ _ _ ki', ∃ reqs, written ki' = written ki ++ reqs ∧ length reqs = n ∧
    ∀ k, valid k → view_of k = set_in reqs v →
      wp (doio (S n)) Q (λ st _ k', st = E_NORMAL ∧ v_in (view_of k') = [] ∧ v_files (view_of k') = foldl (replay ptail) (v_files v) reqs) g k)
    (λ _ _ _, False) gi ki.
Proof.
  intros Hg Ht Hn Hs Hset. eapply pwp_mono; [by apply wp_requests| |done].
  intros [] g' ki' (reqs & Hw & Hlen & Hgood & _). exists reqs. split_and!; [done|done|]. intros k Hk Hv.
  assert (Hb : begins limit host ptail reqs g (view_of k)).
  { rewrite Hv. split; [done|]. split; [|rewrite Hlen; by destruct Hset].
    eapply Forall_impl; [done|]. intros r Hr. by eapply good_acceptable. }
  pose proof (wp_doio_correct limit host ptail reqs Q g k Hk Hb) as Hdone. by rewrite Hv, Hlen in Hdone.
Qed.
End pipe.

(** ** iogen's run, carried out *)

Definition pipe_view : view :=
  View {[str "/tmp/a" := replicate 4096 "."%char]} {[0 := OFile (str "/dev/stdin") 0 0]} ∅ ∅ [] None 17 (str "box" ++ replicate 13 NUL).

Abbreviation seen k := (view_of (faulty := false) (limit := fd_limit) k).

Lemma pipe_carried_out_witness :
  wp (Σ := sim) (main_loop 4 1 0 0 false) (λ _ _ ki', ∃ reqs, written ki' = written sim0 ++ reqs ∧ length reqs = 3%nat ∧
    ∀ k : vsys, valid (faulty := false) (limit := fd_limit) k → seen k = set_in reqs pipe_view →
      wp (doio (A := ()) 4) (λ _ _ _, False) (λ st _ k', st = E_NORMAL ∧ v_in (seen k') = [] ∧
        v_files (seen k') = foldl (replay demo_tail) (v_files pipe_view) reqs) demo_state k)
    (λ _ _ _, False) ready sim0.
Proof.
  assert (Hsame : same_files ready pipe_view).
  { intros path flen Hin. apply list_elem_of_singleton in Hin as [= -> ->]. exists (replicate 4096 "."%char). by split; [vm_compute|]. }
  assert (Hset : set_up fd_limit (str "box") demo_tail 3 demo_state pipe_view).
  { destruct demo_begins as (_ & _ & [H1 H2 H3 H4 H5 H6 H7]). split; try done. }
  exact (pipe_carried_out (A := ()) (Σ2 := vsys) fd_limit 3 1 0 0 ready sim0 (str "box") demo_tail (λ _ _ _, False) demo_state pipe_view
    ready_ok eq_refl eq_refl Hsame Hset).
Defined.

(** Both programs run one after the other. *)
Example pipe_run : match Iogen.main 5 NUL IogenProof.options [str "/tmp/a"] Iogen.start sim0 with
  | Ret (Exit 0, _, k) =>
      match main 4 (str "/usr/bin/doio") demo_options [] start (VSys (set_in (sim_out k) pipe_view) 1 1 None []) with
      | Ret (Exit n, _, k') =>
          (n, y_said k', (λ d, slice d 1415 30) <$> v_files (y_view k') !! str "/tmp/a") =
          (E_NORMAL, [], Some (str "......P:17:box:doio*P:17:b...."))
      | _ => False
      end
  | _ => False
  end.
Proof. vm_compute. reflexivity. Qed.
