(* ===== verification/GetPath.v ===== *)
(** * Looking for a program in $PATH (lib/get_path.c)

    tst_get_path builds the name of the program in each directory of $PATH in the buffer of
    the caller and takes the first one that is a regular file and can be read.  Shown: it
    finds exactly the first such name that fits into the buffer. *)

From S2P Require Import Prelude CInt CMem CString.
Local Open Scope Z_scope.

(** The file system: whether a file can be read, and its mode. *)
Record file_system : Type := FileSystem { access_read : cstr → bool; stat_mode : cstr → option Z }.

Section get_path.
Context (fs : file_system).

Definition S_ISREG (mode : Z) : bool := Z.land mode 61440 =? 32768.

Definition file_exist (path : cstr) : bool :=
  access_read fs path && match stat_mode fs path with Some mode => S_ISREG mode | None => false end.

(** [snprintf(buf + off, n, "%s", t)] *)
Definition put_text (buf : cstr) (off n : Z) (t : cstr) : res cstr :=
  if n =? 0 then Ret buf else mem_write buf off (take (Z.to_nat (n - 1)) t ++ [NUL]).
Definition strlen_of (buf : cstr) : res Z := if mem NUL buf then Ret (zlength (as_string buf)) else Undef.

(** One directory: the text up to a colon; none when it is the last one. *)
Definition next_dir (start : cstr) : cstr * option cstr :=
  let '(dir, rest) := span (λ c, negb (c =c ":"%char)) start in
  (dir, match rest with [] => None | _ :: rest => Some rest end).

(** The result for one directory, and the buffer. *)
Definition try_dir (prog_name buf start : cstr) : res (bool * cstr) :=
  let buf_len := zlength buf in
  let '(dir, end_) := next_dir start in
  buf ← put_text buf 0 (match end_ with Some _ => Z.min buf_len (zlength dir + 1) | None => buf_len end) start;
  size ← strlen_of buf;
  x ← (if size =? 0 then buf ← put_text buf 0 buf_len (str "."); size ← strlen_of buf; Ret (buf, size) else Ret (buf, size));
  let '(buf, size) := (x : cstr * Z) in
  c ← mem_get buf (size - 1);
  let t := (if c =c "/"%char then [] else str "/") ++ prog_name in
  buf ← put_text buf size (buf_len - size) t;
  Ret ((zlength t <? buf_len - size) && file_exist (as_string buf), buf).

Fixpoint path_loop (fuel : nat) (prog_name buf start : cstr) : res (Z * cstr) :=
  match fuel with
  | O => NoFuel
  | S fuel =>
      r ← try_dir prog_name buf start;
      let '(found, buf) := (r : bool * cstr) in
      if found then Ret (0, buf)
      else match (next_dir start).2 with None => Ret (-1, buf) | Some start => path_loop fuel prog_name buf start end
  end.

Definition tst_get_path (path : option cstr) (prog_name buf : cstr) : res (Z * cstr) :=
  match path with
  | None => Ret (-1, buf)
  | Some path => path_loop (S (length path)) prog_name buf path
  end.

(** ** What it looks for *)

Fixpoint dirs_of (fuel : nat) (path : cstr) : list cstr :=
  match fuel with
  | O => []
  | S fuel => let '(d, r) := next_dir path in d :: match r with None => [] | Some r => dirs_of fuel r end
  end.

(** The name of the program in a directory; an empty one is the current one. *)
Definition or_dot (dir : cstr) : cstr := match dir with [] => str "." | _ => dir end.
Definition slash_name (prog_name d : cstr) : cstr := (if bool_decide (last d = Some "/"%char) then [] else str "/") ++ prog_name.
Definition in_dir (prog_name dir : cstr) : cstr := or_dot dir ++ slash_name prog_name (or_dot dir).

Definition wanted_path (prog_name : cstr) (n : Z) (dir : cstr) : bool :=
  (zlength (in_dir prog_name dir) <? n) && file_exist (in_dir prog_name dir).

Lemma put_text_ok pre r0 n t : 0 < n ≤ zlength r0 →
  put_text (pre ++ r0) (zlength pre) n t =
  Ret (pre ++ take (Z.to_nat (n - 1)) t ++ NUL :: drop (S (length (take (Z.to_nat (n - 1)) t))) r0).
Proof.
  intros Hn. unfold put_text. rewrite (proj2 (Z.eqb_neq n 0)) by lia. pose proof (length_take t (Z.to_nat (n - 1))).
  rewrite mem_write_ok; [|lia|rewrite !length_app; cbn [length]; lia]. f_equal. unfold store. rewrite Nat2Z.id, take_app_length. f_equal.
  rewrite drop_app_ge by lia. rewrite <-app_assoc. cbn [app]. do 3 f_equal. rewrite length_app. cbn [length]. lia.
Qed.

Lemma strlen_of_ok t r : nonul t → strlen_of (t ++ NUL :: r) = Ret (zlength t).
Proof.
  intros Ht. unfold strlen_of, mem. rewrite existsb_app. cbn. rewrite orb_true_r. unfold as_string.
  rewrite span_app; [done|eapply Forall_impl; [apply Ht|by intros x ->]|done].
Qed.

Lemma as_string_text t r : nonul t → as_string (t ++ NUL :: r) = t.
Proof. intros Ht. unfold as_string. rewrite span_app; [done|eapply Forall_impl; [apply Ht|by intros x ->]|done]. Qed.

Lemma next_dir_spec start : ∃ rest, start = (next_dir start).1 ++ rest ∧
  match (next_dir start).2 with None => rest = [] | Some r => rest = ":"%char :: r end.
Proof.
  unfold next_dir. pose proof (span_eq (λ c, negb (c =c ":"%char)) start) as H1. pose proof (span_stop (λ c, negb (c =c ":"%char)) start) as H2.
  destruct (span _ start) as [d r]. cbn in *. exists r. split; [done|]. destruct r as [|c r]; [done|].
  destruct (eqc_spec c ":"%char) as [->|]; [done|]. by apply negb_false_iff in H2.
Qed.

(** The directory is in the buffer, as far as it fits. *)
Lemma put_dir buf start : 2 ≤ zlength buf →
  let dir := (next_dir start).1 in
  ∃ r, put_text buf 0 (match (next_dir start).2 with Some _ => Z.min (zlength buf) (zlength dir + 1) | None => zlength buf end) start =
    Ret (take (Z.to_nat (zlength buf - 1)) dir ++ NUL :: r) ∧ length (take (Z.to_nat (zlength buf - 1)) dir ++ NUL :: r) = length buf.
Proof.
  intros Hb dir. destruct (next_dir_spec start) as (rest & Hs & Hr). fold dir in Hs. clearbody dir.
  set (n := match (next_dir start).2 with Some _ => _ | None => _ end).
  assert (Hn : 0 < n ≤ zlength buf) by (subst n; destruct (next_dir start).2; lia).
  assert (Ht : take (Z.to_nat (n - 1)) start = take (Z.to_nat (zlength buf - 1)) dir).
  { subst n. destruct (next_dir start).2; rewrite Hs; subst rest.
    - destruct (decide (zlength buf ≤ zlength dir + 1)).
      + rewrite take_app_le by lia. f_equal. lia.
      + rewrite Z.min_r, Z.add_simpl_r, Nat2Z.id, take_app_length by lia. by rewrite take_ge by lia.
    - by rewrite app_nil_r. }
  pose proof (put_text_ok [] buf n start Hn) as E. cbn [app length] in E. rewrite Ht in E. eexists. split; [exact E|].
  pose proof (length_take dir (Z.to_nat (zlength buf - 1))). rewrite length_app. cbn [length]. rewrite length_drop. lia.
Qed.

Lemma last_get (d : cstr) r c : last d = Some c → mem_get (d ++ r) (zlength d - 1) = Ret c.
Proof.
  intros Hl. rewrite last_lookup in Hl. pose proof (lookup_lt_Some _ _ _ Hl). apply mem_get_lookup; [lia|].
  rewrite lookup_app_l by lia. by replace (Z.to_nat (zlength d - 1)) with (pred (length d)) by lia.
Qed.

(** An empty directory becomes a dot. *)
Lemma put_dot dir r (n : nat) : (2 ≤ n)%nat → length (take (n - 1) dir ++ NUL :: r) = n →
  let d1 := take (n - 1) (or_dot dir) in
  ∃ r1, (if zlength (take (n - 1) dir) =? 0 then buf ← put_text (take (n - 1) dir ++ NUL :: r) 0 (Z.of_nat n) (str "."); size ← strlen_of buf; Ret (buf, size)
    else Ret (take (n - 1) dir ++ NUL :: r, zlength (take (n - 1) dir))) = Ret (d1 ++ NUL :: r1, zlength d1) ∧ length (d1 ++ NUL :: r1) = n.
Proof.
  intros Hn Hlen d1. subst d1. destruct dir as [|c dir]; [|exists r; cbn [or_dot]; split; [|done]].
  - rewrite take_nil in *. cbn [app length] in *. change (Z.of_nat 0 =? 0) with true. cbv iota.
    pose proof (put_text_ok [] (NUL :: r) (Z.of_nat n) (str ".")) as E. change (zlength []) with 0 in E. cbn [app] in E.
    rewrite E by (cbn [length]; lia). rewrite res_bind_ret.
    replace (take (Z.to_nat (Z.of_nat n - 1)) (str ".")) with (str ".") by (rewrite take_ge; [done|cbn; lia]).
    replace (take (n - 1) (or_dot [])) with (str ".") by (rewrite take_ge; [done|cbn; lia]).
    rewrite strlen_of_ok by (repeat constructor). eexists. split; [done|]. rewrite length_app. cbn [length]. rewrite length_drop. change (length (str ".")) with 1%nat. cbn [length]. lia.
  - rewrite (proj2 (Z.eqb_neq _ _)); [done|]. rewrite length_take. cbn [length]. lia.
Qed.

Lemma slash_name_nonul prog_name d : nonul prog_name → nonul (slash_name prog_name d).
Proof. intros. unfold slash_name. case_bool_decide; [done|]. by apply nonul_app; [repeat constructor|]. Qed.

Lemma try_dir_ok prog_name buf start : 2 ≤ zlength buf → nonul start → nonul prog_name → prog_name ≠ [] →
  let dir := (next_dir start).1 in
  ∃ buf', try_dir prog_name buf start = Ret (wanted_path prog_name (zlength buf) dir, buf') ∧ length buf' = length buf ∧
    (wanted_path prog_name (zlength buf) dir = true → as_string buf' = in_dir prog_name dir).
Proof.
  intros Hb Hs Hp Hne dir. destruct (put_dir buf start Hb) as (r & Hput & Hlen). fold dir in Hput, Hlen.
  assert (Hd : nonul (or_dot dir)).
  { destruct (next_dir_spec start) as (rest & Hst & _). rewrite Hst in Hs. apply Forall_app in Hs as [Hs _]. fold dir in Hs.
    destruct dir; [by repeat constructor|done]. }
  unfold try_dir. rewrite (surjective_pairing (next_dir start)). fold dir. rewrite Hput, res_bind_ret.
  replace (Z.to_nat (zlength buf - 1)) with (length buf - 1)%nat in * by lia.
  rewrite strlen_of_ok, res_bind_ret by (destruct dir; [by rewrite take_nil; constructor|by apply nonul_take]).
  destruct (put_dot dir r (length buf) ltac:(lia) Hlen) as (r1 & -> & Hlen1). rewrite res_bind_ret.
  set (d1 := take (length buf - 1) (or_dot dir)) in *. pose proof (length_take (or_dot dir) (length buf - 1)) as Hl1. fold d1 in Hl1.
  assert (0 < length (or_dot dir))%nat by (by destruct dir; cbn; lia).
  destruct (last d1) as [c|] eqn:Hlast; [|apply last_None in Hlast; rewrite Hlast in Hl1; cbn in Hl1; lia].
  rewrite (last_get d1 (NUL :: r1) c Hlast), res_bind_ret.
  assert (Ht : (if c =c "/"%char then [] else str "/") = if bool_decide (last d1 = Some "/"%char) then [] else str "/").
  { rewrite Hlast. destruct (eqc_spec c "/"%char) as [->|Hc]; [by rewrite bool_decide_true|]. rewrite bool_decide_false; [done|congruence]. }
  rewrite Ht. change ((if bool_decide (last d1 = Some "/"%char) then [] else str "/") ++ prog_name) with (slash_name prog_name d1).
  rewrite put_text_ok by (rewrite length_app in Hlen1; cbn [length] in *; lia). rewrite res_bind_ret.
  set (t := slash_name prog_name d1). remember (Z.to_nat (zlength buf - zlength d1 - 1)) as m eqn:Hm.
  assert (Hlt : (0 < length t)%nat) by (subst t; unfold slash_name; destruct prog_name; [done|rewrite length_app; cbn [length]; lia]).
  eexists. split; [apply (f_equal (λ b, Ret (b, _)))|split].
  2: { rewrite length_app in Hlen1. pose proof (length_take t m). rewrite !length_app. cbn [length] in *. rewrite length_drop. cbn [length]. lia. }
  - unfold wanted_path, in_dir. destruct (decide (length (or_dot dir) ≤ length buf - 1)%nat) as [Hfit|Hfit].
    + assert (E : d1 = or_dot dir) by (apply take_ge; lia). subst t. rewrite E in *. rewrite length_app.
      destruct (Z.ltb_spec (zlength (slash_name prog_name (or_dot dir))) (zlength buf - zlength (or_dot dir))) as [Hl|Hl].
      * rewrite (proj2 (Z.ltb_lt _ _)) by lia. cbn [andb]. rewrite (take_ge _ m) by lia. rewrite app_assoc.
        rewrite as_string_text; [done|]. by apply nonul_app; [|apply slash_name_nonul].
      * by rewrite (proj2 (Z.ltb_ge _ _)) by lia.
    + rewrite (proj2 (Z.ltb_ge (zlength t) _)) by lia. rewrite length_app, (proj2 (Z.ltb_ge _ _)) by lia. done.
  - intros [Hl _]%andb_true_iff. apply Z.ltb_lt in Hl. unfold in_dir in Hl |- *. rewrite length_app in Hl.
    assert (E : d1 = or_dot dir) by (apply take_ge; lia). subst t. rewrite E in *. rewrite (take_ge _ m) by lia. rewrite app_assoc.
    apply as_string_text. by apply nonul_app; [|apply slash_name_nonul].
Qed.

(** tst_get_path takes the first directory of $PATH (an empty one being the current
    one) in which the name of the program fits into the buffer and is a regular file that
    can be read: it returns 0 with that name in the buffer, and -1 when there is none.  It
    never returns a name that was cut off, and stays inside of the buffer. *)
Theorem path_found path prog_name buf : 2 ≤ zlength buf → nonul path → nonul prog_name → prog_name ≠ [] →
  ∃ r buf', tst_get_path (Some path) prog_name buf = Ret (r, buf') ∧ length buf' = length buf ∧
    match List.find (wanted_path prog_name (zlength buf)) (dirs_of (S (length path)) path) with
    | Some dir => r = 0 ∧ as_string buf' = in_dir prog_name dir
    | None => r = -1
    end.
Proof.
  intros Hb Hpath Hp Hne. unfold tst_get_path. generalize (Nat.lt_succ_diag_r (length path)). generalize (S (length path)) as fuel.
  intros fuel. revert buf path Hb Hpath. induction fuel as [|fuel IH]; intros buf path Hb Hpath Hfuel; [lia|]. cbn [path_loop dirs_of].
  destruct (try_dir_ok prog_name buf path Hb Hpath Hp Hne) as (buf' & -> & Hlen & Hbuf). rewrite res_bind_ret.
  destruct (next_dir_spec path) as (rest & Hrest & Hr). destruct (next_dir path) as [dir next]. cbn [fst snd] in *. cbn [List.find].
  destruct (wanted_path prog_name (zlength buf) dir) eqn:Hw; [exists 0, buf'; split_and!; [done|done|done|by apply Hbuf]|].
  destruct next as [next|]; [|by exists (-1), buf']. subst rest. rewrite <-Hlen in Hb |- *.
  destruct (IH buf' next Hb) as (r & buf2 & E & Hl2 & Hres); [rewrite Hrest in Hpath; apply Forall_app in Hpath as [_ Hpath]; by inversion Hpath| |].
  { rewrite Hrest, length_app in Hfuel. cbn [length] in Hfuel. lia. }
  exists r, buf2. split_and!; [exact E|by rewrite Hl2|done].
Qed.
End get_path.

(** ** Examples *)

Definition demo_fs : file_system :=
  FileSystem (λ p, bool_decide (p ∈ [str "/bin/ls"; str "./ls"])) (λ p, if bool_decide (p ∈ [str "/bin/ls"; str "./ls"]) then Some 33261 else None).

Lemma path_found_witness : ∃ r buf', tst_get_path demo_fs (Some (str "/usr/local/bin::/bin/")) (str "ls") (replicate 10 "?"%char) = Ret (r, buf') ∧
  length buf' = 10%nat ∧
  match List.find (wanted_path demo_fs (str "ls") 10) (dirs_of 22 (str "/usr/local/bin::/bin/")) with
  | Some dir => r = 0 ∧ as_string buf' = in_dir (str "ls") dir
  | None => r = -1
  end.
Proof.
  apply (path_found demo_fs (str "/usr/local/bin::/bin/") (str "ls") (replicate 10 "?"%char)); [by vm_compute|by repeat constructor..|done].
Defined.

(** An empty directory and a buffer of one byte: [buf\[size - 1\]] is before the buffer. *)
Example tiny_buffer : tst_get_path demo_fs (Some (str ":/bin")) (str "ls") [NUL] = Undef.
Proof. vm_compute. reflexivity. Qed.
