(* ===== verification/Forker.v ===== *)
(** * Copies of a process (lib/forker.c)

    forker makes ncopies - 1 copies of the process that calls it and returns in each of
    them.  fork gives each process its own globals, and at any time only one process goes
    on forking, so that a call is the list of the processes in which it returns, with what
    they then have.  Shown: which processes these are, what forker returns in each of them,
    and which of them knows all the pids. *)

From S2P Require Import Prelude CInt CMem.
From stdpp Require Import list_numbers.
Local Open Scope Z_scope.

Definition FORKER_MAX_PIDS : Z := 4098.

Record forker_vars : Type := ForkerVars { Forker_pids : list Z; Forker_npids : Z }.

(** A process in which forker returned: its pid, the value, and its globals. *)
Record copy : Type := Copy { c_pid : Z; c_ret : Z; c_vars : forker_vars }.

(** What a process does at the end of background. *)
Inductive background_end : Type := Returns (pid : Z) | Exits (pid status : Z).

(** [fork] is the answer to the fork of background: the pid of the child, or errno. *)
Definition background (self : Z) (fork : Z + Z) : list background_end :=
  match fork with
  | inr errno => [Exits self errno]
  | inl pid => [Returns pid; Exits self 0]
  end.

Section forker.
(** The answer to the fork of turn [cnt]: the pid of the child, or none. *)
Context (fork : Z → option Z).

Definition count_pid (g : forker_vars) : res forker_vars :=
  n ← ck32 (Forker_npids g + 1); Ret (ForkerVars (Forker_pids g) n).

(** [if (Forker_npids < FORKER_MAX_PIDS) Forker_pids[i] = pid;] *)
Definition put_pid (g : forker_vars) (i pid : Z) : res forker_vars :=
  if Forker_npids g <? FORKER_MAX_PIDS
  then pids ← mem_write (Forker_pids g) i [pid]; Ret (ForkerVars pids (Forker_npids g))
  else Ret g.

(** The processes in which the loop returns, when [self] is the one that forks next; the
    child stores getpid(), the parent what fork returned. *)
Fixpoint forker_loop (fuel : nat) (cnt ncopies mode self : Z) (g : forker_vars) : res (list copy) :=
  match fuel with
  | O => NoFuel
  | S fuel =>
      if cnt <? ncopies then
        match fork cnt with
        | None => Ret [Copy self (if mode =? 1 then 0 else cnt - 1) g]
        | Some pid =>
            g ← count_pid g;
            child ← put_pid g (Forker_npids g - 1) pid;
            parent ← put_pid g (Forker_npids g - 1) pid;
            if mode =? 1
            then others ← forker_loop fuel (cnt + 1) ncopies mode pid child; Ret (Copy self (cnt - 1) parent :: others)
            else others ← forker_loop fuel (cnt + 1) ncopies mode self parent; Ret (Copy pid cnt child :: others)
        end
      else g ← put_pid g (Forker_npids g) 0; Ret [Copy self (cnt - 1) g]
  end.

Definition forker (ncopies mode self : Z) (g : forker_vars) : res (list copy) :=
  pids ← mem_write (Forker_pids g) 0 [0];
  forker_loop (S (Z.to_nat ncopies)) 1 ncopies mode self (ForkerVars pids (Forker_npids g)).

(** ** What the globals hold *)

Definition room : nat := Z.to_nat (FORKER_MAX_PIDS - 1).

(** The pids [h] were counted, and stored as far as there is space. *)
Definition knows (g : forker_vars) (h : list Z) : Prop :=
  zlength (Forker_pids g) = FORKER_MAX_PIDS ∧ Forker_npids g = zlength h ∧ starts (Forker_pids g) (take room h).

Lemma knows_put g h pid : knows g h → zlength h + 1 ≤ INT_MAX →
  ∃ g0 g', count_pid g = Ret g0 ∧ put_pid g0 (Forker_npids g0 - 1) pid = Ret g' ∧ knows g' (h ++ [pid]).
Proof.
  intros (Hl & Hn & Hs) Hm. exists (ForkerVars (Forker_pids g) (zlength h + 1)). unfold count_pid. rewrite Hn, ck32_ok by (unfold INT_MIN, INT_MAX in *; lia).
  unfold put_pid, knows. cbn [Forker_npids Forker_pids]. rewrite length_app. cbn [length].
  destruct (Z.ltb_spec (zlength h + 1) FORKER_MAX_PIDS) as [Hr|Hr]; unfold room, FORKER_MAX_PIDS in *.
  - rewrite take_ge in Hs by lia. rewrite (take_ge (h ++ _)) by (rewrite length_app; cbn [length]; lia).
    destruct (starts_write (Forker_pids g) h [pid] Hs) as (m & Hw & Hm' & Hlm); [cbn [length]; lia|].
    exists (ForkerVars m (zlength h + 1)). rewrite Z.add_simpl_r, Hw, res_bind_ret. split; [done|]. split; [done|]. cbn. split_and!; [lia|lia|done].
  - eexists. split; [done|]. split; [done|]. cbn [Forker_npids Forker_pids]. rewrite take_app_le by lia. split_and!; [lia|lia|done].
Qed.

(** The zero behind the last one. *)
Lemma knows_end g h : knows g h → ∃ g', put_pid g (Forker_npids g) 0 = Ret g' ∧ knows g' h.
Proof.
  intros (Hl & Hn & Hs). unfold put_pid. rewrite Hn. destruct (Z.ltb_spec (zlength h) FORKER_MAX_PIDS) as [Hr|Hr]; [|by exists g].
  unfold FORKER_MAX_PIDS in *. rewrite mem_write_ok by (cbn [length]; lia). eexists. split; [done|].
  split_and!; cbn [Forker_npids Forker_pids]; [rewrite store_length by (cbn [length]; lia); done|done|].
  unfold starts in *. unfold store. rewrite Nat2Z.id. rewrite take_app_le by (rewrite !length_take; lia).
  rewrite take_take, Nat.min_l by (rewrite length_take; lia). done.
Qed.

(** ** Which processes return *)

Definition returned (l : list copy) : list (Z * Z) := (λ c, (c_pid c, c_ret c)) <$> l.
Definition informed (l : list copy) (h : list Z) : Prop := ∃ c, last l = Some c ∧ knows (c_vars c) h.

Lemma informed_cons c l h : informed l h → informed (c :: l) h.
Proof. intros (c' & Hl & Hk). exists c'. split; [|done]. by rewrite last_cons, Hl. Qed.

Section run.
Context (ncopies : Z) (pid_of : Z → Z).

(** From turn [cnt] on, [m] forks succeed, and then the loop ends or a fork fails. *)
Definition forks_go (cnt m : Z) : Prop :=
  (∀ k, cnt ≤ k < cnt + m → fork k = Some (pid_of k)) ∧ (cnt + m = ncopies ∨ cnt + m < ncopies ∧ fork (cnt + m) = None).

Lemma forks_go_next cnt m : 0 ≤ m → forks_go cnt (m + 1) → cnt < ncopies ∧ fork cnt = Some (pid_of cnt) ∧ forks_go (cnt + 1) m.
Proof.
  intros Hm [Hf He]. split; [lia|]. split; [apply Hf; lia|]. split; [intros k Hk; apply Hf; lia|].
  by replace (cnt + 1 + m) with (cnt + (m + 1)) by lia.
Qed.

Definition the_pids (cnt m : Z) : list Z := pid_of <$> seqZ cnt m.

Lemma the_pids_next h cnt m : 0 ≤ m → (h ++ [pid_of cnt]) ++ the_pids (cnt + 1) m = h ++ the_pids cnt (m + 1).
Proof. intros. unfold the_pids. rewrite <-app_assoc, (seqZ_cons cnt) by lia. by replace (Z.pred (m + 1)) with m by lia. Qed.

(** The end of the loop, without or with a fork that fails. *)
Lemma loop_ends fuel cnt mode self g h : (0 < fuel)%nat → forks_go cnt 0 → knows g h →
  ∃ l, forker_loop fuel cnt ncopies mode self g = Ret l ∧
    returned l = [(self, if decide (cnt < ncopies ∧ mode = 1) then 0 else cnt - 1)] ∧ informed l h.
Proof.
  intros Hf [_ He] Hk. destruct fuel as [|fuel]; [lia|]. cbn [forker_loop]. rewrite Z.add_0_r in He. destruct He as [He|[He Hn]].
  - rewrite (proj2 (Z.ltb_ge _ _)) by lia. destruct (knows_end g h Hk) as (g' & -> & Hk'). rewrite res_bind_ret.
    eexists. split; [done|]. rewrite decide_False by lia. split; [done|]. by eexists.
  - rewrite (proj2 (Z.ltb_lt _ _)), Hn by lia. eexists. split; [done|]. split; [|by eexists]. cbn. do 2 f_equal.
    destruct (Z.eqb_spec mode 1); [by rewrite decide_True|]. by rewrite decide_False by lia.
Qed.

Lemma star_loop mode (m : nat) fuel cnt self g h : mode ≠ 1 → (m < fuel)%nat → forks_go cnt (Z.of_nat m) → knows g h →
  zlength h + Z.of_nat m ≤ INT_MAX →
  ∃ l, forker_loop fuel cnt ncopies mode self g = Ret l ∧
    returned l = ((λ k, (pid_of k, k)) <$> seqZ cnt (Z.of_nat m)) ++ [(self, cnt + Z.of_nat m - 1)] ∧ informed l (h ++ the_pids cnt (Z.of_nat m)).
Proof.
  intros Hmode. revert fuel cnt g h. induction m as [|m IH]; intros fuel cnt g h Hf Hgo Hk Hmax.
  - destruct (loop_ends fuel cnt mode self g h) as (l & El & Hr & Hi); [lia|done|done|]. exists l. split; [done|].
    change (seqZ cnt (Z.of_nat 0)) with (@nil Z). rewrite app_nil_r. rewrite decide_False in Hr by tauto. by rewrite Hr, Z.add_0_r.
  - destruct fuel as [|fuel]; [lia|]. rewrite Nat2Z.inj_succ, <-Z.add_1_r in *. destruct (forks_go_next cnt (Z.of_nat m)) as (Hc & Hfk & Hgo'); [lia|done|].
    cbn [forker_loop]. rewrite (proj2 (Z.ltb_lt _ _)), Hfk by lia.
    destruct (knows_put g h (pid_of cnt) Hk) as (g0 & g' & -> & E & Hk'); [lia|]. rewrite res_bind_ret, E, !res_bind_ret.
    rewrite (proj2 (Z.eqb_neq mode 1) Hmode).
    destruct (IH fuel (cnt + 1) g' (h ++ [pid_of cnt])) as (l & -> & Hr & Hi); [lia|done|done|rewrite length_app; cbn [length]; lia|].
    eexists. split; [done|]. rewrite the_pids_next in Hi by lia. split; [|by apply informed_cons].
    cbn [returned fmap list_fmap c_pid c_ret]. fold (returned l). rewrite Hr, (seqZ_cons cnt) by lia. cbn. by replace (Z.pred (Z.of_nat m + 1)) with (Z.of_nat m) by lia;
      replace (cnt + 1 + Z.of_nat m - 1) with (cnt + (Z.of_nat m + 1) - 1) by lia.
Qed.

Lemma chain_loop (m : nat) fuel cnt g h : (m < fuel)%nat → forks_go cnt (Z.of_nat m) → knows g h → zlength h + Z.of_nat m ≤ INT_MAX →
  ∃ l, forker_loop fuel cnt ncopies 1 (pid_of (cnt - 1)) g = Ret l ∧
    returned l = ((λ k, (pid_of k, k)) <$> seqZ (cnt - 1) (Z.of_nat m)) ++
      [(pid_of (cnt - 1 + Z.of_nat m), if decide (cnt + Z.of_nat m < ncopies) then 0 else cnt - 1 + Z.of_nat m)] ∧
    informed l (h ++ the_pids cnt (Z.of_nat m)).
Proof.
  revert fuel cnt g h. induction m as [|m IH]; intros fuel cnt g h Hf Hgo Hk Hmax.
  - destruct (loop_ends fuel cnt 1 (pid_of (cnt - 1)) g h) as (l & El & Hr & Hi); [lia|done|done|]. exists l. split; [done|].
    change (seqZ _ (Z.of_nat 0)) with (@nil Z). unfold the_pids. change (seqZ _ (Z.of_nat 0)) with (@nil Z). cbn [fmap list_fmap app].
    rewrite app_nil_r, Hr, !Z.add_0_r. split; [|done]. do 2 f_equal. apply decide_ext. tauto.
  - destruct fuel as [|fuel]; [lia|]. rewrite Nat2Z.inj_succ, <-Z.add_1_r in *. destruct (forks_go_next cnt (Z.of_nat m)) as (Hc & Hfk & Hgo'); [lia|done|].
    cbn [forker_loop]. rewrite (proj2 (Z.ltb_lt _ _)), Hfk by lia.
    destruct (knows_put g h (pid_of cnt) Hk) as (g0 & g' & -> & E & Hk'); [lia|]. rewrite res_bind_ret, E, !res_bind_ret. change (1 =? 1) with true. cbv iota.
    destruct (IH fuel (cnt + 1) g' (h ++ [pid_of cnt])) as (l & El & Hr & Hi); [lia|done|done|rewrite length_app; cbn [length]; lia|].
    rewrite Z.add_simpl_r in El, Hr. rewrite El, res_bind_ret.
    eexists. split; [done|]. rewrite the_pids_next in Hi by lia. split; [|by apply informed_cons].
    cbn [returned fmap list_fmap c_pid c_ret]. fold (returned l). rewrite Hr, (seqZ_cons (cnt - 1)) by lia. cbn.
    replace (Z.pred (Z.of_nat m + 1)) with (Z.of_nat m) by lia. replace (Z.succ (cnt - 1)) with cnt by lia.
    by replace (cnt - 1 + (Z.of_nat m + 1)) with (cnt + Z.of_nat m) by lia; replace (cnt + (Z.of_nat m + 1)) with (cnt + 1 + Z.of_nat m) by lia.
Qed.

(** When [m] forks succeed before one fails or there are enough copies, forker returns
    in m + 1 processes and stays inside of Forker_pids.  In mode 0 the child of turn k gets
    k and the caller gets m, the number of forks; the caller has the pids of all children.
    In mode 1 process k, counted from the caller, gets k, except that the last one gets 0
    after a fork that failed, and it is the last one that has all the pids.  The array has
    the first 4097 of them. *)
Theorem copies_made mode m g : zlength (Forker_pids g) = FORKER_MAX_PIDS → Forker_npids g = 0 → ncopies ≤ INT_MAX →
  0 ≤ m → forks_go 1 m →
  ∃ l, forker ncopies mode (pid_of 0) g = Ret l ∧ informed l (the_pids 1 m) ∧
    returned l = if decide (mode = 1)
      then ((λ k, (pid_of k, k)) <$> seqZ 0 m) ++ [(pid_of m, if decide (1 + m < ncopies) then 0 else m)]
      else ((λ k, (pid_of k, k)) <$> seqZ 1 m) ++ [(pid_of 0, m)].
Proof.
  intros Hl Hn Hmax Hm Hgo. unfold forker. rewrite mem_write_ok by (unfold FORKER_MAX_PIDS in *; cbn [length]; lia). rewrite res_bind_ret.
  set (g0 := ForkerVars _ _). assert (Hk : knows g0 []).
  { split_and!; cbn; [rewrite store_length; unfold FORKER_MAX_PIDS in *; cbn [length]; lia|done|]. by rewrite take_nil. }
  assert (Hf : (Z.to_nat m < S (Z.to_nat ncopies))%nat) by (destruct Hgo as [_ ?]; lia). rewrite <-(Z2Nat.id m) in Hgo by done.
  assert (Hb : zlength (@nil Z) + Z.of_nat (Z.to_nat m) ≤ INT_MAX) by (destruct Hgo as [_ ?]; cbn [length]; lia).
  destruct (decide (mode = 1)) as [->|Hmode].
  - destruct (chain_loop _ _ 1 g0 [] Hf Hgo Hk Hb) as (l & El & Hr & Hi). rewrite Z2Nat.id in Hr, Hi by done. by exists l.
  - destruct (star_loop mode _ _ 1 (pid_of 0) g0 [] Hmode Hf Hgo Hk Hb) as (l & El & Hr & Hi). rewrite Z2Nat.id in Hr, Hi by done.
    exists l. rewrite El, Hr. split; [done|]. split; [done|]. by replace (1 + m - 1) with m by lia.
Qed.
End run.
End forker.

(** ** Examples *)

Definition no_pids : forker_vars := ForkerVars (replicate (Z.to_nat FORKER_MAX_PIDS) 0) 0.
Definition forks_from (pid : Z) (ok : Z) (cnt : Z) : option Z := if cnt <=? ok then Some (pid + cnt) else None.

Lemma copies_made_witness : ∃ l, forker (forks_from 100 2) 3 1 100 no_pids = Ret l ∧
  informed l (the_pids (λ k, 100 + k) 1 2) ∧ returned l = [(100, 0); (101, 1); (102, 2)].
Proof.
  destruct (copies_made (forks_from 100 2) 3 (λ k, 100 + k) 1 2 no_pids) as (l & H1 & H2 & H3);
    [by vm_compute|done|by vm_compute|done| |by exists l].
  split; [|by left]. intros k Hk. unfold forks_from. by rewrite (proj2 (Z.leb_le _ _)) by lia.
Defined.

Definition values (r : res (list copy)) : option (list (Z * Z)) := match r with Ret l => Some (returned l) | _ => None end.

(** In mode 0 the caller and the last child get the same value. *)
Example same_value : values (forker (forks_from 100 2) 3 0 100 no_pids) = Some [(101, 1); (102, 2); (100, 2)].
Proof. vm_compute. reflexivity. Qed.

(** In mode 1 the newest child gets 0 when its fork fails, like the caller. *)
Example failure_forgets : values (forker (forks_from 100 2) 4 1 100 no_pids) = Some [(100, 0); (101, 1); (102, 0)].
Proof. vm_compute. reflexivity. Qed.

(** A second call clears the first pid of the first call and goes on behind the others. *)
Example second_call :
  (l ← forker (forks_from 100 2) 3 0 100 no_pids;
   l ← match last l with Some c => forker (forks_from 200 1) 2 0 100 (c_vars c) | None => Undef end;
   Ret (match last l with Some c => take 4 (Forker_pids (c_vars c)) | None => [] end)) = Ret [0; 102; 201; 0].
Proof. vm_compute. reflexivity. Qed.
