(* ===== verification/RmObj.v ===== *)
(** * Removing a directory with its contents (lib/rmobj.c)

    rmobj removes a file, or a directory with everything underneath it; the directories of
    the tests are removed with it (lib/tst_tmpdir.c).  The file system is an argument: a
    class with the laws of the calls rmobj makes, any of which may fail.  Shown: rmobj
    leaves everything outside of the object alone, whatever fails; when it returns 0 the
    object is gone, and it does return 0 when nothing stands in its way. *)

From S2P Require Import Prelude CInt CMem CString.
From stdpp Require Import gmap.
Local Open Scope Z_scope.

Definition PATH_MAX : Z := 4096.

(** The name of an entry, as [sprintf("%s/%s")] builds it. *)
Definition entry (dir name : cstr) : cstr := dir ++ str "/" ++ name.

(** [q] is strictly underneath [p]; is [p] or underneath it. *)
Definition under (p q : cstr) : Prop := (p ++ str "/") `prefix_of` q.
Definition within (p q : cstr) : Prop := q = p ∨ under p q.

Inductive file_kind : Type := KDir | KOther.
#[global] Instance file_kind_eq_dec : EqDecision file_kind.
Proof. solve_decision. Defined.

(** A file system, as far as rmobj sees it: the view gives each file one name, and a call
    that fails gives errno. *)
Class Files (Σ : Type) := {
  view : Σ → gmap cstr file_kind;
  open_dir : Σ → cstr → bool;
  opendir : Σ → cstr → option (list cstr);
  lstat : Σ → cstr → Z + Z;
  unlink : Σ → cstr → option Z * Σ;
  rmdir : Σ → cstr → option Z * Σ;
  remove : Σ → cstr → option Z * Σ }.

(** ** The code *)

Section rmobj.
Context `{Files Σ} (strerror : Z → cstr) (errmsg : bool).

(** The file system, and the message that errmsg points to. *)
Definition rm_state : Type := Σ * option cstr.

Definition err_text (call obj : cstr) (errno : Z) : cstr :=
  call ++ str "(" ++ obj ++ str ") failed; errno=" ++ fmt_d errno ++ str ": " ++ strerror errno.

(** [if (errmsg != NULL) sprintf(err_msg, ...), *errmsg = err_msg;], in 1024 bytes. *)
Definition set_msg (x : rm_state) (text : cstr) : res rm_state :=
  if errmsg then if zlength text <? 1024 then Ret (x.1, Some text) else Undef else Ret x.

Definition failed (call obj : cstr) (errno : Z) (x : rm_state) : res (Z * rm_state) :=
  x ← set_msg x (err_text call obj errno); Ret (-1, x).

(** A call that removes [obj], and the return after it. *)
Definition finish_with (call : cstr) (obj : cstr) (r : option Z * Σ) (x : rm_state) : res (Z * rm_state) :=
  match r.1 with
  | None => Ret (0, (r.2, x.2))
  | Some errno => failed call obj errno (r.2, x.2)
  end.

(** The loop over the entries: the final [ret_val]. *)
Fixpoint rm_entries (rm : cstr → rm_state → res (Z * rm_state)) (obj : cstr) (names : list cstr) (ret_val : Z) (x : rm_state) : res (Z * rm_state) :=
  match names with
  | [] => Ret (ret_val, x)
  | name :: names =>
      if bool_decide (name = str ".") || bool_decide (name = str "..") then rm_entries rm obj names ret_val x
      else
        let dirobj := entry obj name in
        if zlength dirobj <? PATH_MAX then
          r ← rm dirobj x;
          rm_entries rm obj names (if r.1 =? 0 then ret_val else -1) r.2
        else Undef
  end.

Definition rm_dir_itself (obj : cstr) (x : rm_state) : res (Z * rm_state) :=
  match lstat x.1 obj with
  | inr errno => failed (str "lstat") obj errno x
  | inl st_nlink => if 3 <=? st_nlink then finish_with (str "unlink") obj (unlink x.1 obj) x else finish_with (str "remove") obj (remove x.1 obj) x
  end.

Fixpoint rmobj_go (fuel : nat) (obj : cstr) (x : rm_state) : res (Z * rm_state) :=
  match fuel with
  | O => NoFuel
  | S fuel =>
      if open_dir x.1 obj then
        if bool_decide (obj = str "/") then x ← set_msg x (str "Cannot remove /"); Ret (-1, x)
        else match opendir x.1 obj with
        | None => finish_with (str "rmdir") obj (rmdir x.1 obj) x
        | Some names =>
            r ← rm_entries (rmobj_go fuel) obj names 0 x;
            let '(ret_val, x) := (r : Z * rm_state) in
            if ret_val =? -1 then Ret (-1, x) else rm_dir_itself obj x
        end
      else finish_with (str "unlink") obj (unlink x.1 obj) x
  end.

Definition rmobj (obj : cstr) (s : Σ) : res (Z * rm_state) := rmobj_go (S (Z.to_nat PATH_MAX)) obj (s, None).
End rmobj.

(** ** The laws of the file system *)

(** [p] was removed, and there was nothing underneath it. *)
Definition removed `{Files Σ} (p : cstr) (s s' : Σ) : Prop := view s' = delete p (view s) ∧ ∀ q, under p q → view s !! q = None.

(** Whether a call succeeds or not, its effect. *)
Definition removes `{Files Σ} (call : Σ → cstr → option Z * Σ) : Prop := ∀ s p,
  match call s p with
  | (None, s') => removed p s s'
  | (Some errno, s') => view s' = view s ∧ 0 < errno ≤ INT_MAX
  end.

Definition proper_name (n : cstr) : Prop := n ≠ str "." ∧ n ≠ str "..".

(** A directory lists what is in it; the names are without slashes. *)
Definition lists `{Files Σ} (s : Σ) (p : cstr) (names : list cstr) : Prop :=
  NoDup names ∧
  (∀ n, n ∈ names → proper_name n → is_Some (view s !! entry p n) ∧ "/"%char ∉ n) ∧
  (∀ q, under p q → is_Some (view s !! q) → ∃ n, n ∈ names ∧ proper_name n ∧ within (entry p n) q).

Class FilesOk (Σ : Type) `{Files Σ} : Prop := {
  unlink_law : removes unlink;
  rmdir_law : removes rmdir;
  remove_law : removes remove;
  lstat_law : ∀ s p errno, lstat s p = inr errno → 0 < errno ≤ INT_MAX;
  opendir_law : ∀ s p names, opendir s p = Some names → lists s p names }.

(** Nothing stands in the way of removing a file. *)
Definition allowed `{Files Σ} (s : Σ) (p : cstr) : Prop :=
  match view s !! p with
  | Some KDir => p ≠ str "/" ∧ open_dir s p = true ∧ is_Some (opendir s p) ∧
      ((∀ q, under p q → view s !! q = None) → (∃ n, lstat s p = inl n ∧ n < 3) ∧ (remove s p).1 = None)
  | Some KOther => open_dir s p = false ∧ (unlink s p).1 = None
  | None => True
  end.

(** ** Names *)

Lemma under_within p q : under p q → within p q.
Proof. by right. Qed.

Lemma entry_under p n : under p (entry p n).
Proof. unfold under, entry. rewrite app_assoc. by apply prefix_app_r. Qed.

Lemma within_entry p n q : within (entry p n) q → under p q.
Proof.
  intros [->|Hq]; [apply entry_under|]. unfold under, entry in *. etrans; [|exact Hq].
  exists (n ++ str "/"). by rewrite <-!app_assoc.
Qed.

Lemma within_trans p q r : within p q → within q r → within p r.
Proof.
  intros Hpq [->|Hqr]; [done|]. destruct Hpq as [->|Hpq]; [by right|]. right. unfold under in *. etrans; [exact Hpq|].
  etrans; [|exact Hqr]. by apply prefix_app_r.
Qed.

Lemma other_entry p n1 n2 : n1 ≠ n2 → "/"%char ∉ n2 → ¬ within (entry p n1) (entry p n2).
Proof.
  unfold within, under, entry. intros Hne Hn2 [E|E].
  - by apply app_inv_head, app_inv_head in E.
  - rewrite <-!app_assoc in E. apply prefix_app_inv, prefix_app_inv in E as [k ->]. apply Hn2. set_solver.
Qed.

Section spec.
Context `{FilesOk Σ} (strerror : Z → cstr) (errmsg : bool).

(** Names that fit into the buffers of rmobj. *)
Definition fits (q : cstr) : Prop :=
  zlength q < PATH_MAX ∧ (errmsg = true → ∀ call e, zlength call ≤ 6 → 0 < e ≤ INT_MAX → zlength (err_text strerror call q e) < 1024).
Definition all_fit (s : Σ) (obj : cstr) : Prop := fits obj ∧ ∀ q, within obj q → is_Some (view s !! q) → fits q.

(** Nothing stands in the way, now and when more files are gone. *)
Definition willing (s : Σ) (obj : cstr) : Prop := ∀ s' p, view s' ⊆ view s → within obj p → allowed s' p.

(** What rmobj promises: nothing else is touched; after 0 the object is gone. *)
Definition rm_post (obj : cstr) (s : Σ) (r : Z) (s' : Σ) : Prop :=
  (r = 0 ∨ r = -1) ∧ view s' ⊆ view s ∧ (∀ q, ¬ within obj q → view s' !! q = view s !! q) ∧
  (r = 0 → ∀ q, within obj q → view s' !! q = None) ∧ (willing s obj → is_Some (view s !! obj) → r = 0).

Lemma set_msg_ok (x : Σ * option cstr) text : (errmsg = true → zlength text < 1024) → ∃ m, set_msg errmsg x text = Ret (x.1, m).
Proof.
  intros Ht. unfold set_msg. destruct errmsg; [|exists x.2; by destruct x]. rewrite (proj2 (Z.ltb_lt _ _)) by auto. by eexists.
Qed.

Lemma failed_ok call obj e (x : Σ * option cstr) : fits obj → zlength call ≤ 6 → 0 < e ≤ INT_MAX → ∃ m, failed strerror errmsg call obj e x = Ret (-1, (x.1, m)).
Proof.
  intros [_ Hf] Hc He. unfold failed. destruct (set_msg_ok x (err_text strerror call obj e)) as [m ->]; [auto|]. by exists m.
Qed.

(** The return after the call that removes the object. *)
Lemma finish_ok call (f : Σ → cstr → option Z * Σ) obj (x : Σ * option cstr) : removes f → fits obj → zlength call ≤ 6 →
  ∃ r s' m, finish_with strerror errmsg call obj (f x.1 obj) x = Ret (r, (s', m)) ∧
    (r = 0 ∧ removed obj x.1 s' ∧ (f x.1 obj).1 = None ∨ r = -1 ∧ view s' = view x.1 ∧ (f x.1 obj).1 ≠ None).
Proof.
  intros Hr Hf Hc. specialize (Hr x.1 obj). unfold finish_with. destruct (f x.1 obj) as [[e|] s']; cbn [fst snd].
  - destruct Hr as [Hr He]. destruct (failed_ok call obj e (s', x.2) Hf Hc He) as [m ->]. exists (-1), s', m. split; [done|]. by right.
  - exists 0, s', x.2. split; [done|]. by left.
Qed.

(** It keeps the promise, when it was reached with what is underneath removed. *)
Lemma finish_post call (f : Σ → cstr → option Z * Σ) obj s (x : Σ * option cstr) : removes f → fits obj → zlength call ≤ 6 → view x.1 ⊆ view s →
  (∀ q, ¬ within obj q → view x.1 !! q = view s !! q) → (willing s obj → is_Some (view s !! obj) → (f x.1 obj).1 = None) →
  ∃ r s' m, finish_with strerror errmsg call obj (f x.1 obj) x = Ret (r, (s', m)) ∧ rm_post obj s r s'.
Proof.
  intros Hr Hf Hc Hsub Hout Hw. destruct (finish_ok call f obj x Hr Hf Hc) as (r & s' & m & E & Hres). exists r, s', m. split; [done|].
  destruct Hres as [(-> & [Hv Hu] & _)|(-> & Hv & Hn)]; split_and!; [by left| | | |done|by right|by rewrite Hv|by rewrite Hv|done|].
  - rewrite Hv. etrans; [apply delete_subseteq|done].
  - intros q Hq. rewrite Hv, lookup_delete_ne; [auto|]. intros <-. apply Hq. by left.
  - intros _ q Hq. rewrite Hv. destruct (decide (obj = q)) as [->|Hne]; [apply lookup_delete_eq|]. rewrite lookup_delete_ne by done.
    apply Hu. destruct Hq; [congruence|done].
  - intros ? ?. by destruct Hn; apply Hw.
Qed.

(** What the loop over the entries keeps of the promise. *)
Definition loop_post (obj : cstr) (names : list cstr) (s : Σ) (r0 r : Z) (s' : Σ) : Prop :=
  (r = 0 ∨ r = -1) ∧ view s' ⊆ view s ∧ (∀ q, ¬ under obj q → view s' !! q = view s !! q) ∧
  (r = 0 → ∀ n q, n ∈ names → proper_name n → within (entry obj n) q → view s' !! q = None) ∧
  (willing s obj → r0 = 0 → (∀ n, n ∈ names → proper_name n → is_Some (view s !! entry obj n)) → r = 0).

Lemma willing_sub s s' obj p : willing s obj → view s' ⊆ view s → within obj p → willing s' p.
Proof. intros Hw Hs Hp s2 q H2 Hq. apply Hw; [by etrans|by eapply within_trans]. Qed.

Lemma proper_dec n : bool_decide (n = str ".") || bool_decide (n = str "..") = false → proper_name n.
Proof. intros [H1%bool_decide_eq_false H2%bool_decide_eq_false]%orb_false_iff. done. Qed.

(** One entry more. *)
Lemma loop_post_cons obj n names s r1 s1 r0 r s' : n ∉ names → proper_name n → (∀ n', n' ∈ names → proper_name n' → "/"%char ∉ n') →
  rm_post (entry obj n) s r1 s1 → loop_post obj names s1 (if r1 =? 0 then r0 else -1) r s' → (r = 0 → (if r1 =? 0 then r0 else -1) = 0) →
  loop_post obj (n :: names) s r0 r s'.
Proof.
  intros Hnd Hp Hsl (Hr1 & Hsub1 & Hout1 & Hgone1 & Hwill1) (Hr & Hsub & Hout & Hgone & Hwill) Hret. split_and!; [done|by etrans| | |].
  - intros q Hq. rewrite Hout, Hout1; [done| |done]. intros Hw. by eapply Hq, within_entry.
  - intros -> n' q [->|Hn']%elem_of_cons Hp' Hq; [|by eapply Hgone]. destruct (view s' !! q) as [k|] eqn:E; [|done].
    apply (lookup_weaken _ (view s1)) in E; [|done]. rewrite Hgone1 in E; [done| |done].
    destruct (Z.eqb_spec r1 0); [done|]. by specialize (Hret eq_refl).
  - intros Hw -> Hall. assert (Hn : within obj (entry obj n)) by (right; apply entry_under).
    assert (r1 = 0) as -> by (apply Hwill1; [by eapply willing_sub|by apply Hall; [left|]]).
    apply Hwill; [eapply willing_sub; [done|done|by left]|done|]. intros n' Hn' Hp'. rewrite Hout1; [apply Hall; [by right|done]|].
    apply other_entry; [by intros ->|by apply Hsl].
Qed.

Lemma entries_ok rm obj names r0 (x : Σ * option cstr) : (r0 = 0 ∨ r0 = -1) → NoDup names →
  (∀ n, n ∈ names → proper_name n → zlength (entry obj n) < PATH_MAX ∧ "/"%char ∉ n) →
  (∀ n y, n ∈ names → proper_name n → view y.1 ⊆ view x.1 → ∃ r s' m, rm (entry obj n) y = Ret (r, (s', m)) ∧ rm_post (entry obj n) y.1 r s') →
  ∃ r s' m, rm_entries rm obj names r0 x = Ret (r, (s', m)) ∧ loop_post obj names x.1 r0 r s' ∧ (r = 0 → r0 = 0).
Proof.
  revert r0 x. induction names as [|n names IH]; intros r0 x Hr0 Hnd Hn Hrm; cbn [rm_entries].
  { exists r0, x.1, x.2. destruct x as [s m]. split; [done|]. split; [|done]. split_and!; [done|done|done|set_solver|done]. }
  apply NoDup_cons in Hnd as [Hni Hnd].
  destruct (bool_decide (n = str ".") || bool_decide (n = str "..")) eqn:Hdot.
  - destruct (IH r0 x Hr0 Hnd) as (r & s' & m & E & (H1 & H2 & H3 & H4 & H5) & H6); [by intros; apply Hn; [right|]|by intros; apply Hrm; [right|..]|].
    exists r, s', m. split; [done|]. split; [|done]. split_and!; [done..| |intros ? ? Hall; apply H5; [done..|]; by intros; apply Hall; [right|]].
    intros Hr n' q [->|Hn']%elem_of_cons [Hp1 Hp2]; [|by apply H4]. by rewrite !bool_decide_eq_false_2 in Hdot.
  - pose proof (proper_dec n Hdot) as Hp. rewrite (proj2 (Z.ltb_lt _ _)) by (apply Hn; [by left|done]).
    destruct (Hrm n x) as (r1 & s1 & m1 & -> & Hpost); [by left|done|done|]. rewrite res_bind_ret. cbn [fst snd].
    destruct (IH (if r1 =? 0 then r0 else -1) (s1, m1)) as (r & s' & m & -> & Hloop & Hret).
    { case_if; auto. } { done. } { by intros; apply Hn; [right|]. }
    { intros n' y Hn' Hp' Hy. apply Hrm; [by right|done|]. etrans; [exact Hy|]. apply Hpost. }
    exists r, s', m. split; [done|]. split; [eapply loop_post_cons; [done|done|..|done|done|done]; by intros; apply Hn; [right|]|].
    intros Hr. specialize (Hret Hr). by destruct (r1 =? 0).
Qed.

Lemma all_fit_entry s s' obj n : all_fit s obj → view s' ⊆ view s → is_Some (view s !! entry obj n) → all_fit s' (entry obj n).
Proof.
  intros [_ Hf] Hsub Hn. assert (within obj (entry obj n)) by (right; apply entry_under). split; [by apply Hf|].
  intros q Hq [k Hk]. apply Hf; [by eapply within_trans|]. exists k. by eapply lookup_weaken.
Qed.

(** The directory itself, after the loop. *)
Lemma dir_itself_post obj s (x : Σ * option cstr) names : fits obj → view x.1 ⊆ view s → (∀ q, ¬ under obj q → view x.1 !! q = view s !! q) →
  lists s obj names → (∀ n q, n ∈ names → proper_name n → within (entry obj n) q → view x.1 !! q = None) → (willing s obj → view s !! obj ≠ Some KOther) →
  ∃ r s' m, rm_dir_itself strerror errmsg obj x = Ret (r, (s', m)) ∧ rm_post obj s r s'.
Proof.
  intros Hf Hsub Hout (_ & _ & Hl) Hgone Hdir. assert (Hempty : ∀ q, under obj q → view x.1 !! q = None).
  { intros q Hq. destruct (view x.1 !! q) as [k|] eqn:E; [|done]. destruct (Hl q Hq) as (n & Hn & Hp & Hw); [exists k; by eapply lookup_weaken|].
    by rewrite (Hgone n q) in E. }
  assert (Hself : view x.1 !! obj = view s !! obj).
  { apply Hout. intros Hk%prefix_length. rewrite length_app in Hk. cbn in Hk. lia. }
  assert (Hall : willing s obj → is_Some (view s !! obj) → (∃ n, lstat x.1 obj = inl n ∧ n < 3) ∧ (remove x.1 obj).1 = None).
  { intros Hw [k Hk]. specialize (Hdir Hw). specialize (Hw x.1 obj Hsub ltac:(by left)). unfold allowed in Hw. rewrite Hself, Hk in Hw.
    destruct k; [|congruence]. by apply Hw. }
  assert (Hout' : ∀ q, ¬ within obj q → view x.1 !! q = view s !! q) by (intros q Hq; apply Hout; contradict Hq; by right).
  unfold rm_dir_itself. destruct (lstat x.1 obj) as [nlink|e] eqn:Hstat.
  - destruct (Z.leb_spec 3 nlink); apply finish_post; try done; [apply unlink_law| |apply remove_law|]; intros Hw Hk;
      destruct (Hall Hw Hk) as [(n & [= ->] & ?) ?]; [lia|done].
  - destruct (failed_ok (str "lstat") obj e x Hf) as [m ->]; [done|by eapply lstat_law|]. exists (-1), x.1, m. split; [done|].
    split_and!; [by right|done|done|done|]. intros Hw Hk. by destruct (Hall Hw Hk) as [(? & ? & _) _].
Qed.

Lemma rmobj_go_ok fuel obj (x : Σ * option cstr) : (Z.to_nat PATH_MAX < fuel + length obj)%nat → all_fit x.1 obj →
  ∃ r s' m, rmobj_go strerror errmsg fuel obj x = Ret (r, (s', m)) ∧ rm_post obj x.1 r s'.
Proof.
  revert obj x. induction fuel as [|fuel IH]; intros obj x Hfuel Hfit; [destruct Hfit as [[? _] _]; lia|].
  cbn [rmobj_go]. destruct (open_dir x.1 obj) eqn:Hopen.
  2: { apply finish_post; [apply unlink_law|apply (proj1 Hfit)|done|done|done|]. intros Hw [k Hk].
    specialize (Hw x.1 obj ltac:(done) ltac:(by left)). unfold allowed in Hw. rewrite Hk, Hopen in Hw. destruct k; by destruct_and? Hw. }
  assert (Hno : willing x.1 obj → view x.1 !! obj ≠ Some KOther).
  { intros Hw Hk. specialize (Hw x.1 obj ltac:(done) ltac:(by left)). unfold allowed in Hw. rewrite Hk, Hopen in Hw. by destruct Hw. }
  assert (Hyes : willing x.1 obj → is_Some (view x.1 !! obj) → obj ≠ str "/" ∧ is_Some (opendir x.1 obj)).
  { intros Hw [k Hk]. specialize (Hno Hw). specialize (Hw x.1 obj ltac:(done) ltac:(by left)). unfold allowed in Hw. rewrite Hk in Hw.
    destruct k; [|done]. by destruct_and? Hw. }
  case_bool_decide as Hroot.
  { destruct (set_msg_ok x (str "Cannot remove /")) as [m ->]; [by cbn|]. exists (-1), x.1, m. split; [done|].
    split_and!; [by right|done|done|done|]. intros Hw Hk. by destruct (Hyes Hw Hk). }
  destruct (opendir x.1 obj) as [names|] eqn:Hdir.
  2: { apply finish_post; [apply rmdir_law|apply (proj1 Hfit)|done|done|done|]. intros Hw Hk. by destruct (Hyes Hw Hk) as [_ [? ?]]. }
  pose proof (opendir_law _ _ _ Hdir) as Hlist. pose proof Hlist as (Hnd & Hn & Hall).
  destruct (entries_ok (rmobj_go strerror errmsg fuel) obj names 0 x) as (r & s' & m & -> & (H1 & H2 & H3 & H4 & H5) & _); [by left|done| | |].
  { intros n Hn1 Hp. destruct (Hn n Hn1 Hp) as [Hs ?]. split; [|done]. apply (proj1 (proj1 (all_fit_entry _ x.1 _ _ Hfit ltac:(done) Hs))). }
  { intros n y Hn1 Hp Hy. apply IH; [unfold entry; rewrite !length_app; cbn; lia|]. eapply all_fit_entry; [done|done|by apply Hn]. }
  rewrite res_bind_ret. destruct (Z.eqb_spec r (-1)) as [->|Hr].
  - exists (-1), s', m. split; [done|]. split_and!; [by right|done| |done|].
    + intros q Hq. apply H3. contradict Hq. by right.
    + intros Hw Hk. by specialize (H5 Hw eq_refl (λ n Hn1 Hp, proj1 (Hn n Hn1 Hp))).
  - apply (dir_itself_post obj x.1 (s', m) names); [apply (proj1 Hfit)|done|done|done|apply H4; by destruct H1|done].
Qed.

(** C36: As long as the names under the object and the messages about them fit into the buffers
    of rmobj ([all_fit]; [long_message] and [long_entry] are what happens else): whatever calls
    fail, rmobj returns 0 or -1 and every file outside of the object stays as it was; nothing
    comes into being.  When it returns 0 the object and everything underneath it are gone; and
    it does return 0 when the object is there and nothing stands in the way. *)
Theorem rmobj_removes obj (s : Σ) : all_fit s obj →
  ∃ r s' m, rmobj strerror errmsg obj s = Ret (r, (s', m)) ∧ rm_post obj s r s'.
Proof. intros Hfit. apply (rmobj_go_ok _ obj (s, None)); [lia|done]. Qed.
End spec.

(** ** Trees *)

#[global] Instance under_dec p q : Decision (under p q).
Proof. unfold under. apply _. Defined.

(** The entry of [p] in which [q] is. *)
Definition entry_of (p q : cstr) : option cstr :=
  if decide (under p q) then Some (span (λ c, negb (c =c "/"%char)) (drop (length p + 1) q)).1 else None.

Lemma entry_of_within p q n : entry_of p q = Some n → within (entry p n) q ∧ "/"%char ∉ n.
Proof.
  unfold entry_of. destruct (decide (under p q)) as [[t ->]|]; [|done]. intros [= <-].
  rewrite drop_app_length' by (rewrite length_app; cbn; lia). split.
  - pose proof (span_eq (λ c, negb (c =c "/"%char)) t) as E. pose proof (span_stop (λ c, negb (c =c "/"%char)) t) as Hs.
    destruct (span _ t) as [n [|c r]]; cbn in *; subst t; unfold within, under, entry; [left; by rewrite app_nil_r, <-app_assoc|right].
    apply negb_false_iff in Hs. destruct (eqc_spec c "/"%char) as [->|]; [|done]. exists r. by rewrite <-!app_assoc.
  - intros Hin. pose proof (span_all (λ c, negb (c =c "/"%char)) t) as Ha. rewrite Forall_forall in Ha. by specialize (Ha _ Hin).
Qed.

Lemma entry_of_under p q : under p q → is_Some (entry_of p q).
Proof. intros. unfold entry_of. rewrite decide_True by done. by eexists. Qed.

(** The files of a tree by name: what is underneath a file is in an entry of it. *)
Definition closed (m : gmap cstr file_kind) : Prop := ∀ p q n, is_Some (m !! q) → is_Some (m !! p) → entry_of p q = Some n →
  m !! p = Some KDir ∧ proper_name n ∧ is_Some (m !! entry p n).

Definition tree : Type := { m : gmap cstr file_kind | closed m }.

Definition empty_at (m : gmap cstr file_kind) (p : cstr) : Prop := map_Forall (λ q _, ¬ under p q) m.
#[global] Instance empty_at_dec m p : Decision (empty_at m p).
Proof. unfold empty_at. apply _. Defined.

Lemma empty_at_spec m p : empty_at m p ↔ ∀ q, under p q → m !! q = None.
Proof.
  split; [|intros Hu q k Hk Hq; by rewrite Hu in Hk]. intros He q Hq. destruct (m !! q) eqn:E; [|done]. by destruct (He q _ E).
Qed.

Lemma closed_delete m p : closed m → empty_at m p → closed (delete p m).
Proof.
  intros Hc He p' q n [k Hq] [k' Hp'] Hn. apply lookup_delete_Some in Hq as [Hqp Hq], Hp' as [Hpp Hp'].
  destruct (Hc p' q n) as (H1 & H2 & H3); [by eexists..|done|]. rewrite !lookup_delete_ne; [done| |done]. intros ->.
  destruct (entry_of_within _ _ _ Hn) as [[->|Hw] _]; [done|]. by destruct (He q k Hq).
Qed.

(** Removing a file of one kind. *)
Definition tree_remove (kind : file_kind) (s : tree) (p : cstr) : option Z * tree :=
  match decide (`s !! p = Some kind ∧ empty_at (`s) p) with
  | left H => (None, exist _ (delete p (`s)) (closed_delete _ _ (proj2_sig s) (proj2 H)))
  | right _ => (Some 1, s)
  end.

Definition tree_names (s : tree) (p : cstr) : list cstr :=
  str "." :: str ".." :: remove_dups (omap (entry_of p) (map_to_list (`s)).*1).

#[global] Instance tree_files : Files tree := {
  view := proj1_sig;
  open_dir s p := bool_decide (`s !! p = Some KDir);
  opendir s p := if decide (`s !! p = Some KDir) then Some (tree_names s p) else None;
  lstat s p := if decide (is_Some (`s !! p)) then inl 2 else inr 2;
  unlink := tree_remove KOther;
  rmdir := tree_remove KDir;
  remove := tree_remove KDir }.

Lemma tree_remove_law kind : removes (tree_remove kind).
Proof.
  intros s p. unfold tree_remove. destruct (decide _) as [[H1 H2]|]; [|by split]. split; [done|]. by apply empty_at_spec.
Qed.

Lemma tree_names_in (s : tree) p n : n ∈ remove_dups (omap (entry_of p) (map_to_list (`s)).*1) ↔ ∃ q, is_Some (`s !! q) ∧ entry_of p q = Some n.
Proof.
  rewrite elem_of_remove_dups, list_elem_of_omap. split.
  - intros (q & Hq & Hn). apply list_elem_of_fmap in Hq as ([q' k] & -> & Hq). apply elem_of_map_to_list in Hq. exists q'. split; [by eexists|done].
  - intros (q & [k Hk] & Hn). exists q. split; [|done]. apply list_elem_of_fmap. exists (q, k). split; [done|]. by apply elem_of_map_to_list.
Qed.

Lemma tree_lists (s : tree) p : `s !! p = Some KDir → lists s p (tree_names s p).
Proof.
  intros Hp. assert (Hin : ∀ n, n ∈ remove_dups (omap (entry_of p) (map_to_list (`s)).*1) → proper_name n ∧ is_Some (`s !! entry p n) ∧ "/"%char ∉ n).
  { intros n (q & Hq & Hn)%tree_names_in. destruct (proj2_sig s p q n Hq) as (_ & H1 & H2); [by eexists|done|].
    split; [done|]. split; [done|]. by eapply entry_of_within. }
  unfold tree_names. split_and!.
  - apply NoDup_cons. split; [|apply NoDup_cons; split; [|apply NoDup_remove_dups]].
    + intros [?|[[? _] _]%Hin]%elem_of_cons; done.
    + by intros [[_ ?] _]%Hin.
  - intros n Hn Hp'. rewrite !elem_of_cons in Hn. destruct Hn as [->|[->|Hn]]; [by destruct Hp' as [? ?]..|]. by apply Hin.
  - intros q Hq Hs. destruct (entry_of_under p q Hq) as [n Hn]. exists n. assert (Hm : n ∈ remove_dups (omap (entry_of p) (map_to_list (`s)).*1)).
    { apply tree_names_in. by exists q. }
    split; [by do 2 right|]. split; [by apply Hin|]. by apply entry_of_within.
Qed.

#[global] Instance tree_ok : FilesOk tree.
Proof.
  split; [apply tree_remove_law..| |].
  - intros s p e. cbn. destruct (decide _); [done|]. by intros [= <-].
  - intros s p names. cbn. destruct (decide _) as [Hp|]; [|done]. intros [= <-]. by apply tree_lists.
Qed.

(** Nothing stands in the way in a tree. *)
Lemma tree_willing (s : tree) obj : obj ≠ [] → obj ≠ str "/" → willing s obj.
Proof.
  intros Hne Hroot s' p _ Hp. unfold allowed. cbn [view open_dir opendir lstat unlink remove tree_files].
  destruct (`s' !! p) as [[]|] eqn:E; [| |done].
  - assert (p ≠ str "/").
    { intros ->. destruct Hp as [<-|[t Ht]]; [done|]. by destruct obj as [|c [|]]. }
    rewrite bool_decide_true, !decide_True by done. split_and!; [done|done|by eexists|]. intros He.
    split; [by exists 2|]. unfold tree_remove. destruct (decide _) as [|Hn]; [done|]. destruct Hn. split; [done|]. by apply empty_at_spec.
  - rewrite bool_decide_false by congruence. split; [done|]. unfold tree_remove. destruct (decide _) as [|Hn]; [done|]. destruct Hn. split; [done|].
    apply empty_at_spec. intros q Hq. destruct (`s' !! q) eqn:Eq; [|done]. destruct (entry_of_under p q Hq) as [n Hn].
    destruct (proj2_sig s' p q n) as (? & _); [by eexists..|done|congruence].
Qed.

(** ** Examples *)

(** Trees from a list, checked. *)
Definition well_placed (m : gmap cstr file_kind) (p q : cstr) : bool :=
  match entry_of p q with
  | Some n => bool_decide (m !! p = Some KDir) && negb (bool_decide (n = str ".")) && negb (bool_decide (n = str "..")) && bool_decide (is_Some (m !! entry p n))
  | None => true
  end.
Definition closed_check (m : gmap cstr file_kind) : bool :=
  let keys := (map_to_list m).*1 in forallb (λ p, forallb (well_placed m p) keys) keys.

Lemma closed_check_ok m : closed_check m = true → closed m.
Proof.
  intros Hc p q n [kq Hq] [kp Hp] Hn. assert (Hin : ∀ r k, m !! r = Some k → In r (map_to_list m).*1).
  { intros r k Hr. apply list_elem_of_In, list_elem_of_fmap. exists (r, k). split; [done|]. by apply elem_of_map_to_list. }
  unfold closed_check in Hc. rewrite forallb_forall in Hc. specialize (Hc p (Hin _ _ Hp)). rewrite forallb_forall in Hc.
  specialize (Hc q (Hin _ _ Hq)). unfold well_placed in Hc. rewrite Hn in Hc.
  apply andb_true_iff in Hc as [[[H1%bool_decide_eq_true H2%negb_true_iff]%andb_true_iff H3%negb_true_iff]%andb_true_iff H4%bool_decide_eq_true].
  apply bool_decide_eq_false in H2, H3. done.
Qed.

Definition demo_map : gmap cstr file_kind :=
  list_to_map [(str "t", KDir); (str "t/a", KOther); (str "t/d", KDir); (str "t/d/b", KOther); (str "tu", KOther)].
Definition demo_tree : tree := exist _ demo_map (closed_check_ok demo_map eq_refl).
Definition perror (errno : Z) : cstr := str "Operation not permitted".

Lemma short_fits errmsg q : zlength q ≤ 900 → fits perror errmsg q.
Proof.
  intros Hq. split; [unfold PATH_MAX; lia|]. intros _ call e Hc He. unfold err_text. rewrite !length_app.
  pose proof (fmt_d_length e). change (length (perror e)) with 23%nat. unfold INT_MIN, INT_MAX in *. cbn [length str String.list_ascii_of_string]. lia.
Qed.

Lemma rmobj_removes_witness : ∃ s' m, rmobj perror true (str "t") demo_tree = Ret (0, (s', m)) ∧
  (∀ q, within (str "t") q → view s' !! q = None) ∧ view s' !! str "tu" = Some KOther.
Proof.
  destruct (rmobj_removes perror true (str "t") demo_tree) as (r & s' & m & E & (_ & _ & Hout & Hgone & Hw)).
  - split; [by apply short_fits|]. intros q _ Hq. apply short_fits.
    assert (Hall : map_Forall (λ q _, zlength q ≤ 900) demo_map) by (apply (bool_decide_unpack _); vm_compute; exact I).
    destruct Hq as [k Hk]. exact (Hall q k Hk).
  - assert (r = 0) as -> by (apply Hw; [by apply tree_willing|vm_compute; by eexists]). exists s', m. split; [done|].
    split; [by apply Hgone|]. rewrite Hout; [by vm_compute|]. intros [?|[t Ht]]; done.
Defined.

(** What is left, and the message. *)
Definition outcome (r : res (Z * (tree * option cstr))) : res (Z * list cstr * option cstr) :=
  r ← r; Ret (r.1, (map_to_list (`r.2.1)).*1, r.2.2).

Example rmobj_run : outcome (rmobj perror true (str "t") demo_tree) = Ret (0, [str "tu"], None).
Proof. vm_compute. reflexivity. Qed.

Example rmobj_missing : (r ← outcome (rmobj perror true (str "no") demo_tree); Ret r.2) =
  Ret (Some (str "unlink(no) failed; errno=1: Operation not permitted")).
Proof. vm_compute. reflexivity. Qed.

(** A message with a long name does not fit into err_msg. *)
Example long_message : rmobj perror true (replicate 1000 "n"%char) demo_tree = Undef.
Proof. vm_compute. reflexivity. Qed.

(** The name of an entry may be longer than dirobj. *)
Definition deep_name : cstr := replicate (Z.to_nat 4090) "n"%char.
Definition deep_map : gmap cstr file_kind := list_to_map [(deep_name, KDir); (entry deep_name (str "entry"), KOther)].
Definition deep_tree : tree := exist _ deep_map (closed_check_ok deep_map ltac:(vm_compute; reflexivity)).

Example long_entry : rmobj perror false deep_name deep_tree = Undef.
Proof. vm_compute. reflexivity. Qed.
